(* ===== verification/_CoqProject ===== *)
-Q . S2P
Prelude.v
Traced.v
Sorting.v
Bytes.v
SecureFs.v
Config.v
Crypto.v
Kyn.v
Names.v
Physics.v
Net.v
RsaVdf.v
Kid.v
Records.v
Action.v
Verify.v
Nrs.v
Lru.v
Peers.v
DnsTree.v
Storage.v
StoreVerify.v
TieBreaker.v
Store.v
EventLoop.v
Oracle.v
ActionNode.v
ApiAuth.v
KidManager.v
RegistrationApi.v
MacroApi.v
KidApi.v
Proxy.v
Texts.v
DifficultyApi.v
DnsServer.v
Waiting.v
LoopSafety.v
LoopExamples.v
Client.v
ClientExamples.v
NodeApi.v
SwappedLoop.v
Rotation.v
Publishers.v
LocalState.v
RotationExamples.v
Errors.v
Pac.v
PacOs.v
PacScript.v
PacExamples.v
Ca.v
DaemonStart.v
CaExamples.v
NodeExamples.v
DaemonExamples.v
