(* ===== verification/Prelude.v ===== *)
(** * Kinetic: a verification library

    Kinetic is a peer-to-peer naming network.  A name is registered by a reveal
    that carries a proof of sequential work over a commitment made earlier;
    reveals, heartbeats, identity documents and manifests are stored in a
    Kademlia DHT whose nodes admit only what verifies; a resolver answers DNS
    queries from them; sovereign actions travel by gossip; a daemon offers all of
    it through a local HTTP API.  This library models that core in the order of
    the files of [_CoqProject]; every definition follows the Rust source named in
    the header of its file.

    ** Files and the code they model

    Foundations.
    - [Prelude] (this file): results, early returns, machine integers and the
      tactics every file uses.  [Sorting]: the slice methods that order elements.
    - [Bytes]: strings and bytes, fixed-width encodings, framing.
    - [Config]: [network.json] and the constants [build.rs] generates from it.
    - [Traced]: programs whose every intermediate state counts, and the rules to
      prove that none of them is bad: the process may be killed between any two
      effects.
    - [Crypto]: [kinetic-primitives], and as interfaces SHA-256, ML-DSA-65, the
      codecs and peer identifiers, with a toy instance for the witnesses.

    The protocol.
    - [Kyn]: [kinetic-kyn], time and beacon pulses.  [Names]: apex names
      ([kinetic-core/src/types/names.rs]).  [Physics]: the difficulty curve and
      the takeover decay ([kinetic-core/src/physics.rs]).  [Net]: the SSRF filter
      and the address parser ([kinetic-core/src/net.rs]).
    - [RsaVdf]: [kinetic-vdf], the Wesolowski prover and verifier.
    - [Kid]: [kinetic-kid], identity documents and manifests.  [Records]:
      [kinetic-types], the wire records and their signed layouts.
    - [Action]: [kinetic-action], halts, resumes and key rotations.
    - [Verify]: [kinetic-verify], who may sign a reveal.

    The node.
    - [Nrs]: zones ([kinetic-core/src/types/nrs.rs]) and the resolver
      ([kinetic-nrs]).  [Lru]: the cache interface.  [Peers], [DnsTree]:
      challenges, the peer registry and the DNS seed tree ([kinetic-network]).
    - [Storage]: the storage engines ([kinetic-storage]) behind one interface.
    - [StoreVerify], [Store]: admission and the DHT record store
      ([kinetic-network/src/store]).  [TieBreaker]: the choice among the
      payloads a query returns.
    - [EventLoop]: the reactor ([kinetic-network/src/event_loop]) as a step
      function over its state; [Waiting], [LoopSafety], [LoopExamples]: its
      theorems.  [Oracle]: the beacon provider ([client/beacon.rs]).
    - [Client]: the handle other tasks command the loop with, over a channel that
      may be full, closed or late, and the telemetry loop ([client/]);
      [ClientExamples]: its witnesses.

    The processes.
    - [ActionNode]: the action state of a running daemon, node or host: state
      file, gossip listeners, start-up and action API; [NodeExamples]: its
      witnesses.
    - [Rotation]: the network identity of a running daemon or host, checked at
      each kyn and changed by replacing the loop
      ([kinetic-daemon/src/services/network.rs], [kinetic-host/src/hot_swap.rs]);
      [SwappedLoop]: what the new loop knows; [Publishers]: what both republish
      and broadcast; [RotationExamples]: the witnesses of these and the next.
    - [SecureFs]: writing a secret ([kinetic-local/src/secure_fs.rs]) on a file
      system of inodes and names, where a write lasts when its file was synced and
      a name when the system pleases.
    - [LocalState]: configuration and static keys on disk ([kinetic-local],
      [kinetic-core/src/config.rs], [node_key.rs], [host_key.rs],
      [api/config.rs]).
    - [Errors]: the codes, severities and retry flags of the errors of every part
      and what the API answers for them ([kinetic-core/src/error/],
      [kinetic-action/src/error.rs], [kinetic-rpc/src/api_error.rs]).
    - [Pac], [PacOs], [PacScript]: the proxy auto-configuration ([kinetic-pac]):
      the manager over the interface [Restorable] of a desktop's settings, the
      four desktops (GNOME's and, in part, KDE's settings are [Restorable];
      where the others lose something is proved), and the script browsers run;
      [PacExamples]: the witnesses.
    - [Ca]: the root certificate, its lock and the cache of host certificates
      ([kinetic-daemon/src/ca.rs]); [CaExamples]: the witnesses.
    - [DaemonStart]: the run of the daemon as its effects in order, composed of the
      parts above ([kinetic-daemon/src/main.rs]), the tokens and the listener of
      its API ([api/mod.rs]) and its registration with the proxy script;
      [DaemonExamples]: the witness.
    - [ApiAuth]: roles, tokens, sessions and routes of the daemon's API.
    - [KidManager]: the identity documents, keys and manifests kept on disk
      ([kinetic-local/src/kid_manager.rs]).
    - [RegistrationApi]: publication, resolution, zones, delegated updates and
      heartbeats ([kinetic-daemon/src/api/nrs.rs], [api/heartbeat.rs],
      [services/heartbeat.rs]).
    - [MacroApi]: the registration and renewal jobs and their task map
      ([kinetic-daemon/src/api/macro_api.rs]); other requests may change the
      state between the steps of a job.  [KidApi]: the identity handlers
      ([api/kid.rs]).
    - [Proxy]: the HTTP proxy ([kinetic-daemon/src/proxy/]): what a browser's
      request becomes and what its answer becomes, the DNS cache, and both ends
      of the peer-to-peer tunnel ([proxy/p2p.rs], [kinetic-host/src/proxy.rs]).
    - [Texts]: decimal numbers as texts.  [DifficultyApi]: the announced efforts and
      the validation of names ([api/vdf_api.rs]).  [DnsServer]: the DNS handler over
      time, the suffixes of the bridge ([api/atlas.rs]) and the stand-alone server
      ([kinetic-nrs/src/bin/kinetic-nrs.rs]).
    - [NodeApi]: the handlers that report on the node, command the loop, stream
      gossip and end the process ([api/config.rs], [api/gossip.rs],
      [api/system.rs], [api/time.rs]).

    ** How the parts interact

    [Records] signs over the layouts of [Bytes]; [Verify] checks those
    signatures with [Kid]'s documents; [StoreVerify] adds the commitment, the
    pulse and the work; [Store] applies its verdict to the state behind the
    [StorageEngine] interface of [Storage]; [EventLoop] feeds the store and
    [TieBreaker] picks an answer, which [Nrs] turns into DNS records.
    [ActionNode] supplies the halt state and the sovereign key that [Store] and
    [EventLoop] consult.  The API files call the same definitions as a node: a
    theorem about what the API publishes ends in the verifier of the node that
    receives it.

    ** State and effects

    A stateful component is a record and its operations are functions that
    return the new record; the event loop and a process are step functions over
    an explicit input, and their theorems speak of every run.  Fallible code
    returns [Result].  What is outside the source (third-party crates, the file
    system, the network, the clock, the generator of random numbers) is an
    argument or an operation of a type class, with the documented behaviour the
    code relies on as the laws of a second class; each class of laws has an
    instance, and every theorem with hypotheses a witness that applies it to
    concrete values.  Unsigned integers are [Z] with the wrap-around, saturation
    or absolute difference of each operator written out.

    ** What the theorems show

    - Admission: who may own a name and for how long, what an admitted reveal
      guarantees, how much work it needs, what moves a heartbeat.
    - Proofs of work: the optimised prover returns the specified output and the
      verifier accepts it, for moduli of at most 2048 bits, and refuses zero
      challenges and zero iterations.
    - Signatures: the layouts determine what was signed and their kinds are
      disjoint; who is accepted as a signer, and which acceptances are too wide.
    - Resolution: what an answer is made of, and which payload wins.
    - The loop: every caller is answered exactly once, counters do not wrap,
      only verified records are committed, strikes lead to bans.
    - Persistence: both engines serve an ordered map over any calls, a cut log
      restores exactly the operations wholly before the cut, the action state
      survives a restart, and when it does not.
    - Clients and identities: every call ends, with the loop's answer or an
      error; the identity of a running process stays good, changes seldom, and
      what a process loses when it changes or cannot.
    - The disk of a process: what a killed process and a stopped machine leave of
      a secret, on Unix and elsewhere, when a key survives, when a saved
      configuration starts.
    - Actions: when an action can be executed again and what is counted as paused
      at arbitrary clocks; no replay and an exact count where no clock runs
      backwards.
    - The API: no escalation to administrator, revocation is final, what a
      publication sends and whether the network takes it.
    - Local identities: a created identity passes the update rule; rotations,
      revocations and delegations made locally do not.
    - Jobs: a registration ends with a reveal of enough work that the verifier
      accepts once its commitment has matured, and a bounded task map; that no
      store parses what is sent, and what a renewal can achieve.
    - The start of the daemon: a start that fails leaves the registration alone;
      what is registered and which tokens count while the API serves.
    - The settings of the desktop: what a user gets back after installations,
      uninstallations and kills in any order, and what each desktop loses.
    - The certificate authority: the wait for its lock ends, when its certificate
      is found again with its key, what an interrupted creation leaves.
    - Advice: the efforts the API announces are the ones stores ask for.
    - The DNS server: how old an answer can be, which names are never sent to the
      bridge, when the operating system asks the server.
    - Errors: which errors a code of the API stands for, and which may be retried.
    - The proxy: requests to addresses and web hosts leave only for checked ones
      (requests to IPFS stay under the configured gateways, requests to peers carry
      no credentials), follow records of verified zones within ten aliases, and bodies are bounded at every end;
      which paths escape the local web server.

    ** Bounds and fuel

    [RsaVdf.evaluate] and the search for a prime take fuel; the theorems give an
    amount that suffices (the iteration count, and the counter of the first
    accepted candidate).  [DnsTree] stops at the code's own limit of twenty
    lookups and the alias loop of [Proxy] at ten, so their fuel is that limit;
    [Ca.acquire] needs no more than the retries its loop allows.
    [DaemonStart.bind_api] tries ten times, as the loop it models.
    All other recursions are structural or run over the length of a text.

    ** Not modelled

    Swarm construction and libp2p; sockets, TLS termination, making a certificate
    and asking the system to trust it; the system's service managers; process
    start-up but for what decides whether it succeeds; the command line and the
    test harness; signals; messages for users and logs.  These are input and
    output around the modelled core, or third-party code. *)
From Stdlib Require Export ZArith Lia Bool.
From stdpp Require Export prelude gmap.

#[global] Open Scope Z_scope.

(** ** Fallible code: Rust's [Result<A, E>] *)

Inductive Result (E A : Type) : Type :=
  | Ok (a : A)
  | Err (e : E).
Arguments Ok {E A} _.
Arguments Err {E A} _.

#[export] Instance result_ret {E} : MRet (Result E) := fun A a => Ok a.
#[export] Instance result_bind {E} : MBind (Result E) :=
  fun A B f r => match r with Ok a => f a | Err e => Err e end.
#[export] Instance result_fmap {E} : FMap (Result E) :=
  fun A B f r => match r with Ok a => Ok (f a) | Err e => Err e end.

#[export] Instance result_eq_dec {E A} `{EqDecision E, EqDecision A} :
  EqDecision (Result E A).
Proof. solve_decision. Defined.

Lemma pair_of_snd {A B} (p : A * B) b : p.2 = b -> p = (p.1, b).
Proof. destruct p. by intros <-. Qed.

(** Unlike [injection] this does not reduce the payloads. *)
Lemma Ok_inj {E A} (a b : A) : @Ok E A a = Ok b -> a = b.
Proof. congruence. Qed.

(** [bail_if b e] is the early return [if b { return Err(e) }]. *)
Definition bail_if {E} (b : bool) (e : E) : Result E unit :=
  if b then Err e else Ok tt.

(** [ok_or o e] is [Option::ok_or]. *)
Definition ok_or {E A} (o : option A) (e : E) : Result E A :=
  match o with Some a => Ok a | None => Err e end.

(** [map_err f r] is [Result::map_err]. *)
Definition map_err {E F A} (f : E -> F) (r : Result E A) : Result F A :=
  match r with Ok a => Ok a | Err e => Err (f e) end.

Definition is_ok {E A} (r : Result E A) : bool :=
  match r with Ok _ => true | Err _ => false end.

Definition is_err {E A} (r : Result E A) : bool := negb (is_ok r).

Lemma bail_if_ok {E A} (b : bool) (e : E) (k : Result E A) a :
  (bail_if b e ≫= fun _ => k) = Ok a <-> b = false /\ k = Ok a.
Proof. destruct b; cbn; naive_solver. Qed.

Lemma bail_if_unit {E} (b : bool) (e : E) : bail_if b e = Ok tt <-> b = false.
Proof. destruct b; cbn; naive_solver. Qed.

Lemma bind_ok {E A B} (r : Result E A) (f : A -> Result E B) b :
  r ≫= f = Ok b <-> exists a, r = Ok a /\ f a = Ok b.
Proof. destruct r; cbn; naive_solver. Qed.

Lemma ok_or_ok {E A} (o : option A) (e : E) a : ok_or o e = Ok a <-> o = Some a.
Proof. destruct o; cbn; naive_solver. Qed.

Lemma map_err_ok {E F A} (f : E -> F) (r : Result E A) a : map_err f r = Ok a <-> r = Ok a.
Proof. destruct r; cbn; naive_solver. Qed.

Lemma is_ok_true {E A} (r : Result E A) : is_ok r = true <-> exists a, r = Ok a.
Proof. destruct r; cbn; naive_solver. Qed.

Lemma is_err_false {E A} (r : Result E A) : is_err r = false <-> exists a, r = Ok a.
Proof. unfold is_err. rewrite negb_false_iff. apply is_ok_true. Qed.

Lemma is_err_unit {E} (r : Result E unit) : is_err r = false <-> r = Ok tt.
Proof. destruct r as [[]|]; cbn; naive_solver. Qed.

(** [for x in l { f(x)?; }] *)
Fixpoint try_for_each {E A} (f : A -> Result E unit) (l : list A) : Result E unit :=
  match l with
  | [] => Ok tt
  | x :: l' => f x;; try_for_each f l'
  end.

Lemma try_for_each_ok {E A} (f : A -> Result E unit) l :
  try_for_each f l = Ok tt <-> Forall (fun x => f x = Ok tt) l.
Proof.
  induction l as [|x l IH]; cbn [try_for_each]; [by split|].
  rewrite Forall_cons, <- IH. destruct (f x) as [[]|e]; cbn; naive_solver.
Qed.

Lemma and_iff_cong (P P' Q Q' : Prop) : (P <-> P') -> (Q <-> Q') -> P /\ Q <-> P' /\ Q'.
Proof. tauto. Qed.

(** ** Machine integers

    A [u8], [u32], [u64] or [u128] is a [Z]; an arithmetic operator of the
    code that can leave the range is written with its wrap-around (the
    release profile has no overflow checks), saturation or absolute
    difference. *)

Definition u64_max : Z := 2 ^ 64 - 1.
Definition is_u64 (x : Z) : Prop := 0 <= x < 2 ^ 64.
Definition is_u8 (x : Z) : Prop := 0 <= x < 256.

Definition wadd64 (a b : Z) : Z := (a + b) mod 2 ^ 64.
Definition wmul64 (a b : Z) : Z := (a * b) mod 2 ^ 64.
Definition wmul128 (a b : Z) : Z := (a * b) mod 2 ^ 128.
Definition as_u64 (a : Z) : Z := a mod 2 ^ 64.
Definition as_u32 (a : Z) : Z := a mod 2 ^ 32.
Definition sat_add (a b : Z) : Z := Z.min u64_max (a + b).
Definition sat_sub (a b : Z) : Z := Z.max 0 (a - b).
Definition abs_diff (a b : Z) : Z := Z.abs (a - b).

#[export] Instance is_u64_dec x : Decision (is_u64 x).
Proof. unfold is_u64. apply _. Defined.

(** ** Tactics and hints of the development *)

Create HintDb kinetic discriminated.
Create Rewrite HintDb kinetic.

(** Case analysis of the booleans the translated guards are made of. *)
Ltac zbool :=
  repeat match goal with
  | H : (_ && _) = true |- _ => apply andb_true_iff in H as [? ?]
  | H : (_ || _) = false |- _ => apply orb_false_iff in H as [? ?]
  | H : negb _ = true |- _ => apply negb_true_iff in H
  | H : negb _ = false |- _ => apply negb_false_iff in H
  | H : (_ <? _) = true |- _ => apply Z.ltb_lt in H
  | H : (_ <? _) = false |- _ => apply Z.ltb_ge in H
  | H : (_ <=? _) = true |- _ => apply Z.leb_le in H
  | H : (_ <=? _) = false |- _ => apply Z.leb_gt in H
  | H : (_ =? _) = true |- _ => apply Z.eqb_eq in H
  | H : (_ =? _) = false |- _ => apply Z.eqb_neq in H
  | H : (_ >? _) = _ |- _ => rewrite Z.gtb_ltb in H
  | H : (_ >=? _) = _ |- _ => rewrite Z.geb_leb in H
  | H : bool_decide _ = true |- _ => apply bool_decide_eq_true_1 in H
  | H : bool_decide _ = false |- _ => apply bool_decide_eq_false_1 in H
  end.

(** [invert_ok H] walks the early returns of [H : (m : Result _ _) = Ok _]. *)
Ltac invert_ok H :=
  repeat first
    [ rewrite bail_if_ok in H; destruct H as [? H]
    | rewrite bind_ok in H; destruct H as (? & ? & H)
    | rewrite ok_or_ok in H ];
  repeat match goal with E : ok_or _ _ = Ok _ |- _ => apply ok_or_ok in E end.

(** [lia] with quotients and remainders by constants. *)
Ltac dlia := Z.to_euclidean_division_equations; lia.

Ltac unfold_u64 := unfold is_u64, sat_add, sat_sub, abs_diff, u64_max in *.

Lemma wadd64_small a b : 0 <= a + b < 2 ^ 64 -> wadd64 a b = a + b.
Proof. intros. unfold wadd64. now rewrite Z.mod_small. Qed.

Lemma wmul64_small a b : 0 <= a * b < 2 ^ 64 -> wmul64 a b = a * b.
Proof. intros. unfold wmul64. now rewrite Z.mod_small. Qed.

Lemma wmul128_small a b : 0 <= a * b < 2 ^ 128 -> wmul128 a b = a * b.
Proof. intros. unfold wmul128. now rewrite Z.mod_small. Qed.

(** A product of two [u64]s never wraps in [u128]. *)
Lemma wmul128_u64 a b : is_u64 a -> is_u64 b -> wmul128 a b = a * b.
Proof.
  unfold is_u64. intros Ha Hb. apply wmul128_small. split; [nia|].
  change (2 ^ 128) with (2 ^ 64 * 2 ^ 64). apply Z.mul_lt_mono_nonneg; lia.
Qed.

Lemma as_u64_small a : 0 <= a < 2 ^ 64 -> as_u64 a = a.
Proof. intros. unfold as_u64. now rewrite Z.mod_small. Qed.

Lemma sat_add_range a b : is_u64 a -> is_u64 b -> is_u64 (sat_add a b).
Proof. unfold_u64. lia. Qed.

Lemma sat_sub_range a b : is_u64 a -> is_u64 b -> is_u64 (sat_sub a b).
Proof. unfold_u64. lia. Qed.

#[export] Hint Resolve sat_add_range sat_sub_range : kinetic.

(** ** Lists *)

Definition len {A} (l : list A) : Z := Z.of_nat (length l).

Lemma len_app {A} (l k : list A) : len (l ++ k) = len l + len k.
Proof. unfold len. rewrite length_app. lia. Qed.

Lemma len_nonneg {A} (l : list A) : 0 <= len l.
Proof. unfold len. lia. Qed.

Lemma len_nil {A} : len (@nil A) = 0.
Proof. reflexivity. Qed.

Lemma len_cons {A} (x : A) l : len (x :: l) = 1 + len l.
Proof. unfold len. cbn. lia. Qed.

Lemma app_inj_len {A} (a b c d : list A) :
  length a = length b -> a ++ c = b ++ d -> a = b /\ c = d.
Proof. intros Hl H. by apply app_inj_1 in H. Qed.

#[export] Hint Resolve len_nonneg : kinetic.
#[export] Hint Rewrite @len_app @len_nil @len_cons : kinetic.

(** A relation that every step of a loop respects relates its start and end. *)
Lemma fold_left_rel {S A} (R : S -> S -> Prop) `{!PreOrder R} (f : S -> A -> S) l s :
  (forall s x, R s (f s x)) -> R s (fold_left f l s).
Proof.
  intros Hf. revert s. induction l as [|x l IH]; intros s; [done|]. etrans; [apply Hf|apply IH].
Qed.
