(* ===== verification/Traced.v ===== *)
(** * Computations whose intermediate states matter

    A state-passing computation that also lists the state after each of its
    steps, so that "the process is stopped here" is a state of that list, and
    the rules of a Hoare logic whose triples also speak of every state passed
    through. *)
From S2P Require Import Prelude.

(** The states after each step, the last state and the result. *)
Definition Traced (S A : Type) : Type := S -> list S * (S * A).

#[export] Instance traced_ret {S} : MRet (Traced S) := fun A a s => ([], (s, a)).
#[export] Instance traced_bind {S} : MBind (Traced S) := fun A B f m s =>
  let '(states, (t, a)) := m s in let '(states', r) := f a t in (states ++ states', r).

(** One step; a look at the state. *)
Definition step_with {S A} (f : S -> S * A) : Traced S A := fun s => let '(t, a) := f s in ([t], (t, a)).
Definition modify {S} (f : S -> S) : Traced S unit := step_with (fun s => (f s, tt)).
Definition look {S A} (f : S -> A) : Traced S A := fun s => ([], (s, f s)).

(** [m?] before [f]. *)
Definition and_then {S E A B} (m : Traced S (Result E A)) (f : A -> Traced S (Result E B)) : Traced S (Result E B) :=
  m ≫= fun r => match r with Ok a => f a | Err e => mret (Err e) end.
Notation "x ←? m ; k" := (and_then m (fun x => k)) (at level 20, m at level 100, k at level 200, right associativity).

(** [for x in l { f(x); }] *)
Fixpoint for_each {S A} (f : A -> Traced S unit) (l : list A) : Traced S unit :=
  match l with
  | [] => mret tt
  | x :: l => f x ≫= fun _ => for_each f l
  end.

(** A computation on a part of the state. *)
Definition zoom {S T A} (get : S -> T) (set : T -> S -> S) (m : Traced T A) : Traced S A := fun s =>
  let '(states, (t, a)) := m (get s) in (map (fun t => set t s) states, (set t s, a)).

Definition result_of {S A} (m : Traced S A) (s : S) : A := (m s).2.2.
Definition final {S A} (m : Traced S A) (s : S) : S := (m s).2.1.

(** The state after [n] steps, or the last one when there are not as many. *)
Definition stopped {S A} (n : nat) (m : Traced S A) (s : S) : S :=
  match n with O => s | S n => nth n (m s).1 (final m s) end.

(** The computation passes through a state. *)
Definition passes {S A} (m : Traced S A) (s t : S) : Prop := t ∈ (m s).1.

Lemma passes_stopped {S A} (m : Traced S A) s t : passes m s t -> exists n, stopped n m s = t.
Proof. intros [n Hn]%list_elem_of_lookup. exists (Datatypes.S n). by apply nth_lookup_Some. Qed.

Lemma passes_step {S A} (f : S -> S * A) s : passes (step_with f) s (f s).1.
Proof. unfold passes, step_with. destruct (f s). by constructor. Qed.

Lemma passes_bind_l {S A B} (m : Traced S A) (f : A -> Traced S B) s t : passes m s t -> passes (m ≫= f) s t.
Proof.
  unfold passes, mbind, traced_bind. destruct (m s) as [l [u a]]. destruct (f a u). cbn. intros. apply elem_of_app. by left.
Qed.

Lemma passes_bind_r {S A B} (m : Traced S A) (f : A -> Traced S B) s t :
  passes (f (result_of m s)) (final m s) t -> passes (m ≫= f) s t.
Proof.
  unfold passes, result_of, final, mbind, traced_bind. destruct (m s) as [l [u a]]. cbn. destruct (f a u). cbn.
  intros. apply elem_of_app. by right.
Qed.

Lemma passes_zoom {S T A} (get : S -> T) (set : T -> S -> S) (m : Traced T A) s t :
  passes m (get s) t -> passes (zoom get set m) s (set t s).
Proof.
  unfold passes, zoom. destruct (m (get s)) as [l [u a]]. cbn. intros H. by apply (list_elem_of_fmap_2 (fun t => set t s)).
Qed.

(** ** Triples *)

(** From [s] every state passed through satisfies [I], and the result and the
    last state satisfy [Q]. *)
Definition safe {S A} (I : S -> Prop) (m : Traced S A) (Q : A -> S -> Prop) (s : S) : Prop :=
  Forall I (m s).1 /\ Q (result_of m s) (final m s).

Section Rules.
Context {S : Type} (I : S -> Prop).

Lemma safe_ret {A} (a : A) (Q : A -> S -> Prop) s : Q a s -> safe I (mret a) Q s.
Proof. by split. Qed.

Lemma safe_look {A} (f : S -> A) (Q : A -> S -> Prop) s : Q (f s) s -> safe I (look f) Q s.
Proof. by split. Qed.

Lemma safe_step {A} (f : S -> S * A) (Q : A -> S -> Prop) s : I (f s).1 -> Q (f s).2 (f s).1 -> safe I (step_with f) Q s.
Proof. unfold safe, result_of, final, step_with. destruct (f s) as [t a]. cbn. split; [by constructor|done]. Qed.

Lemma safe_modify (f : S -> S) (Q : unit -> S -> Prop) s : I (f s) -> Q tt (f s) -> safe I (modify f) Q s.
Proof. intros. by apply safe_step. Qed.

Lemma safe_anywhere {A} (m : Traced S A) s : safe (fun _ => True) m (fun _ _ => True) s.
Proof. split; [by apply Forall_true|done]. Qed.

Lemma safe_mono {A} (m : Traced S A) (P Q : A -> S -> Prop) s :
  safe I m P s -> (forall a t, P a t -> Q a t) -> safe I m Q s.
Proof. intros [H1 H2] H. split; [done|by apply H]. Qed.

Lemma safe_weaken {A} (J : S -> Prop) (m : Traced S A) (P Q : A -> S -> Prop) s :
  safe J m P s -> (forall t, J t -> I t) -> (forall a t, P a t -> Q a t) -> safe I m Q s.
Proof. intros [H1 H2] HI H. split; [by eapply Forall_impl|by apply H]. Qed.

Lemma safe_bind {A B} (m : Traced S A) (f : A -> Traced S B) (Q : B -> S -> Prop) s :
  safe I m (fun a t => safe I (f a) Q t) s -> safe I (m ≫= f) Q s.
Proof.
  unfold safe, result_of, final, mbind, traced_bind. destruct (m s) as [l [t a]]. cbn. destruct (f a t) as [l' [u b]]. cbn.
  intros (H1 & H2 & H3). split; [by apply Forall_app|done].
Qed.

Lemma safe_then {E A B} (m : Traced S (Result E A)) (f : A -> Traced S (Result E B)) (Q : Result E B -> S -> Prop) s :
  safe I m (fun r t => match r with Ok a => safe I (f a) Q t | Err e => Q (Err e) t end) s ->
  safe I (and_then m f) Q s.
Proof.
  intros H. apply safe_bind, (safe_mono _ _ _ _ H). intros [a|e] t Ht; [done|]. by apply safe_ret.
Qed.

Lemma safe_for_each {A} (f : A -> Traced S unit) (l : list A) (P : S -> Prop) s :
  (forall x t, x ∈ l -> P t -> safe I (f x) (fun _ => P) t) -> P s -> safe I (for_each f l) (fun _ => P) s.
Proof.
  revert s. induction l as [|x l IH]; intros s Hf Hs; cbn [for_each]; [by apply safe_ret|].
  apply safe_bind. eapply safe_mono; [apply Hf; [constructor|done]|]. intros [] t Ht.
  apply IH; [|done]. intros y u Hy. apply Hf. by constructor.
Qed.

(** A process that is stopped somewhere leaves a state it passed through. *)
Lemma safe_stopped {A} (m : Traced S A) (Q : A -> S -> Prop) n s :
  safe I m Q s -> I s -> (forall a t, Q a t -> I t) -> I (stopped n m s).
Proof.
  intros [H1 H2] Hs HQ. unfold stopped. destruct n as [|n]; [done|]. revert n.
  assert (Hf : I (final m s)) by (by eapply HQ). revert Hf. generalize (final m s) as d. clear H2.
  induction H1 as [|t l Ht Hl IH]; intros d Hd [|n]; cbn; auto.
Qed.
End Rules.

Lemma safe_zoom {S T A} (get : S -> T) (set : T -> S -> S) (m : Traced T A) (I : S -> Prop) (Q : A -> S -> Prop) s :
  safe (fun t => I (set t s)) m (fun a t => Q a (set t s)) (get s) -> safe I (zoom get set m) Q s.
Proof.
  unfold safe, result_of, final, zoom. destruct (m (get s)) as [l [t a]]. cbn. intros [H1 H2]. split; [|done].
  by apply Forall_map.
Qed.

(** ** Properties of the state that a computation keeps *)

Definition keeps {S A} (I : S -> Prop) (m : Traced S A) : Prop := forall s, I s -> safe I m (fun _ => I) s.

Section Keeps.
Context {S : Type} (I : S -> Prop).

Lemma keeps_ret {A} (a : A) : keeps I (mret a).
Proof. intros s Hs. by apply safe_ret. Qed.

Lemma keeps_look {A} (f : S -> A) : keeps I (look f).
Proof. intros s Hs. by apply safe_look. Qed.

Lemma keeps_step {A} (f : S -> S * A) : (forall s, I s -> I (f s).1) -> keeps I (step_with f).
Proof. intros Hf s Hs. apply safe_step; by apply Hf. Qed.

Lemma keeps_modify (f : S -> S) : (forall s, I s -> I (f s)) -> keeps I (modify f).
Proof. intros Hf. by apply keeps_step. Qed.

Lemma keeps_bind {A B} (m : Traced S A) (f : A -> Traced S B) : keeps I m -> (forall a, keeps I (f a)) -> keeps I (m ≫= f).
Proof. intros Hm Hf s Hs. apply safe_bind. eapply safe_mono; [by apply Hm|]. intros a t Ht. by apply Hf. Qed.

Lemma keeps_then {E A B} (m : Traced S (Result E A)) (f : A -> Traced S (Result E B)) :
  keeps I m -> (forall a, keeps I (f a)) -> keeps I (and_then m f).
Proof. intros Hm Hf. apply keeps_bind; [done|]. intros [a|e]; [apply Hf|apply keeps_ret]. Qed.

Lemma keeps_for_each {A} (f : A -> Traced S unit) (l : list A) : (forall x, keeps I (f x)) -> keeps I (for_each f l).
Proof. intros Hf. induction l; [apply keeps_ret|by apply keeps_bind]. Qed.

Lemma keeps_zoom {T A} (get : S -> T) (set : T -> S -> S) (m : Traced T A) :
  (forall s t, I s -> I (set t s)) -> keeps I (zoom get set m).
Proof. intros Hs s H. apply safe_zoom. split; [apply Forall_forall|]; intros; by apply Hs. Qed.
End Keeps.

Create HintDb keeps discriminated.
#[export] Hint Resolve keeps_ret keeps_look keeps_step keeps_modify keeps_bind keeps_then keeps_for_each keeps_zoom : keeps.
