(* ===== verification/Sorting.v ===== *)
(** * Sorting and selection

    The slice and iterator methods of the standard library that order their
    elements: stable [sort_by_key], [sort_unstable], [dedup], [min_by_key] and
    the search for the first element that passes a test, over a boolean order. *)
From Stdlib Require Import Sorted.
From stdpp Require Import sorting.
From S2P Require Import Prelude.

Section Sort.
Context {A : Type} (le : A -> A -> bool).

(** In front of the first element that is not smaller: stable from the right. *)
Fixpoint insert_sorted (x : A) (l : list A) : list A :=
  match l with
  | [] => [x]
  | y :: l' => if le x y then x :: l else y :: insert_sorted x l'
  end.

Definition sort_stable (l : list A) : list A := foldr insert_sorted [] l.

Lemma insert_sorted_perm x l : insert_sorted x l ≡ₚ x :: l.
Proof.
  induction l as [|y l IH]; cbn [insert_sorted]; [done|]. destruct (le x y); [done|].
  rewrite IH. apply Permutation_swap.
Qed.

Lemma sort_stable_perm l : sort_stable l ≡ₚ l.
Proof. induction l as [|x l IH]; cbn [sort_stable foldr]; [done|]. by rewrite insert_sorted_perm, IH. Qed.

Lemma elem_of_sort_stable x l : x ∈ sort_stable l <-> x ∈ l.
Proof. by rewrite sort_stable_perm. Qed.

Hypothesis le_total : forall x y, le x y = false -> le y x = true.
Hypothesis le_trans : forall x y z, le x y = true -> le y z = true -> le x z = true.

Lemma insert_sorted_sorted x l :
  StronglySorted (fun a b => le a b = true) l -> StronglySorted (fun a b => le a b = true) (insert_sorted x l).
Proof.
  induction 1 as [|y l Hl IH Hy]; cbn [insert_sorted]; [repeat constructor|].
  destruct (le x y) eqn:E.
  - constructor; [by constructor|]. constructor; [done|]. eapply Forall_impl; eauto.
  - constructor; [done|]. rewrite insert_sorted_perm. constructor; [by apply le_total|done].
Qed.

Lemma sort_stable_sorted l : StronglySorted (fun a b => le a b = true) (sort_stable l).
Proof. induction l as [|x l IH]; cbn [sort_stable foldr]; [constructor|]. by apply insert_sorted_sorted. Qed.

End Sort.

(** [Vec::dedup]: consecutive repeated elements are removed. *)
Fixpoint dedup {A} `{EqDecision A} (l : list A) : list A :=
  match l with
  | x :: l' =>
      match l' with
      | y :: _ => if decide (x = y) then dedup l' else x :: dedup l'
      | [] => [x]
      end
  | [] => []
  end.

Lemma elem_of_dedup {A} `{EqDecision A} x (l : list A) : x ∈ dedup l <-> x ∈ l.
Proof.
  induction l as [|y l IH]; [done|]. cbn [dedup]. destruct l as [|z l]; [done|].
  case_decide as E; [subst|]; rewrite ?elem_of_cons, IH, !elem_of_cons; naive_solver.
Qed.

(** [iter.min_by_key(key)]: the first of the smallest elements. *)
Fixpoint min_by_key {A} (key : A -> Z) (l : list A) : option A :=
  match l with
  | [] => None
  | x :: l' =>
      match min_by_key key l' with
      | Some y => if key x <=? key y then Some x else Some y
      | None => Some x
      end
  end.

Lemma min_by_key_none {A} (key : A -> Z) l : min_by_key key l = None <-> l = [].
Proof. destruct l as [|x l]; cbn; [done|]. repeat case_match; done. Qed.

Lemma min_by_key_some {A} (key : A -> Z) l x :
  min_by_key key l = Some x -> x ∈ l /\ forall y, y ∈ l -> key x <= key y.
Proof.
  revert x. induction l as [|a l IH]; intros x H; cbn [min_by_key] in H; [done|].
  setoid_rewrite elem_of_cons.
  destruct (min_by_key key l) as [y|] eqn:E.
  - destruct (IH y eq_refl) as [Hy Hmin].
    destruct (key a <=? key y) eqn:Ek; zbool; injection H as <-.
    + split; [by left|]. intros z [->|Hz]; [lia|]. specialize (Hmin _ Hz). lia.
    + split; [by right|]. intros z [->|Hz]; [lia|auto].
  - apply min_by_key_none in E as ->. injection H as <-. split; [by left|].
    intros z [->|Hz]; [lia|set_solver].
Qed.

(** Elements without repetition: sorting then [dedup] depends on the set of
    elements only. *)
Section Canonical.
Context {A : Type} `{EqDecision A} (le : A -> A -> bool).
Hypothesis le_total : forall x y, le x y = false -> le y x = true.
Hypothesis le_trans : forall x y z, le x y = true -> le y z = true -> le x z = true.
Hypothesis le_antisym : forall x y, le x y = true -> le y x = true -> x = y.

Lemma dedup_sorted l :
  StronglySorted (fun a b => le a b = true) l ->
  StronglySorted (fun a b => le a b = true) (dedup l) /\ NoDup (dedup l).
Proof.
  induction 1 as [|x l Hl [IH Hnd] Hx]; [split; constructor|]. cbn [dedup].
  destruct l as [|y l]; [repeat constructor; set_solver|].
  case_decide as E; [done|].
  assert (Hin : forall z, z ∈ dedup (y :: l) <-> z ∈ y :: l) by (intros; apply elem_of_dedup).
  split.
  - constructor; [done|]. rewrite Forall_forall. intros z Hz. apply Hin in Hz.
    by eapply Forall_forall in Hx.
  - constructor; [|done]. rewrite Hin. intros Hz.
    apply StronglySorted_inv in Hl as [_ Hy]. apply elem_of_cons in Hz as [->|Hz]; [done|].
    apply E, le_antisym; [|by eapply Forall_forall in Hy].
    rewrite Forall_forall in Hx. apply Hx. left.
Qed.

Lemma dedup_sort_set l k :
  (forall x, x ∈ l <-> x ∈ k) -> dedup (sort_stable le l) = dedup (sort_stable le k).
Proof.
  intros H.
  pose proof (dedup_sorted _ (sort_stable_sorted le le_total le_trans l)) as [Sl Nl].
  pose proof (dedup_sorted _ (sort_stable_sorted le le_total le_trans k)) as [Sk Nk].
  eapply StronglySorted_unique_strong; [|exact Sl|exact Sk|].
  - intros x y _ _. apply le_antisym.
  - apply NoDup_Permutation; [done|done|]. intros x.
    rewrite !elem_of_dedup, !elem_of_sort_stable. apply H.
Qed.

End Canonical.

(** The first element of a sorted list that passes a test is minimal. *)
Section First.
Context {A : Type} (p : A -> bool).

Fixpoint find_first (l : list A) : option A :=
  match l with
  | [] => None
  | x :: l' => if p x then Some x else find_first l'
  end.

Lemma find_first_none l : find_first l = None <-> Forall (fun x => p x = false) l.
Proof.
  induction l as [|x l IH]; cbn [find_first]; [split; auto|].
  rewrite Forall_cons, <- IH. destruct (p x); naive_solver.
Qed.

Lemma find_first_sorted (R : A -> A -> Prop) `{!Reflexive R} l x :
  StronglySorted R l -> find_first l = Some x ->
  x ∈ l /\ p x = true /\ forall y, y ∈ l -> p y = true -> R x y.
Proof.
  intros Hs. induction Hs as [|a l Hl IH Ha]; cbn [find_first]; [done|].
  destruct (p a) eqn:E.
  - intros [= <-]. split; [left|split; [done|]]. intros y [->|Hy]%elem_of_cons _; [done|].
    by eapply Forall_forall in Ha.
  - intros Hx. destruct (IH Hx) as (Hin & Hp & Hm). split; [by right|split; [done|]].
    intros y [->|Hy]%elem_of_cons Hpy; [congruence|auto].
Qed.

End First.
