(* ===== verification/Bytes.v ===== *)
(** * Byte strings, Rust strings and fixed-width encodings

    A [Vec<u8>], a [&\[u8\]] and a [String] are lists of byte values (a Rust
    string is its UTF-8 encoding: [len], equality, [ends_with] of an ASCII
    pattern, [split('.')] and [as_bytes] all act on those bytes).  The file
    also holds the big and little endian encodings of machine integers and the
    length-prefixed framing the signable byte layouts are made of. *)
From Stdlib Require Import Ascii String.
From S2P Require Import Prelude.

Notation bytes := (list Z).

Definition is_byte (b : Z) : Prop := 0 <= b < 256.
Definition wf_bytes (l : bytes) : Prop := Forall is_byte l.

(** A string literal of the code, as its ASCII bytes. *)
Definition bs (s : string) : bytes :=
  map (fun a => Z.of_N (N_of_ascii a)) (list_ascii_of_string s).

(** ** [u{8n}::to_be_bytes], [from_be_bytes] and the little endian pair *)

Fixpoint be_bytes (n : nat) (x : Z) : bytes :=
  match n with
  | O => []
  | S m => (x / 256 ^ Z.of_nat m) mod 256 :: be_bytes m x
  end.

Fixpoint be_val (l : bytes) : Z :=
  match l with
  | [] => 0
  | b :: t => b * 256 ^ len t + be_val t
  end.

Fixpoint le_bytes (n : nat) (x : Z) : bytes :=
  match n with
  | O => []
  | S m => x mod 256 :: le_bytes m (x / 256)
  end.

Fixpoint le_val (l : bytes) : Z :=
  match l with
  | [] => 0
  | b :: t => b + 256 * le_val t
  end.

Definition u64_be (x : Z) : bytes := be_bytes 8 x.
(** [(v.len() as u32).to_be_bytes()] *)
Definition u32_be (x : Z) : bytes := be_bytes 4 (as_u32 x).

(** ** [str] methods *)

Fixpoint starts_with (p s : bytes) : bool :=
  match p, s with
  | [], _ => true
  | _ :: _, [] => false
  | a :: p', b :: s' => (a =? b) && starts_with p' s'
  end.

Definition ends_with (p s : bytes) : bool := starts_with (reverse p) (reverse s).

Definition strip_suffix (p s : bytes) : option bytes :=
  if ends_with p s then Some (take (length s - length p) s) else None.

Definition DOT : Z := 46.
Definition HYPHEN : Z := 45.

(** [s.split(c)]: the pieces between the separators, never empty. *)
Fixpoint split_on (c : Z) (s : bytes) : list bytes :=
  match s with
  | [] => [[]]
  | b :: t =>
      if b =? c then [] :: split_on c t
      else match split_on c t with
           | p :: ps => (b :: p) :: ps
           | [] => [[b]]
           end
  end.

Fixpoint join_with (c : Z) (ps : list bytes) : bytes :=
  match ps with
  | [] => []
  | [p] => p
  | p :: ps' => p ++ c :: join_with c ps'
  end.

Definition is_ascii (b : Z) : bool := b <? 128.
Definition is_ascii_lowercase (b : Z) : bool := (97 <=? b) && (b <=? 122).
Definition is_ascii_uppercase (b : Z) : bool := (65 <=? b) && (b <=? 90).
Definition is_ascii_digit (b : Z) : bool := (48 <=? b) && (b <=? 57).
Definition is_ascii_alphanumeric (b : Z) : bool :=
  is_ascii_lowercase b || is_ascii_uppercase b || is_ascii_digit b.
Definition is_ascii_hexdigit (b : Z) : bool :=
  is_ascii_digit b || ((97 <=? b) && (b <=? 102)) || ((65 <=? b) && (b <=? 70)).
Definition to_ascii_lowercase (b : Z) : Z :=
  if is_ascii_uppercase b then b + 32 else b.

(** [str::to_lowercase] maps an ASCII string byte by byte; on a string with
    other characters it follows the Unicode case tables, which are the
    parameter [unicode_lowercase]. *)
Class UnicodeCase := unicode_lowercase : bytes -> bytes.

Definition to_lowercase `{UnicodeCase} (s : bytes) : bytes :=
  if forallb is_ascii s then map to_ascii_lowercase s else unicode_lowercase s.

(** [a.eq_ignore_ascii_case(b)] *)
Definition eq_ignore_ascii_case (a b : bytes) : bool :=
  bool_decide (map to_ascii_lowercase a = map to_ascii_lowercase b).

(** [(v.len() as u32).to_be_bytes()] followed by the bytes themselves. *)
Definition frame (v : bytes) : bytes := u32_be (len v) ++ v.

(** ** Facts about the encodings *)

Lemma length_be_bytes n x : length (be_bytes n x) = n.
Proof. induction n; cbn; congruence. Qed.

Lemma length_le_bytes n x : length (le_bytes n x) = n.
Proof. revert x. induction n; intros; cbn; f_equal; auto. Qed.

Lemma be_bytes_wf n x : wf_bytes (be_bytes n x).
Proof.
  induction n; cbn; constructor; auto. apply Z.mod_pos_bound. lia.
Qed.

Lemma le_bytes_wf n x : wf_bytes (le_bytes n x).
Proof.
  revert x. induction n; intros; cbn; constructor; [|apply IHn].
  apply Z.mod_pos_bound. lia.
Qed.

Lemma pow256_pos n : 0 < 256 ^ Z.of_nat n.
Proof. apply Z.pow_pos_nonneg; lia. Qed.

Lemma be_val_bounds l : wf_bytes l -> 0 <= be_val l < 256 ^ len l.
Proof.
  induction 1 as [|b l Hb Hl IH]; cbn [be_val].
  - done.
  - pose proof (len_nonneg l). rewrite len_cons, Z.pow_add_r by lia.
    change (256 ^ 1) with 256. unfold is_byte in Hb.
    set (p := 256 ^ len l) in *. nia.
Qed.

Lemma be_val_be_bytes n x : be_val (be_bytes n x) = x mod 256 ^ Z.of_nat n.
Proof.
  induction n as [|n IH]; cbn [be_bytes be_val].
  - cbn. now rewrite Z.mod_1_r.
  - unfold len. rewrite length_be_bytes, IH.
    rewrite Nat2Z.inj_succ, Z.pow_succ_r by lia.
    rewrite (Z.mul_comm 256), Z.rem_mul_r; pose proof (pow256_pos n); lia.
Qed.

Lemma be_bytes_be_val l : wf_bytes l -> be_bytes (length l) (be_val l) = l.
Proof.
  intros H. set (k := length l).
  assert (Hgen : forall m, be_bytes k (be_val l + 256 ^ len l * m) = l).
  { subst k. induction H as [|b l Hb Hl IH]; intros m; [done|].
    cbn [length be_bytes be_val]. rewrite len_cons, Z.pow_add_r by (pose proof (len_nonneg l); lia).
    pose proof (be_val_bounds l Hl) as Hv. unfold is_byte in Hb.
    change (256 ^ Z.of_nat (length l)) with (256 ^ len l). set (p := 256 ^ len l) in *.
    replace (b * p + be_val l + 256 ^ 1 * p * m) with (be_val l + (b + 256 * m) * p) by ring.
    f_equal.
    - rewrite Z.div_add, Z.div_small by lia.
      replace (0 + (b + 256 * m)) with (b + m * 256) by ring.
      rewrite Z.mod_add by lia. now apply Z.mod_small.
    - etransitivity; [|exact (IH (b + 256 * m))]. f_equal. subst p. ring. }
  etransitivity; [|exact (Hgen 0)]. f_equal. lia.
Qed.

Lemma be_val_u64_be x : is_u64 x -> be_val (u64_be x) = x.
Proof.
  intros H. unfold u64_be. rewrite be_val_be_bytes, Z.mod_small; [done|exact H].
Qed.

Lemma u64_be_inj x y : is_u64 x -> is_u64 y -> u64_be x = u64_be y -> x = y.
Proof. intros Hx Hy E. rewrite <- (be_val_u64_be x), <- (be_val_u64_be y); congruence. Qed.

Lemma length_u64_be x : length (u64_be x) = 8%nat.
Proof. apply length_be_bytes. Qed.

Lemma length_u32_be x : length (u32_be x) = 4%nat.
Proof. apply length_be_bytes. Qed.

Lemma u32_be_inj x y :
  0 <= x < 2 ^ 32 -> 0 <= y < 2 ^ 32 -> u32_be x = u32_be y -> x = y.
Proof.
  intros Hx Hy E. apply (f_equal be_val) in E. unfold u32_be, as_u32 in E.
  rewrite !be_val_be_bytes in E. change (256 ^ Z.of_nat 4) with (2 ^ 32) in E.
  rewrite !(Z.mod_small _ (2 ^ 32)) in E by (rewrite ?Z.mod_small; lia). lia.
Qed.

Lemma le_val_le_bytes n x : 0 <= x < 256 ^ Z.of_nat n -> le_val (le_bytes n x) = x.
Proof.
  revert x. induction n as [|n IH]; intros x Hx; cbn [le_bytes le_val].
  - cbn in Hx. lia.
  - rewrite Nat2Z.inj_succ, Z.pow_succ_r in Hx by lia.
    rewrite IH.
    + pose proof (Z.div_mod x 256). lia.
    + split; [apply Z.div_pos; lia|]. apply Z.div_lt_upper_bound; lia.
Qed.

(** A property of the 256 byte values, checked by computation. *)
Lemma byte_forall (P : Z -> bool) :
  forallb P (seqZ 0 256) = true -> forall b, is_byte b -> P b = true.
Proof.
  intros H b Hb. rewrite forallb_forall in H. apply H.
  apply list_elem_of_In, elem_of_seqZ. exact Hb.
Qed.

Lemma be_val_snoc l b : be_val (l ++ [b]) = 256 * be_val l + b.
Proof.
  induction l as [|a l IH]; cbn [app be_val]; [change (256 ^ len []) with 1; lia|].
  rewrite IH, len_app, len_cons, len_nil, Z.pow_add_r by (pose proof (len_nonneg l); lia).
  change (256 ^ (1 + 0)) with 256. lia.
Qed.

(** ** Framing *)

Lemma frame_inj v w r s :
  len v < 2 ^ 32 -> len w < 2 ^ 32 ->
  frame v ++ r = frame w ++ s -> v = w /\ r = s.
Proof.
  intros Hv Hw E. unfold frame in E. rewrite <- !app_assoc in E.
  apply app_inj_len in E as [El E]; [|by rewrite !length_u32_be].
  apply u32_be_inj in El; [|pose proof (len_nonneg v); lia|pose proof (len_nonneg w); lia].
  apply app_inj_len in E; [done|]. unfold len in El. lia.
Qed.

Lemma u64_be_app_inj x y r s :
  is_u64 x -> is_u64 y -> u64_be x ++ r = u64_be y ++ s -> x = y /\ r = s.
Proof.
  intros Hx Hy E. apply app_inj_len in E as [E ->]; [|by rewrite !length_u64_be].
  split; [by apply u64_be_inj|done].
Qed.
