(* ===== verification/SecureFs.v ===== *)
(** * Writing a secret ([kinetic-local/src/secure_fs.rs])

    Both bodies of [write_secret], over a file system with inodes.  A process
    that is stopped leaves the files as they are; a machine that is stopped
    keeps of a file what was synced, or anything if something was written since,
    and, as no directory is ever synced, of each name any of the files it has
    led to.  The outcome of each operation is an argument. *)
From Stdlib Require Import String.
From S2P Require Import Prelude Traced Bytes.
#[local] Open Scope Z_scope.

(** ** Paths *)

Definition DOT_BYTE : Z := 46.
Definition SLASH_BYTE : Z := 47.

(** What comes before the last occurrence of a byte. *)
Fixpoint before_last (c : Z) (s : bytes) : option bytes :=
  match s with
  | [] => None
  | x :: rest =>
      match before_last c rest with
      | Some p => Some (x :: p)
      | None => if x =? c then Some [] else None
      end
  end.

(** [Path::file_stem] of a file name: up to its last dot, unless that is its first byte. *)
Definition file_stem (name : bytes) : bytes :=
  match before_last DOT_BYTE name with Some (c :: stem) => c :: stem | _ => name end.

(** The directory with its slash, and the file name. *)
Definition split_path (path : bytes) : bytes * bytes :=
  let dir := match before_last SLASH_BYTE path with Some d => d ++ [SLASH_BYTE] | None => [] end in
  (dir, drop (length dir) path).

(** [Path::with_extension] *)
Definition with_extension (path ext : bytes) : bytes :=
  let '(dir, name) := split_path path in dir ++ file_stem name ++ [DOT_BYTE] ++ ext.
(** [Path::with_file_name] *)
Definition with_file_name (path name : bytes) : bytes := (split_path path).1 ++ name.

(** ** The file system *)

(** A file: its content, whether all of it was synced, and whether its mode
    keeps other users out. *)
Record Inode := MkInode { content : bytes; synced : bool; private : bool }.

(** Where a name leads, and where it has led since its directory was last synced. *)
Record Entry := MkEntry { leads_to : option nat; led_to : list (option nat) }.

Record FileSystem := MkFs { inodes : gmap nat Inode; names : gmap bytes Entry }.

Definition entry (fs : FileSystem) (p : bytes) : Entry := default (MkEntry None []) (names fs !! p).
Definition seen (fs : FileSystem) (p : bytes) : option nat := leads_to (entry fs p).
(** The files a name may lead to after the machine stopped. *)
Definition possible (fs : FileSystem) (p : bytes) : list (option nat) := leads_to (entry fs p) :: led_to (entry fs p).
Definition content_at (fs : FileSystem) (o : option nat) : option bytes := i ← o; content <$> inodes fs !! i.
Definition read (fs : FileSystem) (p : bytes) : option bytes := content_at fs (seen fs p).

Definition lead (p : bytes) (o : option nat) (fs : FileSystem) : FileSystem :=
  MkFs (inodes fs) (<[p := MkEntry o (possible fs p)]> (names fs)).
Definition set_inode (i : nat) (n : Inode) (fs : FileSystem) : FileSystem :=
  MkFs (<[i := n]> (inodes fs)) (names fs).
Definition on_inode (i : nat) (f : Inode -> Inode) (fs : FileSystem) : FileSystem :=
  MkFs (alter f i (inodes fs)) (names fs).

(** After the machine stopped. *)
Definition machine_stop (fs fs' : FileSystem) : Prop :=
  (forall p, exists o, o ∈ possible fs p /\ entry fs' p = MkEntry o []) /\
  forall i, match inodes fs !! i with
            | None => inodes fs' !! i = None
            | Some n => exists c, inodes fs' !! i = Some (MkInode c true (private n)) /\ (synced n = true -> c = content n)
            end.

(** *** Operations *)

(** [OpenOptions::open] with [write], [create] and [truncate]: a file that is
    there keeps its mode. *)
Definition open_truncate (mode_private : bool) (p : bytes) : Traced FileSystem nat :=
  step_with (fun fs =>
    match seen fs p with
    | Some i => (on_inode i (fun n => MkInode [] false (private n)) fs, i)
    | None => let i := fresh (dom (inodes fs)) in (lead p (Some i) (set_inode i (MkInode [] false mode_private) fs), i)
    end).
Definition append (i : nat) (data : bytes) : Traced FileSystem unit :=
  modify (on_inode i (fun n => MkInode (content n ++ data) false (private n))).
Definition sync (i : nat) : Traced FileSystem unit :=
  modify (on_inode i (fun n => MkInode (content n) true (private n))).
Definition rename_step (from to : bytes) : Traced FileSystem unit :=
  modify (fun fs => match seen fs from with Some i => lead from None (lead to (Some i) fs) | None => fs end).

(** What the operations of one writing do: the sizes of the partial writes, and
    whether one fails after them. *)
Record WriteIo := MkWriteIo { opens : bool; partial : list nat; write_fails : bool; syncs : bool; renames : bool }.

(** [write_all]: partial writes until nothing is left. *)
Fixpoint write_all (i : nat) (sizes : list nat) (fails : bool) (data : bytes) : Traced FileSystem (Result unit unit) :=
  match sizes with
  | n :: sizes => append i (take n data);; write_all i sizes fails (drop n data)
  | [] => if fails then mret (Err tt) else append i data;; mret (Ok tt)
  end.

(** [write_secret] on Unix. *)
Definition write_secret (path data : bytes) (io : WriteIo) : Traced FileSystem (Result unit unit) :=
  let tmp := with_extension path (bs "tmp") in
  if opens io then
    f ← open_truncate true tmp;
    _ ←? write_all f (partial io) (write_fails io) data;
    if syncs io then
      sync f;;
      if renames io then rename_step tmp path;; mret (Ok tt) else mret (Err tt)
    else mret (Err tt)
  else mret (Err tt).

(** [write_secret] elsewhere, which is [std::fs::write]. *)
Definition write_secret_fallback (path data : bytes) (io : WriteIo) : Traced FileSystem (Result unit unit) :=
  if opens io then
    f ← open_truncate false path;
    write_all f (partial io) (write_fails io) data
  else mret (Err tt).

(** ** Facts *)

(** Every file a name may lead to exists. *)
Definition fs_wf (fs : FileSystem) : Prop := forall p i, Some i ∈ possible fs p -> is_Some (inodes fs !! i).
(** No other name may lead to the file of [p]. *)
Definition unshared (fs : FileSystem) (p : bytes) : Prop :=
  forall q i, q <> p -> seen fs p = Some i -> Some i ∉ possible fs q.
(** Every file [p] may lead to was synced. *)
Definition settled (fs : FileSystem) (p : bytes) : Prop :=
  forall i, Some i ∈ possible fs p -> exists n, inodes fs !! i = Some n /\ synced n = true.

Lemma entry_lead p o fs q : entry (lead p o fs) q = if decide (q = p) then MkEntry o (possible fs p) else entry fs q.
Proof.
  unfold entry, lead. cbn [names]. rewrite lookup_insert. case_decide as E; case_decide as E'; subst; done.
Qed.

Lemma seen_on_inode i f fs p : seen (on_inode i f fs) p = seen fs p.
Proof. done. Qed.

Lemma possible_seen fs p : seen fs p ∈ possible fs p.
Proof. left. Qed.

Section Writing.
Context (path data : bytes) (fs : FileSystem).
#[local] Notation tmp := (with_extension path (bs "tmp")).
Context (Htmp : tmp <> path) (Hwf : fs_wf fs) (Hun : unshared fs tmp).

(** The other names are as they were, and so are the files but that of the
    temporary name. *)
Definition rest_kept (except : bytes -> Prop) (g : FileSystem) : Prop :=
  (forall p, p <> tmp -> ~ except p -> entry g p = entry fs p) /\
  (forall i n, inodes fs !! i = Some n -> seen fs tmp <> Some i -> inodes g !! i = Some n).

(** Up to the renaming. *)
Definition not_renamed (g : FileSystem) : Prop := rest_kept (fun _ => False) g.
(** With the temporary file open as [i]. *)
Definition writing (i : nat) (text : bytes) (s : bool) (g : FileSystem) : Prop :=
  not_renamed g /\ seen g tmp = Some i /\
  (inodes fs !! i = None \/ seen fs tmp = Some i) /\
  inodes g !! i = Some (MkInode text s (default true (private <$> (seen fs tmp ≫= fun i => inodes fs !! i)))).
Definition renamed (g : FileSystem) : Prop :=
  rest_kept (fun p => p = path) g /\
  exists i, entry g path = MkEntry (Some i) (possible fs path) /\
    inodes g !! i = Some (MkInode data true (default true (private <$> (seen fs tmp ≫= fun i => inodes fs !! i)))).
Definition either (g : FileSystem) : Prop := not_renamed g \/ renamed g.

Lemma alter_writing i text s f g :
  writing i text s g -> not_renamed (on_inode i f g).
Proof.
  intros ([Hn Hi] & _ & Hf & _). split; [intros p Hp Hx; by apply Hn|].
  intros j n Hj Hne. cbn [on_inode inodes]. rewrite lookup_alter_ne; [by apply Hi|].
  intros <-. destruct Hf as [Hf|Hf]; congruence.
Qed.

Lemma open_writing : safe either (open_truncate true tmp) (fun i g => writing i [] false g) fs.
Proof.
  unfold open_truncate. destruct (seen fs tmp) as [i|] eqn:E.
  - assert (Hw : writing i [] false (on_inode i (fun n => MkInode [] false (private n)) fs)).
    { destruct (Hwf tmp i) as [n Hn]; [rewrite <- E; apply possible_seen|].
      split; [|split; [|split; [by right|]]].
      - split; [done|]. intros j m Hj Hne. cbn [on_inode inodes]. rewrite lookup_alter_ne; congruence.
      - exact E.
      - cbn [on_inode inodes]. rewrite lookup_alter, decide_True, E by done. cbn. by rewrite Hn. }
    apply safe_step; rewrite E; [left; apply Hw|exact Hw].
  - set (i := fresh (dom (inodes fs))). assert (Hfr : inodes fs !! i = None) by apply not_elem_of_dom, is_fresh.
    assert (Hw : writing i [] false (lead tmp (Some i) (set_inode i (MkInode [] false true) fs))).
    { split; [|split; [|split; [by left|]]].
      - split.
        + intros p Hp _. rewrite entry_lead, decide_False by done. done.
        + intros j m Hj _. cbn [lead set_inode inodes]. rewrite lookup_insert_ne by congruence. done.
      - unfold seen. by rewrite entry_lead, decide_True.
      - cbn [lead set_inode inodes]. by rewrite lookup_insert_eq, E. }
    apply safe_step; rewrite E; [left; apply Hw|exact Hw].
Qed.

Lemma append_writing i text s more g :
  writing i text s g -> writing i (text ++ more) false (on_inode i (fun n => MkInode (content n ++ more) false (private n)) g).
Proof.
  intros Hw. split; [by eapply alter_writing|]. destruct Hw as (_ & Hs & Hf & Hg).
  split; [exact Hs|]. split; [done|]. cbn [on_inode inodes]. by rewrite lookup_alter, decide_True, Hg.
Qed.

Lemma write_all_writing i sizes fails text rest g :
  writing i text false g ->
  safe either (write_all i sizes fails rest)
    (fun r g' => not_renamed g' /\ (r = Ok tt -> writing i (text ++ rest) false g')) g.
Proof.
  revert text rest g. induction sizes as [|n sizes IH]; intros text rest g Hw; cbn [write_all].
  - destruct fails; [apply safe_ret; by split; [apply Hw|]|].
    pose proof (append_writing i text false rest g Hw) as Hw'.
    apply safe_bind, safe_modify; [left; apply Hw'|]. apply safe_ret. by split; [apply Hw'|].
  - pose proof (append_writing i text false (take n rest) g Hw) as Hw'.
    apply safe_bind, safe_modify; [left; apply Hw'|].
    specialize (IH (text ++ take n rest) (drop n rest) _ Hw').
    by rewrite <- app_assoc, take_drop in IH.
Qed.

Lemma rename_renamed i g :
  writing i data true g ->
  renamed (match seen g tmp with Some i => lead tmp None (lead path (Some i) g) | None => g end).
Proof.
  intros ([Hn Hi] & Hs & Hf & Hg). rewrite Hs. split.
  - split.
    + intros p Hp Hx. rewrite !entry_lead, !decide_False by done. apply Hn; [done|tauto].
    + intros j n Hj Hne. by apply Hi.
  - exists i. rewrite entry_lead, decide_False, entry_lead, decide_True by done. split; [|done].
    f_equal. unfold possible. rewrite Hn by (done || tauto). done.
Qed.

Lemma write_secret_safe io :
  safe either (write_secret path data io)
    (fun r g => match r with Ok _ => renamed g | Err _ => not_renamed g end) fs.
Proof.
  unfold write_secret. cbv zeta. destruct (opens io); [|by apply safe_ret].
  apply safe_bind. eapply safe_mono; [apply open_writing|]. intros i g Hw.
  apply safe_then. eapply safe_mono. 1: eapply write_all_writing; exact Hw.
  intros [[]|[]] g1 [Hk Hw1]; [|done]. specialize (Hw1 eq_refl). cbn [app] in Hw1.
  destruct (syncs io); [|by apply safe_ret].
  assert (Hw2 : writing i data true (on_inode i (fun n => MkInode (content n) true (private n)) g1)).
  { split; [by eapply alter_writing|]. destruct Hw1 as (_ & Hs & Hf & Hg). split; [exact Hs|]. split; [done|].
    cbn [on_inode inodes]. by rewrite lookup_alter, decide_True, Hg. }
  apply safe_bind, safe_modify; [left; apply Hw2|].
  destruct (renames io); [|apply safe_ret; apply Hw2].
  pose proof (rename_renamed i _ Hw2) as Hr.
  apply safe_bind, safe_modify; [by right|]. by apply safe_ret.
Qed.
End Writing.

(** What the three stages show of the names. *)
Lemma rest_kept_read path except fs g p :
  fs_wf fs -> unshared fs (with_extension path (bs "tmp")) -> rest_kept path fs except g ->
  p <> with_extension path (bs "tmp") -> ~ except p ->
  entry g p = entry fs p /\ forall o, o ∈ possible fs p -> content_at g o = content_at fs o /\
    forall i, o = Some i -> inodes g !! i = inodes fs !! i.
Proof.
  intros Hwf Hun [Hn Hi] Hp Hx. split; [by apply Hn|]. intros o Ho.
  assert (H : forall i, o = Some i -> inodes g !! i = inodes fs !! i).
  { intros i ->. destruct (Hwf p i Ho) as [n En]. rewrite En. apply Hi; [done|].
    intros Hs. by apply (Hun p i Hp Hs). }
  split; [|exact H]. unfold content_at. destruct o as [i|]; [|done]. cbn. by rewrite (H i).
Qed.

(** A stopped machine, by the file a name turns out to lead to. *)
Lemma machine_stop_read fs fs' p :
  machine_stop fs fs' -> exists o, o ∈ possible fs p /\ seen fs' p = o /\
    ((forall i, o = Some i -> exists n, inodes fs !! i = Some n /\ synced n = true) -> read fs' p = content_at fs o).
Proof.
  intros [Hn Hi]. destruct (Hn p) as (o & Ho & He). exists o.
  assert (Hs : seen fs' p = o) by (unfold seen; by rewrite He). split; [done|]. split; [done|].
  intros Hc. unfold read. rewrite Hs. destruct o as [i|]; [|done]. destruct (Hc i eq_refl) as (n & En & Hsy).
  specialize (Hi i). rewrite En in Hi. destruct Hi as (c & Hi & E). unfold content_at. cbn. rewrite Hi, En. cbn. by rewrite E.
Qed.

(** Where everything else is lost but one choice. *)
Lemma machine_stop_choice fs p o :
  o ∈ possible fs p -> exists fs', machine_stop fs fs' /\ seen fs' p = o.
Proof.
  intros Ho. exists (MkFs ((fun n => MkInode (content n) true (private n)) <$> inodes fs)
    (<[p := MkEntry o []]> ((fun e => MkEntry (leads_to e) []) <$> names fs))).
  assert (He : forall q, entry (MkFs ((fun n => MkInode (content n) true (private n)) <$> inodes fs)
    (<[p := MkEntry o []]> ((fun e => MkEntry (leads_to e) []) <$> names fs))) q =
    if decide (q = p) then MkEntry o [] else MkEntry (seen fs q) []).
  { intros q. unfold entry. cbn [names]. rewrite lookup_insert. case_decide as E; case_decide; subst; try done.
    rewrite lookup_fmap. unfold seen, entry. by destruct (names fs !! q). }
  split; [split|].
  - intros q. rewrite He. case_decide; [subst; by exists o|]. exists (seen fs q). split; [apply possible_seen|done].
  - intros i. cbn [inodes]. rewrite lookup_fmap. destruct (inodes fs !! i) as [n|]; [|done].
    exists (content n). by split.
  - unfold seen. by rewrite He, decide_True.
Qed.

(** C32: a secret is written all or not at all, on Unix.  For a path whose
    extension is not [tmp], whose temporary file no other name leads to:
    wherever the process is stopped, the path reads as before or holds the new
    secret; the new one when [write_secret] succeeds, and what it did before when
    it fails.  Where the machine is stopped, and what the path could lead to was
    synced, it holds the new secret or one of the contents it could show before
    the call.  No directory is synced: even after a success a stop of the machine
    may bring any of those back.  Other names read as before. *)
Theorem write_secret_atomic path data io fs n :
  with_extension path (bs "tmp") <> path -> fs_wf fs -> unshared fs (with_extension path (bs "tmp")) ->
  let m := write_secret path data io in
  let g := stopped n m fs in
  (read g path = read fs path \/ read g path = Some data) /\
  read (final m fs) path = (if is_ok (result_of m fs) then Some data else read fs path) /\
  (settled fs path -> forall fs', machine_stop g fs' ->
     read fs' path = Some data \/ exists o, o ∈ possible fs path /\ read fs' path = content_at fs o) /\
  (settled fs path -> forall o, o ∈ possible fs path ->
     exists fs', machine_stop (final m fs) fs' /\ read fs' path = content_at fs o) /\
  (forall p, p <> path -> p <> with_extension path (bs "tmp") -> read g p = read fs p).
Proof.
  intros Ht Hwf Hun m g. pose proof (write_secret_safe path data fs Ht Hwf io) as Hsafe.
  assert (Hg : either path data fs g).
  { apply (safe_stopped _ _ _ n _ Hsafe); [left; split; [done|]; by intros i k Hi _|].
    intros [[]|[]] t Hr; [by right|by left]. }
  destruct Hsafe as [_ Hf]. fold m in Hf.
  assert (Hold : forall t, not_renamed path fs t -> entry t path = entry fs path /\
    forall o, o ∈ possible fs path -> content_at t o = content_at fs o /\ forall i, o = Some i -> inodes t !! i = inodes fs !! i)
    by (intros t H; apply (rest_kept_read path (fun _ => False)); [done|done|done|congruence|tauto]).
  assert (Hread : forall t, not_renamed path fs t -> read t path = read fs path).
  { intros t H. destruct (Hold t H) as [E Hc]. unfold read, seen. rewrite E. apply Hc, possible_seen. }
  assert (Hnew : forall t, renamed path data fs t -> read t path = Some data).
  { intros t (_ & i & E & Hi). unfold read, seen. rewrite E. unfold content_at. cbn. by rewrite Hi. }
  (* what a file the path could lead to holds after the call *)
  assert (Hkeep : forall t except, rest_kept path fs except t -> settled fs path -> forall o, o ∈ possible fs path ->
    content_at t o = content_at fs o /\ forall i, o = Some i -> exists n, inodes t !! i = Some n /\ synced n = true).
  { intros t except [_ Hi] Hst o Ho. destruct o as [i|]; [|done]. destruct (Hst i Ho) as (k & Hk & Hs).
    assert (Hti : inodes t !! i = Some k) by (apply Hi; [done|]; intros E; by apply (Hun path i ltac:(congruence) E)).
    split; [unfold content_at; cbn; by rewrite Hti, Hk|]. intros j [= <-]. by exists k. }
  split; [destruct Hg as [H|H]; [left; by apply Hread|right; by apply Hnew]|].
  split; [destruct (result_of m fs) as [[]|[]]; [by apply Hnew|by apply Hread]|].
  split; [|split].
  - intros Hst fs' Hm. destruct (machine_stop_read _ _ path Hm) as (o & Ho & Hs & Hr).
    destruct Hg as [H|H].
    + right. exists o. unfold possible in Ho. rewrite (proj1 (Hold g H)) in Ho. fold (possible fs path) in Ho.
      split; [done|]. destruct (Hkeep g _ H Hst o Ho) as [Hc Hx]. by rewrite Hr, Hc.
    + destruct H as (Hrest & i & E & Hi). unfold possible in Ho. rewrite E in Ho. cbn [leads_to led_to] in Ho.
      apply elem_of_cons in Ho as [->|Ho].
      * left. rewrite Hr; [unfold content_at; cbn; by rewrite Hi|]. intros j [= <-]. by eexists.
      * right. exists o. split; [done|]. destruct (Hkeep g _ Hrest Hst o Ho) as [Hc Hx]. by rewrite Hr, Hc.
  - intros Hst o Ho.
    assert (Hx : o ∈ possible (final m fs) path /\ exists except, rest_kept path fs except (final m fs)).
    { destruct (result_of m fs) as [[]|[]].
      - destruct Hf as (Hrest & i & E & _). split; [|by eexists]. unfold possible. rewrite E. right. exact Ho.
      - split; [|by eexists]. unfold possible. rewrite (proj1 (Hold _ Hf)). exact Ho. }
    destruct Hx as [Hp [except Hrest]]. destruct (machine_stop_choice _ _ _ Hp) as (fs' & Hm & Hs).
    exists fs'. split; [done|]. destruct (machine_stop_read _ _ path Hm) as (o' & _ & Hs' & Hr).
    rewrite Hs in Hs'. subst o'. destruct (Hkeep _ _ Hrest Hst o Ho) as [Hc Hy]. by rewrite Hr, Hc.
  - intros p Hp Hp'. assert (Hrest : exists except, rest_kept path fs except g /\ ~ except p).
    { destruct Hg as [H|[H _]]; eexists; (split; [exact H|]); [tauto|done]. }
    destruct Hrest as (except & Hrest & Hx). destruct (rest_kept_read _ _ _ _ _ Hwf Hun Hrest Hp' Hx) as [E Hc].
    unfold read, seen. rewrite E. apply Hc, possible_seen.
Qed.

(** Elsewhere a secret can be cut anywhere: for every length there is a point at
    which a stopped process leaves that much of the new one in the place of the
    old. *)
Theorem fallback_torn path data fs k :
  fs_wf fs -> exists io n, read (stopped n (write_secret_fallback path data io) fs) path = Some (take k data).
Proof.
  intros Hwf. exists (MkWriteIo true [k] false true true).
  set (m := write_secret_fallback _ _ _). set (o := open_truncate false path).
  assert (Hp : passes m fs (on_inode (result_of o fs) (fun n => MkInode (content n ++ take k data) false (private n)) (final o fs))).
  { apply passes_bind_r, passes_bind_l.
    apply (passes_step (fun g => (on_inode (result_of o fs) (fun n => MkInode (content n ++ take k data) false (private n)) g, tt))). }
  apply passes_stopped in Hp as [n Hn]. exists n. rewrite Hn. unfold read. rewrite seen_on_inode. clear m n Hn.
  unfold o, open_truncate, result_of, final, step_with. destruct (seen fs path) as [i|] eqn:E; cbn [fst snd].
  - destruct (Hwf path i) as [m Hm]; [rewrite <- E; apply possible_seen|].
    rewrite seen_on_inode, E. unfold content_at, on_inode. cbn. by rewrite !lookup_alter, !decide_True, Hm by done.
  - unfold seen. rewrite entry_lead, decide_True by done. unfold content_at, on_inode. cbn.
    by rewrite !lookup_alter, !decide_True, lookup_insert_eq by done.
Qed.

(** The file is private exactly when there was no temporary file of another mode:
    one that is there keeps its own. *)
Theorem secret_private_iff path data io fs :
  with_extension path (bs "tmp") <> path -> fs_wf fs ->
  result_of (write_secret path data io) fs = Ok tt ->
  exists i f, seen (final (write_secret path data io) fs) path = Some i /\
    inodes (final (write_secret path data io) fs) !! i = Some f /\
    (private f = false <-> exists j old, seen fs (with_extension path (bs "tmp")) = Some j /\
       inodes fs !! j = Some old /\ private old = false).
Proof.
  intros Ht Hwf Hr. destruct (write_secret_safe path data fs Ht Hwf io) as [_ Hf]. rewrite Hr in Hf.
  destruct Hf as (_ & i & E & Hi). exists i. eexists. split; [unfold seen; by rewrite E|]. split; [exact Hi|].
  cbn [private]. destruct (seen fs (with_extension path (bs "tmp"))) as [j|]; cbn.
  - destruct (inodes fs !! j) as [old|] eqn:Ej; cbn; [|split; [done|naive_solver]].
    split; [intros Hp; by exists j, old|]. by intros (j' & old' & [= <-] & E' & Hp); simplify_eq.
  - split; [done|]. by intros (? & ? & ? & _).
Qed.

(** ** A key replaced *)

Module ToySecret.
Definition key_file : bytes := bs "/kinetic/node.key".
Definition fs : FileSystem := MkFs {[ 0%nat := MkInode [1; 2; 3] true true ]} {[ key_file := MkEntry (Some 0%nat) [] ]}.
Definition io : WriteIo := MkWriteIo true [1%nat] false true true.
Definition replace : Traced FileSystem (Result unit unit) := write_secret key_file [4; 5; 6] io.

Example tmp_file : with_extension key_file (bs "tmp") = bs "/kinetic/node.tmp".
Proof. vm_compute. reflexivity. Qed.

Lemma possible_here p : possible fs p = if decide (p = key_file) then [Some 0%nat] else [None].
Proof.
  unfold possible, entry, fs. cbn [names]. destruct (decide (p = key_file)) as [->|H].
  - by rewrite lookup_singleton_eq.
  - by rewrite lookup_singleton_ne.
Qed.

Lemma wf : fs_wf fs.
Proof.
  intros p i. rewrite possible_here. case_decide; rewrite list_elem_of_singleton; [|done].
  intros [= ->]. by eexists.
Qed.

Lemma alone : unshared fs (with_extension key_file (bs "tmp")).
Proof. intros q i _ H. vm_compute in H. discriminate H. Qed.

Lemma was_settled : settled fs key_file.
Proof.
  intros i. rewrite possible_here, decide_True by done. rewrite list_elem_of_singleton. intros [= ->]. by eexists.
Qed.
End ToySecret.

(** Stopped with one byte of the new key written, it is the old one; and the
    machine that stops after the end may bring it back. *)
Lemma write_secret_atomic_witness :
  read (stopped 2 ToySecret.replace ToySecret.fs) ToySecret.key_file <> Some [4] /\
  read (final ToySecret.replace ToySecret.fs) ToySecret.key_file = Some [4; 5; 6] /\
  exists fs', machine_stop (final ToySecret.replace ToySecret.fs) fs' /\ read fs' ToySecret.key_file = Some [1; 2; 3].
Proof.
  destruct (write_secret_atomic ToySecret.key_file [4; 5; 6] ToySecret.io ToySecret.fs 2 ltac:(vm_compute; discriminate)
    ToySecret.wf ToySecret.alone) as ([H|H] & Hf & _ & Hc & _).
  - split; [unfold ToySecret.replace; rewrite H; vm_compute; discriminate|].
    split; [unfold ToySecret.replace; rewrite Hf; vm_compute; reflexivity|].
    apply (Hc ToySecret.was_settled (Some 0%nat)). rewrite ToySecret.possible_here, decide_True by reflexivity. left.
  - split; [unfold ToySecret.replace; rewrite H; vm_compute; discriminate|].
    split; [unfold ToySecret.replace; rewrite Hf; vm_compute; reflexivity|].
    apply (Hc ToySecret.was_settled (Some 0%nat)). rewrite ToySecret.possible_here, decide_True by reflexivity. left.
Defined.

Lemma fallback_torn_witness :
  exists io n, read (stopped n (write_secret_fallback ToySecret.key_file [4; 5; 6] io) ToySecret.fs) ToySecret.key_file = Some [4].
Proof. exact (fallback_torn ToySecret.key_file [4; 5; 6] ToySecret.fs 1 ToySecret.wf). Defined.

(** A temporary file that others may read was there. *)
Lemma secret_private_iff_witness :
  exists i f, inodes (final ToySecret.replace ToySecret.fs) !! i = Some f /\ private f = true.
Proof.
  destruct (secret_private_iff ToySecret.key_file [4; 5; 6] ToySecret.io ToySecret.fs ltac:(vm_compute; discriminate)
    ToySecret.wf ltac:(vm_compute; reflexivity)) as (i & f & _ & Hf & Hp).
  exists i, f. split; [exact Hf|]. destruct (private f) eqn:E; [reflexivity|].
  destruct (proj1 Hp eq_refl) as (j & old & Hj & _). vm_compute in Hj. discriminate Hj.
Defined.
