(* ===== verification/Config.v ===== *)
(** * Network configuration and the constants generated from it

    [network.json] and [kinetic-core/build.rs]: the configuration record, the
    values of the shipped file, and the constants the build script writes. *)
From S2P Require Import Prelude Bytes.
From Stdlib Require Import String.

Record NdcMultipliers := MkNdcMultipliers {
  len_0_to_1 : Z; len_2 : Z; len_3 : Z; len_4 : Z; len_5 : Z; len_6 : Z;
  len_7 : Z; len_8_to_10 : Z; len_11_to_17 : Z; len_18_to_20 : Z }.

Record PhysicsConfig := MkPhysicsConfig {
  minimum_commit_age_kyns : Z;
  ndc_multipliers : NdcMultipliers;
  vdf_discount_min_iterations : Z;
  vdf_discount_percentage : Z;
  vdf_max_iterations : Z;
  vdf_max_proof_bytes : Z }.

Record LimitsConfig := MkLimitsConfig {
  p2p_max_packet_size : Z; p2p_max_circuit_bytes : Z; proxy_max_body_bytes : Z;
  storage_max_value_bytes : Z; kid_max_public_key_bytes : Z;
  kid_max_location_bytes : Z; kid_max_endpoint_bytes : Z;
  beacon_max_response_bytes : Z; lru_cache_size : Z }.

Record TimeoutsConfig := MkTimeoutsConfig {
  idle_timeout_seconds : Z; heartbeat_age_warning_seconds : Z;
  heartbeat_age_critical_seconds : Z; dns_cache_ttl_seconds : Z;
  network_prune_interval_seconds : Z; host_route_max_age_seconds : Z }.

Record NetworkSection := MkNetworkSection {
  nsp : bytes; base_domain : bytes; docs_url : bytes;
  ipfs_gateway : option bytes; local_bind_ip : bytes;
  bootstrap_nodes : list bytes }.

Record BeaconSection := MkBeaconSection {
  beacon_genesis : Z; kyn_genesis : Z;
  beacon_public_key : bytes; beacon_endpoints : list bytes }.

Record ActionSection := MkActionSection {
  cfg_action_model : bytes; cfg_max_age_kyns : Z }.

(** [benchmark_target_minutes] is an [f64] printed with one decimal by the
    build script; it is kept here in tenths of a minute. *)
Record AdvancedSection := MkAdvancedSection {
  benchmark_base_iterations : Z;
  benchmark_target_deciminutes : option Z;
  takeover_target_kyns : Z;
  m_redundancy : Z;
  dev_mode_iterations : Z;
  limits : LimitsConfig;
  timeouts : TimeoutsConfig }.

Record NetworkConfig := MkNetworkConfig {
  network : NetworkSection; beacon : BeaconSection; action : ActionSection;
  physics : PhysicsConfig; advanced : AdvancedSection }.

(** The values of [network.json] (the endpoint and bootstrap lists, which only
    the HTTP client reads, are left empty). *)
Definition network_json : NetworkConfig := {|
  network := {| nsp := bs "kin"; base_domain := bs "saifmukhtar.dev";
    docs_url := bs "https://kinetic.saifmukhtar.dev";
    ipfs_gateway := Some (bs "https://ipfs.io/ipfs/");
    local_bind_ip := bs "127.0.0.2"; bootstrap_nodes := [] |};
  beacon := {| beacon_genesis := 1692803367; kyn_genesis := 30579969;
    beacon_public_key := bs "83cf0f2896adee7eb8b5f01fcad3912212c437e0073e911fb90022d3e760183c8c4b450b6a0a6c3ac6a5776a2d1064510d1fec758c921cc22b0e17e63aaf4bcb5ed66304de9cf809bd274ca73bab4af5a6e9c76a4bc09e76eae8991ef5ece45a";
    beacon_endpoints := [] |};
  action := {| cfg_action_model := bs "sovereign"; cfg_max_age_kyns := 604800 |};
  physics := {| minimum_commit_age_kyns := 30;
    ndc_multipliers := {| len_0_to_1 := 157788000; len_2 := 129600;
      len_3 := 103680; len_4 := 64800; len_5 := 4320; len_6 := 2160;
      len_7 := 450; len_8_to_10 := 360; len_11_to_17 := 270;
      len_18_to_20 := 180 |};
    vdf_discount_min_iterations := 1000; vdf_discount_percentage := 15;
    vdf_max_iterations := 400000000000; vdf_max_proof_bytes := 1024 |};
  advanced := {| benchmark_base_iterations := 238819830;
    benchmark_target_deciminutes := Some 300;
    takeover_target_kyns := 23652000; m_redundancy := 32;
    dev_mode_iterations := 1000;
    limits := {| p2p_max_packet_size := 102400; p2p_max_circuit_bytes := 4194304;
      proxy_max_body_bytes := 5242880; storage_max_value_bytes := 81920;
      kid_max_public_key_bytes := 8192; kid_max_location_bytes := 2048;
      kid_max_endpoint_bytes := 256; beacon_max_response_bytes := 65536;
      lru_cache_size := 100000 |};
    timeouts := {| idle_timeout_seconds := 201600;
      heartbeat_age_warning_seconds := 43200;
      heartbeat_age_critical_seconds := 86400; dns_cache_ttl_seconds := 300;
      network_prune_interval_seconds := 3600; host_route_max_age_seconds := 600 |} |} |}.

(** ** The constants of [network_constants.rs] that the modelled code reads *)

Definition NSP_SUFFIX : bytes := DOT :: nsp (network network_json).
Definition DID_PREFIX : bytes := bs "did:" ++ nsp (network network_json) ++ bs ":".
Definition BASE_ITERATIONS : Z := benchmark_base_iterations (advanced network_json).
(** [TARGET_MINUTES as u64]: the [f64] constant truncated. *)
Definition TARGET_MINUTES : Z :=
  default 300 (benchmark_target_deciminutes (advanced network_json)) / 10.
Definition TAKEOVER_TARGET_KYNS : Z := takeover_target_kyns (advanced network_json).
Definition DEV_MODE_ITERATIONS : Z := dev_mode_iterations (advanced network_json).
Definition PHYSICS_MINIMUM_COMMIT_AGE_KYNS : Z :=
  minimum_commit_age_kyns (physics network_json).
Definition BEACON_GENESIS : Z := beacon_genesis (beacon network_json).
Definition BEACON_PUBLIC_KEY : bytes := beacon_public_key (beacon network_json).
(** [kyn_period] of the beacon object: the struct of [kinetic-core/build.rs] does
    not have the field, the build script of kinetic-kyn reads it from the JSON
    value. *)
Definition KYN_PERIOD : Z := 1.
Definition PHYSICS_NDC : NdcMultipliers := ndc_multipliers (physics network_json).
Definition PHYSICS_VDF_DISCOUNT_MIN_ITERATIONS : Z :=
  vdf_discount_min_iterations (physics network_json).
Definition PHYSICS_VDF_DISCOUNT_PERCENTAGE : Z :=
  vdf_discount_percentage (physics network_json).
Definition LIMITS_STORAGE_MAX_VALUE_BYTES : Z :=
  storage_max_value_bytes (limits (advanced network_json)).
Definition LIMITS_PROXY_MAX_BODY_BYTES : Z :=
  proxy_max_body_bytes (limits (advanced network_json)).
Definition LIMITS_KID_MAX_PUBLIC_KEY_BYTES : Z :=
  kid_max_public_key_bytes (limits (advanced network_json)).
Definition LIMITS_KID_MAX_LOCATION_BYTES : Z :=
  kid_max_location_bytes (limits (advanced network_json)).
Definition LIMITS_KID_MAX_ENDPOINT_BYTES : Z :=
  kid_max_endpoint_bytes (limits (advanced network_json)).

Definition ACTION_MODEL : bytes := cfg_action_model (action network_json).

(** The [m_redundancy] safety floor: the build script panics below it. *)
Definition build_accepts (c : NetworkConfig) : bool :=
  negb (m_redundancy (advanced c) <? 5).

Example network_json_builds : build_accepts network_json = true.
Proof. reflexivity. Qed.

Example nsp_suffix_is_dot_kin : NSP_SUFFIX = bs ".kin".
Proof. reflexivity. Qed.
