(* ===== verification/Crypto.v ===== *)
(** * Cryptographic primitives ([kinetic-primitives]) over third-party code

    SHA-256 ([sha2]), ML-DSA-65 ([ml_dsa]), the hex and base64url codecs and
    the drand BLS verifier ([beacon_verify]) are third-party crates: they are
    operations of the classes below.  The wrappers of [kinetic-primitives]
    around them are definitions. *)
From S2P Require Import Prelude Bytes.

(** [Sha256::new] / [update]* / [finalize]. *)
Class Sha2 := sha256_digest : bytes -> bytes.

(** Documented behaviour: a digest is 32 bytes. *)
Class Sha2Laws `{Sha2} := {
  sha256_digest_length d : length (sha256_digest d) = 32%nat;
  sha256_digest_wf d : wf_bytes (sha256_digest d) }.

Class MlDsa := {
  VerifyingKey : Type;
  MlSignature : Type;
  vk_new_from_slice : bytes -> option VerifyingKey;
  sig_try_from : bytes -> option MlSignature;
  vk_verify : VerifyingKey -> bytes -> MlSignature -> bool }.

(** The signing half of ML-DSA-65, behind [KineticKeypair]. *)
Class MlDsaSign := {
  KineticKeypair : Type;
  kp_sign : KineticKeypair -> bytes -> bytes;
  to_public_bytes : KineticKeypair -> bytes }.

Class Codecs := {
  hex_decode : bytes -> option bytes;
  b64url_decode : bytes -> option bytes;
  b64url_encode : bytes -> bytes }.

(** Documented behaviour: decoding inverts encoding. *)
Class CodecsLaws `{Codecs} := {
  b64url_decode_encode b : b64url_decode (b64url_encode b) = Some b }.

(** [libp2p::PeerId]: [peer_id_digest] is [parse] followed by
    [as_ref().digest()]; [ed25519_peer_id] is [PeerId::from] of a public key,
    printed. *)
Class PeerIds := {
  peer_id_digest : bytes -> option bytes;
  ed25519_peer_id : bytes -> bytes }.

(** Documented behaviour: the peer id of an Ed25519 key is the identity
    multihash of its protobuf encoding, and [digest] is a multihash's payload
    without its code and its length. *)
Class PeerIdsLaws `{PeerIds} := {
  ed25519_digest k : length k = 32%nat ->
    peer_id_digest (ed25519_peer_id k) = Some ([8; 1; 18; 32] ++ k) }.

Definition KINETIC_PUBKEY_LENGTH : Z := 1952.
Definition KINETIC_SIGNATURE_LENGTH : Z := 3309.

Inductive SignatureError :=
  | SeInvalidSignature
  | SeInvalidPublicKey
  | SeVerificationFailed.

Definition sha256 `{Sha2} (data : bytes) : bytes := sha256_digest data.

(** Successive [update]s hash the concatenation. *)
Definition sha256_concat `{Sha2} (chunks : list bytes) : bytes :=
  sha256_digest (concat chunks).

Definition verify_signature `{MlDsa} (pubkey_bytes message signature_bytes : bytes)
  : Result SignatureError unit :=
  pubkey ← ok_or (vk_new_from_slice pubkey_bytes) SeInvalidPublicKey;
  sig ← ok_or (sig_try_from signature_bytes) SeInvalidSignature;
  if vk_verify pubkey message sig then Ok tt else Err SeVerificationFailed.

(** Documented behaviour: a fresh signature verifies under its own key. *)
Class MlDsaSignLaws `{MlDsa, MlDsaSign} := {
  verify_own_signature k m :
    verify_signature (to_public_bytes k) m (kp_sign k m) = Ok tt }.

(** The binding of ML-DSA, whose challenge hashes the public key with the message:
    a signature does not verify for two messages, nor under two keys. *)
Class MlDsaBound `{MlDsa} := {
  message_bound pk m m' sig :
    verify_signature pk m sig = Ok tt -> verify_signature pk m' sig = Ok tt -> m = m';
  key_bound pk pk' m sig :
    verify_signature pk m sig = Ok tt -> verify_signature pk' m sig = Ok tt -> pk = pk' }.

(** [format!("{:02x}", byte)] for each byte. *)
Definition hex_digit (d : Z) : Z := if d <? 10 then 48 + d else 87 + d.
Definition hex_lower (l : bytes) : bytes :=
  concat (map (fun b => [hex_digit (b / 16); hex_digit (b mod 16)]) l).

Lemma hex_lower_chars l :
  wf_bytes l -> forallb (fun c => is_ascii_hexdigit c && negb (is_ascii_uppercase c)) (hex_lower l) = true.
Proof.
  induction 1 as [|b l Hb Hl IH]; [done|]. unfold hex_lower in *. cbn [map concat app forallb].
  rewrite IH, andb_true_r.
  apply (byte_forall (fun b => is_ascii_hexdigit (hex_digit (b / 16)) &&
    negb (is_ascii_uppercase (hex_digit (b / 16))) &&
    (is_ascii_hexdigit (hex_digit (b mod 16)) && negb (is_ascii_uppercase (hex_digit (b mod 16))))));
    [vm_compute; reflexivity|done].
Qed.

Lemma length_hex_lower l : length (hex_lower l) = (2 * length l)%nat.
Proof. induction l as [|b l IH]; [done|]. unfold hex_lower in *. cbn in *. lia. Qed.

Lemma hex_lower_inj l k : wf_bytes l -> wf_bytes k -> hex_lower l = hex_lower k -> l = k.
Proof.
  intros Hl. revert k. induction Hl as [|b l Hb Hl IH]; intros [|c k] Hk E; try done.
  inversion Hk as [|? ? Hc Hk']; subst. unfold hex_lower in E. cbn [map concat app] in E.
  injection E as E1 E2 E. f_equal; [|by apply IH].
  pose proof (byte_forall (fun b => forallb (fun c => (b =? c) ||
    negb ((hex_digit (b / 16) =? hex_digit (c / 16)) && (hex_digit (b mod 16) =? hex_digit (c mod 16))))
    (seqZ 0 256)) ltac:(vm_compute; reflexivity) b Hb) as H.
  cbn beta in H. eapply (byte_forall _ H) in Hc. rewrite E1, E2, !Z.eqb_refl, orb_false_r in Hc.
  by apply Z.eqb_eq.
Qed.

Lemma sha256_concat_eq `{Sha2} chunks : sha256_concat chunks = sha256 (concat chunks).
Proof. reflexivity. Qed.

(** ** A concrete toy instance, used by the witnesses of the other files

    The checksum-style digest and the "signature is key followed by message"
    scheme below satisfy the classes and their laws. *)
Module Toy.

Definition toy_digest (d : bytes) : bytes :=
  be_bytes 32 (foldr (fun b acc => b + 257 * acc) (len d) d).

Definition toy_sha2 : Sha2 := toy_digest.

Definition toy_mldsa : MlDsa := {|
  VerifyingKey := bytes; MlSignature := bytes;
  vk_new_from_slice k := Some k;
  sig_try_from s := Some s;
  vk_verify k m s := bool_decide (s = k ++ m) |}.

Definition toy_mldsa_sign : MlDsaSign := {|
  KineticKeypair := bytes; kp_sign k m := k ++ m; to_public_bytes k := k |}.

Definition toy_codecs : Codecs := {|
  hex_decode s := if (len s) mod 2 =? 0 then Some s else None;
  b64url_decode s := Some s;
  b64url_encode b := b |}.

Lemma toy_sha2_laws : @Sha2Laws toy_sha2.
Proof.
  split; intros d.
  - apply length_be_bytes.
  - apply be_bytes_wf.
Qed.

Lemma toy_mldsa_sign_laws : @MlDsaSignLaws toy_mldsa toy_mldsa_sign.
Proof. split. intros k m. cbn. by rewrite bool_decide_eq_true_2. Qed.

Lemma toy_mldsa_bound : @MlDsaBound toy_mldsa.
Proof.
  assert (Hv : forall pk m sig, @verify_signature toy_mldsa pk m sig = Ok tt -> sig = pk ++ m).
  { intros pk m sig. unfold verify_signature. cbn. case_bool_decide; done. }
  split; intros ???? ->%Hv E%Hv; [by apply app_inv_head in E|by apply app_inv_tail in E].
Qed.

Lemma toy_codecs_laws : @CodecsLaws toy_codecs.
Proof. split. done. Qed.

End Toy.
