(* ===== verification/Kyn.v ===== *)
(** * Network time ([kinetic-kyn])

    [math.rs]: conversions between a Kyn and Unix time and the
    prism/facet/kyn calendar.  [beacon.rs]: the beacon pulse, its usability
    rules and its signature verification, over a BLS verifier that is a
    parameter. *)
From S2P Require Import Prelude Bytes Config Crypto.

(** A [Kyn] and a [UKyn] are [u64] newtypes. *)
Notation Kyn := Z (only parsing).
Notation UKyn := Z (only parsing).

Definition to_ukyn (kyn : Kyn) (genesis : Z) : UKyn := sat_add genesis kyn.
Definition to_kyn (ukyn : UKyn) (genesis : Z) : Kyn := sat_sub ukyn genesis.

Record CrystallizedKyn := MkCrystallizedKyn {
  prism : Z; facet : Z; ck_kyn : Z; total : Z }.

Definition from_kyn (current_kyn genesis_kyn : Kyn) : CrystallizedKyn :=
  if current_kyn <? genesis_kyn then
    {| prism := 0; facet := 0; ck_kyn := 0; total := 0 |}
  else
    let total := current_kyn - genesis_kyn in
    let prism := total / 86400 in
    let remainder_after_prism := total mod 86400 in
    let facet := remainder_after_prism / 3600 in
    let kyn := remainder_after_prism mod 3600 in
    {| prism := prism; facet := facet; ck_kyn := kyn; total := total |}.

(** ** The beacon *)

(** [beacon_verify]: parsing of a 96-byte G2 public key and verification of a
    round signature. *)
Class BeaconVerify := {
  G2Pubkey : Type;
  g2_from_fixed : bytes -> option G2Pubkey;
  g2_verify : G2Pubkey -> Z -> bytes -> bytes -> option bool }.

Record RawKyn := MkRawKyn {
  beacon_idx : Z;
  randomness : bytes;
  rk_signature : bytes;
  is_from_cache : bool;
  is_unavailable : bool }.

Definition MAX_STALE_ROUNDS_FOR_HEARTBEAT : Z := 600.

Section Beacon.
Context {HSha : Sha2} {HCod : Codecs} {HBv : BeaconVerify}.

Definition verify_beacon_signature (beacon_idx : Z) (signature_hex : bytes)
    (bypass_signature : bool) : bool :=
  if bypass_signature then true else
  match hex_decode BEACON_PUBLIC_KEY with
  | Some b =>
      if len b =? 96 then
        match g2_from_fixed b with
        | Some pubkey =>
            match hex_decode signature_hex with
            | Some sig_bytes => default false (g2_verify pubkey beacon_idx [] sig_bytes)
            | None => false
            end
        | None => false
        end
      else false
  | None => false
  end.

(** [RawKyn::kyn]: the round index times [KYN_PERIOD] (a [u64] product). *)
Definition rk_kyn (r : RawKyn) : Z := wmul64 (beacon_idx r) KYN_PERIOD.

Definition unavailable : RawKyn :=
  {| beacon_idx := 0; randomness := []; rk_signature := [];
     is_from_cache := false; is_unavailable := true |}.

Definition can_register (r : RawKyn) : bool :=
  negb (is_unavailable r) && negb (is_from_cache r).

Definition can_heartbeat (r : RawKyn) (current_live_kyn : Kyn) : bool :=
  if is_unavailable r then false
  else if negb (is_from_cache r) then true
  else sat_sub current_live_kyn (rk_kyn r) <=? MAX_STALE_ROUNDS_FOR_HEARTBEAT.

Definition verify_beacon (r : RawKyn) (bypass_signature : bool) : bool :=
  if is_unavailable r then true
  else if bypass_signature then true
  else if negb (verify_beacon_signature (beacon_idx r) (rk_signature r) false) then false
  else match hex_decode (rk_signature r) with
       | None => false
       | Some sig_bytes =>
           let expected := sha256 sig_bytes in
           match hex_decode (randomness r) with
           | Some rr => bool_decide (rr = expected)
           | None => false
           end
       end.

End Beacon.

(** ** Calendar *)

(** At or after genesis the calendar is the mixed-radix decomposition of
    the elapsed kyns: prisms of 86,400, facets below 24 and kyns below 3,600,
    and it is the only triple in those ranges that sums to the elapsed time. *)
Theorem from_kyn_unique_decomposition current genesis p f k :
  genesis <= current -> 0 <= f < 24 -> 0 <= k < 3600 ->
  (prism (from_kyn current genesis) = p /\
   facet (from_kyn current genesis) = f /\
   ck_kyn (from_kyn current genesis) = k)
  <-> current - genesis = 86400 * p + 3600 * f + k.
Proof.
  intros Hle Hf Hk. unfold from_kyn.
  destruct (current <? genesis) eqn:E; zbool; [lia|]. cbn.
  generalize (current - genesis); intros t.
  split; [intros (<- & <- & <-); dlia|].
  intros ->. repeat split; dlia.
Qed.

Lemma from_kyn_unique_decomposition_witness :
  prism (from_kyn 30673614 30579969) = 1 /\
  facet (from_kyn 30673614 30579969) = 2 /\
  ck_kyn (from_kyn 30673614 30579969) = 45.
Proof. apply (from_kyn_unique_decomposition 30673614 30579969 1 2 45); lia. Defined.

Lemma from_kyn_before_genesis current genesis :
  current < genesis -> from_kyn current genesis = MkCrystallizedKyn 0 0 0 0.
Proof. intros H. unfold from_kyn. apply Z.ltb_lt in H. now rewrite H. Qed.

Lemma to_kyn_to_ukyn kyn genesis :
  is_u64 kyn -> is_u64 genesis -> genesis + kyn <= u64_max ->
  to_kyn (to_ukyn kyn genesis) genesis = kyn.
Proof. unfold to_kyn, to_ukyn. unfold_u64. lia. Qed.

(** Past the end of [u64] the conversion saturates and loses the excess. *)
Lemma to_kyn_to_ukyn_saturates kyn genesis :
  is_u64 kyn -> is_u64 genesis -> u64_max < genesis + kyn ->
  to_kyn (to_ukyn kyn genesis) genesis = u64_max - genesis.
Proof. unfold to_kyn, to_ukyn. unfold_u64. lia. Qed.

(** ** Beacon verification *)

Section BeaconFacts.
Context {HSha : Sha2} {HCod : Codecs} {HBv : BeaconVerify}.

(** What an accepted beacon pulse has proved. *)
Definition beacon_authentic (r : RawKyn) : Prop :=
  exists pk_bytes pk sig_bytes,
    hex_decode BEACON_PUBLIC_KEY = Some pk_bytes /\
    g2_from_fixed pk_bytes = Some pk /\
    hex_decode (rk_signature r) = Some sig_bytes /\
    g2_verify pk (beacon_idx r) [] sig_bytes = Some true /\
    hex_decode (randomness r) = Some (sha256 sig_bytes).

Lemma verify_beacon_signature_true idx sig :
  verify_beacon_signature idx sig false = true ->
  exists pk_bytes pk sig_bytes,
    hex_decode BEACON_PUBLIC_KEY = Some pk_bytes /\
    g2_from_fixed pk_bytes = Some pk /\
    hex_decode sig = Some sig_bytes /\
    g2_verify pk idx [] sig_bytes = Some true.
Proof.
  unfold verify_beacon_signature. intros H.
  destruct (hex_decode BEACON_PUBLIC_KEY) as [b|] eqn:Eb; [|done].
  destruct (len b =? 96); [|done].
  destruct (g2_from_fixed b) as [pk|] eqn:Ek; [|done].
  destruct (hex_decode sig) as [sb|] eqn:Es; [|done].
  destruct (g2_verify pk idx [] sb) as [[]|] eqn:Ev; [|done|done].
  eauto 10.
Qed.

Lemma verify_beacon_authentic r :
  is_unavailable r = false -> verify_beacon r false = true -> beacon_authentic r.
Proof.
  unfold verify_beacon. intros -> H.
  destruct (verify_beacon_signature _ _ false) eqn:Ev; cbn in H; [|done].
  apply verify_beacon_signature_true in Ev as (pb & pk & sb & ? & ? & Es & ?).
  rewrite Es in H. destruct (hex_decode (randomness r)) as [rr|] eqn:Er; [|done].
  zbool. subst. exists pb, pk, sb. eauto 10.
Qed.

(** Without the dev-mode bypass, a pulse that both verifies and may drive
    a registration carries a BLS signature of its own round under the
    configured beacon key and randomness equal to the signature's SHA-256. *)
Theorem registrable_beacon_is_authentic r :
  verify_beacon r false = true -> can_register r = true -> beacon_authentic r.
Proof.
  intros Hv Hr. unfold can_register in Hr. zbool.
  by apply verify_beacon_authentic.
Qed.

(** The verifier alone gives no such guarantee: the sentinel flag, which is a
    deserialised field, is accepted before any check. *)
Lemma verify_beacon_accepts_unavailable idx rand sig cached :
  verify_beacon (MkRawKyn idx rand sig cached true) false = true.
Proof. reflexivity. Qed.

Lemma can_heartbeat_cached_iff r now :
  is_unavailable r = false -> is_from_cache r = true ->
  can_heartbeat r now = true <-> now - rk_kyn r <= 600.
Proof.
  intros H1 H2. unfold can_heartbeat, MAX_STALE_ROUNDS_FOR_HEARTBEAT.
  rewrite H1, H2. cbn [negb]. rewrite Z.leb_le. unfold_u64. lia.
Qed.

End BeaconFacts.

(** A concrete verifier for the witness: a signature is valid for round [i]
    when it is the one-byte string [i mod 256]. *)
Definition toy_beacon_codecs : Codecs := {|
  hex_decode s := Some (take 96 s);
  b64url_decode s := Some s; b64url_encode b := b |}.
Definition toy_beacon : BeaconVerify := {|
  G2Pubkey := unit; g2_from_fixed _ := Some tt;
  g2_verify _ i _ s := Some (bool_decide (s = [i mod 256])) |}.

Lemma registrable_beacon_is_authentic_witness :
  let r := MkRawKyn 1000 (@sha256 Toy.toy_sha2 [232]) [232] false false in
  @beacon_authentic Toy.toy_sha2 toy_beacon_codecs toy_beacon r.
Proof.
  apply (@registrable_beacon_is_authentic Toy.toy_sha2 toy_beacon_codecs toy_beacon);
    vm_compute; reflexivity.
Defined.
