(* ===== verification/Names.v ===== *)
(** * Apex names ([kinetic-core/src/types/names.rs])

    Normalisation, apex extraction, reserved names and validation, with the
    characterisation of the accepted names. *)
From Stdlib Require Import String.
From S2P Require Import Prelude Bytes Config.

Inductive NamesError :=
  | NameTooLong
  | LabelTooLong
  | EmptyLabel
  | InvalidCharacter
  | InvalidHyphenPlacement
  | ReservedName
  | NotAnApexName.

#[export] Instance NamesError_eq_dec : EqDecision NamesError.
Proof. solve_decision. Defined.

(** [while norm.ends_with('.') { norm.pop(); }], on the reversed string. *)
Fixpoint pop_dots (rev_s : bytes) : bytes :=
  match rev_s with
  | b :: t => if b =? DOT then pop_dots t else rev_s
  | [] => []
  end.

Definition trim_dots (s : bytes) : bytes := reverse (pop_dots (reverse s)).

Definition RESERVED_NAMES : list bytes :=
  [bs "test"; bs "example"; bs "invalid"; bs "localhost"; bs "local";
   bs "onion"; bs "arpa"; bs "null"; bs "none"; bs "zero"; bs "corp";
   bs "lan"; bs "internal"; bs "home"].

Section Names.
Context {HUni : UnicodeCase}.

Definition normalize_name (name : bytes) : bytes :=
  let norm := trim_dots (to_lowercase name) in
  if ends_with NSP_SUFFIX norm then norm else norm ++ NSP_SUFFIX.

Definition is_reserved_name (name : bytes) : bool :=
  let name_lower := to_lowercase name in
  existsb (fun r => bool_decide (r ++ NSP_SUFFIX = name_lower)) RESERVED_NAMES.

Definition extract_apex_name (name : bytes) : bytes :=
  let norm := normalize_name name in
  let parts := split_on DOT norm in
  match reverse parts with
  | last :: second :: _ => second ++ DOT :: last
  | _ => norm
  end.

(** The character test of the LDH loop. *)
Definition is_ldh (c : Z) : bool :=
  is_ascii_lowercase c || is_ascii_digit c || (c =? HYPHEN).

(** One iteration of the loop over [norm.split('.')]. *)
Definition check_label (part : bytes) : Result NamesError unit :=
  bail_if (len part =? 0) EmptyLabel;;
  bail_if (63 <? len part) LabelTooLong;;
  bail_if (existsb (fun c => negb (is_ldh c)) part) InvalidCharacter;;
  bail_if (starts_with [HYPHEN] part || ends_with [HYPHEN] part) InvalidHyphenPlacement.

Fixpoint check_labels (parts : list bytes) : Result NamesError unit :=
  match parts with
  | [] => Ok tt
  | p :: ps => check_label p;; check_labels ps
  end.

Definition is_valid_apex_name (name : bytes) : Result NamesError unit :=
  let norm := normalize_name name in
  bail_if (253 <? len norm) NameTooLong;;
  check_labels (split_on DOT norm);;
  let apex := extract_apex_name norm in
  bail_if (negb (bool_decide (norm = apex))) NotAnApexName;;
  bail_if (is_reserved_name norm) ReservedName.

End Names.

(** ** Suffixes and separators *)

Lemma starts_with_app p s : starts_with p (p ++ s) = true.
Proof. induction p; cbn; [done|]. by rewrite Z.eqb_refl. Qed.

Lemma starts_with_true p s : starts_with p s = true <-> exists t, s = p ++ t.
Proof.
  split; [|intros [t ->]; apply starts_with_app].
  revert s. induction p as [|a p IH]; intros s H; [by exists s|].
  destruct s as [|b s]; cbn in H; [done|]. zbool. subst.
  apply IH in H0 as [t ->]. by exists t.
Qed.

Lemma ends_with_true p s : ends_with p s = true <-> exists t, s = t ++ p.
Proof.
  unfold ends_with. rewrite starts_with_true. split; intros [t E].
  - exists (reverse t). rewrite <- (reverse_involutive s), E, reverse_app.
    by rewrite reverse_involutive.
  - exists (reverse t). by rewrite E, reverse_app.
Qed.

Lemma strip_suffix_app p s : strip_suffix p (s ++ p) = Some s.
Proof.
  unfold strip_suffix. replace (ends_with p (s ++ p)) with true.
  - f_equal. rewrite length_app. rewrite Nat.add_sub. apply take_app_length.
  - symmetry. apply ends_with_true. by exists s.
Qed.

Lemma split_on_nonempty c s : split_on c s <> [].
Proof. destruct s as [|b s]; cbn; [done|]. destruct (b =? c); [done|]. by destruct (split_on c s). Qed.

Lemma split_on_no_sep c s : c ∉ s -> split_on c s = [s].
Proof.
  induction s as [|b s IH]; intros H; [done|]. cbn.
  apply not_elem_of_cons in H as [Hb Hs].
  destruct (b =? c) eqn:E; zbool; [congruence|]. by rewrite IH.
Qed.

Lemma split_on_app c a b : c ∉ a -> split_on c (a ++ c :: b) = a :: split_on c b.
Proof.
  induction a as [|x a IH]; intros H; cbn.
  - by rewrite Z.eqb_refl.
  - apply not_elem_of_cons in H as [Hb Hs].
    destruct (x =? c) eqn:E; zbool; [congruence|]. by rewrite IH.
Qed.

Lemma join_split_on c s : join_with c (split_on c s) = s.
Proof.
  induction s as [|b s IH]; [done|]. cbn.
  destruct (b =? c) eqn:E; zbool.
  - subst. destruct (split_on c s) eqn:Es; [by apply split_on_nonempty in Es|].
    cbn. by rewrite <- IH.
  - destruct (split_on c s) as [|p ps] eqn:Es; [by apply split_on_nonempty in Es|].
    rewrite <- IH. by destruct ps.
Qed.

Lemma split_on_pieces c s : Forall (fun p => c ∉ p) (split_on c s).
Proof.
  induction s as [|b s IH]; cbn; [repeat constructor; set_solver|].
  destruct (b =? c) eqn:E; zbool.
  - constructor; [set_solver|done].
  - destruct (split_on c s) as [|p ps]; inversion IH; subst.
    + constructor; [set_solver|done].
    + constructor; [set_solver|done].
Qed.

(** ** Accepted labels *)

(** The LDH rule of RFC 5891 within the RFC 1035 length limit. *)
Definition valid_label (l : bytes) : Prop :=
  1 <= len l <= 63 /\ Forall (fun c => is_ldh c = true) l /\
  starts_with [HYPHEN] l = false /\ ends_with [HYPHEN] l = false.

Lemma existsb_negb_Forall {A} (f : A -> bool) l :
  existsb (fun x => negb (f x)) l = false <-> Forall (fun x => f x = true) l.
Proof.
  induction l as [|x l IH]; cbn; [split; auto|].
  rewrite orb_false_iff, negb_false_iff, Forall_cons, IH. done.
Qed.

Lemma check_label_ok p : check_label p = Ok tt <-> valid_label p.
Proof.
  unfold check_label, valid_label. rewrite !bail_if_ok, existsb_negb_Forall.
  unfold bail_if. destruct (starts_with _ _ || ends_with _ _) eqn:E.
  - split; [naive_solver|]. intros (_ & _ & Hs & He). rewrite Hs, He in E. done.
  - zbool. rewrite Z.eqb_neq, Z.ltb_ge. pose proof (len_nonneg p).
    intuition lia.
Qed.

Lemma check_labels_ok ps : check_labels ps = Ok tt <-> Forall valid_label ps.
Proof.
  induction ps as [|p ps IH]; cbn; [split; auto|].
  rewrite bind_ok, Forall_cons, <- IH. setoid_rewrite <- check_label_ok.
  split; [intros ([] & ? & ?); auto|intros [? ?]; by exists tt].
Qed.

Lemma is_ldh_not_dot l : Forall (fun c => is_ldh c = true) l -> DOT ∉ l.
Proof. intros H Hin. eapply Forall_forall in H; [|exact Hin]. done. Qed.

Lemma is_ldh_lower c : is_ldh c = true -> is_ascii c = true /\ to_ascii_lowercase c = c.
Proof.
  unfold is_ldh, is_ascii, to_ascii_lowercase, is_ascii_lowercase, is_ascii_digit,
    is_ascii_uppercase, HYPHEN. intros H.
  destruct ((65 <=? c) && (c <=? 90)) eqn:E.
  - exfalso. zbool. apply orb_true_iff in H as [H|H]; [apply orb_true_iff in H as [H|H]|]; zbool; lia.
  - split; [|done]. apply Z.ltb_lt.
    apply orb_true_iff in H as [H|H]; [apply orb_true_iff in H as [H|H]|]; zbool; lia.
Qed.

(** A byte of a normalised name: LDH or the separator. *)
Definition name_byte (c : Z) : Prop := is_ldh c = true \/ c = DOT.

Lemma name_byte_lower c : name_byte c -> is_ascii c = true /\ to_ascii_lowercase c = c.
Proof. intros [H | ->]; [by apply is_ldh_lower|done]. Qed.

Section Facts.
Context {HUni : UnicodeCase}.

Lemma to_lowercase_fixed s : Forall name_byte s -> to_lowercase s = s.
Proof.
  intros H. unfold to_lowercase.
  replace (forallb is_ascii s) with true.
  - induction H as [|c s Hc Hs IH]; cbn; [done|].
    apply name_byte_lower in Hc as [_ ->]. by f_equal.
  - symmetry. apply forallb_forall. intros c Hc.
    apply list_elem_of_In in Hc. eapply Forall_forall in H; [|exact Hc].
    by apply name_byte_lower.
Qed.

Lemma trim_dots_snoc s c : c <> DOT -> trim_dots (s ++ [c]) = s ++ [c].
Proof.
  intros Hc. unfold trim_dots. rewrite reverse_snoc. cbn [pop_dots].
  destruct (c =? DOT) eqn:E; zbool; [congruence|].
  by rewrite reverse_cons, reverse_involutive.
Qed.

Lemma nsp_suffix_snoc s : s ++ NSP_SUFFIX = (s ++ bs ".ki") ++ [110].
Proof. rewrite <- app_assoc. reflexivity. Qed.

Lemma normalize_name_fixed s :
  Forall name_byte (s ++ NSP_SUFFIX) -> normalize_name (s ++ NSP_SUFFIX) = s ++ NSP_SUFFIX.
Proof.
  intros H. unfold normalize_name. rewrite to_lowercase_fixed by done.
  rewrite nsp_suffix_snoc, trim_dots_snoc by done. rewrite <- nsp_suffix_snoc.
  replace (ends_with _ _) with true; [done|]. symmetry. apply ends_with_true. by eexists.
Qed.

Lemma normalize_name_suffix name : exists s, normalize_name name = s ++ NSP_SUFFIX.
Proof.
  unfold normalize_name. destruct (ends_with _ _) eqn:E; [|by eexists].
  apply ends_with_true in E as [t ->]. by eexists.
Qed.

Lemma nsp_suffix_name_bytes : Forall name_byte NSP_SUFFIX.
Proof.
  constructor; [by right|]. repeat (constructor; [by left|]). constructor.
Qed.

Lemma label_name_bytes l : Forall (fun c => is_ldh c = true) l -> Forall name_byte l.
Proof. intros H. eapply Forall_impl; [exact H|]. by left. Qed.

Lemma extract_apex_label l :
  Forall (fun c => is_ldh c = true) l ->
  extract_apex_name (l ++ NSP_SUFFIX) = l ++ NSP_SUFFIX.
Proof.
  intros Hl. unfold extract_apex_name.
  rewrite normalize_name_fixed
    by (apply Forall_app; auto using label_name_bytes, nsp_suffix_name_bytes).
  change (l ++ NSP_SUFFIX) with (l ++ DOT :: bs "kin").
  rewrite split_on_app by by apply is_ldh_not_dot. reflexivity.
Qed.

Lemma is_reserved_label l :
  Forall (fun c => is_ldh c = true) l ->
  is_reserved_name (l ++ NSP_SUFFIX) = true <-> l ∈ RESERVED_NAMES.
Proof.
  intros Hl. unfold is_reserved_name.
  rewrite to_lowercase_fixed
    by (apply Forall_app; auto using label_name_bytes, nsp_suffix_name_bytes).
  rewrite existsb_exists. setoid_rewrite bool_decide_eq_true.
  setoid_rewrite <- list_elem_of_In. split.
  - intros (r & Hr & E). apply app_inv_tail in E. congruence.
  - intros H. by exists l.
Qed.

(** [name_byte]s of a name all of whose labels are valid. *)
Lemma join_name_bytes ps : Forall valid_label ps -> Forall name_byte (join_with DOT ps).
Proof.
  induction 1 as [|p ps (_ & Hp & _) _ IH]; [constructor|].
  apply label_name_bytes in Hp. destruct ps as [|b ps]; [done|].
  change (Forall name_byte (p ++ DOT :: join_with DOT (b :: ps))).
  apply Forall_app. split; [done|]. constructor; [by right|done].
Qed.

(** The second-to-last and last pieces of a name with the suffix. *)
Lemma split_on_suffix s :
  exists pre l, split_on DOT (s ++ NSP_SUFFIX) = pre ++ [l; bs "kin"] /\ DOT ∉ l.
Proof.
  change (s ++ NSP_SUFFIX) with (s ++ DOT :: bs "kin").
  induction s as [|b s IH]; [exists [], []; split; [reflexivity|set_solver]|].
  destruct IH as (pre & l & E & Hl). rewrite <- app_comm_cons.
  cbn [split_on]. rewrite E.
  destruct (b =? DOT) eqn:Eb; [by exists ([] :: pre), l|].
  zbool. destruct pre as [|p pre]; cbn.
  - exists [], (b :: l). split; [done|]. set_solver.
  - by exists ((b :: p) :: pre), l.
Qed.

Lemma apex_of_split n pre l :
  normalize_name n = n -> split_on DOT n = pre ++ [l; bs "kin"] ->
  extract_apex_name n = l ++ NSP_SUFFIX.
Proof.
  intros En Es. unfold extract_apex_name. rewrite En, Es, reverse_app. reflexivity.
Qed.

(** The normal form of an accepted name. *)
Lemma accepted_normal_form name :
  is_valid_apex_name name = Ok tt ->
  exists label, normalize_name name = label ++ NSP_SUFFIX /\
    valid_label label /\ label ∉ RESERVED_NAMES.
Proof.
  unfold is_valid_apex_name. rewrite !bail_if_ok, bind_ok.
  intros (_ & [] & Hl & H). apply check_labels_ok in Hl.
  destruct (normalize_name_suffix name) as [s Es]. rewrite Es in *.
  destruct (split_on_suffix s) as (pre & l & Hs & _).
  assert (Hb : Forall name_byte (s ++ NSP_SUFFIX)).
  { rewrite <- (join_split_on DOT). by apply join_name_bytes. }
  rewrite Hs, Forall_app in Hl. destruct Hl as [_ Hl]. inversion Hl as [|? ? Hv]; subst.
  rewrite (apex_of_split _ pre l), bail_if_ok in H by (auto using normalize_name_fixed).
  destruct H as [Hn Hr]. zbool. rewrite Hn in *.
  exists l. split; [done|]. split; [done|]. intros Hin.
  apply is_reserved_label in Hin; [|by destruct Hv as (? & ? & ?)].
  by rewrite Hin in Hr.
Qed.

Lemma normal_form_accepted name l :
  normalize_name name = l ++ NSP_SUFFIX -> valid_label l -> l ∉ RESERVED_NAMES ->
  is_valid_apex_name name = Ok tt.
Proof.
  intros E Hv Hr. unfold is_valid_apex_name. rewrite E, !bail_if_ok, bind_ok.
  pose proof Hv as (Hlen & Hldh & _). split.
  { apply Z.ltb_ge. rewrite len_app. change (len NSP_SUFFIX) with 4. lia. }
  exists tt. split.
  { apply check_labels_ok. change (l ++ NSP_SUFFIX) with (l ++ DOT :: bs "kin").
    rewrite split_on_app by by apply is_ldh_not_dot.
    repeat constructor; try done; apply Hv. }
  rewrite extract_apex_label, bail_if_ok by done. split.
  { by rewrite bool_decide_eq_true_2. }
  unfold bail_if. destruct (is_reserved_name _) eqn:Ers; [|done].
  by apply is_reserved_label in Ers.
Qed.

(** A name is accepted exactly when its normal form is one valid LDH label
    of 1 to 63 bytes, not a reserved one, followed by the network suffix. *)
Theorem is_valid_apex_name_iff name :
  is_valid_apex_name name = Ok tt <->
  exists label, normalize_name name = label ++ NSP_SUFFIX /\
    valid_label label /\ label ∉ RESERVED_NAMES.
Proof.
  split; [apply accepted_normal_form|].
  intros (l & ? & ? & ?). by apply (normal_form_accepted _ l).
Qed.

Lemma normal_form_fixed l :
  valid_label l -> normalize_name (l ++ NSP_SUFFIX) = l ++ NSP_SUFFIX.
Proof.
  intros (_ & Hldh & _). apply normalize_name_fixed, Forall_app.
  auto using label_name_bytes, nsp_suffix_name_bytes.
Qed.

(** On an accepted name normalisation is stable: normalising again and
    extracting the apex both return the normal form, so every component that
    re-normalises the name sees the same apex. *)
Theorem accepted_name_stable name :
  is_valid_apex_name name = Ok tt ->
  normalize_name (normalize_name name) = normalize_name name /\
  extract_apex_name name = normalize_name name /\
  is_valid_apex_name (normalize_name name) = Ok tt.
Proof.
  intros H. apply accepted_normal_form in H as (l & E & Hv & Hr).
  rewrite E. split; [by apply normal_form_fixed|]. split.
  - unfold extract_apex_name. rewrite E. change (l ++ NSP_SUFFIX) with (l ++ DOT :: bs "kin").
    rewrite split_on_app by (apply is_ldh_not_dot; apply Hv). reflexivity.
  - apply (normal_form_accepted _ l); auto using normal_form_fixed.
Qed.

End Facts.

(** The Unicode tables do not matter on ASCII names: the witnesses use the identity. *)
Definition ascii_only : UnicodeCase := fun s => s.

Lemma accepted_name_stable_witness :
  @extract_apex_name ascii_only (bs "SAIFMUKHTAR..") = bs "saifmukhtar.kin".
Proof.
  apply (@accepted_name_stable ascii_only (bs "SAIFMUKHTAR..")). vm_compute. reflexivity.
Defined.

Example reserved_rejected :
  @is_valid_apex_name ascii_only (bs "LocalHost.kin") = Err ReservedName.
Proof. vm_compute. reflexivity. Qed.

Example subname_rejected :
  @is_valid_apex_name ascii_only (bs "blog.saifmukhtar.kin") = Err NotAnApexName.
Proof. vm_compute. reflexivity. Qed.
