(* ===== verification/Physics.v ===== *)
(** * VDF difficulty ([kinetic-core/src/physics.rs])

    The name difficulty curve and the inverse-square takeover decay, in
    [u64]/[u128] arithmetic, with their bounds. *)
From Stdlib Require Import String.
From S2P Require Import Prelude Bytes Config Names.

Record NetworkPhysics := MkNetworkPhysics { ph_takeover_target_kyns : Z }.

Definition physics_default : NetworkPhysics :=
  {| ph_takeover_target_kyns := TAKEOVER_TARGET_KYNS |}.

Definition anchor (self : NetworkPhysics) : Z := BASE_ITERATIONS.

(** The closure [calc]. *)
Definition ndc_calc (base tm target_minutes : Z) : Z :=
  as_u64 (wmul128 base target_minutes / tm).

Section Physics.
Context {HUni : UnicodeCase}.
(** [is_dev_mode()]: the [simulation] cargo feature of the build. *)
Variable is_dev_mode : bool.

Definition label_iters (self : NetworkPhysics) (label : bytes) : Z :=
  if is_dev_mode then DEV_MODE_ITERATIONS else
  let n := len label in
  let base := anchor self in
  let calc := ndc_calc base TARGET_MINUTES in
  if n <=? 1 then calc (len_0_to_1 PHYSICS_NDC)
  else if n =? 2 then calc (len_2 PHYSICS_NDC)
  else if n =? 3 then calc (len_3 PHYSICS_NDC)
  else if n =? 4 then calc (len_4 PHYSICS_NDC)
  else if n =? 5 then calc (len_5 PHYSICS_NDC)
  else if n =? 6 then calc (len_6 PHYSICS_NDC)
  else if n =? 7 then calc (len_7 PHYSICS_NDC)
  else if n <=? 10 then calc (len_8_to_10 PHYSICS_NDC)
  else if n <=? 17 then calc (len_11_to_17 PHYSICS_NDC)
  else if n <=? 20 then calc (len_18_to_20 PHYSICS_NDC)
  else base.

Definition iterations (self : NetworkPhysics) (name : bytes) : Z :=
  let normalized_name := normalize_name name in
  let apex := extract_apex_name normalized_name in
  let label := default apex (strip_suffix NSP_SUFFIX apex) in
  label_iters self label.

End Physics.

Definition takeover_iterations (self : NetworkPhysics)
    (base_iterations kyns_idle : Z) : Z :=
  let idle_plus := sat_add kyns_idle 1 in
  let target_kyns := ph_takeover_target_kyns self in
  let multiplier :=
    if target_kyns >? idle_plus then
      let target_sq := wmul128 target_kyns target_kyns in
      let idle_sq := wmul128 idle_plus idle_plus in
      target_sq / idle_sq
    else 1 in
  let difficulty := wmul128 base_iterations (Z.max 1 multiplier) in
  if difficulty >? u64_max then u64_max else as_u64 difficulty.

(** ** The difficulty curve *)

(** The curve without machine arithmetic: minutes of sequential work per
    label length, at [BASE_ITERATIONS / TARGET_MINUTES] iterations a minute. *)
Definition ndc_minutes (n : Z) : Z :=
  if n <=? 1 then len_0_to_1 PHYSICS_NDC
  else if n =? 2 then len_2 PHYSICS_NDC
  else if n =? 3 then len_3 PHYSICS_NDC
  else if n =? 4 then len_4 PHYSICS_NDC
  else if n =? 5 then len_5 PHYSICS_NDC
  else if n =? 6 then len_6 PHYSICS_NDC
  else if n =? 7 then len_7 PHYSICS_NDC
  else if n <=? 10 then len_8_to_10 PHYSICS_NDC
  else if n <=? 17 then len_11_to_17 PHYSICS_NDC
  else if n <=? 20 then len_18_to_20 PHYSICS_NDC
  else TARGET_MINUTES.

Lemma ndc_minutes_bounds n : TARGET_MINUTES <= ndc_minutes n <= 157788000.
Proof.
  unfold ndc_minutes. repeat case_match; vm_compute; split; discriminate.
Qed.

Lemma ndc_minutes_antitone n m : n <= m -> ndc_minutes m <= ndc_minutes n.
Proof.
  intros H. unfold ndc_minutes.
  repeat (case_match; zbool; try lia); vm_compute; discriminate.
Qed.

Lemma ndc_calc_exact minutes :
  0 <= minutes <= 157788000 ->
  ndc_calc BASE_ITERATIONS TARGET_MINUTES minutes
  = BASE_ITERATIONS * minutes / TARGET_MINUTES.
Proof.
  intros H. unfold ndc_calc.
  change BASE_ITERATIONS with 238819830. change TARGET_MINUTES with 30.
  rewrite wmul128_small by lia. apply as_u64_small.
  split; [apply Z.div_pos; lia|]. apply Z.div_lt_upper_bound; lia.
Qed.

Lemma label_iters_exact ph label :
  label_iters false ph label
  = BASE_ITERATIONS * ndc_minutes (len label) / TARGET_MINUTES.
Proof.
  unfold label_iters, ndc_minutes, anchor. cbv zeta.
  repeat case_match; try (apply ndc_calc_exact; vm_compute; split; discriminate).
  reflexivity.
Qed.

(** In a production build the curve is exact (no truncation of the 128-bit
    product or of the cast back to 64 bits), is never below the baseline, and
    never rises with the length of the label. *)
Theorem label_iters_curve ph label label' :
  (label_iters false ph label
     = BASE_ITERATIONS * ndc_minutes (len label) / TARGET_MINUTES /\
   BASE_ITERATIONS <= label_iters false ph label <= u64_max) /\
  (len label <= len label' -> label_iters false ph label' <= label_iters false ph label).
Proof.
  rewrite !label_iters_exact. split; [split; [done|]|].
  - pose proof (ndc_minutes_bounds (len label)) as Hb. revert Hb.
    generalize (ndc_minutes (len label)). intros m.
    change BASE_ITERATIONS with 238819830. change TARGET_MINUTES with 30.
    intros Hb. unfold u64_max. split; [apply Z.div_le_lower_bound; lia|].
    apply Z.lt_le_pred, Z.div_lt_upper_bound; lia.
  - intros H. apply ndc_minutes_antitone in H. apply Z.div_le_mono; [done|].
    apply Z.mul_le_mono_nonneg_l; [done|exact H].
Qed.

Lemma label_iters_curve_witness :
  label_iters false physics_default (bs "alexander") <= label_iters false physics_default (bs "al").
Proof. apply (label_iters_curve physics_default (bs "al") (bs "alexander")). vm_compute. discriminate. Defined.

(** ** Takeover decay *)

Definition takeover_multiplier (target idle : Z) : Z :=
  Z.max 1 (target ^ 2 / (idle + 1) ^ 2).

(** The configured targets for which no 128-bit product wraps. *)
Definition target_ok (target : Z) : Prop := 0 <= target < 2 ^ 32.

Lemma sq_quotient_small t i : 0 <= t -> t <= i -> 0 < i -> t ^ 2 / i ^ 2 <= 1.
Proof.
  intros. apply Z.div_le_upper_bound; [nia|]. nia.
Qed.

Lemma takeover_iterations_exact ph base idle :
  target_ok (ph_takeover_target_kyns ph) -> is_u64 base -> is_u64 idle ->
  takeover_iterations ph base idle
  = Z.min u64_max (base * takeover_multiplier (ph_takeover_target_kyns ph) idle).
Proof.
  unfold takeover_iterations, takeover_multiplier, target_ok.
  set (t := ph_takeover_target_kyns ph). intros Ht Hb Hi. unfold is_u64 in *. cbv zeta.
  rewrite !Z.gtb_ltb. destruct (sat_add idle 1 <? t) eqn:E; zbool.
  - assert (Es : sat_add idle 1 = idle + 1) by (unfold_u64; lia). rewrite Es in *.
    rewrite !(wmul128_small t), (wmul128_small (idle + 1)) by nia.
    rewrite !Z.pow_2_r. set (q := t * t / _).
    assert (Hq : 0 <= q < 2 ^ 64).
    { subst q. split; [apply Z.div_pos; nia|]. apply Z.div_lt_upper_bound; nia. }
    clearbody q. rewrite wmul128_u64 by (unfold is_u64; lia).
    destruct (u64_max <? base * Z.max 1 q) eqn:E2; zbool; [lia|].
    rewrite as_u64_small by (unfold u64_max in *; nia). lia.
  - rewrite wmul128_u64 by (unfold is_u64; lia).
    assert (t <= idle + 1) by (revert E; unfold_u64; lia).
    pose proof (sq_quotient_small t (idle + 1) ltac:(lia) ltac:(lia) ltac:(lia)).
    rewrite (Z.max_l 1 (_ / _)) by lia. rewrite Z.max_id.
    destruct (u64_max <? base * 1) eqn:E2; zbool; [unfold u64_max in *; lia|].
    rewrite as_u64_small by (unfold u64_max in *; lia). unfold u64_max in *. lia.
Qed.

Lemma takeover_multiplier_antitone t i j :
  0 <= t -> 0 <= i <= j -> takeover_multiplier t j <= takeover_multiplier t i.
Proof.
  intros Ht Hij. unfold takeover_multiplier. apply Z.max_le_compat_l.
  apply Z.div_le_compat_l; nia.
Qed.

(** The takeover effort is the inverse-square decay, capped at the largest
    [u64] and never wrapped; it never rises as the name stays idle, is never
    below the base effort, and falls to it exactly when twice the squared
    idle time exceeds the squared target. *)
Theorem takeover_decay ph base idle idle' :
  target_ok (ph_takeover_target_kyns ph) -> is_u64 base -> is_u64 idle -> is_u64 idle' ->
  1 <= base -> idle <= idle' ->
  takeover_iterations ph base idle
    = Z.min u64_max (base * takeover_multiplier (ph_takeover_target_kyns ph) idle) /\
  base <= takeover_iterations ph base idle' <= takeover_iterations ph base idle /\
  (base < u64_max ->
   takeover_iterations ph base idle = base <->
   ph_takeover_target_kyns ph ^ 2 < 2 * (idle + 1) ^ 2).
Proof.
  intros Ht Hb Hi Hi' H1 Hle. rewrite !takeover_iterations_exact by done.
  set (t := ph_takeover_target_kyns ph) in *. unfold target_ok, is_u64 in *.
  pose proof (takeover_multiplier_antitone t idle idle' ltac:(lia) ltac:(lia)) as Hm.
  assert (1 <= takeover_multiplier t idle') by (unfold takeover_multiplier; lia).
  split; [done|]. split.
  - unfold u64_max. split; [|apply Z.min_le_compat_l; nia]. apply Z.min_glb; nia.
  - intros Hlt.
    assert (Hq : t ^ 2 / (idle + 1) ^ 2 < 2 <-> t ^ 2 < 2 * (idle + 1) ^ 2).
    { split; intros Hx.
      - pose proof (Z.mul_succ_div_gt (t ^ 2) ((idle + 1) ^ 2) ltac:(nia)). nia.
      - apply Z.div_lt_upper_bound; nia. }
    rewrite <- Hq. unfold takeover_multiplier. split; nia.
Qed.

Lemma takeover_decay_witness :
  takeover_iterations physics_default 100 16724490 = 100 /\ 16724490 < TAKEOVER_TARGET_KYNS.
Proof.
  split; [|vm_compute; reflexivity].
  apply (takeover_decay physics_default 100 16724490 16724490);
    unfold target_ok, is_u64; vm_compute; intuition discriminate.
Defined.

(** The cap does not protect a target beyond [2^32]: the 128-bit product wraps
    before it is compared with the cap. *)
Example takeover_wraps_for_huge_target :
  takeover_iterations (MkNetworkPhysics (2 ^ 63)) (2 ^ 2) 0 = 0.
Proof. vm_compute. reflexivity. Qed.
