(* ===== verification/Net.v ===== *)
(** * Address filters

    [kinetic-core/src/net.rs], [kinetic-network/src/event_loop/utils.rs]
    ([is_routable_multiaddr]) and [kinetic-network/src/peer_registry.rs]
    ([is_public_addr]): the three tests that decide which addresses the node
    resolves to, dials and remembers, over the address classes of [std::net].
    A multiaddr is the list of its protocol components. *)
From Stdlib Require Import String.
From S2P Require Import Prelude Bytes.

(** ** [std::net] *)

(** [Ipv4Addr]: its four octets. *)
Record Ipv4Addr := V4 { o0 : Z; o1 : Z; o2 : Z; o3 : Z }.

(** [Ipv6Addr]: its eight 16-bit segments. *)
Record Ipv6Addr := V6 { g0 : Z; g1 : Z; g2 : Z; g3 : Z; g4 : Z; g5 : Z; g6 : Z; g7 : Z }.

Inductive IpAddr := IpV4 (ip : Ipv4Addr) | IpV6 (ip : Ipv6Addr).

#[export] Instance Ipv4Addr_eq_dec : EqDecision Ipv4Addr.
Proof. solve_decision. Defined.
#[export] Instance Ipv6Addr_eq_dec : EqDecision Ipv6Addr.
Proof. solve_decision. Defined.

Definition LOCALHOST4 : Ipv4Addr := V4 127 0 0 1.
Definition UNSPECIFIED6 : Ipv6Addr := V6 0 0 0 0 0 0 0 0.
Definition LOCALHOST6 : Ipv6Addr := V6 0 0 0 0 0 0 0 1.

Definition v4_is_loopback (ip : Ipv4Addr) : bool := o0 ip =? 127.
Definition v4_is_unspecified (ip : Ipv4Addr) : bool := bool_decide (ip = V4 0 0 0 0).
Definition v4_is_private (ip : Ipv4Addr) : bool :=
  (o0 ip =? 10) || ((o0 ip =? 172) && (16 <=? o1 ip) && (o1 ip <=? 31))
  || ((o0 ip =? 192) && (o1 ip =? 168)).
Definition v4_is_link_local (ip : Ipv4Addr) : bool := (o0 ip =? 169) && (o1 ip =? 254).
Definition v4_is_broadcast (ip : Ipv4Addr) : bool := bool_decide (ip = V4 255 255 255 255).
Definition v4_is_multicast (ip : Ipv4Addr) : bool := (224 <=? o0 ip) && (o0 ip <=? 239).
Definition v4_is_documentation (ip : Ipv4Addr) : bool :=
  ((o0 ip =? 192) && (o1 ip =? 0) && (o2 ip =? 2))
  || ((o0 ip =? 198) && (o1 ip =? 51) && (o2 ip =? 100))
  || ((o0 ip =? 203) && (o1 ip =? 0) && (o2 ip =? 113)).

Definition v6_is_loopback (ip : Ipv6Addr) : bool := bool_decide (ip = LOCALHOST6).
Definition v6_is_unspecified (ip : Ipv6Addr) : bool := bool_decide (ip = UNSPECIFIED6).
Definition v6_is_multicast (ip : Ipv6Addr) : bool := Z.land (g0 ip) 0xff00 =? 0xff00.

Definition to_ipv4_mapped (ip : Ipv6Addr) : option Ipv4Addr :=
  if (g0 ip =? 0) && (g1 ip =? 0) && (g2 ip =? 0) && (g3 ip =? 0) && (g4 ip =? 0)
     && (g5 ip =? 0xffff)
  then Some (V4 (g6 ip / 256) (g6 ip mod 256) (g7 ip / 256) (g7 ip mod 256))
  else None.

(** ** [str::parse::<IpAddr>], the recursive descent parser of [core::net]

    A reader takes the rest of the input and returns its value with what it
    left, or [None], after which the caller goes on from where it was. *)

Definition digit_of (radix c : Z) : option Z :=
  let d :=
    if is_ascii_digit c then c - 48
    else if is_ascii_lowercase c then c - 87
    else if is_ascii_uppercase c then c - 55
    else 36 in
  if d <? radix then Some d else None.

(** The longest run of digits: its value, how many, and the rest. *)
Fixpoint read_digits (radix acc : Z) (count : nat) (s : bytes) : Z * nat * bytes :=
  match s with
  | c :: rest =>
      match digit_of radix c with
      | Some d => read_digits radix (acc * radix + d) (S count) rest
      | None => (acc, count, s)
      end
  | [] => (acc, count, s)
  end.

(** [read_number(radix, Some(max_digits), allow_zero_prefix)] at a type with
    the upper bound [max]. *)
Definition read_number (radix max : Z) (max_digits : nat) (allow_zero_prefix : bool) (s : bytes)
  : option (Z * bytes) :=
  let '(v, count, rest) := read_digits radix 0 0 s in
  let has_leading_zero := starts_with [48] s in
  if (count =? 0)%nat || (max_digits <? count)%nat || (v >? max) then None
  else if negb allow_zero_prefix && has_leading_zero && (1 <? count)%nat then None
  else Some (v, rest).

Definition read_given_char (c : Z) (s : bytes) : option bytes :=
  match s with b :: rest => if b =? c then Some rest else None | [] => None end.

(** [read_separator(sep, index, inner)]: the separator except before the first. *)
Definition read_separator {A} (sep : Z) (index : nat) (inner : bytes -> option (A * bytes))
    (s : bytes) : option (A * bytes) :=
  match index with
  | O => inner s
  | S _ => rest ← read_given_char sep s; inner rest
  end.

Definition read_octet (index : nat) (s : bytes) : option (Z * bytes) :=
  read_separator DOT index (read_number 10 255 3 false) s.

Definition read_ipv4_addr (s : bytes) : option (Ipv4Addr * bytes) :=
  '(a, s) ← read_octet 0 s;
  '(b, s) ← read_octet 1 s;
  '(c, s) ← read_octet 2 s;
  '(d, s) ← read_octet 3 s;
  Some (V4 a b c d, s).

Definition COLON : Z := 58.

(** [read_groups] from slot [i] of [limit]: the groups read, whether an
    embedded IPv4 address ended them, and the rest. *)
Fixpoint read_groups (fuel i limit : nat) (s : bytes) : list Z * bool * bytes :=
  match fuel with
  | O => ([], false, s)
  | S fuel =>
      let ipv4 :=
        if (i <? limit - 1)%nat then read_separator COLON i read_ipv4_addr s else None in
      match ipv4 with
      | Some (v4, rest) => ([o0 v4 * 256 + o1 v4; o2 v4 * 256 + o3 v4], true, rest)
      | None =>
          match read_separator COLON i (read_number 16 65535 4 true) s with
          | Some (group, rest) =>
              let '(groups, v4, rest) := read_groups fuel (S i) limit rest in
              (group :: groups, v4, rest)
          | None => ([], false, s)
          end
      end
  end.

Definition v6_of_groups (l : list Z) : Ipv6Addr :=
  let g i := nth i l 0 in V6 (g 0%nat) (g 1%nat) (g 2%nat) (g 3%nat) (g 4%nat) (g 5%nat) (g 6%nat) (g 7%nat).

Definition read_ipv6_addr (s : bytes) : option (Ipv6Addr * bytes) :=
  let '(head, head_ipv4, s) := read_groups 8 0 8 s in
  if (length head =? 8)%nat then Some (v6_of_groups head, s)
  else if head_ipv4 then None
  else
    s ← read_given_char COLON s;
    s ← read_given_char COLON s;
    let limit := (8 - (length head + 1))%nat in
    let '(tail, _, s) := read_groups limit 0 limit s in
    Some (v6_of_groups (head ++ replicate (8 - length head - length tail) 0 ++ tail), s).

(** The whole input is to be consumed. *)
Definition parse_ip_addr (s : bytes) : option IpAddr :=
  let parsed :=
    match read_ipv4_addr s with
    | Some (ip, rest) => Some (IpV4 ip, rest)
    | None => '(ip, rest) ← read_ipv6_addr s; Some (IpV6 ip, rest)
    end in
  match parsed with Some (ip, []) => Some ip | _ => None end.

(** ** [net.rs] *)

(** The variants [validate_ssrf_safe] returns; the others of the enumeration
    are reported by the proxies. *)
Inductive SecurityError :=
  | Loopback | Private | Unspecified | CgNat | LocalNetworkRouting
  | Ipv6MappedExploit | Nat64 | Reserved.

#[export] Instance SecurityError_eq_dec : EqDecision SecurityError.
Proof. solve_decision. Defined.

Definition validate_ssrf_safe_v4 (v4 : Ipv4Addr) : Result SecurityError unit :=
  bail_if (v4_is_loopback v4) Loopback;;
  bail_if (v4_is_unspecified v4) Unspecified;;
  bail_if (v4_is_private v4) Private;;
  bail_if (v4_is_link_local v4 || v4_is_broadcast v4 || v4_is_multicast v4) LocalNetworkRouting;;
  bail_if (v4_is_documentation v4) Reserved;;
  bail_if (o0 v4 =? 0) Reserved;;
  bail_if ((o0 v4 =? 100) && (Z.land (o1 v4) 0xC0 =? 64)) CgNat.

Definition is_v6_link_local (v6 : Ipv6Addr) : bool := Z.land (g0 v6) 0xffc0 =? 0xfe80.
Definition is_v6_unique_local (v6 : Ipv6Addr) : bool := Z.land (g0 v6) 0xfe00 =? 0xfc00.

Definition validate_ssrf_safe_v6 (v6 : Ipv6Addr) : Result SecurityError unit :=
  bail_if (v6_is_loopback v6) Loopback;;
  bail_if (v6_is_unspecified v6) Unspecified;;
  bail_if (v6_is_multicast v6) LocalNetworkRouting;;
  bail_if (is_v6_link_local v6) LocalNetworkRouting;;
  bail_if (is_v6_unique_local v6) Private;;
  bail_if ((g0 v6 =? 0) && (g1 v6 =? 0) && (g2 v6 =? 0) && (g3 v6 =? 0) && (g4 v6 =? 0)
           && (g5 v6 =? 0)) Ipv6MappedExploit;;
  bail_if (match to_ipv4_mapped v6 with
           | Some v4_mapped => is_err (validate_ssrf_safe_v4 v4_mapped)
           | None => false
           end) Ipv6MappedExploit;;
  bail_if ((g0 v6 =? 0x0064) && (g1 v6 =? 0xff9b) && (g2 v6 =? 0) && (g3 v6 =? 0)
           && (g4 v6 =? 0) && (g5 v6 =? 0)) Nat64.

Definition validate_ssrf_safe (ip : IpAddr) : Result SecurityError unit :=
  match ip with
  | IpV4 v4 => validate_ssrf_safe_v4 v4
  | IpV6 v6 => validate_ssrf_safe_v6 v6
  end.

(** ** Multiaddrs *)

(** The components the two filters look at; the payload of the others plays no
    part. *)
Inductive Protocol :=
  | PIp4 (ip : Ipv4Addr)
  | PIp6 (ip : Ipv6Addr)
  | PMemory
  | PDns
  | PDns4
  | PDns6
  | POther.

Definition is_dns (p : Protocol) : bool :=
  match p with PDns | PDns4 | PDns6 => true | _ => false end.

Notation Multiaddr := (list Protocol).

(** The loop of [is_routable_multiaddr]. *)
Fixpoint routable_loop (allow_dns : bool) (addr : Multiaddr) : bool :=
  match addr with
  | [] => true
  | p :: rest =>
      match p with
      | PIp4 ip =>
          if v4_is_private ip || v4_is_loopback ip || v4_is_link_local ip || v4_is_unspecified ip
             || v4_is_broadcast ip || v4_is_documentation ip
          then false else routable_loop allow_dns rest
      | PIp6 ip =>
          if v6_is_loopback ip || v6_is_unspecified ip then false
          else if is_v6_unique_local ip then false
          else if is_v6_link_local ip then false
          else routable_loop allow_dns rest
      | PMemory => true
      | _ => if is_dns p && negb allow_dns then false else routable_loop allow_dns rest
      end
  end.

Definition is_routable_multiaddr (is_dev_mode : bool) (addr : Multiaddr)
    (disable_challenge allow_dns : bool) : bool :=
  if is_dev_mode || disable_challenge then true else routable_loop allow_dns addr.

(** The loop of [PeerRegistry::is_public_addr]. *)
Fixpoint public_loop (has_public : bool) (addr : Multiaddr) : bool :=
  match addr with
  | [] => has_public
  | PIp4 ip :: rest =>
      if v4_is_loopback ip || v4_is_unspecified ip || v4_is_broadcast ip then false
      else if (o0 ip =? 10) || ((o0 ip =? 172) && (o1 ip >=? 16) && (o1 ip <=? 31))
              || ((o0 ip =? 192) && (o1 ip =? 168)) then false
      else if (o0 ip =? 169) && (o1 ip =? 254) then false
      else if (o0 ip =? 100) && (Z.land (o1 ip) 192 =? 64) then false
      else if o0 ip >=? 224 then false
      else public_loop true rest
  | PIp6 ip :: rest =>
      if v6_is_loopback ip || v6_is_unspecified ip then false
      else if is_v6_unique_local ip then false
      else if is_v6_link_local ip then false
      else if v6_is_multicast ip then false
      else public_loop true rest
  | _ :: rest => public_loop has_public rest
  end.

Definition is_public_addr (addr : Multiaddr) : bool := public_loop false addr.

(** ** The filter against the registered address blocks *)

Definition v4_ok (ip : Ipv4Addr) : Prop :=
  is_byte (o0 ip) /\ is_byte (o1 ip) /\ is_byte (o2 ip) /\ is_byte (o3 ip).

Definition is_u16 (x : Z) : Prop := 0 <= x < 65536.

Definition v6_ok (ip : Ipv6Addr) : Prop :=
  is_u16 (g0 ip) /\ is_u16 (g1 ip) /\ is_u16 (g2 ip) /\ is_u16 (g3 ip) /\
  is_u16 (g4 ip) /\ is_u16 (g5 ip) /\ is_u16 (g6 ip) /\ is_u16 (g7 ip).

(** The address as a number. *)
Definition v4_num (ip : Ipv4Addr) : Z := o0 ip * 2 ^ 24 + o1 ip * 2 ^ 16 + o2 ip * 2 ^ 8 + o3 ip.

Definition v6_num (ip : Ipv6Addr) : Z :=
  g0 ip * 2 ^ 112 + g1 ip * 2 ^ 96 + g2 ip * 2 ^ 80 + g3 ip * 2 ^ 64
  + g4 ip * 2 ^ 48 + g5 ip * 2 ^ 32 + g6 ip * 2 ^ 16 + g7 ip.

(** [in_block w x (base, p)]: the [w]-bit address [x] lies in [base/p]. *)
Definition in_block (w x : Z) (block : Z * Z) : Prop :=
  block.1 <= x < block.1 + 2 ^ (w - block.2).

Definition blocked4 : list (Z * Z) :=
  [ (v4_num (V4 0 0 0 0), 8); (v4_num (V4 10 0 0 0), 8); (v4_num (V4 100 64 0 0), 10);
    (v4_num (V4 127 0 0 0), 8); (v4_num (V4 169 254 0 0), 16); (v4_num (V4 172 16 0 0), 12);
    (v4_num (V4 192 0 2 0), 24); (v4_num (V4 192 168 0 0), 16); (v4_num (V4 198 51 100 0), 24);
    (v4_num (V4 203 0 113 0), 24); (v4_num (V4 224 0 0 0), 4); (v4_num (V4 255 255 255 255), 32) ].

Definition blocked6 : list (Z * Z) :=
  [ (v6_num (V6 0 0 0 0 0 0 0 0), 96); (v6_num (V6 0x64 0xff9b 0 0 0 0 0 0), 96);
    (v6_num (V6 0xfc00 0 0 0 0 0 0 0), 7); (v6_num (V6 0xfe80 0 0 0 0 0 0 0), 10);
    (v6_num (V6 0xff00 0 0 0 0 0 0 0), 8) ].

Definition mapped_block : Z * Z := (v6_num (V6 0 0 0 0 0 0xffff 0 0), 96).

Definition outside (w x : Z) (blocks : list (Z * Z)) : Prop := Forall (fun b => ~ in_block w x b) blocks.

Definition ip_ok (ip : IpAddr) : Prop := match ip with IpV4 v4 => v4_ok v4 | IpV6 v6 => v6_ok v6 end.

Definition globally_routed (ip : IpAddr) : Prop :=
  match ip with
  | IpV4 v4 => outside 32 (v4_num v4) blocked4
  | IpV6 v6 =>
      outside 128 (v6_num v6) blocked6 /\
      (in_block 128 (v6_num v6) mapped_block -> outside 32 (v6_num v6 mod 2 ^ 32) blocked4)
  end.

Lemma cgnat_mask x : is_byte x -> (Z.land x 0xC0 =? 64) = ((64 <=? x) && (x <=? 127)).
Proof.
  intros H. apply eqb_prop.
  by apply (byte_forall (fun x => Bool.eqb (Z.land x 0xC0 =? 64) ((64 <=? x) && (x <=? 127))));
    [vm_compute|].
Qed.

(** [x & (2^16 - 2^k) == v] compares the high bits. *)
Lemma segment_mask x k v :
  is_u16 x -> 0 <= k <= 16 -> 0 <= v -> v mod 2 ^ k = 0 ->
  (Z.land x (2 ^ 16 - 2 ^ k) =? v) = ((v <=? x) && (x <? v + 2 ^ k)).
Proof.
  intros Hx Hk Hv Hm. assert (Hp : 0 < 2 ^ k) by (apply Z.pow_pos_nonneg; lia).
  assert (E : Z.land x (2 ^ 16 - 2 ^ k) = x / 2 ^ k * 2 ^ k).
  { replace (2 ^ 16 - 2 ^ k) with (Z.shiftl (Z.ones (16 - k)) k)
      by (rewrite Z.shiftl_mul_pow2, Z.ones_equiv by lia; unfold Z.pred;
          rewrite Z.mul_add_distr_r, <- Z.pow_add_r by lia;
          replace (16 - k + k) with 16 by lia; lia).
    apply Z.bits_inj'. intros n Hn.
    rewrite Z.land_spec, Z.shiftl_spec, <- Z.shiftr_div_pow2, <- Z.shiftl_mul_pow2, Z.shiftl_spec by lia.
    destruct (Z.lt_ge_cases n k) as [Hlt|Hge].
    { rewrite !(Z.testbit_neg_r _ (n - k)) by lia. by rewrite andb_false_r. }
    rewrite Z.shiftr_spec by lia. replace (n - k + k) with n by lia.
    destruct (Z.lt_ge_cases n 16) as [Hn16|Hn16].
    - by rewrite Z.ones_spec_low, andb_true_r by lia.
    - rewrite Z.ones_spec_high, andb_false_r by lia. symmetry.
      destruct (Z.eq_dec x 0) as [->|]; [apply Z.bits_0|].
      apply Z.bits_above_log2; [unfold is_u16 in Hx; lia|].
      apply Z.log2_lt_pow2; [unfold is_u16 in Hx; lia|].
      apply Z.lt_le_trans with (2 ^ 16); [exact (proj2 Hx)|]. apply Z.pow_le_mono_r; lia. }
  rewrite E. pose proof (Z.div_mod v (2 ^ k) ltac:(lia)) as Hd. rewrite Hm in Hd.
  set (q := v / 2 ^ k) in *. pose proof (Z.div_mod x (2 ^ k) ltac:(lia)) as Hdx.
  pose proof (Z.mod_pos_bound x (2 ^ k) Hp). set (qx := x / 2 ^ k) in *.
  destruct ((v <=? x) && (x <? v + 2 ^ k)) eqn:Eb.
  - zbool. apply Z.eqb_eq. assert (q = qx) by nia. nia.
  - apply Z.eqb_neq. intros Heq. apply andb_false_iff in Eb as [Eb|Eb]; zbool; nia.
Qed.

Lemma Forall_not_cons {A} (P : A -> Prop) x l :
  Forall (fun b => ~ P b) (x :: l) <-> ~ P x /\ Forall (fun b => ~ P b) l.
Proof. by rewrite Forall_cons. Qed.

(** The octets of the members of a block of prefix 8, 12, 10, 16, 24 and 32. *)
Section Blocks.
Variables (ip : Ipv4Addr) (Hok : v4_ok ip).

Ltac block :=
  destruct ip as [a b c d]; unfold v4_ok, is_byte in Hok; unfold in_block, v4_num;
  cbn [o0 o1 o2 o3 fst snd] in *;
  repeat match goal with |- context [2 ^ ?k] =>
    let v := eval vm_compute in (2 ^ k) in change (2 ^ k) with v end; lia.

Lemma block_8 x : in_block 32 (v4_num ip) (v4_num (V4 x 0 0 0), 8) <-> o0 ip = x.
Proof. block. Qed.

Lemma block_4 x : in_block 32 (v4_num ip) (v4_num (V4 x 0 0 0), 4) <-> x <= o0 ip < x + 16.
Proof. block. Qed.

Lemma block_mid x y p k :
  2 ^ (32 - p) = k * 2 ^ 16 -> 0 <= y -> y + k <= 256 ->
  in_block 32 (v4_num ip) (v4_num (V4 x y 0 0), p) <-> o0 ip = x /\ y <= o1 ip < y + k.
Proof.
  destruct ip as [a b c d]. unfold v4_ok, is_byte in Hok. unfold in_block, v4_num.
  cbn [o0 o1 o2 o3 fst snd] in *. intros -> Hy Hk.
  change (2 ^ 24) with 16777216. change (2 ^ 16) with 65536. change (2 ^ 8) with 256. lia.
Qed.

Lemma block_24 x y z :
  is_byte y -> is_byte z ->
  in_block 32 (v4_num ip) (v4_num (V4 x y z 0), 24) <-> o0 ip = x /\ o1 ip = y /\ o2 ip = z.
Proof. unfold is_byte. intros Hy Hz. block. Qed.

Lemma block_broadcast :
  in_block 32 (v4_num ip) (v4_num (V4 255 255 255 255), 32) <-> ip = V4 255 255 255 255.
Proof.
  transitivity (o0 ip = 255 /\ o1 ip = 255 /\ o2 ip = 255 /\ o3 ip = 255); [block|].
  destruct ip; cbn. naive_solver.
Qed.

Lemma not_eqb x y : (x =? y) = false <-> ~ x = y.
Proof. apply Z.eqb_neq. Qed.

Lemma not_range x a y lo hi :
  ((x =? a) && (lo <=? y) && (y <=? hi)) = false <-> ~ (x = a /\ lo <= y < hi + 1).
Proof. lia. Qed.

Lemma not_range_first x lo hi : ((lo <=? x) && (x <=? hi)) = false <-> ~ (lo <= x < hi + 1).
Proof. lia. Qed.

Lemma not_pair x a y b : ((x =? a) && (y =? b)) = false <-> ~ (x = a /\ b <= y < b + 1).
Proof. lia. Qed.

Lemma not_triple x a y b z c :
  ((x =? a) && (y =? b) && (z =? c)) = false <-> ~ (x = a /\ y = b /\ z = c).
Proof. lia. Qed.

Lemma ssrf_v4_iff : validate_ssrf_safe_v4 ip = Ok tt <-> outside 32 (v4_num ip) blocked4.
Proof.
  unfold outside, blocked4. rewrite !Forall_not_cons, !block_8, block_4, block_broadcast.
  rewrite (block_mid 100 64 10 64), (block_mid 169 254 16 1), (block_mid 172 16 12 16),
    (block_mid 192 168 16 1) by (reflexivity || lia).
  rewrite !block_24 by (unfold is_byte; lia).
  unfold validate_ssrf_safe_v4. rewrite !bail_if_ok, bail_if_unit, cgnat_mask, andb_assoc by apply Hok.
  unfold v4_is_unspecified, v4_is_broadcast, v4_is_loopback, v4_is_private, v4_is_link_local,
    v4_is_multicast, v4_is_documentation.
  rewrite !orb_false_iff, !not_triple, !not_range, !not_pair, not_range_first, !not_eqb,
    !bool_decide_eq_false, Forall_nil.
  assert (E0 : ~ o0 ip = 0 -> ip <> V4 0 0 0 0) by (by intros ? ->).
  change (31 + 1) with (16 + 16). change (127 + 1) with (64 + 64). change (239 + 1) with (224 + 16).
  tauto.
Qed.
End Blocks.

Section Blocks6.
Variables (ip : Ipv6Addr) (Hok : v6_ok ip).

(** The number as its upper six segments and its lower 32 bits. *)
Definition upper6 (ip : Ipv6Addr) : Z :=
  ((((g0 ip * 65536 + g1 ip) * 65536 + g2 ip) * 65536 + g3 ip) * 65536 + g4 ip) * 65536 + g5 ip.

Lemma digit a x b y :
  is_u16 x -> is_u16 y -> a * 65536 + x = b * 65536 + y <-> a = b /\ x = y.
Proof. unfold is_u16. lia. Qed.

Definition mapped_v4 (ip : Ipv6Addr) : Ipv4Addr :=
  V4 (g6 ip / 256) (g6 ip mod 256) (g7 ip / 256) (g7 ip mod 256).

Lemma mapped_v4_ok : v4_ok (mapped_v4 ip).
Proof.
  destruct Hok as (_ & _ & _ & _ & _ & _ & H6 & H7).
  unfold v4_ok, mapped_v4, is_byte, is_u16 in *. cbn [o0 o1 o2 o3]. repeat split; dlia.
Qed.

Lemma v6_num_split : v6_num ip = upper6 ip * 2 ^ 32 + v4_num (mapped_v4 ip).
Proof.
  unfold v6_num, upper6, v4_num, mapped_v4. cbn [o0 o1 o2 o3].
  pose proof (Z.div_mod (g6 ip) 256 ltac:(lia)). pose proof (Z.div_mod (g7 ip) 256 ltac:(lia)). lia.
Qed.

Lemma v4_num_bound x : v4_ok x -> 0 <= v4_num x < 2 ^ 32.
Proof. destruct x. unfold v4_ok, is_byte, v4_num. cbn [o0 o1 o2 o3]. lia. Qed.

Lemma v6_low : v6_num ip mod 2 ^ 32 = v4_num (mapped_v4 ip).
Proof.
  pose proof (v4_num_bound _ mapped_v4_ok). rewrite v6_num_split, Z.add_comm, Z.mod_add by lia.
  by apply Z.mod_small.
Qed.

Lemma block_96 a b c d e f :
  v6_ok (V6 a b c d e f 0 0) ->
  in_block 128 (v6_num ip) (v6_num (V6 a b c d e f 0 0), 96) <->
  g0 ip = a /\ g1 ip = b /\ g2 ip = c /\ g3 ip = d /\ g4 ip = e /\ g5 ip = f.
Proof.
  intros Hv. pose proof (v4_num_bound _ mapped_v4_ok) as Hb. unfold in_block. cbn [fst snd].
  rewrite v6_num_split.
  replace (v6_num (V6 a b c d e f 0 0)) with (upper6 (V6 a b c d e f 0 0) * 2 ^ 32)
    by (unfold v6_num, upper6; cbn [g0 g1 g2 g3 g4 g5 g6 g7]; lia).
  change (2 ^ (128 - 96)) with (2 ^ 32).
  transitivity (upper6 ip = upper6 (V6 a b c d e f 0 0)); [lia|].
  destruct Hok as (H0 & H1 & H2 & H3 & H4 & H5 & _), Hv as (J0 & J1 & J2 & J3 & J4 & J5 & _).
  unfold upper6. cbn [g0 g1 g2 g3 g4 g5] in *. rewrite !digit by done. tauto.
Qed.

(** A block of at most sixteen bits of prefix constrains the first segment. *)
Lemma block_first a p k :
  2 ^ (128 - p) = k * 2 ^ 112 -> 0 < k ->
  in_block 128 (v6_num ip) (v6_num (V6 a 0 0 0 0 0 0 0), p) <-> a <= g0 ip < a + k.
Proof.
  intros Hp Hk. unfold in_block. cbn [fst snd]. rewrite Hp.
  assert (E : exists low, v6_num ip = g0 ip * 2 ^ 112 + low /\ 0 <= low < 2 ^ 112).
  { eexists (_ - g0 ip * 2 ^ 112). split; [rewrite Z.add_comm; symmetry; apply Z.sub_add|].
    unfold v6_ok, is_u16 in Hok. unfold v6_num. lia. }
  destruct E as (low & -> & Hl). unfold v6_num. cbn [g0 g1 g2 g3 g4 g5 g6 g7].
  set (m := 2 ^ 112) in *. assert (0 < m) by (subst m; lia). nia.
Qed.

Lemma not_between x lo hi : ((lo <=? x) && (x <? hi)) = false <-> ~ (lo <= x < hi).
Proof. lia. Qed.

Lemma six_false a b c d e f a' b' c' d' e' f' :
  ((a =? a') && (b =? b') && (c =? c') && (d =? d') && (e =? e') && (f =? f')) = false <->
  ~ (a = a' /\ b = b' /\ c = c' /\ d = d' /\ e = e' /\ f = f').
Proof. rewrite <- not_true_iff_false, !andb_true_iff, !Z.eqb_eq. tauto. Qed.

Lemma to_ipv4_mapped_spec :
  to_ipv4_mapped ip =
    if decide (in_block 128 (v6_num ip) mapped_block) then Some (mapped_v4 ip) else None.
Proof.
  assert (E := block_96 0 0 0 0 0 0xffff). unfold mapped_block. unfold to_ipv4_mapped.
  destruct (_ && _) eqn:Eb; case_decide as Hd; try done; rewrite E in Hd by (unfold v6_ok, is_u16; cbn; lia).
  - zbool. tauto.
  - apply six_false in Eb. tauto.
Qed.

Lemma ssrf_v6_iff : validate_ssrf_safe_v6 ip = Ok tt <-> globally_routed (IpV6 ip).
Proof.
  cbn [globally_routed]. rewrite v6_low. unfold outside, blocked6.
  rewrite !Forall_not_cons, Forall_nil, !block_96 by (unfold v6_ok, is_u16; cbn; lia).
  rewrite (block_first 0xfc00 7 512), (block_first 0xfe80 10 64), (block_first 0xff00 8 256)
    by (reflexivity || lia).
  unfold validate_ssrf_safe_v6. rewrite !bail_if_ok, bail_if_unit, !six_false, to_ipv4_mapped_spec.
  unfold v6_is_multicast, is_v6_link_local, is_v6_unique_local, v6_is_loopback, v6_is_unspecified.
  assert (Hg : is_u16 (g0 ip)) by apply Hok.
  change 0xffc0 with (2 ^ 16 - 2 ^ 6). change 0xfe00 with (2 ^ 16 - 2 ^ 9).
  rewrite (segment_mask _ 6 0xfe80), (segment_mask _ 9 0xfc00) by (done || lia).
  change (Z.land (g0 ip) 0xff00) with (Z.land (g0 ip) (2 ^ 16 - 2 ^ 8)).
  rewrite (segment_mask _ 8 0xff00) by (done || lia).
  rewrite !not_between, !bool_decide_eq_false. change (2 ^ 6) with 64. change (2 ^ 8) with 256.
  change (2 ^ 9) with 512.
  assert (E0 : ip = LOCALHOST6 \/ ip = UNSPECIFIED6 ->
    g0 ip = 0 /\ g1 ip = 0 /\ g2 ip = 0 /\ g3 ip = 0 /\ g4 ip = 0 /\ g5 ip = 0)
    by (by intros [-> | ->]).
  case_decide as Hm; [rewrite <- (ssrf_v4_iff _ mapped_v4_ok), <- is_err_unit|]; tauto.
Qed.
End Blocks6.

(** The filter knows only these blocks: the reserved class E, the benchmarking
    range and the 6to4 embedding of a private address pass. *)
Example reserved_addresses_pass :
  validate_ssrf_safe (IpV4 (V4 240 0 0 1)) = Ok tt /\
  validate_ssrf_safe (IpV4 (V4 198 18 0 1)) = Ok tt /\
  validate_ssrf_safe (IpV6 (V6 0x2002 0x7f00 1 0 0 0 0 0)) = Ok tt.
Proof. done. Qed.

Example parsed_addresses :
  parse_ip_addr (bs "127.0.0.1") = Some (IpV4 LOCALHOST4) /\
  parse_ip_addr (bs "127.0.0.1.") = None /\ parse_ip_addr (bs "127.00.0.1") = None /\
  parse_ip_addr (bs "::1") = Some (IpV6 LOCALHOST6) /\
  parse_ip_addr (bs "::ffff:10.0.0.1") = Some (IpV6 (V6 0 0 0 0 0 0xffff 0x0a00 1)) /\
  parse_ip_addr (bs "fe80::1:2") = Some (IpV6 (V6 0xfe80 0 0 0 0 0 1 2)).
Proof. done. Qed.

(** The registry of public peers has no case for IPv4-mapped addresses. *)
Example mapped_loopback_is_public :
  is_public_addr [PIp6 (V6 0 0 0 0 0 0xffff 0x7f00 1); POther] = true /\
  is_routable_multiaddr false [PIp6 (V6 0 0 0 0 0 0xffff 0x7f00 1); POther] false false = true /\
  validate_ssrf_safe (IpV6 (V6 0 0 0 0 0 0xffff 0x7f00 1)) = Err Ipv6MappedExploit.
Proof. done. Qed.

(** C25: the SSRF filter is exactly a list of address blocks.  An IPv4 address
    passes when it lies outside the twelve blocks; an IPv6 address passes when
    it lies outside the five blocks and, if it is an IPv4-mapped address, the
    IPv4 address in its low 32 bits passes too. *)
Theorem validate_ssrf_safe_iff ip :
  ip_ok ip -> (validate_ssrf_safe ip = Ok tt <-> globally_routed ip).
Proof. destruct ip; [apply ssrf_v4_iff|apply ssrf_v6_iff]. Qed.

Lemma validate_ssrf_safe_iff_witness :
  validate_ssrf_safe (IpV6 (V6 0 0 0 0 0 0xffff 0x7f00 1)) <> Ok tt /\
  globally_routed (IpV4 (V4 1 1 1 1)).
Proof.
  split; [|by apply (validate_ssrf_safe_iff (IpV4 (V4 1 1 1 1)));
    [unfold ip_ok, v4_ok, is_byte; cbn; lia|reflexivity]].
  intros H. apply (validate_ssrf_safe_iff (IpV6 (V6 0 0 0 0 0 0xffff 0x7f00 1))) in H as [_ H];
    [|unfold ip_ok, v6_ok, is_u16; cbn; lia].
  specialize (H ltac:(split; vm_compute; done)).
  unfold outside, blocked4 in H. rewrite !Forall_cons in H.
  destruct H as (_ & _ & _ & H & _). apply H. split; vm_compute; done.
Defined.
