(* ===== verification/RsaVdf.v ===== *)
(** * The RSA verifiable delay function ([kinetic-vdf])

    [hash_to_prime.rs] and [lib.rs]: the Wesolowski prover with blockwise
    checkpointing (delay loop, base-[2^B] long division, simultaneous
    multi-exponentiation) and its verifier.  The primality test of
    [num_prime] is a parameter; the hash-to-prime search carries fuel. *)
From Stdlib Require Import Zpow_facts Zdiv String.
From S2P Require Import Prelude Bytes Crypto.

Inductive VdfError :=
  | LockFileError (msg : bytes)
  | LockAcquireError (msg : bytes)
  | DiscriminantError
  | ProofGenerationError
  | UnsupportedPlatform
  | InvalidProof
  | InvalidChallenge
  | MaxIterationsExceeded
  | TooManyTasks.

#[export] Instance VdfError_eq_dec : EqDecision VdfError.
Proof. solve_decision. Defined.

(** [num_prime::nt_funcs::is_prime(c, None).probably()] *)
Class NumPrime := is_prime_probably : Z -> bool.

(** [BigUint::to_bytes_be]: no leading zero byte, one byte for zero. *)
Definition biguint_to_bytes_be (x : Z) : bytes :=
  be_bytes (Z.to_nat (Z.log2 x / 8 + 1)) x.

(** [BigUint::modpow] *)
Definition modpow (a e n : Z) : Z := Zpow_mod a e n.

(** The largest memory a prover may use for checkpoints, and the smallest
    useful block. *)
Definition max_checkpoints : Z := 300000.
Definition test_block_size : Z := 1000.

Definition RSA_2048_MODULUS_DEC : Z := 25195908475657893494027183240048398571429282126204032027777137836043662020707595556264018525880784406918290641249515082189298559149176184502808489120072844992687392807287776735971418347270261896375014971824691165077613379859095700097330459748808428401797429100642458691817195118746121515172654632282216869987549182422433637259085141865462043576798423387184774447920739934236584823824281198163815010674810451660377306056201619676256133844143603833904414952634432190114657544454178424020924616515723350778707749817125772467962926386356373289912154831438167899885040445364023527381951378636564391212010397122822120720357.

Record RsaVdfEngine := MkRsaVdfEngine { vdf_n : Z }.

Definition rsa_new : RsaVdfEngine := {| vdf_n := RSA_2048_MODULUS_DEC |}.

Section Engine.
Context {HSha : Sha2} {HPrime : NumPrime}.

(** ** Fiat-Shamir *)

(** Force the lowest and the highest bit of the 32-byte digest. *)
Definition candidate_bytes (hash_result : bytes) : bytes :=
  alter (fun b => Z.lor b 128) 0%nat (alter (fun b => Z.lor b 1) 31%nat hash_result).

Fixpoint generate_prime_l_loop (fuel : nat) (x_bytes y_bytes : bytes) (counter : Z)
  : option Z :=
  match fuel with
  | O => None
  | S fuel' =>
      let hash_result := sha256_concat [x_bytes; y_bytes; u64_be counter] in
      let candidate := be_val (candidate_bytes hash_result) in
      if is_prime_probably candidate then Some candidate
      else generate_prime_l_loop fuel' x_bytes y_bytes (wadd64 counter 1)
  end.

Definition generate_prime_l (fuel : nat) (x y : Z) : option Z :=
  generate_prime_l_loop fuel (biguint_to_bytes_be x) (biguint_to_bytes_be y) 0.

(** ** The prover *)

Definition block_size (iterations : Z) : Z :=
  if iterations >? max_checkpoints * test_block_size then iterations / max_checkpoints
  else if iterations >? test_block_size then test_block_size
  else iterations.

(** The state [(y, checkpoints)] after the iterations [1..=i]. *)
Fixpoint delay_loop (n b needed y0 : Z) (i : nat) : Z * list Z :=
  match i with
  | O => (y0, [y0])
  | S j =>
      let '(y, checkpoints) := delay_loop n b needed y0 j in
      let y := (y * y) mod n in
      let i := Z.of_nat (S j) in
      if (i mod b =? 0) && (i / b <? needed) then (y, checkpoints ++ [y])
      else (y, checkpoints)
  end.

(** One digit of the long division: [(r, q_digits)] after a block of [bits]. *)
Definition division_step (l bits : Z) (st : Z * list Z) : Z * list Z :=
  let '(r, q_digits) := st in
  let dividend := Z.shiftl r bits in
  (dividend mod l, q_digits ++ [dividend / l]).

Definition long_division (l b k r_block : Z) : Z * list Z :=
  let first := if r_block >? 0 then division_step l r_block (1, []) else (1, []) in
  let '(r, q_digits) := Nat.iter (Z.to_nat k) (division_step l b) first in
  (r, reverse q_digits).

(** [batch_mult] after [i] in [0..k]. *)
Fixpoint batch_mult (n bit_idx : Z) (q_digits checkpoints : list Z) (k : nat) : Z :=
  match k with
  | O => 1
  | S i =>
      let acc := batch_mult n bit_idx q_digits checkpoints i in
      if Z.testbit (nth i q_digits 0) bit_idx
      then (acc * nth i checkpoints 0) mod n else acc
  end.

(** The loop over [(0..bits).rev()]. *)
Fixpoint multi_exp (n : Z) (q_digits checkpoints : list Z) (k bits : nat) (pi : Z) : Z :=
  match bits with
  | O => pi
  | S bit_idx =>
      let pi := (pi * pi) mod n in
      let pi := (pi * batch_mult n (Z.of_nat bit_idx) q_digits checkpoints k) mod n in
      multi_exp n q_digits checkpoints k bit_idx pi
  end.

(** [y] and [pi], each left-padded to 256 bytes. *)
Definition pad256 (v : bytes) : bytes := replicate (256 - length v) 0 ++ v.

Definition package (y pi : Z) : Result VdfError bytes :=
  let y_bytes := biguint_to_bytes_be y in
  let pi_bytes := biguint_to_bytes_be pi in
  if (len y_bytes >? 256) || (len pi_bytes >? 256) then Err ProofGenerationError
  else Ok (pad256 y_bytes ++ pad256 pi_bytes).

Definition prove_pi (n l b k r_block : Z) (checkpoints : list Z) : Z :=
  let '(_, q_digits) := long_division l b k r_block in
  let pi := multi_exp n q_digits checkpoints (Z.to_nat k) (Z.to_nat b) 1 in
  if r_block >? 0 then
    let pi_rem := modpow (nth (Z.to_nat k) checkpoints 0) (nth (Z.to_nat k) q_digits 0) n in
    (pi * pi_rem) mod n
  else pi.

(** [None] means that the hash-to-prime search ran out of fuel. *)
Definition evaluate (fuel : nat) (self : RsaVdfEngine) (challenge : bytes) (iterations : Z)
  : option (Result VdfError bytes) :=
  let x := be_val challenge in
  let n := vdf_n self in
  if iterations =? 0 then Some (Err InvalidChallenge)
  else if x =? 0 then Some (Err InvalidChallenge)
  else
    let y := x mod n in
    let b := block_size iterations in
    let k := iterations / b in
    let r_block := iterations mod b in
    let needed := if r_block >? 0 then k + 1 else k in
    let '(y, checkpoints) := delay_loop n b needed y (Z.to_nat iterations) in
    l ← generate_prime_l fuel x y;
    Some (package y (prove_pi n l b k r_block checkpoints)).

(** ** The verifier *)

Definition verify (fuel : nat) (self : RsaVdfEngine) (challenge proof_bytes : bytes)
    (iterations : Z) : option (Result VdfError bool) :=
  if negb (len proof_bytes =? 512) then Some (Err InvalidProof)
  else if iterations =? 0 then Some (Err InvalidProof)
  else
    let x := be_val challenge in
    let n := vdf_n self in
    let y := be_val (take 256 proof_bytes) in
    let pi := be_val (drop 256 proof_bytes) in
    l ← generate_prime_l fuel x y;
    let r := modpow 2 iterations l in
    let pi_l := modpow pi l n in
    let x_r := modpow x r n in
    let lhs := (pi_l * x_r) mod n in
    Some (Ok (lhs =? y)).

End Engine.

(** ** Residues modulo [n] *)

(** Congruence, as a structure so that rewriting sees a relation of its own. *)
Record cong (n a b : Z) : Prop := Cong { cong_mod : a mod n = b mod n }.

#[export] Instance cong_Equivalence n : Equivalence (cong n).
Proof.
  split.
  - intros a. by split.
  - intros a b [E]. by split.
  - intros a b c [E] [F]. split. congruence.
Qed.

#[export] Instance Zmul_cong_Proper n : Proper (cong n ==> cong n ==> cong n) Z.mul.
Proof. intros a b [E] c d [F]. split. by apply Zmult_eqm. Qed.

#[export] Instance Zopp_cong_Proper n : Proper (cong n ==> cong n) Z.opp.
Proof. intros a b [E]. split. by apply Zopp_eqm. Qed.

#[export] Instance Zpow_cong_Proper n : Proper (cong n ==> eq ==> cong n) Z.pow.
Proof.
  intros a b E ? e ->. destruct (Z.lt_ge_cases e 0) as [He|He].
  - by rewrite !Z.pow_neg_r.
  - revert e He. apply natlike_ind; [done|]. intros e He IH.
    rewrite !Z.pow_succ_r by done. rewrite IH. by apply Zmul_cong_Proper.
Qed.

Lemma cong_mod_l n a : cong n (a mod n) a.
Proof. split. apply Zmod_eqm. Qed.

Lemma modpow_cong n a e : n <> 0 -> cong n (modpow a e n) (a ^ e).
Proof. intros Hn. unfold modpow. rewrite Zpow_mod_correct by done. apply cong_mod_l. Qed.

(** Products and sums over an index range. *)
Fixpoint prodz (f : nat -> Z) (k : nat) : Z :=
  match k with O => 1 | S i => prodz f i * f i end.
Fixpoint sumz (f : nat -> Z) (k : nat) : Z :=
  match k with O => 0 | S i => sumz f i + f i end.

Lemma prodz_mul f g k : prodz f k * prodz g k = prodz (fun i => f i * g i) k.
Proof. induction k as [|k IH]; cbn; [done|]. rewrite <- IH. ring. Qed.

Lemma prodz_pow f e k : 0 <= e -> prodz f k ^ e = prodz (fun i => f i ^ e) k.
Proof.
  intros He. induction k as [|k IH]; cbn; [by apply Z.pow_1_l|].
  rewrite Z.pow_mul_l, IH. done.
Qed.

Lemma prodz_cong n f g k :
  (forall i, (i < k)%nat -> cong n (f i) (g i)) -> cong n (prodz f k) (prodz g k).
Proof.
  induction k as [|k IH]; intros H; cbn; [done|].
  rewrite IH by (intros; apply H; lia). rewrite (H k) by lia. done.
Qed.

Lemma sumz_nonneg f k : (forall i, (i < k)%nat -> 0 <= f i) -> 0 <= sumz f k.
Proof.
  induction k as [|k IH]; intros H; cbn; [done|].
  pose proof (H k ltac:(lia)). pose proof (IH ltac:(auto with lia)). lia.
Qed.

Lemma prodz_pow_sumz x f k :
  (forall i, (i < k)%nat -> 0 <= f i) -> prodz (fun i => x ^ f i) k = x ^ sumz f k.
Proof.
  induction k as [|k IH]; intros H; cbn; [done|].
  rewrite IH, Z.pow_add_r by (auto using sumz_nonneg with lia). done.
Qed.

(** ** The delay loop *)

Section Proofs.
Variables (n x b needed : Z).
Hypotheses (Hn : 0 < n) (Hb : 0 < b) (Hneeded : 1 <= needed).

(** The [i]-th value of the squaring chain. *)
Definition chain (i : Z) : Z := x ^ (2 ^ i).

Definition chain_value (i v : Z) : Prop := cong n v (chain i) /\ 0 <= v < n.

Definition checkpoints_ok (i : Z) (cps : list Z) : Prop :=
  len cps = Z.min needed (i / b + 1) /\
  forall j, (j < length cps)%nat -> cong n (nth j cps 0) (chain (Z.of_nat j * b)).

Lemma chain_square i : 0 <= i -> chain i * chain i = chain (i + 1).
Proof.
  intros Hi. unfold chain. rewrite <- Z.pow_add_r by (apply Z.pow_nonneg; lia).
  f_equal. rewrite Z.pow_add_r by lia. lia.
Qed.

Lemma chain_pow i j : 0 <= i -> 0 <= j -> chain i ^ 2 ^ j = chain (i + j).
Proof.
  intros. unfold chain. rewrite <- Z.pow_mul_r by (apply Z.pow_nonneg; lia).
  by rewrite <- Z.pow_add_r.
Qed.

Lemma checkpoints_app i cps v :
  0 <= i -> checkpoints_ok i cps -> (i + 1) mod b = 0 -> (i + 1) / b < needed ->
  cong n v (chain (i + 1)) -> checkpoints_ok (i + 1) (cps ++ [v]).
Proof.
  intros Hi [Hl Hc] Hm Hlt Hv.
  assert (Ei : (i + 1) / b = i / b + 1).
  { assert (E1 : i = b * ((i + 1) / b - 1) + (b - 1))
      by (pose proof (Z.div_mod (i + 1) b ltac:(lia)); lia).
    rewrite E1 at 2. rewrite Z.mul_comm, Z.div_add_l, (Z.div_small (b - 1)); lia. }
  assert (Hlc : len cps = (i + 1) / b) by lia.
  split; [rewrite len_app, len_cons, len_nil; lia|].
  intros j Hj. rewrite length_app in Hj. cbn in Hj.
  destruct (decide (j < length cps)%nat).
  - rewrite app_nth1 by done. auto.
  - assert (j = length cps) as -> by lia. rewrite nth_middle, Hv.
    unfold len in Hlc. rewrite Hlc.
    replace ((i + 1) / b * b) with (i + 1) by (pose proof (Z.div_mod (i + 1) b ltac:(lia)); lia).
    done.
Qed.

Lemma checkpoints_skip i cps :
  0 <= i -> checkpoints_ok i cps ->
  (i + 1) mod b <> 0 \/ needed <= (i + 1) / b -> checkpoints_ok (i + 1) cps.
Proof.
  intros Hi [Hl Hc] Hor. split; [|done]. rewrite Hl.
  assert (Hle : i / b <= (i + 1) / b) by (apply Z.div_le_mono; lia).
  assert (Hstep : (i + 1) / b <= i / b + 1).
  { replace (i / b + 1) with ((i + 1 * b) / b) by (apply Z.div_add; lia).
    apply Z.div_le_mono; lia. }
  destruct (decide ((i + 1) / b = i / b)) as [->|Hne]; [done|].
  assert (E : (i + 1) / b = i / b + 1) by lia.
  destruct Hor as [Hm|Hge]; [|lia]. exfalso. apply Hm.
  pose proof (Z.mod_pos_bound (i + 1) b Hb). pose proof (Z.mod_pos_bound i b Hb).
  pose proof (Z.div_mod (i + 1) b ltac:(lia)). pose proof (Z.div_mod i b ltac:(lia)). nia.
Qed.

Lemma delay_loop_ok y0 i :
  chain_value 0 y0 ->
  let '(y, cps) := delay_loop n b needed y0 i in
  chain_value (Z.of_nat i) y /\ checkpoints_ok (Z.of_nat i) cps.
Proof.
  intros H0. induction i as [|i IH]; cbn [delay_loop].
  - split; [done|]. split.
    + rewrite Z.div_0_l, len_cons, len_nil by lia. lia.
    + intros [|j] Hj; [|cbn in Hj; lia]. cbn. apply H0.
  - destruct (delay_loop n b needed y0 i) as [y cps]. destruct IH as [[Hy _] Hc].
    rewrite Nat2Z.inj_succ, <- Z.add_1_r.
    assert (Hv : chain_value (Z.of_nat i + 1) ((y * y) mod n)).
    { split; [|by apply Z.mod_pos_bound].
      rewrite cong_mod_l, Hy, chain_square by lia. done. }
    destruct (_ && _) eqn:E.
    + zbool. split; [done|]. apply checkpoints_app; auto with lia. apply Hv.
    + split; [done|]. apply checkpoints_skip; [lia|done|].
      apply andb_false_iff in E as [E|E]; zbool; auto.
Qed.

End Proofs.

(** ** The long division *)

Lemma sumz_shift f k : sumz f (S k) = f 0%nat + sumz (fun i => f (S i)) k.
Proof. induction k as [|k IH]; cbn [sumz] in *; [lia|]. rewrite IH. lia. Qed.

Lemma sumz_scale c f k : sumz (fun i => c * f i) k = c * sumz f k.
Proof. induction k as [|k IH]; cbn [sumz]; [lia|]. rewrite IH. lia. Qed.

Lemma sumz_ext f g k : (forall i, (i < k)%nat -> f i = g i) -> sumz f k = sumz g k.
Proof.
  induction k as [|k IH]; intros H; cbn [sumz]; [done|].
  rewrite IH by auto with lia. rewrite (H k) by lia. done.
Qed.

(** The value of the digits, least significant first, in base [2^b]. *)
Definition digit_term (b : Z) (ds : list Z) (i : nat) : Z :=
  nth i ds 0 * 2 ^ (b * Z.of_nat i).
Definition digits_value (b : Z) (ds : list Z) : Z := sumz (digit_term b ds) (length ds).

Lemma digits_value_cons b d ds :
  0 < b -> digits_value b (d :: ds) = d + 2 ^ b * digits_value b ds.
Proof.
  intros Hb. unfold digits_value. cbn [length]. rewrite sumz_shift, <- sumz_scale.
  f_equal; [unfold digit_term; cbn [nth]; rewrite Z.mul_0_r; lia|].
  apply sumz_ext. intros i _. unfold digit_term. cbn [nth].
  rewrite Nat2Z.inj_succ, Z.mul_succ_r, Z.pow_add_r by lia. lia.
Qed.

Section Division.
Variables (l b : Z).
Hypotheses (Hl : 2 <= l) (Hb : 0 < b).

Definition digit_ok (d : Z) : Prop := 0 <= d < 2 ^ b.

(** After [e] bits of [2^T] have been consumed. *)
Definition division_inv (e : Z) (st : Z * list Z) : Prop :=
  digits_value b (reverse st.2) * l + st.1 = 2 ^ e /\ 0 <= st.1 < l /\
  Forall digit_ok st.2.

Lemma quotient_digit r bits :
  0 <= r < l -> 0 <= bits <= b -> digit_ok (Z.shiftl r bits / l).
Proof.
  intros Hr Hbits. rewrite Z.shiftl_mul_pow2 by lia. unfold digit_ok.
  pose proof (Z.pow_pos_nonneg 2 bits). pose proof (Z.pow_le_mono_r 2 bits b).
  split; [apply Z.div_pos; nia|]. apply Z.div_lt_upper_bound; nia.
Qed.

Lemma division_first r_block :
  0 < r_block <= b -> division_inv r_block (division_step l r_block (1, [])).
Proof.
  intros Hr. unfold division_inv, division_step. cbn [fst snd app].
  split; [|split].
  - rewrite reverse_singleton, digits_value_cons by done.
    change (digits_value b []) with 0. rewrite Z.shiftl_mul_pow2 by lia.
    pose proof (Z.div_mod (1 * 2 ^ r_block) l ltac:(lia)). lia.
  - apply Z.mod_pos_bound. lia.
  - repeat constructor; apply quotient_digit; lia.
Qed.

Lemma division_next e st :
  0 <= e -> division_inv e st -> division_inv (e + b) (division_step l b st).
Proof.
  destruct st as [r ds]. intros He (Hv & Hr & Hd). unfold division_inv, division_step in *.
  cbn [fst snd] in *. split; [|split].
  - rewrite reverse_snoc, digits_value_cons by done.
    rewrite Z.pow_add_r, <- Hv by lia. rewrite Z.shiftl_mul_pow2 by lia.
    pose proof (Z.div_mod (r * 2 ^ b) l ltac:(lia)). nia.
  - apply Z.mod_pos_bound. lia.
  - apply Forall_app. split; [done|]. repeat constructor; apply quotient_digit; lia.
Qed.

Lemma division_iter e st k :
  0 <= e -> division_inv e st ->
  division_inv (e + Z.of_nat k * b) (Nat.iter k (division_step l b) st) /\
  length (Nat.iter k (division_step l b) st).2 = (k + length st.2)%nat.
Proof.
  intros He Hst. induction k as [|k [IH IHl]]; cbn [Nat.iter nat_rect].
  - replace (e + Z.of_nat 0 * b) with e by lia. done.
  - split.
    + replace (e + Z.of_nat (S k) * b) with (e + Z.of_nat k * b + b) by lia.
      apply division_next; [lia|done].
    + change (Nat.iter k _ st) with (nat_rect (fun _ => (Z * list Z)%type) st (fun _ => division_step l b) k) in *.
      destruct (nat_rect _ _ _ k) as [r ds]. cbn in *. rewrite length_app, IHl. cbn. lia.
Qed.

Lemma long_division_ok k r_block :
  0 <= k -> 0 <= r_block <= b ->
  let '(r, ds) := long_division l b k r_block in
  digits_value b ds * l + r = 2 ^ (r_block + k * b) /\ 0 <= r < l /\
  Forall digit_ok ds /\
  length ds = (Z.to_nat k + (if decide (0 < r_block)%Z then 1 else 0))%nat.
Proof.
  intros Hk Hr. unfold long_division. rewrite Z.gtb_ltb.
  set (first := if 0 <? r_block then _ else _).
  assert (Hf : division_inv r_block first /\
    length first.2 = if decide (0 < r_block) then 1%nat else 0%nat).
  { subst first. destruct (0 <? r_block) eqn:E; zbool; case_decide; try lia.
    - split; [apply division_first; lia|done].
    - assert (r_block = 0) as -> by lia.
      split; [|done]. split; [cbn; lia|]. cbn. split; [lia|constructor]. }
  destruct Hf as [Hf Hfl].
  destruct (division_iter r_block first (Z.to_nat k) ltac:(lia) Hf) as [(Hv & Hrr & Hd) Hlen].
  destruct (Nat.iter _ _ first) as [r ds]. cbn [fst snd] in *.
  rewrite Z2Nat.id in Hv by done. rewrite length_reverse, Hlen, Hfl.
  split; [done|]. split; [done|]. split; [by apply Forall_reverse|done].
Qed.

End Division.

(** ** The multi-exponentiation *)

Section MultiExp.
Variables (n : Z) (ds cps : list Z).
Hypothesis Hn : 0 < n.

Definition bit_of (d bit : Z) : Z := Z.b2z (Z.testbit d bit).

Lemma bit_of_nonneg d m : 0 <= bit_of d m.
Proof. unfold bit_of. by destruct (Z.testbit d m). Qed.

Lemma mod_pow2_nonneg d m : 0 <= m -> 0 <= d mod 2 ^ m.
Proof. intros Hm. apply Z.mod_pos_bound, Z.pow_pos_nonneg; lia. Qed.

Lemma batch_mult_ok bit k :
  cong n (batch_mult n bit ds cps k)
    (prodz (fun i => nth i cps 0 ^ bit_of (nth i ds 0) bit) k).
Proof.
  induction k as [|k IH]; cbn [batch_mult prodz]; [done|].
  unfold bit_of at 2. destruct (Z.testbit _ _); cbn [Z.b2z].
  - rewrite cong_mod_l, IH, Z.pow_1_r. done.
  - rewrite Z.pow_0_r, Z.mul_1_r. done.
Qed.

Lemma low_bits_succ d m :
  0 <= m -> d mod 2 ^ (m + 1) = bit_of d m * 2 ^ m + d mod 2 ^ m.
Proof.
  intros Hm. unfold bit_of. rewrite Z.pow_add_r, Z.pow_1_r by lia.
  rewrite Z.rem_mul_r by (pose proof (Z.pow_pos_nonneg 2 m); lia).
  rewrite Z.testbit_spec' by done. lia.
Qed.

Lemma multi_exp_ok k bits pi :
  cong n (multi_exp n ds cps k bits pi)
    (pi ^ (2 ^ Z.of_nat bits) *
     prodz (fun i => nth i cps 0 ^ (nth i ds 0 mod 2 ^ Z.of_nat bits)) k).
Proof.
  revert pi. induction bits as [|m IH]; intros pi; cbn [multi_exp].
  - rewrite Z.pow_0_r, Z.pow_1_r.
    replace (prodz _ k) with 1; [by rewrite Z.mul_1_r|].
    clear. induction k as [|k IH]; cbn [prodz]; [done|]. by rewrite <- IH, Z.mod_1_r.
  - rewrite IH, cong_mod_l, cong_mod_l, batch_mult_ok.
    rewrite Nat2Z.inj_succ, <- Z.add_1_r.
    assert (Hp : 0 <= 2 ^ Z.of_nat m) by (apply Z.pow_nonneg; lia).
    rewrite Z.pow_mul_l, prodz_pow, <- Z.mul_assoc, prodz_mul by done.
    rewrite <- Z.pow_2_r, <- Z.pow_mul_r by lia.
    replace (2 * 2 ^ Z.of_nat m) with (2 ^ (Z.of_nat m + 1))
      by (rewrite Z.pow_add_r by lia; lia).
    apply Zmul_cong_Proper; [done|]. apply prodz_cong. intros i _.
    pose proof (bit_of_nonneg (nth i ds 0) (Z.of_nat m)).
    rewrite low_bits_succ, Z.pow_add_r, Z.pow_mul_r by
      (auto using Z.mul_nonneg_nonneg, mod_pow2_nonneg with lia). done.
Qed.

End MultiExp.

Lemma multi_exp_range n ds cps k bits pi :
  0 < n -> 0 <= pi < n \/ (0 < bits)%nat -> 0 <= multi_exp n ds cps k bits pi < n.
Proof.
  intros Hn. revert pi. induction bits as [|m IH]; intros pi H; cbn [multi_exp].
  - destruct H; [done|lia].
  - apply IH. left. by apply Z.mod_pos_bound.
Qed.

(** ** The prover computes the quotient power *)

Section Prover.
Variables (n x b l k r_block : Z) (cps : list Z).
Hypotheses (Hn : 0 < n) (Hb : 0 < b) (Hl : 2 <= l) (Hk : 0 <= k)
  (Hr : 0 <= r_block < b).
Hypothesis Hlen : len cps = if r_block >? 0 then k + 1 else k.
Hypothesis Hcps :
  forall j, (j < length cps)%nat -> cong n (nth j cps 0) (chain x (Z.of_nat j * b)).

Lemma checkpoint_power i d :
  (i < length cps)%nat -> 0 <= d ->
  cong n (nth i cps 0 ^ d) (x ^ (d * 2 ^ (b * Z.of_nat i))).
Proof.
  intros Hi Hd. rewrite Hcps by done. unfold chain.
  rewrite <- Z.pow_mul_r by (try apply Z.pow_nonneg; lia).
  rewrite (Z.mul_comm b), (Z.mul_comm d). done.
Qed.

Lemma batch_power ds :
  Forall (digit_ok b) ds -> (Z.to_nat k <= length ds)%nat ->
  cong n (multi_exp n ds cps (Z.to_nat k) (Z.to_nat b) 1)
    (x ^ sumz (digit_term b ds) (Z.to_nat k)).
Proof.
  intros Hd Hle. rewrite multi_exp_ok by done.
  rewrite Z.pow_1_l, Z.mul_1_l by (apply Z.pow_nonneg; lia).
  rewrite Z2Nat.id by lia.
  assert (Hlen' : (Z.to_nat k <= length cps)%nat).
  { revert Hlen. unfold len. rewrite Z.gtb_ltb. destruct (0 <? r_block); lia. }
  assert (Hnth : forall i, (i < Z.to_nat k)%nat -> digit_ok b (nth i ds 0)).
  { intros i Hi. apply List.Forall_nth; [done|lia]. }
  rewrite <- prodz_pow_sumz.
  - apply prodz_cong. intros i Hi. pose proof (Hnth i Hi) as Hdi. unfold digit_ok in Hdi.
    rewrite Z.mod_small by done. apply checkpoint_power; lia.
  - intros i Hi. pose proof (Hnth i Hi) as Hdi. unfold digit_ok in Hdi.
    unfold digit_term. apply Z.mul_nonneg_nonneg; [lia|]. apply Z.pow_nonneg. lia.
Qed.

Lemma prove_pi_ok :
  cong n (prove_pi n l b k r_block cps) (x ^ (2 ^ (r_block + k * b) / l)) /\
  0 <= prove_pi n l b k r_block cps < n.
Proof.
  unfold prove_pi. pose proof (long_division_ok l b Hl Hb k r_block Hk ltac:(lia)) as H.
  destruct (long_division l b k r_block) as [r ds]. destruct H as (Hv & Hrl & Hd & Hdl).
  assert (Hq : 2 ^ (r_block + k * b) / l = digits_value b ds).
  { symmetry. apply (Z.div_unique _ _ _ r); lia. }
  rewrite Hq. pose proof (batch_power ds Hd ltac:(lia)) as Hbatch.
  rewrite Z.gtb_ltb. rewrite Z.gtb_ltb in Hlen. unfold digits_value. rewrite Hdl.
  destruct (0 <? r_block) eqn:E; zbool; case_decide; try lia.
  - split; [|by apply Z.mod_pos_bound].
    assert (Hlast : digit_ok b (nth (Z.to_nat k) ds 0)).
    { apply List.Forall_nth; [done|lia]. }
    unfold digit_ok in Hlast.
    rewrite cong_mod_l, modpow_cong, Hbatch, checkpoint_power by (unfold len in *; lia).
    rewrite Nat.add_1_r. cbn [sumz].
    rewrite Z.pow_add_r; [done| |].
    + apply sumz_nonneg. intros i Hi. unfold digit_term.
      apply Z.mul_nonneg_nonneg; [|apply Z.pow_nonneg; lia].
      apply List.Forall_nth with (d := 0) (i := i) in Hd; [apply Hd|lia].
    + apply Z.mul_nonneg_nonneg; [lia|]. apply Z.pow_nonneg. lia.
  - rewrite Nat.add_0_r. split; [done|]. apply multi_exp_range; [done|]. right. lia.
Qed.

End Prover.

(** ** Packaging *)

Lemma biguint_be_val x : 0 <= x -> be_val (biguint_to_bytes_be x) = x.
Proof.
  intros Hx. unfold biguint_to_bytes_be. rewrite be_val_be_bytes.
  pose proof (Z.log2_nonneg x). pose proof (Z.div_pos (Z.log2 x) 8 ltac:(lia) ltac:(lia)).
  rewrite Z2Nat.id by lia. apply Z.mod_small. split; [done|].
  change 256 with (2 ^ 8). rewrite <- Z.pow_mul_r by lia.
  destruct (decide (x = 0)) as [->|]; [reflexivity|].
  eapply Z.lt_le_trans; [apply Z.log2_spec; lia|]. apply Z.pow_le_mono_r; dlia.
Qed.

Lemma biguint_len x m : 0 <= x < 256 ^ m -> 0 < m -> len (biguint_to_bytes_be x) <= m.
Proof.
  intros Hx Hm. unfold biguint_to_bytes_be, len. rewrite length_be_bytes.
  destruct (decide (x = 0)) as [->|]; [change (1 <= m); lia|].
  assert (Hlog : Z.log2 x < 8 * m).
  { apply Z.log2_lt_pow2; [lia|]. rewrite Z.pow_mul_r by lia. change (2 ^ 8) with 256. lia. }
  pose proof (Z.log2_nonneg x).
  pose proof (Z.div_pos (Z.log2 x) 8 ltac:(lia) ltac:(lia)).
  rewrite Z2Nat.id by lia. clear Hx. dlia.
Qed.

Lemma be_val_replicate_0 m v : be_val (replicate m 0 ++ v) = be_val v.
Proof. induction m as [|m IH]; cbn; [done|]. done. Qed.

Lemma length_pad256 v : len v <= 256 -> length (pad256 v) = 256%nat.
Proof. unfold len, pad256. intros H. rewrite length_app, length_replicate. lia. Qed.

Definition encode_proof (y pi : Z) : bytes :=
  pad256 (biguint_to_bytes_be y) ++ pad256 (biguint_to_bytes_be pi).

Section Encoding.
Variables (y pi : Z).
Hypotheses (Hy : 0 <= y < 256 ^ 256) (Hpi : 0 <= pi < 256 ^ 256).

Lemma encode_proof_length : length (encode_proof y pi) = 512%nat.
Proof.
  unfold encode_proof. rewrite length_app, !length_pad256; [done|..]; by apply biguint_len.
Qed.

Lemma encode_proof_y : be_val (take 256 (encode_proof y pi)) = y.
Proof.
  unfold encode_proof. rewrite take_app_length' by (symmetry; apply length_pad256; by apply biguint_len).
  unfold pad256. rewrite be_val_replicate_0. apply biguint_be_val. lia.
Qed.

Lemma encode_proof_pi : be_val (drop 256 (encode_proof y pi)) = pi.
Proof.
  unfold encode_proof. rewrite drop_app_length' by (symmetry; apply length_pad256; by apply biguint_len).
  unfold pad256. rewrite be_val_replicate_0. apply biguint_be_val. lia.
Qed.

Lemma package_ok : package y pi = Ok (encode_proof y pi).
Proof.
  unfold package. pose proof (biguint_len y 256 Hy ltac:(lia)).
  pose proof (biguint_len pi 256 Hpi ltac:(lia)).
  destruct (_ || _) eqn:E; [|done]. apply orb_true_iff in E as [E|E]; zbool; lia.
Qed.

End Encoding.

(** ** Hash to prime *)

Section HashToPrime.
Context {HSha : Sha2} {HPrime : NumPrime}.

Definition candidate (x y c : Z) : Z :=
  be_val (candidate_bytes
    (sha256_concat [biguint_to_bytes_be x; biguint_to_bytes_be y; u64_be c])).

Lemma generate_prime_l_from fuel x y c l :
  is_u64 c -> c + Z.of_nat fuel < 2 ^ 64 ->
  generate_prime_l_loop fuel (biguint_to_bytes_be x) (biguint_to_bytes_be y) c = Some l ->
  exists i, c <= i < c + Z.of_nat fuel /\ l = candidate x y i /\
    is_prime_probably l = true /\
    forall j, c <= j < i -> is_prime_probably (candidate x y j) = false.
Proof.
  revert c. induction fuel as [|fuel IH]; intros c Hc Hf H; cbn [generate_prime_l_loop] in H; [done|].
  unfold is_u64 in *. change (be_val _) with (candidate x y c) in H.
  destruct (is_prime_probably (candidate x y c)) eqn:E.
  - injection H as <-. exists c. split; [lia|]. split; [done|]. split; [done|]. lia.
  - rewrite wadd64_small in H by lia. apply IH in H as (i & Hi & ? & ? & Hj); [|lia..].
    exists i. split; [lia|]. repeat split; auto. intros j Hj'.
    destruct (decide (j = c)) as [->|]; [done|]. apply Hj. lia.
Qed.

Lemma generate_prime_l_reaches fuel x y c i :
  is_u64 c -> c + Z.of_nat fuel < 2 ^ 64 -> c <= i < c + Z.of_nat fuel ->
  is_prime_probably (candidate x y i) = true ->
  is_Some (generate_prime_l_loop fuel (biguint_to_bytes_be x) (biguint_to_bytes_be y) c).
Proof.
  revert c. induction fuel as [|fuel IH]; intros c Hc Hf Hi H; [lia|].
  unfold is_u64 in *. cbn [generate_prime_l_loop]. change (be_val _) with (candidate x y c).
  destruct (is_prime_probably (candidate x y c)) eqn:E; [done|].
  rewrite wadd64_small by lia. apply IH; try done; try lia.
  destruct (decide (i = c)) as [->|]; [congruence|lia].
Qed.

Context {HLaws : Sha2Laws}.

(** A 32-byte digest with its two bits forced. *)
Lemma candidate_bytes_shape h :
  length h = 32%nat -> wf_bytes h ->
  exists h0 t h31, candidate_bytes h = Z.lor h0 128 :: t ++ [Z.lor h31 1] /\
    length t = 30%nat /\ is_byte h0 /\ wf_bytes t /\ is_byte h31.
Proof.
  intros Hl Hw. destruct h as [|h0 h]; [done|].
  destruct h as [|h31 t _] using rev_ind; [done|].
  cbn [length] in Hl. rewrite length_app in Hl. cbn [length] in Hl.
  inversion Hw as [|? ? H0 Ht]; subst. apply Forall_app in Ht as [Ht H31].
  inversion H31; subst. exists h0, t, h31. split; [|by split; [lia|auto]].
  unfold candidate_bytes. change (alter ?f 31%nat (h0 :: ?l)) with (h0 :: alter f 30%nat l).
  rewrite alter_app_r_alt by lia. replace (30 - length t)%nat with 0%nat by lia. done.
Qed.

Lemma candidate_range x y c :
  2 ^ 255 <= candidate x y c < 2 ^ 256 /\ Z.odd (candidate x y c) = true.
Proof.
  unfold candidate, sha256_concat. set (d := concat _). clearbody d.
  destruct (candidate_bytes_shape _ (sha256_digest_length d) (sha256_digest_wf d))
    as (h0 & t & h31 & E & Hl & H0 & Ht & H31).
  rewrite E. clear E.
  pose proof (byte_forall (fun b => (128 <=? Z.lor b 128) && (Z.lor b 128 <? 256))
    ltac:(vm_compute; reflexivity) h0 H0) as Hh. cbn beta in Hh. zbool.
  pose proof (byte_forall (fun b => Z.odd (Z.lor b 1) && (0 <=? Z.lor b 1) && (Z.lor b 1 <? 256))
    ltac:(vm_compute; reflexivity) h31 H31) as Hh31. cbn beta in Hh31. zbool.
  assert (Hw : wf_bytes (t ++ [Z.lor h31 1])).
  { apply Forall_app. split; [done|]. repeat constructor; lia. }
  pose proof (be_val_bounds _ Hw) as Hv. cbn [be_val]. split.
  - assert (Hlen : len (t ++ [Z.lor h31 1]) = 31) by (rewrite len_app; unfold len; cbn; lia).
    rewrite Hlen in *. change (2 ^ 255) with (128 * 256 ^ 31). change (2 ^ 256) with (256 * 256 ^ 31).
    nia.
  - rewrite be_val_snoc, len_app, len_cons, len_nil.
    replace (len t + (1 + 0)) with 31 by (unfold len; lia).
    rewrite !Z.odd_add, !Z.odd_mul. change (Z.odd (256 ^ 31)) with false.
    change (Z.odd 256) with false. rewrite andb_false_r. cbn. assumption.
Qed.

Lemma generate_prime_l_range fuel x y l :
  Z.of_nat fuel < 2 ^ 64 -> generate_prime_l fuel x y = Some l ->
  2 ^ 255 <= l < 2 ^ 256 /\ Z.odd l = true.
Proof.
  intros Hf H. apply generate_prime_l_from in H as (i & _ & -> & _); [|done|lia].
  apply candidate_range.
Qed.

(** The Fiat-Shamir search returns, with fuel beyond the first counter the
    primality test accepts, the candidate of exactly that counter: an odd
    number of exactly 256 bits that passes the test. *)
Theorem generate_prime_l_first fuel x y i :
  0 <= i < Z.of_nat fuel -> Z.of_nat fuel < 2 ^ 64 ->
  is_prime_probably (candidate x y i) = true ->
  exists j l, 0 <= j <= i /\ generate_prime_l fuel x y = Some l /\ l = candidate x y j /\
    is_prime_probably l = true /\
    (forall j', 0 <= j' < j -> is_prime_probably (candidate x y j') = false) /\
    2 ^ 255 <= l < 2 ^ 256 /\ Z.odd l = true.
Proof.
  intros Hi Hf Hp.
  destruct (generate_prime_l_reaches fuel x y 0 i) as [l H]; [done|lia..|done|].
  pose proof H as H'. apply generate_prime_l_from in H' as (j & Hj & E & Ht & Hfirst); [|done|lia].
  exists j, l. split.
  { split; [lia|]. apply Z.nlt_ge. intros Hlt. rewrite Hfirst in Hp; [done|lia]. }
  repeat split; auto; try (rewrite E; apply candidate_range).
Qed.

End HashToPrime.

(** ** The prover and the verifier together *)

Definition vdf_output (n x iterations : Z) : Z := x ^ (2 ^ iterations) mod n.
Definition wesolowski_pi (n x iterations l : Z) : Z := x ^ (2 ^ iterations / l) mod n.

(** The moduli whose residues fit the 256-byte fields. *)
Definition modulus_ok (n : Z) : Prop := 0 < n < 256 ^ 256.

Lemma block_size_bounds t : 1 <= t -> 0 < block_size t <= t.
Proof.
  intros Ht. unfold block_size, max_checkpoints, test_block_size.
  rewrite !Z.gtb_ltb. destruct (300000 * 1000 <? t) eqn:E; zbool.
  - split; [apply Z.div_str_pos; lia|]. apply Z.div_le_upper_bound; lia.
  - destruct (1000 <? t) eqn:E2; zbool; lia.
Qed.

Lemma cong_small n a b : cong n a b -> 0 <= a < n -> a = b mod n.
Proof. intros [E] H. by rewrite <- E, Z.mod_small. Qed.

(** The two passes over the chain, for the parameters [evaluate] computes. *)
Lemma passes_ok n x t l :
  0 < n -> 1 <= t -> 2 <= l ->
  let b := block_size t in
  let k := t / b in
  let r_block := t mod b in
  let '(y, cps) :=
    delay_loop n b (if r_block >? 0 then k + 1 else k) (x mod n) (Z.to_nat t) in
  y = vdf_output n x t /\ prove_pi n l b k r_block cps = wesolowski_pi n x t l.
Proof.
  intros Hn Ht Hl b k r_block. destruct (block_size_bounds t Ht) as [Hb Hbt].
  fold b in Hb, Hbt. pose proof (Z.mod_pos_bound t b Hb) as Hr. fold r_block in Hr.
  assert (Hk : 1 <= k) by (apply Z.div_le_lower_bound; lia).
  set (needed := if r_block >? 0 then k + 1 else k).
  assert (Hneeded : k <= needed <= k + 1) by (subst needed; destruct (r_block >? 0); lia).
  pose proof (delay_loop_ok n x b needed Hn Hb ltac:(lia) (x mod n) (Z.to_nat t)) as H.
  destruct (delay_loop _ _ _ _ _) as [y cps]. destruct H as [[Hy Hyr] [Hlen Hcps]].
  { split; [|by apply Z.mod_pos_bound]. unfold chain. rewrite Z.pow_0_r, Z.pow_1_r.
    apply cong_mod_l. }
  rewrite Z2Nat.id in * by lia. fold k in Hlen. rewrite Z.min_l in Hlen by lia.
  split; [by apply cong_small|].
  destruct (prove_pi_ok n x b l k r_block cps Hn Hb Hl ltac:(lia) Hr Hlen Hcps) as [Hpi Hpr].
  replace (r_block + k * b) with t in Hpi; [by apply cong_small|].
  unfold r_block, k. pose proof (Z.div_mod t b ltac:(lia)). lia.
Qed.

Section EngineFacts.
Context {HSha : Sha2} {HPrime : NumPrime} {HLaws : Sha2Laws}.

Lemma evaluate_ok fuel eng ch t l :
  modulus_ok (vdf_n eng) -> 1 <= t -> be_val ch <> 0 -> 2 <= l ->
  generate_prime_l fuel (be_val ch) (vdf_output (vdf_n eng) (be_val ch) t) = Some l ->
  evaluate fuel eng ch t
  = Some (Ok (encode_proof (vdf_output (vdf_n eng) (be_val ch) t)
                           (wesolowski_pi (vdf_n eng) (be_val ch) t l))).
Proof.
  intros Hn Ht Hx Hl Hgen. unfold evaluate.
  destruct (t =? 0) eqn:E0; zbool; [lia|]. apply Z.eqb_neq in Hx. rewrite Hx.
  pose proof (passes_ok (vdf_n eng) (be_val ch) t l ltac:(apply Hn) Ht Hl) as H.
  cbv zeta in *. destruct (delay_loop _ _ _ _ _) as [y cps]. destruct H as [-> Hpi].
  rewrite Hgen. cbn. rewrite Hpi. f_equal. unfold modulus_ok in Hn.
  apply package_ok; unfold vdf_output, wesolowski_pi.
  - pose proof (Z.mod_pos_bound (be_val ch ^ 2 ^ t) (vdf_n eng)). lia.
  - pose proof (Z.mod_pos_bound (be_val ch ^ (2 ^ t / l)) (vdf_n eng)). lia.
Qed.

(** What the verifier computes on a well-formed proof. *)
Lemma verify_encoded fuel eng ch t y pi l :
  modulus_ok (vdf_n eng) -> 1 <= t -> 2 <= l ->
  0 <= y < 256 ^ 256 -> 0 <= pi < 256 ^ 256 ->
  generate_prime_l fuel (be_val ch) y = Some l ->
  verify fuel eng ch (encode_proof y pi) t
  = Some (Ok ((pi ^ l * be_val ch ^ (2 ^ t mod l)) mod vdf_n eng =? y)).
Proof.
  intros Hn Ht Hl Hy Hpi Hgen. unfold verify, modulus_ok in *.
  replace (len (encode_proof y pi)) with 512 by (unfold len; by rewrite encode_proof_length).
  cbn [negb Z.eqb Pos.eqb]. destruct (t =? 0) eqn:E0; zbool; [lia|].
  rewrite encode_proof_y, encode_proof_pi by done. cbv zeta. rewrite Hgen. cbn [mbind option_bind].
  do 3 f_equal. apply cong_mod. rewrite !modpow_cong by lia.
  unfold modpow at 1. rewrite Zpow_mod_correct by lia. done.
Qed.

Lemma wesolowski_equation n x t l :
  0 < l -> 0 <= t ->
  cong n ((x ^ (2 ^ t / l)) ^ l * x ^ (2 ^ t mod l)) (x ^ (2 ^ t)).
Proof.
  intros Hl Ht. pose proof (Z.pow_nonneg 2 t). pose proof (Z.mod_pos_bound (2 ^ t) l Hl).
  assert (0 <= 2 ^ t / l) by (apply Z.div_pos; lia).
  rewrite <- Z.pow_mul_r, <- Z.pow_add_r by nia.
  replace (2 ^ t / l * l + 2 ^ t mod l) with (2 ^ t) by (pose proof (Z.div_mod (2 ^ t) l); lia).
  done.
Qed.

Lemma vdf_output_range n x t : modulus_ok n -> 0 <= vdf_output n x t < 256 ^ 256.
Proof. unfold modulus_ok. intros. pose proof (Z.mod_pos_bound (x ^ 2 ^ t) n). unfold vdf_output. lia. Qed.

Lemma prime_ge_2 fuel x y l :
  Z.of_nat fuel < 2 ^ 64 -> generate_prime_l fuel x y = Some l -> 2 <= l /\ Z.odd l = true.
Proof. intros Hf H. apply generate_prime_l_range in H as [? ?]; [|done]. split; [lia|done]. Qed.

(** A successful evaluation found the prime of the specified output. *)
Lemma evaluate_inv fuel eng ch t p :
  modulus_ok (vdf_n eng) -> 1 <= t -> Z.of_nat fuel < 2 ^ 64 -> evaluate fuel eng ch t = Some (Ok p) ->
  exists l, 2 <= l /\ generate_prime_l fuel (be_val ch) (vdf_output (vdf_n eng) (be_val ch) t) = Some l /\
    p = encode_proof (vdf_output (vdf_n eng) (be_val ch) t) (wesolowski_pi (vdf_n eng) (be_val ch) t l).
Proof.
  intros Hn Ht Hf H. assert (Hx : be_val ch <> 0).
  { intros E. unfold evaluate in H. rewrite E in H. destruct (t =? 0); discriminate H. }
  destruct (generate_prime_l fuel (be_val ch) (vdf_output (vdf_n eng) (be_val ch) t)) as [l|] eqn:Hgen.
  - destruct (prime_ge_2 _ _ _ _ Hf Hgen) as [Hl _]. exists l. split; [done|]. split; [done|].
    pose proof (evaluate_ok fuel eng ch t l Hn Ht Hx Hl Hgen) as E. congruence.
  - exfalso. unfold evaluate in H. destruct (t =? 0) eqn:E0; zbool; [lia|]. apply Z.eqb_neq in Hx. rewrite Hx in H.
    pose proof (passes_ok (vdf_n eng) (be_val ch) t 2 ltac:(apply Hn) Ht ltac:(lia)) as Hp.
    cbv zeta in *. destruct (delay_loop _ _ _ _ _) as [y cps]. destruct Hp as [-> _]. by rewrite Hgen in H.
Qed.

(** The verifier accepts the specified output with the specified proof. *)
Lemma verify_specified fuel eng ch t l :
  modulus_ok (vdf_n eng) -> 1 <= t -> 2 <= l ->
  generate_prime_l fuel (be_val ch) (vdf_output (vdf_n eng) (be_val ch) t) = Some l ->
  verify fuel eng ch (encode_proof (vdf_output (vdf_n eng) (be_val ch) t)
                                   (wesolowski_pi (vdf_n eng) (be_val ch) t l)) t = Some (Ok true).
Proof.
  intros Hn Ht Hl Hgen. rewrite (verify_encoded _ _ _ _ _ _ l); auto using vdf_output_range.
  - do 2 f_equal. apply Z.eqb_eq, cong_mod. unfold wesolowski_pi.
    rewrite cong_mod_l. apply wesolowski_equation; lia.
  - unfold wesolowski_pi, modulus_ok in *.
    pose proof (Z.mod_pos_bound (be_val ch ^ (2 ^ t / l)) (vdf_n eng)). lia.
Qed.

(** C5: completeness, for a modulus of at most 2048 bits.  No iterations, or a
    challenge that is zero as a number, are refused before any work is done.
    For every other challenge and number of iterations, once the hash-to-prime
    search for the output succeeds, the checkpointed prover returns the packed
    pair of the delayed output and the Wesolowski quotient power, and the
    verifier accepts it. *)
Theorem evaluate_verify_complete fuel eng ch t :
  modulus_ok (vdf_n eng) -> 0 <= t -> Z.of_nat fuel < 2 ^ 64 ->
  (t = 0 \/ be_val ch = 0 -> evaluate fuel eng ch t = Some (Err InvalidChallenge)) /\
  (1 <= t -> be_val ch <> 0 -> forall l,
   generate_prime_l fuel (be_val ch) (vdf_output (vdf_n eng) (be_val ch) t) = Some l ->
   let proof := encode_proof (vdf_output (vdf_n eng) (be_val ch) t)
                             (wesolowski_pi (vdf_n eng) (be_val ch) t l) in
   evaluate fuel eng ch t = Some (Ok proof) /\
   verify fuel eng ch proof t = Some (Ok true)).
Proof.
  intros Hn Ht0 Hf. split.
  { intros H. unfold evaluate. destruct H as [->| ->]; [done|]. by destruct (t =? 0). }
  intros Ht Hx l Hgen proof. destruct (prime_ge_2 _ _ _ _ Hf Hgen) as [Hl _].
  split; [by apply evaluate_ok|]. subst proof. by apply verify_specified.
Qed.

Lemma odd_opp_pow a e : Z.odd e = true -> (- a) ^ e = - (a ^ e).
Proof.
  intros Ho. destruct (Z.lt_ge_cases e 0) as [He|He]; [by rewrite !Z.pow_neg_r|].
  apply Z.pow_opp_odd. by apply Z.odd_spec.
Qed.

(** The output is not unique.  For every honest evaluation with a nonzero
    output [y] the verifier also accepts the output [n - y], with a proof
    computed from public values and without the factorisation of [n]. *)
Theorem verify_accepts_negated_output fuel eng ch t l' :
  modulus_ok (vdf_n eng) -> 1 <= t -> Z.of_nat fuel < 2 ^ 64 ->
  vdf_output (vdf_n eng) (be_val ch) t <> 0 ->
  let y' := vdf_n eng - vdf_output (vdf_n eng) (be_val ch) t in
  generate_prime_l fuel (be_val ch) y' = Some l' ->
  verify fuel eng ch
    (encode_proof y' (vdf_n eng - wesolowski_pi (vdf_n eng) (be_val ch) t l')) t
  = Some (Ok true).
Proof.
  intros Hn Ht Hf Hy y' Hgen. destruct (prime_ge_2 _ _ _ _ Hf Hgen) as [Hl Ho].
  unfold modulus_ok in *. set (n := vdf_n eng) in *. set (x := be_val ch) in *.
  pose proof (Z.mod_pos_bound (x ^ 2 ^ t) n ltac:(lia)) as Hyr. fold (vdf_output n x t) in Hyr.
  pose proof (Z.mod_pos_bound (x ^ (2 ^ t / l')) n ltac:(lia)) as Hpr.
  fold (wesolowski_pi n x t l') in Hpr. assert (Hyr' : 0 < y' < n) by lia.
  rewrite (verify_encoded _ _ _ _ _ _ l'); fold n x; try done; try lia.
  do 2 f_equal. apply Z.eqb_eq.
  rewrite <- (Z.mod_small y' n) by lia. apply cong_mod.
  assert (Hneg : forall a, cong n (n - a) (- a)).
  { intros a. split. replace (n - a) with (- a + 1 * n) by ring. apply Z.mod_add. lia. }
  unfold y'. rewrite !Hneg, odd_opp_pow by done. unfold wesolowski_pi, vdf_output.
  rewrite !cong_mod_l, Z.mul_opp_l. by rewrite wesolowski_equation, (cong_mod_l n (x ^ 2 ^ t)) by lia.
Qed.

Lemma odd_not_divides_pow2 l t : Z.odd l = true -> 2 <= l -> 0 <= t -> 2 ^ t mod l <> 0.
Proof.
  intros Ho Hl Ht E. apply Z.mod_divide in E; [|lia].
  assert (Hg : Z.gcd l 2 = 1).
  { rewrite Z.gcd_comm. apply Z.odd_spec in Ho as [m ->].
    rewrite Z.add_comm, (Z.mul_comm 2), Z.gcd_add_mult_diag_r. reflexivity. }
  revert t Ht E. apply (natlike_ind (fun t => (l | 2 ^ t) -> False)).
  - intros Hd. apply Z.divide_pos_le in Hd; lia.
  - intros t Ht IH Hd. rewrite Z.pow_succ_r in Hd by done. apply IH.
    by apply (Z.gauss _ 2).
Qed.

(** The prover refuses the degenerate all-zero challenge, the verifier
    does not: with output zero it accepts every second component. *)
Theorem verify_accepts_zero_challenge fuel eng t pi l :
  modulus_ok (vdf_n eng) -> 1 <= t -> Z.of_nat fuel < 2 ^ 64 -> 0 <= pi < 256 ^ 256 ->
  generate_prime_l fuel 0 0 = Some l ->
  evaluate fuel eng (replicate 32 0) t = Some (Err InvalidChallenge) /\
  verify fuel eng (replicate 32 0) (encode_proof 0 pi) t = Some (Ok true).
Proof.
  intros Hn Ht Hf Hpi Hgen. destruct (prime_ge_2 _ _ _ _ Hf Hgen) as [Hl Ho]. split.
  - unfold evaluate. destruct (t =? 0); done.
  - rewrite (verify_encoded _ _ _ _ _ _ l); try done.
    do 2 f_equal. apply Z.eqb_eq. change (be_val (replicate 32 0)) with 0.
    pose proof (odd_not_divides_pow2 l t Ho Hl ltac:(lia)).
    pose proof (Z.mod_pos_bound (2 ^ t) l).
    rewrite Z.pow_0_l, Z.mul_0_r by lia. apply Z.mod_0_l. unfold modulus_ok in Hn. lia.
Qed.

(** The error branches: a proof of another length, or zero iterations. *)
Lemma verify_rejects_malformed fuel eng ch proof t :
  verify fuel eng ch proof t = Some (Err InvalidProof) <->
  len proof <> 512 \/ t = 0.
Proof.
  unfold verify. destruct (len proof =? 512) eqn:E; zbool; cbn [negb].
  - destruct (t =? 0) eqn:E0; zbool; [tauto|].
    destruct (generate_prime_l _ _ _); cbn; split; intros; naive_solver.
  - tauto.
Qed.

End EngineFacts.

(** ** Witnesses, at the modulus 35 with a toy digest and the always-true test *)

Definition toy_prime : NumPrime := fun _ => true.
Definition toy_engine : RsaVdfEngine := {| vdf_n := 35 |}.
Definition toy_challenge : bytes := replicate 31 0 ++ [3].
Definition toy_l (y : Z) : Z := @candidate Toy.toy_sha2 3 y 0.

Lemma generate_prime_l_first_witness :
  exists j l, 0 <= j <= 0 /\
    @generate_prime_l Toy.toy_sha2 toy_prime 1 3 11 = Some l /\
    l = @candidate Toy.toy_sha2 3 11 j /\ @is_prime_probably toy_prime l = true /\
    (forall j', 0 <= j' < j -> @is_prime_probably toy_prime (@candidate Toy.toy_sha2 3 11 j') = false) /\
    2 ^ 255 <= l < 2 ^ 256 /\ Z.odd l = true.
Proof.
  apply (@generate_prime_l_first Toy.toy_sha2 toy_prime Toy.toy_sha2_laws 1 3 11 0);
    [lia|lia|reflexivity].
Defined.

Lemma evaluate_verify_complete_witness :
  let proof := encode_proof (vdf_output 35 3 10)
                 (wesolowski_pi 35 3 10 (toy_l (vdf_output 35 3 10))) in
  @evaluate Toy.toy_sha2 toy_prime 1 toy_engine toy_challenge 10 = Some (Ok proof) /\
  @verify Toy.toy_sha2 toy_prime 1 toy_engine toy_challenge proof 10 = Some (Ok true).
Proof.
  apply (@evaluate_verify_complete Toy.toy_sha2 toy_prime Toy.toy_sha2_laws 1 toy_engine
    toy_challenge 10);
    [split; [reflexivity|vm_compute; reflexivity]|lia|lia|lia|vm_compute; discriminate|
     vm_compute; reflexivity].
Defined.

Lemma verify_accepts_negated_output_witness :
  vdf_output 35 3 10 = 11 /\
  @verify Toy.toy_sha2 toy_prime 1 toy_engine toy_challenge
    (encode_proof 24 (35 - wesolowski_pi 35 3 10 (toy_l 24))) 10 = Some (Ok true).
Proof.
  split; [vm_compute; reflexivity|].
  apply (@verify_accepts_negated_output Toy.toy_sha2 toy_prime Toy.toy_sha2_laws 1 toy_engine
    toy_challenge 10 (toy_l 24));
    [split; [reflexivity|vm_compute; reflexivity]|lia|lia|vm_compute; discriminate|
     vm_compute; reflexivity].
Defined.

Lemma verify_accepts_zero_challenge_witness :
  @evaluate Toy.toy_sha2 toy_prime 1 toy_engine (replicate 32 0) 10 = Some (Err InvalidChallenge) /\
  @verify Toy.toy_sha2 toy_prime 1 toy_engine (replicate 32 0) (encode_proof 0 7) 10 = Some (Ok true).
Proof.
  apply (@verify_accepts_zero_challenge Toy.toy_sha2 toy_prime Toy.toy_sha2_laws 1 toy_engine
    10 7 (@candidate Toy.toy_sha2 0 0 0));
    [split; [reflexivity|vm_compute; reflexivity]|lia|lia|split; [lia|vm_compute; reflexivity]|
     vm_compute; reflexivity].
Defined.

(** A run with two full blocks and a remainder block. *)
Example blockwise_run :
  match @evaluate Toy.toy_sha2 toy_prime 1 toy_engine toy_challenge 2003 with
  | Some (Ok p) => @verify Toy.toy_sha2 toy_prime 1 toy_engine toy_challenge p 2003
  | _ => None
  end = Some (Ok true).
Proof. vm_compute. reflexivity. Qed.
