(* ===== verification/Kid.v ===== *)
(** * Identity documents ([kinetic-kid])

    [did.rs], [bounded.rs], [document.rs], [manifest.rs] and [error.rs]: DID
    parsing, bounded sequence deserialisation, document and manifest
    verification, key rotation and revocation.  JSON canonicalisation
    ([serde_jcs]) is a parameter. *)
From Stdlib Require Import String.
From S2P Require Import Prelude Bytes Config Crypto Names.

(** The texts of the third-party errors ([JsonParseError],
    [CanonicalizationError], [Base64Error]) are not kept. *)
Inductive KidError :=
  | InvalidDidPrefix
  | Reserved002
  | InvalidDidHexLength
  | InvalidDidHexCharacters
  | JsonParseError
  | CanonicalizationError
  | KidInvalidSignature
  | MissingSignature
  | Base64Error
  | StringLengthExceeded (field : bytes)
  | UnauthorizedManifestSignature
  | KeyLimitExceeded
  | ServiceLimitExceeded
  | LocationLimitExceeded
  | InvalidValidFrom
  | ManifestExpired
  | DidKeyMismatch.

#[export] Instance KidError_eq_dec : EqDecision KidError.
Proof. solve_decision. Defined.

Inductive KidSeverity := KidWarning | KidSevError.

Definition kid_error_code (e : KidError) : string :=
  match e with
  | InvalidDidPrefix => "KIN-KID-001"
  | Reserved002 => "KIN-KID-002"
  | InvalidDidHexLength => "KIN-KID-003"
  | InvalidDidHexCharacters => "KIN-KID-004"
  | JsonParseError => "KIN-KID-005"
  | CanonicalizationError => "KIN-KID-006"
  | KidInvalidSignature => "KIN-KID-007"
  | MissingSignature => "KIN-KID-008"
  | Base64Error => "KIN-KID-009"
  | StringLengthExceeded _ => "KIN-KID-010"
  | UnauthorizedManifestSignature => "KIN-KID-011"
  | KeyLimitExceeded => "KIN-KID-012"
  | InvalidValidFrom => "KIN-KID-013"
  | ManifestExpired => "KIN-KID-014"
  | DidKeyMismatch => "KIN-KID-015"
  | ServiceLimitExceeded => "KIN-KID-016"
  | LocationLimitExceeded => "KIN-KID-017"
  end.

Definition kid_error_severity (e : KidError) : KidSeverity :=
  match e with
  | KidInvalidSignature | UnauthorizedManifestSignature | KeyLimitExceeded
  | LocationLimitExceeded | ServiceLimitExceeded | StringLengthExceeded _
  | DidKeyMismatch => KidSevError
  | _ => KidWarning
  end.

(** ** DIDs *)

Record Did := MkDid { did_id : bytes }.

#[export] Instance Did_eq_dec : EqDecision Did.
Proof. solve_decision. Defined.

(** The character test runs over the bytes: a byte of a multi-byte character
    is no ASCII hex digit. *)
Definition did_new (id_str : bytes) : Result KidError Did :=
  bail_if (negb (starts_with DID_PREFIX id_str)) InvalidDidPrefix;;
  let method_specific_id := drop (length DID_PREFIX) id_str in
  bail_if (negb (len method_specific_id =? 64)) InvalidDidHexLength;;
  bail_if (negb (forallb (fun c => is_ascii_hexdigit c && negb (is_ascii_uppercase c))
                         method_specific_id)) InvalidDidHexCharacters;;
  Ok (MkDid id_str).

(** ** Bounded deserialisation

    The elements are the results [next_element] yields in turn; a sequence
    error ends the visit. *)

Inductive DeError (E : Type) :=
  | DeInvalidLength (size : Z)
  | DeExceeded (max : Z)
  | DeElement (e : E).
Arguments DeInvalidLength {E} _.
Arguments DeExceeded {E} _.
Arguments DeElement {E} _.

Fixpoint visit_elements {E T} (max : Z) (seq : list (Result E T)) (acc : list T)
  : Result (DeError E) (list T) :=
  match seq with
  | [] => Ok acc
  | Err e :: _ => Err (DeElement e)
  | Ok element :: rest =>
      if len acc >=? max then Err (DeExceeded max)
      else visit_elements max rest (acc ++ [element])
  end.

Definition visit_seq {E T} (max : Z) (size_hint : option Z) (seq : list (Result E T))
  : Result (DeError E) (list T) :=
  match size_hint with
  | Some size => bail_if (size >? max) (DeInvalidLength size);; visit_elements max seq []
  | None => visit_elements max seq []
  end.

Definition deserialize_max_20 {E T} := @visit_seq E T 20.
Definition deserialize_max_50 {E T} := @visit_seq E T 50.

(** ** Documents and manifests *)

Record ControllerKey := MkControllerKey {
  ck_id : bytes; key_type : bytes; public_key : bytes }.

Record ManifestPointer := MkManifestPointer {
  mp_hash : option bytes; locations : list bytes }.

Record Document := MkDocument {
  doc_type : bytes;
  kid : Did;
  created_at : Z;
  controller_keys : list ControllerKey;
  manifest_ptr : option ManifestPointer;
  revocation_keys : list bytes;
  deactivated : bool;
  signature : option bytes }.

Record Service := MkService {
  svc_id : bytes; service_type : bytes; protocol : bytes; endpoint : bytes }.

Record Manifest := MkManifest {
  m_doc_type : bytes;
  m_kid : Did;
  version : Z;
  valid_from : Z;
  expires_at : option Z;
  services : list Service;
  m_signature : option bytes }.

#[export] Instance ControllerKey_eq_dec : EqDecision ControllerKey.
Proof. solve_decision. Defined.
#[export] Instance ManifestPointer_eq_dec : EqDecision ManifestPointer.
Proof. solve_decision. Defined.
#[export] Instance Document_eq_dec : EqDecision Document.
Proof. solve_decision. Defined.
#[export] Instance Service_eq_dec : EqDecision Service.
Proof. solve_decision. Defined.
#[export] Instance Manifest_eq_dec : EqDecision Manifest.
Proof. solve_decision. Defined.

(** [serde_jcs::to_string] of the two structures. *)
Class Jcs := {
  jcs_document : Document -> option bytes;
  jcs_manifest : Manifest -> option bytes }.

Definition document_unsigned (d : Document) : Document :=
  {| doc_type := doc_type d; kid := kid d; created_at := created_at d;
     controller_keys := controller_keys d; manifest_ptr := manifest_ptr d;
     revocation_keys := revocation_keys d; deactivated := deactivated d;
     signature := None |}.

Definition document_with_signature (d : Document) (s : bytes) : Document :=
  {| doc_type := doc_type d; kid := kid d; created_at := created_at d;
     controller_keys := controller_keys d; manifest_ptr := manifest_ptr d;
     revocation_keys := revocation_keys d; deactivated := deactivated d;
     signature := Some s |}.

Definition manifest_unsigned (m : Manifest) : Manifest :=
  {| m_doc_type := m_doc_type m; m_kid := m_kid m; version := version m;
     valid_from := valid_from m; expires_at := expires_at m;
     services := services m; m_signature := None |}.

Definition manifest_with_signature (m : Manifest) (s : bytes) : Manifest :=
  {| m_doc_type := m_doc_type m; m_kid := m_kid m; version := version m;
     valid_from := valid_from m; expires_at := expires_at m;
     services := services m; m_signature := Some s |}.

(** [format!("{}-kid-v1\0", env!("KINETIC_NSP"))] and its manifest twin. *)
Definition KID_SEPARATOR : bytes := nsp (network network_json) ++ bs "-kid-v1" ++ [0].
Definition MANIFEST_SEPARATOR : bytes := nsp (network network_json) ++ bs "-manifest-v1" ++ [0].

Section Kid.
Context {HSha : Sha2} {HSig : MlDsa} {HSign : MlDsaSign} {HCod : Codecs} {HJcs : Jcs}.

Definition document_canonicalize (d : Document) : Result KidError bytes :=
  ok_or (jcs_document (document_unsigned d)) CanonicalizationError.

Definition manifest_canonicalize (m : Manifest) : Result KidError bytes :=
  ok_or (jcs_manifest (manifest_unsigned m)) CanonicalizationError.

(** One base64url key of a list accepts the signature. *)
Definition revocation_accepts (msg_bytes sig_bytes rk_b64 : bytes) : bool :=
  match b64url_decode rk_b64 with
  | Some pubkey_bytes => is_ok (verify_signature pubkey_bytes msg_bytes sig_bytes)
  | None => false
  end.

Definition controller_accepts (msg_bytes sig_bytes : bytes) (key : ControllerKey) : bool :=
  eq_ignore_ascii_case (key_type key) (bs "Controller") &&
  revocation_accepts msg_bytes sig_bytes (public_key key).

Definition check_controller_key (key : ControllerKey) : Result KidError unit :=
  bail_if (len (ck_id key) >? 256) (StringLengthExceeded (bs "controller_key.id"));;
  bail_if (len (public_key key) >? LIMITS_KID_MAX_PUBLIC_KEY_BYTES)
    (StringLengthExceeded (bs "controller_key.public_key"));;
  bail_if (len (key_type key) >? 32) (StringLengthExceeded (bs "controller_key.key_type")).

Definition check_revocation_key (rk : bytes) : Result KidError unit :=
  bail_if (len rk >? LIMITS_KID_MAX_PUBLIC_KEY_BYTES)
    (StringLengthExceeded (bs "revocation_keys.item")).

Definition check_manifest_ptr (manifest : ManifestPointer) : Result KidError unit :=
  bail_if (len (locations manifest) >? 20) LocationLimitExceeded;;
  try_for_each (fun loc =>
    bail_if (len loc >? LIMITS_KID_MAX_LOCATION_BYTES)
      (StringLengthExceeded (bs "manifest.location"))) (locations manifest);;
  match mp_hash manifest with
  | Some hash => bail_if (len hash >? 256) (StringLengthExceeded (bs "manifest.hash"))
  | None => Ok tt
  end.

(** The bound checks that open [Document::verify]. *)
Definition document_check_bounds (d : Document) : Result KidError unit :=
  bail_if ((len (controller_keys d) >? 20) || (len (revocation_keys d) >? 20)) KeyLimitExceeded;;
  try_for_each check_controller_key (controller_keys d);;
  try_for_each check_revocation_key (revocation_keys d);;
  match manifest_ptr d with
  | Some manifest => check_manifest_ptr manifest
  | None => Ok tt
  end.

Definition document_verify (d : Document) : Result KidError unit :=
  document_check_bounds d;;
  sig_b64 ← ok_or (signature d) MissingSignature;
  sig_bytes ← ok_or (b64url_decode sig_b64) Base64Error;
  msg_str ← document_canonicalize d;
  let msg_bytes := KID_SEPARATOR ++ msg_str in
  let accepted :=
    if deactivated d then existsb (revocation_accepts msg_bytes sig_bytes) (revocation_keys d)
    else existsb (controller_accepts msg_bytes sig_bytes) (controller_keys d) in
  if accepted then Ok tt else Err KidInvalidSignature.

Definition document_verify_genesis (d : Document) : Result KidError unit :=
  primary_key ← ok_or (head (controller_keys d)) KidInvalidSignature;
  pubkey_bytes ← ok_or (b64url_decode (public_key primary_key)) Base64Error;
  let hash := sha256 pubkey_bytes in
  let expected_kid := DID_PREFIX ++ hex_lower hash in
  bail_if (negb (bool_decide (did_id (kid d) = expected_kid))) DidKeyMismatch;;
  Ok tt.

Definition document_is_authorized (d previous_doc : Document) : bool :=
  match signature d with
  | None => false
  | Some sig_b64 =>
      match b64url_decode sig_b64 with
      | None => false
      | Some sig_bytes =>
          match document_canonicalize d with
          | Err _ => false
          | Ok msg_str =>
              let msg_bytes := KID_SEPARATOR ++ msg_str in
              let authorized :=
                existsb (controller_accepts msg_bytes sig_bytes) (controller_keys previous_doc) in
              if negb authorized && deactivated d then
                existsb (revocation_accepts msg_bytes sig_bytes) (revocation_keys previous_doc)
              else authorized
          end
      end
  end.

(** [sign_with_controller] and [sign_with_revoke] have the same body. *)
Definition document_sign (d : Document) (key : KineticKeypair) : Result KidError Document :=
  msg_str ← document_canonicalize d;
  let msg_bytes := KID_SEPARATOR ++ msg_str in
  let signature_bytes := kp_sign key msg_bytes in
  Ok (document_with_signature d (b64url_encode signature_bytes)).

Definition check_service (svc : Service) : Result KidError unit :=
  bail_if (len (svc_id svc) >? 256) (StringLengthExceeded (bs "service.id"));;
  bail_if (len (service_type svc) >? 256) (StringLengthExceeded (bs "service.service_type"));;
  bail_if (len (protocol svc) >? 64) (StringLengthExceeded (bs "service.protocol"));;
  bail_if (len (endpoint svc) >? LIMITS_KID_MAX_ENDPOINT_BYTES)
    (StringLengthExceeded (bs "service.endpoint")).

Definition manifest_verify_at_time (m : Manifest) (kid_document : Document) (unix_time : Z)
  : Result KidError unit :=
  bail_if (len (controller_keys kid_document) >? 20) KeyLimitExceeded;;
  bail_if (negb (bool_decide (m_kid m = kid kid_document))) UnauthorizedManifestSignature;;
  bail_if (valid_from m >? wadd64 unix_time 300) InvalidValidFrom;;
  bail_if (match expires_at m with Some expires => unix_time >=? expires | None => false end)
    ManifestExpired;;
  bail_if (len (services m) >? 50) ServiceLimitExceeded;;
  try_for_each check_service (services m);;
  sig_b64 ← ok_or (m_signature m) MissingSignature;
  sig_bytes ← ok_or (b64url_decode sig_b64) Base64Error;
  msg_str ← manifest_canonicalize m;
  let msg_bytes := MANIFEST_SEPARATOR ++ msg_str in
  if existsb (controller_accepts msg_bytes sig_bytes) (controller_keys kid_document)
  then Ok tt else Err UnauthorizedManifestSignature.

Definition manifest_sign (m : Manifest) (key : KineticKeypair) : Result KidError Manifest :=
  msg_str ← manifest_canonicalize m;
  let msg_bytes := MANIFEST_SEPARATOR ++ msg_str in
  let signature_bytes := kp_sign key msg_bytes in
  Ok (manifest_with_signature m (b64url_encode signature_bytes)).

End Kid.

(** ** DIDs and bounded sequences *)

Definition is_did_hex (h : bytes) : bool :=
  (len h =? 64) && forallb (fun c => is_ascii_hexdigit c && negb (is_ascii_uppercase c)) h.

Lemma did_new_ok s d :
  did_new s = Ok d <-> exists h, s = DID_PREFIX ++ h /\ is_did_hex h = true /\ d = MkDid s.
Proof.
  unfold did_new, is_did_hex. cbv zeta. rewrite !bail_if_ok, negb_false_iff, starts_with_true. split.
  - intros ([h ->] & H1 & H2 & H3). rewrite drop_app_length, negb_false_iff in H1, H2. exists h. rewrite H1, H2. split; [done|]. naive_solver.
  - intros (h & -> & H & ->). split; [by exists h|].
    rewrite drop_app_length, !negb_false_iff. by apply andb_true_iff in H as [-> ->].
Qed.

Lemma visit_elements_ok {E T} max (seq : list (Result E T)) acc v :
  len acc <= max ->
  visit_elements max seq acc = Ok v <->
  exists w, seq = map Ok w /\ v = acc ++ w /\ len v <= max.
Proof.
  revert acc. induction seq as [|[x|e] seq IH]; intros acc Hacc; cbn [visit_elements].
  - split.
    + intros [= <-]. exists []. by rewrite app_nil_r.
    + intros ([|? ?] & Hs & -> & _); [by rewrite app_nil_r|done].
  - rewrite Z.geb_leb. destruct (max <=? len acc) eqn:E1; zbool.
    + split; [done|]. intros ([|y w] & Hs & -> & Hl); [done|].
      rewrite len_app, len_cons in Hl. pose proof (len_nonneg w). lia.
    + rewrite IH by (rewrite len_app, len_cons, len_nil; lia). split.
      * intros (w & -> & -> & Hl). exists (x :: w). by rewrite <- app_assoc in *.
      * intros ([|y w] & Hs & -> & Hl); [done|]. injection Hs as -> ->.
        exists w. by rewrite <- app_assoc.
  - split; [done|]. by intros ([|? ?] & Hs & _).
Qed.

Lemma visit_elements_exceeds {E T} max (w : list T) (x : T) (rest : list (Result E T)) acc :
  len acc + len w = max ->
  visit_elements max (map Ok w ++ Ok x :: rest) acc = Err (DeExceeded max).
Proof.
  revert acc. induction w as [|y w IH]; intros acc Hl; cbn [map app visit_elements].
  - rewrite len_nil in Hl. rewrite Z.geb_leb. destruct (max <=? len acc) eqn:E1; [done|].
    zbool. lia.
  - rewrite len_cons in Hl. pose proof (len_nonneg w). rewrite Z.geb_leb.
    destruct (max <=? len acc) eqn:E1; zbool; [lia|].
    apply IH. rewrite len_app, len_cons, len_nil. lia.
Qed.

(** A bounded visit succeeds exactly on a sequence of at most [max]
    well-formed elements whose size hint is absent or within the bound, and it
    stops at element [max + 1] whatever the rest of the input is. *)
Theorem visit_seq_bounded {E T} max hint (seq : list (Result E T)) :
  0 <= max ->
  (forall v, visit_seq max hint seq = Ok v <->
     seq = map Ok v /\ len v <= max /\ (forall size, hint = Some size -> size <= max)) /\
  (forall w x rest, seq = map Ok w ++ Ok x :: rest -> len w = max ->
     is_err (visit_seq max hint seq) = true).
Proof.
  intros Hmax. assert (Hv : forall v, visit_elements max seq [] = Ok v <->
    seq = map Ok v /\ len v <= max).
  { intros v. rewrite visit_elements_ok by done. cbn [app]. naive_solver. }
  unfold visit_seq. split.
  - intros v. destruct hint as [size|]; [|rewrite Hv; naive_solver].
    rewrite bail_if_ok, Hv, Z.gtb_ltb, Z.ltb_ge. naive_solver.
  - intros w x rest -> Hl. pose proof (visit_elements_exceeds max w x rest [] Hl) as E1.
    destruct hint as [size|]; [destruct (size >? max); [done|]|]; cbn; by rewrite E1.
Qed.

Lemma visit_seq_bounded_witness :
  is_err (visit_seq 2 None ([Ok 1; Ok 2; Ok 3; Err 0] : list (Result Z Z))) = true.
Proof.
  apply (visit_seq_bounded 2 None ([Ok 1; Ok 2; Ok 3; Err 0] : list (Result Z Z)) ltac:(lia))
    with (w := [1; 2]) (x := 3) (rest := [Err 0]); reflexivity.
Defined.

(** ** Signatures *)

Section KidFacts.
Context {HSha : Sha2} {HSig : MlDsa} {HSign : MlDsaSign} {HCod : Codecs} {HJcs : Jcs}.

Definition is_controller (key : ControllerKey) : bool :=
  eq_ignore_ascii_case (key_type key) (bs "Controller").

(** The attached signature over [separator ++ canonical] verifies under the
    base64url key. *)
Definition b64_signature_valid (separator : bytes) (canonical sig_b64 : option bytes)
    (key_b64 : bytes) : Prop :=
  exists s sig msg pk, sig_b64 = Some s /\ b64url_decode s = Some sig /\
    canonical = Some msg /\ b64url_decode key_b64 = Some pk /\
    verify_signature pk (separator ++ msg) sig = Ok tt.

Definition document_signed_under (d : Document) (key_b64 : bytes) : Prop :=
  b64_signature_valid KID_SEPARATOR (jcs_document (document_unsigned d)) (signature d) key_b64.

Definition manifest_signed_under (m : Manifest) (key_b64 : bytes) : Prop :=
  b64_signature_valid MANIFEST_SEPARATOR (jcs_manifest (manifest_unsigned m)) (m_signature m) key_b64.

Lemma is_ok_unit {E} (r : Result E unit) : is_ok r = true <-> r = Ok tt.
Proof. destruct r as [[]|]; cbn; naive_solver. Qed.

Lemma revocation_accepts_true msg sig rk :
  revocation_accepts msg sig rk = true <->
  exists pk, b64url_decode rk = Some pk /\ verify_signature pk msg sig = Ok tt.
Proof.
  unfold revocation_accepts. destruct (b64url_decode rk); [|naive_solver].
  rewrite is_ok_unit. naive_solver.
Qed.

Lemma existsb_accepts {A} (f : A -> bool) (P : A -> Prop) l :
  (forall x, f x = true <-> P x) -> existsb f l = true <-> exists x, x ∈ l /\ P x.
Proof.
  intros H. rewrite existsb_exists. setoid_rewrite H.
  by setoid_rewrite <- list_elem_of_In.
Qed.

(** The three lookups every verifier starts with. *)
Lemma signed_under_lookup sep canon s sig msg key :
  b64url_decode s = Some sig -> canon = Some msg ->
  b64_signature_valid sep canon (Some s) key <->
  exists pk, b64url_decode key = Some pk /\ verify_signature pk (sep ++ msg) sig = Ok tt.
Proof.
  intros Hd ->. unfold b64_signature_valid. split.
  - intros (? & ? & ? & pk & [= <-] & ? & [= <-] & ? & ?). naive_solver.
  - intros (pk & ? & ?). by exists s, sig, msg, pk.
Qed.

Lemma controllers_accept sep canon s sig msg keys :
  b64url_decode s = Some sig -> canon = Some msg ->
  existsb (controller_accepts (sep ++ msg) sig) keys = true <->
  exists ck, ck ∈ keys /\ is_controller ck = true /\
    b64_signature_valid sep canon (Some s) (public_key ck).
Proof.
  intros Hd Hc. rewrite (existsb_accepts _ (fun ck => is_controller ck = true /\
    b64_signature_valid sep canon (Some s) (public_key ck))); [done|].
  intros ck. unfold controller_accepts.
  rewrite andb_true_iff, revocation_accepts_true, (signed_under_lookup _ _ _ sig msg) by done. done.
Qed.

Lemma revocations_accept sep canon s sig msg keys :
  b64url_decode s = Some sig -> canon = Some msg ->
  existsb (revocation_accepts (sep ++ msg) sig) keys = true <->
  exists rk, rk ∈ keys /\ b64_signature_valid sep canon (Some s) rk.
Proof.
  intros Hd Hc. apply existsb_accepts. intros rk.
  by rewrite revocation_accepts_true, (signed_under_lookup _ _ _ sig msg).
Qed.

(** A missing part makes every signature claim false. *)
Ltac no_signature := unfold b64_signature_valid; naive_solver.

Lemma document_verify_ok d :
  document_verify d = Ok tt <->
  document_check_bounds d = Ok tt /\
  if deactivated d
  then exists rk, rk ∈ revocation_keys d /\ document_signed_under d rk
  else exists ck, ck ∈ controller_keys d /\ is_controller ck = true /\
         document_signed_under d (public_key ck).
Proof.
  unfold document_verify, document_signed_under, document_canonicalize.
  destruct (document_check_bounds d) as [[]|e]; cbn [mbind result_bind]; [|naive_solver].
  destruct (signature d) as [s|]; cbn [ok_or mbind result_bind].
  2:{ split; [done|]. intros [_ H]. exfalso. revert H.
      destruct (deactivated d); no_signature. }
  destruct (b64url_decode s) as [sig|] eqn:Ed; cbn [ok_or mbind result_bind].
  2:{ split; [done|]. intros [_ H]. exfalso. revert H.
      destruct (deactivated d); no_signature. }
  destruct (jcs_document _) as [msg|] eqn:Ej; cbn [ok_or mbind result_bind].
  2:{ split; [done|]. intros [_ H]. exfalso. revert H.
      destruct (deactivated d); no_signature. }
  destruct (deactivated d).
  - rewrite <- (revocations_accept KID_SEPARATOR (Some msg) s sig msg) by done.
    destruct (existsb _ _); naive_solver.
  - rewrite <- (controllers_accept KID_SEPARATOR (Some msg) s sig msg) by done.
    destruct (existsb _ _); naive_solver.
Qed.

(** A document verifies exactly when it respects every size bound and its
    signature, over the namespace separator and the canonical text, is valid
    under one of its own keys: a listed controller key when it is active, a
    listed revocation key when it is deactivated. *)
Theorem document_verify_iff d :
  document_verify d = Ok tt <->
  document_check_bounds d = Ok tt /\
  if deactivated d
  then exists rk, rk ∈ revocation_keys d /\ document_signed_under d rk
  else exists ck, ck ∈ controller_keys d /\ is_controller ck = true /\
         document_signed_under d (public_key ck).
Proof. apply document_verify_ok. Qed.

Lemma document_is_authorized_iff d prev :
  document_is_authorized d prev = true <->
  (exists ck, ck ∈ controller_keys prev /\ is_controller ck = true /\
     document_signed_under d (public_key ck)) \/
  (deactivated d = true /\ exists rk, rk ∈ revocation_keys prev /\ document_signed_under d rk).
Proof.
  unfold document_is_authorized, document_signed_under, document_canonicalize.
  destruct (signature d) as [s|].
  2:{ split; [done|]. no_signature. }
  destruct (b64url_decode s) as [sig|] eqn:Ed.
  2:{ split; [done|]. no_signature. }
  destruct (jcs_document _) as [msg|] eqn:Ej; cbn [ok_or].
  2:{ split; [done|]. no_signature. }
  rewrite <- (revocations_accept KID_SEPARATOR (Some msg) s sig msg) by done.
  rewrite <- (controllers_accept KID_SEPARATOR (Some msg) s sig msg) by done.
  cbv zeta. destruct (existsb (controller_accepts _ _) _), (deactivated d); cbn; naive_solver.
Qed.

(** An update is authorised exactly by a signature under a controller key
    of the previous document, or, for a deactivated update only, under one of
    its revocation keys: a revocation key alone never authorises an active
    document.  Whether the previous document was itself deactivated plays no
    part. *)
Theorem rotation_chain_of_custody d prev :
  (document_is_authorized d prev = true <->
    (exists ck, ck ∈ controller_keys prev /\ is_controller ck = true /\
       document_signed_under d (public_key ck)) \/
    (deactivated d = true /\
       exists rk, rk ∈ revocation_keys prev /\ document_signed_under d rk)) /\
  forall prev', controller_keys prev' = controller_keys prev ->
    revocation_keys prev' = revocation_keys prev ->
    document_is_authorized d prev' = document_is_authorized d prev.
Proof.
  split; [apply document_is_authorized_iff|].
  intros prev' Ec Er. unfold document_is_authorized. by rewrite Ec, Er.
Qed.

Context {HSigLaws : MlDsaSignLaws} {HCodLaws : CodecsLaws}.

(** A fresh signature is valid under every listing of the key. *)
Lemma signed_document_signed_under d k d' key_b64 :
  document_sign d k = Ok d' -> b64url_decode key_b64 = Some (to_public_bytes k) ->
  document_signed_under d' key_b64.
Proof.
  unfold document_sign, document_canonicalize. intros H Hk. invert_ok H.
  injection H as <-. eexists _, _, _, _. split; [done|].
  split; [apply b64url_decode_encode|]. split; [eassumption|]. split; [exact Hk|].
  apply verify_own_signature.
Qed.

Lemma signed_document_fields d k d' :
  document_sign d k = Ok d' -> exists s, d' = document_with_signature d s.
Proof. unfold document_sign. intros H. invert_ok H. injection H as <-. by eexists. Qed.

(** Signing then verifying succeeds.  An active document within the bounds
    that lists the signer as a controller verifies once signed, and it is an
    authorised update of every document that lists the signer. *)
Theorem document_sign_verify d k d' ck :
  document_sign d k = Ok d' -> document_check_bounds d = Ok tt -> deactivated d = false ->
  ck ∈ controller_keys d -> is_controller ck = true ->
  b64url_decode (public_key ck) = Some (to_public_bytes k) ->
  document_verify d' = Ok tt /\
  forall prev, ck ∈ controller_keys prev -> document_is_authorized d' prev = true.
Proof.
  intros Hs Hb Ha Hin Hc Hk. pose proof (signed_document_signed_under _ _ _ _ Hs Hk) as Hu.
  destruct (signed_document_fields _ _ _ Hs) as [s ->]. split.
  - apply document_verify_ok. split; [exact Hb|].
    cbn [deactivated document_with_signature]. rewrite Ha. by exists ck.
  - intros prev Hp. apply document_is_authorized_iff. left. by exists ck.
Qed.

(** The update a holder of one hot key can make of [prev]: deactivated, with
    that key named as its own revocation key. *)
Definition hot_deactivation (prev : Document) (hot : ControllerKey) : Document :=
  {| doc_type := doc_type prev; kid := kid prev; created_at := created_at prev;
     controller_keys := []; manifest_ptr := None; revocation_keys := [public_key hot];
     deactivated := true; signature := None |}.

(** The revocation lockout does not hold.  A single controller ("hot")
    key of a document is enough to produce a deactivated update that verifies
    and is authorised, without any of the document's revocation keys. *)
Theorem hot_key_can_deactivate prev hot k d' :
  hot ∈ controller_keys prev -> is_controller hot = true ->
  len (public_key hot) <= LIMITS_KID_MAX_PUBLIC_KEY_BYTES ->
  b64url_decode (public_key hot) = Some (to_public_bytes k) ->
  document_sign (hot_deactivation prev hot) k = Ok d' ->
  deactivated d' = true /\ document_verify d' = Ok tt /\ document_is_authorized d' prev = true.
Proof.
  intros Hin Hc Hl Hk Hs. pose proof (signed_document_signed_under _ _ _ _ Hs Hk) as Hu.
  destruct (signed_document_fields _ _ _ Hs) as [s ->]. split; [done|].
  split; [|apply document_is_authorized_iff; left; by exists hot].
  apply document_verify_ok. split.
  - unfold document_check_bounds. cbn -[check_revocation_key]. unfold check_revocation_key.
    replace (len (public_key hot) >? _) with false; [done|].
    rewrite Z.gtb_ltb. symmetry. by apply Z.ltb_ge.
  - exists (public_key hot). split; [left|done].
Qed.

(** A manifest is accepted at a time exactly when it names the document's
    DID, the time lies in its window (300 seconds of skew before [valid_from],
    strictly before [expires_at]), the sizes are bounded, and its signature is
    valid under a controller key of the document. *)
Theorem manifest_verify_at_time_iff m doc t :
  t + 300 < 2 ^ 64 -> 0 <= t ->
  manifest_verify_at_time m doc t = Ok tt <->
  len (controller_keys doc) <= 20 /\ m_kid m = kid doc /\
  valid_from m <= t + 300 /\ (forall e, expires_at m = Some e -> t < e) /\
  len (services m) <= 50 /\ Forall (fun s => check_service s = Ok tt) (services m) /\
  exists ck, ck ∈ controller_keys doc /\ is_controller ck = true /\
    manifest_signed_under m (public_key ck).
Proof.
  intros Ht Ht0. unfold manifest_verify_at_time, manifest_signed_under, manifest_canonicalize.
  rewrite wadd64_small by lia. rewrite !bail_if_ok, !Z.gtb_ltb, !Z.ltb_ge, negb_false_iff.
  rewrite bool_decide_eq_true, bind_ok, <- try_for_each_ok.
  assert (He : match expires_at m with Some expires => t >=? expires | None => false end = false <->
    forall e, expires_at m = Some e -> t < e).
  { destruct (expires_at m) as [e|]; [|naive_solver]. rewrite Z.geb_leb, Z.leb_gt. naive_solver. }
  rewrite He. do 5 (apply and_iff_compat_l).
  split.
  - intros ([] & Hs & H). split; [done|].
    apply bind_ok in H as (s & Es & H). apply bind_ok in H as (sig & Ed & H).
    apply bind_ok in H as (msg & Ej & H). apply ok_or_ok in Es, Ed, Ej. rewrite Es, Ej.
    destruct (existsb _ _) eqn:Ex; [|done].
    by apply (controllers_accept MANIFEST_SEPARATOR (Some msg) s sig msg) in Ex.
  - intros (Hs & ck & Hin & Hc & s & sig & msg & pk & Es & Ed & Ej & Ek & Hv).
    exists tt. split; [done|]. rewrite Es. cbn [ok_or mbind result_bind]. rewrite Ed.
    cbn [ok_or mbind result_bind]. rewrite Ej. cbn [ok_or mbind result_bind].
    assert (Ex : existsb (controller_accepts (MANIFEST_SEPARATOR ++ msg) sig)
                   (controller_keys doc) = true).
    { apply (controllers_accept MANIFEST_SEPARATOR (Some msg) s sig msg); [done|done|].
      exists ck. split; [done|]. split; [done|]. by exists s, sig, msg, pk. }
    by rewrite Ex.
Qed.

(** Genesis: the DID is the hash of the primary key, so it is well formed and
    two genesis documents of one DID have keys of the same hash. *)
Lemma verify_genesis_ok d :
  document_verify_genesis d = Ok tt <->
  exists ck rest pk, controller_keys d = ck :: rest /\ b64url_decode (public_key ck) = Some pk /\
    did_id (kid d) = DID_PREFIX ++ hex_lower (sha256 pk).
Proof.
  unfold document_verify_genesis. destruct (controller_keys d) as [|ck rest]; cbn [head ok_or].
  - cbn. naive_solver.
  - cbn [mbind result_bind]. destruct (b64url_decode (public_key ck)) as [pk|] eqn:Ep.
    + cbn [ok_or mbind result_bind]. case_bool_decide as E; cbn.
      * split; [|done]. intros _. by exists ck, rest, pk.
      * split; [done|]. naive_solver.
    + cbn. naive_solver.
Qed.

Context {HShaLaws : Sha2Laws}.

(** The genesis binding.  A document that passes the genesis check carries
    a DID that the parser accepts, and two documents that pass it under the
    same DID have primary keys with the same SHA-256. *)
Theorem genesis_binding d d' :
  document_verify_genesis d = Ok tt -> document_verify_genesis d' = Ok tt ->
  did_new (did_id (kid d)) = Ok (kid d) /\
  (kid d = kid d' -> exists ck rest pk ck' rest' pk',
     controller_keys d = ck :: rest /\ b64url_decode (public_key ck) = Some pk /\
     controller_keys d' = ck' :: rest' /\ b64url_decode (public_key ck') = Some pk' /\
     sha256 pk = sha256 pk').
Proof.
  intros H H'. apply verify_genesis_ok in H as (ck & rest & pk & E1 & E2 & E3).
  apply verify_genesis_ok in H' as (ck' & rest' & pk' & F1 & F2 & F3). split.
  - apply did_new_ok. exists (hex_lower (sha256 pk)). split; [done|]. split.
    + unfold is_did_hex. rewrite hex_lower_chars by apply sha256_digest_wf.
      unfold len. by rewrite length_hex_lower, sha256_digest_length.
    + by destruct (kid d).
  - intros Ek. rewrite Ek, F3 in E3. apply app_inv_head, hex_lower_inj in E3;
      [|apply sha256_digest_wf..]. eauto 12.
Qed.

End KidFacts.

(** ** Witnesses: a toy key [\[7\]] signs by prefixing itself *)

Definition toy_jcs : Jcs := {|
  jcs_document d := Some (did_id (kid d) ++ [created_at d; if deactivated d then 1 else 0]);
  jcs_manifest m := Some (did_id (m_kid m) ++ [version m]) |}.

Definition toy_key : ControllerKey := MkControllerKey (bs "#primary") (bs "controller") [7].
Definition toy_doc : Document :=
  MkDocument (bs "kinetic.kid.v1")
    (MkDid (DID_PREFIX ++ hex_lower (@sha256 Toy.toy_sha2 [7])))
    1000 [toy_key] None [[9]] false None.
Definition toy_signed (d : Document) : Document :=
  match @document_sign Toy.toy_mldsa_sign Toy.toy_codecs toy_jcs d [7] with
  | Ok d' => d' | Err _ => d end.
Definition toy_manifest : Manifest :=
  MkManifest (bs "kinetic.manifest.v1") (kid toy_doc) 1 1000 (Some 2000) [] None.
Definition toy_signed_manifest : Manifest :=
  match @manifest_sign Toy.toy_mldsa_sign Toy.toy_codecs toy_jcs toy_manifest [7] with
  | Ok m => m | Err _ => toy_manifest end.

Lemma document_sign_verify_witness :
  @document_verify Toy.toy_mldsa Toy.toy_codecs toy_jcs (toy_signed toy_doc) = Ok tt /\
  forall prev, toy_key ∈ controller_keys prev ->
    @document_is_authorized Toy.toy_mldsa Toy.toy_codecs toy_jcs (toy_signed toy_doc) prev = true.
Proof.
  apply (@document_sign_verify Toy.toy_mldsa Toy.toy_mldsa_sign Toy.toy_codecs toy_jcs
    Toy.toy_mldsa_sign_laws Toy.toy_codecs_laws toy_doc [7] (toy_signed toy_doc) toy_key);
    [vm_compute; reflexivity|vm_compute; reflexivity|reflexivity|
     left|vm_compute; reflexivity|reflexivity].
Defined.

Lemma hot_key_can_deactivate_witness :
  let d' := toy_signed (hot_deactivation toy_doc toy_key) in
  deactivated d' = true /\
  @document_verify Toy.toy_mldsa Toy.toy_codecs toy_jcs d' = Ok tt /\
  @document_is_authorized Toy.toy_mldsa Toy.toy_codecs toy_jcs d' toy_doc = true.
Proof.
  apply (@hot_key_can_deactivate Toy.toy_mldsa Toy.toy_mldsa_sign Toy.toy_codecs toy_jcs
    Toy.toy_mldsa_sign_laws Toy.toy_codecs_laws toy_doc toy_key [7]);
    [left|vm_compute; reflexivity|vm_compute; discriminate|reflexivity|vm_compute; reflexivity].
Defined.

Lemma manifest_verify_at_time_iff_witness :
  valid_from toy_signed_manifest <= 1500 + 300.
Proof.
  apply (@manifest_verify_at_time_iff Toy.toy_mldsa Toy.toy_codecs toy_jcs
    toy_signed_manifest toy_doc 1500); [lia|lia|vm_compute; reflexivity].
Defined.

Lemma genesis_binding_witness :
  did_new (did_id (kid toy_doc)) = Ok (kid toy_doc).
Proof.
  apply (@genesis_binding Toy.toy_sha2 Toy.toy_codecs Toy.toy_sha2_laws toy_doc toy_doc);
    vm_compute; reflexivity.
Defined.

Lemma rotation_chain_of_custody_witness :
  @document_is_authorized Toy.toy_mldsa Toy.toy_codecs toy_jcs (toy_signed toy_doc)
    (hot_deactivation toy_doc toy_key)
  = @document_is_authorized Toy.toy_mldsa Toy.toy_codecs toy_jcs (toy_signed toy_doc)
    (MkDocument [] (kid toy_doc) 0 [] None [[7]] false None).
Proof.
  apply (proj2 (@rotation_chain_of_custody Toy.toy_mldsa Toy.toy_codecs toy_jcs
    (toy_signed toy_doc) (MkDocument [] (kid toy_doc) 0 [] None [[7]] false None)));
    reflexivity.
Defined.
