(* ===== verification/Records.v ===== *)
(** * Wire records ([kinetic-types])

    [vdf.rs], [name_record.rs], [nrs.rs], [identity.rs], [action.rs] and
    [network.rs]: commitments, reveals, heartbeats, host routes, identity
    attachments and sovereign actions, with their canonical byte layouts and
    the DHT key derivation. *)
From Stdlib Require Import String.
From S2P Require Import Prelude Bytes Config Crypto Names Kid.

(** ** [vdf.rs] *)

(** [Commitment::derive]: the preimage and its hash. *)
Definition commitment_preimage `{Sha2} (network_salt name user_salt beacon_signature_bytes pubkey : bytes)
  : bytes :=
  let drand_rand := sha256 beacon_signature_bytes in
  network_salt ++ name ++ user_salt ++ drand_rand ++ pubkey.

Definition commitment_derive `{Sha2} (network_salt name user_salt beacon_signature_bytes pubkey : bytes)
  : bytes :=
  sha256 (commitment_preimage network_salt name user_salt beacon_signature_bytes pubkey).

Record PreviousProof := MkPreviousProof {
  pp_salt : bytes;
  pp_kyn : Z;
  pp_beacon_signature : bytes;
  pp_iterations : Z;
  pp_vdf_proof : bytes;
  pp_identity_signature : bytes }.

Definition previous_proof_body (p : PreviousProof) : bytes :=
  pp_salt p ++ u64_be (pp_kyn p) ++ frame (pp_beacon_signature p) ++
  u64_be (pp_iterations p) ++ frame (pp_vdf_proof p).

Definition previous_proof_bytes (p : PreviousProof) (network_salt : bytes) : bytes :=
  network_salt ++ bs "vdf-prev-proof-v1" ++
  pp_salt p ++ u64_be (pp_kyn p) ++ frame (pp_beacon_signature p) ++
  u64_be (pp_iterations p) ++ frame (pp_vdf_proof p) ++ frame (pp_identity_signature p).

Definition previous_proof_signable_bytes (p : PreviousProof) (network_salt : bytes) : bytes :=
  network_salt ++ bs "vdf-prev-v1" ++
  pp_salt p ++ u64_be (pp_kyn p) ++ frame (pp_beacon_signature p) ++
  u64_be (pp_iterations p) ++ frame (pp_vdf_proof p).

(** [identity.rs] *)
Record AuthorizedKid := MkAuthorizedKid {
  ak_name : bytes; ak_kid_doc : Document; ak_owner_signature : bytes }.

Record AuthorizedManifest := MkAuthorizedManifest {
  am_name : bytes;
  am_manifest : Manifest;
  am_kid_doc : option Document;
  am_owner_signature : bytes }.

Record Reveal := MkReveal {
  protocol_version : Z;
  rv_name : bytes;
  rv_embedded_nrs : bytes;
  rv_salt : bytes;
  rv_kyn : Z;
  rv_beacon_signature : bytes;
  rv_iterations : Z;
  rv_vdf_proof : bytes;
  rv_pubkey : bytes;
  rv_identity_signature : bytes;
  rv_authorization : option AuthorizedManifest;
  rv_previous_proof : option PreviousProof }.

#[export] Instance PreviousProof_eq_dec : EqDecision PreviousProof.
Proof. solve_decision. Defined.
#[export] Instance AuthorizedManifest_eq_dec : EqDecision AuthorizedManifest.
Proof. solve_decision. Defined.
#[export] Instance Reveal_eq_dec : EqDecision Reveal.
Proof. solve_decision. Defined.

Definition reveal_signable_bytes (r : Reveal) (network_salt : bytes) : bytes :=
  network_salt ++ bs "vdf-reveal-v1" ++ [protocol_version r] ++
  frame (rv_name r) ++ frame (rv_embedded_nrs r) ++
  rv_salt r ++ u64_be (rv_kyn r) ++ frame (rv_beacon_signature r) ++
  u64_be (rv_iterations r) ++ frame (rv_vdf_proof r) ++ frame (rv_pubkey r) ++
  match rv_previous_proof r with
  | Some p => [1] ++ frame (previous_proof_bytes p network_salt)
  | None => [0]
  end.

Section Identity.
Context {HJcs : Jcs}.

(** [canonicalize().unwrap_or_default()] *)
Definition canon_or_default (r : Result KidError bytes) : bytes :=
  match r with Ok s => s | Err _ => [] end.

Definition auth_kid_signable_bytes (a : AuthorizedKid) (network_salt : bytes) : bytes :=
  let canon_bytes := canon_or_default (document_canonicalize (ak_kid_doc a)) in
  network_salt ++ bs "-auth-kid-v1" ++ frame (ak_name a) ++ frame canon_bytes.

Definition auth_manifest_signable_bytes (a : AuthorizedManifest) (network_salt : bytes) : bytes :=
  let canon_bytes := canon_or_default (manifest_canonicalize (am_manifest a)) in
  network_salt ++ bs "-auth-manifest-v1" ++ frame (am_name a) ++ frame canon_bytes.

End Identity.

(** ** [name_record.rs] *)

Record Heartbeat := MkHeartbeat {
  hb_name : bytes;
  latest_kyn : Z;
  hb_owner_signature : bytes;
  hb_authorization : option AuthorizedManifest }.

#[export] Instance Heartbeat_eq_dec : EqDecision Heartbeat.
Proof. solve_decision. Defined.

Definition heartbeat_signable_bytes (h : Heartbeat) (network_salt : bytes) : bytes :=
  network_salt ++ bs "-heartbeat-v1" ++ frame (hb_name h) ++ u64_be (latest_kyn h) ++
  match hb_authorization h with
  | Some auth => [1] ++ frame (am_owner_signature auth)
  | None => [0]
  end.

Inductive NameEnvelope := Standard (r : Reveal).

#[export] Instance NameEnvelope_eq_dec : EqDecision NameEnvelope.
Proof. solve_decision. Defined.

Definition envelope_name (e : NameEnvelope) : bytes := let '(Standard r) := e in rv_name r.
Definition envelope_pubkey (e : NameEnvelope) : bytes := let '(Standard r) := e in rv_pubkey r.
Definition envelope_embedded_nrs (e : NameEnvelope) : bytes :=
  let '(Standard r) := e in rv_embedded_nrs r.
Definition envelope_signature (e : NameEnvelope) : bytes :=
  let '(Standard r) := e in rv_identity_signature r.
Definition envelope_authorization (e : NameEnvelope) : option AuthorizedManifest :=
  let '(Standard r) := e in rv_authorization r.

Definition M_REDUNDANCY : nat := 32.

Section Keys.
Context {HUni : UnicodeCase} {HSha : Sha2}.

(** The [normalize_name] of [name_record.rs], which adds no suffix. *)
Definition record_normalize_name (name : bytes) : bytes := trim_dots (to_lowercase name).

Definition key_preimage (tag network_salt name : bytes) (i : nat) : bytes :=
  network_salt ++ tag ++ record_normalize_name name ++ [Z.of_nat i].

Definition derive_storage_keys (name network_salt : bytes) : list bytes :=
  map (fun i => sha256 (key_preimage (bs "storage") network_salt name i)) (seq 0 M_REDUNDANCY).

Definition derive_heartbeat_keys (name network_salt : bytes) : list bytes :=
  map (fun i => sha256 (key_preimage (bs "heartbeat") network_salt name i)) (seq 0 M_REDUNDANCY).

End Keys.

(** ** [nrs.rs] *)

Record HostRoute := MkHostRoute {
  host_id : bytes; current_peer_id : bytes; hr_kyn : Z; host_signature : bytes }.

Definition host_route_signable_bytes (h : HostRoute) (network_salt : bytes) : bytes :=
  network_salt ++ bs "-nrs-routing-v1" ++ frame (host_id h) ++ frame (current_peer_id h) ++
  u64_be (hr_kyn h).

(** ** [action.rs] *)

Inductive NetworkAction :=
  | RotateSovereignKey (new_key : bytes)
  | EmergencyHalt
  | EmergencyResume.

Record SignedNetworkAction := MkSignedNetworkAction {
  sna_action : NetworkAction;
  timestamp_kyn : Z;
  sovereign_signatures : list bytes }.

#[export] Instance NetworkAction_eq_dec : EqDecision NetworkAction.
Proof. solve_decision. Defined.
#[export] Instance SignedNetworkAction_eq_dec : EqDecision SignedNetworkAction.
Proof. solve_decision. Defined.

Definition action_payload (a : NetworkAction) : bytes :=
  match a with
  | RotateSovereignKey new_key => 11 :: new_key
  | EmergencyHalt => [12]
  | EmergencyResume => [13]
  end.

Definition action_to_bytes (m : SignedNetworkAction) : bytes :=
  action_payload (sna_action m) ++ u64_be (timestamp_kyn m).

Inductive ActionParseError :=
  | BufferTooSmall
  | UnknownOpcode (opcode : Z)
  | InvalidPubkeyLength.

Definition parse_payload (b : bytes) : Result ActionParseError (NetworkAction * Z) :=
  bail_if (len b <? 9) BufferTooSmall;;
  let timestamp_kyn := be_val (drop (length b - 8) b) in
  let payload := take (length b - 8) b in
  match payload with
  | [] => Err BufferTooSmall
  | opcode :: action_data =>
      if opcode =? 11 then
        bail_if (negb (len action_data =? KINETIC_PUBKEY_LENGTH)) InvalidPubkeyLength;;
        Ok (RotateSovereignKey action_data, timestamp_kyn)
      else if opcode =? 12 then Ok (EmergencyHalt, timestamp_kyn)
      else if opcode =? 13 then Ok (EmergencyResume, timestamp_kyn)
      else Err (UnknownOpcode opcode)
  end.

(** ** [network.rs] *)

Inductive NetworkOpcode := OpAction | OpKyn | OpTelemetry.

Definition opcode_byte (o : NetworkOpcode) : Z :=
  match o with OpAction => 1 | OpKyn => 2 | OpTelemetry => 3 end.

Definition opcode_from_u8 (val : Z) : option NetworkOpcode :=
  if val =? 1 then Some OpAction
  else if val =? 2 then Some OpKyn
  else if val =? 3 then Some OpTelemetry
  else None.

(** ** Injectivity of the layouts *)

Lemma app_inj_salt (a b c d : bytes) :
  length a = 32%nat -> length b = 32%nat -> a ++ c = b ++ d -> a = b /\ c = d.
Proof. intros Ha Hb. apply app_inj_len. congruence. Qed.

(** Peel one fixed-width or framed field off both sides of [E]. *)
Ltac peel E :=
  first
    [ apply frame_inj in E as [? E]; [|lia..]
    | apply u64_be_app_inj in E as [? E]; [|assumption..]
    | apply app_inj_salt in E as [? E]; [|assumption..]
    | apply app_inj_len in E as [? E]; [|reflexivity] ].

Record previous_proof_ok (p : PreviousProof) : Prop := {
  ppo_salt : length (pp_salt p) = 32%nat;
  ppo_kyn : is_u64 (pp_kyn p);
  ppo_iterations : is_u64 (pp_iterations p);
  ppo_beacon : len (pp_beacon_signature p) < 2 ^ 32;
  ppo_proof : len (pp_vdf_proof p) < 2 ^ 32;
  ppo_sig : len (pp_identity_signature p) < 2 ^ 32 }.

Lemma previous_proof_bytes_inj p q ns ns' :
  previous_proof_ok p -> previous_proof_ok q ->
  length ns = 32%nat -> length ns' = 32%nat ->
  previous_proof_bytes p ns = previous_proof_bytes q ns' -> p = q /\ ns = ns'.
Proof.
  intros [] [] Hn Hn' E. unfold previous_proof_bytes in E.
  do 7 peel E. rewrite <- (app_nil_r (frame (pp_identity_signature p))) in E.
  rewrite <- (app_nil_r (frame (pp_identity_signature q))) in E. peel E.
  split; [|done]. destruct p, q; cbn in *; congruence.
Qed.

Record reveal_ok (r : Reveal) : Prop := {
  ro_name : len (rv_name r) < 2 ^ 32;
  ro_nrs : len (rv_embedded_nrs r) < 2 ^ 32;
  ro_salt : length (rv_salt r) = 32%nat;
  ro_kyn : is_u64 (rv_kyn r);
  ro_beacon : len (rv_beacon_signature r) < 2 ^ 32;
  ro_iterations : is_u64 (rv_iterations r);
  ro_proof : len (rv_vdf_proof r) < 2 ^ 32;
  ro_pubkey : len (rv_pubkey r) < 2 ^ 32;
  ro_prev : forall p, rv_previous_proof r = Some p -> previous_proof_ok p /\
    forall ns, length ns = 32%nat -> len (previous_proof_bytes p ns) < 2 ^ 32 }.

(** Everything of a reveal but its signature and its authorization. *)
Definition reveal_unsigned (r : Reveal) : Reveal :=
  {| protocol_version := protocol_version r; rv_name := rv_name r;
     rv_embedded_nrs := rv_embedded_nrs r; rv_salt := rv_salt r; rv_kyn := rv_kyn r;
     rv_beacon_signature := rv_beacon_signature r; rv_iterations := rv_iterations r;
     rv_vdf_proof := rv_vdf_proof r; rv_pubkey := rv_pubkey r;
     rv_identity_signature := []; rv_authorization := None;
     rv_previous_proof := rv_previous_proof r |}.

(** C28: the signed bytes of a reveal determine the network and every field of
    the reveal except the signature itself and the attached authorization, the
    chained previous proof included. *)
Theorem reveal_signable_bytes_inj r r' ns ns' :
  reveal_ok r -> reveal_ok r' -> length ns = 32%nat -> length ns' = 32%nat ->
  reveal_signable_bytes r ns = reveal_signable_bytes r' ns' ->
  ns = ns' /\ reveal_unsigned r = reveal_unsigned r'.
Proof.
  intros [] [] Hn Hn' E. unfold reveal_signable_bytes in E.
  do 11 peel E. split; [done|].
  assert (rv_previous_proof r = rv_previous_proof r').
  { destruct (rv_previous_proof r) as [p|], (rv_previous_proof r') as [q|]; try done.
    peel E. destruct (ro_prev0 p eq_refl) as [Hp Hlp], (ro_prev1 q eq_refl) as [Hq Hlq].
    rewrite <- (app_nil_r (frame (previous_proof_bytes p _))) in E.
    rewrite <- (app_nil_r (frame (previous_proof_bytes q _))) in E.
    apply frame_inj in E as [E _]; [|by auto..].
    apply previous_proof_bytes_inj in E as [-> _]; done. }
  unfold reveal_unsigned. congruence.
Qed.

(** Whatever the other fields are. *)
Lemma reveal_signable_bytes_name r r' ns :
  len (rv_name r) < 2 ^ 32 -> len (rv_name r') < 2 ^ 32 ->
  reveal_signable_bytes r ns = reveal_signable_bytes r' ns -> rv_name r = rv_name r'.
Proof.
  intros Hr Hr' E. unfold reveal_signable_bytes in E. apply app_inv_head in E. do 3 peel E. done.
Qed.

(** ** Domain separation *)

(** The payloads an identity, controller or delegated key signs. *)
Inductive Signable :=
  | SignReveal (r : Reveal)
  | SignPreviousProof (p : PreviousProof)
  | SignHeartbeat (h : Heartbeat)
  | SignHostRoute (h : HostRoute)
  | SignAuthKid (a : AuthorizedKid)
  | SignAuthManifest (a : AuthorizedManifest).

Definition signable_tag (s : Signable) : bytes :=
  match s with
  | SignReveal _ => bs "vdf-reveal-v1"
  | SignPreviousProof _ => bs "vdf-prev-v1"
  | SignHeartbeat _ => bs "-heartbeat-v1"
  | SignHostRoute _ => bs "-nrs-routing-v1"
  | SignAuthKid _ => bs "-auth-kid-v1"
  | SignAuthManifest _ => bs "-auth-manifest-v1"
  end.

Definition signable_bytes `{Jcs} (s : Signable) (network_salt : bytes) : bytes :=
  match s with
  | SignReveal r => reveal_signable_bytes r network_salt
  | SignPreviousProof p => previous_proof_signable_bytes p network_salt
  | SignHeartbeat h => heartbeat_signable_bytes h network_salt
  | SignHostRoute h => host_route_signable_bytes h network_salt
  | SignAuthKid a => auth_kid_signable_bytes a network_salt
  | SignAuthManifest a => auth_manifest_signable_bytes a network_salt
  end.

Lemma signable_bytes_tag `{Jcs} s ns :
  exists rest, signable_bytes s ns = ns ++ signable_tag s ++ rest.
Proof. destruct s; eexists; reflexivity. Qed.

Lemma tags_prefix_free s s' rest rest' :
  signable_tag s ++ rest = signable_tag s' ++ rest' -> signable_tag s = signable_tag s'.
Proof. destruct s, s'; try done; intros E; vm_compute in E; exfalso; congruence. Qed.

Lemma signable_bytes_kind `{Jcs} s s' ns : signable_bytes s ns = signable_bytes s' ns -> signable_tag s = signable_tag s'.
Proof.
  destruct (signable_bytes_tag s ns) as [rest ->], (signable_bytes_tag s' ns) as [rest' ->].
  intros E%app_inv_head. by apply tags_prefix_free in E.
Qed.

(** Signed payloads are separated by network and by kind: two payloads
    with the same bytes were built for the same network salt and are of the
    same kind, so a signature is never valid for a record of another kind or
    on another network. *)
Theorem signable_domain_separation `{Jcs} s s' ns ns' :
  length ns = 32%nat -> length ns' = 32%nat ->
  signable_bytes s ns = signable_bytes s' ns' ->
  ns = ns' /\ signable_tag s = signable_tag s'.
Proof.
  intros Hn Hn' E. destruct (signable_bytes_tag s ns) as [rest Hs].
  destruct (signable_bytes_tag s' ns') as [rest' Hs']. rewrite Hs, Hs' in E.
  peel E. split; [done|]. by apply tags_prefix_free in E.
Qed.

(** The fields of the other payloads. *)
Lemma heartbeat_signable_bytes_inj h h' ns ns' :
  len (hb_name h) < 2 ^ 32 -> len (hb_name h') < 2 ^ 32 ->
  is_u64 (latest_kyn h) -> is_u64 (latest_kyn h') ->
  length ns = 32%nat -> length ns' = 32%nat ->
  heartbeat_signable_bytes h ns = heartbeat_signable_bytes h' ns' ->
  ns = ns' /\ hb_name h = hb_name h' /\ latest_kyn h = latest_kyn h'.
Proof.
  intros ?????? E. unfold heartbeat_signable_bytes in E. do 4 peel E. done.
Qed.

Lemma host_route_signable_bytes_inj h h' ns ns' :
  len (host_id h) < 2 ^ 32 -> len (host_id h') < 2 ^ 32 ->
  len (current_peer_id h) < 2 ^ 32 -> len (current_peer_id h') < 2 ^ 32 ->
  is_u64 (hr_kyn h) -> is_u64 (hr_kyn h') ->
  length ns = 32%nat -> length ns' = 32%nat ->
  host_route_signable_bytes h ns = host_route_signable_bytes h' ns' ->
  ns = ns' /\ host_id h = host_id h' /\ current_peer_id h = current_peer_id h' /\ hr_kyn h = hr_kyn h'.
Proof.
  intros ???????? E. unfold host_route_signable_bytes in E. do 4 peel E. apply u64_be_inj in E; done.
Qed.

(** ** Keys and commitments *)

Section KeyFacts.
Context {HUni : UnicodeCase} {HSha : Sha2}.

(** Two different inputs with one digest. *)
Definition sha256_collision : Prop := exists a b, a <> b /\ sha256 a = sha256 b.

Lemma sha256_eq a b : sha256 a = sha256 b -> a = b \/ sha256_collision.
Proof. intros E. destruct (decide (a = b)); [by left|right; by exists a, b]. Qed.

Lemma key_preimage_inj tag tag' ns ns' name name' i i' :
  length ns = 32%nat -> length ns' = 32%nat ->
  tag ∈ [bs "storage"; bs "heartbeat"] -> tag' ∈ [bs "storage"; bs "heartbeat"] ->
  key_preimage tag ns name i = key_preimage tag' ns' name' i' ->
  tag = tag' /\ ns = ns' /\ record_normalize_name name = record_normalize_name name' /\ i = i'.
Proof.
  intros Hn Hn' Ht Ht' E. unfold key_preimage in E. peel E.
  assert (tag = tag') as <-.
  { rewrite !elem_of_cons in Ht, Ht'.
    destruct Ht as [->|[->|Ht]], Ht' as [->|[->|Ht']]; try done; try set_solver;
      vm_compute in E; congruence. }
  apply app_inv_head in E. apply app_inj_2 in E as [-> E]; [|done].
  injection E as E. repeat split; auto. lia.
Qed.

(** The keys of a name under one tag. *)
Definition redundant_keys (tag name ns : bytes) : list bytes :=
  map (fun i => sha256 (key_preimage tag ns name i)) (seq 0 M_REDUNDANCY).

Lemma redundant_keys_lookup tag name ns i k :
  redundant_keys tag name ns !! i = Some k <->
  (i < M_REDUNDANCY)%nat /\ k = sha256 (key_preimage tag ns name i).
Proof.
  unfold redundant_keys. rewrite list_lookup_fmap, fmap_Some. split.
  - intros (j & Hj & ->). apply lookup_seq in Hj as [-> ?]. done.
  - intros [Hi ->]. exists i. split; [|done]. by apply lookup_seq.
Qed.

(** Unless SHA-256 collides, the 32 storage keys and the 32 heartbeat keys
    of a name are 64 distinct keys, and two names, networks or purposes share a
    key exactly when the normalised names, networks and purposes agree. *)
Theorem derived_keys_distinct tag tag' name name' ns ns' i i' k k' :
  tag ∈ [bs "storage"; bs "heartbeat"] -> tag' ∈ [bs "storage"; bs "heartbeat"] ->
  length ns = 32%nat -> length ns' = 32%nat ->
  redundant_keys tag name ns !! i = Some k -> redundant_keys tag' name' ns' !! i' = Some k' ->
  (k = k' -> (tag = tag' /\ ns = ns' /\ i = i' /\
              record_normalize_name name = record_normalize_name name') \/ sha256_collision) /\
  (record_normalize_name name = record_normalize_name name' ->
   redundant_keys tag name ns = redundant_keys tag name' ns) /\
  derive_storage_keys name ns = redundant_keys (bs "storage") name ns /\
  derive_heartbeat_keys name ns = redundant_keys (bs "heartbeat") name ns.
Proof.
  intros Ht Ht' Hn Hn' Hk Hk'. apply redundant_keys_lookup in Hk as [_ ->].
  apply redundant_keys_lookup in Hk' as [_ ->]. split; [|split; [|done]].
  - intros E. apply sha256_eq in E as [E|E]; [left|by right].
    apply key_preimage_inj in E; naive_solver.
  - intros E. unfold redundant_keys, key_preimage. by rewrite E.
Qed.

Lemma derive_keys_count name ns :
  length (derive_storage_keys name ns) = M_REDUNDANCY /\
  length (derive_heartbeat_keys name ns) = M_REDUNDANCY.
Proof. split; apply length_map. Qed.

Context {HShaLaws : Sha2Laws}.

(** A commitment binds: unless SHA-256 collides, equal commitments of keys
    of one length have the same network, name, salt, beacon signature and key.
    The name and the key are not framed, so the equal length is needed. *)
Theorem commitment_binding ns ns' name name' salt salt' sig sig' pk pk' :
  length ns = 32%nat -> length ns' = 32%nat ->
  length salt = 32%nat -> length salt' = 32%nat -> length pk = length pk' ->
  commitment_derive ns name salt sig pk = commitment_derive ns' name' salt' sig' pk' ->
  (ns = ns' /\ name = name' /\ salt = salt' /\ sig = sig' /\ pk = pk') \/ sha256_collision.
Proof.
  intros Hn Hn' Hs Hs' Hp E. unfold commitment_derive in E.
  apply sha256_eq in E as [E|E]; [|by right]. unfold commitment_preimage in E. peel E.
  assert (Hd : forall m, length (sha256 m) = 32%nat) by apply sha256_digest_length.
  apply app_inj_2 in E as [-> E]; [|rewrite !length_app, !Hd; lia]. peel E.
  apply app_inj_len in E as [E ->]; [|by rewrite !Hd].
  apply sha256_eq in E as [->|E]; [|by right]. left. by subst.
Qed.

End KeyFacts.

(** ** Sovereign actions *)

Definition action_ok (a : NetworkAction) : Prop :=
  match a with RotateSovereignKey k => len k = KINETIC_PUBKEY_LENGTH | _ => True end.

Lemma parse_split (p : bytes) (t : Z) :
  take (length (p ++ u64_be t) - 8) (p ++ u64_be t) = p /\
  drop (length (p ++ u64_be t) - 8) (p ++ u64_be t) = u64_be t.
Proof.
  rewrite length_app, length_u64_be, Nat.add_sub.
  by rewrite take_app_length, drop_app_length.
Qed.

(** Parsing inverts serialisation, and what the parser accepts is exactly
    an opcode with its data followed by the timestamp, where a rotation carries
    nothing but the key while a halt or resume may carry any ignored bytes. *)
Theorem parse_payload_iff b a t :
  wf_bytes b ->
  parse_payload b = Ok (a, t) <->
  exists junk, b = action_payload a ++ junk ++ u64_be t /\ is_u64 t /\ action_ok a /\
    (match a with RotateSovereignKey _ => junk = [] | _ => True end).
Proof.
  intros Hw. unfold parse_payload. split.
  - rewrite bail_if_ok. intros [Hl H]. zbool. cbv zeta in H.
    set (n := (length b - 8)%nat) in *.
    assert (Hd : length (drop n b) = 8%nat) by (unfold len in Hl; rewrite length_drop; lia).
    assert (Hwd : wf_bytes (drop n b)) by by apply Forall_drop.
    assert (Ht : drop n b = u64_be (be_val (drop n b))).
    { unfold u64_be. rewrite <- Hd. symmetry. by apply be_bytes_be_val. }
    assert (Hu : is_u64 (be_val (drop n b))).
    { pose proof (be_val_bounds _ Hwd) as Hb. unfold len in Hb. by rewrite Hd in Hb. }
    assert (Eb : b = take n b ++ drop n b) by by rewrite take_drop.
    destruct (take n b) as [|op data]; [done|].
    destruct (op =? 11) eqn:E11; zbool; [subst op|].
    { rewrite bail_if_ok in H. destruct H as [Hk [= <- <-]]. zbool.
      exists []. rewrite Eb, Ht at 1. rewrite <- Ht. done. }
    destruct (op =? 12) eqn:E12; zbool; [subst op; injection H as <- <-|].
    { exists data. rewrite Eb, Ht at 1. rewrite <- Ht. done. }
    destruct (op =? 13) eqn:E13; zbool; [subst op; injection H as <- <-|done].
    exists data. rewrite Eb, Ht at 1. rewrite <- Ht. done.
  - intros (junk & -> & Ht & Ha & Hj). rewrite bail_if_ok. split.
    { apply Z.ltb_ge. rewrite !len_app. pose proof (len_nonneg junk).
      unfold len at 3. rewrite length_u64_be. destruct a as [k| |]; cbn [action_payload];
        rewrite len_cons; try rewrite len_nil; try pose proof (len_nonneg k); lia. }
    cbv zeta. rewrite app_assoc. destruct (parse_split (action_payload a ++ junk) t) as [-> ->].
    rewrite be_val_u64_be by done. destruct a as [k| |]; cbn [action_payload app].
    + subst junk. rewrite app_nil_r. cbn in Ha. by rewrite Ha.
    + done.
    + done.
Qed.

(** ** Witnesses *)

Definition toy_salt (b : Z) : bytes := replicate 32 b.
Definition toy_prev : PreviousProof := MkPreviousProof (toy_salt 2) 12345 (bs "dead") 1000 [1; 2] [5].
Definition toy_reveal : Reveal :=
  MkReveal 1 (bs "alice.kin") [7] (toy_salt 3) 20000 (bs "beef") 2000 [9; 9] [4] [8] None (Some toy_prev).
Definition toy_reveal' : Reveal :=
  MkReveal 1 (bs "alice.kin") [7] (toy_salt 3) 20000 (bs "beef") 2000 [9; 9] [4] [6] None (Some toy_prev).

Lemma len_concrete (l : bytes) (n : Z) : (len l <? n) = true -> len l < n.
Proof. apply Z.ltb_lt. Qed.

Lemma u64_concrete x : bool_decide (is_u64 x) = true -> is_u64 x.
Proof. apply bool_decide_eq_true_1. Qed.

Ltac concrete_bounds :=
  first [ apply len_concrete; vm_compute; reflexivity
        | apply u64_concrete; vm_compute; reflexivity
        | reflexivity ].

Lemma toy_prev_ok : previous_proof_ok toy_prev.
Proof. constructor; concrete_bounds. Qed.

Lemma toy_prev_len ns : length ns = 32%nat -> len (previous_proof_bytes toy_prev ns) < 2 ^ 32.
Proof.
  intros Hns. unfold previous_proof_bytes. rewrite len_app. unfold len at 1. rewrite Hns.
  set (rest := bs _ ++ _). assert (E : len rest = 84) by (vm_compute; reflexivity). rewrite E. lia.
Qed.

Lemma toy_reveal_ok : reveal_ok toy_reveal /\ reveal_ok toy_reveal'.
Proof.
  assert (Hp : forall p, Some toy_prev = Some p -> previous_proof_ok p /\
    forall ns, length ns = 32%nat -> len (previous_proof_bytes p ns) < 2 ^ 32).
  { intros p [= <-]. split; [apply toy_prev_ok|apply toy_prev_len]. }
  split; constructor; try exact Hp; concrete_bounds.
Qed.

Lemma reveal_signable_bytes_inj_witness :
  toy_salt 1 = toy_salt 1 /\ reveal_unsigned toy_reveal = reveal_unsigned toy_reveal'.
Proof.
  apply (reveal_signable_bytes_inj toy_reveal toy_reveal' (toy_salt 1) (toy_salt 1));
    [apply toy_reveal_ok|apply toy_reveal_ok|reflexivity|reflexivity|vm_compute; reflexivity].
Defined.

Lemma signable_domain_separation_witness :
  toy_salt 1 = toy_salt 1 /\
  signable_tag (SignReveal toy_reveal) = signable_tag (SignReveal toy_reveal').
Proof.
  apply (@signable_domain_separation toy_jcs (SignReveal toy_reveal) (SignReveal toy_reveal')
    (toy_salt 1) (toy_salt 1)); [reflexivity|reflexivity|vm_compute; reflexivity].
Defined.

Lemma derived_keys_distinct_witness :
  @derive_storage_keys ascii_only Toy.toy_sha2 (bs "Alice.kin.") (toy_salt 1)
  = @redundant_keys ascii_only Toy.toy_sha2 (bs "storage") (bs "Alice.kin.") (toy_salt 1) /\
  @redundant_keys ascii_only Toy.toy_sha2 (bs "storage") (bs "Alice.kin.") (toy_salt 1)
  = @redundant_keys ascii_only Toy.toy_sha2 (bs "storage") (bs "alice.kin") (toy_salt 1).
Proof.
  pose proof (@derived_keys_distinct ascii_only Toy.toy_sha2 (bs "storage") (bs "heartbeat")
    (bs "Alice.kin.") (bs "alice.kin") (toy_salt 1) (toy_salt 1) 0 31
    (sha256 (H := Toy.toy_sha2) (@key_preimage ascii_only (bs "storage") (toy_salt 1) (bs "Alice.kin.") 0))
    (sha256 (H := Toy.toy_sha2) (@key_preimage ascii_only (bs "heartbeat") (toy_salt 1) (bs "alice.kin") 31))
    ltac:(left) ltac:(right; left) eq_refl eq_refl eq_refl eq_refl) as (_ & H & E & _).
  split; [exact E|]. apply H. vm_compute. reflexivity.
Defined.

Lemma commitment_binding_witness :
  (toy_salt 1 = toy_salt 1 /\ bs "a" = bs "a" /\ toy_salt 2 = toy_salt 2 /\ [3] = [3] /\ [4] = [4]) \/
  @sha256_collision Toy.toy_sha2.
Proof.
  apply (@commitment_binding Toy.toy_sha2 Toy.toy_sha2_laws (toy_salt 1) (toy_salt 1) (bs "a") (bs "a")
    (toy_salt 2) (toy_salt 2) [3] [3] [4] [4]); reflexivity.
Defined.

Lemma parse_payload_iff_witness :
  parse_payload [12; 255; 0; 0; 0; 0; 0; 0; 0; 42] = Ok (EmergencyHalt, 42).
Proof.
  apply (parse_payload_iff [12; 255; 0; 0; 0; 0; 0; 0; 0; 42] EmergencyHalt 42).
  - repeat (constructor; [split; vm_compute; congruence|]). constructor.
  - exists [255]. split; [vm_compute; reflexivity|]. split; [split; vm_compute; congruence|]. done.
Defined.
