(* ===== verification/Action.v ===== *)
(** * Sovereign actions ([kinetic-action])

    [types.rs], [logic.rs], [engine/] and [error.rs]: the persistent action
    state, the two engines behind one interface, the processing of a signed
    action, and the pause accounting. *)
From Stdlib Require Import String Sorting.Sorted.
From S2P Require Import Prelude Bytes Config Crypto Kid Records.

(** [kinetic-types/src/error.rs] *)
Inductive Severity := SevInfo | SevWarning | SevError | SevCritical.

Inductive ActionError :=
  | MissingSovereignKey
  | MalformedSovereignKey
  | KeyLengthMismatch
  | StaleProposal
  | AlreadyExecuted
  | ActionDisabled
  | ActInvalidSignature
  | StateSaveFailed
  | P2pPublishFailed
  | InvalidSeedState
  | StateCorrupted
  | StateReadFailed
  | BootstrapFetchFailed.

#[export] Instance ActionError_eq_dec : EqDecision ActionError.
Proof. solve_decision. Defined.

Definition action_error_code (e : ActionError) : string :=
  match e with
  | MissingSovereignKey => "KIN-ACN-001"
  | MalformedSovereignKey => "KIN-ACN-002"
  | ActionDisabled => "KIN-ACN-003"
  | KeyLengthMismatch => "KIN-ACN-004"
  | StaleProposal => "KIN-ACN-005"
  | AlreadyExecuted => "KIN-ACN-006"
  | ActInvalidSignature => "KIN-ACN-007"
  | StateSaveFailed => "KIN-ACN-013"
  | P2pPublishFailed => "KIN-ACN-014"
  | InvalidSeedState => "KIN-ACN-015"
  | StateCorrupted => "KIN-ACN-016"
  | StateReadFailed => "KIN-ACN-017"
  | BootstrapFetchFailed => "KIN-ACN-018"
  end.

Definition action_error_severity (e : ActionError) : Severity :=
  match e with
  | MissingSovereignKey | MalformedSovereignKey | StateCorrupted => SevCritical
  | StaleProposal | AlreadyExecuted => SevInfo
  | KeyLengthMismatch | StateSaveFailed | P2pPublishFailed | StateReadFailed => SevError
  | ActionDisabled | ActInvalidSignature | InvalidSeedState | BootstrapFetchFailed => SevWarning
  end.

Definition action_error_is_retryable (e : ActionError) : bool :=
  match e with
  | ActInvalidSignature | P2pPublishFailed | BootstrapFetchFailed => true
  | _ => false
  end.

Inductive ActionEffect :=
  | SovereignKeyRotated (new_key : bytes)
  | NetworkHalted
  | NetworkResumed.

Record ActionState := MkActionState {
  genesis_kyn : Z;
  active_sovereign_key : option bytes;
  is_halted : bool;
  halt_start_kyn : option Z;
  total_paused_kyns : Z;
  pause_history : list (Z * Z);
  executed_hashes : gmap bytes Z;
  action_log : list SignedNetworkAction }.

Record ActionConfig := MkActionConfig {
  sovereign_key_hex : bytes;
  max_age_kyns : Z;
  ac_is_dev_mode : bool;
  action_model : bytes }.

Definition set_key (st : ActionState) (k : bytes) : ActionState :=
  {| genesis_kyn := genesis_kyn st; active_sovereign_key := Some k;
     is_halted := is_halted st; halt_start_kyn := halt_start_kyn st;
     total_paused_kyns := total_paused_kyns st; pause_history := pause_history st;
     executed_hashes := executed_hashes st; action_log := action_log st |}.

Definition set_halt (st : ActionState) (halted : bool) (start : option Z) : ActionState :=
  {| genesis_kyn := genesis_kyn st; active_sovereign_key := active_sovereign_key st;
     is_halted := halted; halt_start_kyn := start;
     total_paused_kyns := total_paused_kyns st; pause_history := pause_history st;
     executed_hashes := executed_hashes st; action_log := action_log st |}.

Definition set_pauses (st : ActionState) (total : Z) (history : list (Z * Z)) : ActionState :=
  {| genesis_kyn := genesis_kyn st; active_sovereign_key := active_sovereign_key st;
     is_halted := is_halted st; halt_start_kyn := halt_start_kyn st;
     total_paused_kyns := total; pause_history := history;
     executed_hashes := executed_hashes st; action_log := action_log st |}.

Definition set_executed (st : ActionState) (m : gmap bytes Z) : ActionState :=
  {| genesis_kyn := genesis_kyn st; active_sovereign_key := active_sovereign_key st;
     is_halted := is_halted st; halt_start_kyn := halt_start_kyn st;
     total_paused_kyns := total_paused_kyns st; pause_history := pause_history st;
     executed_hashes := m; action_log := action_log st |}.

Definition push_log (st : ActionState) (m : SignedNetworkAction) : ActionState :=
  {| genesis_kyn := genesis_kyn st; active_sovereign_key := active_sovereign_key st;
     is_halted := is_halted st; halt_start_kyn := halt_start_kyn st;
     total_paused_kyns := total_paused_kyns st; pause_history := pause_history st;
     executed_hashes := executed_hashes st; action_log := action_log st ++ [m] |}.

Definition action_state_new (genesis : Z) : ActionState :=
  {| genesis_kyn := genesis; active_sovereign_key := None; is_halted := false;
     halt_start_kyn := None; total_paused_kyns := 0; pause_history := [];
     executed_hashes := ∅; action_log := [] |}.

(** One iteration of the loop of [paused_kyns_since]. *)
Definition pause_overlap (target_kyn : Z) (p : Z * Z) : Z :=
  let '(start, end_) := p in
  if end_ <=? target_kyn then 0
  else if start >=? target_kyn then sat_sub end_ start
  else sat_sub end_ target_kyn.

Definition paused_kyns_since (st : ActionState) (target_kyn : Z) : Z :=
  fold_left (fun total p => wadd64 total (pause_overlap target_kyn p)) (pause_history st) 0.

(** [str::contains] *)
Fixpoint contains (pat s : bytes) : bool :=
  starts_with pat s || match s with [] => false | _ :: s' => contains pat s' end.

Section Action.
Context {HSha : Sha2} {HSig : MlDsa} {HCod : Codecs}.

Definition validate_keys_initialized (key_hex : bytes) (is_dev_mode : bool)
  : Result ActionError unit :=
  if is_dev_mode then Ok tt else
  bail_if (contains (bs "REPLACE_ME") key_hex) MissingSovereignKey;;
  b ← ok_or (hex_decode key_hex) MalformedSovereignKey;
  bail_if (negb (len b =? KINETIC_PUBKEY_LENGTH)) KeyLengthMismatch;;
  Ok tt.

Definition verify_sovereign_signature (pubkey msg sig : bytes) : bool :=
  is_ok (verify_signature pubkey msg sig).

Definition hash_action (msg : SignedNetworkAction) : bytes := sha256 (action_to_bytes msg).

Definition action_prune (st : ActionState) (current_kyn : Z) (config : ActionConfig) : ActionState :=
  set_executed st
    (filter (fun kv => current_kyn <= wadd64 kv.2 (max_age_kyns config)) (executed_hashes st)).

Definition sovereign_key (st : ActionState) (config : ActionConfig) : Result ActionError bytes :=
  match active_sovereign_key st with
  | Some key => Ok key
  | None =>
      b ← ok_or (hex_decode (sovereign_key_hex config)) MalformedSovereignKey;
      bail_if (negb (len b =? KINETIC_PUBKEY_LENGTH)) KeyLengthMismatch;;
      Ok b
  end.

(** ** The engines

    The trait's verifier takes the state mutably but neither implementation
    changes it.  [None] from the executor is a panic. *)

Record ActionEngine := MkActionEngine {
  engine_verify : ActionState -> SignedNetworkAction -> Z -> ActionConfig ->
    Result ActionError (option ActionEffect);
  engine_execute : ActionState -> SignedNetworkAction -> Z -> ActionConfig ->
    option (ActionState * option ActionEffect) }.

Definition sovereign_verify_action (st : ActionState) (msg : SignedNetworkAction)
    (current_kyn : Z) (config : ActionConfig) : Result ActionError (option ActionEffect) :=
  bail_if (abs_diff current_kyn (timestamp_kyn msg) >? max_age_kyns config) StaleProposal;;
  key ← sovereign_key st config;
  let action_bytes := action_to_bytes msg in
  let is_sovereign_signed :=
    existsb (fun sig => verify_sovereign_signature key action_bytes sig)
      (sovereign_signatures msg) in
  if is_sovereign_signed then
    match sna_action msg with
    | RotateSovereignKey new_key =>
        bail_if (negb (len new_key =? KINETIC_PUBKEY_LENGTH)) KeyLengthMismatch;;
        Ok (Some (SovereignKeyRotated new_key))
    | EmergencyHalt => Ok (Some NetworkHalted)
    | EmergencyResume => Ok (Some NetworkResumed)
    end
  else Err ActInvalidSignature.

Definition sovereign_execute_action (st : ActionState) (msg : SignedNetworkAction)
    (current_kyn : Z) (config : ActionConfig) : option (ActionState * option ActionEffect) :=
  let st := set_executed st (<[hash_action msg := timestamp_kyn msg]> (executed_hashes st)) in
  match sna_action msg with
  | RotateSovereignKey new_key =>
      Some (set_key st new_key, Some (SovereignKeyRotated new_key))
  | EmergencyHalt =>
      let st :=
        if negb (is_halted st) then
          set_halt st true
            (match halt_start_kyn st with None => Some current_kyn | Some k => Some k end)
        else st in
      Some (st, Some NetworkHalted)
  | EmergencyResume =>
      let st :=
        if is_halted st then
          let start_kyn := default current_kyn (halt_start_kyn st) in
          let st := set_halt st false None in
          let paused_kyns := sat_sub current_kyn start_kyn in
          set_pauses st (sat_add (total_paused_kyns st) paused_kyns)
            (pause_history st ++ [(start_kyn, current_kyn)])
        else st in
      Some (st, Some NetworkResumed)
  end.

Definition sovereign_engine : ActionEngine :=
  {| engine_verify := sovereign_verify_action; engine_execute := sovereign_execute_action |}.

Definition permissionless_engine : ActionEngine :=
  {| engine_verify := fun _ _ _ _ => Err ActionDisabled;
     engine_execute := fun _ _ _ _ => None |}.

(** [None]: the panic on an unknown model. *)
Definition active_engine (model : bytes) : option ActionEngine :=
  if bool_decide (model = bs "sovereign") then Some sovereign_engine
  else if bool_decide (model = bs "permissionless") then Some permissionless_engine
  else None.

Definition verify_action (st : ActionState) (msg : SignedNetworkAction) (current_kyn : Z)
    (config : ActionConfig) : option (Result ActionError (option ActionEffect)) :=
  e ← active_engine (action_model config);
  Some (engine_verify e st msg current_kyn config).

Definition execute_action (st : ActionState) (msg : SignedNetworkAction) (current_kyn : Z)
    (config : ActionConfig) : option (ActionState * option ActionEffect) :=
  e ← active_engine (action_model config);
  engine_execute e st msg current_kyn config.

(** The state after the call, with the result; [None] is a panic.  An error
    after the verification leaves the pruned state. *)
Definition process_action_message (st : ActionState) (msg : SignedNetworkAction)
    (current_kyn : Z) (config : ActionConfig)
  : option (ActionState * Result ActionError (option ActionEffect)) :=
  v ← verify_action st msg current_kyn config;
  match v with
  | Err e => Some (st, Err e)
  | Ok effect =>
      let st := action_prune st current_kyn config in
      match executed_hashes st !! hash_action msg with
      | Some _ => Some (st, Err AlreadyExecuted)
      | None =>
          '(st, _) ← execute_action st msg current_kyn config;
          Some (push_log st msg, Ok effect)
      end
  end.

End Action.

(** ** Pause accounting *)

(** The pauses are ordered, disjoint intervals within [lo..hi]. *)
Fixpoint pauses_ok (lo : Z) (h : list (Z * Z)) (hi : Z) : Prop :=
  match h with
  | [] => lo <= hi
  | (s, e) :: h' => lo <= s /\ s <= e /\ pauses_ok e h' hi
  end.

Lemma pauses_ok_le lo h hi : pauses_ok lo h hi -> lo <= hi.
Proof. revert lo. induction h as [|[s e] h IH]; intros lo; cbn; [done|]. intros (? & ? & H). apply IH in H. lia. Qed.

Lemma pauses_ok_mono lo h hi hi' : pauses_ok lo h hi -> hi <= hi' -> pauses_ok lo h hi'.
Proof. revert lo. induction h as [|[s e] h IH]; intros lo; cbn; [lia|]. intuition eauto. Qed.

Lemma pauses_ok_snoc lo h s e hi :
  pauses_ok lo h s -> s <= e -> e <= hi -> pauses_ok lo (h ++ [(s, e)]) hi.
Proof. revert lo. induction h as [|[s' e'] h IH]; intros lo; cbn; [lia|]. intuition eauto. Qed.

(** The kyns of [a..a+n) that satisfy [p]. *)
Fixpoint count_from (p : Z -> bool) (a : Z) (n : nat) : Z :=
  match n with
  | O => 0
  | S m => count_from p a m + (if p (a + Z.of_nat m) then 1 else 0)
  end.

Definition in_pause (k : Z) (p : Z * Z) : bool := (p.1 <=? k) && (k <? p.2).
Definition paused_at (h : list (Z * Z)) (k : Z) : bool := existsb (in_pause k) h.

Lemma count_from_interval s e a n :
  s <= e ->
  count_from (fun k => in_pause k (s, e)) a n = Z.max 0 (Z.min e (a + Z.of_nat n) - Z.max s a).
Proof.
  intros Hse. induction n as [|n IH]; cbn [count_from]; [lia|].
  rewrite IH, Nat2Z.inj_succ. unfold in_pause. cbn [fst snd].
  destruct (s <=? a + Z.of_nat n) eqn:E1, (a + Z.of_nat n <? e) eqn:E2; zbool; cbn [andb]; lia.
Qed.

Lemma count_from_or p q a n :
  (forall k, p k = true -> q k = false) ->
  count_from (fun k => p k || q k) a n = count_from p a n + count_from q a n.
Proof.
  intros H. induction n as [|n IH]; cbn [count_from]; [done|]. rewrite IH.
  specialize (H (a + Z.of_nat n)). destruct (p _), (q _); cbn in *; try lia.
Qed.

Lemma count_from_ext p q a n :
  (forall k, p k = q k) -> count_from p a n = count_from q a n.
Proof. intros H. induction n as [|n IH]; cbn [count_from]; [done|]. by rewrite IH, H. Qed.

Lemma paused_at_before lo h hi k : pauses_ok lo h hi -> k < lo -> paused_at h k = false.
Proof.
  revert lo. induction h as [|[s e] h IH]; intros lo; [done|]. cbn [pauses_ok].
  intros (? & ? & H) Hk. change (paused_at ((s, e) :: h) k) with (in_pause k (s, e) || paused_at h k).
  rewrite (IH e) by (done || lia). unfold in_pause. cbn [fst snd].
  rewrite orb_false_r. apply andb_false_iff. left. apply Z.leb_gt. lia.
Qed.

Lemma paused_at_after lo h hi k : pauses_ok lo h hi -> hi <= k -> paused_at h k = false.
Proof.
  revert lo. induction h as [|[s e] h IH]; intros lo; [done|]. cbn [pauses_ok].
  intros (? & ? & H) Hk. change (paused_at ((s, e) :: h) k) with (in_pause k (s, e) || paused_at h k).
  rewrite (IH e) by (done || lia). pose proof (pauses_ok_le _ _ _ H). unfold in_pause. cbn [fst snd].
  rewrite orb_false_r. apply andb_false_iff. right. apply Z.ltb_ge. lia.
Qed.

(** A pause whose end is before its start counts for nothing. *)
Lemma pause_overlap_eq t s e : pause_overlap t (s, e) = Z.max 0 (e - Z.max s t).
Proof.
  unfold pause_overlap. rewrite Z.geb_leb.
  destruct (e <=? t) eqn:E; zbool; [lia|].
  destruct (t <=? s) eqn:E2; zbool; unfold_u64; lia.
Qed.

(** The kyns of the pauses at or after [t], a pause with its end before its start
    counted as empty. *)
Fixpoint paused_after (t : Z) (h : list (Z * Z)) : Z :=
  match h with
  | [] => 0
  | (s, e) :: h => Z.max 0 (e - Z.max s t) + paused_after t h
  end.

Lemma paused_after_nonneg t h : 0 <= paused_after t h.
Proof. induction h as [|[s e] h IH]; cbn [paused_after]; lia. Qed.

(** The loop is that sum in [u64]. *)
Lemma fold_paused_after t h acc :
  0 <= acc < 2 ^ 64 ->
  fold_left (fun total p => wadd64 total (pause_overlap t p)) h acc = (acc + paused_after t h) mod 2 ^ 64.
Proof.
  revert acc. induction h as [|[s e] h IH]; intros acc Ha; cbn [fold_left paused_after].
  - by rewrite Z.add_0_r, Z.mod_small.
  - rewrite IH, pause_overlap_eq by (apply Z.mod_pos_bound; lia). unfold wadd64.
    rewrite Zplus_mod_idemp_l. f_equal. lia.
Qed.

(** For ordered pauses it is a number of kyns. *)
Lemma paused_after_count lo h hi t :
  pauses_ok lo h hi -> t <= hi ->
  paused_after t h = count_from (paused_at h) t (Z.to_nat (hi - t)).
Proof.
  revert lo. induction h as [|[s e] h IH]; intros lo Hp Ht; cbn [paused_after].
  - rewrite (count_from_ext _ (fun _ => false)) by done. symmetry.
    generalize (Z.to_nat (hi - t)). intros n. induction n as [|n IHn]; cbn [count_from]; lia.
  - destruct Hp as (Hls & Hse & Hp). pose proof (pauses_ok_le _ _ _ Hp) as Heh.
    rewrite (IH e) by done.
    rewrite (count_from_ext (paused_at ((s, e) :: h)) (fun k => in_pause k (s, e) || paused_at h k)) by done.
    rewrite count_from_or, count_from_interval by
      (done || (intros k Hk; apply (paused_at_before e h hi); [done|];
                unfold in_pause in Hk; cbn [fst snd] in Hk; zbool; lia)).
    rewrite Z2Nat.id by lia. lia.
Qed.

Lemma count_from_nonneg_bound p a n : 0 <= count_from p a n <= Z.of_nat n.
Proof. induction n as [|n IH]; cbn [count_from]; [lia|]. destruct (p _); lia. Qed.

(** *** Clocks paired up *)

(** Consecutive clocks paired, and the one left over. *)
Fixpoint pair_up (l : list Z) : list (Z * Z) * option Z :=
  match l with
  | a :: b :: l => let '(h, o) := pair_up l in ((a, b) :: h, o)
  | [a] => ([], Some a)
  | [] => ([], None)
  end.

Lemma pair_up_cons a b l : pair_up (a :: b :: l) = ((a, b) :: (pair_up l).1, (pair_up l).2).
Proof. cbn [pair_up]. by destruct (pair_up l). Qed.

Lemma list_pair_ind {A} (P : list A -> Prop) :
  P [] -> (forall a, P [a]) -> (forall a b l, P l -> P (a :: b :: l)) -> forall l, P l.
Proof.
  intros H0 H1 H2 l. enough (P l /\ forall a, P (a :: l)) as [H _] by exact H.
  induction l as [|a l [IH IH']]; [by split|]. split; [done|]. intros b. by apply H2.
Qed.

Lemma pair_up_u64 l : Forall is_u64 l -> Forall (fun p => is_u64 p.1) (pair_up l).1.
Proof.
  induction l as [|a|a b l IH] using list_pair_ind; [done|done|]. rewrite pair_up_cons.
  cbn [fst]. rewrite !Forall_cons. intros (? & ? & ?). split; [done|by apply IH].
Qed.

Lemma pair_up_ordered l lo hi :
  StronglySorted Z.le l -> Forall (fun k => lo <= k <= hi) l -> lo <= hi -> pauses_ok lo (pair_up l).1 hi.
Proof.
  revert lo. induction l as [|a|a b l IH] using list_pair_ind; intros lo Hs Hl Hle; [done|done|].
  rewrite pair_up_cons. cbn [fst pauses_ok]. rewrite !Forall_cons in Hl. destruct Hl as (Ha & Hb & Hl).
  apply StronglySorted_inv in Hs as [Hs Hab]. apply StronglySorted_inv in Hs as [Hs Hbl].
  rewrite Forall_cons in Hab. split; [lia|split; [lia|]]. apply IH; [done| |lia].
  apply Forall_and. split; [done|]. eapply Forall_impl; [exact Hl|]. cbn. lia.
Qed.

Definition saturating_total (total : Z) (h : list (Z * Z)) : Z :=
  fold_left (fun total p => sat_add total (sat_sub p.2 p.1)) h total.

Lemma saturating_total_sum h t :
  Forall (fun p => is_u64 p.1) h -> 0 <= t <= u64_max ->
  saturating_total t h = Z.min u64_max (t + paused_after 0 h).
Proof.
  unfold saturating_total. revert t. induction h as [|[s e] h IH]; intros t Hh Ht; cbn [fold_left paused_after].
  - rewrite Z.add_0_r. lia.
  - rewrite Forall_cons in Hh. destruct Hh as [Hs Hh]. cbn [fst snd] in *.
    pose proof (paused_after_nonneg 0 h). rewrite IH by (done || (unfold_u64; lia)). unfold_u64. lia.
Qed.

(** ** Runs *)

Section ActionFacts.
Context {HSha : Sha2} {HSig : MlDsa} {HCod : Codecs}.
Variable config : ActionConfig.

(** Messages processed one after the other, each at the clock its caller has:
    the callers pass the cached kyn, which a fetch may set back, or 0. *)
Fixpoint process_all (st : ActionState) (ms : list (SignedNetworkAction * Z))
  : option (ActionState * list (Result ActionError (option ActionEffect))) :=
  match ms with
  | [] => Some (st, [])
  | (msg, now) :: ms =>
      '(st, r) ← process_action_message st msg now config;
      '(st, rs) ← process_all st ms;
      Some (st, r :: rs)
  end.

Lemma process_all_cons st msg now ms st2 rs :
  process_all st ((msg, now) :: ms) = Some (st2, rs) ->
  exists st1 r rs', process_action_message st msg now config = Some (st1, r) /\
    process_all st1 ms = Some (st2, rs') /\ rs = r :: rs'.
Proof.
  cbn [process_all]. destruct (process_action_message _ _ _ _) as [[st1 r]|]; [|done]. cbn.
  destruct (process_all st1 ms) as [[st3 rs']|] eqn:E; [|done]. cbn. intros [= <- <-]. by exists st1, r, rs'.
Qed.

Lemma process_ok_inv st msg now st' eff :
  process_action_message st msg now config = Some (st', Ok eff) ->
  exists st1, verify_action st msg now config = Some (Ok eff) /\
    executed_hashes (action_prune st now config) !! hash_action msg = None /\
    (exists eff', execute_action (action_prune st now config) msg now config = Some (st1, eff')) /\
    st' = push_log st1 msg.
Proof.
  unfold process_action_message. intros H.
  destruct (verify_action st msg now config) as [[eff0|e]|]; cbn in H; [|done..].
  destruct (executed_hashes (action_prune st now config) !! hash_action msg) eqn:El;
    cbn in El; rewrite ?El in H; [done|].
  destruct (execute_action _ _ _ _) as [[st1 eff']|] eqn:Ex; cbn in H; [|done].
  injection H as <- <-. exists st1. eauto.
Qed.

(** The model of a network whose messages can succeed. *)
Lemma verify_ok_sovereign st msg now eff :
  verify_action st msg now config = Some (Ok eff) ->
  active_engine (action_model config) = Some sovereign_engine /\
  sovereign_verify_action st msg now config = Ok eff.
Proof.
  unfold verify_action, active_engine.
  destruct (bool_decide (action_model config = bs "sovereign")); cbn; [by intros [= ->]|].
  destruct (bool_decide _); cbn; done.
Qed.

Lemma sovereign_verify_ok st msg now eff :
  sovereign_verify_action st msg now config = Ok eff ->
  abs_diff now (timestamp_kyn msg) <= max_age_kyns config /\
  exists key sig, sovereign_key st config = Ok key /\ sig ∈ sovereign_signatures msg /\
    verify_signature key (action_to_bytes msg) sig = Ok tt.
Proof.
  unfold sovereign_verify_action. rewrite bail_if_ok, Z.gtb_ltb, Z.ltb_ge.
  intros [Ha H]. split; [done|]. apply bind_ok in H as (key & Hk & H).
  destruct (existsb _ _) eqn:Ex; [|done]. apply existsb_exists in Ex as (sig & Hin & Hv).
  exists key, sig. split; [done|]. split; [by apply list_elem_of_In|].
  by apply is_ok_unit in Hv.
Qed.

(** The parts of the state that an executed message may change. *)
Lemma process_ok_state st msg now st' eff :
  process_action_message st msg now config = Some (st', Ok eff) ->
  exists st1 eff', sovereign_execute_action (action_prune st now config) msg now config = Some (st1, eff') /\
    st' = push_log st1 msg.
Proof.
  intros H. apply process_ok_inv in H as (st1 & Hv & _ & [eff' Hx] & ->).
  apply verify_ok_sovereign in Hv as [He _]. unfold execute_action in Hx. rewrite He in Hx.
  cbn in Hx. eauto.
Qed.

Lemma process_err_state st msg now st' e :
  process_action_message st msg now config = Some (st', Err e) ->
  st' = st \/ st' = action_prune st now config.
Proof.
  unfold process_action_message. intros H.
  destruct (verify_action st msg now config) as [[eff0|e0]|]; cbn in H; [|injection H as <- _; by left|done].
  destruct (_ !! hash_action msg); [injection H as <- _; by right|].
  destruct (execute_action _ _ _ _) as [[st1 eff']|]; cbn in H; done.
Qed.

(** Isolation.  Under either known model processing never panics; it
    succeeds only for a message inside the age window, not executed before, and
    signed under the current sovereign key (the rotated key when there is one);
    and a failure changes nothing but expired entries of the executed set. *)
Theorem process_isolated st msg now :
  active_engine (action_model config) <> None ->
  exists st' r, process_action_message st msg now config = Some (st', r) /\
    match r with
    | Ok _ =>
        abs_diff now (timestamp_kyn msg) <= max_age_kyns config /\
        executed_hashes (action_prune st now config) !! hash_action msg = None /\
        exists key sig, sovereign_key st config = Ok key /\ sig ∈ sovereign_signatures msg /\
          verify_signature key (action_to_bytes msg) sig = Ok tt
    | Err _ => st' = st \/ st' = action_prune st now config
    end.
Proof.
  intros He. assert (Hs : exists st' r, process_action_message st msg now config = Some (st', r)).
  { unfold process_action_message, verify_action, execute_action in *.
    destruct (active_engine (action_model config)) as [e|] eqn:Ee; [|done]. cbn.
    destruct (engine_verify e st msg now config) as [eff|e0] eqn:Ev; cbn; [|eauto].
    destruct (_ !! hash_action msg); [eauto|].
    assert (e = sovereign_engine) as ->.
    { unfold active_engine in Ee. destruct (bool_decide _); [congruence|].
      destruct (bool_decide _); [|done]. injection Ee as <-. done. }
    cbn. unfold sovereign_execute_action. destruct (sna_action msg); cbn; eauto. }
  destruct Hs as (st' & r & H). exists st', r. split; [done|]. destruct r as [eff|e].
  - apply process_ok_inv in H as (st1 & Hv & Hx & _). apply verify_ok_sovereign in Hv as [_ Hv].
    apply sovereign_verify_ok in Hv as [Ha Hk]. auto.
  - by eapply process_err_state.
Qed.

(** Executing a rotation installs its key. *)
Lemma rotation_installs_key st msg now st' eff k :
  process_action_message st msg now config = Some (st', Ok eff) ->
  sna_action msg = RotateSovereignKey k -> sovereign_key st' config = Ok k.
Proof.
  intros H Ha. apply process_ok_state in H as (st1 & eff' & Hx & ->).
  unfold sovereign_execute_action in Hx. rewrite Ha in Hx. by injection Hx as <- _.
Qed.

(** ** Replay *)

(** Whether the processing went past the verification, and so pruned. *)
Definition pruning (r : Result ActionError (option ActionEffect)) : bool :=
  match r with Ok _ => true | Err e => bool_decide (e = AlreadyExecuted) end.

Lemma sovereign_execute_hashes st msg now st1 eff :
  sovereign_execute_action st msg now config = Some (st1, eff) ->
  executed_hashes st1 = <[hash_action msg := timestamp_kyn msg]> (executed_hashes st).
Proof.
  unfold sovereign_execute_action. destruct (sna_action msg).
  - by intros [= <- _].
  - intros [= <- _]. by destruct (negb _).
  - intros [= <- _]. by destruct (is_halted _).
Qed.

Lemma verify_err_other st msg now e :
  verify_action st msg now config = Some (Err e) -> e <> AlreadyExecuted.
Proof.
  unfold verify_action, active_engine.
  destruct (bool_decide (action_model config = bs "sovereign")); cbn.
  2:{ destruct (bool_decide _); cbn; [|done]. by intros [= <-]. }
  intros [= H] ->. revert H. unfold sovereign_verify_action, bail_if.
  destruct (_ >? _); cbn; [done|].
  destruct (sovereign_key st config) as [key|e] eqn:Ek; cbn.
  - destruct (existsb _ _); [|done]. destruct (sna_action msg); cbn; try done. by destruct (negb _).
  - intros [= ->]. revert Ek. unfold sovereign_key. destruct (active_sovereign_key st); [done|].
    destruct (hex_decode _); cbn; [|done]. by destruct (negb _).
Qed.

Lemma process_hashes st msg now st' r :
  process_action_message st msg now config = Some (st', r) ->
  let kept := executed_hashes (action_prune st now config) in
  match r with
  | Ok _ => kept !! hash_action msg = None /\
      executed_hashes st' = <[hash_action msg := timestamp_kyn msg]> kept
  | Err _ => executed_hashes st' = if pruning r then kept else executed_hashes st
  end.
Proof.
  intros H kept. destruct r as [eff|e].
  - pose proof H as H'. apply process_ok_inv in H' as (_ & _ & Hn & _). split; [done|].
    apply process_ok_state in H as (st1 & eff' & Hx & ->). cbn. by apply sovereign_execute_hashes in Hx.
  - unfold process_action_message in H.
    destruct (verify_action st msg now config) as [[eff0|e0]|] eqn:Ev; cbn in H; [| |done].
    + destruct (_ !! hash_action msg); [by injection H as <- <-|].
      destruct (execute_action _ _ _ _) as [[st1 eff']|]; done.
    + injection H as <- <-. apply verify_err_other in Ev. cbn. by rewrite bool_decide_false.
Qed.

Lemma prune_lookup st now h t :
  executed_hashes (action_prune st now config) !! h = Some t <->
  executed_hashes st !! h = Some t /\ now <= wadd64 t (max_age_kyns config).
Proof. apply map_lookup_filter_Some. Qed.

Lemma prune_lookup_none st now h :
  executed_hashes st !! h = None -> executed_hashes (action_prune st now config) !! h = None.
Proof.
  intros H. destruct (executed_hashes (action_prune st now config) !! h) as [t|] eqn:E; [|done].
  apply prune_lookup in E as [E _]. congruence.
Qed.

(** What one processed message does to the entry of a hash. *)
Lemma entry_step st msg now st' r h t :
  is_u64 t -> 0 <= max_age_kyns config -> t + max_age_kyns config < 2 ^ 64 ->
  process_action_message st msg now config = Some (st', r) ->
  executed_hashes st !! h = Some t ->
  executed_hashes st' !! h = Some t \/ pruning r = true /\ t + max_age_kyns config < now.
Proof.
  intros Hu H0 Hb Hp Hl. apply process_hashes in Hp. cbv zeta in Hp.
  destruct (decide (t + max_age_kyns config < now)) as [Hlt|Hge].
  - destruct (pruning r) eqn:Er; [by right|]. left. destruct r as [eff|e]; [done|]. by rewrite Hp.
  - assert (Hk : executed_hashes (action_prune st now config) !! h = Some t).
    { apply prune_lookup. split; [done|]. unfold is_u64 in Hu. rewrite wadd64_small; lia. }
    left. destruct r as [eff|e]; [|rewrite Hp; by destruct (pruning (Err e))].
    destruct Hp as [Hn ->]. rewrite lookup_insert_ne; [done|]. intros <-. congruence.
Qed.

Lemma no_entry_step st msg now st' r h :
  process_action_message st msg now config = Some (st', r) ->
  (is_ok r = true -> hash_action msg <> h) ->
  executed_hashes st !! h = None -> executed_hashes st' !! h = None.
Proof.
  intros Hp Hh Hl. apply process_hashes in Hp. cbv zeta in Hp.
  pose proof (prune_lookup_none _ now _ Hl) as Hk. destruct r as [eff|e].
  - destruct Hp as [_ ->]. rewrite lookup_insert_ne; [done|by apply Hh].
  - rewrite Hp. by destruct (pruning _).
Qed.

(** A step of a run that drops the entry of a message with this timestamp. *)
Definition forgets (t : Z) (x : SignedNetworkAction * Z * Result ActionError (option ActionEffect)) : Prop :=
  pruning x.2 = true /\ t + max_age_kyns config < x.1.2.

Lemma entry_run ms st st2 rs h t :
  is_u64 t -> 0 <= max_age_kyns config -> t + max_age_kyns config < 2 ^ 64 ->
  process_all st ms = Some (st2, rs) -> executed_hashes st !! h = Some t ->
  executed_hashes st2 !! h = Some t \/ Exists (forgets t) (zip ms rs).
Proof.
  intros Hu H0 Hb. revert st rs. induction ms as [|[msg now] ms IH]; intros st rs Hr Hl.
  { injection Hr as <- <-. by left. }
  apply process_all_cons in Hr as (st1 & r & rs' & Hp & Hr & ->). cbn [zip zip_with].
  pose proof (entry_step _ _ _ _ _ _ _ Hu H0 Hb Hp Hl) as [Hl'|Hf]; [|right; by left].
  destruct (IH _ _ Hr Hl') as [?|?]; [by left|right; by right].
Qed.

Lemma no_entry_run ms st st2 rs h :
  process_all st ms = Some (st2, rs) ->
  Forall (fun x => is_ok x.2 = true -> hash_action x.1.1 <> h) (zip ms rs) ->
  executed_hashes st !! h = None -> executed_hashes st2 !! h = None.
Proof.
  revert st rs. induction ms as [|[msg now] ms IH]; intros st rs Hr HF Hl.
  { by injection Hr as <- <-. }
  apply process_all_cons in Hr as (st1 & r & rs' & Hp & Hr & ->).
  cbn [zip zip_with] in HF. rewrite Forall_cons in HF. destruct HF as [H HF].
  eapply IH; [done|done|]. by eapply no_entry_step.
Qed.

Lemma forgotten_run ms st st2 rs h t :
  is_u64 t -> 0 <= max_age_kyns config -> t + max_age_kyns config < 2 ^ 64 ->
  process_all st ms = Some (st2, rs) ->
  Forall (fun x => is_ok x.2 = true -> hash_action x.1.1 <> h) (zip ms rs) ->
  Exists (forgets t) (zip ms rs) ->
  executed_hashes st !! h = Some t -> executed_hashes st2 !! h = None.
Proof.
  intros Hu H0 Hb. revert st rs. induction ms as [|[msg now] ms IH]; intros st rs Hr HF HE Hl.
  { injection Hr as <- <-. by apply Exists_nil in HE. }
  apply process_all_cons in Hr as (st1 & r & rs' & Hp & Hr & ->).
  cbn [zip zip_with] in HF, HE. rewrite Forall_cons in HF. destruct HF as [H HF].
  destruct (executed_hashes st1 !! h) as [t'|] eqn:E; [|by eapply no_entry_run].
  assert (Hk : t' = t /\ ~ forgets t (msg, now, r)).
  { apply process_hashes in Hp. cbv zeta in Hp. unfold forgets. cbn [fst snd].
    destruct r as [eff|e].
    - destruct Hp as [_ Hp]. rewrite Hp, lookup_insert_ne in E by by apply H.
      apply prune_lookup in E as [E1 E2]. rewrite Hl in E1. injection E1 as <-. split; [done|].
      unfold is_u64 in Hu. rewrite wadd64_small in E2; lia.
    - rewrite Hp in E. destruct (pruning (Err e)); [|split; [congruence|by intros [? _]]].
      apply prune_lookup in E as [E1 E2]. rewrite Hl in E1. injection E1 as <-. split; [done|].
      unfold is_u64 in Hu. rewrite wadd64_small in E2; lia. }
  destruct Hk as [-> Hn]. apply Exists_cons in HE as [HE|HE]; [done|]. by eapply IH.
Qed.

(** Under the sovereign model a verified message that is not remembered is
    executed. *)
Lemma verified_executes st msg now eff :
  verify_action st msg now config = Some (Ok eff) ->
  executed_hashes (action_prune st now config) !! hash_action msg = None ->
  exists st', process_action_message st msg now config = Some (st', Ok eff).
Proof.
  intros Hv Hn. pose proof (verify_ok_sovereign _ _ _ _ Hv) as [He _].
  unfold process_action_message, execute_action. rewrite Hv, He. cbn [mbind option_bind]. cbv zeta.
  rewrite Hn. cbn [engine_execute sovereign_engine]. unfold sovereign_execute_action.
  destruct (sna_action msg); cbn; eauto.
Qed.

(** C14: replay.  A message was executed, and any messages at any clocks were
    processed after it.  Then a message with the same signed content, whatever
    signatures it carries, is executed again only when its age window is open at
    the clock of the second execution although a message in between was verified
    at a clock after the end of that window: never while the clock does not run
    backwards.  And in that case it is executed again, when it verifies and was
    not in between. *)
Theorem action_never_replayed st now msg st1 eff ms st2 rs msg' now3 :
  0 <= max_age_kyns config -> is_u64 (timestamp_kyn msg) ->
  timestamp_kyn msg + max_age_kyns config < 2 ^ 64 ->
  process_action_message st msg now config = Some (st1, Ok eff) ->
  process_all st1 ms = Some (st2, rs) ->
  sna_action msg' = sna_action msg -> timestamp_kyn msg' = timestamp_kyn msg ->
  (forall st3 eff', process_action_message st2 msg' now3 config = Some (st3, Ok eff') ->
     Exists (fun x => pruning x.2 = true /\
       now3 <= timestamp_kyn msg + max_age_kyns config < x.1.2) (zip ms rs)) /\
  (forall eff', verify_action st2 msg' now3 config = Some (Ok eff') ->
     Exists (fun x => pruning x.2 = true /\ timestamp_kyn msg + max_age_kyns config < x.1.2) (zip ms rs) ->
     Forall (fun x => is_ok x.2 = true -> hash_action x.1.1 <> hash_action msg) (zip ms rs) ->
     exists st3, process_action_message st2 msg' now3 config = Some (st3, Ok eff')).
Proof.
  intros H0 Hu Hb Hp Hr Ea Et.
  assert (Eh : hash_action msg' = hash_action msg) by (unfold hash_action, action_to_bytes; by rewrite Ea, Et).
  assert (Hl : executed_hashes st1 !! hash_action msg = Some (timestamp_kyn msg)).
  { apply process_hashes in Hp as [_ ->]. apply lookup_insert_eq. }
  split.
  - intros st3 eff' Hp'. pose proof Hp' as Hv. apply process_ok_inv in Hv as (_ & Hv & Hn & _).
    apply verify_ok_sovereign in Hv as [_ Hv]. apply sovereign_verify_ok in Hv as [Hage _].
    assert (Hw : now3 <= timestamp_kyn msg + max_age_kyns config)
      by (revert Hage; rewrite Et; unfold abs_diff; lia).
    destruct (entry_run _ _ _ _ _ _ Hu H0 Hb Hr Hl) as [Hl'|HE].
    + exfalso. rewrite Eh in Hn.
      assert (Hk : executed_hashes (action_prune st2 now3 config) !! hash_action msg = Some (timestamp_kyn msg)).
      { apply prune_lookup. split; [done|]. unfold is_u64 in Hu. rewrite wadd64_small; lia. }
      congruence.
    + eapply Exists_impl; [exact HE|]. intros x [? ?]. split; [done|lia].
  - intros eff' Hv HE HF. apply verified_executes; [done|]. rewrite Eh. apply prune_lookup_none.
    by eapply forgotten_run.
Qed.

(** ** Pauses *)

(** The clocks of the executed messages that halt a running network or resume a
    halted one. *)
Fixpoint switches (halted : bool)
    (l : list (SignedNetworkAction * Z * Result ActionError (option ActionEffect))) : list Z :=
  match l with
  | [] => []
  | (msg, now, r) :: l =>
      match r, sna_action msg, halted with
      | Ok _, EmergencyHalt, false => now :: switches true l
      | Ok _, EmergencyResume, true => now :: switches false l
      | _, _, _ => switches halted l
      end
  end.

Lemma switches_u64 halted ms rs :
  Forall (fun m => is_u64 m.2) ms -> Forall is_u64 (switches halted (zip ms rs)).
Proof.
  revert halted rs. induction ms as [|[msg now] ms IH]; intros halted [|r rs] H; cbn; try done.
  rewrite Forall_cons in H. destruct H as [Hn H].
  destruct r; [|by apply IH]. destruct (sna_action msg), halted; try (by apply IH); constructor; (done || by apply IH).
Qed.

Definition pause_state (st : ActionState) (h : list (Z * Z)) (open : option Z) (total : Z) : Prop :=
  pause_history st = h /\ halt_start_kyn st = open /\
  is_halted st = bool_decide (is_Some open) /\ total_paused_kyns st = total.

Lemma pause_state_fields st st' h o t :
  pause_history st' = pause_history st -> halt_start_kyn st' = halt_start_kyn st ->
  is_halted st' = is_halted st -> total_paused_kyns st' = total_paused_kyns st ->
  pause_state st h o t -> pause_state st' h o t.
Proof. unfold pause_state. by intros -> -> -> ->. Qed.

Lemma pause_step st msg now st' r h o t :
  pause_state st h o t -> process_action_message st msg now config = Some (st', r) ->
  match r, sna_action msg, o with
  | Ok _, EmergencyHalt, None => pause_state st' h (Some now) t
  | Ok _, EmergencyResume, Some k => pause_state st' (h ++ [(k, now)]) None (sat_add t (sat_sub now k))
  | _, _, _ => pause_state st' h o t
  end.
Proof.
  intros Hs Hp. destruct r as [eff|e].
  2:{ apply process_err_state in Hp as [->| ->]; [done|]. by eapply pause_state_fields. }
  apply process_ok_state in Hp as (st1 & eff' & Hx & ->). unfold sovereign_execute_action in Hx.
  cbv zeta in Hx. destruct Hs as (Eh & Eo & Ei & Et).
  destruct (sna_action msg); injection Hx as <- _.
  - by split_and!.
  - cbn [is_halted set_executed action_prune]. destruct o as [k|]; rewrite Ei; cbn [negb].
    + by split_and!.
    + split_and!; try done. cbn. by rewrite Eo.
  - cbn [is_halted set_executed action_prune]. destruct o as [k|]; rewrite Ei; cbn.
    + rewrite Eo. unfold pause_state. cbn. by rewrite Eh, Et.
    + by split_and!.
Qed.

Lemma pause_run ms st st2 rs h o t :
  pause_state st h o t -> process_all st ms = Some (st2, rs) ->
  let '(h', o') := pair_up (option_list o ++ switches (bool_decide (is_Some o)) (zip ms rs)) in
  pause_state st2 (h ++ h') o' (saturating_total t h').
Proof.
  revert st rs h o t. induction ms as [|[msg now] ms IH]; intros st rs h o t Hs Hr.
  { injection Hr as <- <-. destruct o; cbn; by rewrite app_nil_r. }
  apply process_all_cons in Hr as (st1 & r & rs' & Hp & Hr & ->).
  pose proof (pause_step _ _ _ _ _ _ _ _ Hs Hp) as Hs1. cbn [zip zip_with switches].
  destruct r as [eff|e]; [|by apply (IH _ _ _ _ _ Hs1 Hr)].
  destruct (sna_action msg); [by apply (IH _ _ _ _ _ Hs1 Hr)| |].
  - destruct o as [k|]; by apply (IH _ _ _ _ _ Hs1 Hr).
  - destruct o as [k|]; [|by apply (IH _ _ _ _ _ Hs1 Hr)].
    pose proof (IH _ _ _ _ _ Hs1 Hr) as H.
    change (option_list None ++ switches (bool_decide (is_Some None)) (zip ms rs'))
      with (switches false (zip ms rs')) in H.
    change (let '(h', o') := pair_up (k :: now :: switches false (zip ms rs')) in
      pause_state st2 (h ++ h') o' (saturating_total t h')).
    rewrite pair_up_cons. destruct (pair_up (switches false (zip ms rs'))) as [h' o'].
    by rewrite <- app_assoc in H.
Qed.

(** C15: pause accounting.  Whatever messages are processed from genesis, at
    whatever clocks, the recorded pauses are the consecutive pairs of the clocks
    at which the network was halted and resumed, and a halt without its resume
    is the start of the current one.  The total is the sum of the lengths, cut
    at the largest [u64], and [paused_kyns_since] the sum of what lies after its
    argument, modulo 2^64; a pause that ends before it starts, which a clock set
    back leaves, counts for nothing.  When the clocks of the halts and resumes
    do not run backwards the pauses are ordered and disjoint, the total is the
    number of kyns inside them and [paused_kyns_since] the number of those at or
    after its argument. *)
Theorem reachable_pause_accounting g ms st rs :
  Forall (fun m => is_u64 m.2) ms ->
  process_all (action_state_new g) ms = Some (st, rs) ->
  let clocks := switches false (zip ms rs) in
  pair_up clocks = (pause_history st, halt_start_kyn st) /\
  is_halted st = bool_decide (is_Some (halt_start_kyn st)) /\
  total_paused_kyns st = Z.min u64_max (paused_after 0 (pause_history st)) /\
  (forall t, 0 <= t -> paused_kyns_since st t = paused_after t (pause_history st) mod 2 ^ 64) /\
  forall now, is_u64 now -> StronglySorted Z.le clocks -> Forall (fun k => k <= now) clocks ->
    pauses_ok 0 (pause_history st) now /\
    total_paused_kyns st = count_from (paused_at (pause_history st)) 0 (Z.to_nat now) /\
    forall t, 0 <= t <= now ->
      paused_kyns_since st t = count_from (paused_at (pause_history st)) t (Z.to_nat (now - t)).
Proof.
  intros Hu Hr clocks.
  pose proof (pause_run ms (action_state_new g) st rs [] None 0 ltac:(by split_and!) Hr) as H.
  change (option_list None ++ switches (bool_decide (is_Some None)) (zip ms rs)) with clocks in H.
  assert (Hc : Forall is_u64 clocks) by by apply switches_u64.
  destruct (pair_up clocks) as [h o] eqn:E. destruct H as (Eh & Eo & Ei & Et). cbn [app] in Eh.
  assert (Hh : Forall (fun p => is_u64 p.1) h) by (pose proof (pair_up_u64 _ Hc) as Hp; by rewrite E in Hp).
  assert (Htot : total_paused_kyns st = Z.min u64_max (paused_after 0 h)).
  { rewrite Et, saturating_total_sum by (done || (unfold_u64; lia)). by rewrite Z.add_0_l. }
  assert (Hs : forall t, 0 <= t -> paused_kyns_since st t = paused_after t h mod 2 ^ 64).
  { intros t Ht. unfold paused_kyns_since. rewrite Eh, fold_paused_after by lia. by rewrite Z.add_0_l. }
  rewrite Eh, Eo. split_and!; [done|done|done|exact Hs|].
  intros now Hn Hss Hle.
  assert (Hp : pauses_ok 0 h now).
  { pose proof (pair_up_ordered clocks 0 now Hss) as Hp. rewrite E in Hp. apply Hp; [|unfold is_u64 in Hn; lia].
    apply Forall_and. split; [|done]. eapply Forall_impl; [exact Hc|]. unfold is_u64. cbn. lia. }
  unfold is_u64 in Hn. split; [done|split].
  - rewrite Htot, (paused_after_count 0 h now) by (done || lia).
    pose proof (count_from_nonneg_bound (paused_at h) 0 (Z.to_nat (now - 0))).
    rewrite Z.sub_0_r in *. unfold u64_max. lia.
  - intros t Ht. rewrite Hs, (paused_after_count 0 h now) by (done || lia).
    pose proof (count_from_nonneg_bound (paused_at h) t (Z.to_nat (now - t))).
    apply Z.mod_small. lia.
Qed.

End ActionFacts.

(** The pause in progress is not part of the history, so it is not counted. *)
Lemma paused_kyns_since_ignores_current_halt st halted start t :
  paused_kyns_since (set_halt st halted start) t = paused_kyns_since st t.
Proof. reflexivity. Qed.

(** ** Witnesses: the configured toy sovereign key is 1,952 zero bytes *)

Definition toy_sovereign : bytes := replicate 1952 0.
Definition toy_config : ActionConfig := MkActionConfig toy_sovereign 604800 false (bs "sovereign").
Definition toy_action (a : NetworkAction) (t : Z) : SignedNetworkAction :=
  MkSignedNetworkAction a t [toy_sovereign ++ action_payload a ++ u64_be t].

Definition toy_process (st : ActionState) (a : NetworkAction) (t : Z) : ActionState :=
  match @process_action_message Toy.toy_sha2 Toy.toy_mldsa Toy.toy_codecs st (toy_action a t) t toy_config with
  | Some (st', _) => st'
  | None => st
  end.

Definition toy_halted : ActionState := toy_process (action_state_new 0) EmergencyHalt 1000.
Definition toy_resumed : ActionState := toy_process toy_halted EmergencyResume 1100.

Definition toy_run (ms : list (NetworkAction * Z * Z)) : list (SignedNetworkAction * Z) :=
  map (fun '(a, t, now) => (toy_action a t, now)) ms.

(** Halted at 1000 and resumed at 1100; halted again at 2000 and, with the clock
    set back, resumed at 1990. *)
Definition toy_pauses : list (SignedNetworkAction * Z) :=
  toy_run [(EmergencyHalt, 1000, 1000); (EmergencyResume, 1100, 1100)].
Definition toy_set_back : list (SignedNetworkAction * Z) :=
  toy_pauses ++ toy_run [(EmergencyHalt, 2000, 2000); (EmergencyResume, 1990, 1990)].

Definition toy_process_all (st : ActionState) ms :=
  @process_all Toy.toy_sha2 Toy.toy_mldsa Toy.toy_codecs toy_config st ms.

Lemma reachable_pause_accounting_witness :
  exists st rs, toy_process_all (action_state_new 0) toy_pauses = Some (st, rs) /\
    paused_kyns_since st 1050 = count_from (paused_at (pause_history st)) 1050 (Z.to_nat (1100 - 1050)).
Proof.
  destruct (toy_process_all (action_state_new 0) toy_pauses) as [[st rs]|] eqn:E; [|by vm_compute in E].
  exists st, rs. split; [done|].
  destruct (@reachable_pause_accounting Toy.toy_sha2 Toy.toy_mldsa Toy.toy_codecs toy_config 0
    toy_pauses st rs) as (_ & _ & _ & _ & H).
  - repeat constructor; cbn; lia.
  - exact E.
  - vm_compute in E. injection E as <- <-.
    apply (H 1100); [split; [lia|reflexivity]| | |lia]; vm_compute switches;
      repeat constructor; discriminate.
Defined.

(** A resume at an earlier clock leaves a pause that is neither ordered nor
    counted. *)
Example toy_set_back_not_counted :
  option_map (fun x => (pause_history x.1, total_paused_kyns x.1, paused_kyns_since x.1 0))
    (toy_process_all (action_state_new 0) toy_set_back) = Some ([(1000, 1100); (2000, 1990)], 100, 100).
Proof. vm_compute. reflexivity. Qed.

Example toy_paused_50 : paused_kyns_since toy_resumed 1050 = 50.
Proof. vm_compute. reflexivity. Qed.

Lemma process_isolated_witness :
  exists st' r,
    @process_action_message Toy.toy_sha2 Toy.toy_mldsa Toy.toy_codecs toy_halted
      (toy_action EmergencyHalt 1000) 1001 toy_config = Some (st', r).
Proof.
  destruct (@process_isolated Toy.toy_sha2 Toy.toy_mldsa Toy.toy_codecs toy_config toy_halted
    (toy_action EmergencyHalt 1000) 1001 ltac:(discriminate)) as (st' & r & H & _).
  exists st', r. exact H.
Defined.

(** The halt of kyn 1000 is executed again at kyn 1200 after a resume processed,
    under a clock a million kyns ahead, dropped its hash. *)
Lemma action_never_replayed_witness :
  exists st1 st2 rs st3,
    toy_process_all toy_halted (toy_run [(EmergencyResume, 1000000, 1000000)]) = Some (st2, rs) /\
    st1 = toy_halted /\
    @process_action_message Toy.toy_sha2 Toy.toy_mldsa Toy.toy_codecs st2
      (toy_action EmergencyHalt 1000) 1200 toy_config = Some (st3, Ok (Some NetworkHalted)).
Proof.
  destruct (toy_process_all toy_halted (toy_run [(EmergencyResume, 1000000, 1000000)]))
    as [[st2 rs]|] eqn:E; [|by vm_compute in E].
  destruct (@action_never_replayed Toy.toy_sha2 Toy.toy_mldsa Toy.toy_codecs toy_config
    (action_state_new 0) 1000 (toy_action EmergencyHalt 1000) toy_halted (Some NetworkHalted)
    (toy_run [(EmergencyResume, 1000000, 1000000)]) st2 rs (toy_action EmergencyHalt 1000) 1200)
    as [_ H]; [cbn; lia|split; [cbn; lia|reflexivity]|reflexivity|vm_compute; reflexivity|exact E
              |reflexivity|reflexivity|].
  assert (HE := E). vm_compute in HE. injection HE as <- <-.
  destruct (H (Some NetworkHalted)) as [st3 H3].
  - vm_compute. reflexivity.
  - left. split; reflexivity.
  - repeat constructor. cbn [fst snd]. intros _ Hh. vm_compute in Hh. discriminate Hh.
  - exists toy_halted. eexists _, _, st3. split; [reflexivity|split; [reflexivity|exact H3]].
Defined.
