(* ===== verification/Verify.v ===== *)
(** * Payload verification ([kinetic-verify], [kinetic-core/src/types/vdf.rs])

    Signature verification of reveals, direct and delegated, and the structural
    validation of a reveal. *)
From Stdlib Require Import String.
From S2P Require Import Prelude Bytes Config Crypto Names Kid Records Action.

Inductive SignatureVerifyError :=
  | MalformedPublicKey
  | VerMalformedSignature
  | VerInvalidSignature
  | DelegatedCapabilityMissing
  | DelegatedAuthorizationInvalid
  | DelegatedScopeViolation
  | DelegatedKidDocumentMissing.

#[export] Instance SignatureVerifyError_eq_dec : EqDecision SignatureVerifyError.
Proof. solve_decision. Defined.

Definition verify_error_code (e : SignatureVerifyError) : string :=
  match e with
  | MalformedPublicKey => "KIN-VER-001"
  | VerMalformedSignature => "KIN-VER-002"
  | VerInvalidSignature => "KIN-VER-003"
  | DelegatedCapabilityMissing => "KIN-VER-004"
  | DelegatedAuthorizationInvalid => "KIN-VER-005"
  | DelegatedScopeViolation => "KIN-VER-006"
  | DelegatedKidDocumentMissing => "KIN-VER-007"
  end.

Definition verify_error_severity (e : SignatureVerifyError) : Severity :=
  match e with
  | MalformedPublicKey | VerMalformedSignature => SevWarning
  | _ => SevError
  end.

Definition RESQUARING_EPOCH_KYNS : Z := 5256000.
Definition MAX_PAYLOAD_SIZE : Z := 65536.

Inductive RevealValidationError :=
  | InvalidProtocolVersion (v : Z)
  | RvInvalidName (e : NamesError)
  | RvPayloadTooLarge (size max : Z)
  | InvalidBeaconSignatureLength (expected got : Z)
  | RvInvalidPubkeyLength (expected got : Z)
  | InvalidSignatureLength (expected got : Z)
  | VdfProofTooLarge (size max : Z).

Section Validate.
Context {HUni : UnicodeCase}.

Definition reveal_validate (r : Reveal) : Result RevealValidationError unit :=
  bail_if (negb (protocol_version r =? 1)) (InvalidProtocolVersion (protocol_version r));;
  map_err RvInvalidName (is_valid_apex_name (rv_name r));;
  bail_if (len (rv_embedded_nrs r) >? MAX_PAYLOAD_SIZE)
    (RvPayloadTooLarge (len (rv_embedded_nrs r)) MAX_PAYLOAD_SIZE);;
  bail_if (negb (len (rv_beacon_signature r) =? 192))
    (InvalidBeaconSignatureLength 192 (len (rv_beacon_signature r)));;
  bail_if (negb (len (rv_pubkey r) =? KINETIC_PUBKEY_LENGTH))
    (RvInvalidPubkeyLength KINETIC_PUBKEY_LENGTH (len (rv_pubkey r)));;
  bail_if (negb (len (rv_identity_signature r) =? KINETIC_SIGNATURE_LENGTH))
    (InvalidSignatureLength KINETIC_SIGNATURE_LENGTH (len (rv_identity_signature r)));;
  bail_if (len (rv_vdf_proof r) >? 2048) (VdfProofTooLarge (len (rv_vdf_proof r)) 2048).

Lemma reveal_validate_ok r :
  reveal_validate r = Ok tt <->
  protocol_version r = 1 /\ is_valid_apex_name (rv_name r) = Ok tt /\
  len (rv_embedded_nrs r) <= MAX_PAYLOAD_SIZE /\ len (rv_beacon_signature r) = 192 /\
  len (rv_pubkey r) = KINETIC_PUBKEY_LENGTH /\
  len (rv_identity_signature r) = KINETIC_SIGNATURE_LENGTH /\ len (rv_vdf_proof r) <= 2048.
Proof.
  unfold reveal_validate. rewrite bail_if_ok, bind_ok, negb_false_iff, Z.eqb_eq.
  destruct (is_valid_apex_name (rv_name r)) as [[]|e]; cbn [map_err]; [|naive_solver].
  assert (E : forall k : Result RevealValidationError unit,
    (exists a : unit, @Ok RevealValidationError unit tt = Ok a /\ k = Ok tt) <-> k = Ok tt)
    by (intros k; split; [by intros (? & _ & ?)|by exists tt]).
  rewrite E, !bail_if_ok, !Z.gtb_ltb, !Z.ltb_ge, !negb_false_iff, !Z.eqb_eq.
  unfold bail_if. destruct (2048 <? _) eqn:E2; zbool; naive_solver lia.
Qed.

End Validate.

Definition DNS_UPDATE_CAPABILITY : bytes := bs "kinetic.capability.dns_update".
Definition HEARTBEAT_CAPABILITY : bytes := bs "kinetic.capability.heartbeat".

Section Verify.
Context {HSig : MlDsa} {HCod : Codecs} {HJcs : Jcs}.

(** [pubkey.verify(msg, sig).is_ok()] *)
Definition key_verifies (pubkey msg sig : bytes) : bool := is_ok (verify_signature pubkey msg sig).

Definition has_capability (m : Manifest) (cap : bytes) : bool :=
  existsb (fun s => bool_decide (service_type s = cap)) (services m).

(** The loop over [kid_doc.controller_keys], ending at the first key of type
    [Delegated] that verifies. *)
Definition delegated_verifies (kid_doc : Document) (signable sig : bytes) : bool :=
  existsb (fun ck =>
    bool_decide (key_type ck = bs "Delegated") &&
    match b64url_decode (public_key ck) with
    | Some pubkey_bytes => key_verifies pubkey_bytes signable sig
    | None => false
    end) (controller_keys kid_doc).

(** [<Reveal as VerifySignature>::verify_signature] *)
Definition reveal_verify_signature (r : Reveal) (network_salt : bytes)
  : Result SignatureVerifyError unit :=
  let signable := reveal_signable_bytes r network_salt in
  match rv_authorization r with
  | Some auth =>
      bail_if (negb (bool_decide (am_name auth = rv_name r))) DelegatedScopeViolation;;
      let auth_signable := auth_manifest_signable_bytes auth network_salt in
      bail_if (negb (key_verifies (rv_pubkey r) auth_signable (am_owner_signature auth)))
        DelegatedAuthorizationInvalid;;
      bail_if (negb (has_capability (am_manifest auth) DNS_UPDATE_CAPABILITY))
        DelegatedCapabilityMissing;;
      kid_doc ← ok_or (am_kid_doc auth) DelegatedKidDocumentMissing;
      bail_if (negb (delegated_verifies kid_doc signable (rv_identity_signature r)))
        VerInvalidSignature
  | None =>
      bail_if (negb (key_verifies (rv_pubkey r) signable (rv_identity_signature r)))
        VerInvalidSignature
  end;;
  match rv_previous_proof r with
  | Some prev =>
      let prev_signable := previous_proof_signable_bytes prev network_salt in
      bail_if (negb (key_verifies (rv_pubkey r) prev_signable (pp_identity_signature prev)))
        VerInvalidSignature
  | None => Ok tt
  end.

Definition envelope_verify_signature (e : NameEnvelope) (network_salt : bytes)
  : Result SignatureVerifyError unit :=
  let '(Standard reveal) := e in reveal_verify_signature reveal network_salt.

(** ** What acceptance means *)

Definition signed_by (pubkey msg sig : bytes) : Prop := verify_signature pubkey msg sig = Ok tt.

Lemma key_verifies_true pk msg sig : key_verifies pk msg sig = true <-> signed_by pk msg sig.
Proof. apply is_ok_unit. Qed.

Lemma bail_if_negb {E} (b : bool) (e : E) : bail_if (negb b) e = Ok tt <-> b = true.
Proof. destruct b; cbn; naive_solver. Qed.

Lemma bind_unit_ok {E A} (m : Result E unit) (k : Result E A) a :
  (m ≫= fun _ => k) = Ok a <-> m = Ok tt /\ k = Ok a.
Proof. destruct m as [[]|]; cbn; naive_solver. Qed.

Lemma has_capability_true m cap :
  has_capability m cap = true <-> exists s, s ∈ services m /\ service_type s = cap.
Proof. apply existsb_accepts. intros s. apply bool_decide_eq_true. Qed.

Lemma delegated_verifies_true kid_doc signable sig :
  delegated_verifies kid_doc signable sig = true <->
  exists ck, ck ∈ controller_keys kid_doc /\ key_type ck = bs "Delegated" /\
    exists pk, b64url_decode (public_key ck) = Some pk /\ signed_by pk signable sig.
Proof.
  apply existsb_accepts. intros ck. rewrite andb_true_iff, bool_decide_eq_true.
  destruct (b64url_decode _) as [pk|]; [rewrite key_verifies_true|]; naive_solver.
Qed.

(** The conditions under which a delegation is honoured. *)
Definition delegation_valid (owner : bytes) (auth : AuthorizedManifest) (cap name signable sig ns : bytes)
  : Prop :=
  am_name auth = name /\
  signed_by owner (auth_manifest_signable_bytes auth ns) (am_owner_signature auth) /\
  (exists s, s ∈ services (am_manifest auth) /\ service_type s = cap) /\
  exists kid_doc ck pk, am_kid_doc auth = Some kid_doc /\ ck ∈ controller_keys kid_doc /\
    key_type ck = bs "Delegated" /\ b64url_decode (public_key ck) = Some pk /\
    signed_by pk signable sig.

Lemma reveal_verify_signature_ok r ns :
  reveal_verify_signature r ns = Ok tt <->
  match rv_authorization r with
  | None => signed_by (rv_pubkey r) (reveal_signable_bytes r ns) (rv_identity_signature r)
  | Some auth => delegation_valid (rv_pubkey r) auth DNS_UPDATE_CAPABILITY (rv_name r)
                   (reveal_signable_bytes r ns) (rv_identity_signature r) ns
  end /\
  forall prev, rv_previous_proof r = Some prev ->
    signed_by (rv_pubkey r) (previous_proof_signable_bytes prev ns) (pp_identity_signature prev).
Proof.
  unfold reveal_verify_signature, delegation_valid. rewrite bind_unit_ok. apply and_iff_cong.
  - destruct (rv_authorization r) as [auth|].
    + rewrite !bind_unit_ok, !bail_if_negb, bool_decide_eq_true, key_verifies_true,
        has_capability_true.
      destruct (am_kid_doc auth) as [kd|]; cbn; [|naive_solver].
      rewrite bail_if_negb, delegated_verifies_true. naive_solver.
    + by rewrite bail_if_negb, key_verifies_true.
  - destruct (rv_previous_proof r) as [prev|]; [|naive_solver].
    rewrite bail_if_negb, key_verifies_true. naive_solver.
Qed.

(** C9: a reveal's signature check succeeds exactly when the reveal is signed by
    its owner, or by a key of type [Delegated] listed in the identity document
    attached to a manifest that the owner signed for the same name and that
    grants the update capability; and in both cases every chained previous
    proof is signed by the owner. *)
Theorem reveal_verify_signature_iff r ns :
  reveal_verify_signature r ns = Ok tt <->
  match rv_authorization r with
  | None => signed_by (rv_pubkey r) (reveal_signable_bytes r ns) (rv_identity_signature r)
  | Some auth => delegation_valid (rv_pubkey r) auth DNS_UPDATE_CAPABILITY (rv_name r)
                   (reveal_signable_bytes r ns) (rv_identity_signature r) ns
  end /\
  forall prev, rv_previous_proof r = Some prev ->
    signed_by (rv_pubkey r) (previous_proof_signable_bytes prev ns) (pp_identity_signature prev).
Proof. apply reveal_verify_signature_ok. Qed.

Context {HSign : MlDsaSign} {HSigLaws : MlDsaSignLaws} {HCodLaws : CodecsLaws}.

(** ** The identity document is not covered by the owner's signature *)

(** Another party's document listing its own key as [Delegated]. *)
Definition forged_doc (k : KineticKeypair) : Document :=
  {| doc_type := []; kid := MkDid []; created_at := 0;
     controller_keys := [MkControllerKey [] (bs "Delegated") (b64url_encode (to_public_bytes k))];
     manifest_ptr := None; revocation_keys := []; deactivated := false; signature := None |}.

Definition forged_authorization (auth : AuthorizedManifest) (k : KineticKeypair) : AuthorizedManifest :=
  {| am_name := am_name auth; am_manifest := am_manifest auth; am_kid_doc := Some (forged_doc k);
     am_owner_signature := am_owner_signature auth |}.

(** The reveal [r] with another zone payload and kyn, signed by [k]. *)
Definition forged_reveal (r : Reveal) (auth : AuthorizedManifest) (k : KineticKeypair)
    (payload : bytes) (kyn : Z) (ns : bytes) : Reveal :=
  let unsigned := {| protocol_version := protocol_version r; rv_name := rv_name r;
     rv_embedded_nrs := payload; rv_salt := rv_salt r; rv_kyn := kyn;
     rv_beacon_signature := rv_beacon_signature r; rv_iterations := rv_iterations r;
     rv_vdf_proof := rv_vdf_proof r; rv_pubkey := rv_pubkey r;
     rv_identity_signature := []; rv_authorization := Some (forged_authorization auth k);
     rv_previous_proof := rv_previous_proof r |} in
  {| protocol_version := protocol_version r; rv_name := rv_name r;
     rv_embedded_nrs := payload; rv_salt := rv_salt r; rv_kyn := kyn;
     rv_beacon_signature := rv_beacon_signature r; rv_iterations := rv_iterations r;
     rv_vdf_proof := rv_vdf_proof r; rv_pubkey := rv_pubkey r;
     rv_identity_signature := kp_sign k (reveal_signable_bytes unsigned ns);
     rv_authorization := Some (forged_authorization auth k);
     rv_previous_proof := rv_previous_proof r |}.

Lemma forged_delegates_verify k signable :
  delegated_verifies (forged_doc k) signable (kp_sign k signable) = true.
Proof.
  apply delegated_verifies_true. eexists. split; [left|]. split; [done|].
  exists (to_public_bytes k). split; [apply b64url_decode_encode|apply verify_own_signature].
Qed.

(** C27: A delegation is not bound to its delegates.  From any accepted
    delegated reveal, the holder of an arbitrary unrelated key can make the
    verifier accept a reveal of the same name and owner with a payload of its
    own choosing, by replacing the attached identity document. *)
Theorem delegated_reveal_forgeable r ns auth k payload kyn :
  rv_authorization r = Some auth -> reveal_verify_signature r ns = Ok tt ->
  let forged := forged_reveal r auth k payload kyn ns in
  reveal_verify_signature forged ns = Ok tt /\
  rv_name forged = rv_name r /\ rv_pubkey forged = rv_pubkey r /\ rv_embedded_nrs forged = payload.
Proof.
  intros Ha Hv. apply reveal_verify_signature_ok in Hv as [Hd Hp]. rewrite Ha in Hd.
  destruct Hd as (Hn & Ho & Hc & _). cbv zeta. split; [|done].
  apply reveal_verify_signature_ok. split; [|exact Hp].
  cbn [rv_authorization forged_reveal]. split; [done|]. split; [done|]. split; [done|].
  eexists (forged_doc k), _, (to_public_bytes k). split; [done|]. split; [left|].
  split; [done|]. split; [apply b64url_decode_encode|]. apply verify_own_signature.
Qed.

End Verify.

(** ** Witness: owner key [\[4\]], honest delegate [\[5\]], forger [\[6\]] *)

Definition toy_dns_manifest : Manifest :=
  MkManifest (bs "kinetic.manifest.v1") (kid toy_doc) 1 1000 None
    [MkService (bs "#u") DNS_UPDATE_CAPABILITY (bs "dht") (bs "-")] None.
Definition toy_delegate_doc : Document :=
  MkDocument [] (kid toy_doc) 0 [MkControllerKey [] (bs "Delegated") [5]] None [] false None.
Definition toy_auth : AuthorizedManifest :=
  let unsigned := MkAuthorizedManifest (bs "alice.kin") toy_dns_manifest (Some toy_delegate_doc) [] in
  MkAuthorizedManifest (bs "alice.kin") toy_dns_manifest (Some toy_delegate_doc)
    ([4] ++ @auth_manifest_signable_bytes toy_jcs unsigned (toy_salt 1)).
Definition toy_delegated : Reveal :=
  let mk sig := MkReveal 1 (bs "alice.kin") [7] (toy_salt 3) 20000 (bs "beef") 2000 [9; 9] [4] sig
                  (Some toy_auth) None in
  mk ([5] ++ reveal_signable_bytes (mk []) (toy_salt 1)).

Lemma delegated_reveal_forgeable_witness :
  let forged := @forged_reveal Toy.toy_codecs Toy.toy_mldsa_sign toy_delegated toy_auth
                  ([6] : @KineticKeypair Toy.toy_mldsa_sign) (bs "evil") 20001 (toy_salt 1) in
  @reveal_verify_signature Toy.toy_mldsa Toy.toy_codecs toy_jcs forged (toy_salt 1) = Ok tt /\
  rv_name forged = bs "alice.kin" /\ rv_pubkey forged = [4] /\ rv_embedded_nrs forged = bs "evil".
Proof.
  apply (@delegated_reveal_forgeable Toy.toy_mldsa Toy.toy_codecs toy_jcs Toy.toy_mldsa_sign
    Toy.toy_mldsa_sign_laws Toy.toy_codecs_laws toy_delegated (toy_salt 1) toy_auth [6] (bs "evil") 20001);
    [reflexivity|vm_compute; reflexivity].
Defined.
