(* ===== verification/Nrs.v ===== *)
(** * Name records: zones and their resolution

    [kinetic-core/src/types/nrs.rs]: zone parsing and validation.
    [kinetic-nrs/src/records.rs], [cache.rs] and [handler.rs]: the pipeline
    that turns a DNS query for a name of the network into an answer.  The JSON
    codec, the HTTP client of the daemon, the DNS name parser and the iteration
    order of [HashMap] are interfaces. *)
From Stdlib Require Import String.
From S2P Require Import Prelude Bytes Config Crypto Names Net Kid Records Action Verify.
#[local] Open Scope Z_scope.

(** ** Zones *)

Inductive NrsEntry :=
  | EntA (ip : Ipv4Addr)
  | EntAAAA (ip : Ipv6Addr)
  | EntCNAME (target : bytes)
  | EntTXT (txt : bytes)
  | EntPeerId (peer_id_str : bytes)
  | EntKID (kid_str : bytes)
  | EntIPFS (cid : bytes)
  | EntOther.

Inductive NrsError :=
  | NrsParseError
  | NrsInvalidSignature
  | TooManyRecords
  | InvalidLabelLength (label : bytes)
  | InvalidLabelCharacters (label : bytes)
  | InvalidCnameConfiguration (label : bytes)
  | TxtRecordTooLong (label : bytes)
  | InvalidCnameTarget (label : bytes)
  | InvalidPeerId (s : bytes)
  | InvalidKid (s : bytes)
  | InvalidIpfsCid (cid : bytes)
  | MultipleCnames (label : bytes)
  | UpstreamResolveError
  | DnsRequestFailed.

#[export] Instance NrsEntry_eq_dec : EqDecision NrsEntry.
Proof. solve_decision. Defined.
#[export] Instance NrsError_eq_dec : EqDecision NrsError.
Proof. solve_decision. Defined.

(** [HashMap<String, Vec<NrsEntry>>] *)
Notation NrsZone := (gmap bytes (list NrsEntry)).

(** The order in which a [HashMap] is iterated or drained. *)
Class HashOrder := hash_order : NrsZone -> list (bytes * list NrsEntry).

(** Documented behaviour: every entry is visited once, in some order. *)
Class HashOrderLaws `{HashOrder} := hash_order_perm zone : hash_order zone ≡ₚ map_to_list zone.

(** [serde_json::from_slice] at the two types the resolver reads. *)
Class NrsJson := {
  zone_from_slice : bytes -> option NrsZone;
  name_envelope_from_slice : bytes -> option NameEnvelope }.

Definition is_cname (e : NrsEntry) : bool := match e with EntCNAME _ => true | _ => false end.
Definition is_cname_or_kid (e : NrsEntry) : bool :=
  match e with EntCNAME _ | EntKID _ => true | _ => false end.

Definition AT : bytes := bs "@".
Definition STAR : bytes := bs "*".
Definition UNDERSCORE : Z := 95.

Section Zones.
Context {HUni : UnicodeCase} {HPeer : PeerIds}.

(** The characters are tested over the bytes of the string: a byte of a
    multi-byte character fails the tests as its character does. *)
Definition label_char_ok (c : Z) : bool :=
  is_ascii_alphanumeric c || (c =? HYPHEN) || (c =? UNDERSCORE).
Definition cname_char_ok (c : Z) : bool :=
  is_ascii_alphanumeric c || (c =? HYPHEN) || (c =? DOT).

(** The arms of the inner [match record]. *)
Definition validate_entry (label : bytes) (record : NrsEntry) : Result NrsError unit :=
  match record with
  | EntA _ | EntAAAA _ => Ok tt
  | EntTXT txt => bail_if (len txt >? 255) (TxtRecordTooLong label)
  | EntCNAME cname =>
      bail_if ((len cname =? 0) || (len cname >? 253)) (InvalidCnameTarget label);;
      bail_if (existsb (fun c => negb (cname_char_ok c)) cname) (InvalidCnameTarget label)
  | EntPeerId peer_id_str =>
      bail_if (negb (bool_decide (is_Some (peer_id_digest peer_id_str)))) (InvalidPeerId peer_id_str)
  | EntKID kid_str => bail_if (negb (starts_with DID_PREFIX kid_str)) (InvalidKid kid_str)
  | EntIPFS cid =>
      bail_if ((len cid =? 0) || (len cid >? 100)) (InvalidIpfsCid cid);;
      bail_if (negb (starts_with (bs "Qm") cid) && negb (starts_with (bs "b") cid)) (InvalidIpfsCid cid)
  | EntOther => Ok tt
  end.

Definition validate_label (label : bytes) : Result NrsError unit :=
  bail_if ((len label =? 0) || (len label >? 63)) (InvalidLabelLength label);;
  if bool_decide (label <> AT) && bool_decide (label <> STAR) then
    bail_if (starts_with [HYPHEN] label || ends_with [HYPHEN] label) (InvalidLabelCharacters label);;
    bail_if (existsb (fun c => negb (label_char_ok c)) label) (InvalidLabelCharacters label)
  else Ok tt.

(** One iteration of the loop over the labels. *)
Definition validate_records (it : bytes * list NrsEntry) : Result NrsError unit :=
  let '(label, records) := it in
  validate_label label;;
  let cname_count := len (filter (fun r => is_cname r = true) records) in
  bail_if (cname_count >? 1) (MultipleCnames label);;
  bail_if ((cname_count >? 0) && existsb (fun r => negb (is_cname_or_kid r)) records)
    (InvalidCnameConfiguration label);;
  try_for_each (validate_entry label) records.

Definition total_records (it : list (bytes * list NrsEntry)) : Z :=
  fold_right Z.add 0 (map (fun p => len p.2) it).

Definition zone_validate `{HashOrder} (zone : NrsZone) : Result NrsError unit :=
  bail_if (total_records (hash_order zone) >? 50) TooManyRecords;;
  try_for_each validate_records (hash_order zone).

(** [lower_records.entry(k.to_lowercase()).or_default().extend(v)] *)
Definition extend_lower (lower_records : NrsZone) (it : bytes * list NrsEntry) : NrsZone :=
  let k := to_lowercase it.1 in
  <[k := default [] (lower_records !! k) ++ it.2]> lower_records.

Definition lower_zone `{HashOrder} (zone : NrsZone) : NrsZone :=
  fold_left extend_lower (hash_order zone) ∅.

Definition zone_parse_payload `{HashOrder, NrsJson} (payload : bytes) : Result NrsError NrsZone :=
  zone ← ok_or (zone_from_slice payload) NrsParseError;
  let zone := lower_zone zone in
  zone_validate zone;;
  Ok zone.

End Zones.

(** ** The daemon's replies and the resolver cache *)

(** The reply to [GET nrs/resolve/<apex>]: the chunks of a successful body. *)
Inductive ApiReply :=
  | ApiSuccess (chunks : list bytes)
  | ApiNotFound
  | ApiStatus
  | ApiFailed.

(** The reply to [GET kid/resolve/<did>].  A successful body that is not JSON
    is [None]; the keys are [None] where [controller_keys] is no array, and a
    key is [None] where its [public_key] is no string. *)
Inductive KidReply :=
  | KidSuccess (json : option (option (list (option bytes))))
  | KidStatus
  | KidFailed.

Inductive QueryRecordType := QtA | QtAAAA | QtTXT | QtANY | QtOther.

#[export] Instance QueryRecordType_eq_dec : EqDecision QueryRecordType.
Proof. solve_decision. Defined.

(** [hickory_proto]'s name parser, and the answers the resolver builds. *)
Class DnsNames := {
  DnsName : Type;
  dns_name_from_str : bytes -> option DnsName;
  dns_root : DnsName }.

Inductive DnsData {Name : Type} :=
  | RdA (ip : Ipv4Addr)
  | RdAAAA (ip : Ipv6Addr)
  | RdCNAME (target : Name)
  | RdTXT (txt : bytes).
Arguments DnsData : clear implicits.

(** An answer section, each record with its owner name and time to live, or an
    error code. *)
Inductive DnsResponse {Name : Type} :=
  | Answer (records : list (Name * Z * DnsData Name))
  | ServFail
  | FormErr
  | NXDomain.
Arguments DnsResponse : clear implicits.

(** [while let Ok(Some(chunk)) = resp.chunk().await]: [None] once the limit is
    exceeded. *)
Fixpoint read_body (payload : bytes) (chunks : list bytes) : option bytes :=
  match chunks with
  | [] => Some payload
  | chunk :: rest =>
      if len payload + len chunk >? 100 * 1024 then None
      else read_body (payload ++ chunk) rest
  end.

(** [KineticExpiry], in seconds. *)
Definition expire_after_create (value : option bytes) : Z :=
  match value with Some _ => 300 | None => 30 end.

(** [moka]'s [try_get_with]: a cached value is returned, otherwise the future
    runs and its value is cached unless it is an error. *)
Definition try_get_with {E A} (cached : option A) (init : Result E A) : Result E A * option A :=
  match cached with
  | Some v => (Ok v, Some v)
  | None => match init with Ok v => (Ok v, Some v) | Err e => (Err e, None) end
  end.

(** ** [resolve_kinetic] *)

Section Resolve.
Context {HUni : UnicodeCase} {HPeer : PeerIds} {HOrd : HashOrder} {HJson : NrsJson}.
Context {HSig : MlDsa} {HCod : Codecs} {HJcs : Jcs} {HDns : DnsNames}.
Variable network_salt : bytes.

Definition apex_is_reserved (apex_name : bytes) : bool :=
  match split_on DOT apex_name with
  | first :: _ => bool_decide (first ∈ RESERVED_NAMES)
  | [] => false
  end.

(** The future of [try_get_with]. *)
Definition fetch_apex (is_reserved : bool) (reply : ApiReply) : Result NrsError (option bytes) :=
  match reply with
  | ApiSuccess chunks =>
      match read_body [] chunks with
      | None => Ok None
      | Some payload =>
          if negb is_reserved then
            match name_envelope_from_slice payload with
            | Some name_record =>
                if is_err (envelope_verify_signature name_record network_salt)
                then Err NrsInvalidSignature else Ok (Some payload)
            | None => Err NrsParseError
            end
          else Ok (Some payload)
      end
  | ApiNotFound => Ok None
  | ApiStatus => Err UpstreamResolveError
  | ApiFailed => Err DnsRequestFailed
  end.

(** The loop over the records of ["@"]: false once a reply is an error or does
    not list the owner key. *)
Fixpoint kids_authorized (kid_fetch : bytes -> KidReply) (expected_pubkey : bytes)
    (records : list NrsEntry) : bool :=
  match records with
  | [] => true
  | EntKID did :: rest =>
      match kid_fetch did with
      | KidSuccess None => kids_authorized kid_fetch expected_pubkey rest
      | KidSuccess (Some keys) =>
          let matched :=
            match keys with
            | Some keys => existsb (fun k => bool_decide (k = Some expected_pubkey)) keys
            | None => false
            end in
          if negb matched then false else kids_authorized kid_fetch expected_pubkey rest
      | KidStatus | KidFailed => false
      end
  | _ :: rest => kids_authorized kid_fetch expected_pubkey rest
  end.

Definition subname_of (full_name apex_name : bytes) : bytes :=
  if bool_decide (full_name = apex_name) then AT
  else
    let sub := default full_name (strip_suffix (DOT :: apex_name) full_name) in
    let sub := if ends_with [DOT] sub then take (length sub - 1) sub else sub in
    if len sub =? 0 then AT else sub.

Definition is_blocked_cname (target : bytes) : bool :=
  let target_lower := to_lowercase target in
  existsb (fun blocked_name =>
    bool_decide (target_lower = blocked_name) || ends_with (DOT :: blocked_name) target_lower)
    RESERVED_NAMES.

(** The arms of [match record]: what one record adds to the answer. *)
Definition entry_answer (q_type : QueryRecordType) (record : NrsEntry) : list (DnsData DnsName) :=
  let txt_query := bool_decide (q_type = QtTXT) || bool_decide (q_type = QtANY) in
  match record with
  | EntA ip =>
      if bool_decide (q_type = QtA) && is_ok (validate_ssrf_safe (IpV4 ip)) then [RdA ip] else []
  | EntAAAA ip =>
      if bool_decide (q_type = QtAAAA) && is_ok (validate_ssrf_safe (IpV6 ip)) then [RdAAAA ip] else []
  | EntCNAME target =>
      if is_blocked_cname target then []
      else if match parse_ip_addr target with
              | Some ip => is_err (validate_ssrf_safe ip)
              | None => false
              end then []
      else match dns_name_from_str target with
           | Some cname => [RdCNAME cname]
           | None => []
           end
  | EntTXT txt => if txt_query then [RdTXT txt] else []
  | EntPeerId pid => if txt_query then [RdTXT (bs "peerid=" ++ pid)] else []
  | EntKID kid => if txt_query then [RdTXT (bs "kid=" ++ kid)] else []
  | EntIPFS cid => if txt_query then [RdTXT (bs "ipfs=" ++ cid)] else []
  | EntOther => []
  end.

(** The loop over the records of the label. *)
Definition answer_records (q_type : QueryRecordType) (records : list NrsEntry)
  : list (DnsData DnsName) :=
  let has_cname := existsb is_cname records in
  concat (map (fun record =>
    if has_cname && negb (is_cname record) then [] else entry_answer q_type record) records).

Definition with_owner (name : DnsName) (ttl : Z) (l : list (DnsData DnsName))
  : list (DnsName * Z * DnsData DnsName) := map (fun d => (name, ttl, d)) l.

(** From the payload on. *)
Definition answer_payload (query_name full_name apex_name : bytes) (q_type : QueryRecordType)
    (kid_fetch : bytes -> KidReply) (payload_bytes : bytes) : DnsResponse DnsName :=
  match name_envelope_from_slice payload_bytes with
  | None => NXDomain
  | Some name_record =>
      match zone_parse_payload (envelope_embedded_nrs name_record) with
      | Err _ => NXDomain
      | Ok zone =>
          let expected_pubkey := b64url_encode (envelope_pubkey name_record) in
          if negb (kids_authorized kid_fetch expected_pubkey (default [] (zone !! AT))) then ServFail
          else
            let subname := subname_of full_name apex_name in
            match union (zone !! subname) (zone !! STAR) with
            | None => NXDomain
            | Some records =>
                match dns_name_from_str query_name with
                | None => FormErr
                | Some name =>
                    match answer_records q_type records with
                    | [] => NXDomain
                    | l => Answer (with_owner name 60 l)
                    end
                end
            end
      end
  end.

(** The direct answer for [localhost]. *)
Definition answer_localhost (query_name : bytes) (q_type : QueryRecordType) : DnsResponse DnsName :=
  let name := default dns_root (dns_name_from_str query_name) in
  Answer (with_owner name 3600
    match q_type with QtA => [RdA LOCALHOST4] | QtAAAA => [RdAAAA LOCALHOST6] | _ => [] end).

(** The answer, and what the cache holds for the apex afterwards. *)
Definition resolve_kinetic (query_name full_name apex_name : bytes) (q_type : QueryRecordType)
    (cached : option (option bytes)) (reply : ApiReply) (kid_fetch : bytes -> KidReply)
  : DnsResponse DnsName * option (option bytes) :=
  let is_reserved := apex_is_reserved apex_name in
  if is_reserved && bool_decide (head (split_on DOT apex_name) = Some (bs "localhost"))
  then (answer_localhost query_name q_type, cached)
  else
    let '(cache_result, cached) := try_get_with cached (fetch_apex is_reserved reply) in
    (match cache_result with
     | Ok (Some payload_bytes) =>
         answer_payload query_name full_name apex_name q_type kid_fetch payload_bytes
     | Ok None => NXDomain
     | Err _ => ServFail
     end, cached).

(** ** [handler.rs] *)

(** Which resolver a query goes to. *)
Inductive Route :=
  | ToKinetic (full_name apex_name : bytes)
  | ToAtlas
  | ToUpstream.

(** [query_name] is the printed query name; [atlas_nsps] the registered foreign
    suffixes, in iteration order. *)
Definition route_request (query_name : bytes) (atlas_nsps : list bytes) : Route :=
  let clean_name := to_lowercase query_name in
  let clean_name :=
    if ends_with [DOT] clean_name then take (length clean_name - 1) clean_name else clean_name in
  if ends_with NSP_SUFFIX clean_name then
    let full_name := normalize_name clean_name in
    ToKinetic full_name (extract_apex_name full_name)
  else if existsb (fun nsp => bool_decide (clean_name = nsp) || ends_with (DOT :: nsp) clean_name) atlas_nsps
  then ToAtlas
  else ToUpstream.

End Resolve.

(** ** Valid zones *)

Section ZoneFacts.
Context {HUni : UnicodeCase} {HPeer : PeerIds} {HOrd : HashOrder} {HOrdLaws : HashOrderLaws}.

Definition valid_zone_label (label : bytes) : Prop :=
  1 <= len label <= 63 /\
  (label = AT \/ label = STAR \/
   starts_with [HYPHEN] label = false /\ ends_with [HYPHEN] label = false /\
   Forall (fun c => label_char_ok c = true) label).

Definition valid_entry (e : NrsEntry) : Prop :=
  match e with
  | EntTXT txt => len txt <= 255
  | EntCNAME cname => 1 <= len cname <= 253 /\ Forall (fun c => cname_char_ok c = true) cname
  | EntPeerId s => is_Some (peer_id_digest s)
  | EntKID s => exists rest, s = DID_PREFIX ++ rest
  | EntIPFS cid => 1 <= len cid <= 100 /\ (exists rest, cid = bs "Qm" ++ rest \/ cid = bs "b" ++ rest)
  | EntA _ | EntAAAA _ | EntOther => True
  end.

(** RFC 1034, with the exception for identity records. *)
Definition cname_exclusive (records : list NrsEntry) : Prop :=
  len (filter (fun r => is_cname r = true) records) <= 1 /\
  ((exists t, EntCNAME t ∈ records) -> Forall (fun r => is_cname_or_kid r = true) records).

Record valid_zone (zone : NrsZone) : Prop := {
  vz_total : total_records (map_to_list zone) <= 50;
  vz_labels : map_Forall (fun label _ => valid_zone_label label) zone;
  vz_cnames : map_Forall (fun _ records => cname_exclusive records) zone;
  vz_entries : map_Forall (fun _ records => Forall valid_entry records) zone }.

Lemma validate_label_ok l : validate_label l = Ok tt <-> valid_zone_label l.
Proof.
  unfold validate_label, valid_zone_label. rewrite bail_if_ok, orb_false_iff, Z.eqb_neq.
  rewrite Z.gtb_ltb, Z.ltb_ge. pose proof (len_nonneg l).
  apply and_iff_cong; [lia|].
  destruct (decide (l = AT)) as [->|Ha]; [naive_solver|].
  destruct (decide (l = STAR)) as [->|Hs]; [naive_solver|].
  rewrite !bool_decide_true by done. cbn [andb].
  rewrite bail_if_ok, orb_false_iff, bail_if_unit, existsb_negb_Forall. naive_solver.
Qed.

Lemma validate_entry_ok l e : validate_entry l e = Ok tt <-> valid_entry e.
Proof.
  destruct e as [?|?|cname|txt|pid|kid|cid|]; cbn [validate_entry valid_entry]; try naive_solver.
  - rewrite bail_if_ok, orb_false_iff, bail_if_unit, existsb_negb_Forall, Z.eqb_neq.
    rewrite Z.gtb_ltb, Z.ltb_ge. pose proof (len_nonneg cname). apply and_iff_cong; [lia|done].
  - by rewrite bail_if_unit, Z.gtb_ltb, Z.ltb_ge.
  - by rewrite bail_if_unit, negb_false_iff, bool_decide_eq_true.
  - by rewrite bail_if_unit, negb_false_iff, starts_with_true.
  - rewrite bail_if_ok, orb_false_iff, bail_if_unit, Z.eqb_neq, Z.gtb_ltb, Z.ltb_ge.
    pose proof (len_nonneg cid). apply and_iff_cong; [lia|].
    rewrite andb_false_iff, !negb_false_iff, !starts_with_true. naive_solver.
Qed.

Lemma cname_count_pos records :
  0 < len (filter (fun r => is_cname r = true) records) <-> exists t, EntCNAME t ∈ records.
Proof.
  split.
  - destruct (filter _ _) as [|e l] eqn:E; [unfold len; cbn; lia|]. intros _.
    assert (He : e ∈ filter (fun r => is_cname r = true) records) by (rewrite E; left).
    apply list_elem_of_filter in He as [Hc He]. destruct e; try done. by eexists.
  - intros [t Ht]. assert (H : EntCNAME t ∈ filter (fun r => is_cname r = true) records)
      by (by apply list_elem_of_filter).
    apply list_elem_of_split in H as (a & b & ->). autorewrite with kinetic.
    pose proof (len_nonneg a). pose proof (len_nonneg b). lia.
Qed.

Lemma Forall_same {A} (P Q : A -> Prop) l : (forall x, P x <-> Q x) -> Forall P l <-> Forall Q l.
Proof. intros H. apply Forall_iff, H. Qed.

Lemma validate_records_ok l records :
  validate_records (l, records) = Ok tt <->
  valid_zone_label l /\ cname_exclusive records /\ Forall valid_entry records.
Proof.
  cbn [validate_records]. rewrite bind_unit_ok, validate_label_ok, !bail_if_ok, try_for_each_ok.
  apply and_iff_cong; [done|]. unfold cname_exclusive.
  rewrite <- cname_count_pos, !Z.gtb_ltb, Z.ltb_ge.
  rewrite andb_false_iff, Z.ltb_ge, existsb_negb_Forall.
  rewrite (Forall_same (fun e => validate_entry l e = Ok tt) valid_entry) by (intros; apply validate_entry_ok).
  split; [|intros [[H1 H2] H3]; split; [done|split; [|done]]].
  - intros (H1 & H2 & H3). split; [|done]. split; [done|]. intros. destruct H2; [lia|done].
  - destruct (decide (0 < len (filter (fun r => is_cname r = true) records))); [auto|left; lia].
Qed.

Lemma total_records_perm it it' : it ≡ₚ it' -> total_records it = total_records it'.
Proof. unfold total_records. induction 1; cbn; lia. Qed.

Lemma Forall_perm {A} (P : A -> Prop) l k : l ≡ₚ k -> Forall P l <-> Forall P k.
Proof. by intros ->. Qed.

Lemma map_Forall_pairs (P : bytes -> list NrsEntry -> Prop) (m : NrsZone) :
  map_Forall P m <-> Forall (fun it => P it.1 it.2) (map_to_list m).
Proof. rewrite map_Forall_to_list. apply Forall_same. by intros []. Qed.

Lemma zone_validate_ok zone : zone_validate zone = Ok tt <-> valid_zone zone.
Proof.
  unfold zone_validate. rewrite bail_if_ok, try_for_each_ok, Z.gtb_ltb, Z.ltb_ge.
  rewrite (total_records_perm _ _ (hash_order_perm zone)).
  rewrite (Forall_same (fun it => validate_records it = Ok tt) (fun it => valid_zone_label it.1 /\ cname_exclusive it.2 /\ Forall valid_entry it.2))
    by (intros []; apply validate_records_ok).
  rewrite (Forall_perm _ _ _ (hash_order_perm zone)).
  rewrite !Forall_and. split.
  - intros (Ht & Hl & Hc & He). by split; rewrite ?map_Forall_pairs.
  - intros [Ht Hl Hc He]. by rewrite map_Forall_pairs in Hl, Hc, He.
Qed.

(** ** Merging the labels *)

Lemma extend_lower_lookup m it l :
  extend_lower m it !! l =
    if decide (to_lowercase it.1 = l) then Some (default [] (m !! l) ++ it.2) else m !! l.
Proof.
  unfold extend_lower. case_decide as E; [subst; apply lookup_insert_eq|by apply lookup_insert_ne].
Qed.

Lemma fold_lower_elem it m l e :
  e ∈ default [] (fold_left extend_lower it m !! l) <->
  e ∈ default [] (m !! l) \/ exists k v, (k, v) ∈ it /\ to_lowercase k = l /\ e ∈ v.
Proof.
  revert m. induction it as [|[k v] it IH]; intros m; cbn [fold_left]; [set_solver|].
  rewrite IH, extend_lower_lookup. cbn [fst snd].
  setoid_rewrite elem_of_cons. case_decide; cbn; [rewrite elem_of_app|]; naive_solver.
Qed.

Lemma lower_zone_elem zone l e :
  e ∈ default [] (lower_zone zone !! l) <->
  exists k, to_lowercase k = l /\ e ∈ default [] (zone !! k).
Proof.
  unfold lower_zone. rewrite fold_lower_elem, lookup_empty. cbn [default].
  setoid_rewrite hash_order_perm. setoid_rewrite elem_of_map_to_list. split.
  - intros [H|(k & v & Hk & Hl & He)]; [set_solver|]. exists k. by rewrite Hk.
  - intros (k & Hl & He). right. destruct (zone !! k) as [v|] eqn:E; [naive_solver|set_solver].
Qed.

Lemma total_cons p it : total_records (p :: it) = len p.2 + total_records it.
Proof. done. Qed.

Lemma total_map_insert (m : NrsZone) k v :
  m !! k = None -> total_records (map_to_list (<[k := v]> m)) = len v + total_records (map_to_list m).
Proof. intros H. by rewrite (total_records_perm _ _ (map_to_list_insert _ _ _ H)), total_cons. Qed.

Lemma total_extend (m : NrsZone) k v :
  total_records (map_to_list (<[k := default [] (m !! k) ++ v]> m)) =
  total_records (map_to_list m) + len v.
Proof.
  destruct (m !! k) as [w|] eqn:E; cbn [default].
  - rewrite <- (insert_delete_id m k w E) at 2. rewrite <- insert_delete_eq.
    rewrite !total_map_insert by apply lookup_delete_eq. unfold id. rewrite len_app. lia.
  - rewrite total_map_insert, app_nil_l by done. lia.
Qed.

Lemma fold_lower_total it m :
  total_records (map_to_list (fold_left extend_lower it m)) =
  total_records (map_to_list m) + total_records it.
Proof.
  revert m. induction it as [|[k v] it IH]; intros m; cbn [fold_left].
  - unfold total_records at 3. cbn. lia.
  - rewrite IH, total_cons. unfold extend_lower. cbn [fst snd]. rewrite total_extend. lia.
Qed.

Lemma lower_zone_total zone :
  total_records (map_to_list (lower_zone zone)) = total_records (map_to_list zone).
Proof.
  unfold lower_zone. rewrite fold_lower_total, map_to_list_empty.
  by rewrite (total_records_perm _ _ (hash_order_perm zone)).
Qed.

Context {HJson : NrsJson}.

(** Zone parsing.  A payload is accepted exactly when it decodes and the
    zone with its labels lower-cased is valid: at most fifty records, labels
    that are ["@"], ["*"] or of letters, digits, hyphens and underscores, a
    [CNAME] alone on its label but for identity records, and every entry
    within its own limits.  Lower-casing neither loses nor invents a record,
    whatever the order in which the map is drained. *)
Theorem zone_parse_payload_iff payload zone :
  zone_parse_payload payload = Ok zone <->
  exists raw, zone_from_slice payload = Some raw /\ zone = lower_zone raw /\ valid_zone zone /\
    (forall l e, e ∈ default [] (zone !! l) <->
       exists k, to_lowercase k = l /\ e ∈ default [] (raw !! k)) /\
    total_records (map_to_list zone) = total_records (map_to_list raw).
Proof.
  unfold zone_parse_payload. rewrite bind_ok. setoid_rewrite ok_or_ok.
  setoid_rewrite bind_unit_ok. setoid_rewrite zone_validate_ok. split.
  - intros (raw & Hs & Hv & [= <-]). exists raw.
    eauto using lower_zone_elem, lower_zone_total.
  - intros (raw & Hs & -> & Hv & _). by exists raw.
Qed.

End ZoneFacts.

(** ** What an answer contains *)

Section ResolveFacts.
Context {HUni : UnicodeCase} {HPeer : PeerIds} {HOrd : HashOrder} {HJson : NrsJson}.
Context {HSig : MlDsa} {HCod : Codecs} {HJcs : Jcs} {HDns : DnsNames}.
Variable network_salt : bytes.

(** The replies under which a record of an identity lets the resolution go on:
    one that lists the owner key, or one whose body is not JSON. *)
Definition kid_accepted (kid_fetch : bytes -> KidReply) (pubkey did : bytes) : Prop :=
  kid_fetch did = KidSuccess None \/
  exists keys, kid_fetch did = KidSuccess (Some (Some keys)) /\ Some pubkey ∈ keys.

Lemma kid_accepted_dec kid_fetch pubkey did :
  match kid_fetch did with
  | KidSuccess None => true
  | KidSuccess (Some (Some keys)) => existsb (fun k => bool_decide (k = Some pubkey)) keys
  | _ => false
  end = true <-> kid_accepted kid_fetch pubkey did.
Proof.
  unfold kid_accepted. destruct (kid_fetch did) as [[[keys|]|]| |].
  2-5: split; [first [done|by left]|intros [?|(? & ? & _)]; done].
  rewrite existsb_exists. setoid_rewrite bool_decide_eq_true. setoid_rewrite <- list_elem_of_In.
  split; [intros (k & Hk & ->); right; by exists keys|].
  intros [?|(keys' & [= <-] & Hk)]; [done|]. by exists (Some pubkey).
Qed.

Lemma kids_cons (P : bytes -> Prop) e records :
  (forall did, EntKID did ∈ e :: records -> P did) <->
  (forall did, e = EntKID did -> P did) /\ forall did, EntKID did ∈ records -> P did.
Proof.
  setoid_rewrite elem_of_cons. split; [intros H; split; intros did Hd; apply H; auto|].
  intros [H1 H2] did [Hd|Hd]; auto.
Qed.

Lemma kids_authorized_iff kid_fetch pubkey records :
  kids_authorized kid_fetch pubkey records = true <->
  forall did, EntKID did ∈ records -> kid_accepted kid_fetch pubkey did.
Proof.
  induction records as [|e records IH]; cbn [kids_authorized]; [set_solver|].
  rewrite kids_cons, <- IH. destruct e as [| | | | |did| |];
    try (split; [intros H; split; [done|exact H]|by intros [_ H]]).
  assert (E : (forall d, EntKID did = EntKID d -> kid_accepted kid_fetch pubkey d) <->
    kid_accepted kid_fetch pubkey did) by (split; [auto|by intros H d [= <-]]).
  rewrite E, <- kid_accepted_dec. clear E IH.
  destruct (kid_fetch did) as [[[keys|]|]| |]; cbn [negb]; try (split; [done|by intros [? _]]).
  - destruct (existsb _ _); cbn [negb]; split; [done|by intros [_ ?]|done|by intros [? _]].
  - split; [done|by intros [_ ?]].
Qed.

(** The text a record is given out as to a TXT query. *)
Definition txt_of (e : NrsEntry) : option bytes :=
  match e with
  | EntTXT txt => Some txt
  | EntPeerId pid => Some (bs "peerid=" ++ pid)
  | EntKID did => Some (bs "kid=" ++ did)
  | EntIPFS cid => Some (bs "ipfs=" ++ cid)
  | _ => None
  end.

(** What the records of a label answer to a query. *)
Definition answers (q_type : QueryRecordType) (records : list NrsEntry) (d : DnsData DnsName) : Prop :=
  match d with
  | RdA ip => EntA ip ∈ records /\ q_type = QtA /\ validate_ssrf_safe (IpV4 ip) = Ok tt
  | RdAAAA ip => EntAAAA ip ∈ records /\ q_type = QtAAAA /\ validate_ssrf_safe (IpV6 ip) = Ok tt
  | RdCNAME n => exists t, EntCNAME t ∈ records /\ is_blocked_cname t = false /\
      dns_name_from_str t = Some n /\
      forall ip, parse_ip_addr t = Some ip -> validate_ssrf_safe ip = Ok tt
  | RdTXT txt => (q_type = QtTXT \/ q_type = QtANY) /\ exists e, e ∈ records /\ txt_of e = Some txt
  end /\
  ((exists t, EntCNAME t ∈ records) -> exists n, d = RdCNAME n).

Lemma cname_answer_elem q_type t d :
  d ∈ entry_answer q_type (EntCNAME t) <->
  exists n, d = RdCNAME n /\ is_blocked_cname t = false /\ dns_name_from_str t = Some n /\
    forall ip, parse_ip_addr t = Some ip -> validate_ssrf_safe ip = Ok tt.
Proof.
  cbn [entry_answer]. destruct (is_blocked_cname t).
  { rewrite elem_of_nil. split; [done|]. by intros (? & _ & ? & _). }
  assert (Hs : (if match parse_ip_addr t with Some ip => is_err (validate_ssrf_safe ip) | None => false end
                then False else True) <->
    forall ip, parse_ip_addr t = Some ip -> validate_ssrf_safe ip = Ok tt).
  { destruct (parse_ip_addr t) as [ip|]; [|by split]. destruct (validate_ssrf_safe ip) as [[]|e] eqn:E; cbn [is_err].
    - split; [|done]. by intros _ ? [= <-].
    - split; [done|]. intros H. specialize (H _ eq_refl). congruence. }
  destruct (match parse_ip_addr t with Some ip => _ | None => false end).
  { rewrite elem_of_nil. split; [done|]. intros (? & _ & _ & _ & H). by apply Hs. }
  destruct (dns_name_from_str t) as [n|]; [rewrite list_elem_of_singleton|rewrite elem_of_nil].
  - split; [intros ->; exists n; by rewrite <- Hs|]. by intros (? & -> & _ & [= <-] & _).
  - split; [done|]. by intros (? & _ & _ & ? & _).
Qed.

(** [entry_answer] by the data it gives out. *)
Lemma entry_answer_elem q_type e d :
  d ∈ entry_answer q_type e <->
  match d with
  | RdA ip => e = EntA ip /\ q_type = QtA /\ validate_ssrf_safe (IpV4 ip) = Ok tt
  | RdAAAA ip => e = EntAAAA ip /\ q_type = QtAAAA /\ validate_ssrf_safe (IpV6 ip) = Ok tt
  | RdCNAME n => exists t, e = EntCNAME t /\ is_blocked_cname t = false /\
      dns_name_from_str t = Some n /\
      forall ip, parse_ip_addr t = Some ip -> validate_ssrf_safe ip = Ok tt
  | RdTXT txt => (q_type = QtTXT \/ q_type = QtANY) /\ txt_of e = Some txt
  end.
Proof.
  assert (Hok : forall ip : IpAddr, is_ok (validate_ssrf_safe ip) = true <-> validate_ssrf_safe ip = Ok tt)
    by (intros ip; destruct (validate_ssrf_safe ip) as [[]|]; cbn; split; congruence).
  assert (Hq : bool_decide (q_type = QtTXT) || bool_decide (q_type = QtANY) = true <->
               q_type = QtTXT \/ q_type = QtANY) by (rewrite orb_true_iff, !bool_decide_eq_true; done).
  destruct e as [ip|ip|t|txt|pid|kid|cid|].
  3: { rewrite cname_answer_elem. destruct d as [?|?|n|?].
    3: split; [intros (? & [= <-] & H); by exists t|intros (? & [= <-] & H); by exists n].
    all: split; [by intros (? & ? & _)|]; first [by intros [? _]|by intros [_ ?]]. }
  all: cbn [entry_answer txt_of].
  1,2: destruct (bool_decide _ && _) eqn:E;
    [apply andb_true_iff in E as [E1 E2]; apply bool_decide_eq_true in E1; apply Hok in E2;
     rewrite list_elem_of_singleton; destruct d; naive_solver
    |rewrite elem_of_nil; split; [done|]; intros H; apply not_true_iff_false in E; apply E;
     apply andb_true_iff; rewrite bool_decide_eq_true, Hok; destruct d; naive_solver].
  1-4: destruct (_ || _); [rewrite list_elem_of_singleton|rewrite elem_of_nil]; destruct d; naive_solver.
  rewrite elem_of_nil. split; [done|].
  destruct d; first [by intros [? _]|by intros (? & ? & _)|by intros [_ ?]].
Qed.

Lemma existsb_cname records : existsb is_cname records = true <-> exists t, EntCNAME t ∈ records.
Proof.
  rewrite existsb_exists. setoid_rewrite <- list_elem_of_In. split; [|intros [t Ht]; by exists (EntCNAME t)].
  intros (e & He & Hc). destruct e; try done. by eexists.
Qed.

Lemma answer_records_elem q_type records d :
  d ∈ answer_records q_type records <-> answers q_type records d.
Proof.
  unfold answer_records, answers. rewrite list_elem_of_In, in_concat. setoid_rewrite in_map_iff.
  assert (Hc := existsb_cname records). destruct (existsb is_cname records); cbn [andb].
  - assert (Ht : exists t, EntCNAME t ∈ records) by by apply Hc. split.
    + intros (l & (e & <- & He) & Hd). apply list_elem_of_In in He, Hd.
      destruct (is_cname e) eqn:Ee; cbn [negb] in Hd; [|set_solver].
      apply entry_answer_elem in Hd. destruct e; try done. destruct d; naive_solver.
    + intros [Hd Hn]. destruct (Hn Ht) as [n ->]. destruct Hd as (t & Hm & Hb).
      exists (entry_answer q_type (EntCNAME t)). rewrite <- list_elem_of_In. split.
      * exists (EntCNAME t). by rewrite <- list_elem_of_In.
      * apply entry_answer_elem. by exists t.
  - assert (Ht : ~ exists t, EntCNAME t ∈ records) by (by rewrite <- Hc). split.
    + intros (l & (e & <- & He) & Hd). apply list_elem_of_In in He, Hd.
      apply entry_answer_elem in Hd. destruct d; naive_solver.
    + intros [Hd _].
      assert (exists e, e ∈ records /\ d ∈ entry_answer q_type e) as (e & He & Hd')
        by (setoid_rewrite entry_answer_elem; destruct d; naive_solver).
      exists (entry_answer q_type e). rewrite <- list_elem_of_In. split; [|done].
      exists e. by rewrite <- list_elem_of_In.
Qed.

Lemma read_body_some acc chunks p :
  read_body acc chunks = Some p -> len acc <= 102400 -> p = acc ++ concat chunks /\ len p <= 102400.
Proof.
  revert acc. induction chunks as [|c rest IH]; intros acc H Ha; cbn [read_body concat] in *.
  - injection H as <-. by rewrite app_nil_r.
  - destruct (_ >? _) eqn:E; [done|]. zbool. apply IH in H as [-> H]; [|rewrite len_app; lia].
    by rewrite <- app_assoc in *.
Qed.

(** Where the payload behind an answer came from. *)
Definition payload_source (apex_name : bytes) (cached : option (option bytes)) (reply : ApiReply)
    (payload : bytes) : Prop :=
  cached = Some (Some payload) \/
  cached = None /\ (exists chunks, reply = ApiSuccess chunks /\ payload = concat chunks) /\
  len payload <= 102400 /\
  (apex_is_reserved apex_name = false -> exists rec,
     name_envelope_from_slice payload = Some rec /\ envelope_verify_signature rec network_salt = Ok tt).

Lemma fetch_apex_some apex_name reply payload :
  fetch_apex network_salt (apex_is_reserved apex_name) reply = Ok (Some payload) ->
  payload_source apex_name None reply payload.
Proof.
  unfold fetch_apex, payload_source. destruct reply as [chunks| | |]; try done.
  destruct (read_body [] chunks) as [p|] eqn:Er; [|done].
  apply read_body_some in Er as [-> Hl]; [|done]. rewrite app_nil_l in *.
  intros H. right. split; [done|].
  assert (E : payload = concat chunks) by (repeat case_match; congruence). subst payload.
  split; [by exists chunks|split; [done|]]. intros Hr. rewrite Hr in H. cbn [negb] in H.
  destruct (name_envelope_from_slice _) as [rec|]; [|done].
  destruct (is_err _) eqn:Ev; [done|]. exists rec. by apply is_err_unit in Ev.
Qed.

Lemma try_get_with_source apex_name cached reply payload c' :
  try_get_with cached (fetch_apex network_salt (apex_is_reserved apex_name) reply) = (Ok (Some payload), c') ->
  payload_source apex_name cached reply payload /\ c' = Some (Some payload).
Proof.
  unfold try_get_with. destruct cached as [v|].
  - intros [= -> <-]. split; [by left|done].
  - destruct (fetch_apex _ _ _) as [v|e] eqn:E; [|done]. intros [= -> <-].
    split; [by apply fetch_apex_some|done].
Qed.

(** C8: soundness of resolution, for every name but ["localhost"].  An answer
    comes from one payload: the cached one, or one fetched within the size limit
    that is signed unless the apex is a reserved name.  Its embedded zone is
    valid and every identity on the apex was accepted.  The answer holds exactly
    what the records of the label, or of the wildcard when the label has none,
    answer to the query, under the query's name and for a minute: addresses of
    the asked family that pass the SSRF filter, the texts of the records to TXT
    and ANY queries, and for a label with a [CNAME], whatever the type asked,
    that target and nothing else. *)
Theorem resolve_answer_sound query_name full_name apex_name q_type cached reply kid_fetch l c' :
  head (split_on DOT apex_name) <> Some (bs "localhost") ->
  resolve_kinetic network_salt query_name full_name apex_name q_type cached reply kid_fetch =
    (Answer l, c') ->
  exists payload rec zone records name,
    payload_source apex_name cached reply payload /\ c' = Some (Some payload) /\
    name_envelope_from_slice payload = Some rec /\
    zone_parse_payload (envelope_embedded_nrs rec) = Ok zone /\
    (forall did, EntKID did ∈ default [] (zone !! AT) ->
       kid_accepted kid_fetch (b64url_encode (envelope_pubkey rec)) did) /\
    union (zone !! subname_of full_name apex_name) (zone !! STAR) = Some records /\
    dns_name_from_str query_name = Some name /\
    (forall x, x ∈ l <-> x.1 = (name, 60) /\ answers q_type records x.2).
Proof.
  intros Hlh. unfold resolve_kinetic. rewrite (bool_decide_false _ Hlh), andb_false_r.
  destruct (try_get_with _ _) as [[[payload|]|e] c] eqn:Et; try done.
  apply try_get_with_source in Et as [Hs ->]. unfold answer_payload.
  destruct (name_envelope_from_slice payload) as [rec|] eqn:En; [|done].
  destruct (zone_parse_payload _) as [zone|e] eqn:Ez; [|done]. cbv zeta.
  destruct (kids_authorized _ _ _) eqn:Ek; cbn [negb]; [|done].
  destruct (union _ _) as [records|] eqn:Eu; [|done].
  destruct (dns_name_from_str query_name) as [name|] eqn:Ed; [|done].
  destruct (answer_records q_type records) as [|d ds] eqn:Ea; [done|]. intros [= <- <-].
  exists payload, rec, zone, records, name. rewrite kids_authorized_iff in Ek.
  do 7 (split; [done|]).
  intros [nt d']. rewrite <- answer_records_elem, Ea. cbn [fst snd].
  change ((nt, d') ∈ with_owner name 60 (d :: ds) <-> nt = (name, 60) /\ d' ∈ d :: ds).
  unfold with_owner. rewrite list_elem_of_fmap. naive_solver.
Qed.

(** The block list of [CNAME] targets is bypassed by a final dot.  For every
    reserved name, the target that ends in the root label is a valid entry and
    is answered to any query; so is a dotted loopback address. *)
Theorem cname_final_dot_bypasses_block blocked q_type label n :
  blocked ∈ (bs "127.0.0.1" :: RESERVED_NAMES) ->
  dns_name_from_str (blocked ++ [DOT]) = Some n ->
  validate_entry label (EntCNAME (blocked ++ [DOT])) = Ok tt /\
  entry_answer q_type (EntCNAME (blocked ++ [DOT])) = [RdCNAME n] /\
  entry_answer q_type (EntCNAME blocked) = [].
Proof.
  intros Hb Hn. cbn [entry_answer]. rewrite Hn.
  assert (H : Forall (fun b => validate_entry label (EntCNAME (b ++ [DOT])) = Ok tt /\
    is_blocked_cname (b ++ [DOT]) = false /\ parse_ip_addr (b ++ [DOT]) = None /\
    (is_blocked_cname b = true \/ parse_ip_addr b = Some (IpV4 LOCALHOST4)))
    (bs "127.0.0.1" :: RESERVED_NAMES)).
  { repeat (apply Forall_cons; split; [vm_compute; auto 6|]). done. }
  rewrite Forall_forall in H. destruct (H _ Hb) as (Hv & -> & -> & Hblk).
  split; [done|split; [done|]]. destruct Hblk as [-> | ->]; [done|].
  by destruct (is_blocked_cname blocked).
Qed.

End ResolveFacts.

(** ** Witnesses *)

Module ToyZones.

Definition peers : PeerIds := {| peer_id_digest s := Some s; ed25519_peer_id k := k |}.
Definition order : HashOrder := map_to_list.
Lemma order_laws : @HashOrderLaws order.
Proof. by intros zone. Qed.

Definition names : DnsNames := {| DnsName := bytes; dns_name_from_str s := Some s; dns_root := [] |}.

Definition raw_zone : NrsZone :=
  <[bs "WWW" := [EntA (V4 1 1 1 1)]]> (<[bs "www" := [EntA (V4 10 0 0 1); EntTXT (bs "hello")]]>
    {[AT := [EntKID (bs "did:kin:aa"); EntCNAME (bs "alice.example.com")]]}).

Definition json : NrsJson := {|
  zone_from_slice p := if bool_decide (p = bs "zone") then Some raw_zone else None;
  name_envelope_from_slice p :=
    if bool_decide (p = bs "envelope")
    then Some (Standard (MkReveal 1 (bs "alice.kin") (bs "zone") [] 0 [] 0 [] [4] [] None None))
    else None |}.

Definition parsed : Result NrsError NrsZone :=
  @zone_parse_payload ascii_only peers order json (bs "zone").

Example merged :
  match parsed with Ok zone => zone !! bs "www" | Err _ => None end =
    Some [EntA (V4 10 0 0 1); EntTXT (bs "hello"); EntA (V4 1 1 1 1)].
Proof. vm_compute. reflexivity. Qed.

Definition resolve (full : bytes) (q : QueryRecordType) : DnsResponse bytes * option (option bytes) :=
  @resolve_kinetic ascii_only peers order json Toy.toy_mldsa Toy.toy_codecs toy_jcs names (toy_salt 1)
    full full (bs "alice.kin") q (Some (Some (bs "envelope"))) ApiFailed
    (fun _ => KidSuccess (Some (Some [Some [4]]))).

(** The private address of the label is not answered. *)
Example www : (resolve (bs "www.alice.kin") QtA).1 =
  Answer [(bs "www.alice.kin", 60, RdA (V4 1 1 1 1))].
Proof. vm_compute. reflexivity. Qed.

End ToyZones.

Lemma zone_parse_payload_iff_witness :
  total_records (map_to_list ToyZones.raw_zone) = 5 /\
  exists zone, ToyZones.parsed = Ok zone /\ total_records (map_to_list zone) = 5.
Proof.
  split; [vm_compute; reflexivity|]. destruct ToyZones.parsed as [zone|] eqn:E; [|by vm_compute in E].
  exists zone. split; [done|].
  apply (@zone_parse_payload_iff ascii_only ToyZones.peers ToyZones.order ToyZones.order_laws ToyZones.json)
    in E as (raw & Hr & _ & _ & _ & ->).
  vm_compute in Hr. injection Hr as <-. vm_compute. reflexivity.
Defined.

Lemma resolve_answer_sound_witness :
  @answers ascii_only ToyZones.names QtA
    [EntA (V4 10 0 0 1); EntTXT (bs "hello"); EntA (V4 1 1 1 1)] (RdA (V4 1 1 1 1)).
Proof.
  destruct (@resolve_answer_sound ascii_only ToyZones.peers ToyZones.order ToyZones.json Toy.toy_mldsa
    Toy.toy_codecs toy_jcs ToyZones.names (toy_salt 1) (bs "www.alice.kin") (bs "www.alice.kin")
    (bs "alice.kin") QtA (Some (Some (bs "envelope"))) ApiFailed
    (fun _ => KidSuccess (Some (Some [Some [4]]))) [(bs "www.alice.kin", 60, RdA (V4 1 1 1 1))]
    (Some (Some (bs "envelope")))) as (p & rec & zone & records & name & _ & Hp & Hrec & Hz & _ & Hu & _ & Hf).
  - vm_compute. discriminate.
  - vm_compute. reflexivity.
  - injection Hp as <-. vm_compute in Hrec. injection Hrec as <-. vm_compute in Hz. injection Hz as <-.
    vm_compute in Hu. injection Hu as <-. exact (proj2 (proj1 (Hf _) ltac:(left))).
Defined.

Lemma cname_final_dot_bypasses_block_witness :
  @entry_answer ascii_only ToyZones.names QtA (EntCNAME (bs "localhost.")) = [RdCNAME (bs "localhost.")].
Proof.
  apply (@cname_final_dot_bypasses_block ascii_only ToyZones.peers ToyZones.names (bs "localhost") QtA AT);
    [set_solver|reflexivity].
Defined.
