(* ===== verification/Lru.v ===== *)
(** * The bounded cache ([lru::LruCache])

    The third-party cache behind the record store, the peer registry and the
    event loop, as an interface: its operations, the map it stands for and the
    order of its iteration. *)
From S2P Require Import Prelude Bytes.

(** [lru::LruCache] with keys that are byte strings. *)
Class LruCache := {
  Lru : Type -> Type;
  lru_new {V} : nat -> Lru V;
  lru_get {V} : Lru V -> bytes -> Lru V * option V;
  lru_peek {V} : Lru V -> bytes -> option V;
  lru_contains {V} : Lru V -> bytes -> bool;
  lru_push {V} : Lru V -> bytes -> V -> Lru V * option (bytes * V);
  lru_pop {V} : Lru V -> bytes -> Lru V;
  lru_iter {V} : Lru V -> list (bytes * V) }.

(** [LruCache::put]: [push] without the evicted entry. *)
Definition lru_put `{LruCache} {V} (c : Lru V) (k : bytes) (v : V) : Lru V := (lru_push c k v).1.

(** Documented behaviour of [lru]: a bounded map; [push] evicts at most one
    other entry, and only to make room for a new key. *)
Class LruLaws `{LruCache} := {
  lru_view {V} : Lru V -> gmap bytes V;
  lru_view_new {V} n : lru_view (lru_new (V := V) n) = ∅;
  lru_get_value {V} (c : Lru V) k : (lru_get c k).2 = lru_view c !! k;
  lru_get_view {V} (c : Lru V) k : lru_view (lru_get c k).1 = lru_view c;
  lru_peek_view {V} (c : Lru V) k : lru_peek c k = lru_view c !! k;
  lru_contains_view {V} (c : Lru V) k : lru_contains c k = bool_decide (is_Some (lru_view c !! k));
  lru_push_view {V} (c : Lru V) k v :
    match (lru_push c k v).2 with
    | Some (k', v') =>
        lru_view c !! k' = Some v' /\
        lru_view (lru_push c k v).1 = <[k := v]> (delete k' (lru_view c))
    | None => lru_view (lru_push c k v).1 = <[k := v]> (lru_view c)
    end;
  lru_pop_view {V} (c : Lru V) k : lru_view (lru_pop c k) = delete k (lru_view c);
  lru_iter_view {V} (c : Lru V) k v : (k, v) ∈ lru_iter c <-> lru_view c !! k = Some v }.

(** Documented behaviour: [iter] goes from the most to the least recently used
    entry, a use or a [put] moves the entry to the front, and the entries
    beyond the capacity are the least recently used. *)
Class LruOrder `{LruCache} := {
  lru_cap {V} : Lru V -> nat;
  lru_cap_new {V} n : lru_cap (lru_new (V := V) n) = n;
  lru_cap_push {V} (c : Lru V) k v : lru_cap (lru_push c k v).1 = lru_cap c;
  lru_iter_new {V} n : lru_iter (lru_new (V := V) n) = [];
  lru_iter_push {V} (c : Lru V) k v :
    lru_iter (lru_push c k v).1 = take (lru_cap c) ((k, v) :: filter (fun p => p.1 <> k) (lru_iter c)) }.

(** ** A concrete cache: the entries from the most to the least recently used *)

Section Concrete.

Definition assoc_get {V} (l : list (bytes * V)) (k : bytes) : option V :=
  snd <$> head (filter (fun p => p.1 = k) l).

Definition assoc_del {V} (l : list (bytes * V)) (k : bytes) : list (bytes * V) :=
  filter (fun p => p.1 <> k) l.

Definition list_lru : LruCache := {|
  Lru V := (nat * list (bytes * V))%type;
  lru_new V n := (n, []);
  lru_get V c k :=
    match assoc_get c.2 k with
    | Some v => ((c.1, (k, v) :: assoc_del c.2 k), Some v)
    | None => (c, None)
    end;
  lru_peek V c k := assoc_get c.2 k;
  lru_contains V c k := bool_decide (is_Some (assoc_get c.2 k));
  lru_push V c k v := ((c.1, take c.1 ((k, v) :: assoc_del c.2 k)), last (drop c.1 ((k, v) :: assoc_del c.2 k)));
  lru_pop V c k := (c.1, assoc_del c.2 k);
  lru_iter V c := c.2 |}.

End Concrete.
