(* ===== verification/Peers.v ===== *)
(** * Peer admission and the peer registry

    [kinetic-network/src/challenge.rs]: the proof of work a peer identity
    carries and its epochs.  [kinetic-network/src/peer_registry.rs]: the cache
    of public peers and its file format.  Argon2, the JSON codec and the
    multiaddr codec are interfaces. *)
From Stdlib Require Import String.
From S2P Require Import Prelude Bytes Kyn Net Lru.
#[local] Open Scope Z_scope.

(** ** The proof of work *)

(** [Argon2id] over the peer bytes with the epoch as salt; [None] when the
    memory cannot be allocated. *)
Class Argon2 := argon2_hash : bytes -> bytes -> option bytes.

Definition EPOCH_KYNS : Z := 1440.

(** [u8::leading_zeros] *)
Definition leading_zeros8 (b : Z) : Z := if b =? 0 then 8 else 7 - Z.log2 b.

Fixpoint leading_zeros (hash : bytes) : Z :=
  match hash with
  | [] => 0
  | b :: rest => if b =? 0 then 8 + leading_zeros rest else leading_zeros8 b
  end.

Section Challenge.
Context {HArgon : Argon2}.

Definition compute_pow_hash (peer_bytes : bytes) (epoch : Z) : option bytes :=
  argon2_hash peer_bytes (u64_be epoch).

(** The last eight bytes, or all of them right-aligned. *)
Definition offset_bytes (peer_bytes : bytes) : bytes :=
  let n := length peer_bytes in
  if (8 <=? n)%nat then drop (n - 8) peer_bytes else replicate (8 - n) 0 ++ peer_bytes.

Definition staggered_epoch (peer_bytes : bytes) (kyn : Kyn) : Z :=
  let offset := be_val (offset_bytes peer_bytes) mod EPOCH_KYNS in
  sat_add kyn offset / EPOCH_KYNS.

Definition pow_meets (peer_bytes : bytes) (epoch difficulty : Z) : bool :=
  match compute_pow_hash peer_bytes epoch with
  | Some hash => leading_zeros hash >=? difficulty
  | None => false
  end.

Definition verify_p2p_challenge (is_dev_mode : bool) (peer_bytes : bytes) (current_kyn : Kyn)
    (difficulty : Z) : bool :=
  if is_dev_mode then true
  else if current_kyn =? 0 then false
  else
    let current_epoch := staggered_epoch peer_bytes current_kyn in
    if pow_meets peer_bytes current_epoch difficulty then true
    else if (current_epoch >? 0) && pow_meets peer_bytes (current_epoch - 1) difficulty then true
    else false.

(** The mining loop: [keypairs] are the peer ids of the identities the random
    generator yields in turn.  [None] is a panic, or the end of the list. *)
Fixpoint solve_loop (keypairs : list bytes) (current_kyn : Kyn) (difficulty : Z) : option bytes :=
  match keypairs with
  | [] => None
  | peer_bytes :: rest =>
      hash ← compute_pow_hash peer_bytes (staggered_epoch peer_bytes current_kyn);
      if leading_zeros hash >=? difficulty then Some peer_bytes
      else solve_loop rest current_kyn difficulty
  end.

Definition solve_p2p_challenge (is_dev_mode : bool) (keypairs : list bytes) (current_kyn : Kyn)
    (difficulty : Z) : option bytes :=
  if (current_kyn =? 0) && negb is_dev_mode then None
  else if is_dev_mode then head keypairs
  else solve_loop keypairs current_kyn difficulty.

End Challenge.

(** ** The registry *)

(** [libp2p::Multiaddr] and [PeerId]; a peer id is its bytes. *)
Class Multiaddrs := {
  MAddr : Type;
  maddr_protocols : MAddr -> Multiaddr;
  maddr_to_vec : MAddr -> bytes;
  maddr_try_from : bytes -> option MAddr;
  peer_id_from_bytes : bytes -> bool }.

(** Documented behaviour: encoding is inverted by decoding. *)
Class MultiaddrsLaws `{Multiaddrs} := { maddr_round a : maddr_try_from (maddr_to_vec a) = Some a }.

(** [serde_json] at [RegistryData]. *)
Class RegistryJson := {
  registry_to_vec : list (bytes * list bytes) -> option bytes;
  registry_from_slice : bytes -> option (list (bytes * list bytes)) }.

Class RegistryJsonLaws `{RegistryJson} := {
  registry_round data b : registry_to_vec data = Some b -> registry_from_slice b = Some data }.

Inductive P2pError := PeerRegistryCorruption | PeerRegistrySerialization.

Section Registry.
Context {HLru : LruCache} {HAddr : Multiaddrs} {HJson : RegistryJson}.

Record PeerRegistry := MkPeerRegistry { cache : Lru (list MAddr) }.

Definition registry_new (capacity : nat) : PeerRegistry :=
  MkPeerRegistry (lru_new (if (capacity =? 0)%nat then 500 else capacity)).

(** The loop over [parsed.peers]. *)
Fixpoint load_peers (registry : PeerRegistry) (peers : list (bytes * list bytes))
  : Result P2pError PeerRegistry :=
  match peers with
  | [] => Ok registry
  | (peer_bytes, addrs_bytes) :: rest =>
      if peer_id_from_bytes peer_bytes then
        let addrs := omap maddr_try_from addrs_bytes in
        load_peers
          (if (length addrs =? 0)%nat then registry
           else MkPeerRegistry (lru_put (cache registry) peer_bytes addrs)) rest
      else Err PeerRegistryCorruption
  end.

Definition registry_from_bytes (capacity : nat) (data : bytes) : Result P2pError PeerRegistry :=
  parsed ← ok_or (registry_from_slice data) PeerRegistryCorruption;
  load_peers (registry_new capacity) parsed.

Definition registry_to_bytes (self : PeerRegistry) : Result P2pError bytes :=
  let peers := map (fun p => (p.1, map maddr_to_vec p.2)) (lru_iter (cache self)) in
  ok_or (registry_to_vec peers) PeerRegistrySerialization.

Definition mark_connected (self : PeerRegistry) (peer : bytes) : PeerRegistry :=
  MkPeerRegistry (lru_get (cache self) peer).1.

Definition add_verified_peer (self : PeerRegistry) (peer : bytes) (addrs : list MAddr)
  : PeerRegistry * bool :=
  let public_addrs := filter (fun a => is_public_addr (maddr_protocols a) = true) addrs in
  if negb (length public_addrs =? 0)%nat
  then (MkPeerRegistry (lru_put (cache self) peer public_addrs), true)
  else (self, false).

End Registry.

(** ** Leading zeros *)

Lemma leading_zeros_bound h d :
  wf_bytes h -> 0 <= d <= 8 * len h ->
  leading_zeros h >= d <-> be_val h < 2 ^ (8 * len h - d).
Proof.
  intros Hw. revert d. induction Hw as [|b h Hb Hw IH]; intros d Hd.
  - cbn in *. assert (d = 0) as -> by (unfold len in Hd; cbn in Hd; lia). cbn. lia.
  - rewrite len_cons in *. pose proof (len_nonneg h). pose proof (be_val_bounds _ Hw) as Hv.
    unfold is_byte in Hb. cbn [leading_zeros be_val].
    replace (256 ^ len h) with (2 ^ (8 * len h)) in * by (rewrite Z.pow_mul_r by lia; reflexivity).
    destruct (b =? 0) eqn:E; zbool.
    + subst b. rewrite Z.mul_0_l, Z.add_0_l. destruct (Z.le_gt_cases d 8) as [H8|H8].
      * assert (be_val h < 2 ^ (8 * (1 + len h) - d)).
        { eapply Z.lt_le_trans; [apply Hv|]. apply Z.pow_le_mono_r; lia. }
        assert (leading_zeros h >= 0) by (apply (IH 0); [lia|]; rewrite Z.sub_0_r; apply Hv). lia.
      * replace (8 * (1 + len h) - d) with (8 * len h - (d - 8)) by lia. rewrite <- IH by lia. lia.
    + unfold leading_zeros8. destruct (b =? 0) eqn:E0; zbool; [done|].
      pose proof (Z.log2_spec b ltac:(lia)) as Hl. pose proof (Z.log2_nonneg b).
      rewrite <- Z.add_1_r in Hl.
      assert (Hpow : forall k, 0 <= k -> 2 ^ (k + 8 * len h) = 2 ^ k * 2 ^ (8 * len h))
        by (intros; apply Z.pow_add_r; lia).
      split; intros Hz.
      * apply Z.lt_le_trans with (2 ^ (Z.log2 b + 1 + 8 * len h)); [rewrite Hpow by lia; nia|].
        apply Z.pow_le_mono_r; lia.
      * apply Z.le_ge, Z.nlt_ge. intros Hlt.
        assert (2 ^ (8 * (1 + len h) - d) <= 2 ^ (Z.log2 b + 8 * len h)) by (apply Z.pow_le_mono_r; lia).
        rewrite Hpow in * by lia. nia.
Qed.

(** ** Epochs *)

Section ChallengeFacts.
Context {HArgon : Argon2}.

Lemma staggered_epoch_eq p k :
  0 <= k -> k + EPOCH_KYNS <= 2 ^ 64 ->
  exists offset, 0 <= offset < EPOCH_KYNS /\ staggered_epoch p k = (k + offset) / EPOCH_KYNS.
Proof.
  unfold staggered_epoch, EPOCH_KYNS, sat_add, u64_max. intros Hk Hu.
  pose proof (Z.mod_pos_bound (be_val (offset_bytes p)) 1440 ltac:(lia)) as Ho.
  set (o := be_val (offset_bytes p) mod 1440) in *. exists o. split; [done|].
  by rewrite Z.min_r by lia.
Qed.

(** One offset serves every kyn. *)
Lemma staggered_epoch_window p k k' :
  0 <= k <= k' -> k' + EPOCH_KYNS <= 2 ^ 64 ->
  (k' <= k + EPOCH_KYNS -> staggered_epoch p k <= staggered_epoch p k' <= staggered_epoch p k + 1) /\
  (k + 2 * EPOCH_KYNS <= k' -> staggered_epoch p k + 2 <= staggered_epoch p k').
Proof.
  unfold staggered_epoch, EPOCH_KYNS. intros Hk Hu.
  pose proof (Z.mod_pos_bound (be_val (offset_bytes p)) 1440 ltac:(lia)) as Ho.
  set (o := be_val (offset_bytes p) mod 1440) in *. unfold sat_add, u64_max.
  rewrite !Z.min_r by lia. split; intros; dlia.
Qed.

Lemma verify_p2p_challenge_true p k d :
  verify_p2p_challenge false p k d = true <->
  k <> 0 /\ (pow_meets p (staggered_epoch p k) d = true \/
    0 < staggered_epoch p k /\ pow_meets p (staggered_epoch p k - 1) d = true).
Proof.
  unfold verify_p2p_challenge. destruct (k =? 0) eqn:E; zbool; [naive_solver|].
  destruct (pow_meets p (staggered_epoch p k) d); [naive_solver|].
  destruct (staggered_epoch p k >? 0) eqn:E0; zbool; cbn [andb].
  - destruct (pow_meets p (staggered_epoch p k - 1) d); naive_solver.
  - split; [done|]. intros (_ & [?|[? _]]); [done|lia].
Qed.

Lemma solve_loop_meets keys k d p :
  solve_loop keys k d = Some p -> pow_meets p (staggered_epoch p k) d = true.
Proof.
  induction keys as [|q keys IH]; cbn [solve_loop]; [done|].
  destruct (compute_pow_hash q _) as [h|] eqn:E; cbn; [|done].
  destruct (leading_zeros h >=? d) eqn:El; [|done]. intros [= <-]. unfold pow_meets. by rewrite E.
Qed.

(** The work of one epoch serves for 1440 kyns. *)
Lemma meets_window p k k' d :
  0 < k -> pow_meets p (staggered_epoch p k) d = true ->
  k <= k' <= k + EPOCH_KYNS -> k' + EPOCH_KYNS <= 2 ^ 64 -> verify_p2p_challenge false p k' d = true.
Proof.
  intros Hk Hm Hk' Hu. destruct (staggered_epoch_window p k k') as [Hnear _]; [unfold EPOCH_KYNS in *; lia|done|].
  specialize (Hnear ltac:(lia)). rewrite verify_p2p_challenge_true. split; [lia|].
  assert (Hn : 0 <= staggered_epoch p k)
    by (destruct (staggered_epoch_eq p k) as (o & Ho & ->);
        [lia|unfold EPOCH_KYNS in *; lia|apply Z.div_pos; unfold EPOCH_KYNS in *; lia]).
  destruct (Z.eq_dec (staggered_epoch p k') (staggered_epoch p k)) as [->|Hne]; [by left|right].
  split; [lia|]. by replace (staggered_epoch p k' - 1) with (staggered_epoch p k) by lia.
Qed.

(** The life of a mined identity.  An identity mined at a kyn passes the
    check from that kyn on for at least one epoch of 1440 kyns, whatever its
    peer id; and two epochs later it passes only if it carries the work of a
    later epoch. *)
Theorem mined_identity_window keys k d p :
  0 < k -> solve_p2p_challenge false keys k d = Some p ->
  (forall k', k <= k' <= k + EPOCH_KYNS -> k' + EPOCH_KYNS <= 2 ^ 64 ->
     verify_p2p_challenge false p k' d = true) /\
  (forall k', k + 2 * EPOCH_KYNS <= k' -> k' + EPOCH_KYNS <= 2 ^ 64 ->
     verify_p2p_challenge false p k' d = true ->
     exists e, staggered_epoch p k < e /\ pow_meets p e d = true).
Proof.
  intros Hk. unfold solve_p2p_challenge. cbn [negb]. rewrite andb_true_r.
  destruct (k =? 0) eqn:E; [done|]. intros Hm%solve_loop_meets.
  split; intros k' Hk' Hu; [by apply (meets_window p k)|].
  destruct (staggered_epoch_window p k k') as [_ Hfar]; [unfold EPOCH_KYNS in *; lia|done|].
  specialize (Hfar ltac:(lia)). rewrite verify_p2p_challenge_true.
  intros (_ & [Hp|[_ Hp]]); eexists; (split; [|exact Hp]); lia.
Qed.

End ChallengeFacts.

(** ** The registry file *)

Section RegistryFacts.
Context {HLru : LruCache} {HLruO : LruOrder} {HAddr : Multiaddrs} {HAddrL : MultiaddrsLaws}.
Context {HJson : RegistryJson} {HJsonL : RegistryJsonLaws}.

Record registry_wf (r : PeerRegistry) : Prop := {
  rw_nodup : NoDup (lru_iter (cache r)).*1;
  rw_entries : Forall (fun p => peer_id_from_bytes p.1 = true /\ p.2 <> []) (lru_iter (cache r)) }.

Definition encoded (l : list (bytes * list MAddr)) : list (bytes * list bytes) :=
  map (fun p => (p.1, map maddr_to_vec p.2)) l.

Lemma decode_addrs l : omap maddr_try_from (map maddr_to_vec l) = l.
Proof. induction l as [|a l IH]; cbn; [done|]. rewrite maddr_round. by rewrite IH. Qed.

Lemma filter_all {A} (P : A -> Prop) `{forall x, Decision (P x)} l : Forall P l -> filter P l = l.
Proof. induction 1 as [|x l Hx _ IH]; [done|]. by rewrite filter_cons_True, IH. Qed.

(** The entries are put in the order of the file. *)
Lemma load_peers_iter l r cap :
  lru_cap (cache r) = cap ->
  NoDup (l.*1 ++ (lru_iter (cache r)).*1) -> (length l + length (lru_iter (cache r)) <= cap)%nat ->
  Forall (fun p => peer_id_from_bytes p.1 = true /\ p.2 <> []) l ->
  exists r', load_peers r (encoded l) = Ok r' /\ lru_cap (cache r') = cap /\
    lru_iter (cache r') = reverse l ++ lru_iter (cache r).
Proof.
  revert r. induction l as [|[p addrs] l IH]; intros r Hc Hnd Hlen Hok; [by exists r|].
  apply Forall_cons in Hok as [[Hp Ha] Hok]. cbn [fst snd] in *.
  rewrite fmap_cons in Hnd. cbn [app] in Hnd. apply NoDup_cons in Hnd as [Hnin Hnd].
  unfold encoded. cbn [map load_peers fst snd]. fold (encoded l). rewrite Hp, decode_addrs.
  replace (length addrs =? 0)%nat with false by (by destruct addrs).
  set (r1 := MkPeerRegistry (lru_put (cache r) p addrs)).
  assert (Hi : lru_iter (cache r1) = (p, addrs) :: lru_iter (cache r)).
  { unfold r1, lru_put. cbn [cache]. rewrite lru_iter_push, Hc. cbn [length] in Hlen.
    replace (filter (fun q => q.1 <> p) (lru_iter (cache r))) with (lru_iter (cache r)).
    - apply take_ge. cbn [length]. lia.
    - symmetry. apply filter_all, Forall_forall. intros [q w] Hq E. cbn in E. subst q.
      apply Hnin, elem_of_app. right. by apply (list_elem_of_fmap_2 fst) in Hq. }
  destruct (IH r1) as (r' & El & Ec & Ei).
  - unfold r1, lru_put. cbn [cache]. by rewrite lru_cap_push.
  - rewrite Hi, fmap_cons. cbn [fst]. apply NoDup_app in Hnd as (N1 & N2 & N3).
    rewrite elem_of_app in Hnin. apply NoDup_app. split; [done|split].
    + intros x Hx [->|Hy]%elem_of_cons; [tauto|]. by eapply N2.
    + apply NoDup_cons. tauto.
  - rewrite Hi. cbn [length] in *. lia.
  - done.
  - exists r'. split; [done|split; [done|]]. rewrite Ei, Hi, reverse_cons, <- app_assoc. done.
Qed.

(** Saving and loading the registry keeps every peer and reverses the
    order of use: the file lists the peers from the most recently used on, and
    loading puts them in that order, so after a restart the first peer to be
    evicted is the one that was used last. *)
Theorem registry_reload_reverses r cap b :
  registry_wf r -> (0 < cap)%nat -> (length (lru_iter (cache r)) <= cap)%nat ->
  registry_to_bytes r = Ok b ->
  exists r', registry_from_bytes cap b = Ok r' /\
    lru_iter (cache r') = reverse (lru_iter (cache r)) /\
    forall peer addrs, peer ∉ (lru_iter (cache r)).*1 -> Forall (fun a => is_public_addr (maddr_protocols a) = true) addrs ->
      addrs <> [] ->
      lru_iter (cache (add_verified_peer r' peer addrs).1) =
        (peer, addrs) :: take (cap - 1) (reverse (lru_iter (cache r))).
Proof.
  intros [Hnd Hok] Hcap Hlen Hb. unfold registry_to_bytes in Hb. apply ok_or_ok in Hb.
  apply registry_round in Hb. unfold registry_from_bytes. rewrite Hb. cbn [ok_or mbind result_bind].
  fold (encoded (lru_iter (cache r))).
  assert (En : lru_iter (cache (registry_new cap)) = []) by apply lru_iter_new.
  destruct (load_peers_iter (lru_iter (cache r)) (registry_new cap) cap) as (r' & El & Ec & Ei).
  - unfold registry_new. cbn [cache]. rewrite lru_cap_new. by destruct cap; [lia|].
  - by rewrite En, app_nil_r.
  - rewrite En. cbn [length]. lia.
  - done.
  - exists r'. split; [done|]. rewrite Ei, En, app_nil_r. split; [done|].
    intros peer addrs Hp Hpub Ha. unfold add_verified_peer.
    rewrite (filter_all _ addrs) by done.
    replace (length addrs =? 0)%nat with false by (by destruct addrs). cbn [negb fst cache].
    unfold lru_put. rewrite lru_iter_push, Ec, Ei, En, app_nil_r.
    rewrite filter_all.
    + destruct cap as [|n]; [lia|]. by replace (S n - 1)%nat with n by lia.
    + apply Forall_forall. intros [q w] Hq E. cbn in E. subst q. rewrite elem_of_reverse in Hq.
      apply Hp. by apply (list_elem_of_fmap_2 fst) in Hq.
Qed.

End RegistryFacts.

(** ** Witnesses *)

Module ToyPeers.

(** The hash is the epoch's low byte in front of the peer's. *)
Definition argon : Argon2 := fun p salt => Some (default 255 (last p) :: salt).

Example mined : @solve_p2p_challenge argon false [[200]; [7]; [3]] 5000 6 = Some [3].
Proof. reflexivity. Qed.

Definition addrs : Multiaddrs := {|
  MAddr := bytes; maddr_protocols a := match a with [x] => [PIp4 (V4 x 1 1 1)] | _ => [] end;
  maddr_to_vec a := a; maddr_try_from b := Some b; peer_id_from_bytes _ := true |}.

Lemma addrs_laws : @MultiaddrsLaws addrs.
Proof. by split. Qed.

(** The file of the two peers of the witness. *)
Definition two : list (bytes * list bytes) := [([1], [[1]]); ([2], [[8]; [9]])].
Definition json : RegistryJson := {|
  registry_to_vec d := if bool_decide (d = two) then Some [42] else None;
  registry_from_slice b := Some two |}.

Lemma json_laws : @RegistryJsonLaws json.
Proof. split. intros data b. cbn. case_bool_decide; congruence. Qed.

Lemma list_lru_order : @LruOrder list_lru.
Proof. by refine {| lru_cap := fun V (c : @Lru list_lru V) => c.1 |}. Defined.

Definition registry : @PeerRegistry list_lru addrs :=
  @MkPeerRegistry list_lru addrs (2%nat, two).

End ToyPeers.

Lemma mined_identity_window_witness :
  @verify_p2p_challenge ToyPeers.argon false [3] 6440 6 = true.
Proof.
  apply (@mined_identity_window ToyPeers.argon [[200]; [7]; [3]] 5000 6 [3]);
    [lia|reflexivity|unfold EPOCH_KYNS; lia|unfold EPOCH_KYNS; lia].
Defined.

Lemma registry_reload_reverses_witness :
  exists r', @registry_from_bytes list_lru ToyPeers.addrs ToyPeers.json 2 [42] = Ok r' /\
    @lru_iter list_lru _ (cache r') = [([2], [[8]; [9]]); ([1], [[1]])].
Proof.
  destruct (@registry_reload_reverses list_lru ToyPeers.list_lru_order ToyPeers.addrs ToyPeers.addrs_laws
    ToyPeers.json ToyPeers.json_laws ToyPeers.registry 2 [42]) as (r' & H & E & _).
  - split.
    + cbn. apply NoDup_cons. split; [|apply NoDup_singleton].
      intros H%list_elem_of_singleton. discriminate.
    + repeat constructor; discriminate.
  - lia.
  - cbn. lia.
  - reflexivity.
  - exists r'. split; [exact H|]. rewrite E. reflexivity.
Defined.
