(* ===== verification/DnsTree.v ===== *)
(** * Seed discovery over DNS ([kinetic-network/src/dns_tree.rs])

    [resolve_dns_tree]: the TXT records of a seed domain give addresses, or the
    root of a tree of TXT records whose leaves do.  The DNS resolver and the
    multiaddr parser are interfaces.  The traversal is depth first, over a
    budget of lookups and of addresses. *)
From Stdlib Require Import String.
From S2P Require Import Prelude Bytes Net Lru Peers.
#[local] Open Scope Z_scope.

(** The system's resolver, when its configuration can be read, the TXT records
    of a domain, each with its strings, and [str::parse::<Multiaddr>]. *)
Class DnsSeeds `{Multiaddrs} := {
  system_resolver : bool;
  txt_records : bytes -> option (list (list bytes));
  maddr_from_str : bytes -> option MAddr }.

(** ** Strings *)

(** [std::str::from_utf8]: the well-formed byte sequences of the standard. *)
Definition in_range (lo hi b : Z) : bool := (lo <=? b) && (b <=? hi).
Definition utf8_width (s : bytes) : nat :=
  match s with
  | a :: rest =>
      if a <? 128 then 1%nat
      else match rest with
      | b :: rest =>
          if in_range 194 223 a && in_range 128 191 b then 2%nat
          else match rest with
          | c :: rest =>
              let second := if a =? 224 then in_range 160 191 b else
                            if a =? 237 then in_range 128 159 b else in_range 128 191 b in
              if in_range 224 239 a && second && in_range 128 191 c then 3%nat
              else match rest with
              | d :: _ =>
                  let second := if a =? 240 then in_range 144 191 b else
                                if a =? 244 then in_range 128 143 b else in_range 128 191 b in
                  if in_range 240 244 a && second && in_range 128 191 c && in_range 128 191 d then 4%nat else 0%nat
              | [] => 0%nat
              end
          | [] => 0%nat
          end
      | [] => 0%nat
      end
  | [] => 0%nat
  end.
Fixpoint utf8_valid_loop (fuel : nat) (s : bytes) : bool :=
  match s, fuel with
  | [], _ => true
  | _, O => false
  | _, S n => match utf8_width s with O => false | w => utf8_valid_loop n (drop w s) end
  end.
Definition utf8_valid (s : bytes) : bool := utf8_valid_loop (length s) s.

(** The encodings of the characters with the property [White_Space]. *)
Definition WHITE_SPACE : list bytes :=
  [[9]; [10]; [11]; [12]; [13]; [32]; [194; 133]; [194; 160]; [225; 154; 128]]
  ++ map (fun b => [226; 128; b]) [128; 129; 130; 131; 132; 133; 134; 135; 136; 137; 138; 168; 169; 175]
  ++ [[226; 129; 159]; [227; 128; 128]].

(** The white space a string starts, or ends, with. *)
Definition leading_space (s : bytes) : option bytes := find (fun c => starts_with c s) WHITE_SPACE.
Definition trailing_space (s : bytes) : option bytes := find (fun c => ends_with c s) WHITE_SPACE.

Fixpoint trim_start_loop (fuel : nat) (s : bytes) : bytes :=
  match fuel, leading_space s with
  | S n, Some c => trim_start_loop n (drop (length c) s)
  | _, _ => s
  end.
Fixpoint trim_end_loop (fuel : nat) (s : bytes) : bytes :=
  match fuel, trailing_space s with
  | S n, Some c => trim_end_loop n (take (length s - length c) s)
  | _, _ => s
  end.
Definition trim_start (s : bytes) : bytes := trim_start_loop (length s) s.
Definition trim_end (s : bytes) : bytes := trim_end_loop (length s) s.
Definition trim (s : bytes) : bytes := trim_end (trim_start s).

(** [split_whitespace().next()]: the first word. *)
Fixpoint word_loop (s : bytes) : bytes :=
  match s with
  | [] => []
  | b :: rest => match leading_space s with Some _ => [] | None => b :: word_loop rest end
  end.
Definition first_word (s : bytes) : option bytes :=
  match trim_start s with [] => None | s => Some (word_loop s) end.

(** [trim_start_matches(p)] for a pattern that is not empty. *)
Fixpoint trim_start_matches_loop (fuel : nat) (p s : bytes) : bytes :=
  match fuel with
  | S n => if starts_with p s then trim_start_matches_loop n p (drop (length p) s) else s
  | O => s
  end.
Definition trim_start_matches (p s : bytes) : bytes := trim_start_matches_loop (length s) p s.

(** What precedes and follows the first occurrence of [p]. *)
Fixpoint split_once (p s : bytes) : option (bytes * bytes) :=
  if starts_with p s then Some ([], drop (length p) s)
  else match s with
       | [] => None
       | b :: rest => match split_once p rest with Some (x, y) => Some (b :: x, y) | None => None end
       end.
(** [split(p).nth(1)] *)
Definition split_nth1 (p s : bytes) : option bytes :=
  match split_once p s with
  | Some (_, rest) => Some (match split_once p rest with Some (x, _) => x | None => rest end)
  | None => None
  end.

(** ** The tree *)

Section Tree.
Context {HAddr : Multiaddrs} {HSeeds : DnsSeeds}.

(** The strings of a response that are UTF-8. *)
Definition txt_strings (records : list (list bytes)) : list bytes := filter (fun s => utf8_valid s = true) (concat records).

(** A string of the seed domain: the root of a tree, or an address. *)
Definition root_txt (st : option bytes * list MAddr) (txt_str : bytes) : option bytes * list MAddr :=
  let '(root_hash, addrs) := st in
  if starts_with (bs "kintree-root:v1") txt_str then
    match split_nth1 (bs " e=") txt_str with
    | Some hash_part => (Some (default hash_part (first_word hash_part)), addrs)
    | None => st
    end
  else if starts_with (bs "/ip4/") txt_str || starts_with (bs "/ip6/") txt_str then
    match maddr_from_str (trim txt_str) with
    | Some ma => (root_hash, addrs ++ [ma])
    | None => st
    end
  else st.

(** The branches and the address of a string of a branch. *)
Definition branch_hashes (txt_str : bytes) : list bytes :=
  filter (fun h => h <> []) (map trim (split_on 44 (trim_start_matches (bs "kintree-branch:") txt_str))).

(** A string of a branch: further branches go on the stack, whose top is the
    head of the list. *)
Definition branch_txt (st : list bytes * list MAddr) (txt_str : bytes) : list bytes * list MAddr :=
  let '(branches, addrs) := st in
  if starts_with (bs "kintree-branch:") txt_str then (reverse (branch_hashes txt_str) ++ branches, addrs)
  else if starts_with (bs "kintree-leaf:") txt_str then
    match maddr_from_str (trim (trim_start_matches (bs "kintree-leaf:") txt_str)) with
    | Some ma => (branches, addrs ++ [ma])
    | None => st
    end
  else st.

Definition MAX_LOOKUPS : nat := 20.
Definition MAX_SEED_ADDRS : nat := 50.

(** The state of the loop. *)
Record Traversal := MkTraversal { branches_to_visit : list bytes; visited : list bytes; addrs : list MAddr }.

Definition branch_domain (branch_hash domain : bytes) : bytes := branch_hash ++ [DOT] ++ domain.

(** What the lookup of a branch adds. *)
Definition visit_branch (domain branch_hash : bytes) (rest : list bytes) (t : Traversal) : Traversal :=
  let '(branches, found) :=
    match txt_records (branch_domain branch_hash domain) with
    | Some response => fold_left branch_txt (txt_strings response) (rest, addrs t)
    | None => (rest, addrs t)
    end in
  MkTraversal branches (branch_hash :: visited t) found.

(** The [while] loop, with the lookups that are left: every turn takes a branch
    from the stack, and those that put some on it use up a lookup.  The branch
    at which a limit ends the loop is left on the stack of the result. *)
Fixpoint traverse (lookups_left : nat) (domain : bytes) (t : Traversal) : Traversal :=
  (fix pop (stack : list bytes) : Traversal :=
     match stack with
     | [] => MkTraversal [] (visited t) (addrs t)
     | branch_hash :: rest =>
         match lookups_left with
         | O => MkTraversal stack (visited t) (addrs t)
         | S n =>
             if (MAX_SEED_ADDRS <=? length (addrs t))%nat then MkTraversal stack (visited t) (addrs t)
             else if bool_decide (branch_hash ∈ visited t) then pop rest
             else traverse n domain (visit_branch domain branch_hash rest t)
         end
     end) (branches_to_visit t).

Definition root_records (domain : bytes) : option (option bytes * list MAddr) :=
  if system_resolver then
    match txt_records domain with
    | Some records => Some (fold_left root_txt (txt_strings records) (None, []))
    | None => None
    end
  else None.

Definition traverse_from (domain hash : bytes) (flat : list MAddr) : Traversal :=
  traverse MAX_LOOKUPS domain (MkTraversal [hash] [] flat).

Definition resolve_dns_tree (domain : bytes) : list MAddr :=
  match root_records domain with
  | None => []
  | Some (None, flat) => flat
  | Some (Some hash, flat) => addrs (traverse_from domain hash flat)
  end.

End Tree.

(** ** What a traversal visits *)

Section TreeFacts.
Context {HAddr : Multiaddrs} {HSeeds : DnsSeeds}.

(** The branches and the addresses of a branch. *)
Definition txt_children (strings : list bytes) : list bytes :=
  concat (map (fun s => if starts_with (bs "kintree-branch:") s then branch_hashes s else []) strings).
Definition txt_leaf (s : bytes) : option MAddr :=
  if starts_with (bs "kintree-branch:") s then None
  else if starts_with (bs "kintree-leaf:") s
  then maddr_from_str (trim (trim_start_matches (bs "kintree-leaf:") s)) else None.

Definition branch_strings (domain h : bytes) : list bytes :=
  match txt_records (branch_domain h domain) with Some response => txt_strings response | None => [] end.
Definition children (domain h : bytes) : list bytes := txt_children (branch_strings domain h).
Definition leaves (domain h : bytes) : list MAddr := omap txt_leaf (branch_strings domain h).

(** The branches of the tree. *)
Inductive in_tree (domain root : bytes) : bytes -> Prop :=
  | tree_root : in_tree domain root root
  | tree_child h c : in_tree domain root h -> c ∈ children domain h -> in_tree domain root c.

Lemma fold_branch_txt l rest a :
  fold_left branch_txt l (rest, a) = (reverse (txt_children l) ++ rest, a ++ omap txt_leaf l).
Proof.
  revert rest a. induction l as [|s l IH]; intros rest a; [by rewrite app_nil_r|].
  cbn [fold_left omap list_omap]. unfold branch_txt at 2. unfold txt_children, txt_leaf at 1. cbn [map concat].
  fold (txt_children l). destruct (starts_with (bs "kintree-branch:") s).
  - by rewrite IH, reverse_app, <- app_assoc.
  - destruct (starts_with (bs "kintree-leaf:") s); [|by rewrite IH].
    destruct (maddr_from_str _); rewrite IH; [|done]. by rewrite <- app_assoc.
Qed.

Lemma visit_branch_spec domain h rest t :
  visit_branch domain h rest t =
  MkTraversal (reverse (children domain h) ++ rest) (h :: visited t) (addrs t ++ leaves domain h).
Proof.
  unfold visit_branch, children, leaves, branch_strings.
  destruct (txt_records _); [by rewrite fold_branch_txt|]. cbn. by rewrite app_nil_r.
Qed.

Lemma traverse_cons n domain h rest v a :
  traverse n domain (MkTraversal (h :: rest) v a) =
  match n with
  | O => MkTraversal (h :: rest) v a
  | S m =>
      if (MAX_SEED_ADDRS <=? length a)%nat then MkTraversal (h :: rest) v a
      else if bool_decide (h ∈ v) then traverse n domain (MkTraversal rest v a)
      else traverse m domain (visit_branch domain h rest (MkTraversal rest v a))
  end.
Proof. by destruct n. Qed.

Lemma traverse_nil n domain v a : traverse n domain (MkTraversal [] v a) = MkTraversal [] v a.
Proof. by destruct n. Qed.

(** What holds at every turn of the loop. *)
Record tree_inv (domain root : bytes) (flat : list MAddr) (t : Traversal) : Prop := {
  inv_nodup : NoDup (visited t);
  inv_visited : Forall (in_tree domain root) (visited t);
  inv_stack : Forall (in_tree domain root) (branches_to_visit t);
  inv_addrs : addrs t = flat ++ concat (map (leaves domain) (reverse (visited t)));
  inv_last h l : visited t = h :: l -> (length (flat ++ concat (map (leaves domain) (reverse l))) < MAX_SEED_ADDRS)%nat;
  inv_closed c : c = root \/ (exists h, h ∈ visited t /\ c ∈ children domain h) ->
    c ∈ visited t \/ c ∈ branches_to_visit t }.

(** A branch that was visited leaves the stack; a new one is visited. *)
Lemma inv_skip domain root flat h rest v a :
  h ∈ v -> tree_inv domain root flat (MkTraversal (h :: rest) v a) -> tree_inv domain root flat (MkTraversal rest v a).
Proof.
  intros Hv [H1 H2 H3 H4 H5 H6]. split; try done; [by apply Forall_cons in H3 as [_ ?]|].
  intros c Hc. destruct (H6 c Hc) as [|[->|]%elem_of_cons]; auto.
Qed.

Lemma inv_visit domain root flat h rest v a :
  h ∉ v -> (length a < MAX_SEED_ADDRS)%nat -> tree_inv domain root flat (MkTraversal (h :: rest) v a) ->
  tree_inv domain root flat (visit_branch domain h rest (MkTraversal rest v a)).
Proof.
  intros Hv Ha [H1 H2 H3 H4 H5 H6]. rewrite visit_branch_spec.
  cbn [visited addrs branches_to_visit] in *. apply Forall_cons in H3 as [Hh H3].
  split; cbn [visited addrs branches_to_visit].
  - by constructor.
  - by constructor.
  - apply Forall_app. split; [|done]. apply Forall_forall. intros c Hc. rewrite elem_of_reverse in Hc. eapply tree_child; [exact Hh|exact Hc].
  - rewrite H4, reverse_cons, map_app, concat_app. cbn. by rewrite app_nil_r, app_assoc.
  - intros h' l [= <- <-]. by rewrite <- H4.
  - intros c Hc. rewrite elem_of_cons, elem_of_app, elem_of_reverse.
    destruct Hc as [->|(x & [->|Hx]%elem_of_cons & Hc)]; [|auto|].
    + destruct (H6 root) as [|[->|]%elem_of_cons]; auto.
    + destruct (H6 c) as [|[->|]%elem_of_cons]; eauto.
Qed.

Lemma traverse_inv domain root flat n t :
  tree_inv domain root flat t -> (length (visited t) + n = MAX_LOOKUPS)%nat ->
  let t' := traverse n domain t in
  tree_inv domain root flat t' /\ (length (visited t') <= MAX_LOOKUPS)%nat /\
  (branches_to_visit t' = [] \/ length (visited t') = MAX_LOOKUPS \/ (MAX_SEED_ADDRS <= length (addrs t'))%nat).
Proof.
  revert t. induction n as [|n IH]; intros [stack v a]; cbn [visited]; revert v a.
  - intros v a Hi Hn. rewrite Nat.add_0_r in Hn.
    destruct stack as [|h rest]; [rewrite traverse_nil|rewrite traverse_cons];
      (split; [done|]; cbn [visited]; split; [by rewrite Hn|right; by left]).
  - induction stack as [|h rest IHs]; intros v a Hi Hn.
    { rewrite traverse_nil. split; [done|]. cbn. split; [lia|by left]. }
    rewrite traverse_cons. destruct (MAX_SEED_ADDRS <=? length a)%nat eqn:Ha.
    { apply Nat.leb_le in Ha. split; [done|]. cbn. lia. }
    apply Nat.leb_gt in Ha. case_bool_decide as Hv.
    + apply IHs; [by apply inv_skip with h|done].
    + apply IH; [by apply inv_visit|]. rewrite visit_branch_spec. cbn. lia.
Qed.

(** C31: the discovery of seeds over a DNS tree ends, within its budget, and
    misses nothing unless it was used up.  The branches looked up are distinct
    branches of the tree, at most twenty; the result is the addresses of the
    seed domain followed by those of the branches in the order of the visits;
    the lookups stop with the one that reaches fifty addresses; and when
    neither limit was reached every branch of the tree was visited. *)
Theorem dns_tree_traversal domain root flat :
  root_records domain = Some (Some root, flat) ->
  exists looked_up,
    resolve_dns_tree domain = flat ++ concat (map (leaves domain) looked_up) /\
    NoDup looked_up /\ Forall (in_tree domain root) looked_up /\ (length looked_up <= MAX_LOOKUPS)%nat /\
    (forall before h, looked_up = before ++ [h] ->
       (length (flat ++ concat (map (leaves domain) before)) < MAX_SEED_ADDRS)%nat) /\
    ((length looked_up < MAX_LOOKUPS)%nat -> (length (resolve_dns_tree domain) < MAX_SEED_ADDRS)%nat ->
     forall h, in_tree domain root h -> h ∈ looked_up).
Proof.
  intros Hr. unfold resolve_dns_tree. rewrite Hr. unfold traverse_from.
  destruct (traverse_inv domain root flat MAX_LOOKUPS (MkTraversal [root] [] flat)) as ([H1 H2 H3 H4 H5 H6] & Hl & He).
  { split; cbn; [constructor|constructor|by repeat constructor|by rewrite app_nil_r|done|].
    intros c [->|(h & Hh & _)]; [right; left|by apply elem_of_nil in Hh]. }
  { done. }
  set (t := traverse _ _ _) in *. exists (reverse (visited t)). split; [done|].
  rewrite length_reverse. split_and!; [by rewrite (reverse_Permutation (visited t))|by rewrite (reverse_Permutation (visited t))|done| |].
  - intros before h Hb. specialize (H5 h (reverse before)). rewrite reverse_involutive in H5. apply H5.
    apply (f_equal reverse) in Hb. by rewrite reverse_involutive, reverse_app in Hb.
  - intros Hlt Ha h Hh. destruct He as [He|[He|He]]; [|lia|lia]. rewrite He in H6.
    assert (Hin : forall c, c = root \/ (exists h, h ∈ visited t /\ c ∈ children domain h) -> c ∈ visited t).
    { intros c Hc. destruct (H6 c Hc) as [|Hn]; [done|by apply elem_of_nil in Hn]. }
    apply elem_of_reverse. induction Hh as [|h c Hh IH Hc]; [apply Hin; by left|]. apply Hin. right. by exists h.
Qed.

End TreeFacts.

(** ** Witness *)

Module ToyTree.

(** A root with two branches, one of which leads back to the root; an address
    is any string that starts with a slash. *)
Definition seeds : @DnsSeeds ToyPeers.addrs := {|
  system_resolver := true;
  txt_records d :=
    if bool_decide (d = bs "seed") then Some [[bs "/ip4/a"]; [bs "kintree-root:v1 e=R l=x"; [255]]]
    else if bool_decide (d = bs "R.seed") then Some [[bs "kintree-branch:A, B ,"]; [bs "kintree-leaf: /r"]]
    else if bool_decide (d = bs "A.seed") then Some [[bs "kintree-branch:R,B"]]
    else if bool_decide (d = bs "B.seed") then Some [[bs "kintree-leaf:/b"]; [bs "kintree-leaf:b"]]
    else None;
  maddr_from_str s := if starts_with (bs "/") s then Some (s : @MAddr ToyPeers.addrs) else None |}.

Example resolved : @resolve_dns_tree ToyPeers.addrs seeds (bs "seed") = [bs "/ip4/a"; bs "/r"; bs "/b"].
Proof. vm_compute. reflexivity. Qed.

End ToyTree.

Lemma dns_tree_traversal_witness :
  exists looked_up, @resolve_dns_tree ToyPeers.addrs ToyTree.seeds (bs "seed")
    = [bs "/ip4/a"] ++ concat (map (@leaves ToyPeers.addrs ToyTree.seeds (bs "seed")) looked_up).
Proof.
  destruct (@dns_tree_traversal ToyPeers.addrs ToyTree.seeds (bs "seed") (bs "R") [bs "/ip4/a"]) as (l & H & _).
  - vm_compute. reflexivity.
  - exists l. exact H.
Defined.
