(* ===== verification/Storage.v ===== *)
(** * Persistent storage ([kinetic-storage])

    The [StorageEngine] trait as an interface with its contract; the ordered
    map behind both back ends; the native engine over [redb] transactions and
    the WASM engine with its append-only OPFS log, its replay and its quota. *)
From Stdlib Require Import String.
From S2P Require Import Prelude Bytes Action.
From stdpp Require Import sorting.
#[local] Open Scope Z_scope.

Inductive StorageError :=
  | DatabaseLocked
  | Corruption (msg : bytes)
  | ReadFailed (msg : bytes)
  | WriteFailed (msg : bytes)
  | DeleteFailed (msg : bytes)
  | ScanFailed (msg : bytes)
  | OpenFailed (msg : bytes)
  | DeserializationFailed (msg : bytes)
  | InvalidRecordDiscarded
  | UnreferencedHeartbeatPurged.

#[export] Instance StorageError_eq_dec : EqDecision StorageError.
Proof. solve_decision. Defined.

Definition storage_error_code (e : StorageError) : string :=
  match e with
  | DatabaseLocked => "KIN-DBE-001"
  | Corruption _ => "KIN-DBE-002"
  | ReadFailed _ => "KIN-DBE-003"
  | WriteFailed _ => "KIN-DBE-004"
  | DeleteFailed _ => "KIN-DBE-005"
  | ScanFailed _ => "KIN-DBE-006"
  | OpenFailed _ => "KIN-DBE-007"
  | DeserializationFailed _ => "KIN-DBE-008"
  | InvalidRecordDiscarded => "KIN-DBE-011"
  | UnreferencedHeartbeatPurged => "KIN-DBE-012"
  end.

Definition storage_error_severity (e : StorageError) : Severity :=
  match e with
  | DatabaseLocked => SevCritical
  | InvalidRecordDiscarded | UnreferencedHeartbeatPurged => SevWarning
  | _ => SevError
  end.

Definition storage_error_is_retryable (e : StorageError) : bool :=
  match e with
  | ReadFailed _ | WriteFailed _ | DeleteFailed _ | ScanFailed _ | OpenFailed _ => true
  | _ => false
  end.

(** ** The trait [StorageEngine] ([kinetic-core/src/traits.rs])

    The receiver is shared and internally mutable: a write returns the new
    store next to its result. *)
Class StorageEngine := {
  Sto : Type;
  sto_put : Sto -> bytes -> bytes -> Sto * Result StorageError unit;
  sto_get : Sto -> bytes -> Result StorageError (option bytes);
  sto_delete : Sto -> bytes -> Sto * Result StorageError unit;
  sto_scan_prefix : Sto -> bytes -> option nat -> Result StorageError (list (bytes * bytes)) }.

(** ** Lexicographic order of byte strings *)

Fixpoint blt (a b : bytes) : bool :=
  match a, b with
  | [], [] => false
  | [], _ :: _ => true
  | _ :: _, [] => false
  | x :: a', y :: b' => (x <? y) || ((x =? y) && blt a' b')
  end.

(** ** [BTreeMap<Vec<u8>, Vec<u8>>] as a key-sorted association list *)

Notation btree := (list (bytes * bytes)).

Fixpoint btree_insert (k v : bytes) (m : btree) : btree :=
  match m with
  | [] => [(k, v)]
  | (k', v') :: m' =>
      if blt k k' then (k, v) :: m
      else if bool_decide (k = k') then (k, v) :: m'
      else (k', v') :: btree_insert k v m'
  end.

Fixpoint btree_remove (k : bytes) (m : btree) : btree :=
  match m with
  | [] => []
  | (k', v') :: m' => if bool_decide (k = k') then m' else (k', v') :: btree_remove k m'
  end.

Fixpoint btree_get (k : bytes) (m : btree) : option bytes :=
  match m with
  | [] => None
  | (k', v') :: m' => if bool_decide (k = k') then Some v' else btree_get k m'
  end.

(** [db.range(p..)] *)
Fixpoint btree_range (p : bytes) (m : btree) : btree :=
  match m with
  | [] => []
  | (k, v) :: m' => if blt k p then btree_range p m' else m
  end.

(** ** The native engine

    [redb]: each call opens one transaction on the single table; a failure at
    any step of it aborts the transaction and yields the error text. *)
Class Redb := {
  RedbDb : Type;
  redb_insert : RedbDb -> bytes -> bytes -> Result bytes RedbDb;
  redb_remove : RedbDb -> bytes -> Result bytes RedbDb;
  redb_get : RedbDb -> bytes -> Result bytes (option bytes);
  redb_range : RedbDb -> bytes -> Result bytes (list (Result bytes (bytes * bytes))) }.

Section Native.
Context {HRedb : Redb}.

Fixpoint native_scan_loop (prefix : bytes) (limit : option nat)
    (range : list (Result bytes (bytes * bytes))) (results : btree)
  : Result StorageError btree :=
  match range with
  | [] => Ok results
  | Err e :: _ => Err (ScanFailed e)
  | Ok (k, v) :: rest =>
      if negb (starts_with prefix k) then Ok results
      else if match limit with Some l => (l <=? length results)%nat | None => false end
      then Ok results
      else native_scan_loop prefix limit rest (results ++ [(k, v)])
  end.

Definition native_scan_prefix (db : RedbDb) (prefix : bytes) (limit : option nat)
  : Result StorageError btree :=
  range ← map_err ScanFailed (redb_range db prefix);
  native_scan_loop prefix limit range [].

Definition native_put (db : RedbDb) (key value : bytes) : RedbDb * Result StorageError unit :=
  match redb_insert db key value with
  | Ok db' => (db', Ok tt)
  | Err e => (db, Err (WriteFailed e))
  end.

Definition native_get (db : RedbDb) (key : bytes) : Result StorageError (option bytes) :=
  map_err ReadFailed (redb_get db key).

Definition native_delete (db : RedbDb) (key : bytes) : RedbDb * Result StorageError unit :=
  match redb_remove db key with
  | Ok db' => (db', Ok tt)
  | Err e => (db, Err (DeleteFailed e))
  end.

Definition native_engine : StorageEngine :=
  {| Sto := RedbDb; sto_put := native_put; sto_get := native_get;
     sto_delete := native_delete; sto_scan_prefix := native_scan_prefix |}.

End Native.

(** ** The WASM engine

    [usize] has 32 bits there.  The OPFS file is a byte string; the outcome of
    the browser's write is an input. *)

Definition WASM_QUOTA : nat := 10000.
Definition TOMBSTONE : Z := 4294967295.

Definition usize_add (a b : Z) : Z := as_u32 (a + b).

Record WasmStorage := MkWasmStorage {
  ws_db : btree;
  opfs_handle : option bytes }.

Definition wasm_new : WasmStorage := {| ws_db := []; opfs_handle := None |}.

(** [buffer[a..b]]; [None] is the slice-index panic. *)
Definition slice (buffer : bytes) (a b : Z) : option bytes :=
  if (a <=? b) && (b <=? len buffer)
  then Some (take (Z.to_nat (b - a)) (drop (Z.to_nat a) buffer)) else None.

(** The replay loop of [init_opfs] from [cursor]; each iteration consumes at
    least eight bytes, so the buffer length is enough fuel.  [None] is a panic
    (or no fuel). *)
Fixpoint replay_loop (fuel : nat) (buffer : bytes) (cursor : Z) (db : btree) : option btree :=
  match fuel with
  | O => None
  | S fuel' =>
      if negb (cursor <? len buffer) then Some db
      else if usize_add cursor 4 >? len buffer then Some db
      else
        kl ← slice buffer cursor (usize_add cursor 4);
        let key_len := le_val kl in
        let cursor := usize_add cursor 4 in
        if usize_add cursor key_len >? len buffer then Some db
        else
          key ← slice buffer cursor (usize_add cursor key_len);
          let cursor := usize_add cursor key_len in
          if usize_add cursor 4 >? len buffer then Some db
          else
            vl ← slice buffer cursor (usize_add cursor 4);
            let val_len := le_val vl in
            let cursor := usize_add cursor 4 in
            if val_len =? TOMBSTONE then
              replay_loop fuel' buffer cursor (btree_remove key db)
            else if usize_add cursor val_len >? len buffer then Some db
            else
              val ← slice buffer cursor (usize_add cursor val_len);
              replay_loop fuel' buffer (usize_add cursor val_len) (btree_insert key val db)
  end.

Definition replay (buffer : bytes) : option btree :=
  replay_loop (S (length buffer)) buffer 0 [].

Definition init_opfs (file : bytes) : option WasmStorage :=
  db ← replay file;
  Some {| ws_db := db; opfs_handle := Some file |}.

(** The payload of [append_to_log]. *)
Definition log_entry (key : bytes) (value : option bytes) : bytes :=
  le_bytes 4 (as_u32 (len key)) ++ key ++
  match value with
  | Some v => le_bytes 4 (as_u32 (len v)) ++ v
  | None => le_bytes 4 TOMBSTONE
  end.

(** [write_ok] is the browser's answer; a refused write leaves the file. *)
Definition append_to_log (s : WasmStorage) (key : bytes) (value : option bytes)
    (write_ok : bool) : WasmStorage * Result StorageError unit :=
  match opfs_handle s with
  | None => (s, Ok tt)
  | Some file =>
      if write_ok then
        ({| ws_db := ws_db s; opfs_handle := Some (file ++ log_entry key value) |}, Ok tt)
      else (s, Err (WriteFailed (bs "opfs")))
  end.

Definition is_opfs_active (s : WasmStorage) : bool :=
  match opfs_handle s with Some _ => true | None => false end.

Definition wasm_put (write_ok : bool) (s : WasmStorage) (key value : bytes)
  : WasmStorage * Result StorageError unit :=
  if negb (is_opfs_active s) && (WASM_QUOTA <=? length (ws_db s))%nat
     && negb (bool_decide (is_Some (btree_get key (ws_db s))))
  then (s, Err (WriteFailed (bs "WASM storage quota exceeded (10,000 keys). Cannot insert new keys.")))
  else
    let s := {| ws_db := btree_insert key value (ws_db s); opfs_handle := opfs_handle s |} in
    append_to_log s key (Some value) write_ok.

Definition wasm_get (s : WasmStorage) (key : bytes) : Result StorageError (option bytes) :=
  Ok (btree_get key (ws_db s)).

Definition wasm_delete (write_ok : bool) (s : WasmStorage) (key : bytes)
  : WasmStorage * Result StorageError unit :=
  let s := {| ws_db := btree_remove key (ws_db s); opfs_handle := opfs_handle s |} in
  append_to_log s key None write_ok.

Fixpoint wasm_scan_loop (prefix : bytes) (limit : option nat) (range results : btree) : btree :=
  match range with
  | [] => results
  | (k, v) :: rest =>
      if match limit with Some l => (l <=? length results)%nat | None => false end then results
      else if starts_with prefix k then wasm_scan_loop prefix limit rest (results ++ [(k, v)])
      else results
  end.

Definition wasm_scan_prefix (s : WasmStorage) (prefix : bytes) (limit : option nat)
  : Result StorageError btree :=
  Ok (wasm_scan_loop prefix limit (btree_range prefix (ws_db s)) []).

Definition wasm_engine (write_ok : bool) : StorageEngine :=
  {| Sto := WasmStorage; sto_put := wasm_put write_ok; sto_get := wasm_get;
     sto_delete := wasm_delete write_ok; sto_scan_prefix := wasm_scan_prefix |}.

(** ** The order *)

Lemma blt_irrefl a : blt a a = false.
Proof. induction a as [|x a IH]; cbn; [done|]. by rewrite Z.ltb_irrefl, Z.eqb_refl, IH. Qed.

Lemma blt_cons_true x a y b :
  blt (x :: a) (y :: b) = true <-> x < y \/ (x = y /\ blt a b = true).
Proof. cbn. by rewrite orb_true_iff, andb_true_iff, Z.ltb_lt, Z.eqb_eq. Qed.

Lemma blt_trans a b c : blt a b = true -> blt b c = true -> blt a c = true.
Proof.
  revert b c. induction a as [|x a IH]; intros [|y b] [|z c]; try done.
  rewrite !blt_cons_true. intros [?|[-> ?]] [?|[-> ?]]; [left; lia|by left|by left|].
  right. split; [done|]. by eapply IH.
Qed.

Lemma blt_total a b : blt a b = false -> a = b \/ blt b a = true.
Proof.
  revert b. induction a as [|x a IH]; intros [|y b]; cbn; auto.
  rewrite orb_false_iff, orb_true_iff, andb_true_iff, andb_false_iff, Z.ltb_lt, Z.ltb_ge, !Z.eqb_neq, Z.eqb_eq.
  intros [Hle [Hne|Hb]]; [right; left; lia|].
  destruct (decide (x = y)) as [->|]; [|right; left; lia].
  destruct (IH _ Hb) as [->|?]; [by left|]. right. right. done.
Qed.

Lemma blt_asym a b : blt a b = true -> blt b a = false.
Proof.
  intros H. destruct (blt b a) eqn:E; [|done].
  pose proof (blt_trans _ _ _ H E) as C. by rewrite blt_irrefl in C.
Qed.

(** The keys with a prefix form an interval that starts at the prefix. *)
Lemma prefix_interval p k k' :
  blt k p = false -> blt k' k = false -> starts_with p k' = true -> starts_with p k = true.
Proof.
  revert k k'. induction p as [|x p IH]; intros k k'; [done|].
  destruct k' as [|z k']; [done|]. destruct k as [|y k]; [done|].
  cbn [starts_with]. rewrite andb_true_iff, Z.eqb_eq. intros H1 H2 [<- Hp].
  cbn in H1, H2. apply orb_false_iff in H1 as [H1 H1'], H2 as [H2 H2']. zbool.
  assert (x = y) as -> by lia. rewrite Z.eqb_refl in *. cbn in *. by eapply IH.
Qed.

Lemma prefix_not_below p k : starts_with p k = true -> blt k p = false.
Proof.
  revert k. induction p as [|x p IH]; intros [|y k]; cbn; try done.
  intros H. apply andb_true_iff in H as [H1 H2]. zbool. subst.
  by rewrite Z.ltb_irrefl, Z.eqb_refl, IH.
Qed.

(** ** The sorted map *)

Definition key_lt (a b : bytes * bytes) : Prop := blt a.1 b.1 = true.
Definition btree_wf (m : btree) : Prop := StronglySorted key_lt m.
Definition btree_view (m : btree) : gmap bytes bytes := list_to_map m.

Lemma btree_get_view k m : btree_get k m = btree_view m !! k.
Proof.
  unfold btree_view. induction m as [|[k' v'] m IH]; [done|]. cbn [btree_get list_to_map foldr fst snd].
  case_bool_decide as E; [subst; by rewrite lookup_insert_eq|].
  cbn. by rewrite lookup_insert_ne by congruence.
Qed.

Lemma btree_insert_view k v m : btree_view (btree_insert k v m) = <[k := v]> (btree_view m).
Proof.
  unfold btree_view. induction m as [|[k' v'] m IH]; [done|]. cbn [btree_insert].
  destruct (blt k k'); [done|]. case_bool_decide as E; cbn.
  - subst. by rewrite insert_insert_eq.
  - rewrite IH. by rewrite insert_insert_ne by congruence.
Qed.

Lemma key_lt_all_above k v m :
  Forall (key_lt (k, v)) m -> list_to_map (M := gmap bytes bytes) m !! k = None.
Proof.
  intros H. apply not_elem_of_list_to_map_1. intros Hin.
  apply list_elem_of_fmap in Hin as ([k' v'] & -> & Hin).
  eapply Forall_forall in H; [|exact Hin]. unfold key_lt in H. cbn in H. by rewrite blt_irrefl in H.
Qed.

Lemma btree_remove_view k m : btree_wf m -> btree_view (btree_remove k m) = delete k (btree_view m).
Proof.
  unfold btree_view. induction 1 as [|[k' v'] m Hs IH Hall]; [cbn; by rewrite delete_empty|].
  cbn [btree_remove]. case_bool_decide as E; cbn.
  - subst. rewrite delete_insert_id; [done|]. by eapply key_lt_all_above.
  - rewrite IH. by rewrite delete_insert_ne by congruence.
Qed.

Lemma btree_insert_above k v k0 v0 m :
  blt k0 k = true -> Forall (key_lt (k0, v0)) m -> Forall (key_lt (k0, v0)) (btree_insert k v m).
Proof.
  intros Hk H. induction H as [|[k' v'] m Hx Hm IH]; [by constructor|]. cbn [btree_insert].
  destruct (blt k k'); [by repeat constructor|]. case_bool_decide; by repeat constructor.
Qed.

Lemma btree_insert_wf k v m : btree_wf m -> btree_wf (btree_insert k v m).
Proof.
  unfold btree_wf. induction 1 as [|[k' v'] m Hs IH Hall]; [repeat constructor|]. cbn [btree_insert].
  destruct (blt k k') eqn:E.
  - constructor; [by constructor|]. constructor; [done|].
    eapply Forall_impl; [exact Hall|]. intros [k2 v2]. unfold key_lt. cbn. by apply blt_trans.
  - case_bool_decide as E2; [subst; by constructor|].
    constructor; [done|]. apply btree_insert_above; [|done].
    destruct (blt_total _ _ E); [congruence|done].
Qed.

Lemma btree_remove_above k k0 v0 m :
  Forall (key_lt (k0, v0)) m -> Forall (key_lt (k0, v0)) (btree_remove k m).
Proof.
  induction 1 as [|[k' v'] m Hx Hm IH]; [constructor|]. cbn. case_bool_decide; [done|by constructor].
Qed.

Lemma btree_remove_wf k m : btree_wf m -> btree_wf (btree_remove k m).
Proof.
  unfold btree_wf. induction 1 as [|[k' v'] m Hs IH Hall]; [constructor|]. cbn.
  case_bool_decide; [done|]. constructor; [done|]. by apply btree_remove_above.
Qed.

(** ** Prefix scans *)

(** The reference: the entries whose key has the prefix, in key order. *)
Definition scan_spec (prefix : bytes) (limit : option nat) (m : btree) : btree :=
  let hits := filter (fun kv => starts_with prefix kv.1 = true) m in
  match limit with Some l => take l hits | None => hits end.

(** In a sorted list at or above the prefix the hits are an initial segment. *)
Lemma no_hits_after p k v m :
  blt k p = false -> starts_with p k = false -> Forall (key_lt (k, v)) m ->
  filter (fun kv => starts_with p kv.1 = true) m = [].
Proof.
  intros Hk Hp H. induction H as [|[k' v'] m Hx Hm IH]; [done|].
  rewrite filter_cons_False; [done|]. cbn. intros Hs. unfold key_lt in Hx. cbn in Hx.
  assert (starts_with p k = true); [|congruence].
  eapply prefix_interval; [exact Hk| |exact Hs]. by apply blt_asym.
Qed.

Lemma wasm_scan_loop_spec p limit m acc :
  btree_wf m -> Forall (fun kv => blt kv.1 p = false) m ->
  match limit with Some l => (length acc <= l)%nat | None => True end ->
  wasm_scan_loop p limit m acc
  = acc ++ match limit with
           | Some l => take (l - length acc) (filter (fun kv => starts_with p kv.1 = true) m)
           | None => filter (fun kv => starts_with p kv.1 = true) m
           end.
Proof.
  intros Hwf. revert acc. induction Hwf as [|[k v] m Hs IH Hall]; intros acc Hp Hl.
  - cbn. destruct limit; by rewrite ?take_nil, app_nil_r.
  - inversion Hp as [|? ? Hk Hp']; subst. cbn [wasm_scan_loop fst] in *.
    destruct limit as [l|].
    + destruct (l <=? length acc)%nat eqn:El.
      { apply Nat.leb_le in El. replace (l - length acc)%nat with 0%nat by lia.
        by rewrite take_0, app_nil_r. }
      apply Nat.leb_gt in El. destruct (starts_with p k) eqn:Es.
      * rewrite IH by (done || (rewrite length_app; cbn; lia)).
        rewrite filter_cons_True by done. rewrite length_app. cbn [length].
        replace (l - length acc)%nat with (S (l - (length acc + 1)))%nat by lia.
        cbn [take]. by rewrite <- app_assoc.
      * rewrite filter_cons_False by (cbn; congruence).
        rewrite (no_hits_after p k v m) by done. by rewrite take_nil, app_nil_r.
    + destruct (starts_with p k) eqn:Es.
      * rewrite IH by done. rewrite filter_cons_True by done. by rewrite <- app_assoc.
      * rewrite filter_cons_False by (cbn; congruence).
        rewrite (no_hits_after p k v m) by done. by rewrite app_nil_r.
Qed.

Lemma btree_range_spec p m :
  btree_wf m ->
  btree_wf (btree_range p m) /\ Forall (fun kv => blt kv.1 p = false) (btree_range p m) /\
  filter (fun kv => starts_with p kv.1 = true) (btree_range p m)
  = filter (fun kv => starts_with p kv.1 = true) m.
Proof.
  induction 1 as [|[k v] m Hs IH Hall]; [by repeat constructor|]. cbn [btree_range].
  destruct (blt k p) eqn:E.
  - rewrite filter_cons_False; [done|]. cbn. intros Hp. apply prefix_not_below in Hp. congruence.
  - split; [by constructor|]. split; [|done]. constructor; [done|].
    eapply Forall_impl; [exact Hall|]. intros [k' v']. unfold key_lt. cbn. intros Hk.
    destruct (blt k' p) eqn:E2; [|done]. by rewrite (blt_trans _ _ _ Hk E2) in E.
Qed.

(** Both loops compute the reference scan. *)
Lemma wasm_scan_ok p limit m :
  btree_wf m -> wasm_scan_loop p limit (btree_range p m) [] = scan_spec p limit m.
Proof.
  intros H. destruct (btree_range_spec p m H) as (Hw & Hp & Hf).
  rewrite wasm_scan_loop_spec by (done || (destruct limit; cbn; lia)).
  unfold scan_spec. rewrite Hf. cbn. destruct limit; [by rewrite Nat.sub_0_r|done].
Qed.

Lemma native_scan_loop_wasm `{Redb} p limit m acc :
  native_scan_loop p limit (map Ok m) acc = Ok (wasm_scan_loop p limit m acc).
Proof.
  revert acc. induction m as [|[k v] m IH]; intros acc; cbn [native_scan_loop wasm_scan_loop map]; [done|].
  destruct (starts_with p k); cbn; [|by destruct limit as [l|]; [destruct (l <=? _)%nat|]].
  destruct limit as [l|]; [destruct (l <=? _)%nat|]; done.
Qed.

(** ** The contract of the trait, and the engines that meet it *)

(** [view] is the abstract content; a successful call is the map operation. *)
Class StorageContract (E : StorageEngine) := {
  sto_inv : @Sto E -> Prop;
  sto_tree : @Sto E -> btree;
  sto_tree_wf s : sto_inv s -> btree_wf (sto_tree s);
  sto_put_ok s k v s' : sto_inv s -> sto_put s k v = (s', Ok tt) ->
    sto_inv s' /\ btree_view (sto_tree s') = <[k := v]> (btree_view (sto_tree s));
  sto_delete_ok s k s' : sto_inv s -> sto_delete s k = (s', Ok tt) ->
    sto_inv s' /\ btree_view (sto_tree s') = delete k (btree_view (sto_tree s));
  sto_get_ok s k o : sto_inv s -> sto_get s k = Ok o -> o = btree_view (sto_tree s) !! k;
  sto_scan_ok s p limit l : sto_inv s -> sto_scan_prefix s p limit = Ok l ->
    l = scan_spec p limit (sto_tree s) }.

Lemma append_to_log_db s k o w s' r : append_to_log s k o w = (s', r) -> ws_db s' = ws_db s.
Proof. unfold append_to_log. destruct (opfs_handle s); [destruct w|]; intros [= <- <-]; done. Qed.

#[export] Instance wasm_contract (w : bool) : StorageContract (wasm_engine w).
Proof.
  refine {| sto_inv := fun s : @Sto (wasm_engine w) => btree_wf (ws_db s);
            sto_tree := fun s : @Sto (wasm_engine w) => ws_db s |}; cbn.
  - done.
  - intros s k v s' Hwf H. unfold wasm_put in H. destruct (_ && _); [done|].
    apply append_to_log_db in H. rewrite H. cbn.
    split; [by apply btree_insert_wf|apply btree_insert_view].
  - intros s k s' Hwf H. apply append_to_log_db in H. rewrite H. cbn.
    split; [by apply btree_remove_wf|by apply btree_remove_view].
  - intros s k o Hwf [= <-]. apply btree_get_view.
  - intros s p limit l Hwf [= <-]. by apply wasm_scan_ok.
Defined.

(** Documented behaviour of [redb]: a table is an ordered map, and a
    transaction that fails has no effect. *)
Class RedbLaws `{Redb} := {
  redb_tree : RedbDb -> btree;
  redb_wf db : btree_wf (redb_tree db);
  redb_insert_ok db k v db' : redb_insert db k v = Ok db' ->
    redb_tree db' = btree_insert k v (redb_tree db);
  redb_remove_ok db k db' : redb_remove db k = Ok db' ->
    redb_tree db' = btree_remove k (redb_tree db);
  redb_get_ok db k o : redb_get db k = Ok o -> o = btree_get k (redb_tree db);
  redb_range_ok db p items : redb_range db p = Ok items ->
    exists l, items = l /\ Forall2 (fun i kv => i = Ok kv \/ is_err i = true) l
                             (btree_range p (redb_tree db)) }.

Lemma native_scan_loop_ok `{Redb} p limit items m acc l :
  Forall2 (fun i kv => i = Ok kv \/ is_err i = true) items m ->
  native_scan_loop p limit items acc = Ok l -> l = wasm_scan_loop p limit m acc.
Proof.
  intros HF. revert acc. induction HF as [|i [k v] items m Hi _ IH]; intros acc; cbn.
  - by intros [= <-].
  - destruct Hi as [->|Hi].
    + destruct (starts_with p k); cbn.
      * destruct limit as [n|]; [destruct (n <=? _)%nat|]; auto; by intros [= <-].
      * intros [= <-]. by destruct limit as [n|]; [destruct (n <=? _)%nat|].
    + by destruct i.
Qed.

#[export] Instance native_contract `{RedbLaws} : StorageContract native_engine.
Proof.
  refine {| sto_inv := fun _ : @Sto native_engine => True;
            sto_tree := fun s : @Sto native_engine => redb_tree s |}; cbn.
  - intros s _. apply redb_wf.
  - intros s k v s' _ E. unfold native_put in E. destruct (redb_insert s k v) eqn:Ei; [|done].
    injection E as <-. apply redb_insert_ok in Ei as ->. split; [done|apply btree_insert_view].
  - intros s k s' _ E. unfold native_delete in E. destruct (redb_remove s k) eqn:Ei; [|done].
    injection E as <-. apply redb_remove_ok in Ei as ->. split; [done|].
    apply btree_remove_view, redb_wf.
  - intros s k o _ E. unfold native_get in E. destruct (redb_get s k) eqn:Eg; [|done].
    injection E as <-. apply redb_get_ok in Eg as ->. apply btree_get_view.
  - intros s p limit l _ E. unfold native_scan_prefix in E.
    destruct (redb_range s p) as [items|] eqn:Er; [|done]. cbn in E.
    apply redb_range_ok in Er as (l' & -> & HF).
    apply (native_scan_loop_ok _ _ _ _ _ _ HF) in E as ->.
    apply wasm_scan_ok, redb_wf.
Defined.

(** What a write that reports an error may have done: nothing, or the write (the
    WASM engine changes its map before it appends to the log). *)
Class StorageFailure (E : StorageEngine) {HC : StorageContract E} := {
  sto_put_fail s k v s' e : sto_inv s -> sto_put s k v = (s', Err e) ->
    sto_inv s' /\ (btree_view (sto_tree s') = btree_view (sto_tree s) \/
                   btree_view (sto_tree s') = <[k := v]> (btree_view (sto_tree s)));
  sto_delete_fail s k s' e : sto_inv s -> sto_delete s k = (s', Err e) ->
    sto_inv s' /\ (btree_view (sto_tree s') = btree_view (sto_tree s) \/
                   btree_view (sto_tree s') = delete k (btree_view (sto_tree s))) }.

#[export] Instance wasm_failure (w : bool) : StorageFailure (wasm_engine w).
Proof.
  split; cbn.
  - intros s k v s' e Hwf H. unfold wasm_put in H. destruct (_ && _); [injection H as <- _; auto|].
    apply append_to_log_db in H. rewrite H. cbn. split; [by apply btree_insert_wf|].
    right. apply btree_insert_view.
  - intros s k s' e Hwf H. apply append_to_log_db in H. rewrite H. cbn.
    split; [by apply btree_remove_wf|]. right. by apply btree_remove_view.
Qed.

#[export] Instance native_failure `{RedbLaws} : StorageFailure native_engine.
Proof.
  split; cbn.
  - intros s k v s' e _ E. unfold native_put in E. destruct (redb_insert s k v); [done|].
    injection E as <- _. auto.
  - intros s k s' e _ E. unfold native_delete in E. destruct (redb_remove s k); [done|].
    injection E as <- _. auto.
Qed.

(** ** The map the engines stand for *)

Definition key_le (a b : bytes * bytes) : Prop := blt b.1 a.1 = false.
#[export] Instance key_le_dec : RelDecision key_le.
Proof. intros a b. unfold key_le. apply _. Defined.

#[export] Instance key_le_total : Total key_le.
Proof.
  intros a b. unfold key_le. destruct (blt b.1 a.1) eqn:E; [|by left]. right. by apply blt_asym.
Qed.

#[export] Instance key_le_trans : Transitive key_le.
Proof.
  intros a b c. unfold key_le. intros H1 H2. destruct (blt c.1 a.1) eqn:E; [|done].
  destruct (blt_total _ _ H1) as [Eb|Hb]; [congruence|]. pose proof (blt_trans _ _ _ E Hb). congruence.
Qed.

(** The entries of a map in key order, and those a scan is to answer. *)
Definition entries (m : gmap bytes bytes) : list (bytes * bytes) := merge_sort key_le (map_to_list m).
Definition scan_entries (prefix : bytes) (limit : option nat) (m : gmap bytes bytes) : list (bytes * bytes) :=
  let hits := filter (fun kv => starts_with prefix kv.1 = true) (entries m) in
  match limit with Some l => take l hits | None => hits end.

Lemma btree_keys_nodup t : btree_wf t -> NoDup t.*1.
Proof.
  induction 1 as [|[k v] t Hs IH Hall]; [constructor|]. constructor; [|done].
  intros ([k' v'] & E & Hin)%list_elem_of_fmap. cbn in E. subst k'.
  eapply Forall_forall in Hall; [|exact Hin]. unfold key_lt in Hall. cbn in Hall. by rewrite blt_irrefl in Hall.
Qed.

Lemma entries_view t : btree_wf t -> entries (btree_view t) = t.
Proof.
  intros Hwf. pose proof (btree_keys_nodup t Hwf) as Hn.
  assert (Hp : entries (btree_view t) ≡ₚ t).
  { unfold entries, btree_view. rewrite merge_sort_Permutation. by apply map_to_list_to_map. }
  apply (StronglySorted_unique_strong key_le).
  - intros a b Ha Hb H1 H2. rewrite Hp in Ha. destruct a as [ka va], b as [kb vb].
    assert (ka = kb) as <- by (destruct (blt_total _ _ H1) as [?|E]; [done|]; unfold key_le in H2; cbn in *; congruence).
    apply (elem_of_list_to_map_1 (M := gmap bytes)) in Ha, Hb; [|done..]. congruence.
  - apply StronglySorted_merge_sort; apply _.
  - induction Hwf as [|x t Hs IH Hall]; [constructor|]. rewrite fmap_cons, NoDup_cons in Hn.
    clear Hp. constructor.
    + apply IH; [by apply Hn|]. unfold entries, btree_view. rewrite merge_sort_Permutation.
      apply map_to_list_to_map, Hn.
    + eapply Forall_impl; [exact Hall|]. intros y Hy. unfold key_le. by apply blt_asym.
  - exact Hp.
Qed.

(** *** Calls *)

Inductive StoreCall :=
  | CallPut (k v : bytes)
  | CallDelete (k : bytes)
  | CallGet (k : bytes)
  | CallScan (prefix : bytes) (limit : option nat).

Inductive StoreAnswer :=
  | Done
  | Value (o : option bytes)
  | Entries (l : list (bytes * bytes)).

(** [Result::map] *)
Definition map_ok {E A B} (f : A -> B) (r : Result E A) : Result E B :=
  match r with Ok a => Ok (f a) | Err e => Err e end.

(** A call of an engine. *)
Definition engine_call (E : StorageEngine) (s : @Sto E) (c : StoreCall) : @Sto E * Result StorageError StoreAnswer :=
  match c with
  | CallPut k v => let '(s, r) := sto_put s k v in (s, map_ok (fun _ => Done) r)
  | CallDelete k => let '(s, r) := sto_delete s k in (s, map_ok (fun _ => Done) r)
  | CallGet k => (s, map_ok Value (sto_get s k))
  | CallScan prefix limit => (s, map_ok Entries (sto_scan_prefix s prefix limit))
  end.

(** What it means for a map. *)
Definition map_call (m : gmap bytes bytes) (c : StoreCall) : gmap bytes bytes * StoreAnswer :=
  match c with
  | CallPut k v => (<[k := v]> m, Done)
  | CallDelete k => (delete k m, Done)
  | CallGet k => (m, Value (m !! k))
  | CallScan prefix limit => (m, Entries (scan_entries prefix limit m))
  end.

Fixpoint run_calls {S X} (step : S -> X -> S * Result StorageError StoreAnswer) (s : S) (l : list X)
  : S * list (Result StorageError StoreAnswer) :=
  match l with
  | [] => (s, [])
  | x :: l => let '(s, r) := step s x in let '(s, rs) := run_calls step s l in (s, r :: rs)
  end.

(** The calls of a run and their results, against a map: a call that succeeds is
    the map's; one that fails changes nothing, unless [may_act], where a failed
    write may have been made. *)
Inductive served (may_act : bool) :
    gmap bytes bytes -> list StoreCall -> list (Result StorageError StoreAnswer) -> gmap bytes bytes -> Prop :=
  | served_end m : served may_act m [] [] m
  | served_ok m c cs rs m' : served may_act (map_call m c).1 cs rs m' ->
      served may_act m (c :: cs) (Ok (map_call m c).2 :: rs) m'
  | served_err m c e cs rs m' : served may_act m cs rs m' -> served may_act m (c :: cs) (Err e :: rs) m'
  | served_acted m c e cs rs m' : may_act = true -> served may_act (map_call m c).1 cs rs m' ->
      served may_act m (c :: cs) (Err e :: rs) m'.

(** One call of each engine. *)
Lemma native_call_served `{RedbLaws} (s : RedbDb) c s' r :
  engine_call native_engine s c = (s', r) ->
  match r with
  | Ok a => a = (map_call (btree_view (redb_tree s)) c).2 /\
      btree_view (redb_tree s') = (map_call (btree_view (redb_tree s)) c).1
  | Err _ => s' = s
  end.
Proof.
  pose proof (redb_wf s) as Hwf.
  destruct c as [k v|k|k|p limit]; cbn [engine_call native_engine sto_put sto_delete sto_get sto_scan_prefix map_call fst snd].
  - unfold native_put. destruct (redb_insert s k v) as [d|e] eqn:E; intros [= <- <-]; [|done].
    apply redb_insert_ok in E. split; [done|]. rewrite E. apply btree_insert_view.
  - unfold native_delete. destruct (redb_remove s k) as [d|e] eqn:E; intros [= <- <-]; [|done].
    apply redb_remove_ok in E. split; [done|]. rewrite E. by apply btree_remove_view.
  - unfold native_get. destruct (redb_get s k) as [o|e] eqn:E; intros [= <- <-]; [|done].
    apply redb_get_ok in E. split; [|done]. f_equal. rewrite E. apply btree_get_view.
  - unfold native_scan_prefix. destruct (redb_range s p) as [items|] eqn:E; [|by intros [= <- <-]].
    cbn [map_err mbind result_bind]. apply redb_range_ok in E as (l & -> & HF).
    destruct (native_scan_loop p limit l []) as [x|e] eqn:Es; intros [= <- <-]; [|done].
    apply (native_scan_loop_ok _ _ _ _ _ _ HF) in Es. split; [|done]. cbn [map_ok]. f_equal.
    rewrite Es, wasm_scan_ok by done. unfold scan_entries, scan_spec. by rewrite entries_view.
Qed.

Lemma wasm_call_served w (s : WasmStorage) c s' r :
  btree_wf (ws_db s) -> engine_call (wasm_engine w) s c = (s', r) ->
  btree_wf (ws_db s') /\
  match r with
  | Ok a => a = (map_call (btree_view (ws_db s)) c).2 /\
      btree_view (ws_db s') = (map_call (btree_view (ws_db s)) c).1
  | Err _ => s' = s \/ w = false /\ btree_view (ws_db s') = (map_call (btree_view (ws_db s)) c).1
  end.
Proof.
  intros Hwf.
  destruct c as [k v|k|k|p limit]; cbn [engine_call wasm_engine sto_put sto_delete sto_get sto_scan_prefix map_call fst snd].
  - unfold wasm_put. destruct (_ && _); [by intros [= <- <-]; auto|].
    destruct (append_to_log _ _ _ _) as [s1 r1] eqn:E. pose proof (append_to_log_db _ _ _ _ _ _ E) as Hd.
    intros [= <- <-]. rewrite Hd. cbn [ws_db]. split; [by apply btree_insert_wf|].
    rewrite btree_insert_view. destruct r1 as [[]|e]; [done|]. right. split; [|done].
    unfold append_to_log in E. destruct (opfs_handle _), w; done.
  - unfold wasm_delete. destruct (append_to_log _ _ _ _) as [s1 r1] eqn:E.
    pose proof (append_to_log_db _ _ _ _ _ _ E) as Hd.
    intros [= <- <-]. rewrite Hd. cbn [ws_db]. split; [by apply btree_remove_wf|].
    rewrite btree_remove_view by done. destruct r1 as [[]|e]; [done|]. right. split; [|done].
    unfold append_to_log in E. destruct (opfs_handle _), w; done.
  - intros [= <- <-]. split; [done|]. split; [|done]. f_equal. apply btree_get_view.
  - intros [= <- <-]. split; [done|]. split; [|done]. f_equal.
    rewrite wasm_scan_ok by done. unfold scan_entries, scan_spec. by rewrite entries_view.
Qed.

(** A call of the WASM engine with the browser's answer to its write. *)
Definition wasm_call (s : WasmStorage) (x : bool * StoreCall) : WasmStorage * Result StorageError StoreAnswer :=
  engine_call (wasm_engine x.1) s x.2.

(** C30: refinement.  Over any calls, the native engine, where [redb]'s tables
    are ordered maps and its failed transactions have no effect, serves a map:
    every successful write is the map's, a failed call changes nothing, a lookup
    answers the value, and a scan the entries whose key has the prefix, in key
    order, cut at the limit.  So does the WASM engine, except that a write whose
    append to the log the browser refuses is reported as failed and yet made in
    memory; where the browser refuses none, it serves the map exactly. *)
Theorem storage_refines_map `{RedbLaws} :
  (forall cs (s s' : RedbDb) rs, run_calls (engine_call native_engine) s cs = (s', rs) ->
     served false (btree_view (redb_tree s)) cs rs (btree_view (redb_tree s'))) /\
  (forall xs (s s' : WasmStorage) rs, btree_wf (ws_db s) -> run_calls wasm_call s xs = (s', rs) ->
     btree_wf (ws_db s') /\
     served (negb (forallb fst xs)) (btree_view (ws_db s)) (map snd xs) rs (btree_view (ws_db s'))).
Proof.
  split.
  - intros cs. induction cs as [|c cs IH]; intros s s' rs; cbn [run_calls].
    { intros [= <- <-]. constructor. }
    destruct (engine_call native_engine s c) as [s1 r] eqn:E. pose proof (native_call_served _ _ _ _ E) as Hr.
    destruct (run_calls _ s1 cs) as [s2 rs2] eqn:E2. intros [= <- <-]. apply IH in E2.
    destruct r as [a|e]; [destruct Hr as [-> Hv]; rewrite Hv in E2; by constructor|subst s1; by constructor].
  - enough (Hgo : forall may xs (s s' : WasmStorage) rs, (may = false -> forallb fst xs = true) ->
      btree_wf (ws_db s) -> run_calls wasm_call s xs = (s', rs) ->
      btree_wf (ws_db s') /\ served may (btree_view (ws_db s)) (map snd xs) rs (btree_view (ws_db s'))).
    { intros xs s s' rs. apply Hgo, negb_false_iff. }
    intros may xs. induction xs as [|[w c] xs IH]; intros s s' rs Hm Hwf; cbn [run_calls map snd].
    { intros [= <- <-]. split; [done|constructor]. }
    destruct (wasm_call s (w, c)) as [s1 r] eqn:E.
    change (engine_call (wasm_engine w) s c = (s1, r)) in E. pose proof (wasm_call_served _ _ _ _ _ Hwf E) as [Hwf1 Hr].
    destruct (run_calls _ s1 xs) as [s2 rs2] eqn:E2. intros [= <- <-]. cbn [forallb fst] in Hm.
    apply IH in E2 as [Hwf2 Hs]; [|intros Hf; by apply Hm, andb_true_iff in Hf as [_ ?]|done]. split; [done|].
    destruct r as [a|e]; [destruct Hr as [-> Hv]; rewrite Hv in Hs; by constructor|].
    destruct Hr as [->|[-> Hv]]; [by constructor|]. rewrite Hv in Hs. apply served_acted; [|done].
    destruct may; [done|]. by specialize (Hm eq_refl).
Qed.

(** A [redb] whose transactions succeed, but for empty keys. *)
Module ToyRedb.
Definition db : Type := { t : btree | btree_wf t }.
Definition insert (d : db) (k v : bytes) : Result bytes db :=
  match k with [] => Err (bs "empty") | _ => Ok (exist _ (btree_insert k v (`d)) (btree_insert_wf k v _ (proj2_sig d))) end.
Definition remove (d : db) (k : bytes) : Result bytes db :=
  Ok (exist _ (btree_remove k (`d)) (btree_remove_wf k _ (proj2_sig d))).
#[export] Instance redb : Redb := {|
  RedbDb := db; redb_insert := insert; redb_remove := remove;
  redb_get d k := Ok (btree_get k (`d)); redb_range d p := Ok (map Ok (btree_range p (`d))) |}.
#[export, program] Instance laws : RedbLaws := {| redb_tree (d : RedbDb) := `d |}.
Next Obligation. by intros [t Ht]. Qed.
Next Obligation. intros d [|b k] v d' E; [done|]. by injection E as <-. Qed.
Next Obligation. intros d k d' E. by injection E as <-. Qed.
Next Obligation. intros d k o E. by injection E as <-. Qed.
Next Obligation.
  intros d p items E. injection E as <-. eexists. split; [reflexivity|].
  apply Forall2_fmap_l, Forall_Forall2_diag, Forall_true. intros kv. by left.
Qed.

Definition empty : db := exist _ [] (SSorted_nil _).
Definition calls : list StoreCall :=
  [CallPut [2; 1] [7]; CallPut [1] [5]; CallPut [2] [8]; CallPut [] [0]; CallDelete [1]; CallGet [2]; CallScan [2] (Some 5%nat)].
End ToyRedb.

Lemma storage_refines_map_witness :
  exists s', run_calls (engine_call (@native_engine ToyRedb.redb)) ToyRedb.empty ToyRedb.calls =
      (s', [Ok Done; Ok Done; Ok Done; Err (WriteFailed (bs "empty")); Ok Done; Ok (Value (Some [8]));
            Ok (Entries [([2], [8]); ([2; 1], [7])])]) /\
    served false (btree_view []) ToyRedb.calls
      [Ok Done; Ok Done; Ok Done; Err (WriteFailed (bs "empty")); Ok Done; Ok (Value (Some [8]));
       Ok (Entries [([2], [8]); ([2; 1], [7])])] (btree_view (@redb_tree ToyRedb.redb ToyRedb.laws s')).
Proof.
  eexists. split; [reflexivity|].
  apply (proj1 (@storage_refines_map ToyRedb.redb ToyRedb.laws) ToyRedb.calls ToyRedb.empty). reflexivity.
Defined.

(** ** The log *)

Inductive LogOp :=
  | LogPut (k v : bytes)
  | LogDelete (k : bytes).

Definition op_entry (o : LogOp) : bytes :=
  match o with LogPut k v => log_entry k (Some v) | LogDelete k => log_entry k None end.
Definition log_bytes (ops : list LogOp) : bytes := concat (map op_entry ops).
Definition apply_op (db : btree) (o : LogOp) : btree :=
  match o with LogPut k v => btree_insert k v db | LogDelete k => btree_remove k db end.
Definition apply_ops (db : btree) (ops : list LogOp) : btree := fold_left apply_op ops db.

(** Sizes the 32-bit length fields can carry; the largest value length is the
    tombstone. *)
Definition op_ok (o : LogOp) : Prop :=
  match o with
  | LogPut k v => len k < 2 ^ 32 /\ len v < TOMBSTONE
  | LogDelete k => len k < 2 ^ 32
  end.

Lemma slice_middle pre x rest a b :
  a = len pre -> b = len pre + len x -> slice (pre ++ x ++ rest) a b = Some x.
Proof.
  intros -> ->. unfold slice. rewrite !len_app. pose proof (len_nonneg pre).
  pose proof (len_nonneg x). pose proof (len_nonneg rest).
  destruct ((_ <=? _) && _) eqn:E; [|apply andb_false_iff in E as [E|E]; zbool; lia].
  f_equal. replace (Z.to_nat (len pre)) with (length pre) by (unfold len; lia).
  rewrite drop_app_length. replace (Z.to_nat _) with (length x) by (unfold len; lia).
  by rewrite take_app_length.
Qed.

Lemma le32 n : 0 <= n < 2 ^ 32 -> le_val (le_bytes 4 n) = n.
Proof. intros H. by apply le_val_le_bytes. Qed.

Lemma len_le32 n : len (le_bytes 4 n) = 4.
Proof. unfold len. by rewrite length_le_bytes. Qed.

Lemma usize_small a b : 0 <= a + b < 2 ^ 32 -> usize_add a b = a + b.
Proof. intros. unfold usize_add, as_u32. by rewrite Z.mod_small. Qed.

Lemma as_u32_len {A} (l : list A) : len l < 2 ^ 32 -> as_u32 (len l) = len l.
Proof. intros. unfold as_u32. apply Z.mod_small. pose proof (len_nonneg l). lia. Qed.

(** Reading a field of the buffer: the cursor stays a length of a prefix. *)
Lemma field_in_buffer (buf pre x rest : bytes) n :
  buf = pre ++ x ++ rest -> n = len x -> len buf < 2 ^ 32 ->
  usize_add (len pre) n = len (pre ++ x) /\ (len (pre ++ x) >? len buf) = false /\
  slice buf (len pre) (len (pre ++ x)) = Some x.
Proof.
  intros -> -> Hb. rewrite !len_app in *. pose proof (len_nonneg pre).
  pose proof (len_nonneg x). pose proof (len_nonneg rest). split; [by apply usize_small; lia|].
  split; [rewrite Z.gtb_ltb; apply Z.ltb_ge; lia|by apply slice_middle].
Qed.

Lemma field_cut (buf pre t : bytes) n :
  buf = pre ++ t -> len t < n -> len pre + n < 2 ^ 32 -> (usize_add (len pre) n >? len buf) = true.
Proof.
  intros -> Ht Hn. pose proof (len_nonneg pre). pose proof (len_nonneg t).
  rewrite usize_small, len_app, Z.gtb_ltb by lia. apply Z.ltb_lt. lia.
Qed.

Lemma in_buffer (buf pre x : bytes) : buf = pre ++ x -> 1 <= len x -> negb (len pre <? len buf) = false.
Proof. intros -> Hx. rewrite len_app. apply negb_false_iff, Z.ltb_lt. lia. Qed.

(** The fields of an entry. *)
Definition op_key (o : LogOp) : bytes := match o with LogPut k _ => k | LogDelete k => k end.
Definition op_val_len (o : LogOp) : Z :=
  match o with LogPut _ v => as_u32 (len v) | LogDelete _ => TOMBSTONE end.
Definition op_body (o : LogOp) : bytes := match o with LogPut _ v => v | LogDelete _ => [] end.

Lemma op_entry_fields o :
  op_entry o = le_bytes 4 (as_u32 (len (op_key o))) ++ op_key o ++ le_bytes 4 (op_val_len o) ++ op_body o.
Proof. destruct o; unfold op_entry, log_entry; cbn [op_key op_val_len op_body]; by rewrite ?app_nil_r. Qed.

Lemma op_key_ok o : op_ok o -> le_val (le_bytes 4 (as_u32 (len (op_key o)))) = len (op_key o).
Proof.
  intros H. pose proof (len_nonneg (op_key o)).
  assert (len (op_key o) < 2 ^ 32) by (destruct o; apply H).
  by rewrite as_u32_len, le32 by lia.
Qed.

Lemma op_val_ok o : op_ok o ->
  le_val (le_bytes 4 (op_val_len o))
  = match o with LogPut _ v => len v | LogDelete _ => TOMBSTONE end.
Proof.
  destruct o as [k v|k]; intros H; cbn [op_val_len].
  - pose proof (len_nonneg v). assert (len v < TOMBSTONE) by apply H.
    unfold TOMBSTONE in *. by rewrite as_u32_len, le32 by lia.
  - by apply le32.
Qed.

Lemma op_entry_len o : len (op_entry o) = 4 + len (op_key o) + 4 + len (op_body o).
Proof. rewrite op_entry_fields, !len_app, !len_le32. lia. Qed.

Lemma put_not_tombstone k v : op_ok (LogPut k v) -> (len v =? TOMBSTONE) = false.
Proof. intros [_ H]. apply Z.eqb_neq. lia. Qed.

(** One whole entry is replayed and the cursor moves past it. *)
Lemma replay_entry o pre rest db fuel :
  op_ok o -> len (pre ++ op_entry o ++ rest) < 2 ^ 32 ->
  replay_loop (S fuel) (pre ++ op_entry o ++ rest) (len pre) db
  = replay_loop fuel (pre ++ op_entry o ++ rest) (len (pre ++ op_entry o)) (apply_op db o).
Proof.
  intros Ho Hb. set (buf := pre ++ op_entry o ++ rest) in *.
  pose proof (op_entry_fields o) as Ee. set (L := le_bytes 4 (as_u32 (len (op_key o)))) in *.
  set (V := le_bytes 4 (op_val_len o)) in *.
  pose proof (op_key_ok o Ho) as HLv. fold L in HLv. pose proof (op_val_ok o Ho) as HVv. fold V in HVv.
  assert (HL : 4 = len L) by (symmetry; apply len_le32).
  assert (HV : 4 = len V) by (symmetry; apply len_le32).
  destruct (field_in_buffer buf pre L (op_key o ++ V ++ op_body o ++ rest) 4)
    as (U1 & G1 & S1); [subst buf; by rewrite Ee, <- !app_assoc|done|done|].
  destruct (field_in_buffer buf (pre ++ L) (op_key o) (V ++ op_body o ++ rest) (len (op_key o)))
    as (U2 & G2 & S2); [subst buf; by rewrite Ee, <- !app_assoc|done|done|].
  destruct (field_in_buffer buf ((pre ++ L) ++ op_key o) V (op_body o ++ rest) 4)
    as (U3 & G3 & S3); [subst buf; by rewrite Ee, <- !app_assoc|done|done|].
  destruct (field_in_buffer buf (((pre ++ L) ++ op_key o) ++ V) (op_body o) rest (len (op_body o)))
    as (U4 & G4 & S4); [subst buf; by rewrite Ee, <- !app_assoc|done|done|].
  assert (Hend : len (pre ++ op_entry o) = len ((((pre ++ L) ++ op_key o) ++ V) ++ op_body o))
    by (by rewrite Ee, <- !app_assoc).
  cbn [replay_loop].
  rewrite (in_buffer buf pre (op_entry o ++ rest)); [|done|].
  2:{ rewrite len_app, op_entry_len. pose proof (len_nonneg (op_key o)).
      pose proof (len_nonneg (op_body o)). pose proof (len_nonneg rest). lia. }
  rewrite U1, G1, S1. cbn [mbind option_bind]. rewrite HLv.
  rewrite U2, G2, S2. cbn [mbind option_bind]. rewrite U3, G3, S3. cbn [mbind option_bind].
  rewrite HVv. rewrite Hend.
  destruct o as [k v|k]; cbn [apply_op op_key op_body] in *.
  - rewrite put_not_tombstone with (k := k), U4, G4, S4 by done. done.
  - rewrite Z.eqb_refl. by rewrite app_nil_r.
Qed.

Lemma replay_ops ops pre db fuel rest :
  Forall op_ok ops -> len (pre ++ log_bytes ops ++ rest) < 2 ^ 32 ->
  replay_loop (length ops + fuel) (pre ++ log_bytes ops ++ rest) (len pre) db
  = replay_loop fuel (pre ++ log_bytes ops ++ rest) (len (pre ++ log_bytes ops)) (apply_ops db ops).
Proof.
  intros Ho. revert pre db. induction Ho as [|o ops Ho _ IH]; intros pre db Hb.
  - unfold log_bytes. cbn. by rewrite app_nil_r.
  - unfold log_bytes in *. cbn [map concat length Nat.add apply_ops fold_left] in *.
    rewrite <- app_assoc in Hb. rewrite <- (app_assoc (op_entry o)).
    rewrite replay_entry by done.
    specialize (IH (pre ++ op_entry o) (apply_op db o)). rewrite <- app_assoc in IH.
    rewrite IH by done. by rewrite <- app_assoc.
Qed.

Lemma length_op_entry o : (8 <= length (op_entry o))%nat.
Proof. destruct o; unfold op_entry, log_entry; rewrite !length_app, !length_le_bytes; lia. Qed.

Lemma length_log_bytes ops : (8 * length ops <= length (log_bytes ops))%nat.
Proof.
  induction ops as [|o ops IH]; [done|]. unfold log_bytes in *. cbn [map concat length].
  rewrite length_app. pose proof (length_op_entry o). lia.
Qed.

(** ** Torn tails *)

(** [t] is cut off before the end of the entry of [o]. *)
Definition torn (o : LogOp) (t : bytes) : Prop := exists more, more <> [] /\ op_entry o = t ++ more.

(** Splitting a prefix at a field boundary. *)
Lemma app_split_prefix (a b t more : bytes) :
  a ++ b = t ++ more -> (exists u, t = a ++ u /\ b = u ++ more) \/ (length t < length a)%nat.
Proof.
  intros E. destruct (decide (length t < length a)%nat); [by right|]. left.
  apply app_eq_inv in E as [(u & -> & ->)|(u & -> & ->)]; [|by exists u].
  rewrite length_app in n. destruct u; [|cbn in n; lia]. exists []. by rewrite !app_nil_r.
Qed.

Lemma replay_torn o t pre db fuel :
  op_ok o -> torn o t -> len (pre ++ op_entry o) < 2 ^ 32 ->
  replay_loop (S fuel) (pre ++ t) (len pre) db = Some db.
Proof.
  intros Ho (more & Hm & E) Hb. assert (Hml : 1 <= len more).
  { destruct more; [done|]. rewrite len_cons. pose proof (len_nonneg more). lia. }
  pose proof (op_entry_len o) as Hel. rewrite len_app, Hel in Hb.
  assert (Htl : len t + len more = len (op_entry o)) by (rewrite E, len_app; done).
  pose proof (len_nonneg pre). pose proof (len_nonneg (op_key o)). pose proof (len_nonneg (op_body o)).
  pose proof (len_nonneg t).
  rewrite op_entry_fields in E. set (L := le_bytes 4 (as_u32 (len (op_key o)))) in *.
  set (V := le_bytes 4 (op_val_len o)) in *. cbn [replay_loop].
  pose proof (op_key_ok o Ho) as HLv. fold L in HLv. pose proof (op_val_ok o Ho) as HVv. fold V in HVv.
  destruct (negb _); [done|]. assert (HL : len L = 4) by apply len_le32.
  assert (HV : len V = 4) by apply len_le32.
  apply app_split_prefix in E as [(t1 & -> & E)|Hs];
    [|rewrite (field_cut _ pre t) by (unfold len in *; lia || done); done].
  destruct (field_in_buffer (pre ++ L ++ t1) pre L t1 4) as (U1 & G1 & S1);
    [done|done|rewrite !len_app in *; lia|].
  rewrite U1, G1, S1. cbn [mbind option_bind]. rewrite HLv.
  apply app_split_prefix in E as [(t2 & -> & E)|Hs];
    [|rewrite (field_cut _ (pre ++ L) t1) by (rewrite ?len_app; unfold len in *; lia || by rewrite <- app_assoc); done].
  destruct (field_in_buffer (pre ++ L ++ op_key o ++ t2) (pre ++ L) (op_key o) t2 (len (op_key o)))
    as (U2 & G2 & S2); [by rewrite <- !app_assoc|done|rewrite !len_app in *; lia|].
  rewrite U2, G2, S2. cbn [mbind option_bind].
  apply app_split_prefix in E as [(t3 & -> & E)|Hs];
    [|rewrite (field_cut _ ((pre ++ L) ++ op_key o) t2) by
        (rewrite ?len_app; unfold len in *; lia || by rewrite <- !app_assoc); done].
  destruct (field_in_buffer (pre ++ L ++ op_key o ++ V ++ t3) ((pre ++ L) ++ op_key o) V t3 4)
    as (U3 & G3 & S3); [by rewrite <- !app_assoc|done|rewrite !len_app in *; lia|].
  rewrite U3, G3, S3. cbn [mbind option_bind]. rewrite HVv.
  apply (f_equal len) in E. rewrite len_app in E.
  destruct o as [k v|k]; cbn [op_key op_body] in *.
  - rewrite put_not_tombstone with (k := k) by done.
    rewrite (field_cut _ (((pre ++ L) ++ k) ++ V) t3); [done| | |]; rewrite <- ?app_assoc; try done.
    + lia.
    + rewrite !len_app in *. lia.
  - rewrite len_nil in E. pose proof (len_nonneg t3). lia.
Qed.

Lemma replay_end fuel buf db : replay_loop (S fuel) buf (len buf) db = Some db.
Proof. cbn [replay_loop]. by rewrite Z.ltb_irrefl. Qed.

(** A log of whole entries followed by nothing or by a torn entry. *)
Lemma replay_log ops t :
  Forall op_ok ops -> (t = [] \/ exists o, op_ok o /\ torn o t /\ len (log_bytes ops ++ op_entry o) < 2 ^ 32) ->
  len (log_bytes ops ++ t) < 2 ^ 32 ->
  replay (log_bytes ops ++ t) = Some (apply_ops [] ops).
Proof.
  intros Ho Ht Hb. unfold replay.
  pose proof (length_log_bytes ops) as Hl.
  replace (S (length (log_bytes ops ++ t)))
    with (length ops + S (length (log_bytes ops ++ t) - length ops))%nat
    by (rewrite length_app; lia).
  pose proof (replay_ops ops [] [] (S (length (log_bytes ops ++ t) - length ops)) t Ho Hb) as E.
  cbn [app] in E. change (len (@nil Z)) with 0 in E. rewrite E.
  destruct Ht as [->|(o & Hoo & Hto & Hbo)].
  - rewrite app_nil_r. apply replay_end.
  - by apply (replay_torn o).
Qed.

Definition run_op (s : WasmStorage) (o : LogOp) : WasmStorage * Result StorageError unit :=
  match o with LogPut k v => wasm_put true s k v | LogDelete k => wasm_delete true s k end.

Fixpoint run_ops (s : WasmStorage) (ops : list LogOp) : WasmStorage :=
  match ops with [] => s | o :: ops' => run_ops (run_op s o).1 ops' end.

Lemma run_op_opfs s o file :
  opfs_handle s = Some file ->
  run_op s o = ({| ws_db := apply_op (ws_db s) o; opfs_handle := Some (file ++ op_entry o) |}, Ok tt).
Proof.
  intros Hf. destruct o as [k v|k]; cbn [run_op]; unfold wasm_put, wasm_delete, append_to_log, is_opfs_active;
    rewrite Hf; cbn; by rewrite ?Hf.
Qed.

Lemma run_ops_opfs ops s file :
  opfs_handle s = Some file ->
  run_ops s ops = {| ws_db := apply_ops (ws_db s) ops; opfs_handle := Some (file ++ log_bytes ops) |}.
Proof.
  revert s file. induction ops as [|o ops IH]; intros s file Hf.
  - unfold log_bytes. cbn. rewrite app_nil_r. destruct s; cbn in *; by subst.
  - cbn [run_ops]. rewrite (run_op_opfs _ _ _ Hf). cbn [fst].
    rewrite (IH _ (file ++ op_entry o)) by done. cbn [ws_db apply_ops fold_left].
    unfold log_bytes. cbn [map concat]. by rewrite <- app_assoc.
Qed.

(** Restart.  In any session of puts and deletes on a fresh OPFS file
    every operation is acknowledged, and reopening the file restores exactly
    the state the session ended in. *)
Theorem opfs_restart_restores ops :
  Forall op_ok ops -> len (log_bytes ops) < 2 ^ 32 ->
  exists s0, init_opfs [] = Some s0 /\
    (forall j o, ops !! j = Some o -> (run_op (run_ops s0 (take j ops)) o).2 = Ok tt) /\
    ws_db (run_ops s0 ops) = apply_ops [] ops /\
    (file ← opfs_handle (run_ops s0 ops); init_opfs file) = Some (run_ops s0 ops).
Proof.
  intros Ho Hb. eexists. split; [reflexivity|]. set (s0 := {| ws_db := []; opfs_handle := Some [] |}).
  split.
  { intros j o _. rewrite (run_ops_opfs (take j ops) s0 []) by done.
    by erewrite run_op_opfs by reflexivity. }
  rewrite (run_ops_opfs ops s0 []) by done. split; [done|].
  cbn [opfs_handle ws_db s0 mbind option_bind app]. unfold init_opfs.
  assert (E : replay (log_bytes ops) = Some (apply_ops [] ops)).
  { rewrite <- (app_nil_r (log_bytes ops)). apply replay_log; [done|by left|by rewrite app_nil_r]. }
  by rewrite E.
Qed.

Lemma opfs_restart_restores_witness :
  exists s0, init_opfs [] = Some s0 /\
    (file ← opfs_handle (run_ops s0 [LogPut [1] [2]; LogDelete [1]; LogPut [3] [4]]); init_opfs file)
    = Some {| ws_db := [([3], [4])];
              opfs_handle := Some (log_bytes [LogPut [1] [2]; LogDelete [1]; LogPut [3] [4]]) |}.
Proof.
  destruct (opfs_restart_restores [LogPut [1] [2]; LogDelete [1]; LogPut [3] [4]])
    as (s0 & H0 & _ & _ & H); [repeat constructor|reflexivity|].
  exists s0. split; [exact H0|]. rewrite H. injection H0 as <-. reflexivity.
Defined.

(** A cut of the log lies inside the entry that follows those wholly before it. *)
Lemma log_prefix ops n :
  Forall op_ok ops ->
  exists j t, (j <= length ops)%nat /\ (length (log_bytes (take j ops)) <= n)%nat /\
    ((j < length ops)%nat -> (n < length (log_bytes (take (S j) ops)))%nat) /\
    take n (log_bytes ops) = log_bytes (take j ops) ++ t /\
    (t = [] \/ exists o, ops !! j = Some o /\ torn o t).
Proof.
  intros Ho. revert n. induction Ho as [|o ops Hoo _ IH]; intros n.
  - exists 0%nat, []. split; [done|]. split; [cbn; lia|]. split; [cbn; lia|]. split; [by destruct n|by left].
  - unfold log_bytes in *. cbn [map concat length]. destruct (decide (n < length (op_entry o))%nat) as [Hn|Hn].
    + exists 0%nat, (take n (op_entry o)). rewrite take_app_le by lia. cbn [take map concat length].
      rewrite length_app. do 3 (split; [lia|]). split; [done|]. right.
      exists o. split; [done|]. exists (drop n (op_entry o)). split; [|by rewrite take_drop].
      intros E. apply (f_equal length) in E. rewrite length_drop in E. cbn in E. lia.
    + destruct (IH (n - length (op_entry o))%nat) as (j & t & Hj & Hle & Hlt & E & Ht).
      exists (S j), t. rewrite take_app_ge by lia. change (take (S (S j)) (o :: ops)) with (o :: take (S j) ops).
      cbn [take map concat lookup]. rewrite !length_app. split; [lia|]. split; [lia|]. split; [lia|].
      rewrite E, <- app_assoc. split; [done|]. exact Ht.
Qed.

(** A file just created. *)
Definition opfs_fresh : WasmStorage := {| ws_db := []; opfs_handle := Some [] |}.

(** C29: crash consistency.  A session on a new file appends its operations to
    it.  Whatever byte a crash cuts that file at, reopening it succeeds and
    restores the state the session was in after exactly the operations whose
    entries lie wholly before the cut. *)
Theorem opfs_crash_prefix ops n :
  Forall op_ok ops -> len (log_bytes ops) < 2 ^ 32 ->
  opfs_handle (run_ops opfs_fresh ops) = Some (log_bytes ops) /\
  exists j s, (j <= length ops)%nat /\ (length (log_bytes (take j ops)) <= n)%nat /\
    ((j < length ops)%nat -> (n < length (log_bytes (take (S j) ops)))%nat) /\
    init_opfs (take n (log_bytes ops)) = Some s /\ ws_db s = ws_db (run_ops opfs_fresh (take j ops)).
Proof.
  intros Ho Hb. rewrite (run_ops_opfs ops opfs_fresh []) by done. split; [done|].
  destruct (log_prefix ops n Ho) as (j & t & Hj & Hle & Hlt & E & Ht).
  assert (Hlen : len (take n (log_bytes ops)) <= len (log_bytes ops)).
  { unfold len. rewrite length_take. lia. }
  exists j. eexists. do 3 (split; [done|]). rewrite (run_ops_opfs (take j ops) opfs_fresh []) by done.
  unfold init_opfs. rewrite E, (replay_log (take j ops) t).
  - by split.
  - by apply Forall_take.
  - destruct Ht as [->|(o & Ho' & Ht)]; [by left|]. right. exists o.
    split; [by eapply Forall_lookup_1|]. split; [done|].
    rewrite <- (take_drop_middle ops j o Ho') in Hb. unfold log_bytes in *.
    rewrite map_app, concat_app in Hb. cbn [map concat] in Hb. rewrite !len_app in *.
    pose proof (len_nonneg (concat (map op_entry (drop (S j) ops)))). lia.
  - rewrite <- E. lia.
Qed.

(** The second entry is cut: the first is restored. *)
Lemma opfs_crash_prefix_witness :
  exists s, init_opfs (take 15 (log_bytes [LogPut [1] [2]; LogPut [3] [4]])) = Some s /\ ws_db s = [([1], [2])].
Proof.
  destruct (opfs_crash_prefix [LogPut [1] [2]; LogPut [3] [4]] 15)
    as (_ & j & s & Hj & Hle & Hlt & Hs & Hd); [repeat constructor|reflexivity|].
  exists s. split; [exact Hs|]. rewrite Hd. clear Hd Hs. destruct j as [|[|[|j]]].
  - specialize (Hlt ltac:(cbn; lia)). apply Nat.ltb_lt in Hlt. vm_compute in Hlt. discriminate Hlt.
  - reflexivity.
  - apply Nat.leb_le in Hle. vm_compute in Hle. discriminate Hle.
  - cbn in Hj. lia.
Defined.

(** The torn tail is not cut off, so what is appended after it is lost: an
    acknowledged put after such a crash is gone at the next restart. *)
Theorem put_after_torn_tail_is_lost :
  exists ops n s s' s'' file k v,
    Forall op_ok ops /\
    init_opfs (take n (log_bytes ops)) = Some s /\
    wasm_put true s k v = (s', Ok tt) /\ wasm_get s' k = Ok (Some v) /\
    opfs_handle s' = Some file /\ init_opfs file = Some s'' /\ wasm_get s'' k = Ok None.
Proof.
  exists [LogPut [1] [2]; LogPut [3] [4]], 15%nat. do 4 eexists. exists [5], [6].
  split; [repeat constructor|]. do 5 (split; [vm_compute; reflexivity|]). vm_compute. reflexivity.
Qed.

(** A refused log write leaves the value visible although the put failed. *)
Lemma wasm_failed_put_is_visible s file k v :
  opfs_handle s = Some file ->
  is_err (wasm_put false s k v).2 = true /\ wasm_get (wasm_put false s k v).1 k = Ok (Some v).
Proof.
  intros Hf. unfold wasm_put, append_to_log, is_opfs_active. rewrite Hf. cbn [negb andb opfs_handle fst snd].
  split; [done|]. unfold wasm_get. cbn [ws_db].
  by rewrite btree_get_view, btree_insert_view, lookup_insert_eq.
Qed.

(** ** The in-memory quota *)

Lemma length_btree_view m : btree_wf m -> length m = size (btree_view m).
Proof. intros H. unfold btree_view. symmetry. apply map_size_list_to_map. by apply btree_keys_nodup. Qed.

Lemma length_btree_insert k v m :
  btree_wf m ->
  length (btree_insert k v m) =
  if decide (is_Some (btree_get k m)) then length m else S (length m).
Proof.
  intros H. rewrite (length_btree_view _ (btree_insert_wf k v m H)), btree_insert_view, map_size_insert.
  rewrite btree_get_view, (length_btree_view m H).
  destruct (btree_view m !! k); case_decide as E; [done|by destruct E|by destruct E|done].
Qed.

Lemma length_btree_remove k m : (length (btree_remove k m) <= length m)%nat.
Proof. induction m as [|[k' v'] m IH]; cbn; [lia|]. case_bool_decide; cbn; lia. Qed.

Definition quota_inv (s : WasmStorage) : Prop :=
  opfs_handle s = None /\ btree_wf (ws_db s) /\ (length (ws_db s) <= WASM_QUOTA)%nat.

Lemma run_op_quota s o : quota_inv s -> quota_inv (run_op s o).1.
Proof.
  intros (Hf & Hwf & Hl). unfold quota_inv. destruct o as [k v|k]; cbn [run_op].
  - unfold wasm_put, append_to_log, is_opfs_active. rewrite Hf. cbn [negb andb].
    destruct (WASM_QUOTA <=? length (ws_db s))%nat eqn:E; cbn [andb].
    + case_bool_decide as Ek; cbn [negb fst opfs_handle ws_db]; [|done]. split; [done|].
      split; [by apply btree_insert_wf|]. rewrite length_btree_insert by done.
      by rewrite decide_True by done.
    + apply Nat.leb_gt in E. cbn [fst opfs_handle ws_db]. split; [done|].
      split; [by apply btree_insert_wf|]. rewrite length_btree_insert by done. case_decide; lia.
  - unfold wasm_delete, append_to_log. cbn [opfs_handle]. rewrite Hf. cbn [fst ws_db opfs_handle].
    split; [done|]. split; [by apply btree_remove_wf|]. pose proof (length_btree_remove k (ws_db s)). lia.
Qed.

(** The in-memory store never holds more than ten thousand keys, whatever the
    session does. *)
Lemma wasm_quota_bound ops : (length (ws_db (run_ops wasm_new ops)) <= 10000)%nat.
Proof.
  assert (H : quota_inv wasm_new).
  { split; [done|]. split; [constructor|]. cbn [wasm_new ws_db length]. lia. }
  revert H. generalize wasm_new. induction ops as [|o ops IH]; intros s H; [by apply H|].
  cbn [run_ops]. apply IH. by apply run_op_quota.
Qed.
