(* ===== verification/StoreVerify.v ===== *)
(** * Admission rules of the DHT store ([kinetic-network/src/store/verification.rs])

    Host routes, reveals with their commitments, loyalty discounts and VDF
    proofs, identity documents and manifests; with the error type of
    [kinetic-network/src/error.rs].  The VDF engine, the storage engine, the
    beacon verifier, the peer-id parser, Ed25519 and the JSON codec are
    interfaces; the network switch-off state is the shared [ActionState]. *)
From Stdlib Require Import String.
From S2P Require Import Prelude Bytes Config Crypto Kyn Names Physics Kid Records Action Verify Storage.
From S2P Require RsaVdf.
#[export] Existing Instance RsaVdf.VdfError_eq_dec.
#[local] Open Scope Z_scope.

(** ** [error.rs] *)

Inductive KineticStoreError :=
  | PayloadTooLarge
  | VdfExpired (age : Z)
  | InvalidVdf
  | VdfEngineError (e : RsaVdf.VdfError)
  | InvalidSignature
  | InvalidPublicKey
  | MalformedSignature
  | TieBroken
  | InsufficientIterations
  | InternalStoreError
  | InvalidKidSignature
  | InvalidManifestSignature
  | UnknownRecordType
  | InvalidBeaconHex
  | StaleHeartbeat
  | InvalidHostRouteSignature
  | RateLimited
  | StaleReveal
  | SchemaValidationError
  | InvalidName
  | SeNetworkHalted
  | SeDelegatedCapabilityMissing
  | SeDelegatedAuthorizationInvalid
  | InvalidBeaconSignature
  | MalformedJson
  | InvalidKidDocument
  | GenesisBindingFailed
  | UnauthorizedUpdate
  | ManifestVersionRollback
  | ManifestVerificationFailed
  | FutureHeartbeat
  | RevealNotFound
  | MissingCommitment (commit_key : bytes)
  | NameNotFound
  | MissingKidDocument.

#[export] Instance KineticStoreError_eq_dec : EqDecision KineticStoreError.
Proof. solve_decision. Defined.

Definition store_error_code (e : KineticStoreError) : string :=
  match e with
  | PayloadTooLarge => "KIN-DHT-001"
  | VdfExpired _ => "KIN-DHT-002"
  | InvalidVdf => "KIN-DHT-003"
  | VdfEngineError _ => "KIN-DHT-004"
  | InvalidSignature => "KIN-DHT-005"
  | InvalidPublicKey => "KIN-DHT-006"
  | MalformedSignature => "KIN-DHT-007"
  | TieBroken => "KIN-DHT-008"
  | InsufficientIterations => "KIN-DHT-009"
  | InternalStoreError => "KIN-DHT-010"
  | InvalidKidSignature => "KIN-DHT-011"
  | InvalidManifestSignature => "KIN-DHT-012"
  | UnknownRecordType => "KIN-DHT-013"
  | InvalidBeaconHex => "KIN-DHT-014"
  | StaleHeartbeat => "KIN-DHT-015"
  | InvalidHostRouteSignature => "KIN-DHT-016"
  | RateLimited => "KIN-DHT-017"
  | StaleReveal => "KIN-DHT-018"
  | SchemaValidationError => "KIN-DHT-019"
  | InvalidName => "KIN-DHT-020"
  | SeNetworkHalted => "KIN-DHT-021"
  | SeDelegatedCapabilityMissing => "KIN-DHT-022"
  | SeDelegatedAuthorizationInvalid => "KIN-DHT-023"
  | InvalidBeaconSignature => "KIN-DHT-024"
  | MalformedJson => "KIN-DHT-025"
  | InvalidKidDocument => "KIN-DHT-026"
  | GenesisBindingFailed => "KIN-DHT-027"
  | UnauthorizedUpdate => "KIN-DHT-028"
  | ManifestVersionRollback => "KIN-DHT-029"
  | ManifestVerificationFailed => "KIN-DHT-030"
  | FutureHeartbeat => "KIN-DHT-031"
  | RevealNotFound => "KIN-QRY-007"
  | MissingCommitment _ => "KIN-QRY-008"
  | NameNotFound => "KIN-QRY-009"
  | MissingKidDocument => "KIN-QRY-010"
  end.

Definition store_error_is_retryable (e : KineticStoreError) : bool :=
  match e with RateLimited | VdfEngineError _ => true | _ => false end.

Definition store_error_severity (e : KineticStoreError) : Severity :=
  match e with
  | TieBroken | InsufficientIterations | VdfExpired _ | RevealNotFound | NameNotFound => SevInfo
  | PayloadTooLarge | UnknownRecordType | RateLimited => SevWarning
  | _ => SevError
  end.

(** [impl From<KineticStoreError> for libp2p::kad::store::Error] *)
Inductive KadStoreError := KadMaxRecords | KadMaxProvidedKeys | KadValueTooLarge.
Definition kad_error_of (e : KineticStoreError) : KadStoreError := KadValueTooLarge.

(** ** Interfaces *)

(** The trait [VdfEngine], verification half. *)
Class VdfEngine := vdf_verify : bytes -> bytes -> Z -> Result RsaVdf.VdfError bool.

(** [ed25519_dalek] *)
Class Ed25519 := {
  EdKey : Type;
  EdSig : Type;
  ed_key_from_bytes : bytes -> option EdKey;
  ed_sig_from_slice : bytes -> option EdSig;
  ed_verify : EdKey -> bytes -> EdSig -> bool }.

(** [serde_json::from_slice] at the types the admission rules parse. *)
Class StoredJson := {
  auth_kid_from_slice : bytes -> option AuthorizedKid;
  auth_manifest_from_slice : bytes -> option AuthorizedManifest }.

Definition KRS_REVEAL_PREFIX : bytes := bs "krs_reveal:".
Definition KRS_HB_PREFIX : bytes := bs "krs_hb:".
Definition KRS_COMMIT_PREFIX : bytes := bs "krs_cmt:".

(** ** Host routes *)

Section HostRoutes.
Context {HPeer : PeerIds} {HEd : Ed25519}.

Definition ED25519_MULTIHASH_PREFIX : bytes := [0; 36; 8; 1; 18; 32].

Definition verify_host_routing_record (network_salt : bytes) (record : HostRoute) (current_kyn : Z)
  : Result KineticStoreError unit :=
  bail_if (sat_sub current_kyn (hr_kyn record) >? 100) InvalidHostRouteSignature;;
  bail_if (hr_kyn record >? wadd64 current_kyn 2) InvalidHostRouteSignature;;
  digest ← ok_or (peer_id_digest (host_id record)) InvalidPublicKey;
  pubkey_bytes ←
    (if (len digest =? 38) && bool_decide (take 6 digest = ED25519_MULTIHASH_PREFIX)
     then Ok (drop 6 digest) else Err InvalidPublicKey);
  verifying_key ← ok_or (ed_key_from_bytes pubkey_bytes) InvalidPublicKey;
  sig ← ok_or (ed_sig_from_slice (host_signature record)) MalformedSignature;
  let signable := host_route_signable_bytes record network_salt in
  if ed_verify verifying_key signable sig then Ok tt else Err InvalidHostRouteSignature.

End HostRoutes.

(** ** Reveals *)

Definition get_u64_from_db {HSto : StorageEngine} (storage : Sto) (key : bytes) : option Z :=
  match sto_get storage key with
  | Ok (Some b) => if len b =? 8 then Some (be_val b) else None
  | _ => None
  end.

(** The lock on [GLOBAL_ACTION_STATE]: [None] when it is poisoned. *)
Definition paused_since (action : option ActionState) (kyn : Z) : Z :=
  match action with Some state => paused_kyns_since state kyn | None => 0 end.

(** The discount table of [compute_required_iterations]. *)
Definition loyalty_discount (base_required_iterations name_len : Z) : Z :=
  if name_len =? 1 then PHYSICS_VDF_DISCOUNT_MIN_ITERATIONS
  else if (2 <=? name_len) && (name_len <=? 6) then base_required_iterations / 2
  else if (7 <=? name_len) && (name_len <=? 10) then base_required_iterations / 5
  else wmul64 base_required_iterations PHYSICS_VDF_DISCOUNT_PERCENTAGE / 100.

Section Reveals.
Context {HUni : UnicodeCase} {HSha : Sha2} {HSig : MlDsa} {HCod : Codecs} {HJcs : Jcs}
  {HBv : BeaconVerify} {HVdf : VdfEngine} {HSto : StorageEngine}.
Variables (is_dev_mode : bool) (network_salt : bytes) (action : option ActionState).

Definition reveal_challenge (reveal : Reveal) (drand_sig_bytes : bytes) : bytes :=
  commitment_derive network_salt (rv_name reveal) (rv_salt reveal) drand_sig_bytes (rv_pubkey reveal).

(** The body under [if let Some(prev) = &reveal.previous_proof]. *)
Definition discounted_iterations (reveal : Reveal) (prev : PreviousProof) (current_kyn base : Z) : Z :=
  match hex_decode (pp_beacon_signature prev) with
  | None => base
  | Some prev_drand_sig_bytes =>
      if negb (verify_beacon_signature (pp_kyn prev) (pp_beacon_signature prev) is_dev_mode) then base
      else
        let prev_challenge :=
          commitment_derive network_salt (rv_name reveal) (pp_salt prev) prev_drand_sig_bytes
            (rv_pubkey reveal) in
        let prev_valid :=
          match vdf_verify prev_challenge (pp_vdf_proof prev) (pp_iterations prev) with
          | Ok true => true | _ => false end in
        let prev_req := iterations is_dev_mode physics_default (rv_name reveal) in
        let paused_kyns := paused_since action (pp_kyn prev) in
        let effective_age := sat_sub (sat_sub current_kyn (pp_kyn prev)) paused_kyns in
        let is_not_too_old := effective_age <=? wmul64 RESQUARING_EPOCH_KYNS 2 in
        if prev_valid && (pp_iterations prev >=? prev_req) && is_not_too_old then
          let normalized_name := normalize_name (rv_name reveal) in
          let name_len := len (default normalized_name (strip_suffix NSP_SUFFIX normalized_name)) in
          Z.max PHYSICS_VDF_DISCOUNT_MIN_ITERATIONS (loyalty_discount base name_len)
        else base
  end.

Definition compute_required_iterations (reveal : Reveal) (current_kyn : Z)
  : Result KineticStoreError Z :=
  bail_if (is_err (is_valid_apex_name (rv_name reveal))) InvalidName;;
  bail_if (negb (verify_beacon_signature (rv_kyn reveal) (rv_beacon_signature reveal) is_dev_mode))
    InvalidBeaconSignature;;
  let base_required_iterations := iterations is_dev_mode physics_default (rv_name reveal) in
  Ok match rv_previous_proof reveal with
     | Some prev => discounted_iterations reveal prev current_kyn base_required_iterations
     | None => base_required_iterations
     end.

Definition commit_key_of (hash : bytes) : bytes := KRS_COMMIT_PREFIX ++ hash.

Definition is_network_halted : bool :=
  match action with Some state => is_halted state | None => false end.

Definition verify_reveal (reveal : Reveal) (storage : Sto) (current_kyn : Z)
  : Result KineticStoreError unit :=
  bail_if is_network_halted SeNetworkHalted;;
  bail_if (is_err (reveal_validate reveal)) InvalidName;;
  bail_if (negb is_dev_mode && is_err (reveal_verify_signature reveal network_salt))
    InvalidSignature;;
  bail_if (negb (verify_beacon_signature (rv_kyn reveal) (rv_beacon_signature reveal) is_dev_mode))
    InvalidBeaconSignature;;
  drand_sig_bytes ← ok_or (hex_decode (rv_beacon_signature reveal)) InvalidBeaconHex;
  let challenge := reveal_challenge reveal drand_sig_bytes in
  let commit_key := commit_key_of challenge in
  match get_u64_from_db storage commit_key with
  | Some commit_kyn =>
      bail_if (negb is_dev_mode && (sat_sub current_kyn commit_kyn <? PHYSICS_MINIMUM_COMMIT_AGE_KYNS))
        StaleReveal
  | None => bail_if (negb is_dev_mode) (MissingCommitment commit_key)
  end;;
  required_iterations ← compute_required_iterations reveal current_kyn;
  if is_dev_mode then Ok tt
  else
    bail_if (rv_iterations reveal <? required_iterations) InsufficientIterations;;
    match vdf_verify challenge (rv_vdf_proof reveal) (rv_iterations reveal) with
    | Ok true => Ok tt
    | Ok false => Err InvalidVdf
    | Err e => Err (VdfEngineError e)
    end.

End Reveals.

(** ** Identity attachments *)

Section Identity.
Context {HSha : Sha2} {HSig : MlDsa} {HCod : Codecs} {HJcs : Jcs} {HJson : StoredJson}.
Variable network_salt : bytes.

(** [existing_record] is the value of the record the store holds under the
    same key. *)
Definition verify_authorized_kid (auth_kid : AuthorizedKid) (active_record : option NameEnvelope)
    (existing_record : option bytes) : Result KineticStoreError unit :=
  record ← ok_or active_record NameNotFound;
  bail_if (negb (key_verifies (envelope_pubkey record) (auth_kid_signable_bytes auth_kid network_salt)
                   (ak_owner_signature auth_kid))) InvalidKidSignature;;
  bail_if (is_err (document_verify (ak_kid_doc auth_kid))) InvalidKidDocument;;
  match existing_record with
  | None => map_err (fun _ => GenesisBindingFailed) (document_verify_genesis (ak_kid_doc auth_kid))
  | Some value =>
      bail_if (match auth_kid_from_slice value with
               | Some old_auth_kid =>
                   negb (document_is_authorized (ak_kid_doc auth_kid) (ak_kid_doc old_auth_kid))
               | None => false
               end) UnauthorizedUpdate
  end.

Definition verify_authorized_manifest (auth_manifest : AuthorizedManifest)
    (active_record : option NameEnvelope) (existing_record : option bytes) (current_kyn : Z)
  : Result KineticStoreError unit :=
  record ← ok_or active_record NameNotFound;
  bail_if (negb (key_verifies (envelope_pubkey record)
                   (auth_manifest_signable_bytes auth_manifest network_salt)
                   (am_owner_signature auth_manifest))) InvalidManifestSignature;;
  kid_doc ← ok_or (am_kid_doc auth_manifest) MissingKidDocument;
  bail_if (is_err (document_verify kid_doc)) InvalidKidDocument;;
  let current_time := to_ukyn current_kyn BEACON_GENESIS in
  bail_if (is_err (manifest_verify_at_time (am_manifest auth_manifest) kid_doc current_time))
    ManifestVerificationFailed;;
  bail_if (match existing_record with
           | Some value =>
               match auth_manifest_from_slice value with
               | Some old_manifest =>
                   version (am_manifest auth_manifest) <=? version (am_manifest old_manifest)
               | None => false
               end
           | None => false
           end) ManifestVersionRollback.

End Identity.

(** ** Host routes of real peers *)

Section HostRouteFacts.
Context {HPeer : PeerIds} {HEd : Ed25519} {HPeerLaws : PeerIdsLaws}.

(** No host route of a real peer is ever admitted.  The digest of an
    Ed25519 peer id is the 36-byte encoding of its key; the rule asks for the
    38-byte multihash around it, so a fresh route with a parsable peer id is
    refused with [InvalidPublicKey] whatever its signature says. *)
Theorem host_route_of_ed25519_peer_rejected ns record k now :
  length k = 32%nat -> host_id record = ed25519_peer_id k ->
  verify_host_routing_record ns record now
  = Err (if (sat_sub now (hr_kyn record) >? 100) || (hr_kyn record >? wadd64 now 2)
         then InvalidHostRouteSignature else InvalidPublicKey).
Proof.
  intros Hk Hh. unfold verify_host_routing_record.
  destruct (sat_sub now (hr_kyn record) >? 100); [done|].
  destruct (hr_kyn record >? wadd64 now 2); [done|]. cbn [bail_if orb mbind result_bind].
  rewrite Hh, ed25519_digest by done. cbn [ok_or mbind result_bind].
  replace (len ([8; 1; 18; 32] ++ k) =? 38) with false; [done|].
  symmetry. apply Z.eqb_neq. rewrite len_app. unfold len. rewrite Hk. cbn. lia.
Qed.

End HostRouteFacts.

Definition toy_peer_ids : PeerIds :=
  {| peer_id_digest := fun s => Some s; ed25519_peer_id := fun k => [8; 1; 18; 32] ++ k |}.
Lemma toy_peer_ids_laws : @PeerIdsLaws toy_peer_ids.
Proof. split. done. Qed.
Definition toy_ed25519 : Ed25519 :=
  {| EdKey := bytes; EdSig := bytes; ed_key_from_bytes := Some; ed_sig_from_slice := Some;
     ed_verify := fun k m s => true |}.

Lemma host_route_of_ed25519_peer_rejected_witness :
  @verify_host_routing_record toy_peer_ids toy_ed25519 (toy_salt 1)
    (MkHostRoute ([8; 1; 18; 32] ++ toy_salt 5) [] 1000 [1]) 1000 = Err InvalidPublicKey.
Proof.
  exact (@host_route_of_ed25519_peer_rejected toy_peer_ids toy_ed25519 toy_peer_ids_laws (toy_salt 1)
    (MkHostRoute ([8; 1; 18; 32] ++ toy_salt 5) [] 1000 [1]) (toy_salt 5) 1000 eq_refl eq_refl).
Defined.

(** A peer id crafted as the identity multihash of a 38-byte text passes the
    length check, even when every signature verifies. *)
Example crafted_host_route_admitted :
  @verify_host_routing_record toy_peer_ids toy_ed25519 (toy_salt 1)
    (MkHostRoute (ED25519_MULTIHASH_PREFIX ++ toy_salt 5) [] 1000 [1]) 1000 = Ok tt.
Proof. reflexivity. Qed.

(** ** The loyalty discount *)

Section RevealFacts.
Context {HUni : UnicodeCase} {HSha : Sha2} {HSig : MlDsa} {HCod : Codecs} {HJcs : Jcs}
  {HBv : BeaconVerify} {HVdf : VdfEngine} {HSto : StorageEngine}.
Variables (network_salt : bytes) (action : option ActionState).

(** The effort a name costs without a discount. *)
Definition full_effort (r : Reveal) : Z := iterations false physics_default (rv_name r).

(** The name's length without its suffix, which selects the discount. *)
Definition discount_length (r : Reveal) : Z :=
  let normalized_name := normalize_name (rv_name r) in
  len (default normalized_name (strip_suffix NSP_SUFFIX normalized_name)).

(** What entitles a renewal to a discount: a previous proof by the same owner
    of the same name, bound to a genuine beacon pulse, of the full effort, and
    at most two epochs old, pauses deducted. *)
Definition renewal_earned (r : Reveal) (prev : PreviousProof) (now : Z) : Prop :=
  exists sig_bytes,
    hex_decode (pp_beacon_signature prev) = Some sig_bytes /\
    verify_beacon_signature (pp_kyn prev) (pp_beacon_signature prev) false = true /\
    vdf_verify (commitment_derive network_salt (rv_name r) (pp_salt prev) sig_bytes (rv_pubkey r))
      (pp_vdf_proof prev) (pp_iterations prev) = Ok true /\
    full_effort r <= pp_iterations prev /\
    sat_sub (sat_sub now (pp_kyn prev)) (paused_since action (pp_kyn prev)) <= 2 * RESQUARING_EPOCH_KYNS.

Lemma discounted_iterations_cases r prev now :
  let base := full_effort r in
  (renewal_earned r prev now /\
   discounted_iterations false network_salt action r prev now base
   = Z.max PHYSICS_VDF_DISCOUNT_MIN_ITERATIONS (loyalty_discount base (discount_length r))) \/
  (~ renewal_earned r prev now /\
   discounted_iterations false network_salt action r prev now base = base).
Proof.
  cbv zeta. unfold discounted_iterations, renewal_earned, full_effort, discount_length.
  destruct (hex_decode (pp_beacon_signature prev)) as [sb|];
    [|right; split; [by intros (? & ? & _)|reflexivity]].
  destruct (verify_beacon_signature _ _ false); cbn [negb];
    [|right; split; [by intros (? & _ & ? & _)|reflexivity]].
  set (v := vdf_verify _ _ _).
  assert (Hv : v = Ok true \/ v <> Ok true) by (destruct v as [[]|]; auto).
  destruct Hv as [Hv|Hv].
  2:{ right. split; [intros (sb' & [= <-] & _ & ? & _); by apply Hv|].
      by destruct v as [[]|]. }
  rewrite Hv. cbn [andb].
  destruct (pp_iterations prev >=? _) eqn:E1; rewrite Z.geb_leb in E1; zbool; cbn [andb];
    [|right; split; [intros (? & _ & _ & _ & ? & _); lia|reflexivity]].
  change (wmul64 RESQUARING_EPOCH_KYNS 2) with (2 * RESQUARING_EPOCH_KYNS).
  destruct (_ <=? 2 * RESQUARING_EPOCH_KYNS) eqn:E2; zbool.
  - left. split; [by exists sb|reflexivity].
  - right. split; [intros (? & _ & _ & _ & _ & ?); lia|reflexivity].
Qed.

Lemma full_effort_bounds r : 238819830 <= full_effort r <= 1256096777868000.
Proof.
  unfold full_effort, iterations. generalize (default (extract_apex_name (normalize_name (rv_name r)))
    (strip_suffix NSP_SUFFIX (extract_apex_name (normalize_name (rv_name r))))). intros l.
  rewrite label_iters_exact. pose proof (ndc_minutes_bounds (len l)) as Hb. revert Hb.
  generalize (ndc_minutes (len l)). intros m.
  change BASE_ITERATIONS with 238819830. change TARGET_MINUTES with 30. intros Hb.
  split; [apply Z.div_le_lower_bound; lia|]. apply Z.div_le_upper_bound; lia.
Qed.

Lemma loyalty_discount_range base l :
  238819830 <= base <= 1256096777868000 ->
  1000 <= loyalty_discount base l <= base /\ (l <> 1 -> base * 15 / 100 <= loyalty_discount base l).
Proof.
  intros Hb. unfold loyalty_discount, wmul64. change PHYSICS_VDF_DISCOUNT_MIN_ITERATIONS with 1000.
  change PHYSICS_VDF_DISCOUNT_PERCENTAGE with 15.
  rewrite (Z.mod_small (base * 15)) by lia.
  destruct (l =? 1) eqn:E1; zbool; [lia|].
  destruct ((2 <=? l) && _); [dlia|]. destruct ((7 <=? l) && _); dlia.
Qed.

(** C13: the effort a reveal must show.  In a production build it is never
    above the full effort of the name and never below the minimum, no product
    wraps, and it is below the full effort only for a renewal whose previous
    proof was itself of the full effort: a discounted proof does not entitle
    its owner to a further discount.  Names of more than one character never
    cost less than fifteen percent. *)
Theorem required_iterations_bounds r now n :
  compute_required_iterations false network_salt action r now = Ok n ->
  PHYSICS_VDF_DISCOUNT_MIN_ITERATIONS <= n <= full_effort r /\
  (n < full_effort r <-> exists prev, rv_previous_proof r = Some prev /\ renewal_earned r prev now /\
     Z.max PHYSICS_VDF_DISCOUNT_MIN_ITERATIONS (loyalty_discount (full_effort r) (discount_length r)) = n) /\
  (discount_length r <> 1 -> full_effort r * 15 / 100 <= n) /\
  (forall prev, rv_previous_proof r = Some prev -> pp_iterations prev < full_effort r -> n = full_effort r).
Proof.
  intros H. unfold compute_required_iterations in H. rewrite !bind_unit_ok in H.
  destruct H as (_ & _ & H). apply Ok_inj in H. subst n.
  change (iterations false physics_default (rv_name r)) with (full_effort r).
  pose proof (full_effort_bounds r) as Hb.
  destruct (loyalty_discount_range (full_effort r) (discount_length r) Hb) as [Hd Hd15].
  change PHYSICS_VDF_DISCOUNT_MIN_ITERATIONS with 1000 in *.
  assert (Hlt : Z.max 1000 (loyalty_discount (full_effort r) (discount_length r)) < full_effort r).
  { unfold loyalty_discount, wmul64 in *. change PHYSICS_VDF_DISCOUNT_MIN_ITERATIONS with 1000 in *.
    change PHYSICS_VDF_DISCOUNT_PERCENTAGE with 15 in *.
    rewrite (Z.mod_small (full_effort r * 15)) in * by lia. repeat case_match; dlia. }
  assert (H15 : full_effort r * 15 / 100 <= full_effort r) by dlia.
  destruct (rv_previous_proof r) as [prev|].
  - destruct (discounted_iterations_cases r prev now) as [[He ->]|[He ->]];
      change PHYSICS_VDF_DISCOUNT_MIN_ITERATIONS with 1000.
    + split; [lia|]. split; [split; [intros _; by exists prev|lia]|]. split; [lia|].
      intros p [= <-] Hp. destruct He as (_ & _ & _ & _ & ? & _). lia.
    + split; [lia|]. split; [split; [lia|intros (p & [= <-] & ? & _); done]|]. done.
  - split; [lia|]. split; [split; [lia|by intros (? & ? & _)]|]. done.
Qed.

(** ** Admission *)

(** The contract of [verify_reveal] in a production build. *)
Record reveal_admissible (r : Reveal) (storage : Sto) (now : Z) : Prop := {
  ra_running : is_network_halted action = false;
  ra_valid : reveal_validate r = Ok tt;
  ra_signed : reveal_verify_signature r network_salt = Ok tt;
  ra_pulse : verify_beacon_signature (rv_kyn r) (rv_beacon_signature r) false = true;
  ra_committed : exists sig_bytes commit_kyn,
    hex_decode (rv_beacon_signature r) = Some sig_bytes /\
    get_u64_from_db storage (commit_key_of (reveal_challenge network_salt r sig_bytes)) = Some commit_kyn /\
    PHYSICS_MINIMUM_COMMIT_AGE_KYNS <= sat_sub now commit_kyn /\
    vdf_verify (reveal_challenge network_salt r sig_bytes) (rv_vdf_proof r) (rv_iterations r) = Ok true;
  ra_effort : forall required,
    compute_required_iterations false network_salt action r now = Ok required ->
    required <= rv_iterations r }.

Lemma compute_required_iterations_total r now :
  reveal_validate r = Ok tt ->
  verify_beacon_signature (rv_kyn r) (rv_beacon_signature r) false = true ->
  exists required, compute_required_iterations false network_salt action r now = Ok required.
Proof.
  intros (_ & Hn & _)%reveal_validate_ok Hp. unfold compute_required_iterations.
  rewrite Hn, Hp. eexists. reflexivity.
Qed.

Lemma vdf_answer_ok (v : Result RsaVdf.VdfError bool) :
  match v with Ok true => Ok tt | Ok false => Err InvalidVdf | Err e => Err (VdfEngineError e) end
  = Ok tt <-> v = Ok true.
Proof. destruct v as [[]|]; split; congruence. Qed.

Lemma commit_rule_ok (commit_kyn : option Z) now key :
  match commit_kyn with
  | Some k => bail_if (negb false && (sat_sub now k <? PHYSICS_MINIMUM_COMMIT_AGE_KYNS)) StaleReveal
  | None => bail_if (negb false) (MissingCommitment key)
  end = Ok tt <->
  exists k, commit_kyn = Some k /\ PHYSICS_MINIMUM_COMMIT_AGE_KYNS <= sat_sub now k.
Proof.
  destruct commit_kyn as [k|]; cbn [negb andb]; rewrite bail_if_unit; [|naive_solver].
  rewrite Z.ltb_ge. naive_solver.
Qed.

(** Rewriting with [bind_unit_ok] is to stop at the callees. *)
#[local] Opaque reveal_validate reveal_verify_signature compute_required_iterations.

Lemma verify_reveal_spec r storage now :
  verify_reveal false network_salt action r storage now = Ok tt <-> reveal_admissible r storage now.
Proof.
  unfold verify_reveal. rewrite !bind_unit_ok, !bail_if_unit, bind_ok, negb_false_iff, is_err_unit.
  cbn [negb andb]. rewrite is_err_unit. setoid_rewrite ok_or_ok.
  setoid_rewrite bind_unit_ok. setoid_rewrite commit_rule_ok. setoid_rewrite bind_ok.
  setoid_rewrite bind_unit_ok. setoid_rewrite bail_if_unit. setoid_rewrite vdf_answer_ok.
  setoid_rewrite Z.ltb_ge. split.
  - intros (Hh & Hv & Hs & Hp & sb & Hx & (k & Hk & Hage) & req & Hr & Hle & Hok).
    split; [done|done|done|done|by exists sb, k|]. intros req' Hr'. congruence.
  - intros [Hh Hv Hs Hp (sb & k & Hx & Hk & Hage & Hok) He].
    destruct (compute_required_iterations_total r now Hv Hp) as [req Hr].
    do 4 (split; [done|]). exists sb. split; [done|]. split; [by exists k|].
    exists req. split; [done|]. split; [by apply He|done].
Qed.

#[local] Transparent reveal_validate reveal_verify_signature compute_required_iterations.

(** C3: in a production build a reveal is admitted exactly when the network is
    not halted, the reveal is well formed and signed, its pulse is genuine,
    its commitment has been stored for at least the minimum age, it shows the
    required effort, and its VDF proof verifies for its own commitment. *)
Theorem verify_reveal_iff r storage now :
  verify_reveal false network_salt action r storage now = Ok tt <-> reveal_admissible r storage now.
Proof. apply verify_reveal_spec. Qed.

(** C2: what an admission guarantees.  The name is a valid apex name; the
    beacon signature in the reveal is the one of its kyn; the hash of exactly
    this name, salt, decoded beacon signature and owner key was stored at least
    thirty kyns ago; and the proof that was verified is bound to that hash and
    to at least a thousand iterations, and to the full effort of the name when
    the reveal carries no previous proof. *)
Theorem admitted_reveal_guarantees (HC : StorageContract HSto) r storage now :
  sto_inv storage -> verify_reveal false network_salt action r storage now = Ok tt ->
  is_valid_apex_name (rv_name r) = Ok tt /\
  exists sig_bytes stored, let hash := commitment_derive network_salt (rv_name r) (rv_salt r) sig_bytes (rv_pubkey r) in
    hex_decode (rv_beacon_signature r) = Some sig_bytes /\
    verify_beacon_signature (rv_kyn r) (rv_beacon_signature r) false = true /\
    btree_view (sto_tree storage) !! (KRS_COMMIT_PREFIX ++ hash) = Some stored /\
    be_val stored + 30 <= now /\
    vdf_verify hash (rv_vdf_proof r) (rv_iterations r) = Ok true /\
    1000 <= rv_iterations r /\
    (rv_previous_proof r = None -> full_effort r <= rv_iterations r).
Proof.
  intros Hi [Hh Hv Hs Hp (sb & k & Hx & Hk & Hage & Hok) He]%verify_reveal_spec.
  split; [by apply reveal_validate_ok in Hv as (_ & Hn & _)|]. exists sb.
  destruct (compute_required_iterations_total r now Hv Hp) as [req Hr]. specialize (He _ Hr).
  unfold get_u64_from_db in Hk.
  destruct (sto_get storage _) as [[stored|]|] eqn:Eg; [|done|done].
  destruct (len stored =? 8); [|done]. injection Hk as <-. exists stored. cbv zeta.
  split; [done|]. split; [done|].
  apply sto_get_ok in Eg; [|done]. split; [done|].
  change PHYSICS_MINIMUM_COMMIT_AGE_KYNS with 30 in Hage. split; [unfold sat_sub in Hage; lia|].
  split; [done|].
  unfold compute_required_iterations in Hr. rewrite !bind_unit_ok in Hr. destruct Hr as (_ & _ & Hr).
  apply Ok_inj in Hr. change (iterations false physics_default (rv_name r)) with (full_effort r) in Hr.
  pose proof (full_effort_bounds r) as Hb. subst req.
  destruct (rv_previous_proof r) as [prev|]; [|split; [lia|done]]. split; [|done].
  destruct (discounted_iterations_cases r prev now) as [[_ E]|[_ E]]; rewrite E in He; [|lia].
  change PHYSICS_VDF_DISCOUNT_MIN_ITERATIONS with 1000 in He. lia.
Qed.

End RevealFacts.

(** ** Identity attachments *)

Section IdentityFacts.
Context {HSha : Sha2} {HSig : MlDsa} {HCod : Codecs} {HJcs : Jcs} {HJson : StoredJson}.
Variable network_salt : bytes.

#[local] Opaque document_verify document_verify_genesis manifest_verify_at_time.

Lemma map_err_unit {E F} (f : E -> F) (r : Result E unit) : map_err f r = Ok tt <-> r = Ok tt.
Proof. destruct r as [[]|]; cbn; split; congruence. Qed.

(** The update rule of identity documents.  A document is admitted under a
    name exactly when the name has an active record, the owner of that record
    signed it for this name, it verifies by itself, and it is either the first
    one with its identifier derived from its primary key, or authorized by the
    stored one; a stored value that is not a document authorizes anything. *)
Theorem verify_authorized_kid_iff a active existing :
  verify_authorized_kid network_salt a active existing = Ok tt <->
  exists record, active = Some record /\
    signed_by (envelope_pubkey record) (auth_kid_signable_bytes a network_salt) (ak_owner_signature a) /\
    document_verify (ak_kid_doc a) = Ok tt /\
    match existing with
    | None => document_verify_genesis (ak_kid_doc a) = Ok tt
    | Some value => forall old, auth_kid_from_slice value = Some old ->
                      document_is_authorized (ak_kid_doc a) (ak_kid_doc old) = true
    end.
Proof.
  unfold verify_authorized_kid. destruct active as [record|]; [|naive_solver].
  cbn [ok_or mbind result_bind].
  rewrite !bind_unit_ok, !bail_if_unit, negb_false_iff, key_verifies_true, is_err_unit.
  assert (E : match existing with
    | None => map_err (fun _ => GenesisBindingFailed) (document_verify_genesis (ak_kid_doc a))
    | Some value => bail_if match auth_kid_from_slice value with
        | Some old => negb (document_is_authorized (ak_kid_doc a) (ak_kid_doc old))
        | None => false end UnauthorizedUpdate
    end = Ok tt <-> match existing with
    | None => document_verify_genesis (ak_kid_doc a) = Ok tt
    | Some value => forall old, auth_kid_from_slice value = Some old ->
        document_is_authorized (ak_kid_doc a) (ak_kid_doc old) = true
    end).
  { destruct existing as [value|]; [|apply map_err_unit]. rewrite bail_if_unit.
    destruct (auth_kid_from_slice value) as [old|]; [|naive_solver].
    rewrite negb_false_iff. naive_solver. }
  rewrite E. naive_solver.
Qed.

Lemma verify_authorized_manifest_ok a active existing now :
  verify_authorized_manifest network_salt a active existing now = Ok tt <->
  exists record kid_doc, active = Some record /\
    signed_by (envelope_pubkey record) (auth_manifest_signable_bytes a network_salt) (am_owner_signature a) /\
    am_kid_doc a = Some kid_doc /\ document_verify kid_doc = Ok tt /\
    manifest_verify_at_time (am_manifest a) kid_doc (to_ukyn now BEACON_GENESIS) = Ok tt /\
    forall value old, existing = Some value -> auth_manifest_from_slice value = Some old ->
      version (am_manifest old) < version (am_manifest a).
Proof.
  unfold verify_authorized_manifest. destruct active as [record|]; [|naive_solver].
  cbn [ok_or mbind result_bind].
  rewrite !bind_unit_ok, !bail_if_unit, negb_false_iff, key_verifies_true, bind_ok.
  setoid_rewrite ok_or_ok. setoid_rewrite bind_unit_ok. setoid_rewrite bind_unit_ok.
  setoid_rewrite bail_if_unit. setoid_rewrite is_err_unit.
  assert (Hv : (match existing with
    | Some value => match auth_manifest_from_slice value with
        | Some old => version (am_manifest a) <=? version (am_manifest old) | None => false end
    | None => false end = false) <->
    (forall value old, existing = Some value -> auth_manifest_from_slice value = Some old ->
      version (am_manifest old) < version (am_manifest a))).
  { destruct existing as [value|]; [|naive_solver].
    destruct (auth_manifest_from_slice value) as [old|] eqn:E; [|naive_solver].
    rewrite Z.leb_gt. naive_solver. }
  setoid_rewrite Hv. naive_solver.
Qed.

#[local] Transparent document_verify document_verify_genesis manifest_verify_at_time.

End IdentityFacts.

(** ** Witness: a nine-letter name, committed at kyn 1000, revealed at 1030 *)

Module ToyStore.

Definition yes_mldsa : MlDsa := {|
  VerifyingKey := unit; MlSignature := unit;
  vk_new_from_slice _ := Some tt; sig_try_from _ := Some tt; vk_verify _ _ _ := true |}.

(** The stored hashes need no collision resistance here. *)
Definition short_sha2 : Sha2 := fun d => take 32 (drop 32 d).

Definition yes_vdf : VdfEngine := fun _ _ _ => Ok true.

Definition yes_beacon : BeaconVerify := {|
  G2Pubkey := unit; g2_from_fixed _ := Some tt; g2_verify _ _ _ _ := Some true |}.

Definition reveal (prev : option PreviousProof) (its : Z) : Reveal :=
  MkReveal 1 (bs "alexander.kin") [] (toy_salt 3) 100 (replicate 192 97) its [1]
    (replicate 1952 1) (replicate 3309 2) None prev.

Definition challenge (r : Reveal) : bytes :=
  @commitment_derive short_sha2 (toy_salt 1) (rv_name r) (rv_salt r) (take 96 (rv_beacon_signature r)) (rv_pubkey r).

Definition committed (r : Reveal) (kyn : Z) : WasmStorage :=
  (wasm_put true wasm_new (commit_key_of (challenge r)) (be_bytes 8 kyn)).1.

Definition verifies (r : Reveal) (now : Z) : Result KineticStoreError unit :=
  @verify_reveal ascii_only short_sha2 yes_mldsa toy_beacon_codecs toy_jcs yes_beacon yes_vdf
    (wasm_engine true) false (toy_salt 1) None r (committed r 1000) now.

Example on_time : verifies (reveal None 3000000000) 1030 = Ok tt.
Proof. vm_compute. reflexivity. Qed.

Example too_early : verifies (reveal None 3000000000) 1029 = Err StaleReveal.
Proof. vm_compute. reflexivity. Qed.

Example too_little : verifies (reveal None 2800000000) 1030 = Err InsufficientIterations.
Proof. vm_compute. reflexivity. Qed.

End ToyStore.

(** A renewal at a fifth of the effort, its previous proof of the full one. *)
Definition renewal : Reveal :=
  ToyStore.reveal (Some (MkPreviousProof (toy_salt 4) 90 (bs "beef") 2865837960 [] [])) 573167592.

Lemma required_iterations_bounds_witness :
  PHYSICS_VDF_DISCOUNT_MIN_ITERATIONS <= 573167592 <= @full_effort ascii_only renewal.
Proof.
  apply (@required_iterations_bounds ascii_only ToyStore.short_sha2 toy_beacon_codecs ToyStore.yes_beacon
           ToyStore.yes_vdf (toy_salt 1) None renewal 1030).
  vm_compute. reflexivity.
Defined.

Lemma admitted_reveal_guarantees_witness :
  1000 <= rv_iterations (ToyStore.reveal None 3000000000).
Proof.
  destruct (@admitted_reveal_guarantees ascii_only ToyStore.short_sha2 ToyStore.yes_mldsa toy_beacon_codecs
    toy_jcs ToyStore.yes_beacon ToyStore.yes_vdf (wasm_engine true) (toy_salt 1) None
    (wasm_contract true) (ToyStore.reveal None 3000000000)
    (ToyStore.committed (ToyStore.reveal None 3000000000) 1000) 1030) as (_ & sb & st & _ & _ & _ & _ & _ & H & _).
  - apply btree_insert_wf. constructor.
  - vm_compute. reflexivity.
  - exact H.
Defined.

