(* ===== verification/TieBreaker.v ===== *)
(** * Choice among the payloads of a query
    ([kinetic-network/src/event_loop/utils.rs])

    [xor_tie_breaker]: the payloads received for one key are sorted, parsed and
    verified, and at most one is kept.  The JSON codec, the VDF engine and the
    signature and beacon verifiers are interfaces.  This is the production
    build: the branches under [cfg(test)] are left out. *)
From Stdlib Require Import String Sorted.
From S2P Require Import Prelude Sorting Bytes Config Crypto Kyn Names Physics Kid Records Action Verify Storage StoreVerify.
#[local] Open Scope Z_scope.

(** [serde_json::from_slice] at the three types a payload may have. *)
Class ResolverJson := {
  document_from_slice : bytes -> option Document;
  host_route_from_slice : bytes -> option HostRoute;
  reveal_from_slice : bytes -> option Reveal }.

(** [<[u8] as Ord>::le] *)
Definition ble (a b : bytes) : bool := negb (blt b a).

Inductive ParsedPayload :=
  | PpKid (doc : Document)
  | PpReveal (reveal : Reveal)
  | PpHostRouting (record : HostRoute).

Section Parse.
Context {HUni : UnicodeCase} {HJson : ResolverJson}.

(** The body of the parsing loop: what the payload is pushed as. *)
Definition parse_one (query_name p : bytes) : option ParsedPayload :=
  match document_from_slice p with
  | Some doc => if bool_decide (did_id (kid doc) = query_name) then Some (PpKid doc) else None
  | None =>
      match host_route_from_slice p with
      | Some host_route =>
          if bool_decide (query_name = bs "routing:" ++ host_id host_route)
          then Some (PpHostRouting host_route) else None
      | None =>
          match reveal_from_slice p with
          | Some reveal =>
              if bool_decide (rv_name reveal = query_name) && is_ok (reveal_validate reveal)
              then Some (PpReveal reveal) else None
          | None => None
          end
      end
  end.

Definition parse_all (query_name : bytes) (unique_payloads : list bytes)
  : list (bytes * ParsedPayload) :=
  omap (fun p => parsed ← parse_one query_name p; Some (p, parsed)) unique_payloads.

Definition is_kid_payload (x : bytes * ParsedPayload) : bool :=
  match x.2 with PpKid _ => true | _ => false end.
Definition is_host_payload (x : bytes * ParsedPayload) : bool :=
  match x.2 with PpHostRouting _ => true | _ => false end.

End Parse.

(** The first 32 bytes of the proof, or zeros, xored with the padded kyn. *)
Definition kyn_bytes (current_kyn : Z) : bytes := u64_be current_kyn ++ replicate 24 0.

Definition y_bytes (proof : bytes) : bytes :=
  if (32 <=? length proof)%nat then take 32 proof else replicate 32 0.

Definition proof_distance (current_kyn : Z) (r : Reveal) : bytes :=
  zip_with Z.lxor (y_bytes (rv_vdf_proof r)) (kyn_bytes current_kyn).

Section TieBreaker.
Context {HUni : UnicodeCase} {HSha : Sha2} {HSig : MlDsa} {HCod : Codecs} {HJcs : Jcs}.
Context {HBeacon : BeaconVerify} {HVdf : VdfEngine} {HPeer : PeerIds} {HEd : Ed25519}.
Context {HJson : ResolverJson}.
Variables (is_dev_mode : bool) (network_salt : bytes) (action : option ActionState).

(** The hash of the inline [sha256_concat]. *)
Definition inline_challenge (reveal : Reveal) (drand_sig_bytes : bytes) : bytes :=
  let drand_bytes := sha256 drand_sig_bytes in
  sha256_concat [rv_name reveal; rv_salt reveal; drand_bytes; rv_pubkey reveal].

(** One turn of the candidate loop: whether it returns the candidate. *)
Definition candidate_ok (current_kyn : Z) (reveal : Reveal) : bool :=
  let valid_sig := is_dev_mode || is_ok (reveal_verify_signature reveal network_salt) in
  if negb valid_sig then false
  else
    match hex_decode (rv_beacon_signature reveal) with
    | None => false
    | Some drand_sig_bytes =>
        if negb (verify_beacon_signature (rv_kyn reveal) (rv_beacon_signature reveal) is_dev_mode)
        then false
        else
          let hash := inline_challenge reveal drand_sig_bytes in
          if sat_sub current_kyn (rv_kyn reveal) >? RESQUARING_EPOCH_KYNS then false
          else
            match compute_required_iterations is_dev_mode network_salt action reveal current_kyn with
            | Err _ => false
            | Ok required_iterations =>
                if negb is_dev_mode && (rv_iterations reveal <? required_iterations) then false
                else if is_dev_mode then true
                else
                  match vdf_verify hash (rv_vdf_proof reveal) (rv_iterations reveal) with
                  | Ok true => true
                  | _ => false
                  end
            end
    end.

(** The documents that survive the filter, with their sort key. *)
Definition kid_candidate (current_time : Z) (x : bytes * ParsedPayload) : option (bytes * Z) :=
  match x.2 with
  | PpKid doc =>
      if is_err (document_verify doc) then None
      else if created_at doc >? wadd64 current_time 300 then None
      else Some (x.1, u64_max - created_at doc)
  | _ => None
  end.

Definition host_candidate (current_kyn : Z) (x : bytes * ParsedPayload) : option (bytes * Z) :=
  match x.2 with
  | PpHostRouting record =>
      if is_err (verify_host_routing_record network_salt record current_kyn) then None
      else Some (x.1, u64_max - hr_kyn record)
  | _ => None
  end.

Definition reveal_candidate (current_kyn : Z) (x : bytes * ParsedPayload)
  : option (bytes * Reveal * bytes) :=
  match x.2 with
  | PpReveal reveal => Some (x.1, reveal, proof_distance current_kyn reveal)
  | _ => None
  end.

Definition by_distance (a b : bytes * Reveal * bytes) : bool := ble a.2 b.2.

Definition xor_tie_breaker (query_name : bytes) (payloads : list bytes) (current_kyn : Z)
  : option bytes :=
  match payloads with
  | [] => None
  | _ :: _ =>
      let unique_payloads := dedup (sort_stable ble payloads) in
      let parsed := parse_all query_name unique_payloads in
      if existsb is_kid_payload parsed then
        let current_time := to_ukyn current_kyn BEACON_GENESIS in
        fst <$> min_by_key snd (omap (kid_candidate current_time) parsed)
      else if existsb is_host_payload parsed then
        fst <$> min_by_key snd (omap (host_candidate current_kyn) parsed)
      else
        let candidates := sort_stable by_distance (omap (reveal_candidate current_kyn) parsed) in
        fst ∘ fst <$> find_first (fun c => candidate_ok current_kyn c.1.2) candidates
  end.

End TieBreaker.

(** ** The order of byte strings *)

Lemma ble_total a b : ble a b = false -> ble b a = true.
Proof. unfold ble. rewrite negb_false_iff, negb_true_iff. apply blt_asym. Qed.

Lemma ble_antisym a b : ble a b = true -> ble b a = true -> a = b.
Proof.
  unfold ble. rewrite !negb_true_iff. intros H1 H2. destruct (blt_total _ _ H1); [done|congruence].
Qed.

Lemma ble_trans a b c : ble a b = true -> ble b c = true -> ble a c = true.
Proof.
  unfold ble. rewrite !negb_true_iff. intros Hab Hbc. destruct (blt c a) eqn:E; [|done].
  destruct (blt_total _ _ Hab) as [->|Hba]; [congruence|].
  pose proof (blt_trans _ _ _ E Hba). congruence.
Qed.

Lemma ble_refl a : ble a a = true.
Proof. unfold ble. by rewrite blt_irrefl. Qed.

#[local] Instance by_distance_refl : Reflexive (fun a b => by_distance a b = true).
Proof. intros [? ?]. apply ble_refl. Qed.

Section TieBreakerFacts.
Context {HUni : UnicodeCase} {HSha : Sha2} {HSig : MlDsa} {HCod : Codecs} {HJcs : Jcs}.
Context {HBeacon : BeaconVerify} {HVdf : VdfEngine} {HPeer : PeerIds} {HEd : Ed25519}.
Context {HJson : ResolverJson}.
Variables (is_dev_mode : bool) (network_salt : bytes) (action : option ActionState).
Notation tie_breaker := (xor_tie_breaker is_dev_mode network_salt action).

(** The choice is a function of the set of the payloads: neither the order
    in which the responses arrived nor their repetition matters. *)
Theorem tie_breaker_set query_name payloads payloads' now :
  (forall p, p ∈ payloads <-> p ∈ payloads') ->
  xor_tie_breaker is_dev_mode network_salt action query_name payloads now =
  xor_tie_breaker is_dev_mode network_salt action query_name payloads' now.
Proof.
  intros H. destruct payloads as [|p l], payloads' as [|p' l']; try done.
  1: by pose proof (proj2 (H p') ltac:(left)) as ?%elem_of_nil.
  1: by pose proof (proj1 (H p) ltac:(left)) as ?%elem_of_nil.
  unfold xor_tie_breaker.
  by rewrite (dedup_sort_set ble ble_total ble_trans ble_antisym _ _ H).
Qed.

Definition parsed_payloads (query_name : bytes) (payloads : list bytes) : list (bytes * ParsedPayload) :=
  parse_all query_name (dedup (sort_stable ble payloads)).

Lemma elem_of_parsed query_name payloads p x :
  (p, x) ∈ parsed_payloads query_name payloads <-> p ∈ payloads /\ parse_one query_name p = Some x.
Proof.
  unfold parsed_payloads, parse_all. rewrite list_elem_of_omap. split.
  - intros (q & Hq & E). rewrite elem_of_dedup, elem_of_sort_stable in Hq.
    destruct (parse_one query_name q) as [y|] eqn:Ep; [|done]. cbn in E. injection E as <- <-. done.
  - intros [Hp Hx]. exists p. rewrite elem_of_dedup, elem_of_sort_stable, Hx. done.
Qed.

Lemma tie_breaker_cases query_name payloads now :
  tie_breaker query_name payloads now =
    let parsed := parsed_payloads query_name payloads in
    if existsb is_kid_payload parsed then
      fst <$> min_by_key snd (omap (kid_candidate (to_ukyn now BEACON_GENESIS)) parsed)
    else if existsb is_host_payload parsed then
      fst <$> min_by_key snd (omap (host_candidate network_salt now) parsed)
    else
      fst ∘ fst <$> find_first (fun c => candidate_ok is_dev_mode network_salt action now c.1.2)
        (sort_stable by_distance (omap (reveal_candidate now) parsed)).
Proof. by destruct payloads. Qed.

Lemma existsb_elem {A} (f : A -> bool) l : existsb f l = true <-> exists x, x ∈ l /\ f x = true.
Proof. rewrite existsb_exists. by setoid_rewrite list_elem_of_In. Qed.

(** ** Identity queries *)

(** A payload that answers an identity query. *)
Definition document_payload (query_name : bytes) (payloads : list bytes) (p : bytes) (d : Document) : Prop :=
  p ∈ payloads /\ parse_one query_name p = Some (PpKid d).

Definition document_usable (now : Z) (d : Document) : Prop :=
  document_verify d = Ok tt /\ created_at d <= wadd64 (to_ukyn now BEACON_GENESIS) 300.

Lemma elem_of_kid_candidates query_name payloads now p k :
  (p, k) ∈ omap (kid_candidate (to_ukyn now BEACON_GENESIS)) (parsed_payloads query_name payloads) <->
  exists d, document_payload query_name payloads p d /\ document_usable now d /\ k = u64_max - created_at d.
Proof.
  rewrite list_elem_of_omap. unfold document_payload, document_usable, kid_candidate. split.
  - intros ([q x] & Hq & E). apply elem_of_parsed in Hq. cbn [fst snd] in E.
    destruct x as [d| |]; try done. destruct (is_err _) eqn:Ev; [done|].
    destruct (_ >? _) eqn:Ec; [done|]. injection E as <- <-. zbool.
    exists d. by apply is_err_unit in Ev.
  - intros (d & [Hp Hx] & [Hv Hc] & ->). exists (p, PpKid d). rewrite elem_of_parsed. split; [done|].
    cbn [fst snd]. apply is_err_unit in Hv. rewrite Hv, Z.gtb_ltb.
    by apply Z.ltb_ge in Hc as ->.
Qed.

(** Identity resolution.  As soon as one payload is a document of the
    queried identity, the answer is among the documents that verify and are
    dated at most five minutes ahead of the clock, it is the most recently
    created of them, and there is none only if there is no such document. *)
Theorem tie_breaker_newest_document query_name payloads now :
  (exists p d, document_payload query_name payloads p d) ->
  match tie_breaker query_name payloads now with
  | Some p => exists d, document_payload query_name payloads p d /\ document_usable now d /\
      forall p' d', document_payload query_name payloads p' d' -> document_usable now d' ->
        created_at d' <= created_at d
  | None => forall p d, document_payload query_name payloads p d -> not (document_usable now d)
  end.
Proof.
  intros (p0 & d0 & Hd0). rewrite tie_breaker_cases. cbv zeta.
  replace (existsb is_kid_payload _) with true.
  2:{ symmetry. apply existsb_elem. exists (p0, PpKid d0). by rewrite elem_of_parsed. }
  destruct (min_by_key _ _) as [[p k]|] eqn:E; cbn.
  - apply min_by_key_some in E as [Hin Hmin]. apply elem_of_kid_candidates in Hin as (d & Hd & Hu & ->).
    exists d. split; [done|split; [done|]]. intros p' d' Hd' Hu'.
    specialize (Hmin (p', u64_max - created_at d')). cbn [snd] in Hmin.
    rewrite elem_of_kid_candidates in Hmin. specialize (Hmin ltac:(by exists d')). lia.
  - apply min_by_key_none in E. intros p d Hd Hu.
    assert (H : (p, u64_max - created_at d) ∈ @nil (bytes * Z))
      by (rewrite <- E; apply elem_of_kid_candidates; by exists d).
    by apply elem_of_nil in H.
Qed.

(** ** Name queries *)

Definition reveal_payload (query_name : bytes) (payloads : list bytes) (p : bytes) (r : Reveal) : Prop :=
  p ∈ payloads /\ parse_one query_name p = Some (PpReveal r).

(** No payload parses as something else that answers the query. *)
Definition name_query (query_name : bytes) (payloads : list bytes) : Prop :=
  forall p x, p ∈ payloads -> parse_one query_name p = Some x -> exists r, x = PpReveal r.

Lemma elem_of_reveal_candidates query_name payloads now p r dist :
  (p, r, dist) ∈ omap (reveal_candidate now) (parsed_payloads query_name payloads) <->
  reveal_payload query_name payloads p r /\ dist = proof_distance now r.
Proof.
  rewrite list_elem_of_omap. unfold reveal_payload, reveal_candidate. split.
  - intros ([q x] & Hq & E). apply elem_of_parsed in Hq. cbn [fst snd] in E.
    destruct x as [|r'|]; try done. injection E as <- <- <-. done.
  - intros [Hp ->]. exists (p, PpReveal r). by rewrite elem_of_parsed.
Qed.

Lemma name_query_branch query_name payloads :
  name_query query_name payloads ->
  existsb is_kid_payload (parsed_payloads query_name payloads) = false /\
  existsb is_host_payload (parsed_payloads query_name payloads) = false.
Proof.
  intros H. split; apply not_true_is_false; rewrite existsb_elem; intros ([p x] & Hin & Hx);
    apply elem_of_parsed in Hin as [Hp Hx']; destruct (H _ _ Hp Hx') as [r ->]; done.
Qed.

(** C7: name resolution.  The answer is a payload for the name whose reveal
    passes every check of the candidate loop, and no other passing reveal is
    nearer in the order of the first 32 proof bytes xored with the kyn; there
    is no answer only if no reveal passes. *)
Theorem tie_breaker_nearest_reveal query_name payloads now :
  name_query query_name payloads ->
  match tie_breaker query_name payloads now with
  | Some p => exists r, reveal_payload query_name payloads p r /\
      candidate_ok is_dev_mode network_salt action now r = true /\
      forall p' r', reveal_payload query_name payloads p' r' ->
        candidate_ok is_dev_mode network_salt action now r' = true ->
        ble (proof_distance now r) (proof_distance now r') = true
  | None => forall p r, reveal_payload query_name payloads p r ->
      candidate_ok is_dev_mode network_salt action now r = false
  end.
Proof.
  intros Hq. rewrite tie_breaker_cases. cbv zeta.
  destruct (name_query_branch _ _ Hq) as [-> ->].
  set (ok := fun c : bytes * Reveal * bytes => candidate_ok is_dev_mode network_salt action now c.1.2).
  set (cands := omap (reveal_candidate now) (parsed_payloads query_name payloads)).
  pose proof (sort_stable_sorted by_distance (fun a b => ble_total a.2 b.2)
    (fun a b c => ble_trans a.2 b.2 c.2) cands) as Hs.
  destruct (find_first ok _) as [[[p r] dist]|] eqn:E; cbn.
  - apply (find_first_sorted ok (fun a b => by_distance a b = true)) in E as (Hin & Hok & Hmin); [|done].
    apply elem_of_sort_stable, elem_of_reveal_candidates in Hin as [Hp ->].
    exists r. split; [done|split; [done|]]. intros p' r' Hp' Hok'.
    apply (Hmin (p', r', proof_distance now r')); [|done].
    by apply elem_of_sort_stable, elem_of_reveal_candidates.
  - apply find_first_none in E. intros p r Hp. rewrite Forall_forall in E.
    apply (E (p, r, proof_distance now r)). by apply elem_of_sort_stable, elem_of_reveal_candidates.
Qed.

(** ** The challenge *)

Lemma candidate_ok_true now r :
  candidate_ok false network_salt action now r = true ->
  exists sig_bytes, hex_decode (rv_beacon_signature r) = Some sig_bytes /\
    reveal_verify_signature r network_salt = Ok tt /\
    verify_beacon_signature (rv_kyn r) (rv_beacon_signature r) false = true /\
    sat_sub now (rv_kyn r) <= RESQUARING_EPOCH_KYNS /\
    (exists required, compute_required_iterations false network_salt action r now = Ok required /\
       required <= rv_iterations r) /\
    vdf_verify (inline_challenge r sig_bytes) (rv_vdf_proof r) (rv_iterations r) = Ok true.
Proof.
  unfold candidate_ok. cbn [orb negb andb].
  destruct (reveal_verify_signature r network_salt) as [[]|] eqn:Es; cbn [is_ok negb]; [|done].
  destruct (hex_decode _) as [sb|]; [|done].
  destruct (verify_beacon_signature _ _ _); cbn [negb]; [|done].
  destruct (_ >? _) eqn:Ea; [done|].
  destruct (compute_required_iterations _ _ _ _ _) as [req|]; [|done].
  destruct (_ <? req) eqn:Ei; [done|].
  destruct (vdf_verify _ _ _) as [[]|] eqn:Ev; try done. zbool. intros _.
  exists sb. repeat split; try done. by exists req.
Qed.

(** The two challenges hash strings of different lengths. *)
Lemma challenges_differ r sig_bytes :
  length network_salt = 32%nat ->
  inline_challenge r sig_bytes <> reveal_challenge network_salt r sig_bytes \/ sha256_collision.
Proof.
  intros Hl. destruct (decide (inline_challenge r sig_bytes = reveal_challenge network_salt r sig_bytes)) as [E|];
    [|by left]. right.
  unfold inline_challenge, reveal_challenge, commitment_derive in E. rewrite sha256_concat_eq in E.
  apply sha256_eq in E as [E|E]; [|done]. exfalso. apply (f_equal length) in E.
  unfold commitment_preimage in E. cbn [concat] in E. rewrite !length_app in E. cbn in E. lia.
Qed.

(** Resolution verifies another challenge than admission.  The inline hash
    of the candidate loop leaves out the network salt that the commitment
    starts with, so a reveal that the store admits and the resolver returns
    has one proof that verifies for two different challenges: with a VDF whose
    proofs are bound to their challenge, no admitted name resolves. *)
Theorem resolved_admitted_proof_ambiguous `{HSto : StorageEngine} r (storage : Sto) now now' :
  length network_salt = 32%nat ->
  reveal_admissible network_salt action r storage now ->
  candidate_ok false network_salt action now' r = true ->
  sha256_collision \/
  exists h h', h <> h' /\ vdf_verify h (rv_vdf_proof r) (rv_iterations r) = Ok true /\
    vdf_verify h' (rv_vdf_proof r) (rv_iterations r) = Ok true.
Proof.
  intros Hl [_ _ _ _ (sb & k & Hx & _ & _ & Hv) _] (sb' & Hx' & _ & _ & _ & _ & Hv')%candidate_ok_true.
  assert (sb' = sb) as -> by congruence.
  destruct (challenges_differ r sb Hl) as [Hne|Hc]; [right|by left]. eauto.
Qed.

End TieBreakerFacts.

(** ** Witnesses *)

Module ToyResolver.

(** Payloads are told apart by their first byte: [1] a document, [2] a reveal. *)
Definition doc (created : Z) : Document :=
  MkDocument [] (kid toy_doc) created [MkControllerKey [] (bs "Controller") [7]] None [] false (Some [9]).

Definition short_reveal (first : Z) : Reveal :=
  let r := ToyStore.reveal None 3000000000 in
  MkReveal (protocol_version r) (rv_name r) (rv_embedded_nrs r) (rv_salt r) (rv_kyn r)
    (rv_beacon_signature r) (rv_iterations r) (first :: replicate 31 0) (rv_pubkey r)
    (rv_identity_signature r) None None.

(** A reveal whose proof is its commitment. *)
Definition bound_reveal : Reveal :=
  let r := ToyStore.reveal None 3000000000 in
  MkReveal (protocol_version r) (rv_name r) (rv_embedded_nrs r) (rv_salt r) (rv_kyn r)
    (rv_beacon_signature r) (rv_iterations r) (ToyStore.challenge r) (rv_pubkey r)
    (rv_identity_signature r) None None.

Definition json : ResolverJson := {|
  document_from_slice p := match p with [1; c] => Some (doc c) | _ => None end;
  host_route_from_slice _ := None;
  reveal_from_slice p :=
    match p with [2; b] => Some (short_reveal b) | [4] => Some bound_reveal | _ => None end |}.

Definition peers : PeerIds := {| peer_id_digest s := Some s; ed25519_peer_id k := k |}.
Definition ed : Ed25519 := {|
  EdKey := unit; EdSig := unit; ed_key_from_bytes _ := None; ed_sig_from_slice _ := None;
  ed_verify _ _ _ := false |}.

(** A VDF whose only valid proof is the challenge itself. *)
Definition bound_vdf : VdfEngine := fun h p _ => Ok (bool_decide (h = p)).

Definition choose (vdf : VdfEngine) (query : bytes) (l : list bytes) (now : Z) : option bytes :=
  @xor_tie_breaker ascii_only ToyStore.short_sha2 ToyStore.yes_mldsa toy_beacon_codecs toy_jcs
    ToyStore.yes_beacon vdf peers ed json false (toy_salt 1) None query l now.

(** The nearest proof depends on the kyn of the node that asks. *)
Example winner_moves :
  choose ToyStore.yes_vdf (bs "alexander.kin") [[2; 0x10]; [2; 0x05]] 100 = Some [2; 0x05] /\
  proof_distance 0x1500000000000000 (short_reveal 0x10) = 0x05 :: replicate 31 0 /\
  proof_distance 0x1500000000000000 (short_reveal 0x05) = 0x10 :: replicate 31 0.
Proof. repeat split; vm_compute; reflexivity. Qed.

Example newest_wins :
  choose ToyStore.yes_vdf (did_id (kid toy_doc)) [[1; 5]; [1; 8]; [1; 6]] 100 = Some [1; 8].
Proof. vm_compute. reflexivity. Qed.

(** With a bound VDF the store admits the reveal and the resolver drops it. *)
Example admitted_but_unresolved :
  @verify_reveal ascii_only ToyStore.short_sha2 ToyStore.yes_mldsa toy_beacon_codecs toy_jcs
    ToyStore.yes_beacon bound_vdf (wasm_engine true) false (toy_salt 1) None bound_reveal
    (ToyStore.committed bound_reveal 1000) 1030 = Ok tt /\
  choose bound_vdf (bs "alexander.kin") [[4]] 1030 = None.
Proof. repeat split; vm_compute; reflexivity. Qed.

(** A payload that is neither a document, a host route nor a reveal, such as a
    heartbeat, is never returned. *)
Example unparsed : choose ToyStore.yes_vdf (bs "hb:alexander.kin") [[3]; [4]] 100 = None.
Proof. vm_compute. reflexivity. Qed.

End ToyResolver.

Lemma tie_breaker_set_witness :
  ToyResolver.choose ToyStore.yes_vdf (bs "alexander.kin") [[2; 0x10]; [2; 0x05]] 100 =
  ToyResolver.choose ToyStore.yes_vdf (bs "alexander.kin") [[2; 0x05]; [2; 0x10]; [2; 0x05]] 100.
Proof.
  apply (@tie_breaker_set ascii_only ToyStore.short_sha2 ToyStore.yes_mldsa toy_beacon_codecs toy_jcs
    ToyStore.yes_beacon ToyStore.yes_vdf ToyResolver.peers ToyResolver.ed ToyResolver.json false
    (toy_salt 1) None).
  intros p. rewrite !elem_of_cons. tauto.
Defined.

Lemma tie_breaker_newest_document_witness :
  exists d, created_at d = 8 /\ 5 <= created_at d.
Proof.
  pose proof (@tie_breaker_newest_document ascii_only ToyStore.short_sha2 ToyStore.yes_mldsa
    toy_beacon_codecs toy_jcs ToyStore.yes_beacon ToyStore.yes_vdf ToyResolver.peers ToyResolver.ed
    ToyResolver.json false (toy_salt 1) None (did_id (kid toy_doc)) [[1; 5]; [1; 8]] 100) as H.
  specialize (H ltac:(exists [1; 5], (ToyResolver.doc 5); split; [left|vm_compute; reflexivity])).
  assert (E : ToyResolver.choose ToyStore.yes_vdf (did_id (kid toy_doc)) [[1; 5]; [1; 8]] 100 = Some [1; 8])
    by (vm_compute; reflexivity).
  unfold ToyResolver.choose in E. rewrite E in H. destruct H as (d & [_ Hd] & _ & Hmax).
  exists d. vm_compute in Hd. injection Hd as <-. split; [reflexivity|].
  apply (Hmax [1; 5] (ToyResolver.doc 5)).
  - split; [left|vm_compute; reflexivity].
  - split; [vm_compute; reflexivity|vm_compute; discriminate].
Defined.

Lemma tie_breaker_nearest_reveal_witness :
  exists r, rv_vdf_proof r = 0x05 :: replicate 31 0.
Proof.
  pose proof (@tie_breaker_nearest_reveal ascii_only ToyStore.short_sha2 ToyStore.yes_mldsa
    toy_beacon_codecs toy_jcs ToyStore.yes_beacon ToyStore.yes_vdf ToyResolver.peers ToyResolver.ed
    ToyResolver.json false (toy_salt 1) None (bs "alexander.kin") [[2; 0x10]; [2; 0x05]] 100) as H.
  assert (Hq : @name_query ascii_only ToyResolver.json (bs "alexander.kin") [[2; 0x10]; [2; 0x05]]).
  { intros p x Hp Hx. rewrite !elem_of_cons in Hp.
    destruct Hp as [-> | [-> | Hp]]; [| |by apply elem_of_nil in Hp];
      vm_compute in Hx; injection Hx as <-; by eexists. }
  specialize (H Hq).
  assert (E : ToyResolver.choose ToyStore.yes_vdf (bs "alexander.kin") [[2; 0x10]; [2; 0x05]] 100 = Some [2; 0x05])
    by (vm_compute; reflexivity).
  unfold ToyResolver.choose in E. rewrite E in H. destruct H as (r & [_ Hr] & _).
  exists r. vm_compute in Hr. injection Hr as <-. reflexivity.
Defined.

Lemma resolved_admitted_proof_ambiguous_witness :
  let r := ToyStore.reveal None 3000000000 in
  @sha256_collision ToyStore.short_sha2 \/
  exists h h', h <> h' /\ @vdf_verify ToyStore.yes_vdf h (rv_vdf_proof r) (rv_iterations r) = Ok true /\
    @vdf_verify ToyStore.yes_vdf h' (rv_vdf_proof r) (rv_iterations r) = Ok true.
Proof.
  intros r.
  apply (@resolved_admitted_proof_ambiguous ascii_only ToyStore.short_sha2 ToyStore.yes_mldsa
    toy_beacon_codecs toy_jcs ToyStore.yes_beacon ToyStore.yes_vdf (toy_salt 1) None (wasm_engine true)
    r (ToyStore.committed r 1000) 1030 1030).
  - reflexivity.
  - apply verify_reveal_spec. exact ToyStore.on_time.
  - vm_compute. reflexivity.
Defined.
