(* ===== verification/Store.v ===== *)
(** * The DHT record store ([kinetic-network/src/store/{kademlia,handlers}.rs])

    [KineticRecordStore]: restore from disk, admission of reveals, commitments,
    heartbeats and identity records, takeover and conflict resolution, rate
    limiting, pruning and the [RecordStore] interface.  The LRU cache, the
    in-memory Kademlia store and the JSON codec are interfaces.  A spawned
    storage task is a job of a queue that any later step may run. *)
From Stdlib Require Import String.
From S2P Require Import Prelude Bytes Config Crypto Kyn Names Physics Kid Records Action Verify Lru Storage StoreVerify.
#[local] Open Scope Z_scope.

(** ** Interfaces *)

(** [libp2p::kad::store::MemoryStore]: a refused put returns an error. *)
Class KadMemory := {
  Mem : Type;
  mem_with_config : Mem;
  mem_get : Mem -> bytes -> option bytes;
  mem_put : Mem -> bytes -> bytes -> option Mem;
  mem_remove : Mem -> bytes -> Mem }.

Class KadMemoryLaws `{KadMemory} := {
  mem_get_put m k v m' k' : mem_put m k v = Some m' ->
    mem_get m' k' = if decide (k' = k) then Some v else mem_get m k';
  mem_get_remove m k k' :
    mem_get (mem_remove m k) k' = if decide (k' = k) then None else mem_get m k' }.

(** [serde_json]: parsing of bytes to a value, field presence, and the derived
    codecs of the record types. *)
Class Serde := {
  Json : Type;
  json_from_slice : bytes -> option Json;
  json_has : Json -> bytes -> bool;
  commitment_from_value : Json -> option bytes;
  envelope_from_value : Json -> option NameEnvelope;
  heartbeat_from_value : Json -> option Heartbeat;
  auth_kid_from_value : Json -> option AuthorizedKid;
  auth_manifest_from_value : Json -> option AuthorizedManifest;
  host_route_from_value : Json -> option HostRoute;
  envelope_from_slice : bytes -> option NameEnvelope;
  envelope_to_vec : NameEnvelope -> option bytes }.

(** [String::from_utf8_lossy] replaces the ill-formed parts of its input. *)
Class Utf8Lossy := utf8_replace : bytes -> bytes.
Definition from_utf8_lossy `{Utf8Lossy} (b : bytes) : bytes :=
  if forallb is_ascii b then b else utf8_replace b.

(** ** State *)

(** One storage call of a spawned task. *)
Inductive StoWrite :=
  | WPut (k v : bytes)
  | WDelete (k : bytes).

Section State.
Context {HSto : StorageEngine} {HLru : LruCache} {HMem : KadMemory}.

Record KineticRecordStore := MkStore {
  inner : Mem;
  storage : Sto;
  reveals_by_name : Lru NameEnvelope;
  last_heartbeats_by_name : gmap bytes Z;
  accepted_reveals_timestamps : Lru (list Z);
  st_current_kyn : Z;
  max_reveals_per_hour : nat;
  spawned : list (list StoWrite) }.

Definition with_inner (m : Mem) (s : KineticRecordStore) : KineticRecordStore :=
  {| inner := m; storage := storage s; reveals_by_name := reveals_by_name s;
     last_heartbeats_by_name := last_heartbeats_by_name s;
     accepted_reveals_timestamps := accepted_reveals_timestamps s;
     st_current_kyn := st_current_kyn s; max_reveals_per_hour := max_reveals_per_hour s;
     spawned := spawned s |}.

Definition with_storage (d : Sto) (s : KineticRecordStore) : KineticRecordStore :=
  {| inner := inner s; storage := d; reveals_by_name := reveals_by_name s;
     last_heartbeats_by_name := last_heartbeats_by_name s;
     accepted_reveals_timestamps := accepted_reveals_timestamps s;
     st_current_kyn := st_current_kyn s; max_reveals_per_hour := max_reveals_per_hour s;
     spawned := spawned s |}.

Definition with_reveals (r : Lru NameEnvelope) (s : KineticRecordStore) : KineticRecordStore :=
  {| inner := inner s; storage := storage s; reveals_by_name := r;
     last_heartbeats_by_name := last_heartbeats_by_name s;
     accepted_reveals_timestamps := accepted_reveals_timestamps s;
     st_current_kyn := st_current_kyn s; max_reveals_per_hour := max_reveals_per_hour s;
     spawned := spawned s |}.

Definition with_heartbeats (h : gmap bytes Z) (s : KineticRecordStore) : KineticRecordStore :=
  {| inner := inner s; storage := storage s; reveals_by_name := reveals_by_name s;
     last_heartbeats_by_name := h;
     accepted_reveals_timestamps := accepted_reveals_timestamps s;
     st_current_kyn := st_current_kyn s; max_reveals_per_hour := max_reveals_per_hour s;
     spawned := spawned s |}.

Definition with_timestamps (t : Lru (list Z)) (s : KineticRecordStore) : KineticRecordStore :=
  {| inner := inner s; storage := storage s; reveals_by_name := reveals_by_name s;
     last_heartbeats_by_name := last_heartbeats_by_name s;
     accepted_reveals_timestamps := t;
     st_current_kyn := st_current_kyn s; max_reveals_per_hour := max_reveals_per_hour s;
     spawned := spawned s |}.

Definition spawn (job : list StoWrite) (s : KineticRecordStore) : KineticRecordStore :=
  {| inner := inner s; storage := storage s; reveals_by_name := reveals_by_name s;
     last_heartbeats_by_name := last_heartbeats_by_name s;
     accepted_reveals_timestamps := accepted_reveals_timestamps s;
     st_current_kyn := st_current_kyn s; max_reveals_per_hour := max_reveals_per_hour s;
     spawned := spawned s ++ [job] |}.

(** The answers of the storage calls of a task are dropped. *)
Definition run_write (d : Sto) (w : StoWrite) : Sto :=
  match w with WPut k v => (sto_put d k v).1 | WDelete k => (sto_delete d k).1 end.

Definition run_job (d : Sto) (job : list StoWrite) : Sto := fold_left run_write job d.

(** The scheduler runs the [i]-th spawned task. *)
Definition run_spawned (i : nat) (s : KineticRecordStore) : KineticRecordStore :=
  match spawned s !! i with
  | None => s
  | Some job =>
      {| inner := inner s; storage := run_job (storage s) job;
         reveals_by_name := reveals_by_name s;
         last_heartbeats_by_name := last_heartbeats_by_name s;
         accepted_reveals_timestamps := accepted_reveals_timestamps s;
         st_current_kyn := st_current_kyn s; max_reveals_per_hour := max_reveals_per_hour s;
         spawned := delete i (spawned s) |}
  end.

Definition KAD_RECORD_PREFIX : bytes := bs "kad_record:".

End State.

(** ** Pure rules of [handle_put_record] *)

(** What the conflict rules decide: an early return with an error, the early
    return [Ok(())], or falling through to the bookkeeping. *)
Inductive Verdict :=
  | Reject (e : KineticStoreError)
  | Keep
  | Admit.

(** [a.zip(b.chain(once(&0)).cycle()).map(xor)] *)
Definition xor_cycle (pubkey proof : bytes) : bytes :=
  let mask := proof ++ [0] in
  imap (fun i b => Z.lxor b (nth (i mod length mask) mask 0)) pubkey.

Definition tie_distance (r : Reveal) : bytes := xor_cycle (rv_pubkey r) (rv_vdf_proof r).

(** The branch [existing_record.pubkey() != record.pubkey()]. *)
Definition takeover_verdict `{UnicodeCase} (is_dev_mode : bool) (current_kyn : Z) (last_hb : option Z)
    (existing_reveal new_reveal : Reveal) : Verdict :=
  let last_hb_kyn := default (rv_kyn new_reveal) last_hb in
  let hb_age := sat_sub current_kyn last_hb_kyn in
  let base_diff := iterations is_dev_mode physics_default (rv_name new_reveal) in
  let takeover_threshold := takeover_iterations physics_default base_diff hb_age in
  if (rv_iterations new_reveal =? rv_iterations existing_reveal) && (hb_age <? 100) then
    if blt (tie_distance existing_reveal) (tie_distance new_reveal) then Reject TieBroken else Admit
  else if rv_iterations new_reveal <? takeover_threshold then Reject InsufficientIterations
  else Admit.

(** The error a failed signature check is reported as. *)
Definition signature_verdict (e : SignatureVerifyError) : KineticStoreError :=
  match e with
  | DelegatedCapabilityMissing => SeDelegatedCapabilityMissing
  | DelegatedAuthorizationInvalid => SeDelegatedAuthorizationInvalid
  | _ => InvalidSignature
  end.

Section Verdicts.
Context {HSig : MlDsa} {HCod : Codecs} {HJcs : Jcs}.
Variables (is_dev_mode : bool) (network_salt : bytes).

(** The block [if !skip_verify && !dev_mode && let Err(e) = ..]. *)
Definition recheck_signature (skip_verify : bool) (record : NameEnvelope) : option KineticStoreError :=
  if negb skip_verify && negb is_dev_mode then
    match envelope_verify_signature record network_salt with
    | Err e => Some (signature_verdict e)
    | Ok _ => None
    end
  else None.

(** The branch of a record of the same owner. *)
Definition update_verdict (skip_verify : bool) (existing_record record : NameEnvelope) : Verdict :=
  let '(Standard existing) := existing_record in
  let '(Standard new) := record in
  if rv_kyn new <? rv_kyn existing then Reject StaleReveal
  else if bool_decide (envelope_embedded_nrs record = envelope_embedded_nrs existing_record) &&
          bool_decide (envelope_signature record = envelope_signature existing_record) then Keep
  else
    match recheck_signature skip_verify record with
    | Some err => Reject err
    | None =>
        match envelope_authorization existing_record, envelope_authorization record with
        | Some _, None => Admit
        | None, Some _ => Reject StaleReveal
        | Some exist_manifest, Some new_manifest =>
            if valid_from (am_manifest new_manifest) <? valid_from (am_manifest exist_manifest)
            then Reject StaleReveal else Admit
        | None, None => Admit
        end
    end.

Definition first_verdict (skip_verify : bool) (record : NameEnvelope) : Verdict :=
  match recheck_signature skip_verify record with Some err => Reject err | None => Admit end.

End Verdicts.

(** Instants are nanoseconds; the window of the rate limit is an hour. *)
Definition RATE_WINDOW : Z := 3600 * 10 ^ 9.

(** [while let Some(t) = deque.front()]: drop the instants that left the
    window. *)
Fixpoint drop_expired (now : Z) (deque : list Z) : list Z :=
  match deque with
  | [] => []
  | t :: deque' => if sat_sub now t >? RATE_WINDOW then drop_expired now deque' else deque
  end.

(** ** Operations *)

Section Ops.
Context {HUni : UnicodeCase} {HSha : Sha2} {HSig : MlDsa} {HCod : Codecs} {HJcs : Jcs}
  {HBv : BeaconVerify} {HVdf : VdfEngine} {HSto : StorageEngine} {HPeer : PeerIds} {HEd : Ed25519}
  {HJson : StoredJson} {HSerde : Serde} {HUtf : Utf8Lossy} {HLru : LruCache} {HMem : KadMemory}.
Variables (is_dev_mode : bool) (network_salt : bytes) (action : option ActionState).

Definition get_fallback (self : KineticRecordStore) (name : bytes)
  : KineticRecordStore * option NameEnvelope :=
  let '(reveals, hit) := lru_get (reveals_by_name self) name in
  let self := with_reveals reveals self in
  match hit with
  | Some r => (self, Some r)
  | None =>
      let key := KRS_REVEAL_PREFIX ++ name in
      match sto_get (storage self) key with
      | Ok (Some b) =>
          match envelope_from_slice b with
          | Some record =>
              (with_reveals (lru_put (reveals_by_name self) name record) self, Some record)
          | None => (self, None)
          end
      | _ => (self, None)
      end
  end.

(** "Cleanup orphaned keys from previous owner". *)
Definition orphan_keys (name : bytes) : list bytes :=
  map (app KAD_RECORD_PREFIX)
    (derive_storage_keys name network_salt ++ derive_heartbeat_keys name network_salt).

Definition delete_all (d : Sto) (keys : list bytes) : Sto :=
  fold_left (fun d k => (sto_delete d k).1) keys d.

(** From "existing record" to the end of the if-else chain. *)
Definition resolve_conflict (self : KineticRecordStore) (record : NameEnvelope) (skip_verify : bool)
  : KineticRecordStore * Verdict :=
  let '(Standard new_reveal) := record in
  let '(self, existing) := get_fallback self (envelope_name record) in
  match existing with
  | Some existing_record =>
      let '(Standard existing_reveal) := existing_record in
      if negb (bool_decide (envelope_pubkey existing_record = envelope_pubkey record)) then
        let verdict :=
          takeover_verdict is_dev_mode (st_current_kyn self)
            (last_heartbeats_by_name self !! envelope_name record) existing_reveal new_reveal in
        match verdict with
        | Admit =>
            (with_storage (delete_all (storage self) (orphan_keys (rv_name new_reveal))) self, Admit)
        | _ => (self, verdict)
        end
      else (self, update_verdict is_dev_mode network_salt skip_verify existing_record record)
  | None => (self, first_verdict is_dev_mode network_salt skip_verify record)
  end.

(** The rate limiter: [None] when the name has used up its hour. *)
Definition rate_limit (self : KineticRecordStore) (name : bytes) (now : Z)
  : KineticRecordStore * Result KineticStoreError unit :=
  let ts := accepted_reveals_timestamps self in
  let ts := if lru_contains ts name then ts else lru_put ts name [] in
  let '(ts, deque) := lru_get ts name in
  let deque := drop_expired now (default [] deque) in
  if (max_reveals_per_hour self <=? length deque)%nat
  then (with_timestamps (lru_put ts name deque) self, Err RateLimited)
  else (with_timestamps (lru_put ts name (deque ++ [now])) self, Ok tt).

(** The bookkeeping of an admitted record. *)
Definition store_reveal (self : KineticRecordStore) (record : NameEnvelope) : KineticRecordStore :=
  let '(Standard reveal) := record in
  let name := envelope_name record in
  let '(reveals, evicted) := lru_push (reveals_by_name self) name record in
  let self := with_reveals reveals self in
  let self :=
    match evicted with
    | Some (evicted_name, _) =>
        if negb (bool_decide (evicted_name = name))
        then with_heartbeats (delete evicted_name (last_heartbeats_by_name self)) self else self
    | None => self
    end in
  let reveal_writes :=
    match envelope_to_vec record with
    | Some b => [WPut (KRS_REVEAL_PREFIX ++ name) b]
    | None => []
    end in
  let current_kyn := Z.max (st_current_kyn self) (rv_kyn reveal) in
  let self := with_heartbeats (<[name := current_kyn]> (last_heartbeats_by_name self)) self in
  spawn (reveal_writes ++ [WPut (KRS_HB_PREFIX ++ name) (u64_be current_kyn)]) self.

Definition effective_age (self : KineticRecordStore) (reveal : Reveal) : Z :=
  sat_sub (sat_sub (st_current_kyn self) (rv_kyn reveal)) (paused_since action (rv_kyn reveal)).

Definition handle_put_record (now : Z) (self : KineticRecordStore) (record : NameEnvelope)
    (skip_verify : bool) : KineticRecordStore * Result KineticStoreError unit :=
  let '(Standard reveal) := record in
  if effective_age self reveal >? RESQUARING_EPOCH_KYNS
  then (self, Err (VdfExpired (effective_age self reveal)))
  else
    match
      (if skip_verify then Ok tt
       else verify_reveal is_dev_mode network_salt action reveal (storage self) (st_current_kyn self))
    with
    | Err e => (self, Err e)
    | Ok _ =>
        match resolve_conflict self record skip_verify with
        | (self, Reject err) => (self, Err err)
        | (self, Keep) => (self, Ok tt)
        | (self, Admit) =>
            match rate_limit self (envelope_name record) now with
            | (self, Err err) => (self, Err err)
            | (self, Ok _) => (store_reveal self record, Ok tt)
            end
        end
    end.

(** The signature check of a heartbeat against the owner's key. *)
Definition heartbeat_signature (owner : bytes) (heartbeat : Heartbeat) : Result KineticStoreError unit :=
  let signable := heartbeat_signable_bytes heartbeat network_salt in
  match hb_authorization heartbeat with
  | Some auth =>
      bail_if (negb (key_verifies owner (auth_manifest_signable_bytes auth network_salt)
                       (am_owner_signature auth))) SeDelegatedAuthorizationInvalid;;
      bail_if (negb (has_capability (am_manifest auth) HEARTBEAT_CAPABILITY)) SeDelegatedCapabilityMissing;;
      kid_doc ← ok_or (am_kid_doc auth) MissingKidDocument;
      bail_if (negb (delegated_verifies kid_doc signable (hb_owner_signature heartbeat))) InvalidSignature
  | None =>
      bail_if (negb (key_verifies owner signable (hb_owner_signature heartbeat))) InvalidSignature
  end.

Definition handle_process_heartbeat (self : KineticRecordStore) (heartbeat : Heartbeat)
  : KineticRecordStore * Result KineticStoreError unit :=
  let existing_pulse := default 0 (last_heartbeats_by_name self !! hb_name heartbeat) in
  if latest_kyn heartbeat =? existing_pulse then (self, Ok tt)
  else if latest_kyn heartbeat <? existing_pulse then (self, Err StaleHeartbeat)
  else
    let '(self, existing) := get_fallback self (hb_name heartbeat) in
    match existing with
    | None => (self, Err RevealNotFound)
    | Some existing_record =>
        match heartbeat_signature (envelope_pubkey existing_record) heartbeat with
        | Err e => (self, Err e)
        | Ok _ =>
            if latest_kyn heartbeat >? wadd64 (st_current_kyn self) 2 then (self, Err FutureHeartbeat)
            else
              let self := with_heartbeats
                (<[hb_name heartbeat := latest_kyn heartbeat]> (last_heartbeats_by_name self)) self in
              (spawn [WPut (KRS_HB_PREFIX ++ hb_name heartbeat) (u64_be (latest_kyn heartbeat))] self, Ok tt)
        end
    end.

(** ** [kademlia.rs]: dispatch *)

(** A [kad::Record]: its key and its value. *)
Record KadRecord := MkKadRecord { kr_key : bytes; kr_value : bytes }.

Definition inner_put (self : KineticRecordStore) (r : KadRecord)
  : KineticRecordStore * Result KineticStoreError unit :=
  match mem_put (inner self) (kr_key r) (kr_value r) with
  | Some m => (with_inner m self, Ok tt)
  | None => (self, Err InternalStoreError)
  end.

Definition field (v : Json) (name : string) : bool := json_has v (bs name).

(** The arms after the commitment's: [None] is the [UnknownRecordType] arm. *)
Definition dispatch (now : Z) (self : KineticRecordStore) (r : KadRecord) (parsed : Json)
    (skip_reveal_verify : bool) : KineticRecordStore * Result KineticStoreError unit :=
  if field parsed "vdf_proof" || field parsed "kyn" then
    match envelope_from_value parsed with
    | Some record => handle_put_record now self record skip_reveal_verify
    | None => (self, Err SchemaValidationError)
    end
  else if field parsed "latest_kyn" then
    match heartbeat_from_value parsed with
    | Some heartbeat => handle_process_heartbeat self heartbeat
    | None => (self, Err SchemaValidationError)
    end
  else if field parsed "delegation_signature" then
    match auth_kid_from_value parsed with
    | Some auth_kid =>
        let '(self, active_record) := get_fallback self (ak_name auth_kid) in
        let existing_record := mem_get (inner self) (kr_key r) in
        (self, verify_authorized_kid network_salt auth_kid active_record existing_record)
    | None => (self, Err SchemaValidationError)
    end
  else if field parsed "manifest" then
    match auth_manifest_from_value parsed with
    | Some auth_manifest =>
        let '(self, active_record) := get_fallback self (am_name auth_manifest) in
        let existing_record := mem_get (inner self) (kr_key r) in
        (self, verify_authorized_manifest network_salt auth_manifest active_record existing_record
                 (st_current_kyn self))
    | None => (self, Err SchemaValidationError)
    end
  else if field parsed "host_id" then
    match host_route_from_value parsed with
    | Some host_route => (self, verify_host_routing_record network_salt host_route (st_current_kyn self))
    | None => (self, Err SchemaValidationError)
    end
  else (self, Err UnknownRecordType).

Definition put_record_internal (now : Z) (self : KineticRecordStore) (r : KadRecord)
    (skip_reveal_verify : bool) : KineticRecordStore * Result KineticStoreError unit :=
  if len (kr_value r) >? LIMITS_STORAGE_MAX_VALUE_BYTES then (self, Err PayloadTooLarge)
  else
    match json_from_slice (kr_value r) with
    | None => (self, Err MalformedJson)
    | Some parsed =>
        if field parsed "hash" && negb (field parsed "vdf_proof") then
          match commitment_from_value parsed with
          | Some hash =>
              let d := (sto_put (storage self) (commit_key_of hash) (u64_be (st_current_kyn self))).1 in
              inner_put (with_storage d self) r
          | None => (self, Err SchemaValidationError)
          end
        else
          match dispatch now self r parsed skip_reveal_verify with
          | (self, Err e) => (self, Err e)
          | (self, Ok _) =>
              let d := (sto_put (storage self) (KAD_RECORD_PREFIX ++ kr_key r) (kr_value r)).1 in
              inner_put (with_storage d self) r
          end
    end.

Definition put (now : Z) (self : KineticRecordStore) (r : KadRecord) :=
  put_record_internal now self r false.
Definition put_verified (now : Z) (self : KineticRecordStore) (r : KadRecord) :=
  put_record_internal now self r true.

(** [impl RecordStore for KineticRecordStore] *)
Definition rs_get (self : KineticRecordStore) (k : bytes) : option bytes := mem_get (inner self) k.
Definition rs_put (now : Z) (self : KineticRecordStore) (r : KadRecord)
  : KineticRecordStore * Result KadStoreError unit :=
  let '(self, res) := put now self r in (self, map_err kad_error_of res).
Definition rs_remove (self : KineticRecordStore) (k : bytes) : KineticRecordStore :=
  with_inner (mem_remove (inner self) k) self.
Definition rs_add_provider (self : KineticRecordStore) : KineticRecordStore * Result KadStoreError unit :=
  (self, Err KadMaxProvidedKeys).

(** ** [prune] *)

Definition IDLE_TIMEOUT : Z := (7 * 24 * 3600) / 3.

(** One commitment found by the scan: [Some] the keys to delete and the
    in-memory key to remove. *)
Definition prune_commitment (current_kyn : Z) (kv : bytes * bytes) : list bytes * option bytes :=
  let '(key_bytes, val_bytes) := kv in
  if (len val_bytes =? 8) && (sat_sub current_kyn (be_val val_bytes) >=? 100) then
    if len key_bytes >? len KRS_COMMIT_PREFIX then
      let hash := drop (length KRS_COMMIT_PREFIX) key_bytes in
      ([key_bytes; KAD_RECORD_PREFIX ++ hash], Some hash)
    else ([key_bytes], None)
  else ([], None).

Definition remove_all (m : Mem) (keys : list bytes) : Mem := fold_left mem_remove keys m.

Definition prune_commitments (self : KineticRecordStore) : KineticRecordStore * list bytes :=
  match sto_scan_prefix (storage self) KRS_COMMIT_PREFIX None with
  | Ok items =>
      let found := map (prune_commitment (st_current_kyn self)) items in
      (with_inner (remove_all (inner self) (omap snd found)) self, concat (map fst found))
  | Err _ => (self, [])
  end.

Definition name_expired (self : KineticRecordStore) (name : bytes) (record : NameEnvelope) : bool :=
  let '(Standard reveal) := record in
  let current_kyn := st_current_kyn self in
  (sat_sub current_kyn (rv_kyn reveal) >? RESQUARING_EPOCH_KYNS) ||
  (sat_sub current_kyn (default (rv_kyn reveal) (last_heartbeats_by_name self !! name)) >? IDLE_TIMEOUT).

Definition expired_names (self : KineticRecordStore) : list bytes :=
  map fst (List.filter (fun e => name_expired self e.1 e.2) (lru_iter (reveals_by_name self))).

(** Dropping one expired name; the deletions go to [keys_to_delete]. *)
Definition prune_name (st : KineticRecordStore * list bytes) (name : bytes)
  : KineticRecordStore * list bytes :=
  let '(self, keys_to_delete) := st in
  let keys := derive_storage_keys name network_salt in
  let hb_keys := derive_heartbeat_keys name network_salt in
  let self := with_reveals (lru_pop (reveals_by_name self) name) self in
  let self := with_heartbeats (delete name (last_heartbeats_by_name self)) self in
  let self := with_inner (remove_all (inner self) (keys ++ hb_keys)) self in
  (self, keys_to_delete ++ [KRS_REVEAL_PREFIX ++ name; KRS_HB_PREFIX ++ name] ++
         map (app KAD_RECORD_PREFIX) (keys ++ hb_keys)).

Definition prune (self : KineticRecordStore) : KineticRecordStore :=
  let '(self, keys_to_delete) := prune_commitments self in
  let '(self, keys_to_delete) := fold_left prune_name (expired_names self) (self, keys_to_delete) in
  match keys_to_delete with
  | [] => self
  | _ => spawn (map WDelete keys_to_delete) self
  end.

(** ** [new]: restore *)

Definition RESTORE_LIMIT : nat := Z.to_nat 100000.

Definition restored_valid (reveal : Reveal) (initial_kyn : Z) : bool :=
  match compute_required_iterations is_dev_mode network_salt action reveal initial_kyn with
  | Ok req =>
      (rv_iterations reveal >=? req) &&
      (is_dev_mode || is_ok (reveal_verify_signature reveal network_salt)) &&
      let drand_sig_bytes := default (replicate 32 0) (hex_decode (rv_beacon_signature reveal)) in
      match vdf_verify (reveal_challenge network_salt reveal drand_sig_bytes) (rv_vdf_proof reveal)
              (rv_iterations reveal) with
      | Ok true => true
      | _ => false
      end
  | Err _ => false
  end.

Definition restore_reveal (initial_kyn : Z) (cache : Lru NameEnvelope) (kv : bytes * bytes)
  : Lru NameEnvelope :=
  let '(key_bytes, val_bytes) := kv in
  if len key_bytes <=? len KRS_REVEAL_PREFIX then cache
  else
    let name := from_utf8_lossy (drop (length KRS_REVEAL_PREFIX) key_bytes) in
    match envelope_from_slice val_bytes with
    | Some (Standard reveal) =>
        if restored_valid reveal initial_kyn then lru_put cache name (Standard reveal) else cache
    | None => cache
    end.

Definition restore_heartbeat (cache : Lru NameEnvelope) (st : Sto * gmap bytes Z) (kv : bytes * bytes)
  : Sto * gmap bytes Z :=
  let '(key_bytes, val_bytes) := kv in
  let '(d, hbs) := st in
  if len key_bytes <=? len KRS_HB_PREFIX then st
  else
    let name := from_utf8_lossy (drop (length KRS_HB_PREFIX) key_bytes) in
    if len val_bytes =? 8 then
      if lru_contains cache name then (d, <[name := be_val val_bytes]> hbs)
      else ((sto_delete d key_bytes).1, hbs)
    else st.

Definition republish (m : Mem) (e : bytes * NameEnvelope) : Mem :=
  match envelope_to_vec e.2 with
  | Some val =>
      fold_left (fun m k => default m (mem_put m k val)) (derive_storage_keys e.1 network_salt) m
  | None => m
  end.

Definition store_new (d : Sto) (initial_kyn : Z) (lru_cache_size max_reveals : nat) : KineticRecordStore :=
  let cache :=
    match sto_scan_prefix d KRS_REVEAL_PREFIX (Some RESTORE_LIMIT) with
    | Ok items => fold_left (restore_reveal initial_kyn) items (lru_new lru_cache_size)
    | Err _ => lru_new lru_cache_size
    end in
  let '(d, hbs) :=
    match sto_scan_prefix d KRS_HB_PREFIX None with
    | Ok items => fold_left (restore_heartbeat cache) items (d, ∅)
    | Err _ => (d, ∅)
    end in
  {| inner := fold_left republish (lru_iter cache) mem_with_config;
     storage := d; reveals_by_name := cache; last_heartbeats_by_name := hbs;
     accepted_reveals_timestamps := lru_new lru_cache_size;
     st_current_kyn := initial_kyn; max_reveals_per_hour := max_reveals; spawned := [] |}.

End Ops.

(** ** Lookups *)

Section Facts.
Context {HUni : UnicodeCase} {HSha : Sha2} {HSig : MlDsa} {HCod : Codecs} {HJcs : Jcs}
  {HBv : BeaconVerify} {HVdf : VdfEngine} {HSto : StorageEngine} {HPeer : PeerIds} {HEd : Ed25519}
  {HJson : StoredJson} {HSerde : Serde} {HUtf : Utf8Lossy} {HLru : LruCache} {HMem : KadMemory}
  {HLruLaws : LruLaws} {HMemLaws : KadMemoryLaws}.
Variables (is_dev_mode : bool) (network_salt : bytes) (action : option ActionState).

(** The record a name resolves to: the cached one, else the stored one. *)
Definition stored_record (d : Sto) (name : bytes) : option NameEnvelope :=
  match sto_get d (KRS_REVEAL_PREFIX ++ name) with
  | Ok (Some b) => envelope_from_slice b
  | _ => None
  end.

Definition name_record (s : KineticRecordStore) (name : bytes) : option NameEnvelope :=
  match lru_view (reveals_by_name s) !! name with
  | Some r => Some r
  | None => stored_record (storage s) name
  end.

(** Two states that differ in the cache of reveals at most. *)
Record same_but_reveals (s s' : KineticRecordStore) : Prop := {
  sbr_inner : inner s' = inner s;
  sbr_storage : storage s' = storage s;
  sbr_hbs : last_heartbeats_by_name s' = last_heartbeats_by_name s;
  sbr_ts : accepted_reveals_timestamps s' = accepted_reveals_timestamps s;
  sbr_kyn : st_current_kyn s' = st_current_kyn s;
  sbr_max : max_reveals_per_hour s' = max_reveals_per_hour s;
  sbr_spawned : spawned s' = spawned s }.

Lemma lru_push_self {V} (c : Lru V) k v : lru_view (lru_push c k v).1 !! k = Some v.
Proof.
  pose proof (lru_push_view c k v) as H. destruct (lru_push c k v).2 as [[k' v']|].
  - destruct H as [_ ->]. apply lookup_insert_eq.
  - rewrite H. apply lookup_insert_eq.
Qed.

Lemma lru_push_other {V} (c : Lru V) k v k' x :
  lru_view (lru_push c k v).1 !! k' = Some x -> k' <> k -> lru_view c !! k' = Some x.
Proof.
  pose proof (lru_push_view c k v) as H. intros Hx Hne.
  destruct (lru_push c k v).2 as [[k2 v2]|].
  - destruct H as [_ H]. rewrite H, lookup_insert_ne in Hx by congruence.
    by apply lookup_delete_Some in Hx as [_ ?].
  - by rewrite H, lookup_insert_ne in Hx by congruence.
Qed.

Lemma get_fallback_spec s name :
  (get_fallback s name).2 = name_record s name /\
  same_but_reveals s (get_fallback s name).1 /\
  lru_view (reveals_by_name (get_fallback s name).1) !! name = name_record s name.
Proof.
  unfold get_fallback, name_record, stored_record. pose proof (lru_get_value (reveals_by_name s) name) as Hv.
  pose proof (lru_get_view (reveals_by_name s) name) as Hw.
  destruct (lru_get (reveals_by_name s) name) as [c hit]. cbn [fst snd] in *. subst hit.
  destruct (lru_view (reveals_by_name s) !! name) as [r|] eqn:E; cbn [fst snd].
  - split; [done|]. split; [by split|]. cbn. by rewrite Hw.
  - cbn [storage with_reveals reveals_by_name].
    destruct (sto_get (storage s) (KRS_REVEAL_PREFIX ++ name)) as [[b|]|]; cbn [fst snd];
      [|split; [done|split; [by split|cbn; by rewrite Hw]]..].
    destruct (envelope_from_slice b) as [r|]; cbn [fst snd];
      (split; [done|split; [by split|]]); cbn; [apply lru_push_self|by rewrite Hw].
Qed.

Lemma get_fallback_name_record s name :
  name_record (get_fallback s name).1 name = name_record s name.
Proof.
  destruct (get_fallback_spec s name) as (_ & H & Hv). unfold name_record at 1. rewrite Hv.
  destruct (name_record s name) eqn:E; [done|].
  rewrite (sbr_storage _ _ H). revert E. unfold name_record.
  by destruct (lru_view (reveals_by_name s) !! name).
Qed.

(** ** Conflict resolution *)

Definition idle_time (s : KineticRecordStore) (r : Reveal) : Z :=
  sat_sub (st_current_kyn s) (default (rv_kyn r) (last_heartbeats_by_name s !! rv_name r)).

(** What a challenger must show to take over a name. *)
Definition takeover_earned (s : KineticRecordStore) (old new : Reveal) : Prop :=
  (rv_iterations new = rv_iterations old /\ idle_time s new < 100 /\
   blt (tie_distance old) (tie_distance new) = false) \/
  takeover_iterations physics_default (iterations is_dev_mode physics_default (rv_name new))
    (idle_time s new) <= rv_iterations new.

Lemma takeover_verdict_admit s old new :
  takeover_verdict is_dev_mode (st_current_kyn s) (last_heartbeats_by_name s !! rv_name new) old new = Admit ->
  takeover_earned s old new.
Proof.
  unfold takeover_verdict, takeover_earned, idle_time. cbv zeta.
  destruct (rv_iterations new =? rv_iterations old) eqn:E; cbn [andb].
  - destruct (_ <? 100) eqn:E2; [|destruct (_ <? takeover_iterations _ _ _) eqn:E3; zbool; by right].
    destruct (blt _ _) eqn:E3; [done|]. intros _. left. zbool. done.
  - destruct (_ <? takeover_iterations _ _ _) eqn:E3; zbool; [done|by right].
Qed.

(** The outcome of the conflict rules, with what they leave in the state. *)
Lemma resolve_conflict_spec s r skip s' v :
  resolve_conflict is_dev_mode network_salt s (Standard r) skip = (s', v) ->
  lru_view (reveals_by_name s') !! rv_name r = name_record s (rv_name r) /\
  inner s' = inner s /\ last_heartbeats_by_name s' = last_heartbeats_by_name s /\
  accepted_reveals_timestamps s' = accepted_reveals_timestamps s /\
  st_current_kyn s' = st_current_kyn s /\ max_reveals_per_hour s' = max_reveals_per_hour s /\
  spawned s' = spawned s /\
  match name_record s (rv_name r) with
  | Some (Standard old) =>
      if decide (rv_pubkey old = rv_pubkey r)
      then storage s' = storage s /\
           v = update_verdict is_dev_mode network_salt skip (Standard old) (Standard r)
      else v = takeover_verdict is_dev_mode (st_current_kyn s)
                 (last_heartbeats_by_name s !! rv_name r) old r /\
           storage s' = match v with
                        | Admit => delete_all (storage s) (orphan_keys network_salt (rv_name r))
                        | _ => storage s
                        end
  | None => storage s' = storage s /\ v = first_verdict is_dev_mode network_salt skip (Standard r)
  end.
Proof.
  unfold resolve_conflict. cbn [envelope_name].
  destruct (get_fallback_spec s (rv_name r)) as (Ho & Hs & Hv).
  destruct (get_fallback s (rv_name r)) as [s1 o]. cbn [fst snd] in *. subst o.
  destruct Hs as [H1 H2 H3 H4 H5 H6 H7].
  destruct (name_record s (rv_name r)) as [[old]|].
  2:{ intros [= <- <-]. rewrite H2. done. }
  cbn [envelope_pubkey]. case_bool_decide as Ep; cbn [negb].
  - intros [= <- <-]. rewrite decide_True by done. done.
  - rewrite H3, H5. rewrite decide_False by done.
    destruct (takeover_verdict _ _ _ _ _); intros [= <- <-]; cbn; by rewrite ?H2.
Qed.

Lemma rate_limit_spec s name now s' res :
  rate_limit s name now = (s', res) ->
  exists ts, s' = with_timestamps ts s /\ (res = Ok tt \/ res = Err RateLimited).
Proof.
  unfold rate_limit. destruct (lru_get _ _) as [ts deque].
  destruct (_ <=? _)%nat; intros [= <- <-]; eauto.
Qed.

Lemma store_reveal_self s r :
  lru_view (reveals_by_name (store_reveal s (Standard r))) !! rv_name r = Some (Standard r).
Proof.
  unfold store_reveal. cbn [envelope_name].
  pose proof (lru_push_self (reveals_by_name s) (rv_name r) (Standard r)) as H.
  destruct (lru_push _ _ _) as [c [[e v]|]]; cbn [fst] in H; [destruct (negb _)|]; exact H.
Qed.

Lemma resolve_conflict_keeps s r skip s' v :
  resolve_conflict is_dev_mode network_salt s (Standard r) skip = (s', v) ->
  name_record s' (rv_name r) = name_record s (rv_name r).
Proof.
  intros (Hv & _ & _ & _ & _ & _ & _ & H)%resolve_conflict_spec. unfold name_record at 1. rewrite Hv.
  destruct (name_record s (rv_name r)) as [e|] eqn:E; [done|]. destruct H as [-> _].
  revert E. unfold name_record. by destruct (lru_view (reveals_by_name s) !! rv_name r).
Qed.

Lemma update_verdict_newer skip old new :
  (exists e, update_verdict is_dev_mode network_salt skip (Standard old) (Standard new) = Reject e) \/
  rv_kyn old <= rv_kyn new.
Proof. unfold update_verdict. destruct (rv_kyn new <? rv_kyn old) eqn:E; zbool; eauto. Qed.

(** A verdict other than a rejection respects the recorded owner. *)
Lemma resolve_conflict_owner s r skip s' v old :
  resolve_conflict is_dev_mode network_salt s (Standard r) skip = (s', v) ->
  name_record s (rv_name r) = Some (Standard old) ->
  match v with
  | Reject _ => True
  | Keep => rv_pubkey old = rv_pubkey r /\ rv_kyn old <= rv_kyn r
  | Admit => (rv_pubkey old = rv_pubkey r /\ rv_kyn old <= rv_kyn r) \/
             (rv_pubkey old <> rv_pubkey r /\ takeover_earned s old r)
  end.
Proof.
  intros (_ & _ & _ & _ & _ & _ & _ & H)%resolve_conflict_spec Ho. rewrite Ho in H. case_decide as Ep.
  - destruct H as [_ ->]. destruct (update_verdict_newer skip old r) as [[e ->]|Hk]; [done|].
    destruct (update_verdict _ _ _ _ _); auto.
  - destruct H as [-> _]. destruct (takeover_verdict _ _ _ _ _) eqn:E; [done| |].
    + revert E. unfold takeover_verdict. repeat case_match; done.
    + right. split; [done|]. by apply takeover_verdict_admit.
Qed.

(** C1: ownership.  A rejected reveal leaves the record of its name as it was.
    An accepted one is within the epoch and, unless the caller vouches for its
    verification, verified; afterwards the name holds the submitted reveal, or the unchanged record of the same owner; and
    the owner can only have changed against a challenger that met the takeover
    effort for the time the name was idle, or won the tie-break. *)
Theorem put_record_ownership now s r skip s' res :
  handle_put_record is_dev_mode network_salt action now s (Standard r) skip = (s', res) ->
  match res with
  | Err _ => name_record s' (rv_name r) = name_record s (rv_name r)
  | Ok _ =>
      effective_age action s r <= RESQUARING_EPOCH_KYNS /\
      (skip = false ->
       verify_reveal is_dev_mode network_salt action r (storage s) (st_current_kyn s) = Ok tt) /\
      (name_record s' (rv_name r) = Some (Standard r) \/
       name_record s' (rv_name r) = name_record s (rv_name r)) /\
      forall old, name_record s (rv_name r) = Some (Standard old) ->
        (rv_pubkey old = rv_pubkey r /\ rv_kyn old <= rv_kyn r) \/
        (rv_pubkey old <> rv_pubkey r /\ takeover_earned s old r)
  end.
Proof.
  unfold handle_put_record. destruct (effective_age action s r >? RESQUARING_EPOCH_KYNS) eqn:Ea.
  { by intros [= <- <-]. }
  rewrite Z.gtb_ltb in Ea. zbool.
  destruct (if skip then _ else _) as [[]|e] eqn:Ev; [|by intros [= <- <-]].
  assert (Hver : skip = false -> verify_reveal is_dev_mode network_salt action r (storage s)
    (st_current_kyn s) = Ok tt) by (by intros ->).
  destruct (resolve_conflict _ _ s (Standard r) skip) as [s1 v] eqn:Er.
  pose proof (resolve_conflict_keeps _ _ _ _ _ Er) as Hk.
  pose proof (fun old => resolve_conflict_owner _ _ _ _ _ old Er) as Ho.
  destruct v; [by intros [= <- <-]|intros [= <- <-]; naive_solver|]. cbn [envelope_name].
  destruct (rate_limit s1 (rv_name r) now) as [s2 res2] eqn:Et.
  destruct (rate_limit_spec _ _ _ _ _ Et) as (ts & -> & [-> | ->]);
    intros [<- <-]%pair_equal_spec; [|exact Hk].
  split; [done|]. split; [done|]. split; [left|done].
  unfold name_record. by rewrite store_reveal_self.
Qed.

Definition not_limited {A} (m : Result KineticStoreError A) : Prop := m <> Err RateLimited.

Lemma not_limited_bail b e : e <> RateLimited -> not_limited (bail_if b e).
Proof. unfold not_limited, bail_if. destruct b; congruence. Qed.

Lemma not_limited_bind {A B} (m : Result KineticStoreError A) (k : A -> Result KineticStoreError B) :
  not_limited m -> (forall a, not_limited (k a)) -> not_limited (m ≫= k).
Proof. unfold not_limited. intros Hm Hk. destruct m; cbn; [apply Hk|congruence]. Qed.

Lemma verify_reveal_not_limited r d now :
  not_limited (verify_reveal is_dev_mode network_salt action r d now).
Proof.
  unfold verify_reveal, compute_required_iterations.
  repeat (first [apply not_limited_bind; [|intros]|apply not_limited_bail; discriminate]);
    unfold not_limited; try discriminate.
  - destruct (hex_decode _); discriminate.
  - destruct (get_u64_from_db _ _); unfold bail_if; case_match; discriminate.
  - destruct is_dev_mode; [discriminate|]. unfold bail_if. destruct (_ <? _); [discriminate|]. cbn.
    destruct (vdf_verify _ _ _) as [[]|]; discriminate.
Qed.

(** A takeover that the rate limiter refuses has already deleted the
    stored records of the owner who keeps the name. *)
Theorem rate_limited_takeover_deletes now s r skip s' old :
  name_record s (rv_name r) = Some (Standard old) -> rv_pubkey old <> rv_pubkey r ->
  handle_put_record is_dev_mode network_salt action now s (Standard r) skip = (s', Err RateLimited) ->
  name_record s' (rv_name r) = Some (Standard old) /\
  storage s' = delete_all (storage s) (orphan_keys network_salt (rv_name r)).
Proof.
  unfold handle_put_record. intros Ho Hp. destruct (_ >? _); [done|].
  destruct (if skip then _ else _) as [[]|e] eqn:Ev.
  2:{ intros [_ E]%pair_equal_spec. exfalso. injection E as ->. destruct skip; [done|].
      by apply verify_reveal_not_limited in Ev. }
  destruct (resolve_conflict _ _ s (Standard r) skip) as [s1 v] eqn:Er.
  pose proof (resolve_conflict_keeps _ _ _ _ _ Er) as Hk. rewrite Ho in Hk.
  apply resolve_conflict_spec in Er as (_ & _ & _ & _ & _ & _ & _ & Hs).
  rewrite Ho, decide_False in Hs by done. destruct Hs as [Hv Hs].
  destruct v; [| |cbn [envelope_name]].
  - intros [_ E]%pair_equal_spec. injection E as ->. exfalso. revert Hv.
    unfold takeover_verdict. cbv zeta. repeat case_match; discriminate.
  - intros [_ E]%pair_equal_spec. discriminate.
  - destruct (rate_limit s1 (rv_name r) now) as [s2 res2] eqn:Et.
    destruct (rate_limit_spec _ _ _ _ _ Et) as (ts & -> & [-> | ->]);
      intros [<- E]%pair_equal_spec; [discriminate|]. split; [exact Hk|exact Hs].
Qed.

(** ** Heartbeats *)

Lemma heartbeat_signature_ok owner h :
  heartbeat_signature network_salt owner h = Ok tt <->
  match hb_authorization h with
  | None => signed_by owner (heartbeat_signable_bytes h network_salt) (hb_owner_signature h)
  | Some auth => delegation_valid owner auth HEARTBEAT_CAPABILITY (am_name auth)
                   (heartbeat_signable_bytes h network_salt) (hb_owner_signature h) network_salt
  end.
Proof.
  unfold heartbeat_signature, delegation_valid. destruct (hb_authorization h) as [auth|].
  - rewrite !bind_unit_ok, !bail_if_negb, key_verifies_true, has_capability_true.
    destruct (am_kid_doc auth) as [kd|]; cbn; [|naive_solver].
    rewrite bail_if_negb, delegated_verifies_true. naive_solver.
  - by rewrite bail_if_negb, key_verifies_true.
Qed.

(** C12: liveness.  A heartbeat never moves the recorded pulse of its name
    backwards and never touches another name; it moves it forward only to a
    pulse at most two kyns ahead of the network, for a recorded name, and under
    the signature of its owner or of a delegate the owner authorized. *)
Theorem heartbeat_advances_by_owner s h s' res :
  handle_process_heartbeat network_salt s h = (s', res) ->
  let previous := default 0 (last_heartbeats_by_name s !! hb_name h) in
  name_record s' (hb_name h) = name_record s (hb_name h) /\
  match res with
  | Err _ => last_heartbeats_by_name s' = last_heartbeats_by_name s
  | Ok _ =>
      (latest_kyn h = previous /\ s' = s) \/
      (previous < latest_kyn h <= wadd64 (st_current_kyn s) 2 /\
       last_heartbeats_by_name s' = <[hb_name h := latest_kyn h]> (last_heartbeats_by_name s) /\
       exists e, name_record s (hb_name h) = Some e /\
         match hb_authorization h with
         | None => signed_by (envelope_pubkey e) (heartbeat_signable_bytes h network_salt) (hb_owner_signature h)
         | Some auth => delegation_valid (envelope_pubkey e) auth HEARTBEAT_CAPABILITY (am_name auth)
                          (heartbeat_signable_bytes h network_salt) (hb_owner_signature h) network_salt
         end)
  end.
Proof.
  unfold handle_process_heartbeat. cbv zeta.
  destruct (latest_kyn h =? _) eqn:E1; zbool; [intros [= <- <-]; auto|].
  destruct (latest_kyn h <? _) eqn:E2; zbool; [by intros [= <- <-]|].
  destruct (get_fallback_spec s (hb_name h)) as (Ho & Hs & _).
  pose proof (get_fallback_name_record s (hb_name h)) as Hn.
  destruct (get_fallback s (hb_name h)) as [s1 o]. cbn [fst snd] in *. subst o.
  destruct (name_record s (hb_name h)) as [e|] eqn:En.
  2:{ intros [= <- <-]. split; [done|]. apply Hs. }
  destruct (heartbeat_signature network_salt (envelope_pubkey e) h) as [[]|err] eqn:Esig.
  2:{ intros [= <- <-]. split; [done|]. apply Hs. }
  destruct (latest_kyn h >? _) eqn:E3; rewrite Z.gtb_ltb in E3; zbool; intros [= <- <-].
  { split; [done|]. apply Hs. }
  split; [exact Hn|]. right. rewrite (sbr_kyn _ _ Hs) in E3. split; [lia|].
  split; [cbn; by rewrite (sbr_hbs _ _ Hs)|]. exists e. split; [done|]. by apply heartbeat_signature_ok.
Qed.

(** ** Keys are not bound to contents *)

Lemma resolve_conflict_inner s r skip s' v :
  resolve_conflict is_dev_mode network_salt s (Standard r) skip = (s', v) -> inner s' = inner s.
Proof. by intros (_ & H & _)%resolve_conflict_spec. Qed.

Lemma store_reveal_inner s r : inner (store_reveal s (Standard r)) = inner s.
Proof.
  unfold store_reveal. destruct (lru_push _ _ _) as [c [[e v]|]]; [destruct (negb _)|]; done.
Qed.

Lemma handle_put_record_inner now s e skip :
  inner (handle_put_record is_dev_mode network_salt action now s e skip).1 = inner s.
Proof.
  destruct e as [r]. unfold handle_put_record. destruct (_ >? _); [done|].
  destruct (if skip then _ else _); [|done].
  destruct (resolve_conflict _ _ s (Standard r) skip) as [s1 v] eqn:Er.
  apply resolve_conflict_inner in Er. destruct v; try exact Er.
  destruct (rate_limit s1 _ now) as [s2 res2] eqn:Et.
  destruct (rate_limit_spec _ _ _ _ _ Et) as (ts & -> & [-> | ->]); cbn [fst]; [|exact Er].
  by rewrite store_reveal_inner.
Qed.

Lemma get_fallback_inner s name : inner (get_fallback s name).1 = inner s.
Proof. apply (get_fallback_spec s name). Qed.

Lemma handle_process_heartbeat_inner s h :
  inner (handle_process_heartbeat network_salt s h).1 = inner s.
Proof.
  unfold handle_process_heartbeat. destruct (_ =? _); [done|]. destruct (_ <? _); [done|].
  pose proof (get_fallback_inner s (hb_name h)) as Hi. destruct (get_fallback s (hb_name h)) as [s1 o].
  destruct o; [|done]. destruct (heartbeat_signature _ _ _); [|done]. by destruct (_ >? _).
Qed.

Lemma dispatch_inner now s r parsed skip :
  inner (dispatch is_dev_mode network_salt action now s r parsed skip).1 = inner s.
Proof.
  unfold dispatch. destruct (_ || _).
  { destruct (envelope_from_value parsed); [apply handle_put_record_inner|done]. }
  destruct (field _ _). { destruct (heartbeat_from_value parsed); [apply handle_process_heartbeat_inner|done]. }
  destruct (field _ _).
  { destruct (auth_kid_from_value parsed) as [a|]; [|done]. pose proof (get_fallback_inner s (ak_name a)).
    by destruct (get_fallback s (ak_name a)). }
  destruct (field _ _).
  { destruct (auth_manifest_from_value parsed) as [a|]; [|done]. pose proof (get_fallback_inner s (am_name a)).
    by destruct (get_fallback s (am_name a)). }
  destruct (field _ _); [by destruct (host_route_from_value parsed)|done].
Qed.

Lemma inner_put_accepts s k v m :
  mem_put (inner s) k v = Some m ->
  exists s', inner_put s (MkKadRecord k v) = (s', Ok tt) /\ rs_get s' k = Some v.
Proof.
  intros H. unfold inner_put. cbn [kr_key kr_value]. rewrite H. eexists. split; [reflexivity|].
  unfold rs_get. cbn. rewrite (mem_get_put _ _ _ _ _ H). by rewrite decide_True.
Qed.

(** The key of a record is never compared with its content.  Whatever
    reveal, heartbeat, commitment or host route the store accepts under one
    key, it also accepts under any other, and serves it there: a lookup of
    another name's key answers with it. *)
Theorem put_ignores_key now s k k' v s1 m :
  put is_dev_mode network_salt action now s (MkKadRecord k v) = (s1, Ok tt) ->
  (forall parsed, json_from_slice v = Some parsed ->
     field parsed "delegation_signature" = false /\ field parsed "manifest" = false) ->
  mem_put (inner s) k' v = Some m ->
  exists s2, put is_dev_mode network_salt action now s (MkKadRecord k' v) = (s2, Ok tt) /\
    rs_get s2 k' = Some v.
Proof.
  unfold put, put_record_internal. cbn [kr_key kr_value]. intros H Hf Hm.
  destruct (len v >? _); [done|]. destruct (json_from_slice v) as [parsed|]; [|done].
  destruct (Hf parsed eq_refl) as [Hd Hma]. destruct (field parsed "hash" && _).
  { destruct (commitment_from_value parsed); [|done]. by apply (inner_put_accepts _ _ _ m). }
  assert (E : dispatch is_dev_mode network_salt action now s (MkKadRecord k' v) parsed false
            = dispatch is_dev_mode network_salt action now s (MkKadRecord k v) parsed false).
  { unfold dispatch. by rewrite Hd, Hma. }
  rewrite E. pose proof (dispatch_inner now s (MkKadRecord k v) parsed false) as Hi.
  destruct (dispatch _ _ _ now s (MkKadRecord k v) parsed false) as [s2 [[]|e]]; [|done].
  cbn [fst] in Hi. apply (inner_put_accepts _ _ _ m). cbn. by rewrite Hi.
Qed.

(** A heartbeat whose pulse is the recorded one is stored and replicated
    without any check of its signature; for a name without a recorded pulse,
    registered or not, that pulse is zero. *)
Theorem duplicate_heartbeat_unverified now s k v parsed h m :
  len v <= LIMITS_STORAGE_MAX_VALUE_BYTES -> json_from_slice v = Some parsed ->
  Forall (fun f => field parsed f = false) ["hash"; "vdf_proof"; "kyn"]%string ->
  field parsed "latest_kyn" = true -> heartbeat_from_value parsed = Some h ->
  latest_kyn h = default 0 (last_heartbeats_by_name s !! hb_name h) ->
  mem_put (inner s) k v = Some m ->
  exists s', put is_dev_mode network_salt action now s (MkKadRecord k v) = (s', Ok tt) /\
    rs_get s' k = Some v /\ storage s' = (sto_put (storage s) (KAD_RECORD_PREFIX ++ k) v).1.
Proof.
  intros Hl Hj Hf Hk Hh Hp Hm.
  apply Forall_cons in Hf as [H1 [H2 [H3 _]%Forall_cons]%Forall_cons].
  unfold put, put_record_internal. cbn [kr_key kr_value].
  replace (len v >? _) with false by (symmetry; rewrite Z.gtb_ltb; by apply Z.ltb_ge).
  rewrite Hj, H1. cbn [andb]. unfold dispatch. rewrite H2, H3, Hk, Hh. cbn [orb].
  unfold handle_process_heartbeat. rewrite Hp, Z.eqb_refl. unfold inner_put. cbn. rewrite Hm.
  eexists. split; [reflexivity|]. split; [|done].
  unfold rs_get. cbn. rewrite (mem_get_put _ _ _ _ _ Hm). by rewrite decide_True.
Qed.

(** ** Pruning *)

Definition record_keys (name : bytes) : list bytes :=
  derive_storage_keys name network_salt ++ derive_heartbeat_keys name network_salt.

Definition name_deletions (name : bytes) : list bytes :=
  [KRS_REVEAL_PREFIX ++ name; KRS_HB_PREFIX ++ name] ++ map (app KAD_RECORD_PREFIX) (record_keys name).

Lemma mem_get_remove_all m keys k :
  mem_get (remove_all m keys) k = if decide (k ∈ keys) then None else mem_get m k.
Proof.
  revert m. induction keys as [|k0 keys IH]; intros m; [by rewrite decide_False by apply not_elem_of_nil|].
  unfold remove_all in *. cbn [fold_left]. rewrite IH, mem_get_remove.
  destruct (decide (k ∈ keys)); [by rewrite decide_True by by right|].
  destruct (decide (k = k0)) as [->|]; [by rewrite decide_True by left|].
  by rewrite decide_False by (rewrite elem_of_cons; tauto).
Qed.

Lemma lookup_delete_case {V} (m : gmap bytes V) k k' :
  delete k m !! k' = if decide (k' = k) then None else m !! k'.
Proof. case_decide; [subst; apply lookup_delete_eq|by apply lookup_delete_ne]. Qed.

(** What one pass over the expired names leaves. *)
Record pruned_of (names : list bytes) (s s' : KineticRecordStore) : Prop := {
  po_cache n : lru_view (reveals_by_name s') !! n
               = if decide (n ∈ names) then None else lru_view (reveals_by_name s) !! n;
  po_hbs n : last_heartbeats_by_name s' !! n
             = if decide (n ∈ names) then None else last_heartbeats_by_name s !! n;
  po_inner k : mem_get (inner s') k
               = if decide (k ∈ concat (map record_keys names)) then None else mem_get (inner s) k;
  po_storage : storage s' = storage s;
  po_spawned : spawned s' = spawned s }.

Lemma prune_fold names s ks :
  pruned_of names s (fold_left (prune_name network_salt) names (s, ks)).1 /\
  (fold_left (prune_name network_salt) names (s, ks)).2 = ks ++ concat (map name_deletions names).
Proof.
  revert s ks. induction names as [|n0 names IH]; intros s ks.
  { split; [split; intros; by rewrite ?decide_False by apply not_elem_of_nil|]. cbn. by rewrite app_nil_r. }
  cbn [fold_left prune_name map concat].
  specialize (IH (prune_name network_salt (s, ks) n0).1 (prune_name network_salt (s, ks) n0).2).
  rewrite <- surjective_pairing in IH. destruct IH as [[H1 H2 H3 H4 H5] H6]. split.
  - split.
    + intros n. rewrite H1. cbn. rewrite lru_pop_view, lookup_delete_case.
      destruct (decide (n ∈ names)); [by rewrite decide_True by by right|].
      destruct (decide (n = n0)) as [->|]; [by rewrite decide_True by left|].
      by rewrite decide_False by (rewrite elem_of_cons; tauto).
    + intros n. rewrite H2. cbn. rewrite lookup_delete_case.
      destruct (decide (n ∈ names)); [by rewrite decide_True by by right|].
      destruct (decide (n = n0)) as [->|]; [by rewrite decide_True by left|].
      by rewrite decide_False by (rewrite elem_of_cons; tauto).
    + intros k. rewrite H3. cbn [prune_name fst inner with_inner map concat]. rewrite mem_get_remove_all.
      fold (record_keys n0). destruct (decide (k ∈ concat (map record_keys names))) as [Hk|Hk].
      { by rewrite decide_True by (apply elem_of_app; by right). }
      destruct (decide (k ∈ record_keys n0)) as [Hk2|Hk2].
      { by rewrite decide_True by (apply elem_of_app; by left). }
      rewrite decide_False by (rewrite elem_of_app; tauto). done.
    + exact H4.
    + exact H5.
  - etransitivity; [exact H6|]. cbn [prune_name snd]. by rewrite <- app_assoc.
Qed.

Lemma expired_names_spec s name :
  name ∈ expired_names s <->
  exists r, lru_view (reveals_by_name s) !! name = Some r /\ name_expired s name r = true.
Proof.
  unfold expired_names. rewrite list_elem_of_fmap. split.
  - intros ([n r] & -> & Hin). apply list_elem_of_In, filter_In in Hin as [Hin Hx].
    exists r. split; [|done]. by apply lru_iter_view, list_elem_of_In.
  - intros (r & Hv & Hx). exists (name, r). split; [done|].
    apply list_elem_of_In, filter_In. split; [|done]. by apply list_elem_of_In, lru_iter_view.
Qed.

Lemma prune_commitments_same s :
  let s' := (prune_commitments s).1 in
  reveals_by_name s' = reveals_by_name s /\ last_heartbeats_by_name s' = last_heartbeats_by_name s /\
  storage s' = storage s /\ spawned s' = spawned s /\ st_current_kyn s' = st_current_kyn s /\
  (forall k, mem_get (inner s) k = None -> mem_get (inner s') k = None).
Proof.
  cbv zeta. unfold prune_commitments. destruct (sto_scan_prefix _ _ _); cbn; repeat split; try done.
  intros k Hk. rewrite mem_get_remove_all. by case_decide.
Qed.

Lemma expired_names_commitments s : expired_names (prune_commitments s).1 = expired_names s.
Proof.
  destruct (prune_commitments_same s) as (H1 & H2 & _ & _ & H3 & _).
  unfold expired_names, name_expired. by rewrite H1, H2, H3.
Qed.

(** Pruning.  After a prune the cache still holds exactly those names that are
    within the epoch and were heard of within the idle timeout; a dropped name
    loses its heartbeat and every one of its in-memory records at once, and
    its stored records, reveal and heartbeat are scheduled for deletion. *)
Theorem prune_spec s name r :
  lru_view (reveals_by_name s) !! name = Some r ->
  let s' := prune network_salt s in
  if name_expired s name r then
    lru_view (reveals_by_name s') !! name = None /\
    last_heartbeats_by_name s' !! name = None /\
    (forall k, k ∈ record_keys name -> rs_get s' k = None) /\
    exists job, job ∈ spawned s' /\ forall k, k ∈ name_deletions name -> WDelete k ∈ job
  else
    lru_view (reveals_by_name s') !! name = Some r /\
    last_heartbeats_by_name s' !! name = last_heartbeats_by_name s !! name.
Proof.
  intros Hv. cbv zeta. unfold prune.
  pose proof (expired_names_commitments s) as He. destruct (prune_commitments_same s) as (H1 & H2 & _).
  destruct (prune_commitments s) as [s1 ks1]. cbn [fst] in *. rewrite He.
  destruct (prune_fold (expired_names s) s1 ks1) as [[P1 P2 P3 _ _] P6].
  destruct (fold_left _ (expired_names s) (s1, ks1)) as [s2 ks]. cbn [fst snd] in *. subst ks.
  set (ks := ks1 ++ concat (map name_deletions (expired_names s))).
  assert (Hs : forall P : KineticRecordStore -> Prop,
    (forall sp, P (MkStore (inner s2) (storage s2) (reveals_by_name s2) (last_heartbeats_by_name s2)
       (accepted_reveals_timestamps s2) (st_current_kyn s2) (max_reveals_per_hour s2) sp)) ->
    P match ks with [] => s2 | _ => spawn (map WDelete ks) s2 end).
  { intros P HP. destruct ks; [|apply HP]. specialize (HP (spawned s2)). by destruct s2. }
  specialize (P1 name). specialize (P2 name). rewrite H1, Hv in P1. rewrite H2 in P2.
  destruct (name_expired s name r) eqn:Ex.
  - assert (Hin : name ∈ expired_names s) by (apply expired_names_spec; eauto).
    rewrite decide_True in P1 by done. rewrite decide_True in P2 by done.
    split; [by apply Hs|]. split; [by apply Hs|]. split.
    { intros k Hk. apply Hs. intros sp. unfold rs_get. cbn [inner]. rewrite P3. rewrite decide_True; [done|].
      apply list_elem_of_In, in_concat. exists (record_keys name).
      split; [by apply in_map, list_elem_of_In|by apply list_elem_of_In]. }
    assert (Hk : forall k, k ∈ name_deletions name -> k ∈ ks).
    { intros k Hk. apply elem_of_app. right. apply list_elem_of_In, in_concat.
      exists (name_deletions name). split; [by apply in_map, list_elem_of_In|by apply list_elem_of_In]. }
    exists (map WDelete ks). split.
    + destruct ks as [|k0 ks'] eqn:E; [|apply elem_of_app; right; by left].
      exfalso. by apply (not_elem_of_nil (KRS_REVEAL_PREFIX ++ name)), Hk; left.
    + intros k Hin'. apply list_elem_of_fmap. exists k. split; [done|by apply Hk].
  - assert (Hn : name ∉ expired_names s)
      by (intros (r' & Hv' & Hx)%expired_names_spec; congruence).
    rewrite decide_False in P1 by done. rewrite decide_False in P2 by done. split; by apply Hs.
Qed.

(** ** Restore *)

Lemma restored_valid_ok r kyn :
  restored_valid false network_salt action r kyn = true <->
  exists required, compute_required_iterations false network_salt action r kyn = Ok required /\
    required <= rv_iterations r /\ reveal_verify_signature r network_salt = Ok tt /\
    vdf_verify (reveal_challenge network_salt r
                  (default (replicate 32 0) (hex_decode (rv_beacon_signature r))))
      (rv_vdf_proof r) (rv_iterations r) = Ok true.
Proof.
  unfold restored_valid. destruct (compute_required_iterations _ _ _ _ _) as [req|e]; [|naive_solver].
  cbn [orb]. rewrite !andb_true_iff, is_ok_unit, Z.geb_leb, Z.leb_le.
  destruct (vdf_verify _ _ _) as [[]|]; split.
  - intros [[? ?] _]. by exists req.
  - by intros (? & [= <-] & ? & ? & _).
  - by intros [_ ?].
  - by intros (? & _ & _ & _ & ?).
  - by intros [_ ?].
  - by intros (? & _ & _ & _ & ?).
Qed.

(** Where a restored name comes from. *)
Definition restored_from (items : list (bytes * bytes)) (kyn : Z) (name : bytes) (e : NameEnvelope) : Prop :=
  exists key val r, (key, val) ∈ items /\ len KRS_REVEAL_PREFIX < len key /\
    name = from_utf8_lossy (drop (length KRS_REVEAL_PREFIX) key) /\
    envelope_from_slice val = Some e /\ e = Standard r /\
    restored_valid is_dev_mode network_salt action r kyn = true.

Lemma restore_reveals_from items kyn (cache : Lru NameEnvelope) name e :
  lru_view (fold_left (restore_reveal is_dev_mode network_salt action kyn) items cache) !! name = Some e ->
  lru_view cache !! name = Some e \/ restored_from items kyn name e.
Proof.
  revert cache. induction items as [|[key val] items IH]; intros cache H; [by left|].
  cbn [fold_left] in H. apply IH in H as [H|(k & v & r & Hin & Hr)].
  2:{ right. exists k, v, r. split; [by right|done]. }
  unfold restore_reveal in H. destruct (len key <=? _) eqn:El; [by left|]. zbool.
  destruct (envelope_from_slice val) as [[r]|] eqn:Ee; [|by left].
  destruct (restored_valid _ _ _ r kyn) eqn:Ev; [|by left].
  set (n := from_utf8_lossy _) in H. destruct (decide (name = n)) as [->|Hne].
  - right. unfold lru_put in H. rewrite lru_push_self in H. injection H as <-.
    exists key, val, r. split; [by left|]. done.
  - left. by eapply lru_push_other.
Qed.

Lemma restore_heartbeats_cached items (cache : Lru NameEnvelope) st name :
  is_Some ((fold_left (restore_heartbeat cache) items st).2 !! name) ->
  is_Some (st.2 !! name) \/ is_Some (lru_view cache !! name).
Proof.
  revert st. induction items as [|[key val] items IH]; intros st H; [by left|].
  cbn [fold_left] in H. apply IH in H as [H|H]; [|by right]. revert H. unfold restore_heartbeat.
  destruct st as [d hbs]. destruct (len key <=? _); [by left|]. destruct (len val =? 8); [|by left].
  rewrite lru_contains_view. case_bool_decide as Hc; cbn [snd]; [|by left].
  destruct (decide (name = from_utf8_lossy (drop (length KRS_HB_PREFIX) key))) as [->|Hne]; [by right|].
  rewrite lookup_insert_ne by congruence. by left.
Qed.

Lemma store_new_reveals d kyn size max name e :
  lru_view (reveals_by_name (store_new is_dev_mode network_salt action d kyn size max)) !! name = Some e ->
  exists items, sto_scan_prefix d KRS_REVEAL_PREFIX (Some RESTORE_LIMIT) = Ok items /\
    restored_from items kyn name e.
Proof.
  unfold store_new. destruct (sto_scan_prefix d KRS_HB_PREFIX None) as [items0|];
    [destruct (fold_left (restore_heartbeat _) items0 (d, ∅)) as [d' hbs]|];
    cbn [reveals_by_name]; (destruct (sto_scan_prefix d _ _) as [items|];
    [intros [H|H]%restore_reveals_from; [by rewrite lru_view_new, lookup_empty in H|by exists items]|
     intros H; by rewrite lru_view_new, lookup_empty in H]).
Qed.

Lemma store_new_heartbeats d kyn size max name :
  let s := store_new is_dev_mode network_salt action d kyn size max in
  is_Some (last_heartbeats_by_name s !! name) -> is_Some (lru_view (reveals_by_name s) !! name).
Proof.
  cbv zeta. unfold store_new.
  set (cache := match sto_scan_prefix d KRS_REVEAL_PREFIX (Some RESTORE_LIMIT) with
    | Ok items => _ | Err _ => _ end). clearbody cache.
  destruct (sto_scan_prefix d KRS_HB_PREFIX None) as [items|].
  - pose proof (restore_heartbeats_cached items cache (d, ∅) name) as Hh.
    destruct (fold_left (restore_heartbeat cache) items (d, ∅)) as [d' hbs].
    cbn [snd reveals_by_name last_heartbeats_by_name] in *.
    intros H. apply Hh in H as [H|H]; [|done]. rewrite lookup_empty in H. by destruct H.
  - cbn [reveals_by_name last_heartbeats_by_name]. intros H. rewrite lookup_empty in H. by destruct H.
Qed.

End Facts.

Section Restart.
Context {HUni : UnicodeCase} {HSha : Sha2} {HSig : MlDsa} {HCod : Codecs} {HJcs : Jcs}
  {HBv : BeaconVerify} {HVdf : VdfEngine} {HSto : StorageEngine} {HSerde : Serde} {HUtf : Utf8Lossy}
  {HLru : LruCache} {HMem : KadMemory} {HLruLaws : LruLaws}.
Variables (network_salt : bytes) (action : option ActionState).

(** Restart.  In a production build every name the store knows after a
    restart comes from a stored reveal that was verified again: it shows the
    required effort, its signature is valid and its proof verifies for its own
    challenge; and only such names keep a heartbeat. *)
Theorem restore_only_verified d kyn size max name :
  let s := store_new false network_salt action d kyn size max in
  (forall e, lru_view (reveals_by_name s) !! name = Some e ->
     exists items key val r required,
       sto_scan_prefix d KRS_REVEAL_PREFIX (Some RESTORE_LIMIT) = Ok items /\ (key, val) ∈ items /\
       name = from_utf8_lossy (drop (length KRS_REVEAL_PREFIX) key) /\
       envelope_from_slice val = Some e /\ e = Standard r /\
       compute_required_iterations false network_salt action r kyn = Ok required /\
       required <= rv_iterations r /\ reveal_verify_signature r network_salt = Ok tt /\
       vdf_verify (reveal_challenge network_salt r
                     (default (replicate 32 0) (hex_decode (rv_beacon_signature r))))
         (rv_vdf_proof r) (rv_iterations r) = Ok true) /\
  (is_Some (last_heartbeats_by_name s !! name) -> is_Some (lru_view (reveals_by_name s) !! name)).
Proof.
  cbv zeta. split; [|apply store_new_heartbeats].
  intros e (items & Hi & key & val & r & Hin & _ & Hn & He & -> & Hr)%store_new_reveals.
  apply restored_valid_ok in Hr as (required & Hc & Hle & Hs & Hv).
  by exists items, key, val, r, required.
Qed.

End Restart.

(** ** Dispatch of derived JSON

    Documented behaviour of the derived codecs: a serialized struct has exactly
    its fields, and a struct without defaults is not read from a value that
    lacks one of them. *)
Class SerdeDerived `{Serde} := {
  host_route_to_vec : HostRoute -> bytes;
  host_route_fields h v f : json_from_slice (host_route_to_vec h) = Some v ->
    json_has v f = bool_decide (f ∈ map bs ["host_id"; "current_peer_id"; "kyn"; "host_signature"]%string);
  auth_kid_to_vec : AuthorizedKid -> bytes;
  auth_kid_fields a v f : json_from_slice (auth_kid_to_vec a) = Some v ->
    json_has v f = bool_decide (f ∈ map bs ["name"; "kid_doc"; "owner_signature"]%string);
  envelope_requires_proof v e : envelope_from_value v = Some e -> json_has v (bs "vdf_proof") = true }.

Section Dispatch.
Context {HUni : UnicodeCase} {HSha : Sha2} {HSig : MlDsa} {HCod : Codecs} {HJcs : Jcs}
  {HBv : BeaconVerify} {HVdf : VdfEngine} {HSto : StorageEngine} {HPeer : PeerIds} {HEd : Ed25519}
  {HJson : StoredJson} {HSerde : Serde} {HLru : LruCache} {HMem : KadMemory}
  {HDerived : SerdeDerived}.
Variables (is_dev_mode : bool) (network_salt : bytes) (action : option ActionState).

(** Two record types never reach the store.  A serialized host route is
    taken for a name record, because of its [kyn] field, and refused by the
    schema; a serialized identity document matches no arm, because the arm
    asks for a field the type does not have. *)
Theorem host_routes_and_kids_undeliverable now s k h a skip :
  len (host_route_to_vec h) <= LIMITS_STORAGE_MAX_VALUE_BYTES ->
  is_Some (json_from_slice (host_route_to_vec h)) ->
  len (auth_kid_to_vec a) <= LIMITS_STORAGE_MAX_VALUE_BYTES ->
  is_Some (json_from_slice (auth_kid_to_vec a)) ->
  put_record_internal is_dev_mode network_salt action now s (MkKadRecord k (host_route_to_vec h)) skip
    = (s, Err SchemaValidationError) /\
  put_record_internal is_dev_mode network_salt action now s (MkKadRecord k (auth_kid_to_vec a)) skip
    = (s, Err UnknownRecordType).
Proof.
  intros Hl [v Hv] Hl' [v' Hv']. unfold put_record_internal. cbn [kr_key kr_value].
  replace (len (host_route_to_vec h) >? _) with false by (symmetry; rewrite Z.gtb_ltb; by apply Z.ltb_ge).
  replace (len (auth_kid_to_vec a) >? _) with false by (symmetry; rewrite Z.gtb_ltb; by apply Z.ltb_ge).
  rewrite Hv, Hv'.
  assert (Hf : forall n, field v n = bool_decide (bs n ∈ map bs ["host_id"; "current_peer_id"; "kyn"; "host_signature"]%string))
    by (intros n; by apply host_route_fields with (h := h)).
  assert (Hf' : forall n, field v' n = bool_decide (bs n ∈ map bs ["name"; "kid_doc"; "owner_signature"]%string))
    by (intros n; by apply auth_kid_fields with (a := a)).
  unfold dispatch. rewrite !Hf, !Hf'. split; [|done].
  destruct (envelope_from_value v) as [e|] eqn:Ee; [|done].
  apply envelope_requires_proof in Ee. change (field v "vdf_proof" = true) in Ee.
  rewrite Hf in Ee. discriminate.
Qed.

End Dispatch.


(** ** Concrete instances for the witnesses *)

Module ToyDht.

(** An unbounded cache and an unbounded memory store; JSON values are byte
    strings whose first byte tells the record type. *)
Definition lru : LruCache := {|
  Lru V := gmap bytes V;
  lru_new _ _ := ∅;
  lru_get _ c k := (c, c !! k);
  lru_peek _ c k := c !! k;
  lru_contains _ c k := bool_decide (is_Some (c !! k));
  lru_push V c k v := (<[k := v]> (c : gmap bytes V), None);
  lru_pop V c k := delete k (c : gmap bytes V);
  lru_iter V c := map_to_list (c : gmap bytes V) |}.

Lemma lru_laws : @LruLaws lru.
Proof.
  refine {| lru_view := fun V (c : @Lru lru V) => (c : gmap bytes V) |}; try done.
  intros V c k v. cbn. apply elem_of_map_to_list.
Defined.

Definition mem : KadMemory := {|
  Mem := gmap bytes bytes; mem_with_config := ∅; mem_get m k := m !! k;
  mem_put m k v := Some (<[k := v]> m); mem_remove m k := delete k m |}.

Lemma mem_laws : @KadMemoryLaws mem.
Proof.
  split; cbn; intros.
  - simplify_eq. case_decide; [subst; apply lookup_insert_eq|by apply lookup_insert_ne].
  - case_decide; [subst; apply lookup_delete_eq|by apply lookup_delete_ne].
Qed.

Definition fields_of (b : bytes) : list string :=
  match head b with
  | Some 1 => ["hash"]
  | Some 2 => ["name"; "latest_kyn"; "owner_signature"]
  | Some 3 => ["host_id"; "current_peer_id"; "kyn"; "host_signature"]
  | Some 4 => ["name"; "kid_doc"; "owner_signature"]
  | _ => []
  end%string.

Definition serde : Serde := {|
  Json := bytes;
  json_from_slice b := match b with [] => None | _ => Some b end;
  json_has v f := bool_decide (f ∈ map bs (fields_of v));
  commitment_from_value v := Some (tail v);
  envelope_from_value _ := None;
  heartbeat_from_value v := Some (MkHeartbeat (tail v) 0 [] None);
  auth_kid_from_value _ := None; auth_manifest_from_value _ := None; host_route_from_value _ := None;
  envelope_from_slice _ := None; envelope_to_vec _ := None |}.

Definition derived : @SerdeDerived serde.
Proof.
  refine {| host_route_to_vec := fun _ : HostRoute => [3] : bytes;
            auth_kid_to_vec := fun _ : AuthorizedKid => [4] : bytes |}.
  - by intros h v f [= <-].
  - by intros a v f [= <-].
  - done.
Defined.

Definition stored_json : StoredJson :=
  {| auth_kid_from_slice _ := None; auth_manifest_from_slice _ := None |}.

Definition reveal (kyn its : Z) (pk : bytes) : Reveal :=
  MkReveal 1 (bs "alexander.kin") [] [] kyn [] its [] pk [] None None.

(** A store that knows the name, owned by [\[2\]], last heard of at [hb]. *)
Definition store (hb now : Z) (rate : nat) : @KineticRecordStore (wasm_engine true) lru mem :=
  @MkStore (wasm_engine true) lru mem (∅ : gmap bytes bytes) wasm_new
    ({[bs "alexander.kin" := Standard (reveal 100 1000 [2])]} : gmap bytes NameEnvelope)
    {[bs "alexander.kin" := hb]} (∅ : gmap bytes (list Z)) now rate [].

Definition put_reveal (s : @KineticRecordStore (wasm_engine true) lru mem) (r : Reveal) :=
  @handle_put_record ascii_only ToyStore.short_sha2 ToyStore.yes_mldsa toy_beacon_codecs toy_jcs
    ToyStore.yes_beacon ToyStore.yes_vdf (wasm_engine true) serde lru mem false (toy_salt 1) None
    0 s (Standard r) true.

(** The tie-break: the same effort within the first hundred kyns. *)
Example tie_won : (put_reveal (store 150 200 10) (reveal 160 1000 [1])).2 = Ok tt.
Proof. vm_compute. reflexivity. Qed.
Example tie_lost : (put_reveal (store 150 200 10) (reveal 160 1000 [3])).2 = Err TieBroken.
Proof. vm_compute. reflexivity. Qed.
Example short_reveal_rejected : (put_reveal (store 150 200 10) (reveal 160 2865837960 [1])).2 = Err InsufficientIterations.
Proof. vm_compute. reflexivity. Qed.
Example replayed : (put_reveal (store 150 200 10) (reveal 99 1000 [2])).2 = Err StaleReveal.
Proof. vm_compute. reflexivity. Qed.
Example limited : (put_reveal (store 150 200 0) (reveal 160 1000 [1])).2 = Err RateLimited.
Proof. vm_compute. reflexivity. Qed.

End ToyDht.

Lemma put_record_ownership_witness :
  @takeover_earned ascii_only (wasm_engine true) ToyDht.lru ToyDht.mem false (ToyDht.store 150 200 10)
    (ToyDht.reveal 100 1000 [2]) (ToyDht.reveal 160 1000 [1]).
Proof.
  pose proof (@put_record_ownership ascii_only ToyStore.short_sha2 ToyStore.yes_mldsa toy_beacon_codecs
    toy_jcs ToyStore.yes_beacon ToyStore.yes_vdf (wasm_engine true) ToyDht.serde ToyDht.lru ToyDht.mem
    ToyDht.lru_laws false (toy_salt 1) None 0 (ToyDht.store 150 200 10) (ToyDht.reveal 160 1000 [1]) true
    _ (Ok tt) (pair_of_snd _ _ ltac:(vm_compute; reflexivity))) as T.
  destruct T as (_ & _ & _ & H).
  destruct (H (ToyDht.reveal 100 1000 [2])) as [[C _]|[_ T]]; [reflexivity|discriminate C|exact T].
Defined.

Lemma rate_limited_takeover_deletes_witness :
  @name_record (wasm_engine true) ToyDht.serde ToyDht.lru ToyDht.mem ToyDht.lru_laws
    (ToyDht.put_reveal (ToyDht.store 150 200 0) (ToyDht.reveal 160 1000 [1])).1 (rv_name (ToyDht.reveal 160 1000 [1]))
  = Some (Standard (ToyDht.reveal 100 1000 [2])).
Proof.
  pose proof (@rate_limited_takeover_deletes ascii_only ToyStore.short_sha2 ToyStore.yes_mldsa
    toy_beacon_codecs toy_jcs ToyStore.yes_beacon ToyStore.yes_vdf (wasm_engine true) ToyDht.serde
    ToyDht.lru ToyDht.mem ToyDht.lru_laws false (toy_salt 1) None 0 (ToyDht.store 150 200 0)
    (ToyDht.reveal 160 1000 [1]) true
    (ToyDht.put_reveal (ToyDht.store 150 200 0) (ToyDht.reveal 160 1000 [1])).1
    (ToyDht.reveal 100 1000 [2]) eq_refl) as T.
  specialize (T ltac:(discriminate)). specialize (T (pair_of_snd _ _ ltac:(vm_compute; reflexivity))). exact (proj1 T).
Defined.

Lemma heartbeat_advances_by_owner_witness :
  let h := MkHeartbeat (bs "alexander.kin") 202 [9] None in
  150 < latest_kyn h <= wadd64 200 2.
Proof.
  destruct (@heartbeat_advances_by_owner ToyStore.yes_mldsa toy_beacon_codecs toy_jcs (wasm_engine true)
    ToyDht.serde ToyDht.lru ToyDht.mem ToyDht.lru_laws (toy_salt 1) (ToyDht.store 150 200 10)
    (MkHeartbeat (bs "alexander.kin") 202 [9] None) _ (Ok tt) eq_refl) as [_ [[H _]|[H _]]];
    [discriminate H|exact H].
Defined.

Lemma put_ignores_key_witness :
  exists s2, @put ascii_only ToyStore.short_sha2 ToyStore.yes_mldsa toy_beacon_codecs toy_jcs
      ToyStore.yes_beacon ToyStore.yes_vdf (wasm_engine true) toy_peer_ids toy_ed25519 ToyDht.stored_json
      ToyDht.serde ToyDht.lru ToyDht.mem false (toy_salt 1) None 0 (ToyDht.store 150 200 10)
      (MkKadRecord (bs "key of another name") [1; 7]) = (s2, Ok tt) /\
    @rs_get (wasm_engine true) ToyDht.lru ToyDht.mem s2 (bs "key of another name") = Some [1; 7].
Proof.
  eapply (@put_ignores_key ascii_only ToyStore.short_sha2 ToyStore.yes_mldsa toy_beacon_codecs toy_jcs
      ToyStore.yes_beacon ToyStore.yes_vdf (wasm_engine true) toy_peer_ids toy_ed25519 ToyDht.stored_json
      ToyDht.serde ToyDht.lru ToyDht.mem ToyDht.lru_laws ToyDht.mem_laws false (toy_salt 1) None 0
      (ToyDht.store 150 200 10) (bs "own key") (bs "key of another name") [1; 7]);
    [reflexivity|by intros parsed [= <-]|reflexivity].
Defined.

Lemma duplicate_heartbeat_unverified_witness :
  exists s', @put ascii_only ToyStore.short_sha2 ToyStore.yes_mldsa toy_beacon_codecs toy_jcs
      ToyStore.yes_beacon ToyStore.yes_vdf (wasm_engine true) toy_peer_ids toy_ed25519 ToyDht.stored_json
      ToyDht.serde ToyDht.lru ToyDht.mem false (toy_salt 1) None 0 (ToyDht.store 150 200 10)
      (MkKadRecord (bs "any") [2; 7]) = (s', Ok tt) /\
    @rs_get (wasm_engine true) ToyDht.lru ToyDht.mem s' (bs "any") = Some [2; 7].
Proof.
  edestruct (@duplicate_heartbeat_unverified ascii_only ToyStore.short_sha2 ToyStore.yes_mldsa
      toy_beacon_codecs toy_jcs ToyStore.yes_beacon ToyStore.yes_vdf (wasm_engine true) toy_peer_ids
      toy_ed25519 ToyDht.stored_json ToyDht.serde ToyDht.lru ToyDht.mem ToyDht.mem_laws
      false (toy_salt 1) None 0 (ToyDht.store 150 200 10) (bs "any") [2; 7] [2; 7]
      (MkHeartbeat [7] 0 [] None)) as (s' & H1 & H2 & _);
    [discriminate|reflexivity|repeat constructor|reflexivity|reflexivity|reflexivity|reflexivity|].
  exists s'. split; [exact H1|exact H2].
Defined.

Lemma prune_spec_witness :
  let s' := @prune ascii_only ToyStore.short_sha2 (wasm_engine true) ToyDht.lru ToyDht.mem (toy_salt 1)
              (ToyDht.store 150 300000 10) in
  @last_heartbeats_by_name (wasm_engine true) ToyDht.lru ToyDht.mem s' !! bs "alexander.kin" = None.
Proof.
  apply (@prune_spec ascii_only ToyStore.short_sha2 (wasm_engine true) ToyDht.lru ToyDht.mem
    ToyDht.lru_laws ToyDht.mem_laws (toy_salt 1) (ToyDht.store 150 300000 10) (bs "alexander.kin")
    (Standard (ToyDht.reveal 100 1000 [2]))). reflexivity.
Defined.

Lemma host_routes_and_kids_undeliverable_witness :
  @put_record_internal ascii_only ToyStore.short_sha2 ToyStore.yes_mldsa toy_beacon_codecs toy_jcs
      ToyStore.yes_beacon ToyStore.yes_vdf (wasm_engine true) toy_peer_ids toy_ed25519 ToyDht.stored_json
      ToyDht.serde ToyDht.lru ToyDht.mem false (toy_salt 1) None 0 (ToyDht.store 150 200 10)
      (MkKadRecord [] [3]) false = (ToyDht.store 150 200 10, Err SchemaValidationError).
Proof.
  apply (@host_routes_and_kids_undeliverable ascii_only ToyStore.short_sha2 ToyStore.yes_mldsa
      toy_beacon_codecs toy_jcs ToyStore.yes_beacon ToyStore.yes_vdf (wasm_engine true) toy_peer_ids
      toy_ed25519 ToyDht.stored_json ToyDht.serde ToyDht.lru ToyDht.mem ToyDht.derived false (toy_salt 1)
      None 0 (ToyDht.store 150 200 10) [] (MkHostRoute [] [] 0 [])
      (MkAuthorizedKid [] toy_doc []) false);
    [discriminate|by eexists|discriminate|by eexists].
Defined.
