(* ===== verification/EventLoop.v ===== *)
(** * The network event loop ([kinetic-network/src/event_loop])

    [reactor.rs], [command_handler.rs], [swarm_handler.rs] and [handlers/]: the
    queries in flight with the callers that wait for them, the verification
    tasks and their loopback messages, the strikes and bans of peers, and the
    validation of gossip.  The libp2p swarm is the environment: the events it
    raises are the steps of the loop, the calls the loop makes on it are
    logged, and it supplies fresh query and request ids. *)
From Stdlib Require Import String.
From S2P Require Import Prelude Sorting Bytes Config Crypto Kyn Names Physics Net Kid Records Action Verify Lru Peers DnsTree Storage StoreVerify TieBreaker Store.
#[local] Open Scope Z_scope.

(** ** Data *)

(** A [oneshot::Sender], by identity. *)
Notation Responder := nat.
(** A [kad::QueryId] or an [OutboundRequestId]. *)
Notation QueryId := nat.

Inductive QueryType := QGet (name : bytes) | QQuorum (name : bytes) | QPut (name : bytes).

#[export] Instance QueryType_eq_dec : EqDecision QueryType.
Proof. solve_decision. Defined.

Record PendingGet := MkPendingGet {
  pg_responders : list Responder;
  pg_expected_responses : Z;
  pg_received_payloads : list bytes;
  pg_peers_queried : Z }.

Record PendingQuorum := MkPendingQuorum {
  pq_responder : Responder;
  pq_expected_responses : Z;
  pq_target_payload : bytes;
  pq_match_count : Z }.

Record PendingPut := MkPendingPut {
  pu_responder : Responder;
  pu_expected_responses : Z;
  pu_success_count : Z }.

Inductive ResolutionError := Offline | NotFound (name : bytes) (peers_queried : Z).
Inductive PublishError := PublishRejected | AllFailed (count : Z).
Inductive NetworkClientError := ClientOther | GossipSubError.

(** [client/types.rs]: the request is a structure the loop only forwards. *)
Inductive ProxyError := PxTimeout | PxOffline | PxConnectionClosed | PxUnsupportedProtocols | PxChannelClosed | PxOther.

Record ProxyRequest := MkProxyRequest { px_method : bytes; px_path : bytes; px_headers : list (bytes * bytes); px_body : bytes }.
Record ProxyResponse := MkProxyResponse { px_status : Z; px_res_headers : list (bytes * bytes); px_res_body : bytes }.
Definition proxy_is_success (r : ProxyResponse) : bool := (200 <=? px_status r) && (px_status r <? 300).

Inductive NatStatus := NatUnknown | NatPublic | NatRelayed.

(** What is sent to a responder. *)
Inductive Reply :=
  | RpGet (r : Result ResolutionError bytes)
  | RpQuorum (r : Result NetworkClientError Z)
  | RpPut (r : Result PublishError unit)
  | RpKyn (kyn : Z)
  | RpUnit (r : Result NetworkClientError unit)
  | RpProxy (r : Result ProxyError ProxyResponse)
  | RpSync (r : Result ProxyError (list SignedNetworkAction))
  | RpStatus (connected : nat) (nat_status : NatStatus)
  | RpStrings (l : list bytes)
  | RpBanned (l : list (bytes * Z)).

(** The calls on the swarm whose effect lies outside the node. *)
Inductive SwarmCall :=
  | CallGetRecord (id : QueryId) (key : bytes)
  | CallPutRecord (id : QueryId) (r : KadRecord)
  | CallCdnRequest (id : QueryId) (peer name : bytes)
  | CallCdnResponse (record : option bytes)
  | CallStartProviding (key : bytes)
  | CallReportValidation (message_id source : bytes) (acceptance : option bool)
  | CallDisconnect (peer : bytes)
  | CallBootstrap
  | CallDial (target : bytes)
  | CallAddAddress (peer addr : bytes)
  | CallRemovePeer (peer : bytes)
  | CallIdentifyPush (peer : bytes)
  | CallAddExternalAddress (addr : bytes)
  | CallProxyRequest (id : QueryId) (peer : bytes) (req : ProxyRequest)
  | CallProxyResponse (channel : nat) (res : ProxyResponse)
  | CallIncomingProxy (channel : nat) (req : ProxyRequest)
  | CallSyncRequest (id : QueryId) (peer : bytes)
  | CallSyncResponse (channel : nat) (actions : list SignedNetworkAction)
  | CallDeliverGossip (topic payload message_id source : bytes)
  | CallSubscribe (topic : bytes)
  | CallPublish (topic payload : bytes).

Inductive LoopbackCommand :=
  | CommitVerifiedRecord (source : bytes) (record : KadRecord) (verdict : Result KineticStoreError unit)
  | CommitGossipValidation (message_id source : bytes) (is_valid : option bool)
  | ConnectionPoWVerified (peer_id : bytes) (valid_client is_bootstrap : bool)
  | DialResolvedSeed (addr : bytes)
  | CdnResolutionVerified (domain record_bytes peer : bytes).

(** The asynchronous tasks the handlers spawn, with what they capture. *)
Inductive Task :=
  | TaskResolve (name : bytes) (payloads : list bytes) (current_kyn : Z)
      (local_fallback : option bytes) (responders : list Responder) (peers_q : Z)
  | TaskVerify (source : bytes) (record : KadRecord) (reveal : Reveal) (current_kyn : Z)
  | TaskCdn (domain record_bytes peer : bytes) (reveal : Reveal) (current_kyn : Z)
  | TaskGossip (message_id source topic payload : bytes)
  | TaskPruneBans (current_kyn : Z)
  | TaskPoW (peer : bytes) (current_kyn : Z) (is_bootstrap : bool)
  | TaskSeeds (domains : list bytes) (disable_challenge : bool).

(** [serde_json] at the types the loop parses. *)
Class ReactorJson `{Serde} := {
  reveal_from_value : Json -> option Reveal;
  raw_kyn_from_slice : bytes -> option RawKyn;
  action_from_slice : bytes -> option SignedNetworkAction }.

(** [PeerId]'s [Display] and [FromStr] (of a string: bytes that are no UTF-8
    are refused), and the prefix of the storage keys of bans. *)
Class PeerStrings := {
  peer_to_string : bytes -> bytes;
  peer_from_str : bytes -> option bytes;
  DB_PREFIX_BANNED_PEER : bytes }.

Class PeerStringsLaws `{PeerStrings} := { peer_str_round p : peer_from_str (peer_to_string p) = Some p }.

(** [kad::Behaviour::put_record]: whether it starts a query, and the store
    afterwards. *)
Class KadBehaviour `{StorageEngine, LruCache, KadMemory} :=
  kad_put_record : Z -> KineticRecordStore -> KadRecord -> KineticRecordStore * bool.

(** What the swarm answers: its peers and topics, whether it accepts a gossip
    call, and the peers it was able to disconnect. *)
Record SwarmInfo := MkSwarmInfo {
  num_peers : nat;
  connected_peers : list bytes;
  gossip_topics : list bytes;
  gossip_ok : bool;
  disconnected : list bytes }.

Section State.
Context {HSto : StorageEngine} {HLru : LruCache} {HMem : KadMemory} {HAddr : Multiaddrs}.

(** The request-response protocols other than the CDN. *)
Record Requests := MkRequests {
  pending_proxy_requests : gmap QueryId Responder;
  pending_action_sync_requests : gmap QueryId Responder;
  el_action_log : list SignedNetworkAction;
  incoming_proxy : bool;
  incoming_gossip : bool;
  proxy_cdn_usage : Z }.

(** What the loop knows of its peers. *)
Record PeerState := MkPeerState {
  peer_registry : PeerRegistry;
  bootstrap_nodes : list MAddr;
  seed_domain : list bytes;
  bootstrap_peers : gset bytes;
  bootstrap_connection_time : gmap bytes Z;
  disable_challenge : bool;
  nat_status : NatStatus }.

Record NetworkEventLoop := MkLoop {
  el_store : KineticRecordStore;
  pending_gets : gmap bytes PendingGet;
  pending_quorums : gmap bytes PendingQuorum;
  pending_puts : gmap bytes PendingPut;
  pending_reveals : gmap QueryId (bytes * KadRecord);
  query_id_to_name : gmap QueryId QueryType;
  pending_cdn_requests : gmap QueryId bytes;
  requests : Requests;
  peers : PeerState;
  bad_vdf_counts : Lru (Z * Z);
  banned_peers : Lru Z;
  el_current_kyn : Z;
  gossip_permits : nat;
  next_id : QueryId;
  tasks : list Task;
  loopback : list LoopbackCommand;
  replies : list (Responder * Reply);
  swarm_log : list SwarmCall }.

(** One field replaced. *)
Definition set_el_store (x : KineticRecordStore) (e : NetworkEventLoop) : NetworkEventLoop :=
  MkLoop x (pending_gets e) (pending_quorums e) (pending_puts e) (pending_reveals e)
    (query_id_to_name e) (pending_cdn_requests e) (requests e) (peers e) (bad_vdf_counts e)
    (banned_peers e) (el_current_kyn e) (gossip_permits e) (next_id e) (tasks e) (loopback
    e) (replies e) (swarm_log e).
Definition set_pending_gets (x : gmap bytes PendingGet) (e : NetworkEventLoop) : NetworkEventLoop :=
  MkLoop (el_store e) x (pending_quorums e) (pending_puts e) (pending_reveals e)
    (query_id_to_name e) (pending_cdn_requests e) (requests e) (peers e) (bad_vdf_counts e)
    (banned_peers e) (el_current_kyn e) (gossip_permits e) (next_id e) (tasks e) (loopback
    e) (replies e) (swarm_log e).
Definition set_pending_quorums (x : gmap bytes PendingQuorum) (e : NetworkEventLoop) : NetworkEventLoop :=
  MkLoop (el_store e) (pending_gets e) x (pending_puts e) (pending_reveals e)
    (query_id_to_name e) (pending_cdn_requests e) (requests e) (peers e) (bad_vdf_counts e)
    (banned_peers e) (el_current_kyn e) (gossip_permits e) (next_id e) (tasks e) (loopback
    e) (replies e) (swarm_log e).
Definition set_pending_puts (x : gmap bytes PendingPut) (e : NetworkEventLoop) : NetworkEventLoop :=
  MkLoop (el_store e) (pending_gets e) (pending_quorums e) x (pending_reveals e)
    (query_id_to_name e) (pending_cdn_requests e) (requests e) (peers e) (bad_vdf_counts e)
    (banned_peers e) (el_current_kyn e) (gossip_permits e) (next_id e) (tasks e) (loopback
    e) (replies e) (swarm_log e).
Definition set_pending_reveals (x : gmap QueryId (bytes * KadRecord)) (e : NetworkEventLoop) : NetworkEventLoop :=
  MkLoop (el_store e) (pending_gets e) (pending_quorums e) (pending_puts e) x
    (query_id_to_name e) (pending_cdn_requests e) (requests e) (peers e) (bad_vdf_counts e)
    (banned_peers e) (el_current_kyn e) (gossip_permits e) (next_id e) (tasks e) (loopback
    e) (replies e) (swarm_log e).
Definition set_query_id_to_name (x : gmap QueryId QueryType) (e : NetworkEventLoop) : NetworkEventLoop :=
  MkLoop (el_store e) (pending_gets e) (pending_quorums e) (pending_puts e) (pending_reveals
    e) x (pending_cdn_requests e) (requests e) (peers e) (bad_vdf_counts e) (banned_peers e)
    (el_current_kyn e) (gossip_permits e) (next_id e) (tasks e) (loopback e) (replies e)
    (swarm_log e).
Definition set_pending_cdn_requests (x : gmap QueryId bytes) (e : NetworkEventLoop) : NetworkEventLoop :=
  MkLoop (el_store e) (pending_gets e) (pending_quorums e) (pending_puts e) (pending_reveals
    e) (query_id_to_name e) x (requests e) (peers e) (bad_vdf_counts e) (banned_peers e)
    (el_current_kyn e) (gossip_permits e) (next_id e) (tasks e) (loopback e) (replies e)
    (swarm_log e).
Definition set_requests (x : Requests) (e : NetworkEventLoop) : NetworkEventLoop :=
  MkLoop (el_store e) (pending_gets e) (pending_quorums e) (pending_puts e) (pending_reveals
    e) (query_id_to_name e) (pending_cdn_requests e) x (peers e) (bad_vdf_counts e)
    (banned_peers e) (el_current_kyn e) (gossip_permits e) (next_id e) (tasks e) (loopback
    e) (replies e) (swarm_log e).
Definition set_peers (x : PeerState) (e : NetworkEventLoop) : NetworkEventLoop :=
  MkLoop (el_store e) (pending_gets e) (pending_quorums e) (pending_puts e) (pending_reveals
    e) (query_id_to_name e) (pending_cdn_requests e) (requests e) x (bad_vdf_counts e)
    (banned_peers e) (el_current_kyn e) (gossip_permits e) (next_id e) (tasks e) (loopback
    e) (replies e) (swarm_log e).
Definition set_bad_vdf_counts (x : Lru (Z * Z)) (e : NetworkEventLoop) : NetworkEventLoop :=
  MkLoop (el_store e) (pending_gets e) (pending_quorums e) (pending_puts e) (pending_reveals
    e) (query_id_to_name e) (pending_cdn_requests e) (requests e) (peers e) x (banned_peers
    e) (el_current_kyn e) (gossip_permits e) (next_id e) (tasks e) (loopback e) (replies e)
    (swarm_log e).
Definition set_banned_peers (x : Lru Z) (e : NetworkEventLoop) : NetworkEventLoop :=
  MkLoop (el_store e) (pending_gets e) (pending_quorums e) (pending_puts e) (pending_reveals
    e) (query_id_to_name e) (pending_cdn_requests e) (requests e) (peers e) (bad_vdf_counts
    e) x (el_current_kyn e) (gossip_permits e) (next_id e) (tasks e) (loopback e) (replies
    e) (swarm_log e).
Definition set_el_current_kyn (x : Z) (e : NetworkEventLoop) : NetworkEventLoop :=
  MkLoop (el_store e) (pending_gets e) (pending_quorums e) (pending_puts e) (pending_reveals
    e) (query_id_to_name e) (pending_cdn_requests e) (requests e) (peers e) (bad_vdf_counts
    e) (banned_peers e) x (gossip_permits e) (next_id e) (tasks e) (loopback e) (replies e)
    (swarm_log e).
Definition set_gossip_permits (x : nat) (e : NetworkEventLoop) : NetworkEventLoop :=
  MkLoop (el_store e) (pending_gets e) (pending_quorums e) (pending_puts e) (pending_reveals
    e) (query_id_to_name e) (pending_cdn_requests e) (requests e) (peers e) (bad_vdf_counts
    e) (banned_peers e) (el_current_kyn e) x (next_id e) (tasks e) (loopback e) (replies e)
    (swarm_log e).
Definition set_next_id (x : QueryId) (e : NetworkEventLoop) : NetworkEventLoop :=
  MkLoop (el_store e) (pending_gets e) (pending_quorums e) (pending_puts e) (pending_reveals
    e) (query_id_to_name e) (pending_cdn_requests e) (requests e) (peers e) (bad_vdf_counts
    e) (banned_peers e) (el_current_kyn e) (gossip_permits e) x (tasks e) (loopback e)
    (replies e) (swarm_log e).
Definition set_tasks (x : list Task) (e : NetworkEventLoop) : NetworkEventLoop :=
  MkLoop (el_store e) (pending_gets e) (pending_quorums e) (pending_puts e) (pending_reveals
    e) (query_id_to_name e) (pending_cdn_requests e) (requests e) (peers e) (bad_vdf_counts
    e) (banned_peers e) (el_current_kyn e) (gossip_permits e) (next_id e) x (loopback e)
    (replies e) (swarm_log e).
Definition set_loopback (x : list LoopbackCommand) (e : NetworkEventLoop) : NetworkEventLoop :=
  MkLoop (el_store e) (pending_gets e) (pending_quorums e) (pending_puts e) (pending_reveals
    e) (query_id_to_name e) (pending_cdn_requests e) (requests e) (peers e) (bad_vdf_counts
    e) (banned_peers e) (el_current_kyn e) (gossip_permits e) (next_id e) (tasks e) x
    (replies e) (swarm_log e).
Definition set_replies (x : list (Responder * Reply)) (e : NetworkEventLoop) : NetworkEventLoop :=
  MkLoop (el_store e) (pending_gets e) (pending_quorums e) (pending_puts e) (pending_reveals
    e) (query_id_to_name e) (pending_cdn_requests e) (requests e) (peers e) (bad_vdf_counts
    e) (banned_peers e) (el_current_kyn e) (gossip_permits e) (next_id e) (tasks e)
    (loopback e) x (swarm_log e).
Definition set_swarm_log (x : list SwarmCall) (e : NetworkEventLoop) : NetworkEventLoop :=
  MkLoop (el_store e) (pending_gets e) (pending_quorums e) (pending_puts e) (pending_reveals
    e) (query_id_to_name e) (pending_cdn_requests e) (requests e) (peers e) (bad_vdf_counts
    e) (banned_peers e) (el_current_kyn e) (gossip_permits e) (next_id e) (tasks e)
    (loopback e) (replies e) x.

End State.

(** ** Operations *)

Section Ops.
Context {HUni : UnicodeCase} {HSha : Sha2} {HSig : MlDsa} {HCod : Codecs} {HJcs : Jcs}
  {HBv : BeaconVerify} {HVdf : VdfEngine} {HSto : StorageEngine} {HPeer : PeerIds} {HEd : Ed25519}
  {HJson : StoredJson} {HSerde : Serde} {HUtf : Utf8Lossy} {HLru : LruCache} {HMem : KadMemory}
  {HRes : ResolverJson} {HRea : ReactorJson} {HStr : PeerStrings} {HKad : KadBehaviour}
  {HAddr : Multiaddrs} {HArgon : Argon2} {HSeeds : DnsSeeds}.
Variables (is_dev_mode : bool) (network_salt : bytes) (action : option ActionState)
  (action_config : ActionConfig) (GOSSIP_TOPIC_GLOBAL : bytes).

Definition reply (responder : Responder) (r : Reply) (e : NetworkEventLoop) : NetworkEventLoop :=
  set_replies (replies e ++ [(responder, r)]) e.
Definition call (c : SwarmCall) (e : NetworkEventLoop) : NetworkEventLoop :=
  set_swarm_log (swarm_log e ++ [c]) e.
Definition spawn_task (t : Task) (e : NetworkEventLoop) : NetworkEventLoop :=
  set_tasks (tasks e ++ [t]) e.
Definition send_loopback (c : LoopbackCommand) (e : NetworkEventLoop) : NetworkEventLoop :=
  set_loopback (loopback e ++ [c]) e.
(** The swarm hands out an id. *)
Definition fresh_id (e : NetworkEventLoop) : QueryId * NetworkEventLoop :=
  (next_id e, set_next_id (S (next_id e)) e).

(** *** [command_handler.rs] *)

(** The loop of [enqueue_dht_puts]: [None] when it returned early. *)
Fixpoint put_loop (now : Z) (name payload : bytes) (responder : Responder) (keys : list bytes)
    (expected : Z) (e : NetworkEventLoop) : NetworkEventLoop * option Z :=
  match keys with
  | [] => (e, Some expected)
  | key_bytes :: rest =>
      let record := MkKadRecord key_bytes payload in
      match put is_dev_mode network_salt action now (el_store e) record with
      | (store, Err _) => (reply responder (RpPut (Err PublishRejected)) (set_el_store store e), None)
      | (store, Ok _) =>
          let '(store, started) := kad_put_record now store record in
          let e := set_el_store store e in
          if started then
            let '(query_id, e) := fresh_id e in
            let e := call (CallPutRecord query_id record) e in
            let e := set_query_id_to_name (<[query_id := QPut name]> (query_id_to_name e)) e in
            put_loop now name payload responder rest (expected + 1) e
          else put_loop now name payload responder rest expected e
      end
  end.

Definition enqueue_dht_puts (now : Z) (name : bytes) (keys : list bytes) (payload : bytes)
    (responder : Responder) (e : NetworkEventLoop) : NetworkEventLoop :=
  match pending_puts e !! name with
  | Some _ => reply responder (RpPut (Err PublishRejected)) e
  | None =>
      match put_loop now name payload responder keys 0 e with
      | (e, None) => e
      | (e, Some expected) =>
          if expected >? 0
          then set_pending_puts (<[name := MkPendingPut responder expected 0]> (pending_puts e)) e
          else reply responder (RpPut (Err (AllFailed (len keys)))) e
      end
  end.

Fixpoint dispatch_dht_queries (keys : list bytes) (q : QueryType) (expected : Z) (e : NetworkEventLoop)
  : NetworkEventLoop * Z :=
  match keys with
  | [] => (e, expected)
  | key_bytes :: rest =>
      let '(query_id, e) := fresh_id e in
      let e := call (CallGetRecord query_id key_bytes) e in
      let e := set_query_id_to_name (<[query_id := q]> (query_id_to_name e)) e in
      dispatch_dht_queries rest q (expected + 1) e
  end.

(** The first key the local store holds. *)
Fixpoint local_value (store : KineticRecordStore) (keys : list bytes) : option bytes :=
  match keys with
  | [] => None
  | k :: rest =>
      match rs_get store k with
      | Some value => Some value
      | None => local_value store rest
      end
  end.

Inductive Command :=
  | FetchCurrentKyn (responder : Responder)
  | Bootstrap (responder : Responder)
  | PublishRedundant (name payload : bytes) (responder : Responder)
  | PublishHeartbeat (name payload : bytes) (responder : Responder)
  | ResolveRedundant (name : bytes) (responder : Responder)
  | ResolveHeartbeat (name : bytes) (responder : Responder)
  | VerifyQuorum (name payload : bytes) (responder : Responder)
  | SendProxyRequest (peer : bytes) (req : ProxyRequest) (responder : Responder)
  | SendProxyResponse (channel : nat) (res : ProxyResponse)
  | GetNetworkStatus (responder : Responder)
  | SubscribeGossip (topic : bytes) (responder : Responder)
  | BroadcastGossip (topic payload : bytes) (responder : Responder)
  | ReportGossipValidation (message_id source : bytes) (acceptance : option bool)
  | FetchConnectedPeers (responder : Responder)
  | FetchGossipTopics (responder : Responder)
  | FetchBannedPeers (responder : Responder)
  | SendActionSyncRequest (peer : bytes) (responder : Responder)
  | UpdateActionLog (actions : list SignedNetworkAction).

Definition offline (info : SwarmInfo) : bool := (num_peers info =? 0)%nat.

(** Joining the callers that already wait for the name. *)
Definition join_get (name : bytes) (p : PendingGet) (responder : Responder) (e : NetworkEventLoop)
  : NetworkEventLoop :=
  set_pending_gets (<[name := MkPendingGet (pg_responders p ++ [responder]) (pg_expected_responses p)
    (pg_received_payloads p) (pg_peers_queried p)]> (pending_gets e)) e.

Definition start_get (name : bytes) (keys : list bytes) (responder : Responder) (e : NetworkEventLoop)
  : NetworkEventLoop :=
  let '(e, expected) := dispatch_dht_queries keys (QGet name) 0 e in
  set_pending_gets (<[name := MkPendingGet [responder] expected [] expected]> (pending_gets e)) e.

(** The CDN requests to at most three connected peers. *)
Fixpoint race_cdn (name : bytes) (peers : list bytes) (e : NetworkEventLoop) : NetworkEventLoop :=
  match peers with
  | [] => e
  | peer :: rest =>
      let '(req_id, e) := fresh_id e in
      let e := call (CallCdnRequest req_id peer name) e in
      race_cdn name rest (set_pending_cdn_requests (<[req_id := name]> (pending_cdn_requests e)) e)
  end.

Definition set_proxy_requests (m : gmap QueryId Responder) (e : NetworkEventLoop) : NetworkEventLoop :=
  let r := requests e in
  set_requests (MkRequests m (pending_action_sync_requests r) (el_action_log r)
    (incoming_proxy r) (incoming_gossip r) (proxy_cdn_usage r)) e.
Definition set_sync_requests (m : gmap QueryId Responder) (e : NetworkEventLoop) : NetworkEventLoop :=
  let r := requests e in
  set_requests (MkRequests (pending_proxy_requests r) m (el_action_log r)
    (incoming_proxy r) (incoming_gossip r) (proxy_cdn_usage r)) e.
Definition set_action_log (l : list SignedNetworkAction) (e : NetworkEventLoop) : NetworkEventLoop :=
  let r := requests e in
  set_requests (MkRequests (pending_proxy_requests r) (pending_action_sync_requests r) l
    (incoming_proxy r) (incoming_gossip r) (proxy_cdn_usage r)) e.
Definition count_cdn_usage (e : NetworkEventLoop) : NetworkEventLoop :=
  let r := requests e in
  set_requests (MkRequests (pending_proxy_requests r) (pending_action_sync_requests r) (el_action_log r)
    (incoming_proxy r) (incoming_gossip r) (proxy_cdn_usage r + 1)) e.

Definition gossip_result (info : SwarmInfo) : Result NetworkClientError unit :=
  if gossip_ok info then Ok tt else Err GossipSubError.

Definition hb_name_of (name : bytes) : bytes := bs "hb:" ++ name.

Definition handle_command (now : Z) (info : SwarmInfo) (command : Command) (e : NetworkEventLoop)
  : NetworkEventLoop :=
  match command with
  | FetchCurrentKyn responder => reply responder (RpKyn (el_current_kyn e)) e
  | Bootstrap responder =>
      let e := fold_left (fun e peer => call (CallDial peer) e) (elements (bootstrap_peers (peers e)))
                 (call CallBootstrap e) in
      reply responder (RpUnit (Ok tt)) e
  | PublishRedundant name payload responder =>
      enqueue_dht_puts now name (derive_storage_keys name network_salt) payload responder e
  | PublishHeartbeat name payload responder =>
      enqueue_dht_puts now name (derive_heartbeat_keys name network_salt) payload responder e
  | ResolveHeartbeat name responder =>
      if offline info then reply responder (RpGet (Err Offline)) e
      else
        match pending_gets e !! hb_name_of name with
        | Some pending => join_get (hb_name_of name) pending responder e
        | None => start_get (hb_name_of name) (derive_heartbeat_keys name network_salt) responder e
        end
  | ResolveRedundant name responder =>
      let keys := derive_storage_keys name network_salt in
      if offline info then
        match local_value (el_store e) keys with
        | Some value => reply responder (RpGet (Ok value)) e
        | None => reply responder (RpGet (Err Offline)) e
        end
      else
        match pending_gets e !! name with
        | Some pending => join_get name pending responder e
        | None => start_get name keys responder (race_cdn name (take 3 (connected_peers info)) e)
        end
  | VerifyQuorum name payload responder =>
      match pending_quorums e !! name with
      | Some _ => reply responder (RpQuorum (Err ClientOther)) e
      | None =>
          if offline info then reply responder (RpQuorum (Ok 0)) e
          else
            let '(e, expected) :=
              dispatch_dht_queries (derive_storage_keys name network_salt) (QQuorum name) 0 e in
            set_pending_quorums
              (<[name := MkPendingQuorum responder expected payload 0]> (pending_quorums e)) e
      end
  | SendProxyRequest peer req responder =>
      let '(req_id, e) := fresh_id e in
      let e := call (CallProxyRequest req_id peer req) e in
      set_proxy_requests (<[req_id := responder]> (pending_proxy_requests (requests e))) e
  | SendProxyResponse channel res => call (CallProxyResponse channel res) e
  | GetNetworkStatus responder => reply responder (RpStatus (num_peers info) (nat_status (peers e))) e
  | FetchConnectedPeers responder =>
      reply responder (RpStrings (map peer_to_string (connected_peers info))) e
  | FetchGossipTopics responder => reply responder (RpStrings (gossip_topics info)) e
  | FetchBannedPeers responder =>
      reply responder (RpBanned (map (fun p => (peer_to_string p.1, p.2)) (lru_iter (banned_peers e)))) e
  | SubscribeGossip topic responder =>
      reply responder (RpUnit (gossip_result info)) (call (CallSubscribe topic) e)
  | BroadcastGossip topic payload responder =>
      reply responder (RpUnit (gossip_result info)) (call (CallPublish topic payload) e)
  | ReportGossipValidation message_id source acceptance =>
      call (CallReportValidation message_id source acceptance) e
  | SendActionSyncRequest peer responder =>
      let '(req_id, e) := fresh_id e in
      let e := call (CallSyncRequest req_id peer) e in
      set_sync_requests (<[req_id := responder]> (pending_action_sync_requests (requests e))) e
  | UpdateActionLog actions => set_action_log actions e
  end.

(** *** [swarm_handler.rs] *)

(** [expected_responses -= 1] at [usize]. *)
Definition decr (x : Z) : Z := (x - 1) mod 2 ^ 64.

Definition handle_quorum_completion (name : bytes) (e : NetworkEventLoop) : NetworkEventLoop :=
  match pending_quorums e !! name with
  | Some p =>
      let left := decr (pq_expected_responses p) in
      if left =? 0 then
        reply (pq_responder p) (RpQuorum (Ok (pq_match_count p)))
          (set_pending_quorums (delete name (pending_quorums e)) e)
      else
        set_pending_quorums (<[name := MkPendingQuorum (pq_responder p) left (pq_target_payload p)
          (pq_match_count p)]> (pending_quorums e)) e
  | None => e
  end.

Definition handle_get_completion (name : bytes) (e : NetworkEventLoop) : NetworkEventLoop :=
  match pending_gets e !! name with
  | Some p =>
      let left := decr (pg_expected_responses p) in
      if left =? 0 then
        let local_fallback := local_value (el_store e) (derive_storage_keys name network_salt) in
        spawn_task (TaskResolve name (pg_received_payloads p) (el_current_kyn e) local_fallback
          (pg_responders p) (pg_peers_queried p))
          (set_pending_gets (delete name (pending_gets e)) e)
      else
        set_pending_gets (<[name := MkPendingGet (pg_responders p) left (pg_received_payloads p)
          (pg_peers_queried p)]> (pending_gets e)) e
  | None => e
  end.

Definition CHALLENGE_THRESHOLD_BITS : Z := 15.
Definition CHALLENGE_THRESHOLD_BITS_CLIENT : Z := 8.

Definition set_peer_registry (r : PeerRegistry) (e : NetworkEventLoop) : NetworkEventLoop :=
  let p := peers e in
  set_peers (MkPeerState r (bootstrap_nodes p) (seed_domain p) (bootstrap_peers p) (bootstrap_connection_time p)
    (disable_challenge p) (nat_status p)) e.
Definition set_bootstrap_peers (s : gset bytes) (e : NetworkEventLoop) : NetworkEventLoop :=
  let p := peers e in
  set_peers (MkPeerState (peer_registry p) (bootstrap_nodes p) (seed_domain p) s (bootstrap_connection_time p)
    (disable_challenge p) (nat_status p)) e.
Definition set_connection_time (m : gmap bytes Z) (e : NetworkEventLoop) : NetworkEventLoop :=
  let p := peers e in
  set_peers (MkPeerState (peer_registry p) (bootstrap_nodes p) (seed_domain p) (bootstrap_peers p) m
    (disable_challenge p) (nat_status p)) e.
Definition set_nat_status (n : NatStatus) (e : NetworkEventLoop) : NetworkEventLoop :=
  let p := peers e in
  set_peers (MkPeerState (peer_registry p) (bootstrap_nodes p) (seed_domain p) (bootstrap_peers p) (bootstrap_connection_time p)
    (disable_challenge p) n) e.

Definition is_bootstrap (peer_id : bytes) (e : NetworkEventLoop) : bool :=
  bool_decide (peer_id ∈ bootstrap_peers (peers e)).

Definition is_valid_pow (peer_id : bytes) (difficulty : Z) (e : NetworkEventLoop) : bool :=
  if disable_challenge (peers e) then true
  else (el_current_kyn e >? 0) && verify_p2p_challenge is_dev_mode peer_id (el_current_kyn e) difficulty.

(** The ban check of [ConnectionEstablished]: whether the peer is let in. *)
Definition admit_connection (peer_id : bytes) (e : NetworkEventLoop) : NetworkEventLoop * bool :=
  match lru_peek (banned_peers e) peer_id with
  | Some expire_time =>
      if expire_time >? el_current_kyn e then (call (CallDisconnect peer_id) e, false)
      else (set_banned_peers (lru_pop (banned_peers e) peer_id) e, true)
  | None => (e, true)
  end.

Definition handle_connected (now : Z) (peer_id : bytes) (e : NetworkEventLoop) : NetworkEventLoop :=
  let e := set_peer_registry (mark_connected (peer_registry (peers e)) peer_id) e in
  let '(e, admitted) := admit_connection peer_id e in
  if negb admitted then e
  else
    let e := if is_bootstrap peer_id e
             then set_connection_time (<[peer_id := now]> (bootstrap_connection_time (peers e))) e else e in
    if (el_current_kyn e =? 0) && negb (is_bootstrap peer_id e) && negb (disable_challenge (peers e))
    then call (CallDisconnect peer_id) e
    else if disable_challenge (peers e) then e
    else spawn_task (TaskPoW peer_id (el_current_kyn e) (is_bootstrap peer_id e)) e.

(** Twenty-four hours, in nanoseconds. *)
Definition BOOTSTRAP_GRACE : Z := 24 * 3600 * 10 ^ 9.

(** A peer identified itself. *)
Definition handle_identify (now : Z) (peer_id : bytes) (is_server : bool) (listen_addrs : list MAddr)
    (e : NetworkEventLoop) : NetworkEventLoop :=
  let e := set_peer_registry (add_verified_peer (peer_registry (peers e)) peer_id listen_addrs).1 e in
  let is_bootstrap := is_bootstrap peer_id e in
  let expected_diff := if is_server then CHALLENGE_THRESHOLD_BITS else CHALLENGE_THRESHOLD_BITS_CLIENT in
  let pow_valid := is_valid_pow peer_id expected_diff e in
  if negb pow_valid && negb is_bootstrap then call (CallDisconnect peer_id) e
  else if negb pow_valid && is_bootstrap
          && match bootstrap_connection_time (peers e) !! peer_id with
             | Some conn_time => sat_sub now conn_time >? BOOTSTRAP_GRACE
             | None => false
             end
  then call (CallDisconnect peer_id) e
  else
    let e :=
      if disable_challenge (peers e) || pow_valid || is_bootstrap then
        fold_left (fun e addr =>
          if is_routable_multiaddr is_dev_mode (maddr_protocols addr) (disable_challenge (peers e)) is_bootstrap
          then call (CallAddAddress peer_id (maddr_to_vec addr)) e else e) listen_addrs e
      else e in
    call CallBootstrap e.

(** Peers found on the local network. *)
Definition handle_mdns (list : list (bytes * MAddr)) (e : NetworkEventLoop) : NetworkEventLoop :=
  fold_left (fun e pa =>
    if is_valid_pow pa.1 CHALLENGE_THRESHOLD_BITS_CLIENT e || is_bootstrap pa.1 e
    then call (CallAddAddress pa.1 (maddr_to_vec pa.2)) e else e) list e.

Definition handle_closed (peer_id : bytes) (e : NetworkEventLoop) : NetworkEventLoop :=
  call (CallRemovePeer peer_id)
    (set_connection_time (delete peer_id (bootstrap_connection_time (peers e))) e).

Definition handle_connection_error (peer_id : option bytes) (e : NetworkEventLoop) : NetworkEventLoop :=
  match peer_id with Some p => call (CallRemovePeer p) e | None => e end.

(** AutoNAT: [Some a] when the node became public at the address [a]. *)
Definition handle_nat (info : SwarmInfo) (public : option MAddr) (e : NetworkEventLoop) : NetworkEventLoop :=
  match public with
  | Some address =>
      let e := set_nat_status NatPublic (call (CallAddExternalAddress (maddr_to_vec address)) e) in
      fold_left (fun e peer => call (CallIdentifyPush peer) e) (connected_peers info) e
  | None => set_nat_status NatRelayed e
  end.

(** *** Strikes: the block shared by the three handlers *)

Definition STRIKE_WINDOW : Z := 60 * 10 ^ 9.
Definition BAN_KYNS : Z := 28800.

(** The new strike count of a peer. *)
Definition strike (now : Z) (source : bytes) (counts : Lru (Z * Z)) : Lru (Z * Z) * Z :=
  let '(counts, entry) := lru_get counts source in
  let '(count, last_time) := default (0, now) entry in
  let new_val := if sat_sub now last_time >? STRIKE_WINDOW then (1, now) else (count + 1, now) in
  (lru_put counts source new_val, new_val.1).

Definition ban (source : bytes) (e : NetworkEventLoop) : NetworkEventLoop :=
  set_banned_peers (lru_put (banned_peers e) source (wadd64 (el_current_kyn e) BAN_KYNS)) e.

(** [ban_gossip] *)
Definition ban_gossip (now : Z) (source : bytes) (e : NetworkEventLoop) : NetworkEventLoop :=
  let '(counts, n) := strike now source (bad_vdf_counts e) in
  let e := set_bad_vdf_counts counts e in
  if n >=? 3 then ban source e else e.

Definition is_banned (source : bytes) (e : NetworkEventLoop) : bool :=
  bool_decide (is_Some (lru_peek (banned_peers e) source)).

(** The block of [CommitVerifiedRecord]. *)
Definition strike_record (now : Z) (source : bytes) (e : NetworkEventLoop) : NetworkEventLoop :=
  let '(counts, n) := strike now source (bad_vdf_counts e) in
  let e := set_bad_vdf_counts counts e in
  if n >=? 3 then ban source (call (CallDisconnect source) e) else e.

(** The block of an inbound put: the ban is also written to storage. *)
Definition strike_put (now : Z) (source : bytes) (e : NetworkEventLoop) : NetworkEventLoop :=
  let '(counts, n) := strike now source (bad_vdf_counts e) in
  let e := set_bad_vdf_counts counts e in
  if n >=? 3 then
    let e := ban source (call (CallDisconnect source) e) in
    let st := el_store e in
    let d := (sto_put (storage st) (DB_PREFIX_BANNED_PEER ++ peer_to_string source)
                (u64_be (wadd64 (el_current_kyn e) BAN_KYNS))).1 in
    set_el_store (with_storage d st) e
  else e.

Definition is_error_severity (e : KineticStoreError) : bool :=
  match store_error_severity e with SevError => true | _ => false end.

(** *** [handlers/kademlia.rs] *)

Inductive KadEvent :=
  | FoundRecord (id : QueryId) (record : KadRecord)
  | GetFinished (id : QueryId)
  | PutFinished (id : QueryId) (ok : bool)
  | InboundPut (source : bytes) (record : KadRecord).

(** [from_slice::<Value>] then [from_value::<Reveal>] *)
Definition reveal_of_value (value : bytes) : option Reveal :=
  parsed ← json_from_slice value; reveal_from_value parsed.

Definition handle_found (now : Z) (id : QueryId) (record : KadRecord) (e : NetworkEventLoop)
  : NetworkEventLoop :=
  match query_id_to_name e !! id with
  | Some (QQuorum name) =>
      match pending_quorums e !! name with
      | Some p =>
          if bool_decide (kr_value record = pq_target_payload p)
          then set_pending_quorums (<[name := MkPendingQuorum (pq_responder p)
            (pq_expected_responses p) (pq_target_payload p) (pq_match_count p + 1)]> (pending_quorums e)) e
          else e
      | None => e
      end
  | Some (QGet name) =>
      match pending_gets e !! name with
      | Some p => set_pending_gets (<[name := MkPendingGet (pg_responders p)
          (pg_expected_responses p) (pg_received_payloads p ++ [kr_value record])
          (pg_peers_queried p)]> (pending_gets e)) e
      | None => e
      end
  | Some (QPut _) => e
  | None =>
      match pending_reveals e !! id with
      | Some (source, parked_record) =>
          let e := set_pending_reveals (delete id (pending_reveals e)) e in
          let e := set_el_store (put is_dev_mode network_salt action now (el_store e) record).1 e in
          match reveal_of_value (kr_value parked_record) with
          | Some reveal =>
              spawn_task (TaskVerify source parked_record reveal (st_current_kyn (el_store e))) e
          | None => e
          end
      | None => e
      end
  end.

Definition handle_get_finished (id : QueryId) (e : NetworkEventLoop) : NetworkEventLoop :=
  match query_id_to_name e !! id with
  | Some q =>
      let e := set_query_id_to_name (delete id (query_id_to_name e)) e in
      match q with
      | QQuorum name => handle_quorum_completion name e
      | QGet name => handle_get_completion name e
      | QPut _ => e
      end
  | None => set_pending_reveals (delete id (pending_reveals e)) e
  end.

Definition handle_put_finished (id : QueryId) (ok : bool) (e : NetworkEventLoop) : NetworkEventLoop :=
  match query_id_to_name e !! id with
  | None => e
  | Some (QGet _ | QQuorum _) => set_query_id_to_name (delete id (query_id_to_name e)) e
  | Some (QPut name) =>
      let e := set_query_id_to_name (delete id (query_id_to_name e)) e in
      match pending_puts e !! name with
      | None => e
      | Some p =>
          let left := decr (pu_expected_responses p) in
          let success := if ok then pu_success_count p + 1 else pu_success_count p in
          if left =? 0 then
            let e := set_pending_puts (delete name (pending_puts e)) e in
            if success >? 0 then reply (pu_responder p) (RpPut (Ok tt)) e
            else reply (pu_responder p) (RpPut (Err (AllFailed 0))) e
          else set_pending_puts (<[name := MkPendingPut (pu_responder p) left success]> (pending_puts e)) e
      end
  end.

Definition handle_inbound_put (now : Z) (source : bytes) (record : KadRecord) (e : NetworkEventLoop)
  : NetworkEventLoop :=
  match
    (parsed ← json_from_slice (kr_value record);
     if json_has parsed (bs "vdf_proof") then reveal_from_value parsed else None)
  with
  | Some reveal => spawn_task (TaskVerify source record reveal (st_current_kyn (el_store e))) e
  | None =>
      let '(store, put_result) := put is_dev_mode network_salt action now (el_store e) record in
      let e := set_el_store store e in
      match put_result with
      | Err err => if is_error_severity err then strike_put now source e else e
      | Ok _ => e
      end
  end.

Definition handle_kademlia (now : Z) (ev : KadEvent) (e : NetworkEventLoop) : NetworkEventLoop :=
  match ev with
  | FoundRecord id record => handle_found now id record e
  | GetFinished id => handle_get_finished id e
  | PutFinished id ok => handle_put_finished id ok e
  | InboundPut source record => handle_inbound_put now source record e
  end.

(** *** [handlers/cdn.rs] *)

Inductive CdnEvent :=
  | CdnRequest (name : bytes)
  | CdnResponse (request_id : QueryId) (record : option bytes) (peer : bytes)
  | CdnOutboundFailure (request_id : QueryId).

Definition handle_cdn (ev : CdnEvent) (e : NetworkEventLoop) : NetworkEventLoop :=
  match ev with
  | CdnRequest name =>
      count_cdn_usage
        (call (CallCdnResponse (local_value (el_store e) (derive_storage_keys name network_salt))) e)
  | CdnResponse request_id record peer =>
      match pending_cdn_requests e !! request_id with
      | None => e
      | Some domain =>
          let e := set_pending_cdn_requests (delete request_id (pending_cdn_requests e)) e in
          match record with
          | None => e
          | Some record_bytes =>
              match envelope_from_slice record_bytes with
              | Some (Standard reveal) =>
                  spawn_task (TaskCdn domain record_bytes peer reveal (st_current_kyn (el_store e))) e
              | None => e
              end
          end
      end
  | CdnOutboundFailure request_id =>
      set_pending_cdn_requests (delete request_id (pending_cdn_requests e)) e
  end.

(** *** [handlers/proxy.rs] *)

Inductive OutboundFailure := DialFailure | OfTimeout | OfConnectionClosed | UnsupportedProtocols | OfIo.

Inductive ProxyEvent :=
  | ProxyIncoming (req : ProxyRequest) (channel : nat)
  | ProxyAnswer (request_id : QueryId) (response : ProxyResponse)
  | ProxyFailure (request_id : QueryId) (error : OutboundFailure).

Definition proxy_error_of (error : OutboundFailure) : ProxyError :=
  match error with
  | DialFailure => PxOffline
  | OfTimeout => PxTimeout
  | OfConnectionClosed => PxConnectionClosed
  | UnsupportedProtocols => PxUnsupportedProtocols
  | OfIo => PxOther
  end.

(** The answer goes to the caller of the request, who is dropped. *)
Definition answer_proxy (request_id : QueryId) (r : Result ProxyError ProxyResponse) (e : NetworkEventLoop)
  : NetworkEventLoop :=
  match pending_proxy_requests (requests e) !! request_id with
  | Some responder =>
      reply responder (RpProxy r)
        (set_proxy_requests (delete request_id (pending_proxy_requests (requests e))) e)
  | None => e
  end.

Definition handle_proxy (ev : ProxyEvent) (e : NetworkEventLoop) : NetworkEventLoop :=
  match ev with
  | ProxyIncoming req channel =>
      if incoming_proxy (requests e) then call (CallIncomingProxy channel req) e else e
  | ProxyAnswer request_id response => answer_proxy request_id (Ok response) e
  | ProxyFailure request_id error => answer_proxy request_id (Err (proxy_error_of error)) e
  end.

(** *** [handlers/action_sync.rs] *)

Inductive SyncEvent :=
  | SyncRequest (channel : nat)
  | SyncResponse (request_id : QueryId) (actions : list SignedNetworkAction)
  | SyncFailure (request_id : QueryId).

Definition answer_sync (request_id : QueryId) (r : Result ProxyError (list SignedNetworkAction))
    (e : NetworkEventLoop) : NetworkEventLoop :=
  match pending_action_sync_requests (requests e) !! request_id with
  | Some responder =>
      reply responder (RpSync r)
        (set_sync_requests (delete request_id (pending_action_sync_requests (requests e))) e)
  | None => e
  end.

Definition handle_action_sync (ev : SyncEvent) (e : NetworkEventLoop) : NetworkEventLoop :=
  match ev with
  | SyncRequest channel => call (CallSyncResponse channel (el_action_log (requests e))) e
  | SyncResponse request_id actions => answer_sync request_id (Ok actions) e
  | SyncFailure request_id => answer_sync request_id (Err PxOther) e
  end.

(** *** [handlers/gossipsub.rs] *)

(** The blocking part of a gossip task; [None] is the panic on a poisoned lock. *)
Definition gossip_valid (topic payload : bytes) : option bool :=
  if bool_decide (topic = GOSSIP_TOPIC_GLOBAL) then
    match payload with
    | [] => Some false
    | opcode :: actual_payload =>
        if opcode =? opcode_byte OpKyn then
          match raw_kyn_from_slice actual_payload with
          | Some kyn => Some (verify_beacon kyn is_dev_mode)
          | None => Some false
          end
        else if opcode =? opcode_byte OpAction then
          if bool_decide (ACTION_MODEL = bs "permissionless") then Some false
          else
            match action_from_slice actual_payload with
            | Some signed_msg =>
                action_state ← action;
                match sovereign_key action_state action_config with
                | Ok root_key =>
                    Some (existsb (fun sig => verify_sovereign_signature root_key
                      (action_to_bytes signed_msg) sig) (sovereign_signatures signed_msg))
                | Err _ => Some false
                end
            | None => Some false
            end
        else Some false
    end
  else Some true.

(** A gossip message: the permit is taken for the duration of the handler. *)
Definition handle_gossip (message_id source topic payload : bytes) (e : NetworkEventLoop)
  : NetworkEventLoop :=
  match gossip_permits e with
  | O => send_loopback (CommitGossipValidation message_id source None) e
  | S n =>
      let e := set_gossip_permits n e in
      let e := spawn_task (TaskGossip message_id source topic payload) e in
      set_gossip_permits (S (gossip_permits e)) e
  end.

(** *** The tasks *)

(** [name.trim_end_matches('.')] *)
Definition name_clean (name : bytes) : bytes := trim_dots name.

Definition reply_all (responders : list Responder) (r : Reply) (e : NetworkEventLoop) : NetworkEventLoop :=
  fold_left (fun e responder => reply responder r e) responders e.

(** The storage task of the prune branch. *)
Definition prune_bans (current_kyn : Z) (d : Sto) : Sto :=
  match sto_scan_prefix d DB_PREFIX_BANNED_PEER None with
  | Ok items =>
      fold_left (fun d kv =>
        if (len kv.2 =? 8) && (be_val kv.2 <=? current_kyn) then (sto_delete d kv.1).1 else d) items d
  | Err _ => d
  end.

(** The addresses of the seed domains. *)
Definition seed_addrs (domains : list bytes) : list MAddr := concat (map resolve_dns_tree domains).

(** A spawned task runs to its end. *)
Definition run_task (t : Task) (e : NetworkEventLoop) : NetworkEventLoop :=
  match t with
  | TaskResolve name payloads current_kyn local_fallback responders peers_q =>
      match xor_tie_breaker is_dev_mode network_salt action name payloads current_kyn with
      | Some payload => reply_all responders (RpGet (Ok payload)) e
      | None =>
          match local_fallback with
          | Some payload => reply_all responders (RpGet (Ok payload)) e
          | None => reply_all responders (RpGet (Err (NotFound (name_clean name) peers_q))) e
          end
      end
  | TaskVerify source record reveal current_kyn =>
      let verdict := verify_reveal is_dev_mode network_salt action reveal (storage (el_store e)) current_kyn in
      send_loopback (CommitVerifiedRecord source record verdict) e
  | TaskCdn domain record_bytes peer reveal current_kyn =>
      if is_dev_mode
         || is_ok (verify_reveal is_dev_mode network_salt action reveal (storage (el_store e)) current_kyn)
      then send_loopback (CdnResolutionVerified domain record_bytes peer) e
      else e
  | TaskGossip message_id source topic payload =>
      match gossip_valid topic payload with
      | Some is_valid =>
          let e := send_loopback (CommitGossipValidation message_id source (Some is_valid)) e in
          if is_valid && incoming_gossip (requests e)
          then call (CallDeliverGossip topic payload message_id source) e else e
      | None => e
      end
  | TaskPruneBans current_kyn =>
      let st := el_store e in
      set_el_store (with_storage (prune_bans current_kyn (storage st)) st) e
  | TaskPoW peer current_kyn is_bootstrap =>
      let server := verify_p2p_challenge is_dev_mode peer current_kyn CHALLENGE_THRESHOLD_BITS in
      let client := server || verify_p2p_challenge is_dev_mode peer current_kyn CHALLENGE_THRESHOLD_BITS_CLIENT in
      send_loopback (ConnectionPoWVerified peer client is_bootstrap) e
  | TaskSeeds domains disable_challenge =>
      fold_left (fun e addr =>
        if is_routable_multiaddr is_dev_mode (maddr_protocols addr) disable_challenge true
        then send_loopback (DialResolvedSeed (maddr_to_vec addr)) e else e) (seed_addrs domains) e
  end.

(** The scheduler picks a task. *)
Definition run_spawned_task (i : nat) (e : NetworkEventLoop) : NetworkEventLoop :=
  match tasks e !! i with
  | Some t => run_task t (set_tasks (delete i (tasks e)) e)
  | None => e
  end.

(** *** [handle_loopback] *)

Definition handle_loopback (now : Z) (info : SwarmInfo) (cmd : LoopbackCommand) (e : NetworkEventLoop) : NetworkEventLoop :=
  match cmd with
  | CommitVerifiedRecord source record verdict =>
      match verdict with
      | Err (MissingCommitment commit_key) =>
          let '(query_id, e) := fresh_id e in
          let e := call (CallGetRecord query_id commit_key) e in
          set_pending_reveals (<[query_id := (source, record)]> (pending_reveals e)) e
      | Err err => if is_error_severity err then strike_record now source e else e
      | Ok _ =>
          let e := set_el_store (put_verified is_dev_mode network_salt action now (el_store e) record).1 e in
          call (CallStartProviding (kr_key record)) e
      end
  | CommitGossipValidation message_id source is_valid =>
      let e := call (CallReportValidation message_id source is_valid) e in
      match is_valid with
      | Some false =>
          let e := ban_gossip now source e in
          if is_banned source e then call (CallDisconnect source) e else e
      | _ => e
      end
  | ConnectionPoWVerified peer_id valid_client is_bootstrap =>
      if negb valid_client && negb is_bootstrap then call (CallDisconnect peer_id) e else e
  | DialResolvedSeed addr => if (num_peers info <? 20)%nat then call (CallDial addr) e else e
  | CdnResolutionVerified domain record_bytes peer =>
      match envelope_from_slice record_bytes with
      | None => e
      | Some record =>
          match handle_put_record is_dev_mode network_salt action now (el_store e) record true with
          | (store, Err _) => set_el_store store e
          | (store, Ok _) =>
              let e := set_el_store store e in
              match pending_gets e !! domain with
              | Some pending =>
                  reply_all (pg_responders pending) (RpGet (Ok record_bytes))
                    (set_pending_gets (delete domain (pending_gets e)) e)
              | None => e
              end
          end
      end
  end.

Definition receive_loopback (now : Z) (info : SwarmInfo) (e : NetworkEventLoop) : NetworkEventLoop :=
  match loopback e with
  | [] => e
  | cmd :: rest => handle_loopback now info cmd (set_loopback rest e)
  end.

(** The clock branch: time only moves forward. *)
Definition kyn_changed (new_kyn : Z) (e : NetworkEventLoop) : NetworkEventLoop :=
  if new_kyn >? el_current_kyn e then
    let st := el_store e in
    set_el_store (MkStore (inner st) (storage st) (reveals_by_name st) (last_heartbeats_by_name st)
      (accepted_reveals_timestamps st) new_kyn (max_reveals_per_hour st) (spawned st))
      (set_el_current_kyn new_kyn e)
  else e.

(** The redial branch: a lonely node dials its bootstrap nodes and seeds, one
    that is well connected disconnects its bootstrap peers and forgets those the
    swarm was connected to. *)
Definition redial_tick (info : SwarmInfo) (e : NetworkEventLoop) : NetworkEventLoop :=
  if (num_peers info =? 0)%nat then
    let e := fold_left (fun e addr => call (CallDial (maddr_to_vec addr)) e) (bootstrap_nodes (peers e)) e in
    spawn_task (TaskSeeds (seed_domain (peers e)) (disable_challenge (peers e))) e
  else if (20 <? num_peers info)%nat then
    let leaving := filter (fun p => p ∈ disconnected info) (bootstrap_peers (peers e)) in
    let e := fold_left (fun e peer => call (CallDisconnect peer) e) (elements (bootstrap_peers (peers e))) e in
    set_bootstrap_peers (bootstrap_peers (peers e) ∖ leaving) e
  else e.

(** The prune branch. *)
Definition prune_tick (e : NetworkEventLoop) : NetworkEventLoop :=
  spawn_task (TaskPruneBans (el_current_kyn e)) (set_el_store (prune network_salt (el_store e)) e).

(** *** [run]: one turn of the [select!] loop, or a task *)

Inductive Input :=
  | InCommand (info : SwarmInfo) (c : Command)
  | InKademlia (ev : KadEvent)
  | InCdn (ev : CdnEvent)
  | InGossip (message_id source topic payload : bytes)
  | InProxy (ev : ProxyEvent)
  | InSync (ev : SyncEvent)
  | InConnection (peer : bytes)
  | InIdentify (peer : bytes) (is_server : bool) (listen_addrs : list MAddr)
  | InMdns (list : list (bytes * MAddr))
  | InClosed (peer : bytes)
  | InConnectionError (peer : option bytes)
  | InNat (info : SwarmInfo) (public : option MAddr)
  | InLoopback (info : SwarmInfo)
  | InRedial (info : SwarmInfo)
  | InKyn (new_kyn : Z)
  | InPrune
  | InTask (i : nat).

Definition step (now : Z) (i : Input) (e : NetworkEventLoop) : NetworkEventLoop :=
  match i with
  | InCommand info c => handle_command now info c e
  | InKademlia ev => handle_kademlia now ev e
  | InCdn ev => handle_cdn ev e
  | InGossip m s t p => handle_gossip m s t p e
  | InProxy ev => handle_proxy ev e
  | InSync ev => handle_action_sync ev e
  | InConnection peer => handle_connected now peer e
  | InIdentify peer is_server listen_addrs => handle_identify now peer is_server listen_addrs e
  | InMdns list => handle_mdns list e
  | InClosed peer => handle_closed peer e
  | InConnectionError peer => handle_connection_error peer e
  | InNat info public => handle_nat info public e
  | InLoopback info => receive_loopback now info e
  | InRedial info => redial_tick info e
  | InKyn k => kyn_changed k e
  | InPrune => prune_tick e
  | InTask i => run_spawned_task i e
  end.

(** *** [swarm_builder.rs] *)

(** The bans found in storage: the running ones are restored, the expired ones
    deleted. *)
Definition restore_ban (now : Z) (st : Lru Z * Sto) (kv : bytes * bytes) : Lru Z * Sto :=
  let '(peers, d) := st in
  let '(key_bytes, val_bytes) := kv in
  let prefix_len := len DB_PREFIX_BANNED_PEER in
  if len key_bytes >? prefix_len then
    match peer_from_str (drop (length DB_PREFIX_BANNED_PEER) key_bytes) with
    | Some peer_id =>
        if len val_bytes =? 8 then
          if be_val val_bytes >? now then (lru_put peers peer_id (be_val val_bytes), d)
          else (peers, (sto_delete d key_bytes).1)
        else st
    | None => st
    end
  else st.

(** The capacity of the strike and ban caches. *)
Definition PEER_CACHE : nat := Z.to_nat 100000.

Definition restore_bans (now : Z) (d : Sto) : Lru Z * Sto :=
  match sto_scan_prefix d DB_PREFIX_BANNED_PEER None with
  | Ok items => fold_left (restore_ban now) items (lru_new PEER_CACHE, d)
  | Err _ => (lru_new PEER_CACHE, d)
  end.

(** The loop over a store whose storage it shares; a bootstrap node comes with
    the peer its address ends in, if it ends in one.  [channels] tells whether
    somebody takes the proxy requests and the gossip. *)
Definition loop_new (store : KineticRecordStore) (initial_kyn : Z) (nodes : list (MAddr * option bytes))
    (seeds : list bytes) (disable : bool) (channels : bool * bool) : NetworkEventLoop :=
  let '(bans, d) := restore_bans initial_kyn (storage store) in
  let log := concat (map (fun n =>
    match n.2 with Some p => [CallAddAddress p (maddr_to_vec n.1)] | None => [] end
    ++ [CallDial (maddr_to_vec n.1)]) nodes) in
  MkLoop (with_storage d store) ∅ ∅ ∅ ∅ ∅ ∅ (MkRequests ∅ ∅ [] channels.1 channels.2 0)
    (MkPeerState (registry_new 500) (map fst nodes) seeds (list_to_set (omap snd nodes)) ∅ disable NatUnknown)
    (lru_new PEER_CACHE) bans initial_kyn 8 0 [] [] [] log.

(** The first lines of [run]: the addresses of the seed domains are dialled,
    routable or not. *)
Definition loop_start (e : NetworkEventLoop) : NetworkEventLoop :=
  fold_left (fun e addr => call (CallDial (maddr_to_vec addr)) e) (seed_addrs (seed_domain (peers e))) e.

(** The loop when its first turn begins. *)
Definition loop_boot (store : KineticRecordStore) (initial_kyn : Z) (nodes : list (MAddr * option bytes))
    (seeds : list bytes) (disable : bool) (channels : bool * bool) : NetworkEventLoop :=
  loop_start (loop_new store initial_kyn nodes seeds disable channels).

Definition run (inputs : list (Z * Input)) (e : NetworkEventLoop) : NetworkEventLoop :=
  fold_left (fun e x => step x.1 x.2 e) inputs e.

End Ops.
