(* ===== verification/Oracle.v ===== *)
(** * The time oracle ([kinetic-network/src/client/beacon.rs])

    [BeaconProvider]: a kyn is fetched from HTTP endpoints, cached in storage
    and loaded back; and the handlers of a kyn received by gossip in the node
    ([kinetic-node/src/main.rs]) and the daemon
    ([kinetic-daemon/src/services/gossip.rs]), which move the clock of the event
    loop.  The endpoints, the DNS resolver and the JSON codec are interfaces. *)
From Stdlib Require Import String.
From S2P Require Import Prelude Sorting Bytes Config Crypto Kyn Names Physics Net Kid Records Action Verify Lru Peers DnsTree Storage StoreVerify TieBreaker Store EventLoop.
#[local] Open Scope Z_scope.

(** ** [error/kyn_provider.rs] *)

Inductive KynProviderError :=
  | AllEndpointsFailed
  | HttpError (status : Z)
  | NoCachedKyn
  | KpSerde
  | KpStorage (e : StorageError)
  | HttpClient
  | KpInvalidSignature
  | StaleKyn (expected got : Z)
  | StreamReadFailed
  | ResponseTooLarge (size : Z)
  | UnavailableOnStartup
  | P2pFallbackTriggered (behind : Z)
  | DevModeMockKyn
  | RegistrationDisabled
  | LiveFetchFailedFallback.

Definition kyn_error_code (e : KynProviderError) : string :=
  match e with
  | AllEndpointsFailed => "KIN-RND-001"
  | HttpError _ => "KIN-RND-003"
  | NoCachedKyn => "KIN-RND-004"
  | KpSerde => "KIN-RND-005"
  | KpStorage _ => "KIN-RND-006"
  | HttpClient => "KIN-RND-007"
  | KpInvalidSignature => "KIN-RND-008"
  | StaleKyn _ _ => "KIN-RND-009"
  | StreamReadFailed => "KIN-RND-010"
  | ResponseTooLarge _ => "KIN-RND-011"
  | UnavailableOnStartup => "KIN-RND-012"
  | P2pFallbackTriggered _ => "KIN-RND-013"
  | DevModeMockKyn => "KIN-RND-014"
  | RegistrationDisabled => "KIN-RND-015"
  | LiveFetchFailedFallback => "KIN-RND-016"
  end.

Definition kyn_error_severity (e : KynProviderError) : Severity :=
  match e with
  | KpSerde | KpStorage _ | KpInvalidSignature | ResponseTooLarge _ | UnavailableOnStartup => SevError
  | _ => SevWarning
  end.

Definition kyn_error_is_retryable (e : KynProviderError) : bool :=
  match e with
  | AllEndpointsFailed | HttpError _ | HttpClient | StreamReadFailed | StaleKyn _ _ => true
  | _ => false
  end.

(** ** Interfaces *)

(** What a request brings back: a failure to connect, or a status and the
    chunks of the body, of which one may fail. *)
Inductive HttpOutcome := HttpFailed | HttpResponse (status : Z) (chunks : list (option bytes)).

(** The world of a fetch: the n-th request to a URL, and the TXT records of a
    domain. *)
Class OracleNet := {
  http_get : bytes -> nat -> HttpOutcome;
  txt_lookup : bytes -> option (list bytes) }.

(** [serde_json::to_vec] of a [RawKyn]; the reader is [raw_kyn_from_slice]. *)
Class RawKynVec := raw_kyn_to_vec : RawKyn -> option bytes.

Definition is_success (status : Z) : bool := (200 <=? status) && (status <? 300).

(** ** [BeaconProvider] *)

Record BeaconProvider := MkProvider {
  bp_has_storage : bool;
  endpoints : list bytes;
  beacon_seed_domain : list bytes }.

Definition PROVIDER_MAX_STALE : Z := 200.

Definition LIMITS_BEACON_MAX_RESPONSE_BYTES : Z := beacon_max_response_bytes (limits (advanced network_json)).

Section Provider.
Context {HSha : Sha2} {HCod : Codecs} {HBv : BeaconVerify} {HSto : StorageEngine}
  {HSerde : Serde} {HRea : ReactorJson} {HVec : RawKynVec} {HNet : OracleNet}.
Variables (is_dev_mode : bool) (self : BeaconProvider) (DB_PREFIX_LAST_KYN : bytes).

(** The chunks of the body within the cap. *)
Fixpoint read_chunks (chunks : list (option bytes)) (body : bytes) : Result KynProviderError bytes :=
  match chunks with
  | [] => Ok body
  | None :: _ => Err StreamReadFailed
  | Some chunk :: rest =>
      let body := body ++ chunk in
      bail_if (len body >? LIMITS_BEACON_MAX_RESPONSE_BYTES) (ResponseTooLarge (len body));;
      read_chunks rest body
  end.

(** The attempts [attempt ..] of [fetch_with_backoff], [fuel] of them left. *)
Fixpoint fetch_attempts (url : bytes) (fuel attempt : nat) : Result KynProviderError RawKyn :=
  match fuel with
  | O => Err AllEndpointsFailed
  | S fuel =>
      let retry (e : KynProviderError) :=
        match fuel with O => Err e | S _ => fetch_attempts url fuel (S attempt) end in
      match http_get url attempt with
      | HttpResponse status chunks =>
          if is_success status then
            body ← read_chunks chunks [];
            ok_or (raw_kyn_from_slice body) KpSerde
          else retry (HttpError status)
      | HttpFailed => retry HttpClient
      end
  end.

Definition fetch_with_backoff (url : bytes) : Result KynProviderError RawKyn := fetch_attempts url 3 0.

(** [trim_matches] of the double quote, byte 34 *)
Fixpoint skip_quotes (s : bytes) : bytes :=
  match s with c :: s' => if c =? 34 then skip_quotes s' else s | [] => [] end.
Definition trim_quotes (s : bytes) : bytes := reverse (skip_quotes (reverse (skip_quotes s))).

(** The TXT records of one domain, then of all, while fewer than five URLs were
    added. *)
Fixpoint inject_txts (txts : list bytes) (injected : list bytes) : list bytes :=
  match txts with
  | [] => injected
  | txt :: rest =>
      if (5 <=? length injected)%nat then injected
      else
        let url := trim_quotes txt in
        inject_txts rest (if starts_with (bs "https://") url then injected ++ [url] else injected)
  end.

Fixpoint inject_domains (domains : list bytes) (injected : list bytes) : list bytes :=
  match domains with
  | [] => injected
  | domain :: rest =>
      if (5 <=? length injected)%nat then injected
      else inject_domains rest
             (match txt_lookup domain with Some txts => inject_txts txts injected | None => injected end)
  end.

Definition all_endpoints : list bytes := endpoints self ++ inject_domains (beacon_seed_domain self) [].

(** [cache]: nothing when there is no storage or no encoding. *)
Definition cache (d : Sto) (kyn : RawKyn) : Sto * Result KynProviderError unit :=
  if bp_has_storage self then
    match raw_kyn_to_vec kyn with
    | Some bytes => let '(d, r) := sto_put d DB_PREFIX_LAST_KYN bytes in (d, map_err KpStorage r)
    | None => (d, Ok tt)
    end
  else (d, Ok tt).

Definition mock_kyn : RawKyn := MkRawKyn 1666666 (bs "mock_randomness") [] true false.

Definition from_cache (kyn : RawKyn) : RawKyn :=
  MkRawKyn (beacon_idx kyn) (randomness kyn) (rk_signature kyn) true (is_unavailable kyn).

(** What storage holds, if it is there and parses. *)
Definition cached (d : Sto) : Result KynProviderError (option RawKyn) :=
  if bp_has_storage self then
    data ← map_err KpStorage (sto_get d DB_PREFIX_LAST_KYN);
    Ok (b ← data; raw_kyn_from_slice b)
  else Ok None.

Definition load_cached (d : Sto) : Result KynProviderError RawKyn :=
  found ← cached d;
  match found with
  | Some kyn => Ok (from_cache kyn)
  | None => if is_dev_mode then Ok mock_kyn else Err NoCachedKyn
  end.

Definition as_live (kyn : RawKyn) : RawKyn :=
  MkRawKyn (beacon_idx kyn) (randomness kyn) (rk_signature kyn) false false.

(** Whether a fetched kyn is taken: verified, and not too old for the clock. *)
Definition kyn_acceptable (now : Z) (kyn : RawKyn) : bool :=
  let estimated_kyn := sat_sub now BEACON_GENESIS in
  verify_beacon kyn is_dev_mode && (sat_sub estimated_kyn (rk_kyn kyn) <=? PROVIDER_MAX_STALE).

(** The endpoints in turn. *)
Fixpoint try_endpoints (now : Z) (urls : list bytes) (d : Sto) : Sto * option RawKyn :=
  match urls with
  | [] => (d, None)
  | url :: rest =>
      match fetch_with_backoff url with
      | Ok kyn =>
          if kyn_acceptable now kyn then ((cache d (as_live kyn)).1, Some (as_live kyn))
          else try_endpoints now rest d
      | Err _ => try_endpoints now rest d
      end
  end.

Definition fetch_latest (now : Z) (d : Sto) : Sto * Result KynProviderError RawKyn :=
  if is_dev_mode then (d, load_cached d)
  else
    match try_endpoints now all_endpoints d with
    | (d, Some kyn) => (d, Ok kyn)
    | (d, None) => (d, map_err (fun _ => AllEndpointsFailed) (load_cached d))
    end.

(** ** A kyn received by gossip *)

(** The block of the node's listener: the storage afterwards and the kyn sent
    to the event loop. *)
Definition node_kyn_gossip (d : Sto) (actual_payload : bytes) : Sto * option Z :=
  match raw_kyn_from_slice actual_payload with
  | Some kyn =>
      if verify_beacon kyn is_dev_mode then
        let latest_kyn :=
          match load_cached d with
          | Ok latest => if is_unavailable latest then 0 else rk_kyn latest
          | Err _ => 0
          end in
        if rk_kyn kyn >? latest_kyn then ((cache d kyn).1, Some (rk_kyn kyn)) else (d, None)
      else (d, None)
  | None => (d, None)
  end.

(** The daemon's: the same, with the verdict it reports. *)
Definition daemon_kyn_gossip (d : Sto) (actual_payload : bytes) : Sto * option Z * bool :=
  match raw_kyn_from_slice actual_payload with
  | Some kyn =>
      if verify_beacon kyn is_dev_mode then
        let latest_kyn :=
          match load_cached d with
          | Ok latest => if is_unavailable latest then 0 else rk_kyn latest
          | Err _ => 0
          end in
        if rk_kyn kyn >? latest_kyn then ((cache d kyn).1, Some (rk_kyn kyn), true) else (d, None, true)
      else (d, None, false)
  | None => (d, None, false)
  end.

(** The node's oracle task: whether a tick fetches over HTTP, and the kyn it
    sends with the message it broadcasts. *)
Definition should_fetch_http (p2p_only : bool) (now : Z) (d : Sto) : bool :=
  if p2p_only then
    match load_cached d with
    | Ok latest => sat_sub now BEACON_GENESIS >? wadd64 (rk_kyn latest) 5
    | Err _ => true
    end
  else true.

Definition oracle_tick (p2p_only : bool) (now : Z) (d : Sto) : Sto * option (Z * option bytes) :=
  if should_fetch_http p2p_only now d then
    match fetch_latest now d with
    | (d, Ok kyn) =>
        if negb (is_unavailable kyn) && negb (is_from_cache kyn) then
          (d, Some (rk_kyn kyn,
                    if p2p_only then None
                    else payload ← raw_kyn_to_vec kyn; Some (opcode_byte OpKyn :: payload)))
        else (d, None)
    | (d, Err _) => (d, None)
    end
  else (d, None).

End Provider.

(** ** What a fetched or received kyn is worth *)

Section ProviderFacts.
Context {HSha : Sha2} {HCod : Codecs} {HBv : BeaconVerify} {HSto : StorageEngine}
  {HSerde : Serde} {HRea : ReactorJson} {HVec : RawKynVec} {HNet : OracleNet}.
Variables (self : BeaconProvider) (DB_PREFIX_LAST_KYN : bytes).

Lemma read_chunks_spec chunks body b :
  read_chunks chunks body = Ok b -> len body <= LIMITS_BEACON_MAX_RESPONSE_BYTES ->
  exists cs, chunks = map Some cs /\ b = body ++ concat cs /\ len b <= LIMITS_BEACON_MAX_RESPONSE_BYTES.
Proof.
  revert body. induction chunks as [|[c|] chunks IH]; intros body H Hb; cbn [read_chunks] in H.
  - apply Ok_inj in H as <-. exists []. by rewrite app_nil_r.
  - apply bail_if_ok in H as [Hc H]. zbool. destruct (IH (body ++ c)) as (cs & -> & -> & Hl); [done|lia|].
    exists (c :: cs). cbn [concat map]. rewrite <- app_assoc in *. done.
  - done.
Qed.

Lemma inject_txts_bound txts injected :
  (length injected <= 5)%nat -> Forall (fun u => starts_with (bs "https://") u = true) injected ->
  (length (inject_txts txts injected) <= 5)%nat /\
  Forall (fun u => starts_with (bs "https://") u = true) (inject_txts txts injected).
Proof.
  revert injected. induction txts as [|t txts IH]; intros injected Hl Hf; [done|]. cbn [inject_txts].
  destruct (5 <=? length injected)%nat eqn:E; [done|]. apply Nat.leb_gt in E.
  destruct (starts_with (bs "https://") (trim_quotes t)) eqn:Es; [|by apply IH].
  apply IH; [rewrite length_app; cbn; lia|]. apply Forall_app. split; [done|by constructor].
Qed.

(** At most five endpoints come from the DNS seed domains, all of them with
    the scheme https, and the configured ones come first. *)
Theorem injected_endpoints_bounded :
  exists injected, all_endpoints self = endpoints self ++ injected /\ (length injected <= 5)%nat /\
    Forall (fun u => starts_with (bs "https://") u = true) injected.
Proof.
  unfold all_endpoints. eexists. split; [done|].
  enough (H : forall ds injected, (length injected <= 5)%nat ->
    Forall (fun u => starts_with (bs "https://") u = true) injected ->
    (length (inject_domains ds injected) <= 5)%nat /\
    Forall (fun u => starts_with (bs "https://") u = true) (inject_domains ds injected)).
  { apply H; [cbn; lia|constructor]. }
  induction ds as [|d ds IH]; intros injected Hl Hf; [done|]. cbn [inject_domains].
  destruct (5 <=? length injected)%nat eqn:E; [done|].
  apply IH; (destruct (txt_lookup d); [by apply inject_txts_bound|done]).
Qed.

Lemma try_endpoints_some now urls d d' kyn :
  try_endpoints false self DB_PREFIX_LAST_KYN now urls d = (d', Some kyn) ->
  exists url k, url ∈ urls /\ fetch_with_backoff url = Ok k /\ kyn_acceptable false now k = true /\
    kyn = as_live k /\ d' = (cache self DB_PREFIX_LAST_KYN d kyn).1.
Proof.
  induction urls as [|url urls IH]; [done|]. cbn [try_endpoints].
  destruct (fetch_with_backoff url) as [k|] eqn:Hf.
  - destruct (kyn_acceptable false now k) eqn:Ha.
    + intros [= <- <-]. exists url, k. split_and!; try done. left.
    + intros H. destruct (IH H) as (u & k' & Hu & ?). exists u, k'. split; [by right|done].
  - intros H. destruct (IH H) as (u & k' & Hu & ?). exists u, k'. split; [by right|done].
Qed.

(** C26: a kyn that may drive a registration comes from an endpoint, is at most
    200 kyns behind the clock, is cached as it is returned, and carries a valid
    beacon signature -- unless the endpoint marked it as unavailable, which
    passes the verification and whose mark is then removed. *)
Theorem fetched_kyn_provenance now d d' kyn :
  fetch_latest false self DB_PREFIX_LAST_KYN now d = (d', Ok kyn) -> can_register kyn = true ->
  exists url k, url ∈ all_endpoints self /\ fetch_with_backoff url = Ok k /\
    kyn = as_live k /\ d' = (cache self DB_PREFIX_LAST_KYN d kyn).1 /\
    sat_sub (sat_sub now BEACON_GENESIS) (rk_kyn k) <= PROVIDER_MAX_STALE /\
    (is_unavailable k = true \/ beacon_authentic k).
Proof.
  intros H Hr. unfold fetch_latest in H.
  destruct (try_endpoints false self DB_PREFIX_LAST_KYN now (all_endpoints self) d) as [d1 [k|]] eqn:Ht.
  - apply pair_equal_spec in H as [<- H]. apply Ok_inj in H as <-.
    apply try_endpoints_some in Ht as (url & k' & Hu & Hf & Ha & -> & Hd).
    exists url, k'. unfold kyn_acceptable in Ha. zbool. split_and!; try done.
    destruct (is_unavailable k') eqn:E; [by left|right]. by apply verify_beacon_authentic.
  - apply pair_equal_spec in H as [_ H]. unfold load_cached in H.
    destruct (cached self DB_PREFIX_LAST_KYN d1) as [[k|]|]; [|done|done].
    cbn in H. apply Ok_inj in H as <-. unfold can_register, from_cache in Hr. cbn in Hr.
    by rewrite andb_false_r in Hr.
Qed.

(** Anybody can set the network's clock.  A kyn marked as unavailable needs
    no signature: its gossip is relayed, the node and the daemon that receive
    it take its time when it is ahead of the cached one, and their event loops
    move to it, for good, since an earlier kyn no longer moves them. *)
Theorem unavailable_kyn_moves_clock {HSig : MlDsa} {HLru : LruCache} {HMem : KadMemory} {HAddr : Multiaddrs}
    action config topic d body k (e : NetworkEventLoop) :
  raw_kyn_from_slice body = Some k -> is_unavailable k = true ->
  (forall latest, load_cached false self DB_PREFIX_LAST_KYN d = Ok latest ->
     is_unavailable latest = false -> rk_kyn latest < rk_kyn k) ->
  el_current_kyn e < rk_kyn k -> 0 < rk_kyn k ->
  gossip_valid false action config topic topic (opcode_byte OpKyn :: body) = Some true /\
  (node_kyn_gossip false self DB_PREFIX_LAST_KYN d body).2 = Some (rk_kyn k) /\
  (daemon_kyn_gossip false self DB_PREFIX_LAST_KYN d body).1.2 = Some (rk_kyn k) /\
  el_current_kyn (kyn_changed (rk_kyn k) e) = rk_kyn k /\
  forall honest, honest <= rk_kyn k -> kyn_changed honest (kyn_changed (rk_kyn k) e) = kyn_changed (rk_kyn k) e.
Proof.
  intros Hk Hu Hlatest He Hpos.
  assert (Hv : verify_beacon k false = true) by (unfold verify_beacon; by rewrite Hu).
  assert (Hgt : rk_kyn k >? match load_cached false self DB_PREFIX_LAST_KYN d with
          | Ok latest => if is_unavailable latest then 0 else rk_kyn latest
          | Err _ => 0 end = true).
  { rewrite Z.gtb_ltb. apply Z.ltb_lt. destruct (load_cached _ _ _ _) as [l|] eqn:El; [|done].
    destruct (is_unavailable l) eqn:Eu; [done|]. by apply Hlatest. }
  assert (Hc : el_current_kyn (kyn_changed (rk_kyn k) e) = rk_kyn k).
  { unfold kyn_changed. rewrite (proj2 (Z.gtb_lt _ _) He). done. }
  split_and!; [| | |exact Hc|].
  - unfold gossip_valid. rewrite bool_decide_eq_true_2 by done. rewrite Z.eqb_refl, Hk. by rewrite Hv.
  - unfold node_kyn_gossip. rewrite Hk, Hv. by rewrite Hgt.
  - unfold daemon_kyn_gossip. rewrite Hk, Hv. by rewrite Hgt.
  - intros honest Hh. unfold kyn_changed at 1. rewrite Hc.
    destruct (honest >? rk_kyn k) eqn:E; [zbool; lia|done].
Qed.

(** No honest live round is accepted.  The beacon emits a round every three
    seconds from its genesis and [KYN_PERIOD] is one second, so the kyn of the
    current round lags the clock by two thirds of the time elapsed: five minutes
    after genesis it is refused as stale by every fetch. *)
Theorem honest_round_stale k now :
  303 <= now - BEACON_GENESIS < 2 ^ 64 -> beacon_idx k = (now - BEACON_GENESIS) / 3 + 1 ->
  kyn_acceptable false now k = false.
Proof.
  intros Hn Hk. unfold kyn_acceptable. apply andb_false_iff. right. apply Z.leb_gt.
  unfold rk_kyn. rewrite Hk. change KYN_PERIOD with 1. unfold PROVIDER_MAX_STALE.
  set (t := now - BEACON_GENESIS) in *. assert (Ht : sat_sub now BEACON_GENESIS = t) by (unfold sat_sub; lia).
  rewrite Ht. assert (0 <= t / 3 <= t - 202) by dlia. rewrite wmul64_small by lia. unfold sat_sub. lia.
Qed.

End ProviderFacts.
