(* ===== verification/ActionNode.v ===== *)
(** * The action state of a running process

    [kinetic-local/src/action.rs] (the state file), [kinetic-local/src/time.rs],
    the listeners of global gossip in the node ([kinetic-node/src/gossip.rs],
    [main.rs]), the host ([kinetic-host/src/gossip.rs]) and the daemon
    ([kinetic-daemon/src/services/gossip.rs]), the start-up with its action sync
    (the three [main.rs]) and the daemon's action API
    ([kinetic-daemon/src/api/action.rs]).  The store the processes share is
    explicit: the file on disk, the state behind the lock, and the saves handed
    to the blocking pool, which run in any order. *)
From Stdlib Require Import String.
From S2P Require Import Prelude Bytes Config Crypto Kyn Names Net Kid Records Action Lru Peers Storage StoreVerify TieBreaker Store EventLoop Oracle.
#[local] Open Scope Z_scope.

Definition KYN_GENESIS : Z := kyn_genesis (beacon network_json).
Definition MAX_AGE_KYNS : Z := cfg_max_age_kyns (action network_json).

(** [now_local]: the operating system's clock, read as [now]. *)
Definition now_local (genesis now : Z) : Kyn := to_kyn now genesis.

(** ** The state file *)

(** [bincode] at the type [ActionState]. *)
Class StateCodec := {
  state_to_bin : ActionState -> option bytes;
  state_of_bin : bytes -> option ActionState }.

(** Serialization is total and is read back. *)
Class StateCodecLaws `{StateCodec} :=
  state_bin_round st : exists b, state_to_bin st = Some b /\ state_of_bin b = Some st.

Inductive StateFile := FileMissing | FileUnreadable | FileBytes (b : bytes).

Record ActionDisk := MkActionDisk {
  action_file : StateFile;
  corrupt_backups : list bytes }.

(** ** The process *)

(** A closure handed to [spawn_blocking]: the snapshot it saves, and whether
    it holds a network client. *)
Record SaveTask := MkSaveTask {
  sv_client : bool;
  state_snapshot : ActionState }.

(** The state behind [GLOBAL_ACTION_STATE], the closures and the
    [update_action_log] tasks that have not run, the log the event loop was
    last given, the kyns sent to it, and the verdicts reported on gossip. *)
Record ActionProc := MkActionProc {
  ap_state : ActionState;
  ap_tasks : list SaveTask;
  ap_updates : list (list SignedNetworkAction);
  ap_loop_log : list SignedNetworkAction;
  ap_kyns : list Z;
  ap_reports : list bool }.

Definition set_ap_state (st : ActionState) (p : ActionProc) : ActionProc :=
  MkActionProc st (ap_tasks p) (ap_updates p) (ap_loop_log p) (ap_kyns p) (ap_reports p).
Definition set_ap_tasks (x : list SaveTask) (p : ActionProc) : ActionProc :=
  MkActionProc (ap_state p) x (ap_updates p) (ap_loop_log p) (ap_kyns p) (ap_reports p).
Definition set_ap_updates (x : list (list SignedNetworkAction)) (p : ActionProc) : ActionProc :=
  MkActionProc (ap_state p) (ap_tasks p) x (ap_loop_log p) (ap_kyns p) (ap_reports p).
Definition set_ap_loop_log (x : list SignedNetworkAction) (p : ActionProc) : ActionProc :=
  MkActionProc (ap_state p) (ap_tasks p) (ap_updates p) x (ap_kyns p) (ap_reports p).
Definition send_kyn (k : option Z) (p : ActionProc) : ActionProc :=
  MkActionProc (ap_state p) (ap_tasks p) (ap_updates p) (ap_loop_log p)
    (ap_kyns p ++ option_list k) (ap_reports p).
Definition report_gossip (v : bool) (p : ActionProc) : ActionProc :=
  MkActionProc (ap_state p) (ap_tasks p) (ap_updates p) (ap_loop_log p) (ap_kyns p)
    (ap_reports p ++ [v]).

(** The three binaries that keep an action state. *)
Inductive Binary := RoleNode | RoleHost | RoleDaemon.

(** [ActionStatusResponse], with the pause period and the metrics inside. *)
Record ActionStatusResponse := MkActionStatus {
  as_genesis_kyn : Z;
  as_current_kyn : Z;
  active_kyn_age : Z;
  active_sovereign_key_hex : option bytes;
  as_is_halted : bool;
  as_halt_start_kyn : option Z;
  as_total_paused_kyns : Z;
  last_pause : option (Z * Z);
  total_executed_actions : Z }.

(** The answers of the publishing API. *)
Inductive PublishActionAnswer :=
  | PaInsufficientPrivileges
  | PaInvalid (e : ActionError)
  | PaSerialization
  | PaBroadcastFailed
  | PaSuccess.

Section Node.
Context {HSha : Sha2} {HSig : MlDsa} {HCod : Codecs} {HBv : BeaconVerify} {HSto : StorageEngine}
  {HSerde : Serde} {HRea : ReactorJson} {HVec : RawKynVec} {HNet : OracleNet} {HBin : StateCodec}.
(** The network's pinned key, the developer mode, the global topic and the
    storage key of the cached kyn. *)
Variables (SOVEREIGN_KEY_HEX : bytes) (is_dev_mode : bool) (GOSSIP_TOPIC_GLOBAL : bytes)
  (provider : BeaconProvider) (DB_PREFIX_LAST_KYN : bytes).

Record Machine := MkMachine {
  mc_sto : Sto;
  mc_disk : ActionDisk;
  mc_proc : option ActionProc }.

Definition action_config : ActionConfig :=
  MkActionConfig SOVEREIGN_KEY_HEX MAX_AGE_KYNS is_dev_mode ACTION_MODEL.

(** [kinetic-core/src/action.rs]: the wrapper every caller uses. *)
Definition core_process_action_message (st : ActionState) (msg : SignedNetworkAction)
    (current_kyn : Z) : option (ActionState * Result ActionError (option ActionEffect)) :=
  process_action_message st msg current_kyn action_config.

(** The write goes to a temporary file that replaces the old one; [io] is
    whether the file system accepts both. *)
Definition save_action_to_disk (st : ActionState) (io : bool) (d : ActionDisk) : ActionDisk * bool :=
  match state_to_bin st with
  | Some b => if io then (MkActionDisk (FileBytes b) (corrupt_backups d), true) else (d, false)
  | None => (d, false)
  end.

(** [None] is the panic; a failed [rename] is ignored. *)
Definition load_action_from_disk (d : ActionDisk) (rename_ok : bool) : ActionDisk * option ActionState :=
  match action_file d with
  | FileBytes b =>
      match state_of_bin b with
      | Some st => (d, Some st)
      | None =>
          (if rename_ok then MkActionDisk FileMissing (corrupt_backups d ++ [b]) else d, None)
      end
  | FileMissing => (d, Some (action_state_new KYN_GENESIS))
  | FileUnreadable => (d, None)
  end.

(** ** The listeners of global gossip *)

(** The node: under the lock the message is processed and the state cloned;
    the save and the update of the log run later. *)
Definition handle_action_gossip (payload : bytes) (network_client : bool) (current_kyn : Z)
    (p : ActionProc) : option ActionProc :=
  match action_from_slice payload with
  | Some signed_msg =>
      '(st, effect_result) ← core_process_action_message (ap_state p) signed_msg current_kyn;
      let p := set_ap_state st p in
      Some match effect_result with
           | Ok _ => set_ap_tasks (ap_tasks p ++ [MkSaveTask network_client st]) p
           | Err _ => p
           end
  | None => Some p
  end.

Definition node_current_kyn (now : Z) (d : Sto) : Sto * Z :=
  match fetch_latest is_dev_mode provider DB_PREFIX_LAST_KYN now d with
  | (d, Ok kyn) => (d, rk_kyn kyn)
  | (d, Err _) => (d, now_local BEACON_GENESIS now)
  end.

Definition node_listener (now : Z) (topic payload : bytes) (m : Machine) (p : ActionProc) : option Machine :=
  if bool_decide (topic = GOSSIP_TOPIC_GLOBAL) then
    match payload with
    | [] => Some m
    | opcode :: actual_payload =>
        if opcode =? opcode_byte OpAction then
          let '(d, current_kyn) := node_current_kyn now (mc_sto m) in
          p ← handle_action_gossip actual_payload true current_kyn p;
          Some (MkMachine d (mc_disk m) (Some p))
        else if opcode =? opcode_byte OpKyn then
          let '(d, kyn) := node_kyn_gossip is_dev_mode provider DB_PREFIX_LAST_KYN (mc_sto m) actual_payload in
          Some (MkMachine d (mc_disk m) (Some (send_kyn kyn p)))
        else Some m
    end
  else Some m.

(** The host: the same for an action that parses, with the cached kyn first;
    other messages are ignored. *)
Definition host_current_kyn (now : Z) (d : Sto) : Sto * Z :=
  match load_cached is_dev_mode provider DB_PREFIX_LAST_KYN d with
  | Ok kyn => (d, rk_kyn kyn)
  | Err _ =>
      match fetch_latest is_dev_mode provider DB_PREFIX_LAST_KYN now d with
      | (d, Ok kyn) => (d, rk_kyn kyn)
      | (d, Err _) => (d, now_local BEACON_GENESIS now)
      end
  end.

Definition host_listener (now : Z) (topic payload : bytes) (m : Machine) (p : ActionProc) : option Machine :=
  if bool_decide (topic = GOSSIP_TOPIC_GLOBAL) then
    match payload with
    | [] => Some m
    | opcode :: actual_payload =>
        if opcode =? opcode_byte OpAction then
          match action_from_slice actual_payload with
          | Some signed_msg =>
              let '(d, current_kyn) := host_current_kyn now (mc_sto m) in
              '(st, r) ← core_process_action_message (ap_state p) signed_msg current_kyn;
              let p := set_ap_state st p in
              let should_save := is_ok r in
              let p := if should_save then set_ap_tasks (ap_tasks p ++ [MkSaveTask true st]) p else p in
              Some (MkMachine d (mc_disk m) (Some p))
          | None => Some m
          end
        else Some m
    end
  else Some m.

(** The daemon: the save happens under the lock, the update of the log is
    awaited, and every message of the topic is reported on. *)
Definition daemon_current_kyn (now : Z) (d : Sto) : Z :=
  match load_cached is_dev_mode provider DB_PREFIX_LAST_KYN d with
  | Ok kyn => rk_kyn kyn
  | Err _ => now_local BEACON_GENESIS now
  end.

Definition daemon_action_gossip (actual_payload : bytes) (current_kyn : Z) (io : bool)
    (disk : ActionDisk) (p : ActionProc) : option (ActionDisk * ActionProc) :=
  match action_from_slice actual_payload with
  | Some signed_msg =>
      '(st, r) ← core_process_action_message (ap_state p) signed_msg current_kyn;
      let p := set_ap_state st p in
      match r with
      | Ok _ =>
          let disk := (save_action_to_disk st io disk).1 in
          let p := set_ap_loop_log (action_log st) p in
          Some (disk, report_gossip true p)
      | Err _ => Some (disk, report_gossip false p)
      end
  | None => Some (disk, report_gossip false p)
  end.

Definition daemon_listener (now : Z) (topic payload : bytes) (io : bool) (m : Machine) (p : ActionProc)
  : option Machine :=
  if bool_decide (topic = GOSSIP_TOPIC_GLOBAL) then
    match payload with
    | [] => Some (MkMachine (mc_sto m) (mc_disk m) (Some (report_gossip false p)))
    | opcode :: actual_payload =>
        if opcode =? opcode_byte OpAction then
          '(disk, p) ← daemon_action_gossip actual_payload (daemon_current_kyn now (mc_sto m)) io (mc_disk m) p;
          Some (MkMachine (mc_sto m) disk (Some p))
        else if opcode =? opcode_byte OpKyn then
          let '(d, kyn, is_valid) :=
            daemon_kyn_gossip is_dev_mode provider DB_PREFIX_LAST_KYN (mc_sto m) actual_payload in
          Some (MkMachine d (mc_disk m) (Some (report_gossip is_valid (send_kyn kyn p))))
        else Some (MkMachine (mc_sto m) (mc_disk m) (Some (report_gossip false p)))
    end
  else Some m.

(** ** The tasks handed to the pool *)

(** The [i]-th closure runs: the update of the log is spawned, then the
    snapshot is saved. *)
Definition run_save (i : nat) (io : bool) (disk : ActionDisk) (p : ActionProc) : ActionDisk * ActionProc :=
  match ap_tasks p !! i with
  | Some t =>
      let p := set_ap_tasks (delete i (ap_tasks p)) p in
      let p := if sv_client t then set_ap_updates (ap_updates p ++ [action_log (state_snapshot t)]) p else p in
      ((save_action_to_disk (state_snapshot t) io disk).1, p)
  | None => (disk, p)
  end.

(** The [i]-th spawned update reaches the event loop. *)
Definition run_update (i : nat) (p : ActionProc) : ActionProc :=
  match ap_updates p !! i with
  | Some log => set_ap_loop_log log (set_ap_updates (delete i (ap_updates p)) p)
  | None => p
  end.

(** ** Start-up *)

(** The actions of one peer, each processed at kyn 0 with its error logged. *)
Fixpoint apply_synced (st : ActionState) (actions : list SignedNetworkAction) : option ActionState :=
  match actions with
  | [] => Some st
  | msg :: rest =>
      '(st, _) ← core_process_action_message st msg 0;
      apply_synced st rest
  end.

(** The connected peers are asked in turn, [None] for one that fails; the first
    non-empty answer is applied, saved and ends the loop. *)
Fixpoint action_sync_loop (answers : list (option (list SignedNetworkAction))) (io : bool)
    (disk : ActionDisk) (p : ActionProc) : option (ActionDisk * ActionProc) :=
  match answers with
  | [] => Some (disk, p)
  | Some (a :: actions) :: _ =>
      st ← apply_synced (ap_state p) (a :: actions);
      Some ((save_action_to_disk st io disk).1, set_ap_loop_log (action_log st) (set_ap_state st p))
  | _ :: rest => action_sync_loop rest io disk p
  end.

(** The state is loaded, its log given to the event loop, and the peers asked
    when the log is empty. *)
Definition boot (rename_ok : bool) (answers : list (option (list SignedNetworkAction))) (io : bool)
    (m : Machine) : option Machine :=
  let '(disk, loaded) := load_action_from_disk (mc_disk m) rename_ok in
  match loaded with
  | None => Some (MkMachine (mc_sto m) disk None)
  | Some st =>
      let p := MkActionProc st [] [] (action_log st) [] [] in
      match action_log st with
      | [] =>
          '(disk, p) ← action_sync_loop answers io disk p;
          Some (MkMachine (mc_sto m) disk (Some p))
      | _ :: _ => Some (MkMachine (mc_sto m) disk (Some p))
      end
  end.

(** ** The daemon's action API *)

Definition handle_get_action_status (now : Z) (d : Sto) (action_state : ActionState)
  : ActionStatusResponse :=
  let current_kyn := daemon_current_kyn now d in
  {| as_genesis_kyn := genesis_kyn action_state;
     as_current_kyn := current_kyn;
     active_kyn_age :=
       sat_sub (sat_sub current_kyn (genesis_kyn action_state)) (total_paused_kyns action_state);
     active_sovereign_key_hex := hex_lower <$> active_sovereign_key action_state;
     as_is_halted := is_halted action_state;
     as_halt_start_kyn := halt_start_kyn action_state;
     as_total_paused_kyns := total_paused_kyns action_state;
     last_pause := last (pause_history action_state);
     total_executed_actions := Z.of_nat (size (executed_hashes action_state)) |}.

(** The kyn the handler obtains is not used: the message is processed at kyn 0.
    [serialized] is the JSON of the message, [broadcast_ok] the answer of the
    network client.  The last component is the envelope broadcast. *)
Definition handle_publish_action (can_action : bool) (msg : SignedNetworkAction) (io : bool)
    (serialized : option bytes) (broadcast_ok : bool) (now : Z) (m : Machine) (p : ActionProc)
  : option (Machine * PublishActionAnswer * option bytes) :=
  if negb can_action then Some (m, PaInsufficientPrivileges, None) else
  let '(d, _current_kyn) := host_current_kyn now (mc_sto m) in
  '(st, res) ← core_process_action_message (ap_state p) msg 0;
  let p := set_ap_state st p in
  match res with
  | Err e => Some (MkMachine d (mc_disk m) (Some p), PaInvalid e, None)
  | Ok _ =>
      let disk := (save_action_to_disk st io (mc_disk m)).1 in
      let m := MkMachine d disk (Some p) in
      Some match serialized with
           | None => (m, PaSerialization, None)
           | Some payload_bytes =>
               let envelope := opcode_byte OpAction :: payload_bytes in
               if broadcast_ok then (m, PaSuccess, Some envelope) else (m, PaBroadcastFailed, Some envelope)
           end
  end.

(** ** The whole machine: the order of the steps is that of the environment *)

Inductive MachineInput :=
  | InGossip (now : Z) (topic payload : bytes) (io : bool)
  | InSave (i : nat) (io : bool)
  | InUpdate (i : nat)
  | InPublish (can_action : bool) (msg : SignedNetworkAction) (io : bool) (serialized : option bytes)
      (broadcast_ok : bool) (now : Z)
  | InBoot (rename_ok : bool) (answers : list (option (list SignedNetworkAction))) (io : bool).

Definition listener (role : Binary) (now : Z) (topic payload : bytes) (io : bool) (m : Machine)
    (p : ActionProc) : option Machine :=
  match role with
  | RoleNode => node_listener now topic payload m p
  | RoleHost => host_listener now topic payload m p
  | RoleDaemon => daemon_listener now topic payload io m p
  end.

(** [None] is a panic of a listener. *)
Definition machine_step (role : Binary) (i : MachineInput) (m : Machine) : option Machine :=
  match i, mc_proc m with
  | InBoot rename_ok answers io, _ => boot rename_ok answers io m
  | _, None => Some m
  | InGossip now topic payload io, Some p => listener role now topic payload io m p
  | InSave i io, Some p =>
      let '(disk, p) := run_save i io (mc_disk m) p in Some (MkMachine (mc_sto m) disk (Some p))
  | InUpdate i, Some p => Some (MkMachine (mc_sto m) (mc_disk m) (Some (run_update i p)))
  | InPublish can msg io serialized ok now, Some p =>
      match role with
      | RoleDaemon => r ← handle_publish_action can msg io serialized ok now m p; Some r.1.1
      | _ => Some m
      end
  end.

Fixpoint machine_run (role : Binary) (inputs : list MachineInput) (m : Machine) : option Machine :=
  match inputs with
  | [] => Some m
  | i :: rest => m ← machine_step role i m; machine_run role rest m
  end.

(** A machine that has never been started. *)
Definition power_on (d : Sto) : Machine := MkMachine d (MkActionDisk FileMissing []) None.

End Node.

(** ** Facts *)

Section NodeFacts.
Context {HSha : Sha2} {HSig : MlDsa} {HCod : Codecs} {HBv : BeaconVerify} {HSto : StorageEngine}
  {HSerde : Serde} {HRea : ReactorJson} {HVec : RawKynVec} {HNet : OracleNet} {HBin : StateCodec}.
Variables (SOVEREIGN_KEY_HEX : bytes) (is_dev_mode : bool) (GOSSIP_TOPIC_GLOBAL : bytes)
  (provider : BeaconProvider) (DB_PREFIX_LAST_KYN : bytes).

Notation process := (core_process_action_message SOVEREIGN_KEY_HEX is_dev_mode).
Notation step := (machine_step SOVEREIGN_KEY_HEX is_dev_mode GOSSIP_TOPIC_GLOBAL provider DB_PREFIX_LAST_KYN).
Notation run := (machine_run SOVEREIGN_KEY_HEX is_dev_mode GOSSIP_TOPIC_GLOBAL provider DB_PREFIX_LAST_KYN).
Notation listen := (listener SOVEREIGN_KEY_HEX is_dev_mode GOSSIP_TOPIC_GLOBAL provider DB_PREFIX_LAST_KYN).

Notation api := (handle_publish_action SOVEREIGN_KEY_HEX is_dev_mode provider DB_PREFIX_LAST_KYN).

(** The kyn a role's listener processes an action at. *)
Definition current_kyn (role : Binary) (now : Z) (d : Sto) : Sto * Z :=
  match role with
  | RoleNode => node_current_kyn is_dev_mode provider DB_PREFIX_LAST_KYN now d
  | RoleHost => host_current_kyn is_dev_mode provider DB_PREFIX_LAST_KYN now d
  | RoleDaemon => (d, daemon_current_kyn is_dev_mode provider DB_PREFIX_LAST_KYN now d)
  end.

(** *** What the file preserves *)

(** [saved] is [st] but for executed actions that [st] has since pruned. *)
Record preserves (saved st : ActionState) : Prop := {
  pr_genesis : genesis_kyn saved = genesis_kyn st;
  pr_key : active_sovereign_key saved = active_sovereign_key st;
  pr_halted : is_halted saved = is_halted st;
  pr_start : halt_start_kyn saved = halt_start_kyn st;
  pr_total : total_paused_kyns saved = total_paused_kyns st;
  pr_history : pause_history saved = pause_history st;
  pr_log : action_log saved = action_log st;
  pr_hashes : executed_hashes st ⊆ executed_hashes saved }.

Lemma preserves_refl st : preserves st st.
Proof. by split. Qed.

Lemma preserves_prune saved st now config :
  preserves saved st -> preserves saved (action_prune st now config).
Proof.
  intros []. split; cbn; try done. etrans; [apply map_filter_subseteq|done].
Qed.

Lemma preserves_rejected saved st msg now st' e :
  process st msg now = Some (st', Err e) -> preserves saved st -> preserves saved st'.
Proof. intros [-> | ->]%process_err_state H; [done|by apply preserves_prune]. Qed.

(** An action a process refuses as executed is refused by the state it was
    restarted from. *)
Lemma model_sovereign : active_engine ACTION_MODEL = Some sovereign_engine.
Proof. reflexivity. Qed.

(** Processing under the network's model, without the engine's dispatch. *)
Lemma process_eq st msg now :
  process st msg now =
  match sovereign_verify_action st msg now (action_config SOVEREIGN_KEY_HEX is_dev_mode) with
  | Err e => Some (st, Err e)
  | Ok effect =>
      let st := action_prune st now (action_config SOVEREIGN_KEY_HEX is_dev_mode) in
      match executed_hashes st !! hash_action msg with
      | Some _ => Some (st, Err AlreadyExecuted)
      | None =>
          '(st, _) ← sovereign_execute_action st msg now (action_config SOVEREIGN_KEY_HEX is_dev_mode);
          Some (push_log st msg, Ok effect)
      end
  end.
Proof.
  unfold core_process_action_message, process_action_message, verify_action, execute_action.
  cbn [action_model action_config]. rewrite model_sovereign. cbn -[sovereign_verify_action].
  by destruct (sovereign_verify_action _ _ _ _).
Qed.

Lemma execute_total st msg now config : is_Some (sovereign_execute_action st msg now config).
Proof. unfold sovereign_execute_action. destruct (sna_action msg); eauto. Qed.

Lemma process_total st msg now : is_Some (process st msg now).
Proof.
  rewrite process_eq. destruct (sovereign_verify_action _ _ _ _); [|eauto]. cbn zeta.
  destruct (_ !! _); [eauto|].
  destruct (execute_total (action_prune st now (action_config SOVEREIGN_KEY_HEX is_dev_mode)) msg now
    (action_config SOVEREIGN_KEY_HEX is_dev_mode)) as [[st1 eff] ->]. cbn. eauto.
Qed.

(** An action a process refuses as executed is refused by the state it was
    restarted from. *)
Lemma preserves_replay saved st msg now st' :
  preserves saved st -> process st msg now = Some (st', Err AlreadyExecuted) ->
  exists saved', process saved msg now = Some (saved', Err AlreadyExecuted).
Proof.
  intros HP. rewrite !process_eq.
  assert (Hv : sovereign_verify_action saved msg now (action_config SOVEREIGN_KEY_HEX is_dev_mode)
    = sovereign_verify_action st msg now (action_config SOVEREIGN_KEY_HEX is_dev_mode)).
  { unfold sovereign_verify_action, sovereign_key. by rewrite (pr_key _ _ HP). }
  rewrite Hv. clear Hv. destruct (sovereign_verify_action _ _ _ _) as [eff|e]; cbn zeta.
  - destruct (executed_hashes (action_prune st now _) !! hash_action msg) as [t|] eqn:El.
    + intros _. apply map_lookup_filter_Some in El as [El Hk].
      assert (Hs : executed_hashes (action_prune saved now (action_config SOVEREIGN_KEY_HEX is_dev_mode))
        !! hash_action msg = Some t).
      { apply map_lookup_filter_Some. split; [|done]. eapply lookup_weaken; [exact El|apply HP]. }
      rewrite Hs. eauto.
    + destruct (sovereign_execute_action _ _ _ _) as [[? ?]|]; cbn; done.
  - intros [= _ ->]. eauto.
Qed.

(** *** Saves that run in order *)

(** What a restart would load once the saves pending ran in order. *)
Definition restart_state (disk : ActionDisk) (tasks : list SaveTask) : option ActionState :=
  match last tasks with
  | Some t => Some (state_snapshot t)
  | None => (load_action_from_disk disk true).2
  end.

Definition durable (m : Machine) : Prop :=
  match mc_proc m with
  | Some p => exists st, restart_state (mc_disk m) (ap_tasks p) = Some st /\ preserves st (ap_state p)
  | None => True
  end.

(** The file system accepts the write, and the pool runs the saves in order. *)
Definition ordered_input (i : MachineInput) : Prop :=
  match i with
  | InGossip _ _ _ io | InPublish _ _ io _ _ _ | InBoot _ _ io => io = true
  | InSave i io => i = O /\ io = true
  | InUpdate _ => True
  end.

Context {HLaw : StateCodecLaws}.

Lemma load_saved st disk b :
  (load_action_from_disk (save_action_to_disk st true disk).1 b).2 = Some st.
Proof.
  unfold save_action_to_disk. destruct (state_bin_round st) as (s & -> & Hs).
  cbn. unfold load_action_from_disk. cbn. by rewrite Hs.
Qed.

Lemma load_some disk b disk' st :
  load_action_from_disk disk b = (disk', Some st) -> disk' = disk.
Proof.
  unfold load_action_from_disk. destruct (action_file disk) as [| |s]; [congruence..|].
  destruct (state_of_bin s); [congruence|]. by destruct b.
Qed.

Lemma load_rename disk b b' : (load_action_from_disk disk b).2 = (load_action_from_disk disk b').2.
Proof. unfold load_action_from_disk. destruct (action_file disk); try done. by destruct (state_of_bin _). Qed.

Lemma restart_snoc disk tasks c st : restart_state disk (tasks ++ [MkSaveTask c st]) = Some st.
Proof. unfold restart_state. by rewrite last_snoc. Qed.

Lemma restart_tail disk disk' t t' tasks :
  restart_state disk' (t' :: tasks) = restart_state disk (t :: t' :: tasks).
Proof.
  unfold restart_state. change (last (t :: t' :: tasks)) with (last (t' :: tasks)).
  destruct (last (t' :: tasks)) eqn:E; [done|]. by apply last_None in E.
Qed.

Lemma restart_saved disk st : restart_state (save_action_to_disk st true disk).1 [] = Some st.
Proof. apply (load_saved st disk). Qed.

(** The effect of a processed action on a process that hands its save over. *)
Lemma durable_queued d disk p st r msg now c :
  durable (MkMachine d disk (Some p)) -> process (ap_state p) msg now = Some (st, r) ->
  durable (MkMachine d disk (Some (let p := set_ap_state st p in
    if is_ok r then set_ap_tasks (ap_tasks p ++ [MkSaveTask c st]) p else p))).
Proof.
  intros (saved & Hr & HP) H. unfold durable. cbn. destruct r as [eff|e]; cbn.
  - exists st. split; [apply restart_snoc|apply preserves_refl].
  - exists saved. split; [done|]. by eapply preserves_rejected.
Qed.

(** The effect of one that saves at once. *)
Lemma durable_saved d disk p st r msg now :
  durable (MkMachine d disk (Some p)) -> ap_tasks p = [] -> process (ap_state p) msg now = Some (st, r) ->
  exists saved,
    restart_state (if is_ok r then (save_action_to_disk st true disk).1 else disk) [] = Some saved /\
    preserves saved st.
Proof.
  intros (saved & Hr & HP) Ht H. cbn in Hr, HP. rewrite Ht in Hr. destruct r as [eff|e]; cbn.
  - exists st. split; [apply restart_saved|apply preserves_refl].
  - exists saved. split; [done|]. by eapply preserves_rejected.
Qed.

Definition queue_inv (role : Binary) (m : Machine) : Prop :=
  durable m /\ (role = RoleDaemon -> forall p, mc_proc m = Some p -> ap_tasks p = []).

(** Only the state, the tasks and the disk matter to the invariant. *)
Lemma queue_inv_same role d disk p d' p' :
  queue_inv role (MkMachine d disk (Some p)) -> ap_state p' = ap_state p -> ap_tasks p' = ap_tasks p ->
  queue_inv role (MkMachine d' disk (Some p')).
Proof.
  intros [Hd Ht] Hs Hq. split.
  - unfold durable in *. cbn in *. by rewrite Hs, Hq.
  - intros Hr q [= <-]. cbn. rewrite Hq. by apply (Ht Hr).
Qed.

Lemma listen_inv role now topic payload m p m' :
  mc_proc m = Some p -> queue_inv role m -> listen role now topic payload true m p = Some m' ->
  queue_inv role m'.
Proof.
  destruct m as [d disk mp]. cbn. intros -> HI. pose proof HI as [Hd Ht].
  assert (Hq : forall d' c now' msg st r, process (ap_state p) msg now' = Some (st, r) -> role <> RoleDaemon ->
    queue_inv role (MkMachine d' disk (Some (let p := set_ap_state st p in
      if is_ok r then set_ap_tasks (ap_tasks p ++ [MkSaveTask c st]) p else p)))).
  { intros. split; [|by intros]. by apply (durable_queued d disk p st r msg now'). }
  destruct role; cbn.
  - unfold node_listener. cbn. destruct (bool_decide _); [|by intros [= <-]].
    destruct payload as [|op body]; [by intros [= <-]|]. destruct (op =? _).
    + destruct (node_current_kyn _ _ _ _ _) as [d' k]. unfold handle_action_gossip.
      destruct (action_from_slice body) as [msg|]; cbn; [|by intros [= <-]; eapply queue_inv_same].
      destruct (process (ap_state p) msg k) as [[st r]|] eqn:E; cbn; [|done].
      intros [= <-]. specialize (Hq d' true k msg st r E ltac:(done)). by destruct r.
    + destruct (op =? _); [|by intros [= <-]]. destruct (node_kyn_gossip _ _ _ _ _) as [d' k].
      intros [= <-]. by eapply queue_inv_same.
  - unfold host_listener. cbn. destruct (bool_decide _); [|by intros [= <-]].
    destruct payload as [|op body]; [by intros [= <-]|]. destruct (op =? _); [|by intros [= <-]].
    destruct (action_from_slice body) as [msg|]; [|by intros [= <-]].
    destruct (host_current_kyn _ _ _ _ _) as [d' k].
    destruct (process (ap_state p) msg k) as [[st r]|] eqn:E; cbn; [|done].
    intros [= <-]. by apply (Hq d' true k msg).
  - specialize (Ht eq_refl p eq_refl).
    unfold daemon_listener. cbn. destruct (bool_decide _); [|by intros [= <-]].
    destruct payload as [|op body]; [by intros [= <-]; eapply queue_inv_same|]. destruct (op =? _).
    + unfold daemon_action_gossip.
      destruct (action_from_slice body) as [msg|]; cbn; [|by intros [= <-]; eapply queue_inv_same].
      destruct (process (ap_state p) msg _) as [[st r]|] eqn:E; cbn; [|done].
      pose proof (durable_saved d disk p st r msg _ Hd Ht E) as (saved & Hr & HP).
      destruct r; cbn in Hr |- *; intros [= <-];
        (split; [exists saved; cbn; by rewrite Ht|by intros _ q [= <-]]).
    + destruct (op =? _); [|by intros [= <-]; eapply queue_inv_same].
      destruct (daemon_kyn_gossip _ _ _ _ _) as [[d' k] v]. intros [= <-]. by eapply queue_inv_same.
Qed.

Lemma boot_inv role rename_ok answers m m' :
  boot SOVEREIGN_KEY_HEX is_dev_mode rename_ok answers true m = Some m' -> queue_inv role m'.
Proof.
  unfold boot. destruct (load_action_from_disk (mc_disk m) rename_ok) as [disk [st|]] eqn:El;
    [|by intros [= <-]].
  pose proof (load_some _ _ _ _ El) as ->.
  assert (H0 : forall log ks, queue_inv role (MkMachine (mc_sto m) (mc_disk m)
    (Some (MkActionProc st [] [] log ks [])))).
  { intros log ks. split; [|by intros _ q [= <-]]. exists st. split; [|apply preserves_refl].
    cbn. unfold restart_state. cbn. rewrite (load_rename _ _ rename_ok). by rewrite El. }
  destruct (action_log st) as [|a log] eqn:Eg; [|intros [= <-]; apply H0].
  induction answers as [|[[|x l]|] rest IH]; cbn [action_sync_loop mbind option_bind];
    [intros [= <-]; apply H0|apply IH| |apply IH].
  destruct (apply_synced _ _ _ _) as [st'|]; cbn; [|done]. intros [= <-].
  split; [|by intros _ q [= <-]]. exists st'. split; [apply restart_saved|apply preserves_refl].
Qed.

Lemma machine_step_inv role i m m' :
  ordered_input i -> queue_inv role m -> step role i m = Some m' -> queue_inv role m'.
Proof.
  intros Hi HI. pose proof HI as [Hd Ht]. destruct m as [d disk mp].
  destruct i as [now topic payload io|k io|k|can msg io ser ok now|rn answers io]; cbn in Hi;
    [subst io|destruct Hi as [-> ->]| |subst io|subst io];
    [destruct mp as [p|]; cbn; [|by intros [= <-]]..|cbn; intros H; by eapply boot_inv].
  - by apply listen_inv.
  - unfold run_save. destruct (ap_tasks p) as [|t tasks] eqn:Eq; cbn;
      [intros [= <-]; by eapply queue_inv_same|].
    intros [= <-]. split.
    + destruct Hd as (saved & Hr & HP). cbn in Hr, HP. rewrite Eq in Hr. exists saved. cbn.
      destruct (sv_client t); (split; [|exact HP]); (destruct tasks as [|t' tasks]; [|by rewrite <- Hr; apply restart_tail]);
        injection Hr as <-; apply load_saved.
    + intros Hrole q [= <-]. specialize (Ht Hrole p eq_refl). by rewrite Eq in Ht.
  - intros [= <-]. unfold run_update. destruct (ap_updates p !! k); by eapply queue_inv_same.
  - destruct role; cbn; [by intros [= <-]..|]. specialize (Ht eq_refl p eq_refl).
    unfold handle_publish_action. destruct (negb can); [by intros [= <-]|].
    destruct (host_current_kyn _ _ _ _ _) as [d' k].
    destruct (process (ap_state p) msg 0) as [[st r]|] eqn:E; cbn; [|done].
    pose proof (durable_saved d disk p st r msg _ Hd Ht E) as (saved & Hr & HP).
    assert (HN : queue_inv RoleDaemon (MkMachine d' (if is_ok r then (save_action_to_disk st true disk).1 else disk)
      (Some (set_ap_state st p)))).
    { split; [exists saved; cbn; by rewrite Ht|by intros _ q [= <-]]. }
    destruct r; cbn in *; [destruct ser, ok|]; intros [= <-]; exact HN.
Qed.

Lemma machine_run_inv role inputs m m' :
  Forall ordered_input inputs -> queue_inv role m -> run role inputs m = Some m' -> queue_inv role m'.
Proof.
  intros HF. revert m. induction HF as [|i inputs Hi HF IH]; intros m HI; cbn; [by intros [= <-]|].
  destruct (step role i m) as [m1|] eqn:E; cbn; [|done]. apply IH. by eapply machine_step_inv.
Qed.

(** C10: durability.  While the file system accepts the writes and the pool runs
    the saves in order, at every moment with no save pending, and for the
    daemon always, a restart loads the state the process holds, but for
    executed actions that have expired since the save; what the process refuses
    as already executed it refuses after the restart, at the same kyn. *)
Theorem action_state_durable role inputs d m p :
  Forall ordered_input inputs -> run role inputs (power_on d) = Some m -> mc_proc m = Some p ->
  (role <> RoleDaemon -> ap_tasks p = []) ->
  exists saved, (forall rename_ok, load_action_from_disk (mc_disk m) rename_ok = (mc_disk m, Some saved)) /\
    preserves saved (ap_state p) /\
    forall msg now st', process (ap_state p) msg now = Some (st', Err AlreadyExecuted) ->
      exists saved', process saved msg now = Some (saved', Err AlreadyExecuted).
Proof.
  intros HF Hrun Hp Hq.
  destruct (machine_run_inv role inputs (power_on d) m HF) as [Hd Ht]; [by split|done|].
  assert (Hn : ap_tasks p = []) by (destruct role; auto).
  unfold durable in Hd. rewrite Hp in Hd. destruct Hd as (saved & Hr & HP). rewrite Hn in Hr. cbn in Hr.
  exists saved. split_and!; [|done|].
  - intros rename_ok. rewrite (load_rename _ _ rename_ok) in Hr.
    destruct (load_action_from_disk (mc_disk m) rename_ok) as [disk' o] eqn:El. cbn in Hr. subst o.
    by rewrite (load_some _ _ _ _ El).
  - intros msg now st'. by apply preserves_replay.
Qed.

(** *** Saves that run out of order *)

Lemma listen_accepts role now body io d disk p msg st eff :
  role <> RoleDaemon -> action_from_slice body = Some msg ->
  process (ap_state p) msg (current_kyn role now d).2 = Some (st, Ok eff) ->
  step role (InGossip now GOSSIP_TOPIC_GLOBAL (opcode_byte OpAction :: body) io)
    (MkMachine d disk (Some p))
  = Some (MkMachine (current_kyn role now d).1 disk
      (Some (set_ap_tasks (ap_tasks p ++ [MkSaveTask true st]) (set_ap_state st p)))).
Proof.
  intros Hr Hb Hp. destruct role; [| |done]; cbn in Hp |- *.
  - unfold node_listener, handle_action_gossip. rewrite bool_decide_eq_true_2, Z.eqb_refl by done.
    cbn. destruct (node_current_kyn _ _ _ _ _) as [d' k]. rewrite Hb. cbn in Hp. by rewrite Hp.
  - unfold host_listener. rewrite bool_decide_eq_true_2, Z.eqb_refl, Hb by done.
    cbn. destruct (host_current_kyn _ _ _ _ _) as [d' k]. cbn in Hp. by rewrite Hp.
Qed.

Lemma accepted_log st msg now st' eff :
  process st msg now = Some (st', Ok eff) -> action_log st' = action_log st ++ [msg].
Proof.
  intros H. apply process_ok_state in H as (st1 & eff' & Hx & ->). cbn. f_equal.
  unfold sovereign_execute_action in Hx.
  destruct (sna_action msg); repeat case_match; by injection Hx as <- <-.
Qed.

(** The node and the host can forget an action they executed.  They save
    a snapshot of the state from the blocking pool; when the saves of two
    accepted actions run in the other order, both succeed, the file ends with
    the older state, and the next start loads it and, its log not being empty,
    asks no peer: the later action is lost and would be executed again. *)
Theorem reordered_saves_forget role now1 now2 b1 b2 d disk p msg1 msg2 st1 st2 eff1 eff2 answers :
  role <> RoleDaemon -> ap_tasks p = [] ->
  action_from_slice b1 = Some msg1 -> action_from_slice b2 = Some msg2 ->
  process (ap_state p) msg1 (current_kyn role now1 d).2 = Some (st1, Ok eff1) ->
  process st1 msg2 (current_kyn role now2 (current_kyn role now1 d).1).2 = Some (st2, Ok eff2) ->
  exists m, run role
    [InGossip now1 GOSSIP_TOPIC_GLOBAL (opcode_byte OpAction :: b1) true;
     InGossip now2 GOSSIP_TOPIC_GLOBAL (opcode_byte OpAction :: b2) true;
     InSave 1 true; InSave 0 true] (MkMachine d disk (Some p)) = Some m /\
  (exists q, mc_proc m = Some q /\ ap_state q = st2 /\ ap_tasks q = [] /\ action_log st2 = action_log st1 ++ [msg2]) /\
  exists m' q', run role [InBoot true answers true] m = Some m' /\ mc_proc m' = Some q' /\
    ap_state q' = st1.
Proof.
  intros Hr Ht H1 H2 P1 P2. cbn [machine_run].
  rewrite (listen_accepts role now1 b1 true d disk p msg1 st1 eff1) by done. cbn [mbind option_bind].
  rewrite (listen_accepts role now2 b2 true _ disk _ msg2 st2 eff2) by done. cbn [mbind option_bind].
  set (dd := (current_kyn role now2 (current_kyn role now1 d).1).1).
  cbn. unfold run_save. rewrite Ht. cbn.
  eexists. split; [reflexivity|]. split.
  { eexists. split; [reflexivity|]. cbn. split; [done|]. split; [done|]. by eapply accepted_log. }
  cbn. unfold boot. cbn [mc_disk mc_sto].
  match goal with |- context [load_action_from_disk ?dk true] => set (disk' := dk) end.
  assert (Hl : load_action_from_disk disk' true = (disk', Some st1)).
  { pose proof (load_saved st1 (save_action_to_disk st2 true disk).1 true) as Hl.
    fold disk' in Hl. destruct (load_action_from_disk disk' true) as [dk o] eqn:El. cbn in Hl. subst o.
    by rewrite (load_some _ _ _ _ El). }
  rewrite Hl. rewrite (accepted_log _ _ _ _ _ P1).
  destruct (action_log (ap_state p)); cbn; eauto.
Qed.

(** *** Messages processed at kyn 0 *)

Lemma stale_refused st msg now :
  abs_diff now (timestamp_kyn msg) > MAX_AGE_KYNS -> process st msg now = Some (st, Err StaleProposal).
Proof.
  intros H. rewrite process_eq. unfold sovereign_verify_action. cbn [max_age_kyns action_config].
  by rewrite (proj2 (Z.gtb_lt _ _) (Z.gt_lt _ _ H)).
Qed.

Lemma synced_refused st actions :
  Forall (fun msg => KYN_GENESIS <= timestamp_kyn msg) actions ->
  apply_synced SOVEREIGN_KEY_HEX is_dev_mode st actions = Some st.
Proof.
  induction 1 as [|msg actions Hm _ IH]; cbn; [done|]. rewrite stale_refused; [done|].
  revert Hm. unfold abs_diff, KYN_GENESIS, MAX_AGE_KYNS. cbn. lia.
Qed.

Lemma sync_refused answers io disk p :
  Forall (fun a => forall actions, a = Some actions ->
    Forall (fun msg => KYN_GENESIS <= timestamp_kyn msg) actions) answers ->
  ap_loop_log p = action_log (ap_state p) ->
  exists disk' q, action_sync_loop SOVEREIGN_KEY_HEX is_dev_mode answers io disk p = Some (disk', q) /\
    ap_state q = ap_state p /\ ap_loop_log q = action_log (ap_state p).
Proof.
  intros HF Hp. induction HF as [|a rest Ha _ IH]; cbn [action_sync_loop]; [eauto|].
  destruct a as [[|x l]|]; [exact IH| |exact IH].
  rewrite synced_refused by (by apply Ha). cbn. eauto.
Qed.

(** What start-up and the API process at kyn 0 can never take effect on a
    running network.  A start with no state file ends with the genesis state
    and an empty log whatever actions dated since genesis the peers answer
    with; the API refuses every such action as stale; and an action that is
    accepted at kyn 0 is refused as stale by every listener whose clock has
    reached genesis. *)
Theorem kyn_zero_refuses :
  (forall rename_ok io answers d backups,
     Forall (fun a => forall actions, a = Some actions ->
       Forall (fun msg => KYN_GENESIS <= timestamp_kyn msg) actions) answers ->
     exists m p, boot SOVEREIGN_KEY_HEX is_dev_mode rename_ok answers io
         (MkMachine d (MkActionDisk FileMissing backups) None) = Some m /\
       mc_proc m = Some p /\ ap_state p = action_state_new KYN_GENESIS /\ ap_loop_log p = []) /\
  (forall msg io ser ok now m p, KYN_GENESIS <= timestamp_kyn msg -> mc_proc m = Some p ->
     exists d, api true msg io ser ok now m p
       = Some (MkMachine d (mc_disk m) (Some p), PaInvalid StaleProposal, None)) /\
  (forall msg st st' eff, process st msg 0 = Some (st', Ok eff) ->
     forall st2 now, KYN_GENESIS <= now -> process st2 msg now = Some (st2, Err StaleProposal)).
Proof.
  split_and!.
  - intros rename_ok io answers d backups HF. unfold boot. cbn [load_action_from_disk action_file mc_disk].
    cbn [action_log action_state_new].
    destruct (sync_refused answers io (MkActionDisk FileMissing backups)
      (MkActionProc (action_state_new KYN_GENESIS) [] [] [] [] []) HF eq_refl) as (disk & q & -> & Hs & Hl).
    cbn. eauto 10.
  - intros msg io ser ok now [d disk mp] p Hm Hp. cbn in Hp. subst mp. unfold handle_publish_action. cbn.
    destruct (host_current_kyn _ _ _ _ _) as [d' k]. exists d'.
    rewrite stale_refused; [destruct p; done|].
    revert Hm. unfold abs_diff, KYN_GENESIS, MAX_AGE_KYNS. cbn. lia.
  - intros msg st st' eff H st2 now Hn. apply stale_refused.
    rewrite process_eq in H. unfold sovereign_verify_action in H. cbn [max_age_kyns action_config] in H.
    destruct (abs_diff 0 (timestamp_kyn msg) >? MAX_AGE_KYNS) eqn:E; [done|]. zbool.
    revert Hn E. unfold abs_diff, KYN_GENESIS, MAX_AGE_KYNS. cbn. lia.
Qed.

(** *** A corrupt state file *)

(** A corrupt file stops one start only.  The start panics and moves the
    file away; the next one finds no file and runs from the genesis state,
    under the pinned key and not halted, whatever was rotated or halted before.
    Only when the file cannot be moved does every start panic. *)
Theorem corrupt_state_reset role b backups d answers io mp :
  state_of_bin b = None ->
  (exists m1, step role (InBoot true answers io) (MkMachine d (MkActionDisk (FileBytes b) backups) mp) = Some m1 /\
     mc_proc m1 = None /\ mc_disk m1 = MkActionDisk FileMissing (backups ++ [b]) /\
     exists m2 p, step role (InBoot true [] io) m1 = Some m2 /\ mc_proc m2 = Some p /\
       ap_state p = action_state_new KYN_GENESIS) /\
  step role (InBoot false answers io) (MkMachine d (MkActionDisk (FileBytes b) backups) mp)
    = Some (MkMachine d (MkActionDisk (FileBytes b) backups) None).
Proof.
  intros Hb. cbn. unfold boot, load_action_from_disk. cbn. rewrite Hb. split; [|done].
  eexists. split; [reflexivity|]. cbn. eauto 10.
Qed.

End NodeFacts.
