(* ===== verification/ApiAuth.v ===== *)
(** * Authentication of the daemon's HTTP API

    [kinetic-daemon/src/api/mod.rs] (roles, tokens, routes, the middleware)
    and [api/auth.rs] (the sessions of third-party applications, kept in the
    storage under [session:] and [session_token:] keys). *)
From Stdlib Require Import String.
From S2P Require Import Prelude Bytes Config Crypto Kyn Names Net Kid Records Action Lru Peers DnsTree Storage StoreVerify TieBreaker Store EventLoop Oracle.
#[local] Open Scope Z_scope.

(** ** Roles *)

Record Role := MkRole {
  is_admin : bool;
  kid : bool;
  nrs : bool;
  vdf : bool;
  action : bool;
  gossip : bool;
  metric : bool;
  system : bool;
  atlas : bool;
  heartbeat : bool }.

Definition can_kid (r : Role) : bool := is_admin r || kid r.
Definition can_nrs (r : Role) : bool := is_admin r || nrs r.
Definition can_vdf (r : Role) : bool := is_admin r || vdf r.
Definition can_action (r : Role) : bool := is_admin r || action r.
Definition can_gossip (r : Role) : bool := is_admin r || gossip r.
Definition can_metric (r : Role) : bool := is_admin r || metric r.
Definition can_system (r : Role) : bool := is_admin r || system r.
Definition can_atlas (r : Role) : bool := is_admin r || atlas r.
Definition can_heartbeat (r : Role) : bool := is_admin r || heartbeat r.

Definition no_role : Role := MkRole false false false false false false false false false false.
Definition admin_role : Role := MkRole true true true true true true true true true true.

(** The arms of the loop over the scopes of a session, already in lower case. *)
Definition add_scope (scope : bytes) (r : Role) : Role :=
  let '(MkRole ad ki nr vd ac go me sy at_ he) := r in
  if bool_decide (scope = bs "admin") then MkRole true ki nr vd ac go me sy at_ he
  else if bool_decide (scope = bs "kid") then MkRole ad true nr vd ac go me sy at_ he
  else if bool_decide (scope = bs "nrs") then MkRole ad ki true vd ac go me sy at_ he
  else if bool_decide (scope = bs "vdf") then MkRole ad ki nr true ac go me sy at_ he
  else if bool_decide (scope = bs "action") then MkRole ad ki nr vd true go me sy at_ he
  else if bool_decide (scope = bs "gossip") then MkRole ad ki nr vd ac true me sy at_ he
  else if bool_decide (scope = bs "metric") then MkRole ad ki nr vd ac go true sy at_ he
  else if bool_decide (scope = bs "system") then MkRole ad ki nr vd ac go me true at_ he
  else if bool_decide (scope = bs "atlas") then MkRole ad ki nr vd ac go me sy true he
  else if bool_decide (scope = bs "heartbeat") then MkRole ad ki nr vd ac go me sy at_ true
  else r.

Record ApiTokens := MkApiTokens {
  tk_admin : bytes;
  tk_kid : bytes;
  tk_nrs : bytes;
  tk_vdf : bytes;
  tk_action : bytes;
  tk_gossip : bytes;
  tk_metric : bytes;
  tk_system : bytes;
  tk_atlas : bytes;
  tk_heartbeat : bytes }.

(** The token and the role of each call of [check_token], in order. *)
Definition token_roles (t : ApiTokens) : list (bytes * Role) :=
  [(tk_admin t, admin_role);
   (tk_kid t, MkRole false true false false false false false false false false);
   (tk_nrs t, MkRole false false true false false false false false false false);
   (tk_vdf t, MkRole false false false true false false false false false false);
   (tk_action t, MkRole false false false false true false false false false false);
   (tk_gossip t, MkRole false false false false false true false false false false);
   (tk_metric t, MkRole false false false false false false true false false false);
   (tk_system t, MkRole false false false false false false false true false false);
   (tk_atlas t, MkRole false false false false false false false false true false);
   (tk_heartbeat t, MkRole false false false false false false false false false true)].

(** The comparison of equal lengths in constant time; a later match replaces
    an earlier one. *)
Definition matched_role (t : ApiTokens) (provided_token : bytes) : option Role :=
  fold_left (fun matched '(expected, r) => if bool_decide (provided_token = expected) then Some r else matched)
    (token_roles t) None.

(** ** Sessions *)

Record AppSession := MkAppSession {
  ses_id : bytes;
  ses_token : bytes;
  ses_app_name : bytes;
  ses_scopes : list bytes;
  created_at : Z;
  expiry_kyn : Z }.

Record CreateSessionRequest := MkCreateSession {
  cs_app_name : bytes;
  cs_scopes : list bytes;
  cs_expiry_kyn : Z }.

(** [serde_json] at the type [AppSession]. *)
Class SessionJson := {
  session_to_vec : AppSession -> bytes;
  session_from_slice : bytes -> option AppSession }.

Class SessionJsonLaws `{SessionJson} := session_json_round s : session_from_slice (session_to_vec s) = Some s.

Inductive SessionError :=
  | SesInsufficientPrivileges
  | SesSecondaryAdmin
  | SesNoScope
  | SesNotFound
  | SesStorage (e : StorageError).

Definition session_key (id : bytes) : bytes := bs "session:" ++ id.
Definition session_token_key (token : bytes) : bytes := bs "session_token:" ++ token.

#[global] Arguments session_key : simpl never.
#[global] Arguments session_token_key : simpl never.

Section Auth.
Context {HUni : UnicodeCase} {HSha : Sha2} {HCod : Codecs} {HBv : BeaconVerify} {HSto : StorageEngine}
  {HSerde : Serde} {HRea : ReactorJson} {HSes : SessionJson}.
Variables (is_dev_mode : bool) (provider : BeaconProvider) (DB_PREFIX_LAST_KYN : bytes) (tokens : ApiTokens).

Definition session_role (scopes : list bytes) : Role :=
  fold_left (fun r scope => add_scope (to_lowercase scope) r) scopes no_role.

(** The part of the middleware after the static tokens. *)
Definition session_auth (provided_token : bytes) (s : Sto) : option Role :=
  match sto_get s (session_token_key provided_token) with
  | Ok (Some id_bytes) =>
      if utf8_valid id_bytes then
        match sto_get s (session_key id_bytes) with
        | Ok (Some bytes) =>
            session ← session_from_slice bytes;
            let current_kyn :=
              match load_cached is_dev_mode provider DB_PREFIX_LAST_KYN s with
              | Ok d => rk_kyn d
              | Err _ => 0
              end in
            if (current_kyn >? 0) && (current_kyn >? expiry_kyn session) then None
            else Some (session_role (ses_scopes session))
        | _ => None
        end
      else None
  | _ => None
  end.

(** The role a request runs with; [None] is the answer 401.  [header] is the
    [Authorization] header when it is a visible string. *)
Definition auth_middleware (header : option bytes) (s : Sto) : option Role :=
  header ← header;
  if negb (starts_with (bs "Bearer ") header) then None else
  let provided_token := trim_start_matches (bs "Bearer ") header in
  match matched_role tokens provided_token with
  | Some r => Some r
  | None => session_auth provided_token s
  end.

(** [rand_bytes], [id] and [now] come from the generator and the clock. *)
Definition handle_create_session (role : Role) (req : CreateSessionRequest) (rand_bytes id : bytes) (now : Z)
    (s : Sto) : Sto * Result SessionError (bytes * bytes) :=
  if negb (is_admin role) then (s, Err SesInsufficientPrivileges) else
  if existsb (fun scope => bool_decide (to_lowercase scope = bs "admin")) (cs_scopes req)
  then (s, Err SesSecondaryAdmin) else
  if bool_decide (cs_scopes req = []) then (s, Err SesNoScope) else
  let token := hex_lower rand_bytes in
  let session := MkAppSession id token (cs_app_name req) (cs_scopes req) now (cs_expiry_kyn req) in
  match sto_put s (session_key id) (session_to_vec session) with
  | (s, Err e) => (s, Err (SesStorage e))
  | (s, Ok _) =>
      match sto_put s (session_token_key token) id with
      | (s, Err e) => (s, Err (SesStorage e))
      | (s, Ok _) => (s, Ok (id, token))
      end
  end.

Definition handle_list_sessions (role : Role) (s : Sto) : Result SessionError (list AppSession) :=
  bail_if (negb (is_admin role)) SesInsufficientPrivileges;;
  Ok match sto_scan_prefix s (bs "session:") None with
     | Ok entries =>
         omap (fun '(k, v) =>
           if starts_with (bs "session_token:") k then None
           else session ← session_from_slice v;
                Some (MkAppSession (ses_id session) (bs "hidden") (ses_app_name session) (ses_scopes session)
                        (created_at session) (expiry_kyn session))) entries
     | Err _ => []
     end.

Definition handle_revoke_session (role : Role) (id : bytes) (s : Sto) : Sto * Result SessionError unit :=
  if negb (is_admin role) then (s, Err SesInsufficientPrivileges) else
  match sto_get s (session_key id) with
  | Ok (Some bytes) =>
      let s :=
        match session_from_slice bytes with
        | Some session => (sto_delete s (session_token_key (ses_token session))).1
        | None => s
        end in
      match sto_delete s (session_key id) with
      | (s, Err e) => (s, Err (SesStorage e))
      | (s, Ok _) => (s, Ok tt)
      end
  | _ => (s, Err SesNotFound)
  end.

End Auth.

(** ** The routes *)

Inductive Method := GET | POST | DELETE.

(** The router of [app] below the middleware, and the one without it: method,
    path and handler. *)
Definition auth_routes : list (Method * string * string) := [
  (POST, "/v1/micro/system/shutdown", "system::handle_shutdown");
  (POST, "/v1/micro/system/restart", "system::handle_restart");
  (GET, "/v1/micro/system/ca-cert", "system::handle_get_ca_cert");
  (POST, "/v1/micro/network/bootstrap", "config::handle_network_bootstrap");
  (POST, "/v1/micro/auth/session", "auth::handle_create_session");
  (GET, "/v1/micro/auth/sessions", "auth::handle_list_sessions");
  (DELETE, "/v1/micro/auth/session/{id}", "auth::handle_revoke_session");
  (POST, "/v1/micro/nrs/record/commit", "handle_publish_commit");
  (POST, "/v1/micro/nrs/record/publish", "handle_publish_record");
  (POST, "/v1/micro/kid/publish", "handle_publish_kid");
  (POST, "/v1/micro/kid/manifest/publish", "handle_publish_manifest");
  (POST, "/v1/micro/kid/generate", "handle_generate_kid");
  (POST, "/v1/micro/kid/{name}/rotate", "handle_rotate_kid");
  (POST, "/v1/micro/kid/{name}/revoke", "handle_revoke_kid");
  (POST, "/v1/micro/kid/{name}/manifest", "handle_update_kid_manifest");
  (POST, "/v1/micro/action/publish", "action::handle_publish_action");
  (GET, "/v1/micro/config", "handle_get_config");
  (POST, "/v1/micro/config", "handle_set_config");
  (POST, "/v1/micro/config/dns/flush", "config::handle_dns_flush");
  (GET, "/v1/macro/tasks", "handle_macro_tasks");
  (GET, "/v1/macro/status/{task_id}", "handle_macro_status");
  (GET, "/v1/micro/nrs/owned", "handle_owned_names");
  (POST, "/v1/micro/nrs/zone/{name}", "handle_post_zone");
  (POST, "/v1/micro/nrs/zone/local/{name}", "handle_post_local_zone");
  (DELETE, "/v1/micro/nrs/zone/local/{name}", "handle_delete_local_zone");
  (POST, "/v1/micro/nrs/zone/{name}/publish", "handle_publish_zone");
  (POST, "/v1/micro/nrs/nrs-update/{name}", "handle_publish_nrs_update");
  (POST, "/v1/macro/register", "handle_macro_register_name");
  (POST, "/v1/macro/renew", "handle_macro_renew_name");
  (POST, "/v1/micro/gossip/publish/{topic}", "handle_gossip_publish");
  (POST, "/v1/micro/atlas/sync", "handle_atlas_sync");
  (POST, "/v1/micro/nrs/heartbeat/{name}", "handle_post_heartbeat");
  (POST, "/v1/micro/nrs/authorized-update/{name}", "handle_post_authorized_update")]%string.

Definition public_api_routes : list (Method * string * string) := [
  (GET, "/v1/micro/health", "handle_get_health");
  (GET, "/v1/micro/vdf/iterations/{name}", "vdf_api::handle_get_iterations");
  (GET, "/v1/micro/vdf/takeover-iterations/{name}", "vdf_api::handle_takeover_iterations");
  (POST, "/v1/micro/nrs/validate", "vdf_api::handle_validate_name");
  (GET, "/v1/micro/network/peer-id", "handle_get_peer_id");
  (GET, "/v1/micro/network/status", "handle_network_status");
  (GET, "/v1/micro/network/nat", "config::handle_network_nat");
  (GET, "/v1/micro/network/peers", "handle_network_peers");
  (GET, "/v1/micro/nrs/heartbeats", "handle_get_heartbeats");
  (GET, "/v1/micro/network/peers/banned", "config::handle_network_banned");
  (GET, "/v1/micro/gossip/topics", "handle_get_gossip_topics");
  (GET, "/v1/micro/nrs/names/reserved", "handle_get_reserved_names");
  (GET, "/v1/micro/action/status", "action::handle_get_action_status");
  (GET, "/v1/micro/nrs/zone/{name}", "handle_get_zone");
  (GET, "/v1/micro/nrs/zone/local/{name}", "handle_get_local_zone");
  (GET, "/v1/micro/nrs/resolve/{name}", "handle_resolve_name");
  (POST, "/v1/micro/nrs/resolve/{name}/quorum", "handle_verify_quorum");
  (GET, "/v1/micro/kid/resolve/{did}", "handle_resolve_kid");
  (GET, "/v1/micro/kid/list", "handle_list_kids");
  (GET, "/v1/micro/kid/{name}", "handle_fetch_kid");
  (GET, "/v1/micro/kid/{name}/manifest", "handle_get_kid_manifest");
  (GET, "/v1/micro/time/current", "handle_get_time");
  (GET, "/v1/micro/gossip/subscribe/{topic}", "handle_gossip_subscribe")]%string.

(** The predicate of the CORS layer. *)
Definition cors_allows (bind_ip o : bytes) : bool :=
  starts_with (bs "http://localhost:") o
  || starts_with (bs "http://127.0.0.1:") o
  || starts_with (bs "http://" ++ bind_ip ++ bs ":") o
  || starts_with (bs "http://[::1]:") o
  || bool_decide (o = bs "http://localhost")
  || bool_decide (o = bs "http://127.0.0.1")
  || bool_decide (o = bs "http://" ++ bind_ip)
  || bool_decide (o = bs "http://[::1]")
  || starts_with (bs "chrome-extension://") o
  || starts_with (bs "moz-extension://") o.

(** No route without the middleware writes but for two checks. *)
Example public_writes :
  map snd (List.filter (fun '(m, _, _) => match m with GET => false | _ => true end) public_api_routes)
  = ["vdf_api::handle_validate_name"; "handle_verify_quorum"]%string.
Proof. reflexivity. Qed.

(** ** Facts *)

Section AuthFacts.
Context {HUni : UnicodeCase} {HSha : Sha2} {HCod : Codecs} {HBv : BeaconVerify} {HSto : StorageEngine}
  {HSerde : Serde} {HRea : ReactorJson} {HSes : SessionJson} {HSesLaws : SessionJsonLaws}
  {HCon : StorageContract HSto} {HFail : StorageFailure HSto}.
Variables (is_dev_mode : bool) (provider : BeaconProvider) (DB_PREFIX_LAST_KYN : bytes) (tokens : ApiTokens).

Notation auth := (auth_middleware is_dev_mode provider DB_PREFIX_LAST_KYN tokens).
Notation view s := (btree_view (sto_tree s)).

(** The operations that change the storage: the two handlers, and whatever the
    rest of the daemon stores under keys of its own. *)
Inductive AuthOp :=
  | OpCreate (role : Role) (req : CreateSessionRequest) (rand_bytes id : bytes) (now : Z)
  | OpRevoke (role : Role) (id : bytes)
  | OpPut (k v : bytes)
  | OpDelete (k : bytes).

Definition auth_apply (s : Sto) (o : AuthOp) : Sto :=
  match o with
  | OpCreate role req rand_bytes id now => (handle_create_session role req rand_bytes id now s).1
  | OpRevoke role id => (handle_revoke_session role id s).1
  | OpPut k v => (sto_put s k v).1
  | OpDelete k => (sto_delete s k).1
  end.

Definition own_key (k : bytes) : Prop :=
  starts_with (bs "session:") k = false /\ starts_with (bs "session_token:") k = false.

Definition own_keys (o : AuthOp) : Prop :=
  match o with OpPut k _ | OpDelete k => own_key k | _ => True end.

Lemma session_key_inj a b : session_key a = session_key b -> a = b.
Proof. apply app_inv_head. Qed.

Lemma session_token_key_inj a b : session_token_key a = session_token_key b -> a = b.
Proof. apply app_inv_head. Qed.

Lemma keys_disjoint a b : session_key a <> session_token_key b.
Proof. unfold session_key, session_token_key. cbn. discriminate. Qed.

Lemma own_not_session k id : own_key k -> k <> session_key id.
Proof. intros [H _] ->. revert H. unfold session_key. by rewrite starts_with_app. Qed.

Lemma own_not_token k t : own_key k -> k <> session_token_key t.
Proof. intros [_ H] ->. revert H. unfold session_token_key. by rewrite starts_with_app. Qed.

(** A write, whatever it reports. *)
Lemma put_view s k v : sto_inv s ->
  sto_inv (sto_put s k v).1 /\
  (view (sto_put s k v).1 = view s \/ view (sto_put s k v).1 = <[k := v]> (view s)).
Proof.
  intros Hi. destruct (sto_put s k v) as [s' [[]|e]] eqn:E; cbn.
  - apply sto_put_ok in E; [|done]. naive_solver.
  - by eapply sto_put_fail.
Qed.

Lemma delete_view s k : sto_inv s ->
  sto_inv (sto_delete s k).1 /\
  (view (sto_delete s k).1 = view s \/ view (sto_delete s k).1 = delete k (view s)).
Proof.
  intros Hi. destruct (sto_delete s k) as [s' [[]|e]] eqn:E; cbn.
  - apply sto_delete_ok in E; [|done]. naive_solver.
  - by eapply sto_delete_fail.
Qed.

(** What is stored under one key after an operation. *)
Definition allowed (o : AuthOp) (k : bytes) (before after : option bytes) : Prop :=
  after = before \/
  match o with
  | OpCreate role req rand_bytes id now =>
      is_admin role = true /\
      Forall (fun scope => to_lowercase scope <> bs "admin") (cs_scopes req) /\
      ((k = session_key id /\ after = Some (session_to_vec
          (MkAppSession id (hex_lower rand_bytes) (cs_app_name req) (cs_scopes req) now (cs_expiry_kyn req)))) \/
       (k = session_token_key (hex_lower rand_bytes) /\ after = Some id))
  | OpRevoke _ _ => after = None
  | OpPut k' v => k' = k /\ after = Some v
  | OpDelete k' => k' = k /\ after = None
  end.

Lemma view_put_lookup s k v k' : sto_inv s ->
  view (sto_put s k v).1 !! k' = view s !! k' \/ (k = k' /\ view (sto_put s k v).1 !! k' = Some v).
Proof.
  intros Hi. destruct (put_view s k v Hi) as [_ [-> | ->]]; [by left|].
  destruct (decide (k = k')) as [<-|Hn]; [right; by rewrite lookup_insert_eq|left; by rewrite lookup_insert_ne].
Qed.

Lemma view_delete_lookup s k k' : sto_inv s ->
  view (sto_delete s k).1 !! k' = view s !! k' \/ (k = k' /\ view (sto_delete s k).1 !! k' = None).
Proof.
  intros Hi. destruct (delete_view s k Hi) as [_ [-> | ->]]; [by left|].
  destruct (decide (k = k')) as [<-|Hn]; [right; by rewrite lookup_delete_eq|left; by rewrite lookup_delete_ne].
Qed.

Lemma apply_allowed s o k : sto_inv s ->
  sto_inv (auth_apply s o) /\ allowed o k (view s !! k) (view (auth_apply s o) !! k).
Proof.
  intros Hi. destruct o as [role req rand_bytes id now|role id|k' v|k']; cbn.
  - unfold handle_create_session. destruct (is_admin role) eqn:Ha; cbn; [|split; [done|by left]].
    destruct (existsb _ _) eqn:Ex; [split; [done|by left]|].
    assert (Hs : Forall (fun scope => to_lowercase scope <> bs "admin") (cs_scopes req)).
    { apply Forall_forall. intros sc Hin Heq. apply not_true_iff_false in Ex. apply Ex.
      apply existsb_exists. exists sc. split; [by apply list_elem_of_In|by apply bool_decide_eq_true_2]. }
    destruct (bool_decide _); [split; [done|by left]|].
    set (v1 := session_to_vec _). pose proof (put_view s (session_key id) v1 Hi) as [Hi1 _].
    pose proof (view_put_lookup s (session_key id) v1 k Hi) as H1.
    destruct (sto_put s (session_key id) v1) as [s1 [[]|e]]; cbn in Hi1, H1 |- *;
      [|split; [done|]; destruct H1 as [->|[<- ->]]; [by left|right; auto]].
    pose proof (put_view s1 (session_token_key (hex_lower rand_bytes)) id Hi1) as [Hi2 _].
    pose proof (view_put_lookup s1 (session_token_key (hex_lower rand_bytes)) id k Hi1) as H2.
    assert (allowed (OpCreate role req rand_bytes id now) k (view s !! k)
      (view (sto_put s1 (session_token_key (hex_lower rand_bytes)) id).1 !! k)).
    { destruct H2 as [->|[<- ->]]; [destruct H1 as [->|[<- ->]]; [by left|right; auto]|right; auto]. }
    destruct (sto_put s1 _ id) as [s2 [[]|e]]; done.
  - unfold handle_revoke_session. destruct (negb (is_admin role)); [split; [done|by left]|].
    destruct (sto_get s (session_key id)) as [[b|]|]; [|split; [done|by left]..].
    set (s1 := match session_from_slice b with Some _ => _ | None => _ end).
    assert (H1 : sto_inv s1 /\ (view s1 !! k = view s !! k \/ view s1 !! k = None)).
    { unfold s1. destruct (session_from_slice b) as [ses|]; [|by auto].
      split; [by apply delete_view|].
      destruct (view_delete_lookup s (session_token_key (ses_token ses)) k Hi) as [->|[_ ->]]; auto. }
    destruct H1 as [Hi1 H1].
    pose proof (delete_view s1 (session_key id) Hi1) as [Hi2 _].
    pose proof (view_delete_lookup s1 (session_key id) k Hi1) as H2.
    assert (allowed (OpRevoke role id) k (view s !! k) (view (sto_delete s1 (session_key id)).1 !! k)).
    { destruct H2 as [->|[_ ->]]; [|by right]. destruct H1 as [->| ->]; [by left|by right]. }
    destruct (sto_delete s1 (session_key id)) as [s2 [[]|e]]; done.
  - split; [by apply put_view|]. destruct (view_put_lookup s k' v k Hi) as [->|[<- ->]]; [by left|by right].
  - split; [by apply delete_view|]. destruct (view_delete_lookup s k' k Hi) as [->|[<- ->]]; [by left|by right].
Qed.

Definition auth_run (s : Sto) (ops : list AuthOp) : Sto := fold_left auth_apply ops s.

(** A property of the storage that the operations preserve. *)
Lemma run_preserves (ok : AuthOp -> Prop) (P : Sto -> Prop) s ops :
  (forall s o, sto_inv s -> ok o -> P s -> P (auth_apply s o)) ->
  Forall ok ops -> sto_inv s -> P s -> sto_inv (auth_run s ops) /\ P (auth_run s ops).
Proof.
  intros Hstep HF. revert s. induction HF as [|o ops Ho _ IH]; intros s Hi HP; cbn; [done|].
  apply IH; [by apply (apply_allowed s o [])|by apply Hstep].
Qed.

(** *** The roles *)

Definition has_scope (scopes : list bytes) (scope : bytes) : bool :=
  existsb (fun s => bool_decide (to_lowercase s = scope)) scopes.

Lemma session_role_eq scopes :
  session_role scopes =
  MkRole (has_scope scopes (bs "admin")) (has_scope scopes (bs "kid")) (has_scope scopes (bs "nrs"))
    (has_scope scopes (bs "vdf")) (has_scope scopes (bs "action")) (has_scope scopes (bs "gossip"))
    (has_scope scopes (bs "metric")) (has_scope scopes (bs "system")) (has_scope scopes (bs "atlas"))
    (has_scope scopes (bs "heartbeat")).
Proof.
  unfold session_role. induction scopes as [|scope scopes IH] using rev_ind; [done|].
  rewrite fold_left_app, IH. cbn [fold_left]. unfold has_scope. rewrite !existsb_app. cbn [existsb].
  generalize (to_lowercase scope). intros sc. rewrite !orb_false_r. unfold add_scope.
  repeat case_bool_decide; subst; try discriminate; rewrite ?orb_true_r, ?orb_false_r; done.
Qed.

Lemma matched_role_some t tok r :
  matched_role t tok = Some r -> exists e, (e, r) ∈ token_roles t /\ tok = e.
Proof.
  unfold matched_role. induction (token_roles t) as [|[e r'] l IH] using rev_ind; [done|].
  rewrite fold_left_app. cbn. case_bool_decide as He.
  - intros [= <-]. exists e. split; [set_solver|done].
  - intros (e' & Hin & ->)%IH. exists e'. split; [set_solver|done].
Qed.

Lemma admin_by_token t tok r : matched_role t tok = Some r -> is_admin r = true -> tok = tk_admin t.
Proof.
  intros (e & Hin & ->)%matched_role_some Ha. unfold token_roles in Hin.
  repeat (apply elem_of_cons in Hin as [Hin|Hin]; [injection Hin as -> ->; done || discriminate Ha|]).
  by apply not_elem_of_nil in Hin.
Qed.

(** *** Requests *)

(** The header that carries a token. *)
Definition bearer (header : option bytes) (token : bytes) : Prop :=
  exists h, header = Some h /\ starts_with (bs "Bearer ") h = true /\
    trim_start_matches (bs "Bearer ") h = token.

Lemma auth_bearer header s r : auth header s = Some r -> exists token, bearer header token /\
  (matched_role tokens token = Some r \/
   (matched_role tokens token = None /\ session_auth is_dev_mode provider DB_PREFIX_LAST_KYN token s = Some r)).
Proof.
  unfold auth_middleware. destruct header as [h|]; [|done]. cbn [mbind option_bind].
  destruct (starts_with (bs "Bearer ") h) eqn:E; [|done]. cbn [negb].
  intros H. exists (trim_start_matches (bs "Bearer ") h). split; [by exists h|].
  destruct (matched_role _ _); [by left|by right].
Qed.

Lemma bearer_auth header token s : bearer header token ->
  auth header s = match matched_role tokens token with
                  | Some r => Some r
                  | None => session_auth is_dev_mode provider DB_PREFIX_LAST_KYN token s
                  end.
Proof. intros (h & -> & E & <-). unfold auth_middleware. cbn [mbind option_bind]. by rewrite E. Qed.

(** No stored session asks for the admin scope. *)
Definition no_admin_session (s : Sto) : Prop :=
  forall id v ses, view s !! session_key id = Some v -> session_from_slice v = Some ses ->
    Forall (fun scope => to_lowercase scope <> bs "admin") (ses_scopes ses).

Lemma no_admin_step s o : sto_inv s -> own_keys o -> no_admin_session s -> no_admin_session (auth_apply s o).
Proof.
  intros Hi Ho HP id v ses Hv Hs. destruct (apply_allowed s o (session_key id) Hi) as [_ Ha].
  rewrite Hv in Ha. destruct Ha as [Ha|Ha]; [by eapply HP|].
  destruct o as [role req rand_bytes id' now|role id'|k' v'|k']; [| |destruct Ha as [-> _]..]; [|done| |].
  - destruct Ha as (_ & Hsc & [[_ [= ->]]|[He _]]).
    + rewrite session_json_round in Hs. by injection Hs as <-.
    + by apply keys_disjoint in He.
  - by apply (own_not_session _ id) in Ho.
  - by apply (own_not_session _ id) in Ho.
Qed.

Lemma no_admin_role scopes :
  Forall (fun scope => to_lowercase scope <> bs "admin") scopes -> is_admin (session_role scopes) = false.
Proof.
  rewrite session_role_eq. cbn. unfold has_scope. intros HF. apply not_true_iff_false.
  intros (sc & Hin & Hd%bool_decide_eq_true_1)%existsb_exists.
  rewrite Forall_forall in HF. apply (HF sc); [by apply list_elem_of_In|done].
Qed.

(** C16: no privilege escalation.  From a storage without sessions, whatever
    sequence of session creations and revocations by any role, with requests of
    any scopes, and of writes of the rest of the daemon under its own keys, even
    when writes fail: a request runs as administrator only with the
    administrator's token. *)
Theorem admin_only_by_admin_token s ops header r :
  sto_inv s -> (forall id, view s !! session_key id = None) -> Forall own_keys ops ->
  auth header (auth_run s ops) = Some r -> is_admin r = true -> bearer header (tk_admin tokens).
Proof.
  intros Hi H0 HF Hr Ha.
  destruct (run_preserves own_keys no_admin_session s ops no_admin_step HF Hi) as [Hi' HP].
  { intros id v ses Hv. by rewrite H0 in Hv. }
  apply auth_bearer in Hr as (token & Hb & [Hm|[_ Hs]]).
  { by rewrite (admin_by_token _ _ _ Hm Ha) in Hb. }
  unfold session_auth in Hs.
  destruct (sto_get _ (session_token_key token)) as [[id|]|]; [|done..].
  destruct (utf8_valid id); [|done].
  destruct (sto_get _ (session_key id)) as [[v|]|] eqn:Eg; [|done..].
  apply sto_get_ok in Eg; [|done]. destruct (session_from_slice v) as [ses|] eqn:Ej; cbn [mbind option_bind] in Hs; [|done].
  specialize (HP id v ses (eq_sym Eg) Ej).
  destruct (_ && _); [done|]. injection Hs as <-. by rewrite (no_admin_role _ HP) in Ha.
Qed.

(** *** Revocation *)

(** An operation that reuses neither the identifier nor the token. *)
Definition no_reuse (id token : bytes) (o : AuthOp) : Prop :=
  own_keys o /\
  match o with OpCreate _ _ rand_bytes id' _ => id' <> id /\ hex_lower rand_bytes <> token | _ => True end.

Definition revoked (id token : bytes) (s : Sto) : Prop :=
  view s !! session_key id = None /\
  (view s !! session_token_key token = Some id \/ view s !! session_token_key token = None).

Lemma revoked_step id token s o :
  sto_inv s -> no_reuse id token o -> revoked id token s -> revoked id token (auth_apply s o).
Proof.
  intros Hi [Ho Hn] [H1 H2]. split.
  - destruct (apply_allowed s o (session_key id) Hi) as [_ [->|Ha]]; [done|].
    destruct o as [role req rand_bytes id' now|role id'|k' v'|k'].
    + destruct Ha as (_ & _ & [[He _]|[He _]]); [|by apply keys_disjoint in He].
      apply session_key_inj in He. naive_solver.
    + done.
    + destruct Ha as [-> _]. by apply (own_not_session _ id) in Ho.
    + by destruct Ha.
  - destruct (apply_allowed s o (session_token_key token) Hi) as [_ [->|Ha]]; [done|].
    destruct o as [role req rand_bytes id' now|role id'|k' v'|k'].
    + destruct Ha as (_ & _ & [[He _]|[He _]]); [symmetry in He; by apply keys_disjoint in He|].
      apply session_token_key_inj in He. naive_solver.
    + by right.
    + destruct Ha as [-> _]. by apply (own_not_token _ token) in Ho.
    + right. by destruct Ha.
Qed.

Lemma revoke_revokes role id token s s' :
  sto_inv s -> handle_revoke_session role id s = (s', Ok tt) ->
  view s !! session_token_key token = Some id -> sto_inv s' /\ revoked id token s'.
Proof.
  intros Hi H Ht. unfold handle_revoke_session in H. destruct (negb (is_admin role)); [done|].
  destruct (sto_get s (session_key id)) as [[b|]|]; [|done..].
  set (s1 := match session_from_slice b with Some _ => _ | None => _ end) in H.
  assert (H1 : sto_inv s1 /\ (view s1 !! session_token_key token = Some id \/ view s1 !! session_token_key token = None)).
  { unfold s1. destruct (session_from_slice b) as [ses|]; [|by auto].
    split; [by apply delete_view|].
    destruct (view_delete_lookup s (session_token_key (ses_token ses)) (session_token_key token) Hi) as [->|[_ ->]]; auto. }
  destruct H1 as [Hi1 H1].
  destruct (sto_delete s1 (session_key id)) as [s2 [[]|e]] eqn:Ed; [|done]. injection H as <-.
  apply sto_delete_ok in Ed as [Hi2 Hv]; [|done]. split; [done|]. unfold revoked. rewrite Hv.
  split; [by rewrite lookup_delete_eq|].
  rewrite lookup_delete_ne by apply keys_disjoint. done.
Qed.

(** Revocation is final.  Once the revocation of a session is acknowledged,
    a request with its token is refused, then and after any operations that do
    not draw the same identifier or token again, failing writes included. *)
Theorem revoked_session_refused role id token s s' ops header :
  sto_inv s -> view s !! session_token_key token = Some id -> matched_role tokens token = None ->
  handle_revoke_session role id s = (s', Ok tt) -> Forall (no_reuse id token) ops -> bearer header token ->
  auth header (auth_run s' ops) = None.
Proof.
  intros Hi Ht Hm Hr HF Hb.
  destruct (revoke_revokes role id token s s' Hi Hr Ht) as [Hi' HR].
  destruct (run_preserves (no_reuse id token) (revoked id token) s' ops (revoked_step id token) HF Hi' HR)
    as [Hi2 [H1 H2]].
  rewrite (bearer_auth _ _ _ Hb), Hm. unfold session_auth.
  destruct (sto_get _ (session_token_key token)) as [[id'|]|] eqn:Eg; [|done..].
  apply sto_get_ok in Eg; [|done].
  assert (id' = id) as -> by (destruct H2 as [H2|H2]; congruence).
  destruct (utf8_valid id); [|done].
  destruct (sto_get _ (session_key id)) as [[v|]|] eqn:Eg2; [|done..].
  apply sto_get_ok in Eg2; [|done]. congruence.
Qed.

(** *** A session is granted what it asked for *)

Lemma trim_bearer_hex rand_bytes : wf_bytes rand_bytes ->
  trim_start_matches (bs "Bearer ") (bs "Bearer " ++ hex_lower rand_bytes) = hex_lower rand_bytes.
Proof.
  intros Hw. set (h := hex_lower rand_bytes).
  assert (Hn : starts_with (bs "Bearer ") h = false).
  { pose proof (hex_lower_chars rand_bytes Hw) as Hc. fold h in Hc. destruct h as [|c h]; [done|].
    cbn in Hc. apply andb_true_iff in Hc as [Hc _]. apply andb_true_iff in Hc as [_ Hc].
    apply negb_true_iff in Hc. change (bs "Bearer ") with (66 :: tail (bs "Bearer ")). cbn [starts_with].
    destruct (66 =? c) eqn:E; [|done]. zbool. subst c. discriminate Hc. }
  unfold trim_start_matches. rewrite length_app.
  change (length (bs "Bearer ")) with 7%nat. cbn [plus].
  cbn [trim_start_matches_loop]. rewrite starts_with_app, drop_app_length. by rewrite Hn.
Qed.

(** Round trip.  The token returned for a new session authenticates, until
    the cached kyn passes the expiry, as exactly the scopes that were asked for,
    whatever their case; with no kyn cached it never expires. *)
Theorem session_grants_scopes role req rand_bytes id now s s' id' token :
  sto_inv s -> wf_bytes rand_bytes -> utf8_valid id = true -> matched_role tokens (hex_lower rand_bytes) = None ->
  handle_create_session role req rand_bytes id now s = (s', Ok (id', token)) ->
  (forall k, is_ok (sto_get s' k) = true) ->
  auth (Some (bs "Bearer " ++ token)) s' =
  match load_cached is_dev_mode provider DB_PREFIX_LAST_KYN s' with
  | Ok d => if (rk_kyn d >? 0) && (rk_kyn d >? cs_expiry_kyn req) then None
            else Some (session_role (cs_scopes req))
  | Err _ => Some (session_role (cs_scopes req))
  end /\ is_admin (session_role (cs_scopes req)) = false.
Proof.
  intros Hi Hw Hu Hm H Hg. unfold handle_create_session in H. destruct (is_admin role); cbn in H; [|done].
  destruct (existsb _ _) eqn:Ex; [done|]. destruct (bool_decide _); [done|].
  set (ses := MkAppSession _ _ _ _ _ _) in H.
  destruct (sto_put s (session_key id) (session_to_vec ses)) as [s1 [[]|]] eqn:E1; [|done].
  destruct (sto_put s1 (session_token_key (hex_lower rand_bytes)) id) as [s2 [[]|]] eqn:E2; [|done].
  injection H as -> -> <-. apply sto_put_ok in E1 as [Hi1 V1]; [|done]. apply sto_put_ok in E2 as [Hi2 V2]; [|done].
  assert (Hget : forall k v, view s' !! k = Some v -> sto_get s' k = Ok (Some v)).
  { intros k v Hv. specialize (Hg k). destruct (sto_get s' k) as [o|] eqn:Eg; [|done].
    apply sto_get_ok in Eg; [|done]. by rewrite Eg, Hv. }
  split.
  - rewrite (bearer_auth _ (hex_lower rand_bytes)).
    2: { exists (bs "Bearer " ++ hex_lower rand_bytes). split; [done|]. split; [apply starts_with_app|by apply trim_bearer_hex]. }
    rewrite Hm. unfold session_auth.
    rewrite (Hget (session_token_key (hex_lower rand_bytes)) id') by (rewrite V2; apply lookup_insert_eq).
    rewrite Hu, (Hget (session_key id') (session_to_vec ses)).
    2: { rewrite V2, lookup_insert_ne by (intros He; symmetry in He; by apply keys_disjoint in He).
         rewrite V1. apply lookup_insert_eq. }
    rewrite session_json_round. cbn [mbind option_bind]. destruct (load_cached _ _ _ _) as [d|]; done.
  - apply no_admin_role. apply Forall_forall. intros sc Hin Heq. apply not_true_iff_false in Ex. apply Ex.
    apply existsb_exists. exists sc. split; [by apply list_elem_of_In|by apply bool_decide_eq_true_2].
Qed.

End AuthFacts.

(** ** An application asks for a session *)

Module ToyAuth.
(** A session as a list of fields, each preceded by its length. *)
Definition put_field (b : bytes) : bytes := Z.of_nat (length b) :: b.
Definition get_field (b : bytes) : bytes * bytes :=
  match b with [] => ([], []) | n :: b => (take (Z.to_nat n) b, drop (Z.to_nat n) b) end.
Fixpoint get_fields (n : nat) (b : bytes) : list bytes :=
  match n with O => [] | S n => let '(f, b) := get_field b in f :: get_fields n b end.

Definition json : SessionJson := {|
  session_to_vec s := [created_at s; expiry_kyn s; Z.of_nat (length (ses_scopes s))] ++
    concat (map put_field ([ses_id s; ses_token s; ses_app_name s] ++ ses_scopes s));
  session_from_slice b :=
    match b with
    | c :: e :: n :: b =>
        match get_fields (3 + Z.to_nat n) b with
        | i :: t :: a :: sc => Some (MkAppSession i t a sc c e)
        | _ => None
        end
    | _ => None
    end |}.

Lemma get_put b rest : get_field (put_field b ++ rest) = (b, rest).
Proof. unfold get_field, put_field. cbn. by rewrite Nat2Z.id, take_app_length, drop_app_length. Qed.

Lemma get_puts l : get_fields (length l) (concat (map put_field l)) = l.
Proof. induction l as [|b l IH]; [done|]. cbn [length get_fields map concat]. by rewrite get_put, IH. Qed.

Lemma session_json_laws : @SessionJsonLaws json.
Proof.
  intros [i t a sc c e]. cbn -[get_fields concat map]. rewrite Nat2Z.id.
  change (S (S (S (length sc)))) with (length (i :: t :: a :: sc)).
  by rewrite (get_puts (i :: t :: a :: sc)).
Qed.

Definition serde : Serde := {|
  Json := unit; json_from_slice _ := None; json_has _ _ := false; commitment_from_value _ := None;
  envelope_from_value _ := None; heartbeat_from_value _ := None; auth_kid_from_value _ := None;
  auth_manifest_from_value _ := None; host_route_from_value _ := None; envelope_from_slice _ := None;
  envelope_to_vec _ := None |}.
Definition reactor : @ReactorJson serde := {|
  reveal_from_value _ := None; raw_kyn_from_slice b := Some (MkRawKyn (be_val b) [] [] true false);
  action_from_slice _ := None |}.
Definition tokens : ApiTokens := MkApiTokens (bs "a") (bs "k") (bs "n") (bs "v") (bs "c") (bs "g") (bs "m") (bs "s") (bs "t") (bs "h").
Definition request : CreateSessionRequest := MkCreateSession (bs "app") [bs "NRS"; bs "vdf"] 500.
Definition provider : BeaconProvider := MkProvider true [] [].
Definition key : bytes := bs "last".

#[local] Existing Instances ascii_only Toy.toy_sha2 Toy.toy_codecs toy_beacon serde reactor json session_json_laws.
Definition empty : @Sto (wasm_engine true) := wasm_new.
Definition opened := @handle_create_session ascii_only (wasm_engine true) json admin_role request [16; 255] (bs "id") 7 empty.
End ToyAuth.

Notation toy_auth := (@auth_middleware ascii_only (wasm_engine true) ToyAuth.serde ToyAuth.reactor ToyAuth.json
  false ToyAuth.provider ToyAuth.key ToyAuth.tokens).

Example toy_session : ToyAuth.opened.2 = Ok (bs "id", bs "10ff").
Proof. vm_compute. reflexivity. Qed.

Lemma session_grants_scopes_witness :
  toy_auth (Some (bs "Bearer 10ff")) ToyAuth.opened.1 = Some (@session_role ascii_only [bs "nrs"; bs "vdf"]).
Proof.
  destruct (@session_grants_scopes ascii_only (wasm_engine true) ToyAuth.serde ToyAuth.reactor ToyAuth.json
    ToyAuth.session_json_laws (wasm_contract true) false ToyAuth.provider ToyAuth.key ToyAuth.tokens admin_role ToyAuth.request
    [16; 255] (bs "id") 7 ToyAuth.empty ToyAuth.opened.1 (bs "id") (bs "10ff")) as [H _].
  - constructor.
  - repeat constructor; discriminate.
  - reflexivity.
  - vm_compute. reflexivity.
  - vm_compute. reflexivity.
  - intros k. reflexivity.
  - etransitivity; [exact H|]. vm_compute. reflexivity.
Defined.

Lemma admin_only_by_admin_token_witness :
  is_admin admin_role = true /\
  bearer (Some (bs "Bearer a")) (tk_admin ToyAuth.tokens).
Proof.
  split; [reflexivity|].
  apply (@admin_only_by_admin_token ascii_only (wasm_engine true) ToyAuth.serde ToyAuth.reactor ToyAuth.json
    ToyAuth.session_json_laws (wasm_contract true) (wasm_failure true) false ToyAuth.provider ToyAuth.key ToyAuth.tokens
    ToyAuth.empty [OpCreate admin_role ToyAuth.request [16; 255] (bs "id") 7; OpRevoke admin_role (bs "id")]
    (Some (bs "Bearer a")) admin_role).
  - constructor.
  - intros id. reflexivity.
  - repeat constructor.
  - vm_compute. reflexivity.
  - reflexivity.
Defined.

Lemma revoked_session_refused_witness :
  toy_auth (Some (bs "Bearer 10ff")) (@handle_revoke_session (wasm_engine true) ToyAuth.json admin_role (bs "id") ToyAuth.opened.1).1
  = None.
Proof.
  apply (@revoked_session_refused ascii_only (wasm_engine true) ToyAuth.serde ToyAuth.reactor ToyAuth.json
    (wasm_contract true) (wasm_failure true) false ToyAuth.provider ToyAuth.key ToyAuth.tokens
    admin_role (bs "id") (bs "10ff") ToyAuth.opened.1
    (@handle_revoke_session (wasm_engine true) ToyAuth.json admin_role (bs "id") ToyAuth.opened.1).1 []).
  - vm_compute. repeat constructor.
  - vm_compute. reflexivity.
  - vm_compute. reflexivity.
  - vm_compute. reflexivity.
  - constructor.
  - exists (bs "Bearer 10ff"). split; [reflexivity|]. split; vm_compute; reflexivity.
Defined.
