(* ===== verification/KidManager.v ===== *)
(** * Local identity documents ([kinetic-local/src/kid_manager.rs])

    Creation, inheritance, rotation and revocation of the documents a node
    keeps under [kids/], the manifests signed with their keys, and the root
    identity key that wraps them ([kinetic-local/src/identity.rs], with the
    errors of [kinetic-core/src/error/identity.rs]).  The disk is explicit: it
    maps paths to contents, a write replaces a file at once or fails. *)
From Stdlib Require Import String.
From S2P Require Import Prelude Bytes Sorting Config Crypto Kyn Names Kid Records Action Verify Storage StoreVerify.
#[local] Open Scope Z_scope.

(** ** Errors *)

(** The texts (paths and third-party errors) are not kept. *)
Inductive IdentityError :=
  | IeIo
  | IeCorruptedIdentityFile
  | IeIdentityNotFound
  | IeInvalidSeedPhrase
  | IeDecryptionFailed
  | IeKidAlreadyExists (name : bytes)
  | IeKidNotFound
  | IeInvalidRotation
  | IeKidSigningFailed
  | IeInvalidDid
  | IeKidDeactivated (name : bytes)
  | IeMalformedDocument
  | IeMalformedApexDocument
  | IeMalformedManifest
  | IeSerializationFailed
  | IeManifestSigningFailed
  | IeKidPrivateKeyNotFound
  | IePubkeyMismatch.

#[export] Instance IdentityError_eq_dec : EqDecision IdentityError.
Proof. solve_decision. Defined.

Definition identity_error_code (e : IdentityError) : string :=
  match e with
  | IeIo => "KIN-IDN-001"
  | IeCorruptedIdentityFile => "KIN-IDN-002"
  | IeIdentityNotFound => "KIN-IDN-003"
  | IeInvalidSeedPhrase => "KIN-IDN-004"
  | IeDecryptionFailed => "KIN-IDN-005"
  | IeKidAlreadyExists _ => "KIN-IDN-006"
  | IeKidNotFound => "KIN-IDN-007"
  | IeInvalidRotation => "KIN-IDN-008"
  | IeKidSigningFailed => "KIN-IDN-009"
  | IeInvalidDid => "KIN-IDN-010"
  | IeKidDeactivated _ => "KIN-IDN-011"
  | IeMalformedDocument => "KIN-IDN-012"
  | IeMalformedApexDocument => "KIN-IDN-013"
  | IeMalformedManifest => "KIN-IDN-014"
  | IeSerializationFailed => "KIN-IDN-015"
  | IeManifestSigningFailed => "KIN-IDN-016"
  | IeKidPrivateKeyNotFound => "KIN-IDN-017"
  | IePubkeyMismatch => "KIN-IDN-018"
  end.

Definition identity_error_severity (e : IdentityError) : Severity :=
  match e with
  | IeInvalidSeedPhrase | IeKidAlreadyExists _ | IeKidNotFound | IeKidDeactivated _
  | IeKidPrivateKeyNotFound | IePubkeyMismatch => SevWarning
  | _ => SevError
  end.

Definition identity_error_is_retryable (e : IdentityError) : bool := false.

(** ** Interfaces *)

(** A private key from a seed of 32 bytes and from its secret bytes, and those
    bytes. *)
Class IdentityKeys `{MlDsaSign} := {
  from_seed : bytes -> KineticKeypair;
  from_slice : bytes -> option KineticKeypair;
  to_secret_bytes : KineticKeypair -> bytes }.

(** Documented behaviour: an exported key is read back. *)
Class IdentityKeysLaws `{IdentityKeys} :=
  secret_bytes_round k : from_slice (to_secret_bytes k) = Some k.

(** [serde_json::to_string_pretty] and [from_str] at the two document types. *)
Class KidText := {
  document_to_string : Document -> option bytes;
  document_from_str : bytes -> option Document;
  manifest_to_string : Manifest -> option bytes;
  manifest_from_str : bytes -> option Manifest }.

(** What is read back is what was written; within the bounds of the document
    (the bounded sequences) and with a well-formed DID it is read back. *)
Class KidTextLaws `{KidText} := {
  document_text_sound d b d' : document_to_string d = Some b -> document_from_str b = Some d' -> d' = d;
  document_text_complete d b : document_to_string d = Some b ->
    document_check_bounds d = Ok tt -> did_new (did_id (kid d)) = Ok (kid d) ->
    document_from_str b = Some d;
  manifest_text_sound m b m' : manifest_to_string m = Some b -> manifest_from_str b = Some m' -> m' = m;
  manifest_text_complete m b : manifest_to_string m = Some b ->
    len (services m) <= 50 -> did_new (did_id (m_kid m)) = Ok (m_kid m) ->
    manifest_from_str b = Some m }.

(** [load_keypair]: a file of at least 32 bytes, whose first 32 are the seed. *)
Definition load_keypair `{IdentityKeys} (file : option bytes) : Result IdentityError KineticKeypair :=
  data ← ok_or file IeIdentityNotFound;
  bail_if (len data <? 32) IeCorruptedIdentityFile;;
  Ok (from_seed (take 32 data)).

(** ** Paths *)

Record KidPaths := MkKidPaths { did_path : bytes; key_path : bytes; manifest_path : bytes }.

(** [Path::join]: an absolute component replaces the path. *)
Definition path_join (base comp : bytes) : bytes :=
  if starts_with (bs "/") comp then comp else base ++ bs "/" ++ comp.

Definition SLASH : Z := 47.
Definition PRIMARY_SUFFIX : bytes := bs "#primary".
Definition CONTROLLER : bytes := bs "Controller".

(** The files under the data directory; nothing reads the temporary files of
    the writes. *)
Notation Disk := (gmap bytes bytes).

(** The outcomes of the write of the key and of the write of the document. *)
Record KidIo := MkKidIo { io_key : bool; io_doc : bool }.

Record GeneratedKid := MkGeneratedKid {
  gk_name : bytes;
  gk_did : bytes;
  gk_kid_doc : Document;
  gk_auth_kid : AuthorizedKid;
  gk_doc_path : bytes;
  gk_key_path : option bytes;
  is_inherited : bool }.

Record RotatedKid := MkRotatedKid {
  rk_name : bytes;
  rk_did : bytes;
  rk_kid_doc : Document;
  rk_auth_kid : AuthorizedKid;
  rk_doc_path : bytes;
  rk_key_path : bytes }.

Record LocalKidSummary := MkLocalKidSummary {
  ls_name : bytes;
  ls_did : bytes;
  ls_created_at : Z;
  ls_doc_path : bytes;
  has_key : bool;
  ls_deactivated : bool }.

Section Manager.
Context {HUni : UnicodeCase} {HSha : Sha2} {HSig : MlDsa} {HSign : MlDsaSign} {HCod : Codecs} {HJcs : Jcs}
  {HKeys : IdentityKeys} {HText : KidText}.
(** The salt, the directory [{base_dir}/kids], whether an existing file is
    readable text, and the bytes of [identity.key]. *)
Variables (network_salt kids_dir : bytes) (readable : bytes -> bool) (identity_key : option bytes).

Definition kid_paths (name : bytes) : KidPaths :=
  let fqdn := normalize_name name in
  let apex := extract_apex_name fqdn in
  let is_subname := negb (bool_decide (fqdn = apex)) in
  let cat_dir := if is_subname then path_join kids_dir (bs "subname") else path_join kids_dir (bs "name") in
  MkKidPaths
    (path_join (path_join cat_dir (bs "did")) (fqdn ++ bs ".json"))
    (path_join (path_join cat_dir (bs "keys")) (fqdn ++ bs ".key"))
    (path_join (path_join cat_dir (bs "manifest")) (fqdn ++ bs ".manifest.json")).

Definition path_exists (d : Disk) (path : bytes) : bool := bool_decide (is_Some (d !! path)).

(** [fs::read_to_string] of a path that exists. *)
Definition read_file (d : Disk) (path : bytes) : Result IdentityError bytes :=
  bail_if (negb (readable path)) IeIo;;
  ok_or (d !! path) IeIo.

(** [write_private_key_securely] and [write_json_document]: the temporary file
    is written, synced and renamed over the path, or an error leaves the old
    content. *)
Definition write_file (path content : bytes) (io : bool) (d : Disk) : Disk * Result IdentityError unit :=
  if io then (<[path := content]> d, Ok tt) else (d, Err IeIo).

(** The key, then the document. *)
Definition persist_kid (kp : KidPaths) (secret json : bytes) (io : KidIo) (d : Disk)
  : Disk * Result IdentityError unit :=
  match write_file (key_path kp) secret (io_key io) d with
  | (d, Err e) => (d, Err e)
  | (d, Ok _) => write_file (did_path kp) json (io_doc io) d
  end.

Definition load_raw_signing_key (d : Disk) (path : bytes) : Result IdentityError KineticKeypair :=
  bail_if (negb (path_exists d path)) IeKidPrivateKeyNotFound;;
  data ← read_file d path;
  ok_or (from_slice data) IeCorruptedIdentityFile.

Definition authorize_kid_document (name : bytes) (doc : Document) : Result IdentityError AuthorizedKid :=
  let fqdn := normalize_name name in
  identity_keypair ← load_keypair identity_key;
  let signable := auth_kid_signable_bytes (MkAuthorizedKid fqdn doc []) network_salt in
  Ok (MkAuthorizedKid fqdn doc (kp_sign identity_keypair signable)).

(** ** Creation *)

(** The parent's document for a subname that inherits; [None] when the parent
    has no document. *)
Definition inherit_kid (fqdn apex : bytes) (d : Disk) : option (Result IdentityError GeneratedKid) :=
  let apex_doc_path := did_path (kid_paths apex) in
  if path_exists d apex_doc_path then Some (
    doc_data ← read_file d apex_doc_path;
    apex_doc ← ok_or (document_from_str doc_data) IeMalformedApexDocument;
    auth_kid ← authorize_kid_document fqdn apex_doc;
    Ok (MkGeneratedKid fqdn (did_id (kid apex_doc)) apex_doc auth_kid apex_doc_path None true))
  else None.

Definition fresh_document (did : Did) (now_ts : Z) (pub_key_b64 : bytes) : Document :=
  MkDocument (bs "kinetic.kid.v1") did now_ts
    [MkControllerKey (did_id did ++ PRIMARY_SUFFIX) CONTROLLER pub_key_b64] None [] false None.

(** The document of a fresh key, signed by it, and its text. *)
Definition generate_kid (keypair : KineticKeypair) (current_kyn : Z) : Result IdentityError (Document * bytes) :=
  let pub_key_bytes := to_public_bytes keypair in
  let pub_key_b64 := b64url_encode pub_key_bytes in
  let did_str := DID_PREFIX ++ hex_lower (sha256 pub_key_bytes) in
  kid_did ← map_err (fun _ => IeInvalidDid) (did_new did_str);
  let doc := fresh_document kid_did (to_ukyn current_kyn BEACON_GENESIS) pub_key_b64 in
  signed_doc ← map_err (fun _ => IeKidSigningFailed) (document_sign doc keypair);
  json_data ← ok_or (document_to_string signed_doc) IeSerializationFailed;
  Ok (signed_doc, json_data).

Definition create_kid (fqdn : bytes) (current_kyn : Z) (keypair : KineticKeypair) (io : KidIo) (d : Disk)
  : Disk * Result IdentityError GeneratedKid :=
  let paths := kid_paths fqdn in
  match generate_kid keypair current_kyn with
  | Err e => (d, Err e)
  | Ok (signed_doc, json_data) =>
      match persist_kid paths (to_secret_bytes keypair) json_data io d with
      | (d, Err e) => (d, Err e)
      | (d, Ok _) =>
          (d, auth_kid ← authorize_kid_document fqdn signed_doc;
              Ok (MkGeneratedKid fqdn (did_id (kid signed_doc)) signed_doc auth_kid (did_path paths)
                    (Some (key_path paths)) false))
      end
  end.

(** [keypair] is the fresh key, if one is generated. *)
Definition get_or_create_kid_for_name (name : bytes) (inherit_subname force : bool) (current_kyn : Z)
    (keypair : KineticKeypair) (io : KidIo) (d : Disk) : Disk * Result IdentityError GeneratedKid :=
  let fqdn := normalize_name name in
  let apex := extract_apex_name fqdn in
  let is_subname := negb (bool_decide (fqdn = apex)) in
  match (if is_subname && inherit_subname then inherit_kid fqdn apex d else None) with
  | Some r => (d, r)
  | None =>
      if path_exists d (did_path (kid_paths fqdn)) && negb force then (d, Err (IeKidAlreadyExists fqdn))
      else create_kid fqdn current_kyn keypair io d
  end.

(** ** Rotation and revocation *)

(** The document and the key of a name, both of which must exist. *)
Definition load_kid_and_key (fqdn : bytes) (d : Disk) : Result IdentityError (Document * KineticKeypair) :=
  let paths := kid_paths fqdn in
  bail_if (negb (path_exists d (did_path paths))) IeKidNotFound;;
  bail_if (negb (path_exists d (key_path paths))) IeKidNotFound;;
  doc_str ← read_file d (did_path paths);
  doc ← ok_or (document_from_str doc_str) IeMalformedDocument;
  key ← load_raw_signing_key d (key_path paths);
  Ok (doc, key).

Definition rotated_document (doc : Document) (new_pub_b64 : bytes) : Document :=
  MkDocument (doc_type doc) (kid doc) (created_at doc)
    [MkControllerKey (did_id (kid doc) ++ PRIMARY_SUFFIX) CONTROLLER new_pub_b64]
    (manifest_ptr doc) (revocation_keys doc) (deactivated doc) None.

(** The successor of [doc], signed with the old key, and its text. *)
Definition prepare_rotation (doc : Document) (old_key new_keypair : KineticKeypair)
  : Result IdentityError (Document * bytes) :=
  let doc := rotated_document doc (b64url_encode (to_public_bytes new_keypair)) in
  signed_doc ← map_err (fun _ => IeKidSigningFailed) (document_sign doc old_key);
  json_data ← ok_or (document_to_string signed_doc) IeSerializationFailed;
  Ok (signed_doc, json_data).

Definition rotate_name_kid (name : bytes) (new_keypair : KineticKeypair) (io : KidIo) (d : Disk)
  : Disk * Result IdentityError RotatedKid :=
  let fqdn := normalize_name name in
  let paths := kid_paths fqdn in
  let prepared :=
    '(doc, old_key) ← load_kid_and_key fqdn d;
    prepare_rotation doc old_key new_keypair in
  match prepared with
  | Err e => (d, Err e)
  | Ok (signed_doc, json_data) =>
      match persist_kid paths (to_secret_bytes new_keypair) json_data io d with
      | (d, Err e) => (d, Err e)
      | (d, Ok _) =>
          (d, auth_kid ← authorize_kid_document fqdn signed_doc;
              Ok (MkRotatedKid fqdn (did_id (kid signed_doc)) signed_doc auth_kid (did_path paths) (key_path paths)))
      end
  end.

Definition revoked_document (doc : Document) : Document :=
  MkDocument (doc_type doc) (kid doc) (created_at doc) (controller_keys doc) (manifest_ptr doc)
    (revocation_keys doc) true None.

Definition prepare_revocation (doc : Document) (key : KineticKeypair) : Result IdentityError (Document * bytes) :=
  signed_doc ← map_err (fun _ => IeKidSigningFailed) (document_sign (revoked_document doc) key);
  json_data ← ok_or (document_to_string signed_doc) IeSerializationFailed;
  Ok (signed_doc, json_data).

Definition revoke_local_kid (name : bytes) (io : KidIo) (d : Disk) : Disk * Result IdentityError Document :=
  let fqdn := normalize_name name in
  let prepared :=
    '(doc, key) ← load_kid_and_key fqdn d;
    prepare_revocation doc key in
  match prepared with
  | Err e => (d, Err e)
  | Ok (signed_doc, json_data) =>
      match write_file (did_path (kid_paths fqdn)) json_data (io_doc io) d with
      | (d, Err e) => (d, Err e)
      | (d, Ok _) => (d, Ok signed_doc)
      end
  end.

(** ** Reading *)

Definition load_document (path : bytes) (malformed : IdentityError) (d : Disk) : Result IdentityError Document :=
  content ← read_file d path;
  ok_or (document_from_str content) malformed.

Definition load_local_kid (name : bytes) (d : Disk) : Result IdentityError (Document * bytes) :=
  let fqdn := normalize_name name in
  let doc_path := did_path (kid_paths fqdn) in
  if path_exists d doc_path then doc ← load_document doc_path IeMalformedDocument d; Ok (doc, doc_path)
  else
    let apex := extract_apex_name fqdn in
    let apex_doc_path := did_path (kid_paths apex) in
    if negb (bool_decide (fqdn = apex)) && path_exists d apex_doc_path
    then doc ← load_document apex_doc_path IeMalformedApexDocument d; Ok (doc, apex_doc_path)
    else Err IeKidNotFound.

Definition load_manifest_file (path : bytes) (d : Disk) : Result IdentityError (option Manifest) :=
  content ← read_file d path;
  manifest ← ok_or (manifest_from_str content) IeMalformedManifest;
  Ok (Some manifest).

Definition load_local_manifest (name : bytes) (d : Disk) : Result IdentityError (option Manifest) :=
  let fqdn := normalize_name name in
  let path := manifest_path (kid_paths fqdn) in
  if path_exists d path then load_manifest_file path d
  else
    let apex := extract_apex_name fqdn in
    let apex_path := manifest_path (kid_paths apex) in
    if negb (bool_decide (fqdn = apex)) && path_exists d apex_path then load_manifest_file apex_path d
    else Ok None.

(** ** Listing *)

(** The order of Rust strings. *)
Fixpoint bytes_leb (a b : bytes) : bool :=
  match a, b with
  | [], _ => true
  | _ :: _, [] => false
  | x :: a', y :: b' => (x <? y) || ((x =? y) && bytes_leb a' b')
  end.

(** A file of the directory itself with the extension [json]: its stem. *)
Definition json_stem (dir path : bytes) : option bytes :=
  if starts_with (dir ++ bs "/") path then
    let file := drop (length dir + 1) path in
    if existsb (fun c => c =? SLASH) file then None
    else match strip_suffix (bs ".json") file with
         | Some [] | None => None
         | Some stem => Some stem
         end
  else None.

Definition summarize (d : Disk) (dir : bytes) (entry : bytes * bytes) : option LocalKidSummary :=
  let '(path, content) := entry in
  stem ← json_stem dir path;
  if readable path then
    doc ← document_from_str content;
    Some (MkLocalKidSummary stem (did_id (kid doc)) (created_at doc) path
      (path_exists d (key_path (kid_paths stem))) (deactivated doc))
  else None.

(** The names of a directory differ, so the order its entries are read in does
    not show after the stable sort. *)
Definition list_local_kids (d : Disk) : list LocalKidSummary :=
  let did_dirs := [path_join (path_join kids_dir (bs "name")) (bs "did");
                   path_join (path_join kids_dir (bs "subname")) (bs "did")] in
  let summaries := concat (map (fun dir => omap (summarize d dir) (map_to_list d)) did_dirs) in
  sort_stable (fun a b => bytes_leb (ls_name a) (ls_name b)) summaries.

(** ** Manifests *)

(** The key of the name, or else the key of its apex. *)
Definition effective_key_path (fqdn : bytes) (d : Disk) : Result IdentityError bytes :=
  let own := key_path (kid_paths fqdn) in
  if path_exists d own then Ok own
  else
    let apex_key_path := key_path (kid_paths (extract_apex_name fqdn)) in
    if path_exists d apex_key_path then Ok apex_key_path else Err IeKidNotFound.

(** [existing.version.saturating_add(1)] *)
Definition next_version (existing : option Manifest) : Z :=
  match existing with Some m => sat_add (version m) 1 | None => 1 end.

(** The signed manifest with the document it was made for, and its text. *)
Definition prepare_manifest (fqdn : bytes) (svcs : list Service) (current_kyn : Z) (d : Disk)
  : Result IdentityError (Manifest * Document * bytes) :=
  '(doc, _) ← load_local_kid fqdn d;
  bail_if (deactivated doc) (IeKidDeactivated fqdn);;
  path ← effective_key_path fqdn d;
  signing_key ← load_raw_signing_key d path;
  existing ← load_local_manifest fqdn d;
  let manifest := MkManifest (bs "kinetic.manifest.v1") (kid doc) (next_version existing)
    (to_ukyn current_kyn BEACON_GENESIS) None svcs None in
  signed_manifest ← map_err (fun _ => IeManifestSigningFailed) (manifest_sign manifest signing_key);
  json_data ← ok_or (manifest_to_string signed_manifest) IeSerializationFailed;
  Ok (signed_manifest, doc, json_data).

(** The manifest wrapped for the owner's identity key. *)
Definition authorize_manifest (fqdn : bytes) (m : Manifest) (doc : Document)
  : Result IdentityError (Manifest * AuthorizedManifest) :=
  let signable := auth_manifest_signable_bytes (MkAuthorizedManifest fqdn m (Some doc) []) network_salt in
  owner_key ← load_keypair identity_key;
  Ok (m, MkAuthorizedManifest fqdn m (Some doc) (kp_sign owner_key signable)).

Definition save_and_sign_local_manifest (name : bytes) (svcs : list Service) (current_kyn : Z) (io : KidIo) (d : Disk)
  : Disk * Result IdentityError (Manifest * AuthorizedManifest) :=
  let fqdn := normalize_name name in
  match prepare_manifest fqdn svcs current_kyn d with
  | Err e => (d, Err e)
  | Ok (signed_manifest, doc, json_data) =>
      match write_file (manifest_path (kid_paths fqdn)) json_data (io_doc io) d with
      | (d, Err e) => (d, Err e)
      | (d, Ok _) => (d, authorize_manifest fqdn signed_manifest doc)
      end
  end.

End Manager.

(** ** Files *)

Section Files.
Context {HUni : UnicodeCase} {HSha : Sha2} {HSig : MlDsa} {HSign : MlDsaSign} {HCod : Codecs} {HJcs : Jcs}
  {HKeys : IdentityKeys} {HText : KidText}.
Variables (network_salt kids_dir : bytes) (readable : bytes -> bool) (identity_key : option bytes).
#[local] Notation kid_paths := (kid_paths kids_dir).

Lemma path_join_suffix base comp : exists s, path_join base comp = s ++ comp.
Proof.
  unfold path_join. destruct (starts_with _ _); [by exists []|]. exists (base ++ bs "/"). by rewrite <- app_assoc.
Qed.

(** The three files of any names are distinguished by their last bytes. *)
Lemma kid_path_ends name : exists s1 s2 s3,
  did_path (kid_paths name) = s1 ++ bs ".kin.json" /\
  key_path (kid_paths name) = s2 ++ bs ".kin.key" /\
  manifest_path (kid_paths name) = s3 ++ bs ".kin.manifest.json".
Proof.
  unfold KidManager.kid_paths. cbn [did_path key_path manifest_path].
  destruct (normalize_name_suffix name) as [s Es]. rewrite Es.
  set (dir := if negb _ then _ else _).
  destruct (path_join_suffix (path_join dir (bs "did")) ((s ++ NSP_SUFFIX) ++ bs ".json")) as [a ->].
  destruct (path_join_suffix (path_join dir (bs "keys")) ((s ++ NSP_SUFFIX) ++ bs ".key")) as [b ->].
  destruct (path_join_suffix (path_join dir (bs "manifest")) ((s ++ NSP_SUFFIX) ++ bs ".manifest.json")) as [c ->].
  exists (a ++ s), (b ++ s), (c ++ s). rewrite <- !app_assoc. done.
Qed.

Lemma suffix_clash (s t p q : bytes) :
  starts_with (reverse p) (reverse q) = false -> starts_with (reverse q) (reverse p) = false ->
  s ++ p <> t ++ q.
Proof.
  intros Hp Hq E. apply (f_equal reverse) in E. rewrite !reverse_app in E.
  apply app_eq_inv in E as [(k & E & _)|(k & E & _)].
  - assert (starts_with (reverse q) (reverse p) = true) by (apply starts_with_true; by exists k). congruence.
  - assert (starts_with (reverse p) (reverse q) = true) by (apply starts_with_true; by exists k). congruence.
Qed.

Lemma did_key_distinct n n' : did_path (kid_paths n) <> key_path (kid_paths n').
Proof.
  destruct (kid_path_ends n) as (s & _ & _ & -> & _ & _), (kid_path_ends n') as (_ & t & _ & _ & -> & _).
  by apply suffix_clash.
Qed.

Lemma did_manifest_distinct n n' : did_path (kid_paths n) <> manifest_path (kid_paths n').
Proof.
  destruct (kid_path_ends n) as (s & _ & _ & -> & _ & _), (kid_path_ends n') as (_ & _ & t & _ & _ & ->).
  by apply suffix_clash.
Qed.

Lemma path_exists_true d path : path_exists d path = true <-> exists b, d !! path = Some b.
Proof. unfold path_exists. rewrite bool_decide_eq_true. done. Qed.

Lemma read_file_ok d path b : read_file readable d path = Ok b <-> readable path = true /\ d !! path = Some b.
Proof. unfold read_file. by rewrite bail_if_ok, negb_false_iff, ok_or_ok. Qed.

Lemma load_raw_signing_key_ok d path key :
  load_raw_signing_key readable d path = Ok key <->
  readable path = true /\ exists b, d !! path = Some b /\ from_slice b = Some key.
Proof.
  unfold load_raw_signing_key. rewrite bail_if_ok, negb_false_iff, path_exists_true, bind_ok.
  setoid_rewrite read_file_ok. setoid_rewrite ok_or_ok. naive_solver.
Qed.

#[local] Opaque read_file load_raw_signing_key.

Lemma load_kid_and_key_ok d name doc key :
  load_kid_and_key kids_dir readable name d = Ok (doc, key) <->
  (exists b, read_file readable d (did_path (kid_paths name)) = Ok b /\ document_from_str b = Some doc) /\
  load_raw_signing_key readable d (key_path (kid_paths name)) = Ok key.
Proof.
  unfold load_kid_and_key. rewrite !bail_if_ok, !negb_false_iff, !path_exists_true. split.
  - intros (_ & _ & E). apply bind_ok in E as (b & Hb & E). apply bind_ok in E as (doc' & Hd & E).
    apply bind_ok in E as (key' & Hk & [= <- <-]). apply ok_or_ok in Hd. eauto.
  - intros [(b & Hb & Hd) Hk]. pose proof Hb as [_ ?]%read_file_ok.
    pose proof Hk as (_ & kb & ? & _)%load_raw_signing_key_ok. split; [eauto|]. split; [eauto|].
    by rewrite Hb; cbn [mbind result_bind]; rewrite Hd; cbn [ok_or mbind result_bind]; rewrite Hk.
Qed.

#[local] Transparent read_file load_raw_signing_key.

Lemma write_file_ok path content io d d' :
  write_file path content io d = (d', Ok tt) <-> io = true /\ d' = <[path := content]> d.
Proof. clear readable. unfold write_file. destruct io; naive_solver. Qed.

Lemma persist_kid_ok kp secret json io d d' :
  persist_kid kp secret json io d = (d', Ok tt) <->
  io_key io = true /\ io_doc io = true /\ d' = <[did_path kp := json]> (<[key_path kp := secret]> d).
Proof. unfold persist_kid, write_file. clear readable. destruct (io_key io), (io_doc io); naive_solver. Qed.

(** What every outcome of the two writes leaves. *)
Lemma persist_kid_cases kp secret json io d :
  (persist_kid kp secret json io d).1 = d \/
  (persist_kid kp secret json io d).1 = <[key_path kp := secret]> d \/
  (persist_kid kp secret json io d).1 = <[did_path kp := json]> (<[key_path kp := secret]> d).
Proof. unfold persist_kid, write_file. destruct (io_key io), (io_doc io); cbn; auto. Qed.

Lemma authorize_kid_document_ok name doc a :
  authorize_kid_document network_salt identity_key name doc = Ok a <->
  exists owner, load_keypair identity_key = Ok owner /\
    a = MkAuthorizedKid (normalize_name name) doc
          (kp_sign owner (auth_kid_signable_bytes (MkAuthorizedKid (normalize_name name) doc []) network_salt)).
Proof. clear readable. unfold authorize_kid_document. rewrite bind_ok. naive_solver. Qed.

End Files.

(** ** What the network makes of the documents *)

Section ManagerFacts.
Context {HUni : UnicodeCase} {HSha : Sha2} {HSig : MlDsa} {HSign : MlDsaSign} {HCod : Codecs} {HJcs : Jcs}
  {HKeys : IdentityKeys} {HText : KidText} {HJson : StoredJson}.
Context {HShaLaws : Sha2Laws} {HSigLaws : MlDsaSignLaws} {HBound : MlDsaBound} {HCodLaws : CodecsLaws}
  {HKeysLaws : IdentityKeysLaws} {HTextLaws : KidTextLaws}.
Variables (network_salt kids_dir : bytes) (readable : bytes -> bool) (identity_key : option bytes).
#[local] Notation kid_paths := (kid_paths kids_dir).

(** A fresh signature is valid under exactly the listings of its key. *)
Lemma signed_under_iff d k d' key_b64 :
  document_sign d k = Ok d' ->
  document_signed_under d' key_b64 <-> b64url_decode key_b64 = Some (to_public_bytes k).
Proof.
  intros Hs. split; [|by eapply signed_document_signed_under].
  unfold document_sign in Hs. apply bind_ok in Hs as (msg0 & Ej0 & Hs). apply Ok_inj in Hs. subst d'.
  unfold document_canonicalize in Ej0. apply ok_or_ok in Ej0.
  intros (s & sig & msg & pk & Es & Ed & Ej & -> & Hv). cbn [document_with_signature signature] in Es.
  apply (inj Some) in Es. subst s. rewrite b64url_decode_encode in Ed. apply (inj Some) in Ed. subst sig.
  change (jcs_document (document_unsigned d) = Some msg) in Ej. rewrite Ej0 in Ej. apply (inj Some) in Ej. subst msg.
  f_equal. eapply key_bound; [exact Hv|apply verify_own_signature].
Qed.

Lemma manifest_signed_under_iff m k m' key_b64 :
  manifest_sign m k = Ok m' ->
  manifest_signed_under m' key_b64 <-> b64url_decode key_b64 = Some (to_public_bytes k).
Proof.
  unfold manifest_sign. intros Hs. apply bind_ok in Hs as (msg0 & Ej0 & Hs). apply Ok_inj in Hs. subst m'.
  unfold manifest_canonicalize in Ej0. apply ok_or_ok in Ej0. split.
  - intros (s & sig & msg & pk & Es & Ed & Ej & -> & Hv). cbn [manifest_with_signature m_signature] in Es.
    apply (inj Some) in Es. subst s. rewrite b64url_decode_encode in Ed. apply (inj Some) in Ed. subst sig.
    change (jcs_manifest (manifest_unsigned m) = Some msg) in Ej. rewrite Ej0 in Ej. apply (inj Some) in Ej. subst msg.
    f_equal. eapply key_bound; [exact Hv|apply verify_own_signature].
  - intros Hk. eexists _, _, _, _. split; [reflexivity|]. split; [apply b64url_decode_encode|].
    split; [exact Ej0|]. split; [exact Hk|]. apply verify_own_signature.
Qed.

Lemma manifest_sign_fields m k m' : manifest_sign m k = Ok m' -> exists s, m' = manifest_with_signature m s.
Proof. unfold manifest_sign. intros H. invert_ok H. injection H as <-. by eexists. Qed.

(** ** Creation *)

Definition key_did (keypair : KineticKeypair) : Did :=
  MkDid (DID_PREFIX ++ hex_lower (sha256 (to_public_bytes keypair))).

Lemma key_did_wf keypair : did_new (did_id (key_did keypair)) = Ok (key_did keypair).
Proof.
  apply did_new_ok. eexists. split; [done|]. split; [|done]. unfold is_did_hex.
  rewrite hex_lower_chars by apply sha256_digest_wf. unfold len. by rewrite length_hex_lower, sha256_digest_length.
Qed.

Lemma key_did_len keypair : len (did_id (key_did keypair) ++ PRIMARY_SUFFIX) = 80.
Proof.
  unfold key_did. cbn [did_id]. rewrite !len_app.
  assert (E : len (hex_lower (sha256 (to_public_bytes keypair))) = 64)
    by (unfold len; by rewrite length_hex_lower, sha256_digest_length).
  by rewrite E.
Qed.

Lemma generate_kid_ok keypair now doc json :
  generate_kid keypair now = Ok (doc, json) <->
  document_sign (fresh_document (key_did keypair) (to_ukyn now BEACON_GENESIS)
    (b64url_encode (to_public_bytes keypair))) keypair = Ok doc /\ document_to_string doc = Some json.
Proof.
  unfold generate_kid. pose proof (key_did_wf keypair) as Hd. unfold key_did in *. cbn [did_id] in Hd.
  cbv zeta. rewrite Hd. cbn [map_err mbind result_bind]. split.
  - intros E. apply bind_ok in E as (d & Hs & E). apply bind_ok in E as (j & Hj & E).
    apply Ok_inj, pair_equal_spec in E as [<- <-]. by apply map_err_ok in Hs; apply ok_or_ok in Hj.
  - intros [Hs Hj]. rewrite Hs. cbn [map_err mbind result_bind]. by rewrite Hj.
Qed.

(** The only bound a fresh document can exceed is that of its key. *)
Lemma fresh_bounds keypair now s :
  len (b64url_encode (to_public_bytes keypair)) <= LIMITS_KID_MAX_PUBLIC_KEY_BYTES ->
  document_check_bounds (document_with_signature (fresh_document (key_did keypair) now
    (b64url_encode (to_public_bytes keypair))) s) = Ok tt.
Proof.
  intros Hl. unfold document_check_bounds, fresh_document, document_with_signature.
  cbn [controller_keys revocation_keys manifest_ptr try_for_each]. unfold check_controller_key.
  cbn [ck_id public_key key_type]. rewrite key_did_len.
  assert (E : (len (b64url_encode (to_public_bytes keypair)) >? LIMITS_KID_MAX_PUBLIC_KEY_BYTES) = false)
    by (rewrite Z.gtb_ltb; by apply Z.ltb_ge).
  rewrite E. reflexivity.
Qed.

Lemma fresh_verifies keypair now doc :
  len (b64url_encode (to_public_bytes keypair)) <= LIMITS_KID_MAX_PUBLIC_KEY_BYTES ->
  document_sign (fresh_document (key_did keypair) now (b64url_encode (to_public_bytes keypair))) keypair = Ok doc ->
  document_check_bounds doc = Ok tt /\ kid doc = key_did keypair /\
  document_verify doc = Ok tt /\ document_verify_genesis doc = Ok tt.
Proof.
  intros Hl Hs. pose proof (signed_document_signed_under _ _ _ (b64url_encode (to_public_bytes keypair)) Hs) as Hu.
  destruct (signed_document_fields _ _ _ Hs) as [s ->].
  pose proof (fresh_bounds keypair now s Hl) as Hb. split; [done|]. split; [done|]. split.
  - apply document_verify_ok. split; [done|]. cbn [deactivated document_with_signature fresh_document].
    eexists. split; [left|]. split; [reflexivity|]. apply Hu, b64url_decode_encode.
  - apply verify_genesis_ok. eexists _, _, _. split; [reflexivity|]. split; [apply b64url_decode_encode|done].
Qed.

(** C20: a created identity verifies.  When a name gets a fresh identity whose
    encoded key respects the size bound, the key and the document are on disk, and
    where no document is held under the new identifier the update rule accepts the
    published one exactly for a name with a record whose key verifies the
    attachment's signature, as the identity key's own does: the document itself
    never stands in the way.  This is about the update rule alone: in the form the
    daemon sends it no store gets to that rule. *)
Theorem created_kid_verifies name inherit force now keypair io d d' g :
  get_or_create_kid_for_name network_salt kids_dir readable identity_key name inherit force now keypair io d
    = (d', Ok g) ->
  is_inherited g = false ->
  len (b64url_encode (to_public_bytes keypair)) <= LIMITS_KID_MAX_PUBLIC_KEY_BYTES ->
  exists owner json, load_keypair identity_key = Ok owner /\
    gk_doc_path g = did_path (kid_paths (normalize_name name)) /\
    gk_key_path g = Some (key_path (kid_paths (normalize_name name))) /\
    d' = <[gk_doc_path g := json]> (<[key_path (kid_paths (normalize_name name)) := to_secret_bytes keypair]> d) /\
    document_from_str json = Some (gk_kid_doc g) /\
    signed_by (to_public_bytes owner) (auth_kid_signable_bytes (gk_auth_kid g) network_salt)
      (ak_owner_signature (gk_auth_kid g)) /\
    forall active, verify_authorized_kid network_salt (gk_auth_kid g) active None = Ok tt <->
      exists record, active = Some record /\
        signed_by (envelope_pubkey record) (auth_kid_signable_bytes (gk_auth_kid g) network_salt)
          (ak_owner_signature (gk_auth_kid g)).
Proof.
  intros H Hi Hl. unfold get_or_create_kid_for_name in H. cbv zeta in H.
  destruct (if _ : bool then inherit_kid _ _ _ _ _ _ _ else None) as [r|] eqn:Er.
  { injection H as -> ->. destruct (_ && _); [|done]. unfold inherit_kid in Er.
    destruct (path_exists _ _); [|done]. apply (inj Some) in Er. invert_ok Er. apply Ok_inj in Er. subst g. discriminate Hi. }
  destruct (path_exists _ _ && _); [done|]. unfold create_kid in H.
  destruct (generate_kid keypair now) as [[doc json]|] eqn:Eg; [|done]. apply generate_kid_ok in Eg as [Hs Hj].
  destruct (fresh_verifies _ _ _ Hl Hs) as (Hb & Hk & Hv & Hg).
  destruct (persist_kid _ _ _ _ _) as [d1 [[]|]] eqn:Ep; [|done]. apply persist_kid_ok in Ep as (_ & _ & ->).
  injection H as <- H. apply bind_ok in H as (a & Ha & [= <-]). cbn [gk_doc_path gk_key_path gk_kid_doc gk_auth_kid].
  apply authorize_kid_document_ok in Ha as (owner & Ho & ->). exists owner, json.
  split; [done|]. split; [done|]. split; [done|]. split; [done|]. split.
  - apply document_text_complete; [done|done|]. rewrite Hk. apply key_did_wf.
  - split; [apply verify_own_signature|]. intros active. rewrite verify_authorized_kid_iff.
    cbn [ak_kid_doc]. naive_solver.
Qed.

(** ** Rotation *)

Lemma rotate_ok name new_keypair io d d' r :
  rotate_name_kid network_salt kids_dir readable identity_key name new_keypair io d = (d', Ok r) ->
  exists doc old_key json, load_kid_and_key kids_dir readable (normalize_name name) d = Ok (doc, old_key) /\
    document_sign (rotated_document doc (b64url_encode (to_public_bytes new_keypair))) old_key = Ok (rk_kid_doc r) /\
    document_to_string (rk_kid_doc r) = Some json /\ ak_kid_doc (rk_auth_kid r) = rk_kid_doc r /\
    d' = <[did_path (kid_paths (normalize_name name)) := json]>
           (<[key_path (kid_paths (normalize_name name)) := to_secret_bytes new_keypair]> d).
Proof.
  unfold rotate_name_kid. cbv zeta. intros H.
  destruct (load_kid_and_key _ _ _ _) as [[doc old_key]|] eqn:El; [|done]. cbn [mbind result_bind] in H.
  destruct (prepare_rotation _ _ _) as [[signed json]|] eqn:Ep; [|done].
  unfold prepare_rotation in Ep. cbv zeta in Ep. apply bind_ok in Ep as (x & Hs%map_err_ok & Ep).
  apply bind_ok in Ep as (j & Hj%ok_or_ok & Ep). apply Ok_inj, pair_equal_spec in Ep as [<- <-].
  destruct (persist_kid _ _ _ _ _) as [d1 [[]|]] eqn:Ew; [|done]. apply persist_kid_ok in Ew as (_ & _ & ->).
  apply pair_equal_spec in H as [<- H]. apply bind_ok in H as (a & Ha & H). apply Ok_inj in H. subst r.
  apply authorize_kid_document_ok in Ha as (owner & _ & ->). exists doc, old_key, j. done.
Qed.

(** C21: a rotated identity is refused.  The handover satisfies the rule for
    updates: the old document authorizes the new one.  But the new document
    lists only the new key while the old key signed it, and it must verify by
    itself: it does exactly when the new key is the old one, so no node admits
    the rotation of an active identity to another key. *)
Theorem rotated_kid_admitted_iff name new_keypair io d d' r :
  rotate_name_kid network_salt kids_dir readable identity_key name new_keypair io d = (d', Ok r) ->
  exists doc old_key, load_kid_and_key kids_dir readable (normalize_name name) d = Ok (doc, old_key) /\
    kid (rk_kid_doc r) = kid doc /\
    (forall ck, ck ∈ controller_keys doc -> is_controller ck = true ->
       b64url_decode (public_key ck) = Some (to_public_bytes old_key) ->
       document_is_authorized (rk_kid_doc r) doc = true) /\
    (deactivated doc = false ->
      (document_verify (rk_kid_doc r) = Ok tt <->
        document_check_bounds (rk_kid_doc r) = Ok tt /\ to_public_bytes new_keypair = to_public_bytes old_key) /\
      (to_public_bytes new_keypair <> to_public_bytes old_key -> forall active existing,
        verify_authorized_kid network_salt (rk_auth_kid r) active existing <> Ok tt)).
Proof.
  intros H. apply rotate_ok in H as (doc & old_key & json & Hl & Hs & _ & Ha & _).
  exists doc, old_key. split; [done|].
  assert (Hu := fun key => signed_under_iff _ _ _ key Hs).
  destruct (signed_document_fields _ _ _ Hs) as [s Es].
  split; [by rewrite Es|]. split.
  { intros ck Hin Hc Hk. apply document_is_authorized_iff. left. exists ck. split; [done|]. split; [done|]. by apply Hu. }
  intros Hact. assert (Hv : document_verify (rk_kid_doc r) = Ok tt <->
    document_check_bounds (rk_kid_doc r) = Ok tt /\ to_public_bytes new_keypair = to_public_bytes old_key).
  { rewrite document_verify_ok. apply and_iff_compat_l.
    replace (deactivated (rk_kid_doc r)) with false by (by rewrite Es). split.
    - intros (ck & Hin & _ & Hk%Hu). rewrite Es in Hin. apply list_elem_of_singleton in Hin. subst ck.
      cbn [public_key] in Hk. rewrite b64url_decode_encode in Hk. by apply (inj Some) in Hk.
    - intros Hk. eexists. split; [rewrite Es; left|]. split; [reflexivity|]. apply Hu. cbn [public_key].
      by rewrite b64url_decode_encode, Hk. }
  split; [done|]. intros Hne active existing (record & _ & _ & Hd & _)%verify_authorized_kid_iff.
  rewrite Ha in Hd. by apply Hv in Hd as [_ ?].
Qed.

(** ** Revocation *)

Lemma revoke_ok name io d d' doc' :
  revoke_local_kid kids_dir readable name io d = (d', Ok doc') ->
  exists doc key json, load_kid_and_key kids_dir readable (normalize_name name) d = Ok (doc, key) /\
    document_sign (revoked_document doc) key = Ok doc' /\ document_to_string doc' = Some json /\
    d' = <[did_path (kid_paths (normalize_name name)) := json]> d.
Proof.
  unfold revoke_local_kid. cbv zeta. intros H.
  destruct (load_kid_and_key _ _ _ _) as [[doc key]|] eqn:El; [|done]. cbn [mbind result_bind] in H.
  destruct (prepare_revocation _ _) as [[signed json]|] eqn:Ep; [|done].
  unfold prepare_revocation in Ep. apply bind_ok in Ep as (x & Hs%map_err_ok & Ep).
  apply bind_ok in Ep as (j & Hj%ok_or_ok & Ep). apply Ok_inj, pair_equal_spec in Ep as [<- <-].
  destruct (write_file _ _ _ _) as [d1 [[]|]] eqn:Ew; [|done]. apply write_file_ok in Ew as [_ ->].
  apply pair_equal_spec in H as [<- H]. apply Ok_inj in H. subst doc'. exists doc, key, j. done.
Qed.

(** A revoked identity verifies exactly when the controller key that signed
    the revocation is also listed as a revocation key.  The documents of
    [get_or_create_kid_for_name] list none: their revocation is refused by every
    node. *)
Theorem revoked_kid_verifies_iff name io d d' doc' :
  revoke_local_kid kids_dir readable name io d = (d', Ok doc') ->
  exists doc key, load_kid_and_key kids_dir readable (normalize_name name) d = Ok (doc, key) /\
    deactivated doc' = true /\
    (document_verify doc' = Ok tt <-> document_check_bounds doc = Ok tt /\
       exists rk, rk ∈ revocation_keys doc /\ b64url_decode rk = Some (to_public_bytes key)) /\
    (revocation_keys doc = [] -> forall a active existing, ak_kid_doc a = doc' ->
       verify_authorized_kid network_salt a active existing <> Ok tt).
Proof.
  intros H. apply revoke_ok in H as (doc & key & json & Hl & Hs & _ & _). exists doc, key. split; [done|].
  assert (Hu := fun k => signed_under_iff _ _ _ k Hs).
  destruct (signed_document_fields _ _ _ Hs) as [s Es].
  assert (Hv : document_verify doc' = Ok tt <-> document_check_bounds doc = Ok tt /\
    exists rk, rk ∈ revocation_keys doc /\ b64url_decode rk = Some (to_public_bytes key)).
  { rewrite document_verify_ok. replace (deactivated doc') with true by (by rewrite Es).
    setoid_rewrite Hu. by rewrite Es. }
  split; [by rewrite Es|]. split; [done|].
  intros Hr a active existing Ha (record & _ & _ & Hd & _)%verify_authorized_kid_iff.
  rewrite Ha in Hd. apply Hv in Hd as (_ & rk & Hin & _). rewrite Hr in Hin. by apply not_elem_of_nil in Hin.
Qed.

(** ** Manifests *)

Lemma prepare_manifest_ok fqdn svcs now d m doc json :
  prepare_manifest kids_dir readable fqdn svcs now d = Ok (m, doc, json) ->
  exists dp path key existing, load_local_kid kids_dir readable fqdn d = Ok (doc, dp) /\ deactivated doc = false /\
    effective_key_path kids_dir fqdn d = Ok path /\ load_raw_signing_key readable d path = Ok key /\
    load_local_manifest kids_dir readable fqdn d = Ok existing /\
    manifest_sign (MkManifest (bs "kinetic.manifest.v1") (kid doc) (next_version existing)
      (to_ukyn now BEACON_GENESIS) None svcs None) key = Ok m /\ manifest_to_string m = Some json.
Proof.
  unfold prepare_manifest. intros H. apply bind_ok in H as ([doc0 dp] & Hl & H).
  apply bail_if_ok in H as [Ha H]. apply bind_ok in H as (path & Hp & H). apply bind_ok in H as (key & Hk & H).
  apply bind_ok in H as (existing & He & H). cbv zeta in H. apply bind_ok in H as (x & Hs%map_err_ok & H).
  apply bind_ok in H as (j & Hj%ok_or_ok & H). apply Ok_inj in H.
  apply pair_equal_spec in H as [[<- <-]%pair_equal_spec <-]. exists dp, path, key, existing. done.
Qed.

Lemma save_manifest_ok name svcs now io d d' m am :
  save_and_sign_local_manifest network_salt kids_dir readable identity_key name svcs now io d = (d', Ok (m, am)) ->
  exists doc json, prepare_manifest kids_dir readable (normalize_name name) svcs now d = Ok (m, doc, json) /\
    d' = <[manifest_path (kid_paths (normalize_name name)) := json]> d /\
    am_name am = normalize_name name /\ am_manifest am = m /\ am_kid_doc am = Some doc.
Proof.
  unfold save_and_sign_local_manifest. cbv zeta. intros H.
  destruct (prepare_manifest _ _ _ _ _ _) as [[[m0 doc] json]|] eqn:Ep; [|done].
  destruct (write_file _ _ _ _) as [d1 [[]|]] eqn:Ew; [|done]. apply write_file_ok in Ew as [_ ->].
  apply pair_equal_spec in H as [<- H]. unfold authorize_manifest in H. cbv zeta in H.
  apply bind_ok in H as (owner & _ & H). apply Ok_inj, pair_equal_spec in H as [<- <-]. exists doc, json. done.
Qed.

Lemma local_manifest_verifies m doc key v vf t :
  manifest_sign (MkManifest (bs "kinetic.manifest.v1") (kid doc) v vf None (services m) None) key = Ok m ->
  0 <= t -> t + 300 < 2 ^ 64 -> vf <= t + 300 ->
  manifest_verify_at_time m doc t = Ok tt <->
  len (controller_keys doc) <= 20 /\ len (services m) <= 50 /\
  Forall (fun s => check_service s = Ok tt) (services m) /\
  exists ck, ck ∈ controller_keys doc /\ is_controller ck = true /\
    b64url_decode (public_key ck) = Some (to_public_bytes key).
Proof.
  intros Hs Ht0 Ht Hvf. rewrite manifest_verify_at_time_iff by lia.
  setoid_rewrite (fun k => manifest_signed_under_iff _ _ _ k Hs).
  destruct (manifest_sign_fields _ _ _ Hs) as [s Es]. rewrite Es. cbn. naive_solver.
Qed.

(** A saved manifest.  It names the document of the name or of its apex, is
    one version above the stored one (1 when there is none, the same at the
    largest version), verifies now under that document exactly when the key
    found on disk is one of its controller keys and the services are within
    bounds, and is the manifest the name has from then on. *)
Theorem saved_manifest_verifies_iff name svcs now io d d' m am :
  normalize_name name = name ->
  save_and_sign_local_manifest network_salt kids_dir readable identity_key name svcs now io d = (d', Ok (m, am)) ->
  exists doc dp path key existing, load_local_kid kids_dir readable name d = Ok (doc, dp) /\
    deactivated doc = false /\ am_name am = name /\ am_manifest am = m /\ am_kid_doc am = Some doc /\
    effective_key_path kids_dir name d = Ok path /\ load_raw_signing_key readable d path = Ok key /\
    load_local_manifest kids_dir readable name d = Ok existing /\
    version m = match existing with Some old => Z.min u64_max (version old + 1) | None => 1 end /\
    (0 <= now -> BEACON_GENESIS + now + 300 < 2 ^ 64 ->
      manifest_verify_at_time m doc (to_ukyn now BEACON_GENESIS) = Ok tt <->
      len (controller_keys doc) <= 20 /\ len svcs <= 50 /\ Forall (fun s => check_service s = Ok tt) svcs /\
      exists ck, ck ∈ controller_keys doc /\ is_controller ck = true /\
        b64url_decode (public_key ck) = Some (to_public_bytes key)) /\
    (readable (manifest_path (kid_paths name)) = true -> len svcs <= 50 ->
      did_new (did_id (kid doc)) = Ok (kid doc) -> load_local_manifest kids_dir readable name d' = Ok (Some m)).
Proof.
  intros Hn H. apply save_manifest_ok in H as (doc & json & Hp & -> & Ham & Hm & Hd). rewrite Hn in *.
  apply prepare_manifest_ok in Hp as (dp & path & key & existing & Hl & Hact & Hpath & Hk & He & Hs & Hj).
  exists doc, dp, path, key, existing. repeat (split; [done|]).
  destruct (manifest_sign_fields _ _ _ Hs) as [s Es]. split; [rewrite Es; by destruct existing|]. split.
  - intros Hn0 Hmax. replace svcs with (services m) in * by (by rewrite Es).
    apply (local_manifest_verifies m doc key _ _ _ Hs); unfold to_ukyn, sat_add, u64_max;
      change BEACON_GENESIS with (beacon_genesis (beacon network_json)) in *;
      assert (0 <= beacon_genesis (beacon network_json)) by (vm_compute; discriminate); lia.
  - intros Hr Hlen Hwf. unfold load_local_manifest. rewrite Hn.
    replace (path_exists _ _) with true by (symmetry; apply path_exists_true; exists json; apply lookup_insert_eq).
    unfold load_manifest_file, read_file. rewrite Hr, lookup_insert_eq. cbn [negb bail_if ok_or mbind result_bind].
    by rewrite (manifest_text_complete m json Hj) by (by rewrite Es).
Qed.

(** ** An interrupted rotation *)

Lemma rotate_interrupted name new_keypair io d doc old_key p :
  load_kid_and_key kids_dir readable (normalize_name name) d = Ok (doc, old_key) ->
  prepare_rotation doc old_key new_keypair = Ok p -> io_key io = true -> io_doc io = false ->
  rotate_name_kid network_salt kids_dir readable identity_key name new_keypair io d =
    (<[key_path (kid_paths (normalize_name name)) := to_secret_bytes new_keypair]> d, Err IeIo).
Proof.
  intros Hl Hp Hk Hd. unfold rotate_name_kid. cbv zeta. rewrite Hl. cbn [mbind result_bind]. rewrite Hp.
  destruct p as [signed json]. unfold persist_kid, write_file. by rewrite Hk, Hd.
Qed.

(** The disk after the key was replaced and before the document was. *)
Lemma torn_kid_and_key name new_keypair d doc old_key doc' key' :
  load_kid_and_key kids_dir readable name d = Ok (doc, old_key) ->
  load_kid_and_key kids_dir readable name (<[key_path (kid_paths name) := to_secret_bytes new_keypair]> d)
    = Ok (doc', key') -> doc' = doc /\ key' = new_keypair.
Proof.
  rewrite !load_kid_and_key_ok, !load_raw_signing_key_ok. setoid_rewrite read_file_ok.
  rewrite lookup_insert_ne by (symmetry; apply did_key_distinct). rewrite lookup_insert_eq.
  intros [(b & [_ Hb] & Hd) _] [(b' & [_ Hb'] & Hd') (_ & kb & Hkb & Hk)].
  apply (inj Some) in Hkb. subst kb. rewrite secret_bytes_round in Hk. split; congruence.
Qed.

(** The key is in none of the lists of the document. *)
Definition unlisted (keypair : KineticKeypair) (doc : Document) : Prop :=
  (forall ck, ck ∈ controller_keys doc -> b64url_decode (public_key ck) <> Some (to_public_bytes keypair)) /\
  (forall rk, rk ∈ revocation_keys doc -> b64url_decode rk <> Some (to_public_bytes keypair)).

Lemma unlisted_unauthorized keypair doc d d' :
  unlisted keypair doc -> document_sign d keypair = Ok d' -> document_is_authorized d' doc = false.
Proof.
  intros [Hc Hr] Hs. apply not_true_is_false. rewrite document_is_authorized_iff.
  setoid_rewrite (fun k => signed_under_iff _ _ _ k Hs). naive_solver.
Qed.

(** An interrupted rotation locks the identity.  The key is replaced before
    the document: when the second write fails, the document keeps the old key
    alone and the key file holds the new one.  From there no rotation and no
    revocation is authorized by the document, and no manifest verifies under
    it. *)
Theorem interrupted_rotation_locks name new_keypair io d doc old_key p :
  normalize_name name = name ->
  load_kid_and_key kids_dir readable name d = Ok (doc, old_key) ->
  prepare_rotation doc old_key new_keypair = Ok p -> io_key io = true -> io_doc io = false ->
  unlisted new_keypair doc ->
  exists torn, rotate_name_kid network_salt kids_dir readable identity_key name new_keypair io d = (torn, Err IeIo) /\
    torn !! did_path (kid_paths name) = d !! did_path (kid_paths name) /\
    (forall newer io2 d2 r,
      rotate_name_kid network_salt kids_dir readable identity_key name newer io2 torn = (d2, Ok r) ->
      document_is_authorized (rk_kid_doc r) doc = false) /\
    (forall io2 d2 doc2, revoke_local_kid kids_dir readable name io2 torn = (d2, Ok doc2) ->
      document_is_authorized doc2 doc = false) /\
    (forall svcs now io2 d2 m am t, 0 <= t -> t + 300 < 2 ^ 64 ->
      save_and_sign_local_manifest network_salt kids_dir readable identity_key name svcs now io2 torn
        = (d2, Ok (m, am)) ->
      manifest_verify_at_time m doc t <> Ok tt).
Proof.
  intros Hn Hl Hp Hk Hd Hun. eexists. split; [apply (rotate_interrupted _ _ _ _ doc old_key p); by rewrite ?Hn|].
  rewrite Hn. split; [apply lookup_insert_ne; symmetry; apply did_key_distinct|]. split; [|split].
  - intros newer io2 d2 r H. apply rotate_ok in H as (doc' & key' & json & Hl' & Hs & _). rewrite Hn in Hl'.
    destruct (torn_kid_and_key _ _ _ _ _ _ _ Hl Hl') as [-> ->]. by eapply unlisted_unauthorized.
  - intros io2 d2 doc2 H. apply revoke_ok in H as (doc' & key' & json & Hl' & Hs & _). rewrite Hn in Hl'.
    destruct (torn_kid_and_key _ _ _ _ _ _ _ Hl Hl') as [-> ->]. by eapply unlisted_unauthorized.
  - intros svcs now io2 d2 m am t Ht0 Ht H. apply save_manifest_ok in H as (doc' & json & Hm & _). rewrite Hn in Hm.
    apply prepare_manifest_ok in Hm as (dp & path & key & existing & _ & _ & Hpath & Hkey & _ & Hs & _).
    unfold effective_key_path in Hpath. rewrite (proj2 (path_exists_true _ _)) in Hpath
      by (eexists; apply lookup_insert_eq). apply Ok_inj in Hpath. subst path.
    apply load_raw_signing_key_ok in Hkey as (_ & kb & Hkb & Hkey). rewrite lookup_insert_eq in Hkb.
    apply (inj Some) in Hkb. subst kb. rewrite secret_bytes_round in Hkey. apply (inj Some) in Hkey. subst key.
    rewrite manifest_verify_at_time_iff by lia. intros (_ & _ & _ & _ & _ & _ & ck & Hin & _ & Hu).
    apply (manifest_signed_under_iff _ _ _ _ Hs) in Hu. exact (proj1 Hun ck Hin Hu).
Qed.

(** ** Every reachable disk *)

(** What the node can be asked to do; the fresh keys and the outcomes of the
    writes are part of the request. *)
Inductive KidOp :=
  | KoCreate (name : bytes) (inherit force : bool) (now : Z) (keypair : KineticKeypair) (io : KidIo)
  | KoRotate (name : bytes) (new_keypair : KineticKeypair) (io : KidIo)
  | KoRevoke (name : bytes) (io : KidIo)
  | KoManifest (name : bytes) (svcs : list Service) (now : Z) (io : KidIo).

Definition kid_step (d : Disk) (op : KidOp) : Disk :=
  match op with
  | KoCreate name inherit force now keypair io =>
      (get_or_create_kid_for_name network_salt kids_dir readable identity_key name inherit force now keypair io d).1
  | KoRotate name new_keypair io =>
      (rotate_name_kid network_salt kids_dir readable identity_key name new_keypair io d).1
  | KoRevoke name io => (revoke_local_kid kids_dir readable name io d).1
  | KoManifest name svcs now io =>
      (save_and_sign_local_manifest network_salt kids_dir readable identity_key name svcs now io d).1
  end.

Definition kid_run (ops : list KidOp) : Disk := fold_left kid_step ops ∅.

(** Only keys of type [Controller], and no revocation keys. *)
Definition locally_made (doc : Document) : Prop :=
  Forall (fun ck => key_type ck = CONTROLLER) (controller_keys doc) /\ revocation_keys doc = [].

Definition disk_inv (d : Disk) : Prop :=
  forall name b doc, d !! did_path (kid_paths name) = Some b -> document_from_str b = Some doc -> locally_made doc.

Lemma disk_inv_did path doc json d :
  disk_inv d -> document_to_string doc = Some json -> locally_made doc -> disk_inv (<[path := json]> d).
Proof.
  intros Hi Hj Hm name b doc' Hb Hd. apply lookup_insert_Some in Hb as [[_ <-]|[_ Hb]]; [|by eapply Hi].
  by rewrite (document_text_sound _ _ _ Hj Hd).
Qed.

Lemma disk_inv_key name secret d : disk_inv d -> disk_inv (<[key_path (kid_paths name) := secret]> d).
Proof.
  intros Hi name' b doc Hb. rewrite lookup_insert_ne in Hb by (symmetry; apply did_key_distinct). by eapply Hi.
Qed.

Lemma disk_inv_manifest name json d : disk_inv d -> disk_inv (<[manifest_path (kid_paths name) := json]> d).
Proof.
  intros Hi name' b doc Hb. rewrite lookup_insert_ne in Hb by (symmetry; apply did_manifest_distinct). by eapply Hi.
Qed.

Lemma disk_inv_persist name secret json io doc d :
  disk_inv d -> document_to_string doc = Some json -> locally_made doc ->
  disk_inv (persist_kid (kid_paths name) secret json io d).1.
Proof.
  intros Hi Hj Hm. destruct (persist_kid_cases (kid_paths name) secret json io d) as [-> | [-> | ->]];
    [done|by apply disk_inv_key|]. eapply disk_inv_did; [by apply disk_inv_key|done|done].
Qed.

Lemma locally_made_signed doc k doc' : locally_made doc -> document_sign doc k = Ok doc' -> locally_made doc'.
Proof. intros Hm Hs. by destruct (signed_document_fields _ _ _ Hs) as [s ->]. Qed.

Lemma loaded_locally_made d name doc key :
  disk_inv d -> load_kid_and_key kids_dir readable name d = Ok (doc, key) -> locally_made doc.
Proof.
  intros Hi Hl. apply load_kid_and_key_ok in Hl as [(b & [_ Hb]%read_file_ok & Hd) _]. by eapply Hi.
Qed.

Lemma create_inv name inherit force now keypair io d :
  disk_inv d -> disk_inv (kid_step d (KoCreate name inherit force now keypair io)).
Proof.
  intros Hi. cbn [kid_step]. unfold get_or_create_kid_for_name. cbv zeta.
  destruct (if _ : bool then inherit_kid _ _ _ _ _ _ _ else None); [done|].
  destruct (path_exists _ _ && _); [done|]. unfold create_kid.
  destruct (generate_kid keypair now) as [[doc json]|] eqn:Eg; [|done]. apply generate_kid_ok in Eg as [Hs Hj].
  pose proof (disk_inv_persist (normalize_name name) (to_secret_bytes keypair) json io doc d Hi Hj) as Hp.
  cbv zeta. destruct (persist_kid _ _ _ _ _) as [d1 [[]|]]; apply Hp; apply (locally_made_signed _ _ _) in Hs;
    try done; split; repeat constructor.
Qed.

Lemma rotate_inv name new_keypair io d : disk_inv d -> disk_inv (kid_step d (KoRotate name new_keypair io)).
Proof.
  intros Hi. cbn [kid_step]. unfold rotate_name_kid. cbv zeta.
  destruct (load_kid_and_key _ _ _ _) as [[doc old_key]|] eqn:El; [|done]. cbn [mbind result_bind].
  destruct (prepare_rotation _ _ _) as [[signed json]|] eqn:Ep; [|done].
  unfold prepare_rotation in Ep. cbv zeta in Ep. apply bind_ok in Ep as (x & Hs%map_err_ok & Ep).
  apply bind_ok in Ep as (j & Hj%ok_or_ok & Ep). apply Ok_inj, pair_equal_spec in Ep as [<- <-].
  assert (Hm : locally_made x).
  { eapply locally_made_signed; [|exact Hs]. split; [repeat constructor|].
    by apply (loaded_locally_made _ _ _ _ Hi El). }
  pose proof (disk_inv_persist (normalize_name name) (to_secret_bytes new_keypair) j io x d Hi Hj Hm) as Hp.
  by destruct (persist_kid _ _ _ _ _) as [d1 [[]|]].
Qed.

Lemma revoke_inv name io d : disk_inv d -> disk_inv (kid_step d (KoRevoke name io)).
Proof.
  intros Hi. cbn [kid_step]. unfold revoke_local_kid. cbv zeta.
  destruct (load_kid_and_key _ _ _ _) as [[doc key]|] eqn:El; [|done]. cbn [mbind result_bind].
  destruct (prepare_revocation _ _) as [[signed json]|] eqn:Ep; [|done].
  unfold prepare_revocation in Ep. apply bind_ok in Ep as (x & Hs%map_err_ok & Ep).
  apply bind_ok in Ep as (j & Hj%ok_or_ok & Ep). apply Ok_inj, pair_equal_spec in Ep as [<- <-].
  unfold write_file. destruct (io_doc io); [|done]. cbn [fst]. eapply disk_inv_did; [done|done|].
  eapply locally_made_signed; [|exact Hs]. apply (loaded_locally_made _ _ _ _ Hi El).
Qed.

Lemma manifest_inv name svcs now io d : disk_inv d -> disk_inv (kid_step d (KoManifest name svcs now io)).
Proof.
  intros Hi. cbn [kid_step]. unfold save_and_sign_local_manifest. cbv zeta.
  destruct (prepare_manifest _ _ _ _ _ _) as [[[m doc] json]|]; [|done].
  unfold write_file. destruct (io_doc io); [|done]. by apply disk_inv_manifest.
Qed.

Lemma kid_run_inv ops : disk_inv (kid_run ops).
Proof.
  unfold kid_run. assert (H0 : disk_inv ∅) by (intros ? ? ?; by rewrite lookup_empty).
  revert H0. generalize (∅ : Disk). induction ops as [|op ops IH]; intros d Hi; [done|]. cbn [fold_left]. apply IH.
  destruct op; by auto using create_inv, rotate_inv, revoke_inv, manifest_inv.
Qed.

Lemma load_local_kid_inv name d doc dp :
  disk_inv d -> load_local_kid kids_dir readable name d = Ok (doc, dp) -> locally_made doc.
Proof.
  intros Hi H. assert (Hload : forall n e, load_document readable (did_path (kid_paths n)) e d = Ok doc -> locally_made doc).
  { intros n e E. unfold load_document in E. apply bind_ok in E as (b & [_ Hb]%read_file_ok & Hd%ok_or_ok). by eapply Hi. }
  unfold load_local_kid in H. cbv zeta in H. destruct (path_exists _ _).
  - apply bind_ok in H as (x & Hx & H). apply Ok_inj, pair_equal_spec in H as [<- _]. by eapply Hload.
  - destruct (_ && _); [|done]. apply bind_ok in H as (x & Hx & H). apply Ok_inj, pair_equal_spec in H as [<- _].
    by eapply Hload.
Qed.

(** Local manifests never delegate.  Whatever a node was asked to do, its
    documents list keys of type [Controller] only, while a delegated signature
    needs a key of type [Delegated]: no update signed through a manifest the
    node saved verifies, under any owner, and no document it holds has a
    revocation key. *)
Theorem local_manifests_never_delegate ops name svcs now io d' m am :
  save_and_sign_local_manifest network_salt kids_dir readable identity_key name svcs now io (kid_run ops)
    = (d', Ok (m, am)) ->
  (exists doc, am_kid_doc am = Some doc /\ locally_made doc) /\
  (forall owner cap n signable sig ns, ~ delegation_valid owner am cap n signable sig ns) /\
  (forall r ns, rv_authorization r = Some am -> reveal_verify_signature r ns <> Ok tt).
Proof.
  intros H. apply save_manifest_ok in H as (doc & json & Hp & _ & _ & _ & Ed).
  apply prepare_manifest_ok in Hp as (dp & _ & _ & _ & Hl & _).
  pose proof (load_local_kid_inv _ _ _ _ (kid_run_inv ops) Hl) as Hm.
  assert (Hno : forall owner cap n signable sig ns, ~ delegation_valid owner am cap n signable sig ns).
  { intros owner cap n signable sig ns (_ & _ & _ & kd & ck & pk & Ek & Hin & Ht & _).
    rewrite Ed in Ek. apply (inj Some) in Ek. subst kd.
    pose proof (proj1 (Forall_forall _ _) (proj1 Hm) ck Hin) as Hc. rewrite Hc in Ht. discriminate Ht. }
  split; [by exists doc|]. split; [done|].
  intros r ns Ha [Hd _]%reveal_verify_signature_ok. rewrite Ha in Hd. by apply Hno in Hd.
Qed.

End ManagerFacts.

(** ** Witnesses: a text that holds the whole document *)

Module ToyKid.

#[export] Instance Did_countable : Countable Did := inj_countable' did_id MkDid (fun '(MkDid _) => eq_refl).
#[export] Instance ControllerKey_countable : Countable ControllerKey :=
  inj_countable' (fun k => (ck_id k, key_type k, public_key k)) (fun '(a, b, c) => MkControllerKey a b c)
    (fun '(MkControllerKey _ _ _) => eq_refl).
#[export] Instance ManifestPointer_countable : Countable ManifestPointer :=
  inj_countable' (fun k => (mp_hash k, locations k)) (fun '(a, b) => MkManifestPointer a b)
    (fun '(MkManifestPointer _ _) => eq_refl).
#[export] Instance Document_countable : Countable Document :=
  inj_countable' (fun d => (doc_type d, kid d, created_at d, controller_keys d, manifest_ptr d, revocation_keys d,
      deactivated d, signature d))
    (fun '(a, b, c, d, e, f, g, h) => MkDocument a b c d e f g h) (fun '(MkDocument _ _ _ _ _ _ _ _) => eq_refl).
#[export] Instance Service_countable : Countable Service :=
  inj_countable' (fun s => (svc_id s, service_type s, protocol s, endpoint s)) (fun '(a, b, c, d) => MkService a b c d)
    (fun '(MkService _ _ _ _) => eq_refl).
#[export] Instance Manifest_countable : Countable Manifest :=
  inj_countable' (fun m => (m_doc_type m, m_kid m, version m, valid_from m, expires_at m, services m, m_signature m))
    (fun '(a, b, c, d, e, f, g) => MkManifest a b c d e f g) (fun '(MkManifest _ _ _ _ _ _ _) => eq_refl).

Definition to_text {A} `{Countable A} (a : A) : option bytes := Some [Z.pos (encode a)].
Definition of_text {A} `{Countable A} (b : bytes) : option A := match b with [Z.pos p] => decode p | _ => None end.

Lemma text_round {A} `{Countable A} (a : A) b : to_text a = Some b -> of_text b = Some a.
Proof. intros [= <-]. apply decode_encode. Qed.

Definition text : KidText := {|
  document_to_string := to_text; document_from_str := of_text;
  manifest_to_string := to_text; manifest_from_str := of_text |}.

Definition keys : @IdentityKeys Toy.toy_mldsa_sign :=
  @Build_IdentityKeys Toy.toy_mldsa_sign (fun s => s) (fun s => Some s) (fun s => s).

Lemma text_laws : @KidTextLaws text.
Proof.
  split; cbn [document_to_string document_from_str manifest_to_string manifest_from_str text].
  - intros d b d' E. rewrite (text_round d b E). congruence.
  - intros d b E _ _. by apply text_round.
  - intros m b m' E. rewrite (text_round m b E). congruence.
  - intros m b E _ _. by apply text_round.
Qed.

Lemma keys_laws : @IdentityKeysLaws Toy.toy_mldsa_sign keys.
Proof. intros k. done. Qed.

Definition json : StoredJson := {| auth_kid_from_slice _ := None; auth_manifest_from_slice _ := None |}.

Definition salt : bytes := toy_salt 1.
Definition dir : bytes := bs "kids".
Definition name : bytes := bs "alexander.kin".
Definition identity : option bytes := Some (repeat 7 32).
Definition key1 : @KineticKeypair Toy.toy_mldsa_sign := [1].
Definition key2 : @KineticKeypair Toy.toy_mldsa_sign := [2].
Definition both : KidIo := MkKidIo true true.
Definition torn : KidIo := MkKidIo true false.
Definition always (path : bytes) : bool := true.
Definition owned : NameEnvelope :=
  Standard (MkReveal 1 name [] [] 0 [] 0 [] (repeat 7 32) [] None None).
End ToyKid.

#[local] Existing Instances ascii_only Toy.toy_sha2 Toy.toy_mldsa Toy.toy_mldsa_sign Toy.toy_codecs toy_jcs
  ToyKid.keys ToyKid.text ToyKid.json Toy.toy_sha2_laws Toy.toy_mldsa_sign_laws Toy.toy_mldsa_bound Toy.toy_codecs_laws
  ToyKid.keys_laws ToyKid.text_laws.

Module ToyDisk.
Import ToyKid.
(** The disk of a node that made an identity for [alexander.kin]. *)
Definition created : Disk * Result IdentityError GeneratedKid :=
  get_or_create_kid_for_name salt dir always identity name true false 1000 key1 both ∅.
Definition create : KidOp := KoCreate name true false 1000 key1 both.
Definition disk : Disk := kid_run salt dir always identity [create].
Definition document : Document := match created.2 with Ok g => gk_kid_doc g | Err _ => toy_doc end.
Definition rotated : Disk * Result IdentityError RotatedKid :=
  rotate_name_kid salt dir always identity name key2 both disk.
Definition revoked : Disk * Result IdentityError Document := revoke_local_kid dir always name both disk.
Definition saved : Disk * Result IdentityError (Manifest * AuthorizedManifest) :=
  save_and_sign_local_manifest salt dir always identity name [] 1000 both disk.
End ToyDisk.

(** A run that ends well ends with some result. *)
Lemma run_ok {S E A} (r : S * Result E A) : is_ok r.2 = true -> exists a, r = (r.1, Ok a).
Proof. destruct r as [s [a|e]]; [by exists a|done]. Qed.

Lemma toy_normal : normalize_name ToyKid.name = ToyKid.name.
Proof. vm_compute. reflexivity. Qed.

Lemma toy_loaded :
  load_kid_and_key ToyKid.dir ToyKid.always (normalize_name ToyKid.name) ToyDisk.disk = Ok (ToyDisk.document, ToyKid.key1).
Proof. vm_compute. reflexivity. Qed.

Lemma toy_no_revocation : revocation_keys ToyDisk.document = [].
Proof. vm_compute. reflexivity. Qed.

Lemma created_kid_verifies_witness :
  exists g, ToyDisk.created = (ToyDisk.disk, Ok g) /\
    verify_authorized_kid ToyKid.salt (gk_auth_kid g) (Some ToyKid.owned) None = Ok tt.
Proof.
  destruct (run_ok ToyDisk.created) as [g E]; [vm_compute; reflexivity|].
  assert (Hg : is_inherited g = false).
  { apply (f_equal (fun r => match r.2 with Ok g => is_inherited g | Err _ => true end)) in E.
    cbn [snd] in E. rewrite <- E. vm_compute. reflexivity. }
  exists g. split; [exact E|].
  destruct (created_kid_verifies ToyKid.salt ToyKid.dir ToyKid.always ToyKid.identity ToyKid.name true false 1000
    ToyKid.key1 ToyKid.both ∅ _ g E Hg ltac:(vm_compute; discriminate)) as (owner & json & Ho & _ & _ & _ & _ & Hsig & Hv).
  apply Hv. exists ToyKid.owned. split; [reflexivity|]. replace (envelope_pubkey ToyKid.owned) with (to_public_bytes owner); [exact Hsig|].
  apply (f_equal (fun r => match r with Ok k => Some (to_public_bytes k) | Err _ => None end)) in Ho.
  vm_compute in Ho. injection Ho as <-. reflexivity.
Defined.

Lemma rotated_kid_admitted_iff_witness :
  exists r, ToyDisk.rotated = (ToyDisk.rotated.1, Ok r) /\ forall active existing,
    verify_authorized_kid ToyKid.salt (rk_auth_kid r) active existing <> Ok tt.
Proof.
  destruct (run_ok ToyDisk.rotated) as [r E]; [vm_compute; reflexivity|]. exists r. split; [exact E|].
  destruct (rotated_kid_admitted_iff ToyKid.salt ToyKid.dir ToyKid.always ToyKid.identity ToyKid.name ToyKid.key2
    ToyKid.both ToyDisk.disk _ r E) as (doc & old_key & Hl & _ & _ & Hv).
  rewrite toy_loaded in Hl. apply Ok_inj, pair_equal_spec in Hl as [<- <-].
  apply Hv; vm_compute; [reflexivity|discriminate].
Defined.

Lemma revoked_kid_verifies_iff_witness :
  exists doc', ToyDisk.revoked = (ToyDisk.revoked.1, Ok doc') /\ deactivated doc' = true /\
    document_verify doc' <> Ok tt.
Proof.
  destruct (run_ok ToyDisk.revoked) as [doc' E]; [vm_compute; reflexivity|]. exists doc'. split; [exact E|].
  destruct (revoked_kid_verifies_iff ToyKid.salt ToyKid.dir ToyKid.always ToyKid.name ToyKid.both ToyDisk.disk _ doc' E)
    as (doc & key & Hl & Hd & Hv & _).
  split; [exact Hd|]. intros (_ & rk & Hin & _)%Hv.
  rewrite toy_loaded in Hl. apply Ok_inj, pair_equal_spec in Hl as [<- <-]. rewrite toy_no_revocation in Hin.
  by apply not_elem_of_nil in Hin.
Defined.

Lemma saved_manifest_verifies_iff_witness :
  exists m am, ToyDisk.saved = (ToyDisk.saved.1, Ok (m, am)) /\ version m = 1.
Proof.
  destruct (run_ok ToyDisk.saved) as [[m am] E]; [vm_compute; reflexivity|]. exists m, am. split; [exact E|].
  destruct (saved_manifest_verifies_iff ToyKid.salt ToyKid.dir ToyKid.always ToyKid.identity ToyKid.name [] 1000
    ToyKid.both ToyDisk.disk _ m am ltac:(vm_compute; reflexivity) E)
    as (doc & dp & path & key & existing & _ & _ & _ & _ & _ & _ & _ & He & Hv & _).
  vm_compute in He. apply Ok_inj in He. by rewrite Hv, <- He.
Defined.

Lemma interrupted_rotation_locks_witness :
  exists torn, rotate_name_kid ToyKid.salt ToyKid.dir ToyKid.always ToyKid.identity ToyKid.name ToyKid.key2
    ToyKid.torn ToyDisk.disk = (torn, Err IeIo).
Proof.
  assert (Hp : exists p, prepare_rotation ToyDisk.document ToyKid.key1 ToyKid.key2 = Ok p).
  { apply is_ok_true. vm_compute. reflexivity. }
  destruct Hp as [p Hp].
  destruct (interrupted_rotation_locks ToyKid.salt ToyKid.dir ToyKid.always ToyKid.identity ToyKid.name ToyKid.key2
    ToyKid.torn ToyDisk.disk ToyDisk.document ToyKid.key1 p) as (torn & H & _);
    [exact toy_normal|by rewrite <- toy_loaded, toy_normal|exact Hp|reflexivity|reflexivity| |by exists torn].
  split.
  - assert (Hc : controller_keys ToyDisk.document = [MkControllerKey
      (did_id (kid ToyDisk.document) ++ PRIMARY_SUFFIX) CONTROLLER [1]]) by (vm_compute; reflexivity).
    rewrite Hc. intros ck ->%list_elem_of_singleton. vm_compute. discriminate.
  - rewrite toy_no_revocation. intros rk Hin. by apply not_elem_of_nil in Hin.
Defined.

Lemma local_manifests_never_delegate_witness :
  exists m am, ToyDisk.saved = (ToyDisk.saved.1, Ok (m, am)) /\
    forall r ns, rv_authorization r = Some am -> reveal_verify_signature r ns <> Ok tt.
Proof.
  destruct (run_ok ToyDisk.saved) as [[m am] E]; [vm_compute; reflexivity|]. exists m, am. split; [exact E|].
  apply (local_manifests_never_delegate ToyKid.salt ToyKid.dir ToyKid.always ToyKid.identity [ToyDisk.create]
    ToyKid.name [] 1000 ToyKid.both _ m am E).
Defined.
