(* ===== verification/RegistrationApi.v ===== *)
(** * The registration API of the daemon

    [kinetic-daemon/src/api/nrs.rs] and [api/heartbeat.rs]: publication of
    records and commitments, resolution, zone files and their publication by the
    owner or a delegate, heartbeats; and the heartbeat task of
    [services/heartbeat.rs].  The handlers share the daemon's storage, its zone
    files and its identity key; what they hand to the network is logged. *)
From Stdlib Require Import String.
From S2P Require Import Prelude Bytes Config Crypto Kyn Names Physics Net Kid Records Action Verify Nrs Lru Peers DnsTree Storage StoreVerify TieBreaker Store EventLoop Oracle ActionNode ApiAuth KidManager.
#[local] Open Scope Z_scope.

(** ** Interfaces *)

(** [serde_json] at the types of the handlers; the dummy is the JSON object made
    up for a reserved name. *)
Class DaemonJson `{Serde} := {
  names_from_slice : bytes -> option (list bytes);
  names_to_vec : list bytes -> option bytes;
  zone_to_vec : NrsZone -> option bytes;
  zone_to_string_pretty : NrsZone -> option bytes;
  zone_from_str : bytes -> option NrsZone;
  heartbeat_to_vec : Heartbeat -> option bytes;
  heartbeat_from_slice : bytes -> option Heartbeat;
  commitment_to_vec : bytes -> option bytes;
  reserved_dummy : bytes -> Json }.

(** The list of owned names is read back; the made-up object has no
    [vdf_proof] field. *)
Class DaemonJsonLaws `{DaemonJson} := {
  names_round l b : names_to_vec l = Some b -> names_from_slice b = Some l;
  dummy_fields p : json_has (reserved_dummy p) (bs "vdf_proof") = false }.

Class DbKeys := {
  DB_PREFIX_OWNED_NAMES : bytes;
  DB_PREFIX_REVEAL : bytes }.

(** ** Answers *)

Inductive ApiError :=
  | ApInsufficientPrivileges
  | ApBadRequest (why : string)
  | ApInvalidReveal (e : RevealValidationError)
  | ApName (e : NamesError)
  | ApNotFound
  | ApNrsParse
  | ApStorage (e : StorageError)
  | ApReadFailed
  | ApWriteFailed
  | ApDeserialization
  | ApNotRegisteredLocal
  | ApIdentity (e : IdentityError)
  | ApPubkeyMismatch
  | ApSerialization
  | ApPublish
  | ApQuorum
  | ApNameNotFound
  | ApResolution
  | ApSignatureVerificationFailed (e : SignatureVerifyError).

(** What is handed to the network client. *)
Inductive NetCall :=
  | NcPublish (name payload : bytes)
  | NcHeartbeat (name payload : bytes)
  | NcVerifyQuorum (name payload : bytes).

(** The answer of [resolve_redundant_payload]. *)
Inductive NetResolution := NrPayload (b : bytes) | NrNotFound | NrFailed.

Inductive ReadOutcome := RdContent (b : bytes) | RdNotFound | RdFailed.

Definition ACTIVE_HEARTBEAT_MAX_KYNS : Z := 200.
Definition STALE_HEARTBEAT_MAX_KYNS : Z := 28800.

Inductive HbStatus := HbActive | HbStale | HbIdle | HbParseError | HbNotFound.

Record HeartbeatStatusResponse := MkHbStatus {
  hs_name : bytes;
  hs_status : HbStatus;
  hs_latest_kyn : Z;
  kyns_idle : Z }.

Section Registration.
Context {HUni : UnicodeCase} {HSha : Sha2} {HSig : MlDsa} {HSign : MlDsaSign} {HCod : Codecs} {HJcs : Jcs}
  {HBv : BeaconVerify} {HSto : StorageEngine} {HSerde : Serde} {HRea : ReactorJson} {HDj : DaemonJson}
  {HKeys : IdentityKeys} {HDb : DbKeys} {HVec : RawKynVec} {HNet : OracleNet}.
Variables (is_dev_mode : bool) (network_salt : bytes) (provider : BeaconProvider) (DB_PREFIX_LAST_KYN : bytes).

(** The storage, the files of [zones/config] and [zones/local] by the name they
    are called after, the bytes of [identity.key], the key of the API state, and
    the calls made so far. *)
Record Daemon := MkDaemon {
  dm_sto : Sto;
  dm_zones : gmap bytes bytes;
  dm_local_zones : gmap bytes bytes;
  dm_identity : option bytes;
  daemon_keypair : KineticKeypair;
  dm_calls : list NetCall }.

Definition set_dm_sto (x : Sto) (s : Daemon) : Daemon :=
  MkDaemon x (dm_zones s) (dm_local_zones s) (dm_identity s) (daemon_keypair s) (dm_calls s).
Definition set_dm_zones (x : gmap bytes bytes) (s : Daemon) : Daemon :=
  MkDaemon (dm_sto s) x (dm_local_zones s) (dm_identity s) (daemon_keypair s) (dm_calls s).
Definition set_dm_local_zones (x : gmap bytes bytes) (s : Daemon) : Daemon :=
  MkDaemon (dm_sto s) (dm_zones s) x (dm_identity s) (daemon_keypair s) (dm_calls s).
Definition net_call (c : NetCall) (s : Daemon) : Daemon :=
  MkDaemon (dm_sto s) (dm_zones s) (dm_local_zones s) (dm_identity s) (daemon_keypair s) (dm_calls s ++ [c]).

(** [net_kyn] is the event loop's kyn, if it answers. *)
Definition safe_current_kyn (net_kyn : option Z) (now : Z) (s : Daemon) : Z :=
  match net_kyn with
  | Some k =>
      if k >? 0 then k
      else match load_cached is_dev_mode provider DB_PREFIX_LAST_KYN (dm_sto s) with
           | Ok kyn => if rk_kyn kyn >? 0 then rk_kyn kyn else now_local BEACON_GENESIS now
           | Err _ => now_local BEACON_GENESIS now
           end
  | None =>
      match load_cached is_dev_mode provider DB_PREFIX_LAST_KYN (dm_sto s) with
      | Ok kyn => if rk_kyn kyn >? 0 then rk_kyn kyn else now_local BEACON_GENESIS now
      | Err _ => now_local BEACON_GENESIS now
      end
  end.

(** [publish_redundant_payload] of the client: the cap, then the event loop's
    answer [net_ok]. *)
Definition publish_redundant_payload (name payload : bytes) (net_ok : bool) (s : Daemon)
  : Daemon * Result ApiError unit :=
  if len payload >? 80000 then (s, Err ApPublish)
  else (net_call (NcPublish name payload) s, if net_ok then Ok tt else Err ApPublish).

Definition MAX_OWNED : nat := Z.to_nat 10000.

(** The names list under its lock: a name that is new is appended, and the
    oldest go when there are more than 10,000. *)
Definition push_owned (owned : list bytes) (fqdn : bytes) : list bytes :=
  let owned := owned ++ [fqdn] in
  if (MAX_OWNED <? length owned)%nat then drop (length owned - MAX_OWNED) owned else owned.

Definition owned_names (d : Sto) : list bytes :=
  match sto_get d DB_PREFIX_OWNED_NAMES with
  | Ok (Some b) => default [] (names_from_slice b)
  | _ => []
  end.

Definition persist_owned (fqdn : bytes) (d : Sto) : Sto :=
  let owned := owned_names d in
  if bool_decide (fqdn ∈ owned) then d
  else match names_to_vec (push_owned owned fqdn) with
       | Some b => (sto_put d DB_PREFIX_OWNED_NAMES b).1
       | None => d
       end.

Definition reveal_key (fqdn : bytes) : bytes := DB_PREFIX_REVEAL ++ fqdn.

Definition persist_reveal (fqdn : bytes) (record : NameEnvelope) (d : Sto) : Sto :=
  match envelope_to_vec record with
  | Some b => (sto_put d (reveal_key fqdn) b).1
  | None => d
  end.

Definition set_name (r : Reveal) (name : bytes) : Reveal :=
  MkReveal (protocol_version r) name (rv_embedded_nrs r) (rv_salt r) (rv_kyn r) (rv_beacon_signature r)
    (rv_iterations r) (rv_vdf_proof r) (rv_pubkey r) (rv_identity_signature r) (rv_authorization r)
    (rv_previous_proof r).
Definition set_payload (r : Reveal) (payload : bytes) (auth : option AuthorizedManifest) : Reveal :=
  MkReveal (protocol_version r) (rv_name r) payload (rv_salt r) (rv_kyn r) (rv_beacon_signature r)
    (rv_iterations r) (rv_vdf_proof r) (rv_pubkey r) (rv_identity_signature r) auth (rv_previous_proof r).
Definition set_signature (r : Reveal) (sig : bytes) : Reveal :=
  MkReveal (protocol_version r) (rv_name r) (rv_embedded_nrs r) (rv_salt r) (rv_kyn r) (rv_beacon_signature r)
    (rv_iterations r) (rv_vdf_proof r) (rv_pubkey r) sig (rv_authorization r) (rv_previous_proof r).

(** The staleness check of a publication. *)
Definition publish_window (current_kyn kyn : Z) : Result ApiError unit :=
  if current_kyn >? 0 then
    bail_if (kyn >? current_kyn) (ApBadRequest "in the future");;
    bail_if (current_kyn - kyn >? RESQUARING_EPOCH_KYNS) (ApBadRequest "too old")
  else Ok tt.

(** The part of [handle_publish_record] before anything is sent: the record to
    publish and its serialization. *)
Definition prepare_record (role : Role) (record : NameEnvelope) (current_kyn : Z)
  : Result ApiError (bytes * NameEnvelope * bytes) :=
  bail_if (negb (can_nrs role)) ApInsufficientPrivileges;;
  let fqdn := normalize_name (envelope_name record) in
  map_err ApName (is_valid_apex_name fqdn);;
  let '(Standard reveal) := record in
  let reveal := set_name reveal fqdn in
  map_err ApInvalidReveal (reveal_validate reveal);;
  publish_window current_kyn (rv_kyn reveal);;
  payload_bytes ← ok_or (envelope_to_vec (Standard reveal)) ApPublish;
  Ok (fqdn, Standard reveal, payload_bytes).

(** The quorum check ten seconds later only logs its result. *)
Definition handle_publish_record (role : Role) (record : NameEnvelope) (net_kyn : option Z) (now : Z)
    (net_ok : bool) (s : Daemon) : Daemon * Result ApiError unit :=
  match prepare_record role record (safe_current_kyn net_kyn now s) with
  | Err e => (s, Err e)
  | Ok (fqdn, record, payload_bytes) =>
      match publish_redundant_payload fqdn payload_bytes net_ok s with
      | (s, Err e) => (s, Err e)
      | (s, Ok _) =>
          let d := persist_owned fqdn (dm_sto s) in
          let d := persist_reveal fqdn record d in
          (net_call (NcVerifyQuorum fqdn payload_bytes) (set_dm_sto d s), Ok tt)
      end
  end.

(** [hash] is the commitment's. *)
Definition handle_publish_commit (role : Role) (name hash : bytes) (net_ok : bool) (s : Daemon)
  : Daemon * Result ApiError unit :=
  let prepared :=
    bail_if (negb (can_nrs role)) ApInsufficientPrivileges;;
    let fqdn := normalize_name name in
    map_err ApName (is_valid_apex_name fqdn);;
    bail_if (bool_decide (hash = replicate 32 0)) (ApBadRequest "all-zeros");;
    payload_bytes ← ok_or (commitment_to_vec hash) ApPublish;
    Ok (fqdn, payload_bytes) in
  match prepared with
  | Err e => (s, Err e)
  | Ok (fqdn, payload_bytes) =>
      match publish_redundant_payload fqdn payload_bytes net_ok s with
      | (s, Err e) => (s, Err e)
      | (s, Ok _) => (net_call (NcVerifyQuorum fqdn payload_bytes) s, Ok tt)
      end
  end.

(** [trim_end_matches] by a suffix that is not empty. *)
Fixpoint trim_end_matches_loop (fuel : nat) (p s : bytes) : bytes :=
  match fuel with
  | S n => match strip_suffix p s with Some s' => trim_end_matches_loop n p s' | None => s end
  | O => s
  end.
Definition trim_end_matches (p s : bytes) : bytes := trim_end_matches_loop (length s) p s.

Definition apex_no_tld (fqdn : bytes) : bytes := trim_end_matches NSP_SUFFIX (extract_apex_name fqdn).

(** A file of a zone directory; [io] is whether it can be read. *)
Definition read_zone (files : gmap bytes bytes) (name : bytes) (io : bool) : ReadOutcome :=
  match files !! name with
  | Some b => if io then RdContent b else RdFailed
  | None => RdNotFound
  end.

Definition handle_resolve_name (name : bytes) (net : NetResolution) (io : bool) (s : Daemon)
  : Result ApiError NameEnvelope :=
  let fqdn := normalize_name name in
  if is_reserved_name fqdn then
    match read_zone (dm_local_zones s) (apex_no_tld fqdn) io with
    | RdContent content =>
        match zone_from_str content with
        | Some zone =>
            let payload := default [] (zone_to_vec zone) in
            ok_or (envelope_from_value (reserved_dummy payload)) ApNameNotFound
        | None => Err ApNameNotFound
        end
    | _ => Err ApNameNotFound
    end
  else
    match net with
    | NrPayload payload =>
        record ← ok_or (envelope_from_slice payload) ApResolution;
        let '(Standard r) := record in
        if negb is_dev_mode then
          map_err ApSignatureVerificationFailed (reveal_verify_signature r network_salt);; Ok record
        else Ok record
    | NrNotFound =>
        match sto_get (dm_sto s) (reveal_key fqdn) with
        | Err _ => Err ApResolution
        | Ok (Some bytes) => ok_or (envelope_from_slice bytes) ApResolution
        | Ok None => Err ApNameNotFound
        end
    | NrFailed => Err ApResolution
    end.

(** [count] is the network's answer. *)
Definition handle_verify_quorum (name : bytes) (record : NameEnvelope) (count : option Z) (s : Daemon)
  : Daemon * Result ApiError (bytes * Z) :=
  let fqdn := normalize_name name in
  match map_err ApName (is_valid_apex_name fqdn);; ok_or (envelope_to_vec record) (ApBadRequest "payload") with
  | Err e => (s, Err e)
  | Ok payload =>
      (net_call (NcVerifyQuorum fqdn payload) s, n ← ok_or count ApQuorum; Ok (fqdn, n))
  end.

(** ** Zone files *)

(** The reserved names with the state of their override file. *)
Definition handle_get_reserved_names (s : Daemon) : list (bytes * bool) :=
  map (fun r => (r, bool_decide (is_Some (dm_local_zones s !! r)))) RESERVED_NAMES.

Definition parse_zone_file (o : ReadOutcome) : Result ApiError NrsZone :=
  match o with
  | RdContent content => ok_or (zone_from_str content) ApNrsParse
  | RdNotFound => Err ApNotFound
  | RdFailed => Err ApReadFailed
  end.

Definition handle_get_zone (name : bytes) (io : bool) (s : Daemon) : Result ApiError NrsZone :=
  let fqdn := normalize_name name in
  map_err ApName (is_valid_apex_name fqdn);;
  parse_zone_file (read_zone (dm_zones s) fqdn io).

Definition handle_post_zone (role : Role) (name : bytes) (zone : NrsZone) (io : bool) (s : Daemon)
  : Daemon * Result ApiError unit :=
  let prepared :=
    bail_if (negb (can_nrs role)) ApInsufficientPrivileges;;
    let fqdn := normalize_name name in
    map_err ApName (is_valid_apex_name fqdn);;
    content ← ok_or (zone_to_string_pretty zone) ApWriteFailed;
    bail_if (negb io) ApWriteFailed;;
    Ok (fqdn, content) in
  match prepared with
  | Err e => (s, Err e)
  | Ok (fqdn, content) => (set_dm_zones (<[fqdn := content]> (dm_zones s)) s, Ok tt)
  end.

Definition load_registration (fqdn : bytes) (d : Sto) : Result ApiError NameEnvelope :=
  stored ← map_err ApStorage (sto_get d (reveal_key fqdn));
  reveal_bytes ← ok_or stored ApNotRegisteredLocal;
  ok_or (envelope_from_slice reveal_bytes) ApDeserialization.

(** The record with the zone as its payload, signed again by the owner; the
    authorization of the stored record stays. *)
Definition resign_zone (keypair : KineticKeypair) (payload : bytes) (r : Reveal) : Reveal :=
  let r := set_payload r payload (rv_authorization r) in
  set_signature r (kp_sign keypair (reveal_signable_bytes r network_salt)).

Definition handle_publish_zone (role : Role) (name : bytes) (io net_ok : bool) (s : Daemon)
  : Daemon * Result ApiError unit :=
  let prepared :=
    bail_if (negb (can_nrs role)) ApInsufficientPrivileges;;
    let fqdn := normalize_name name in
    map_err ApName (is_valid_apex_name fqdn);;
    content ← match read_zone (dm_zones s) fqdn io with RdContent c => Ok c | _ => Err ApNotFound end;
    zone ← ok_or (zone_from_str content) ApNrsParse;
    record ← load_registration fqdn (dm_sto s);
    keypair ← map_err ApIdentity (load_keypair (dm_identity s));
    bail_if (negb (bool_decide (envelope_pubkey record = to_public_bytes keypair))) ApPubkeyMismatch;;
    payload ← ok_or (zone_to_vec zone) ApSerialization;
    let '(Standard r) := record in
    Ok (fqdn, Standard (resign_zone keypair payload r)) in
  match prepared with
  | Err e => (s, Err e)
  | Ok (fqdn, record) =>
      let s := set_dm_sto (persist_reveal fqdn record (dm_sto s)) s in
      match envelope_to_vec record with
      | None => (s, Err ApPublish)
      | Some dht_payload => publish_redundant_payload fqdn dht_payload net_ok s
      end
  end.

(** ** The overrides of reserved names *)

Definition local_name (role : Role) (name : bytes) : Result ApiError bytes :=
  bail_if (negb (can_nrs role)) ApInsufficientPrivileges;;
  let fqdn := normalize_name name in
  bail_if (negb (is_reserved_name fqdn)) (ApBadRequest "not reserved");;
  Ok (apex_no_tld fqdn).

Definition handle_post_local_zone (role : Role) (name : bytes) (zone : NrsZone) (io : bool) (s : Daemon)
  : Daemon * Result ApiError unit :=
  match
    file ← local_name role name;
    bail_if (negb io) ApWriteFailed;;
    content ← ok_or (zone_to_string_pretty zone) ApWriteFailed;
    Ok (file, content)
  with
  | Err e => (s, Err e)
  | Ok (file, content) => (set_dm_local_zones (<[file := content]> (dm_local_zones s)) s, Ok tt)
  end.

Definition handle_delete_local_zone (role : Role) (name : bytes) (io : bool) (s : Daemon)
  : Daemon * Result ApiError unit :=
  match local_name role name with
  | Err e => (s, Err e)
  | Ok file =>
      match dm_local_zones s !! file with
      | None => (s, Err ApNotFound)
      | Some _ =>
          if io then (set_dm_local_zones (delete file (dm_local_zones s)) s, Ok tt) else (s, Err ApWriteFailed)
      end
  end.

Definition handle_get_local_zone (name : bytes) (io : bool) (s : Daemon) : Result ApiError NrsZone :=
  let fqdn := normalize_name name in
  bail_if (negb (is_reserved_name fqdn)) (ApBadRequest "not reserved");;
  parse_zone_file (read_zone (dm_local_zones s) (apex_no_tld fqdn) io).

(** ** Delegated updates *)

(** The hot key in hexadecimal and the delegation. *)
Record HotKey := MkHotKey { hot_key_hex : bytes; authorized_manifest : AuthorizedManifest }.

Definition load_hot_key (req : HotKey) (capability : bytes) : Result ApiError KineticKeypair :=
  bail_if (negb (has_capability (am_manifest (authorized_manifest req)) capability)) (ApBadRequest "capability");;
  hot_key_bytes ← ok_or (hex_decode (hot_key_hex req)) (ApBadRequest "hex");
  ok_or (from_slice hot_key_bytes) (ApBadRequest "keypair").

(** The record with the new payload and the delegation, signed by the hot key. *)
Definition resign_update (keypair : KineticKeypair) (payload : bytes) (auth : AuthorizedManifest) (r : Reveal) : Reveal :=
  let r := set_payload r payload (Some auth) in
  set_signature r (kp_sign keypair (reveal_signable_bytes r network_salt)).

Definition prepare_update (role : Role) (name : bytes) (req : HotKey) (zone : NrsZone) (s : Daemon)
  : Result ApiError (bytes * NameEnvelope) :=
  bail_if (negb (can_nrs role)) ApInsufficientPrivileges;;
  let fqdn := normalize_name name in
  map_err ApName (is_valid_apex_name fqdn);;
  keypair ← load_hot_key req DNS_UPDATE_CAPABILITY;
  record ← load_registration fqdn (dm_sto s);
  payload_bytes ← ok_or (zone_to_vec zone) ApSerialization;
  let '(Standard reveal) := record in
  Ok (fqdn, Standard (resign_update keypair payload_bytes (authorized_manifest req) reveal)).

(** [None] is the panic of the second serialization. *)
Definition handle_publish_nrs_update (role : Role) (name : bytes) (req : HotKey) (zone : NrsZone)
    (net_ok : bool) (s : Daemon) : option (Daemon * Result ApiError unit) :=
  match prepare_update role name req zone s with
  | Err e => Some (s, Err e)
  | Ok (fqdn, record) =>
      final_bytes ← envelope_to_vec record;
      let s := set_dm_sto (sto_put (dm_sto s) (reveal_key fqdn) final_bytes).1 s in
      Some (publish_redundant_payload fqdn final_bytes net_ok s)
  end.

(** ** Heartbeats *)

(** The heartbeat a key makes for a name. *)
Definition sign_heartbeat (keypair : KineticKeypair) (name : bytes) (kyn : Z) (auth : option AuthorizedManifest)
  : Heartbeat :=
  let hb := MkHeartbeat name kyn [] auth in
  MkHeartbeat name kyn (kp_sign keypair (heartbeat_signable_bytes hb network_salt)) auth.

Definition publish_heartbeat (hb : Heartbeat) (net_ok : bool) (s : Daemon) : Daemon * Result ApiError unit :=
  match heartbeat_to_vec hb with
  | None => (s, Err (ApBadRequest "serialize"))
  | Some payload => (net_call (NcHeartbeat (hb_name hb) payload) s, if net_ok then Ok tt else Err ApPublish)
  end.

Definition handle_post_heartbeat (role : Role) (name : bytes) (net_kyn : option Z) (now : Z) (net_ok : bool)
    (s : Daemon) : Daemon * Result ApiError unit :=
  match
    bail_if (negb (can_heartbeat role)) ApInsufficientPrivileges;;
    map_err ApName (is_valid_apex_name (normalize_name name))
  with
  | Err e => (s, Err e)
  | Ok _ =>
      let current_kyn := safe_current_kyn net_kyn now s in
      publish_heartbeat (sign_heartbeat (daemon_keypair s) (normalize_name name) current_kyn None) net_ok s
  end.

Definition handle_post_authorized_update (role : Role) (name : bytes) (req : HotKey) (net_kyn : option Z)
    (now : Z) (net_ok : bool) (s : Daemon) : Daemon * Result ApiError unit :=
  match
    bail_if (negb (can_heartbeat role)) ApInsufficientPrivileges;;
    map_err ApName (is_valid_apex_name (normalize_name name));;
    load_hot_key req HEARTBEAT_CAPABILITY
  with
  | Err e => (s, Err e)
  | Ok keypair =>
      let current_kyn := safe_current_kyn net_kyn now s in
      publish_heartbeat
        (sign_heartbeat keypair (normalize_name name) current_kyn (Some (authorized_manifest req))) net_ok s
  end.

(** One entry of the status list; [res] is the answer to [resolve_heartbeat]. *)
Definition heartbeat_status (current_kyn : Z) (name : bytes) (res : option bytes) : HeartbeatStatusResponse :=
  match res with
  | Some b =>
      match heartbeat_from_slice b with
      | Some hb =>
          let age := sat_sub current_kyn (latest_kyn hb) in
          let status :=
            if age <=? ACTIVE_HEARTBEAT_MAX_KYNS then HbActive
            else if age <=? STALE_HEARTBEAT_MAX_KYNS then HbStale
            else HbIdle in
          MkHbStatus name status (latest_kyn hb) age
      | None => MkHbStatus name HbParseError 0 0
      end
  | None => MkHbStatus name HbNotFound 0 0
  end.

(** [resolve] answers each query; no task of the loop panics. *)
Definition handle_get_heartbeats (resolve : bytes -> option bytes) (net_kyn : option Z) (now : Z) (s : Daemon)
  : Result ApiError (Z * list HeartbeatStatusResponse) :=
  stored ← map_err ApStorage (sto_get (dm_sto s) DB_PREFIX_OWNED_NAMES);
  names ← match stored with
          | Some b => ok_or (names_from_slice b) ApDeserialization
          | None => Ok []
          end;
  let current_kyn := safe_current_kyn net_kyn now s in
  Ok (current_kyn, map (fun name => heartbeat_status current_kyn name (resolve name)) names).

(** The subtraction is not checked. *)
Definition daemon_should_fetch (p2p_only : bool) (now : Z) (d : Sto) : bool :=
  if p2p_only then
    match load_cached is_dev_mode provider DB_PREFIX_LAST_KYN d with
    | Ok latest => as_u64 (now - BEACON_GENESIS) >? wadd64 (rk_kyn latest) 5
    | Err _ => true
    end
  else true.

(** The kyn of a tick, with what is sent to the event loop and broadcast. *)
Definition heartbeat_kyn (p2p_only : bool) (now : Z) (d : Sto) : Sto * RawKyn * option (Z * option bytes) :=
  let cached_or_unavailable d :=
    match load_cached is_dev_mode provider DB_PREFIX_LAST_KYN d with Ok kyn => kyn | Err _ => unavailable end in
  if daemon_should_fetch p2p_only now d then
    match fetch_latest is_dev_mode provider DB_PREFIX_LAST_KYN now d with
    | (d, Ok p) =>
        (d, p,
         if negb (is_unavailable p) && negb (is_from_cache p) then
           Some (rk_kyn p,
                 if p2p_only then None else payload ← raw_kyn_to_vec p; Some (opcode_byte OpKyn :: payload))
         else None)
    | (d, Err _) => (d, cached_or_unavailable d, None)
    end
  else (d, cached_or_unavailable d, None).

(** The part of the heartbeat task after the kyn of a tick is known: the last
    live kyn afterwards, and whether heartbeats are made.  [due] is whether the
    thirty seconds have passed. *)
Definition heartbeat_due (kyn : RawKyn) (last_live : Z) (due : bool) : Z * bool :=
  if is_unavailable kyn then (last_live, false)
  else
    let last_live := if rk_kyn kyn >? last_live then rk_kyn kyn else last_live in
    (last_live, Kyn.can_heartbeat kyn last_live && due).

(** The heartbeats of a tick, in the order of the list; a publication that fails
    is ignored. *)
Definition heartbeat_round (kyn : RawKyn) (keypair : KineticKeypair) (s : Daemon) : Daemon :=
  match sto_get (dm_sto s) DB_PREFIX_OWNED_NAMES with
  | Ok (Some b) =>
      match names_from_slice b with
      | Some names =>
          fold_left (fun s name => (publish_heartbeat (sign_heartbeat keypair name (rk_kyn kyn) None) true s).1)
            names s
      | None => s
      end
  | _ => s
  end.

End Registration.

(** ** Facts *)

Section RegistrationFacts.
Context {HUni : UnicodeCase} {HSha : Sha2} {HSig : MlDsa} {HSign : MlDsaSign} {HCod : Codecs} {HJcs : Jcs}
  {HBv : BeaconVerify} {HSto : StorageEngine} {HSerde : Serde} {HRea : ReactorJson} {HDj : DaemonJson}
  {HKeys : IdentityKeys} {HDb : DbKeys} {HVec : RawKynVec} {HNet : OracleNet}.
Context {HSigLaws : MlDsaSignLaws} {HBound : MlDsaBound}.
Variables (is_dev_mode : bool) (network_salt : bytes) (provider : BeaconProvider) (DB_PREFIX_LAST_KYN : bytes).

(** *** Publication of a zone by the owner *)

Definition previous_signed (r : Reveal) : Prop :=
  forall prev, rv_previous_proof r = Some prev ->
    signed_by (rv_pubkey r) (previous_proof_signable_bytes prev network_salt) (pp_identity_signature prev).

(** The owner signed the delegation and its document lists the owner's own key. *)
Definition self_delegated (owner name : bytes) (auth : AuthorizedManifest) : Prop :=
  am_name auth = name /\
  signed_by owner (auth_manifest_signable_bytes auth network_salt) (am_owner_signature auth) /\
  (exists s, s ∈ services (am_manifest auth) /\ service_type s = DNS_UPDATE_CAPABILITY) /\
  exists kid_doc ck, am_kid_doc auth = Some kid_doc /\ ck ∈ controller_keys kid_doc /\
    key_type ck = bs "Delegated" /\ b64url_decode (public_key ck) = Some owner.

Lemma own_signature k m : signed_by (to_public_bytes k) m (kp_sign k m).
Proof. apply verify_own_signature. Qed.

Lemma resigned_verifies keypair payload r :
  to_public_bytes keypair = rv_pubkey r ->
  reveal_verify_signature (resign_zone network_salt keypair payload r) network_salt = Ok tt <->
  previous_signed r /\
  match rv_authorization r with
  | None => True
  | Some auth => self_delegated (rv_pubkey r) (rv_name r) auth
  end.
Proof.
  intros Hk. rewrite reveal_verify_signature_ok. cbn [resign_zone set_signature rv_authorization rv_pubkey
    rv_identity_signature rv_name rv_previous_proof set_payload].
  set (u := set_payload r payload (rv_authorization r)).
  change (reveal_signable_bytes (set_signature u _) network_salt) with (reveal_signable_bytes u network_salt).
  change (reveal_signable_bytes (resign_zone network_salt keypair payload r) network_salt)
    with (reveal_signable_bytes u network_salt).
  set (msg := reveal_signable_bytes u network_salt).
  assert (Hs : signed_by (rv_pubkey r) msg (kp_sign keypair msg)) by (rewrite <- Hk; apply own_signature).
  rewrite (and_comm (previous_signed r)). apply and_iff_cong; [|done].
  destruct (rv_authorization r) as [auth|]; [|done].
  unfold delegation_valid, self_delegated. repeat (apply and_iff_cong; [done|]). split.
  - intros (doc & ck & pk & Hd & Hin & Ht & Hb & Hv). exists doc, ck. split_and!; try done.
    rewrite Hb. f_equal. eapply key_bound; [exact Hv|exact Hs].
  - intros (doc & ck & Hd & Hin & Ht & Hb). exists doc, ck, (rv_pubkey r). done.
Qed.

Lemma publish_ok name payload net_ok (s s' : Daemon) :
  publish_redundant_payload name payload net_ok s = (s', Ok tt) ->
  len payload <= 80000 /\ dm_calls s' = dm_calls s ++ [NcPublish name payload].
Proof.
  unfold publish_redundant_payload. destruct (len payload >? 80000) eqn:E; [done|]. zbool.
  destruct net_ok; [|done]. intros [= <-]. done.
Qed.

(** Publication of a zone.  What a successful publication sends is the
    stored registration with the zone of the file as its payload, under the
    owner's key; it verifies exactly when the previous proof, if any, was signed
    as such, and the stored record carries no delegation, or one whose identity
    document lists the owner's own key as delegated: after a delegated update
    the owner's publications are refused. *)
Theorem zone_publication_verifies role name io net_ok s s' :
  handle_publish_zone network_salt role name io net_ok s = (s', Ok tt) ->
  exists fqdn stored r content zone keypair payload sent,
    fqdn = normalize_name name /\ is_valid_apex_name fqdn = Ok tt /\
    sto_get (dm_sto s) (reveal_key fqdn) = Ok (Some stored) /\ envelope_from_slice stored = Some (Standard r) /\
    dm_zones s !! fqdn = Some content /\ zone_from_str content = Some zone /\ zone_to_vec zone = Some payload /\
    to_public_bytes keypair = rv_pubkey r /\
    envelope_to_vec (Standard (resign_zone network_salt keypair payload r)) = Some sent /\
    dm_calls s' = dm_calls s ++ [NcPublish fqdn sent] /\
    (reveal_verify_signature (resign_zone network_salt keypair payload r) network_salt = Ok tt <->
     previous_signed r /\
     match rv_authorization r with
     | None => True
     | Some auth => self_delegated (rv_pubkey r) (rv_name r) auth
     end).
Proof.
  unfold handle_publish_zone. intros H.
  match type of H with match ?m with _ => _ end = _ => destruct m as [[fqdn record]|e] eqn:E; [|done] end.
  rewrite bail_if_ok in E. destruct E as [_ E]. cbv zeta in E. rewrite bind_unit_ok in E. destruct E as [Hv E].
  apply map_err_ok in Hv.
  apply bind_ok in E as (content & Hc & E). apply bind_ok in E as (zone & Hz%ok_or_ok & E).
  apply bind_ok in E as ([r] & Hr & E). apply bind_ok in E as (keypair & _ & E).
  rewrite bail_if_ok in E. destruct E as [Hp E]. apply bind_ok in E as (payload & Hpl%ok_or_ok & E).
  injection E as <- <-. apply negb_false_iff, bool_decide_eq_true_1 in Hp. cbn in Hp.
  unfold load_registration in Hr. apply bind_ok in Hr as (st & Hg%map_err_ok & Hr).
  apply bind_ok in Hr as (stored & ->%ok_or_ok & Hr%ok_or_ok).
  destruct (envelope_to_vec _) as [sent|] eqn:Es; [|done].
  apply publish_ok in H as [_ Hcalls]. unfold read_zone in Hc.
  destruct (dm_zones s !! normalize_name name) as [c|] eqn:Ez; [|done].
  destruct io; [|done]. apply Ok_inj in Hc as ->.
  exists (normalize_name name), stored, r, content, zone, keypair, payload, sent.
  split_and!; try done. by apply resigned_verifies.
Qed.

(** *** Delegated updates *)

Lemma prepare_update_ok role name req zone s fqdn record :
  prepare_update network_salt role name req zone s = Ok (fqdn, record) ->
  exists stored r keypair payload, fqdn = normalize_name name /\
    sto_get (dm_sto s) (reveal_key fqdn) = Ok (Some stored) /\ envelope_from_slice stored = Some (Standard r) /\
    record = Standard (resign_update network_salt keypair payload (authorized_manifest req) r).
Proof.
  unfold prepare_update. rewrite bail_if_ok. intros [_ E]. cbv zeta in E. rewrite bind_unit_ok in E.
  destruct E as [_ E]. apply bind_ok in E as (keypair & _ & E). apply bind_ok in E as ([r] & Hr & E).
  apply bind_ok in E as (payload & _ & E). injection E as <- <-.
  unfold load_registration in Hr. apply bind_ok in Hr as (st & Hg%map_err_ok & Hr).
  apply bind_ok in Hr as (stored & ->%ok_or_ok & Hr%ok_or_ok). eauto 10.
Qed.

(** A delegation is never honoured for a name published by its owner.  Of the
    updates that the delegation API makes from a stored registration, a node that
    holds that registration admits exactly those that verify, differ from it, and
    replace an earlier delegation by one that is not older: the first delegated
    update of a name is refused by every node that has the owner's record. *)
Theorem delegated_update_admitted_iff role name req zone s fqdn record :
  prepare_update network_salt role name req zone s = Ok (fqdn, record) ->
  exists stored r, sto_get (dm_sto s) (reveal_key fqdn) = Ok (Some stored) /\
    envelope_from_slice stored = Some (Standard r) /\
    (update_verdict false network_salt false (Standard r) record = Admit <->
     envelope_verify_signature record network_salt = Ok tt /\
     ~ (envelope_embedded_nrs record = rv_embedded_nrs r /\ envelope_signature record = rv_identity_signature r) /\
     exists auth, rv_authorization r = Some auth /\
       valid_from (am_manifest auth) <= valid_from (am_manifest (authorized_manifest req))).
Proof.
  intros H. apply prepare_update_ok in H as (stored & r & keypair & payload & -> & Hg & He & ->).
  exists stored, r. split; [done|]. split; [done|].
  set (r' := resign_update network_salt keypair payload (authorized_manifest req) r).
  unfold update_verdict. change (rv_kyn r') with (rv_kyn r). rewrite Z.ltb_irrefl.
  unfold recheck_signature. cbn [negb andb].
  destruct (bool_decide (envelope_embedded_nrs (Standard r') = envelope_embedded_nrs (Standard r)) &&
    bool_decide (envelope_signature (Standard r') = envelope_signature (Standard r))) eqn:Eq.
  { zbool. split; [done|]. intros (_ & Hn & _). by destruct Hn. }
  assert (Hne : ~ (envelope_embedded_nrs (Standard r') = rv_embedded_nrs r /\
    envelope_signature (Standard r') = rv_identity_signature r)).
  { intros [H1 H2]. apply andb_false_iff in Eq as [Eq|Eq]; apply bool_decide_eq_false_1 in Eq; by apply Eq. }
  destruct (envelope_verify_signature (Standard r') network_salt) as [[]|e]; [|naive_solver].
  cbn [envelope_authorization]. change (rv_authorization r') with (Some (authorized_manifest req)).
  destruct (rv_authorization r) as [auth|]; [|naive_solver].
  destruct (_ <? _) eqn:El; zbool; split; try done.
  - intros (_ & _ & a & [= <-] & Hle). lia.
  - intros _. eauto 10.
Qed.

(** *** Publication of a record *)

(** A signature is lost when the record is renamed. *)
Lemma renamed_unverified r fqdn :
  rv_authorization r = None -> len (rv_name r) < 2 ^ 32 -> len fqdn < 2 ^ 32 -> rv_name r <> fqdn ->
  reveal_verify_signature r network_salt = Ok tt ->
  reveal_verify_signature (set_name r fqdn) network_salt <> Ok tt.
Proof.
  intros Ha Hl Hl' Hne Hv Hv'. apply reveal_verify_signature_ok in Hv as [Hv _], Hv' as [Hv' _].
  cbn [set_name rv_authorization rv_pubkey rv_identity_signature] in Hv'. rewrite Ha in Hv, Hv'.
  pose proof (message_bound _ _ _ _ Hv Hv') as E.
  apply reveal_signable_bytes_name in E; [|done|done]. done.
Qed.

Lemma publish_window_ok now kyn : publish_window now kyn = Ok tt <->
  (0 < now -> kyn <= now <= kyn + RESQUARING_EPOCH_KYNS).
Proof.
  unfold publish_window. destruct (now >? 0) eqn:E; zbool.
  - rewrite bail_if_ok, bail_if_unit, !Z.gtb_ltb, !Z.ltb_ge. lia.
  - split; intros; [lia|reflexivity].
Qed.

(** What a publication checks.  A record is prepared for the network exactly
    when the role may publish, its normalized name is valid, the record under that
    name is well formed, and its kyn is within the epoch; the signature is not
    looked at, and a correct one is lost when the name was not in its normal form. *)
Theorem publish_record_iff role r now fqdn record payload :
  (prepare_record role (Standard r) now = Ok (fqdn, record, payload) <->
   can_nrs role = true /\ fqdn = normalize_name (rv_name r) /\ is_valid_apex_name fqdn = Ok tt /\
   record = Standard (set_name r fqdn) /\ reveal_validate (set_name r fqdn) = Ok tt /\
   (0 < now -> rv_kyn r <= now <= rv_kyn r + RESQUARING_EPOCH_KYNS) /\
   envelope_to_vec record = Some payload) /\
  (rv_authorization r = None -> len (rv_name r) < 2 ^ 32 -> len (normalize_name (rv_name r)) < 2 ^ 32 ->
   rv_name r <> normalize_name (rv_name r) -> reveal_verify_signature r network_salt = Ok tt ->
   reveal_verify_signature (set_name r (normalize_name (rv_name r))) network_salt <> Ok tt).
Proof.
  split; [|by intros; apply renamed_unverified].
  unfold prepare_record. rewrite bail_if_ok, negb_false_iff. cbv zeta. cbn [envelope_name].
  rewrite !bind_unit_ok, !map_err_ok, publish_window_ok, bind_ok. cbn [set_name rv_kyn].
  setoid_rewrite ok_or_ok. split.
  - intros (? & ? & ? & ? & p & Hp & [= <- <- <-]). done.
  - intros (? & -> & ? & -> & ? & ? & ?). eauto 10.
Qed.

(** *** Heartbeats *)

(** A round of heartbeats.  The task publishes one heartbeat per owned name,
    in order, at the kyn of the round, and each is accepted under an owner's key
    exactly when that key is the daemon's own: names registered under another
    identity are on the list but never kept alive. *)
Theorem heartbeat_round_spec kyn keypair s b names :
  sto_get (dm_sto s) DB_PREFIX_OWNED_NAMES = Ok (Some b) -> names_from_slice b = Some names ->
  dm_calls (heartbeat_round network_salt kyn keypair s) = dm_calls s ++
    omap (fun name => let hb := sign_heartbeat network_salt keypair name (rk_kyn kyn) None in
                      NcHeartbeat name <$> heartbeat_to_vec hb) names /\
  forall name owner, name ∈ names ->
    (heartbeat_signature network_salt owner (sign_heartbeat network_salt keypair name (rk_kyn kyn) None) = Ok tt
     <-> owner = to_public_bytes keypair).
Proof.
  intros Hg Hn. unfold heartbeat_round. rewrite Hg, Hn. split.
  - clear Hg Hn. revert s. induction names as [|name names IH]; intros s; cbn; [by rewrite app_nil_r|].
    rewrite IH. unfold publish_heartbeat. cbn [sign_heartbeat hb_name].
    destruct (heartbeat_to_vec _) as [payload|]; cbn; [|done]. by rewrite <- app_assoc.
  - intros name owner _. unfold heartbeat_signature. cbn [sign_heartbeat hb_authorization hb_owner_signature].
    rewrite bail_if_unit, negb_false_iff, key_verifies_true.
    change (heartbeat_signable_bytes (sign_heartbeat network_salt keypair name (rk_kyn kyn) None) network_salt)
      with (heartbeat_signable_bytes (MkHeartbeat name (rk_kyn kyn) [] None) network_salt).
    split.
    + intros Hv. eapply key_bound; [exact Hv|apply own_signature].
    + intros ->. apply own_signature.
Qed.

(** *** The list of owned names *)

Lemma push_owned_spec owned fqdn :
  (length (push_owned owned fqdn) <= MAX_OWNED)%nat /\ last (push_owned owned fqdn) = Some fqdn /\
  push_owned owned fqdn = drop (length owned + 1 - MAX_OWNED) (owned ++ [fqdn]) /\
  (NoDup owned -> fqdn ∉ owned -> NoDup (push_owned owned fqdn)).
Proof.
  assert (Hd : push_owned owned fqdn = drop (length owned + 1 - MAX_OWNED) (owned ++ [fqdn])).
  { unfold push_owned. rewrite length_app. cbn [length].
    destruct (MAX_OWNED <? length owned + 1)%nat eqn:E; [done|]. apply Nat.ltb_ge in E.
    by replace (length owned + 1 - MAX_OWNED)%nat with 0%nat by lia. }
  rewrite Hd. split_and!; [rewrite length_drop, length_app; cbn [length]; lia| |done|].
  - assert (Hle : (length owned + 1 - MAX_OWNED <= length owned)%nat) by (unfold MAX_OWNED; lia).
    rewrite drop_app_le by exact Hle. by rewrite last_snoc.
  - intros Hn Hf. eapply sublist_NoDup; [|apply sublist_drop]. apply NoDup_app.
    split_and!; [done|set_solver|apply NoDup_singleton].
Qed.

End RegistrationFacts.

(** ** A name and its owner *)

Module ToyApi.
Definition owner : bytes := repeat 7 32.
Definition record : Reveal :=
  MkReveal 1 (bs "alexander.kin") [] (repeat 1 32) 1000 (repeat 97 192) 5 [] owner [] None None.

(** Stored, the record is [\[1\]]; everything else is serialized as [\[2\]]. *)
Definition serde : Serde := {|
  Json := unit; json_from_slice _ := None; json_has _ _ := false; commitment_from_value _ := None;
  envelope_from_value _ := None; heartbeat_from_value _ := None; auth_kid_from_value _ := None;
  auth_manifest_from_value _ := None; host_route_from_value _ := None;
  envelope_from_slice b := if bool_decide (b = [1]) then Some (Standard record) else None;
  envelope_to_vec e := Some (if bool_decide (e = Standard record) then [1] else [2]) |}.
Definition reactor : @ReactorJson serde := {|
  reveal_from_value _ := None; raw_kyn_from_slice _ := None; action_from_slice _ := None |}.
Definition json : @DaemonJson serde := {|
  names_from_slice b := Some (map (fun c => [c]) b); names_to_vec l := Some (concat l);
  zone_to_vec _ := Some [3]; zone_to_string_pretty _ := Some [3]; zone_from_str _ := Some ∅;
  heartbeat_to_vec hb := Some (hb_name hb); heartbeat_from_slice _ := None;
  commitment_to_vec h := Some h; reserved_dummy _ := (tt : @Json serde) |}.
Definition keys : @IdentityKeys Toy.toy_mldsa_sign := @Build_IdentityKeys Toy.toy_mldsa_sign (fun s => s) (fun s => Some s) (fun s => s).
Definition db : DbKeys := {| DB_PREFIX_OWNED_NAMES := bs "owned"; DB_PREFIX_REVEAL := bs "reveal:" |}.

#[local] Existing Instances ascii_only Toy.toy_sha2 Toy.toy_mldsa Toy.toy_mldsa_sign Toy.toy_codecs toy_jcs
  serde json keys db.
Definition wasm : StorageEngine := wasm_engine true.
#[local] Existing Instance wasm.
Definition salt : bytes := toy_salt 1.
Definition provider : BeaconProvider := MkProvider true [] [].

Definition registered : @Sto wasm :=
  (@sto_put wasm (@sto_put wasm wasm_new (bs "reveal:alexander.kin") [1]).1 (bs "owned") [97; 98]).1.
Definition daemon : Daemon :=
  MkDaemon registered {[ bs "alexander.kin" := [9] ]} ∅ (Some owner) owner [].
Definition delegation : AuthorizedManifest :=
  MkAuthorizedManifest (bs "alexander.kin")
    (MkManifest [] (MkDid []) 5 10 None [MkService [] DNS_UPDATE_CAPABILITY [] []] None) None [].
Definition hot_key : @KineticKeypair Toy.toy_mldsa_sign := repeat 8 32.
Definition owner_key : @KineticKeypair Toy.toy_mldsa_sign := owner.
Definition request : HotKey := MkHotKey (repeat 8 32) delegation.

(** Signed, but under a spelling that is not the normal form. *)
Definition capital : Reveal := set_name record (bs "Alexander.kin").
Definition signed_capital : Reveal := set_signature capital (owner ++ reveal_signable_bytes capital salt).
Definition beat : RawKyn := MkRawKyn 1200 [] [] false false.
End ToyApi.

#[local] Existing Instances ascii_only Toy.toy_sha2 Toy.toy_mldsa Toy.toy_mldsa_sign Toy.toy_codecs toy_jcs
  ToyApi.serde ToyApi.reactor ToyApi.json ToyApi.keys ToyApi.db ToyApi.wasm Toy.toy_mldsa_sign_laws Toy.toy_mldsa_bound.
Import ToyApi.

Lemma zone_publication_verifies_witness :
  exists keypair payload,
    reveal_verify_signature (resign_zone salt keypair payload record) salt = Ok tt.
Proof.
  destruct (zone_publication_verifies salt admin_role (bs "alexander.kin") true true daemon
    (handle_publish_zone salt admin_role (bs "alexander.kin") true true daemon).1)
    as (fqdn & stored & r & content & zone & keypair & payload & sent & -> & _ & Hg & He & _ & _ & _ & _ & _ & _ & Hv);
    [apply pair_of_snd; vm_compute; reflexivity|].
  assert (Hs : sto_get (dm_sto daemon) (reveal_key (normalize_name (bs "alexander.kin"))) = Ok (Some [1]))
    by (vm_compute; reflexivity).
  rewrite Hs in Hg. apply Ok_inj in Hg. injection Hg as <-.
  assert (Hr : envelope_from_slice [1] = Some (Standard record)) by (vm_compute; reflexivity).
  rewrite Hr in He. injection He as <-. exists keypair, payload. apply Hv. split; [intros prev Hp; discriminate Hp|exact I].
Defined.

Lemma delegated_update_admitted_iff_witness :
  update_verdict false salt false (Standard record)
    (Standard (resign_update salt hot_key [3] delegation record)) <> Admit.
Proof.
  destruct (delegated_update_admitted_iff salt admin_role (bs "alexander.kin") request ∅ daemon
    (bs "alexander.kin") (Standard (resign_update salt hot_key [3] delegation record)))
    as (stored & r & Hg & He & Hv); [vm_compute; reflexivity|].
  assert (Hs : sto_get (dm_sto daemon) (reveal_key (bs "alexander.kin")) = Ok (Some [1])) by (vm_compute; reflexivity).
  rewrite Hs in Hg. apply Ok_inj in Hg. injection Hg as <-.
  assert (Hr : envelope_from_slice [1] = Some (Standard record)) by (vm_compute; reflexivity).
  rewrite Hr in He. injection He as <-. intros Ha. apply Hv in Ha as (_ & _ & auth & H & _). discriminate H.
Defined.

Lemma publish_record_iff_witness :
  reveal_verify_signature signed_capital salt = Ok tt /\
  reveal_verify_signature (set_name signed_capital (bs "alexander.kin")) salt <> Ok tt.
Proof.
  assert (Hv : reveal_verify_signature signed_capital salt = Ok tt) by (vm_compute; reflexivity).
  split; [exact Hv|].
  assert (Hn : normalize_name (rv_name signed_capital) = bs "alexander.kin") by (vm_compute; reflexivity).
  destruct (publish_record_iff salt no_role signed_capital 0 [] (Standard record) []) as [_ H].
  rewrite Hn in H. apply H; [reflexivity|vm_compute; reflexivity|vm_compute; reflexivity| |exact Hv].
  vm_compute. discriminate.
Defined.

Lemma heartbeat_round_spec_witness :
  dm_calls (heartbeat_round salt beat owner_key daemon) = [NcHeartbeat [97] [97]; NcHeartbeat [98] [98]] /\
  heartbeat_signature salt owner (sign_heartbeat salt owner_key [98] 1200 None) = Ok tt.
Proof.
  destruct (heartbeat_round_spec salt beat owner_key daemon [97; 98] [[97]; [98]]) as [Hc Hs];
    [vm_compute; reflexivity|vm_compute; reflexivity|].
  split; [rewrite Hc; vm_compute; reflexivity|]. apply (Hs [98] owner); [set_solver|reflexivity].
Defined.
