(* ===== verification/MacroApi.v ===== *)
(** * The registration workflow of the daemon ([kinetic-daemon/src/api/macro_api.rs])

    The map of proof tasks and its two handlers, and the two background jobs: a
    registration (beacon, commitment, proof, publication) and a renewal.  A job
    is cut where it waits for the network or for the commitment to mature: what
    other handlers do to the state in between is arbitrary. *)
From Stdlib Require Import String.
From S2P Require Import Prelude Bytes Config Crypto Kyn Names Physics Net RsaVdf Kid Records Action Verify Nrs Lru Peers DnsTree Storage StoreVerify TieBreaker Store EventLoop Oracle ActionNode ApiAuth KidManager RegistrationApi.
#[local] Open Scope Z_scope.

(** ** Interfaces *)

(** [VdfEngine::evaluate]. *)
Class VdfProver := vdf_evaluate : bytes -> Z -> Result VdfError bytes.

(** The contract between prover and verifier. *)
Class VdfComplete `{VdfEngine, VdfProver} :=
  vdf_complete c t p : 1 <= t -> vdf_evaluate c t = Ok p -> vdf_verify c p t = Ok true.

(** [serde_json] at the type [Reveal]. *)
Class RevealText `{Serde} := reveal_to_vec : Reveal -> option bytes.

(** Documented behaviour of the derived codecs: a serialized structure is an
    object with exactly its own fields, and the internally tagged enum is read
    only from an object with its tag. *)
Class RevealTextLaws `{RevealText} := {
  reveal_fields r b : reveal_to_vec r = Some b -> exists v, json_from_slice b = Some v /\
    json_has v (bs "vdf_proof") = true /\ json_has v (bs "hash") = false /\ json_has v (bs "record_type") = false;
  envelope_value_tag v e : envelope_from_value v = Some e -> json_has v (bs "record_type") = true;
  envelope_slice_tag b e : envelope_from_slice b = Some e ->
    exists v, json_from_slice b = Some v /\ json_has v (bs "record_type") = true }.

(** The engine of [kinetic-vdf] behind the two classes; the prime search is
    given [fuel] counters. *)
Definition rsa_engine `{Sha2, NumPrime} (fuel : nat) (eng : RsaVdfEngine) : VdfEngine := fun c p t =>
  default (Err ProofGenerationError) (RsaVdf.verify fuel eng c p t).
Definition rsa_prover `{Sha2, NumPrime} (fuel : nat) (eng : RsaVdfEngine) : VdfProver := fun c t =>
  default (Err ProofGenerationError) (evaluate fuel eng c t).

#[export] Instance rsa_complete `{Sha2Laws, NumPrime} fuel eng :
  modulus_ok (vdf_n eng) -> Z.of_nat fuel < 2 ^ 64 -> @VdfComplete (rsa_engine fuel eng) (rsa_prover fuel eng).
Proof.
  intros Hn Hf c t p Ht Hp. unfold vdf_verify, vdf_evaluate, rsa_engine, rsa_prover in *.
  destruct (evaluate fuel eng c t) as [[q|]|] eqn:E; [|done|done]. apply Ok_inj in Hp. cbn in Hp. subst q.
  destruct (evaluate_inv _ _ _ _ _ Hn Ht Hf E) as (l & Hl & Hg & ->).
  by rewrite (verify_specified _ _ _ _ _ Hn Ht Hl Hg).
Qed.

(** ** The discount of a renewal, in double precision

    A double that is not negative is a mantissa of at most 53 bits and an
    exponent; the literal 0.2 is 3602879701896397 / 2^54. *)

(** To 53 bits, to nearest with ties to even. *)
Definition f64_round (m e : Z) : Z * Z :=
  let s := Z.log2 m - 52 in
  if s <=? 0 then (m, e)
  else
    let q := Z.shiftr m s in
    let r := m - Z.shiftl q s in
    let half := Z.shiftl 1 (s - 1) in
    ((if (r >? half) || ((r =? half) && Z.odd q) then q + 1 else q), e + s).

Definition f64_of_u64 (x : Z) : Z * Z := f64_round x 0.
Definition f64_mul (a b : Z * Z) : Z * Z := f64_round (a.1 * b.1) (a.2 + b.2).
(** [as u64] *)
Definition f64_to_u64 (a : Z * Z) : Z := Z.min u64_max (Z.shiftl a.1 a.2).
Definition F64_ONE_FIFTH : Z * Z := (3602879701896397, -54).

(** [(required_iters as f64 * 0.2) as u64] *)
Definition discounted_iters (required_iters : Z) : Z :=
  f64_to_u64 (f64_mul (f64_of_u64 required_iters) F64_ONE_FIFTH).

(** ** Tasks *)

Inductive TaskError :=
  | TeNotFound
  | TeCorrupted
  | TeBeacon
  | TeKeypair
  | TeSalt
  | TeBeaconSignature
  | TeSemaphore
  | TeVdf (e : VdfError)
  | TePanic
  | TeCommitSerialization
  | TeDhtCommit
  | TeIdentity (e : IdentityError)
  | TeSerialization
  | TeDhtPublish.

Record VdfTaskStatus := MkVdfTaskStatus {
  ts_status : string;
  ts_iterations : Z;
  progress : Z;
  ts_error : option TaskError }.

Definition MAX_USER_ITERATIONS : Z := 10000000.
Definition DEFAULT_ITERATIONS : Z := 4194304.

Inductive MacroError :=
  | MaInsufficientPrivileges
  | MaName (e : NamesError)
  | MaMaxIterationsExceeded
  | MaAlreadyInProgress
  | MaTooManyTasks.

(** The test of [retain] and of the count of active tasks. *)
Definition is_active (t : VdfTaskStatus) : bool :=
  (progress t <? 100) && match ts_error t with None => true | Some _ => false end.

Notation Tasks := (gmap bytes VdfTaskStatus).

Definition active_tasks (tasks : Tasks) : Tasks := filter (fun kv => is_active kv.2 = true) tasks.

Definition update_task_status (id : bytes) (status : string) (p : Z) (tasks : Tasks) : Tasks :=
  match tasks !! id with
  | Some task => <[id := MkVdfTaskStatus status (ts_iterations task) p (ts_error task)]> tasks
  | None => tasks
  end.

Definition update_task_error (id : bytes) (err : TaskError) (tasks : Tasks) : Tasks :=
  match tasks !! id with
  | Some task => <[id := MkVdfTaskStatus "Failed" (ts_iterations task) (progress task) (Some err)]> tasks
  | None => tasks
  end.

Section Handlers.
Context {HUni : UnicodeCase}.

(** The checks both handlers open with. *)
Definition check_request (role : Role) (name : bytes) (iterations : option Z) : Result MacroError bytes :=
  bail_if (negb (can_vdf role)) MaInsufficientPrivileges;;
  let fqdn := normalize_name name in
  map_err MaName (is_valid_apex_name fqdn);;
  bail_if (default 0 iterations >? MAX_USER_ITERATIONS) MaMaxIterationsExceeded;;
  Ok fqdn.

(** [task_id] is the generated identifier; the result is it, the name and the
    iterations of the spawned job. *)
Definition handle_macro_register_name (role : Role) (name : bytes) (iterations : option Z) (task_id : bytes)
    (tasks : Tasks) : Tasks * Result MacroError (bytes * bytes * Z) :=
  match check_request role name iterations with
  | Err e => (tasks, Err e)
  | Ok fqdn =>
      if (1 <=? size (active_tasks tasks))%nat then (tasks, Err MaAlreadyInProgress)
      else
        let tasks := active_tasks tasks in
        if (50 <=? size tasks)%nat then (tasks, Err MaTooManyTasks)
        else (<[task_id := MkVdfTaskStatus "Initializing" (default DEFAULT_ITERATIONS iterations) 0 None]> tasks,
              Ok (task_id, fqdn, default DEFAULT_ITERATIONS iterations))
  end.

Definition handle_macro_renew_name (role : Role) (name : bytes) (iterations : option Z) (task_id : bytes)
    (tasks : Tasks) : Tasks * Result MacroError (bytes * bytes * Z) :=
  match check_request role name iterations with
  | Err e => (tasks, Err e)
  | Ok fqdn =>
      let tasks := active_tasks tasks in
      if (50 <=? size tasks)%nat then (tasks, Err MaTooManyTasks)
      else (<[task_id := MkVdfTaskStatus "Starting Renewal..." (default DEFAULT_ITERATIONS iterations) 0 None]> tasks,
            Ok (task_id, fqdn, default DEFAULT_ITERATIONS iterations))
  end.

Definition handle_macro_tasks (role : Role) (tasks : Tasks) : Result MacroError Tasks :=
  bail_if (negb (can_vdf role)) MaInsufficientPrivileges;; Ok tasks.

Definition handle_macro_status (role : Role) (task_id : bytes) (tasks : Tasks)
  : Result MacroError (option VdfTaskStatus) :=
  bail_if (negb (can_vdf role)) MaInsufficientPrivileges;; Ok (tasks !! task_id).

End Handlers.

(** ** The jobs *)

(** What a job took from the first part: the pulse, the key, the salt, the
    commitment and its proof. *)
Record VdfWork := MkVdfWork {
  wk_raw_kyn : RawKyn;
  wk_salt : bytes;
  wk_challenge : bytes;
  wk_iterations : Z;
  wk_proof : bytes }.

(** What the environment answers to the first part: the random salt, whether
    the semaphore is open, whether the evaluation panics. *)
Record ComputeIo := MkComputeIo { ci_salt : option bytes; ci_permit : bool; ci_panic : bool }.

Section Jobs.
Context {HUni : UnicodeCase} {HSha : Sha2} {HSig : MlDsa} {HSign : MlDsaSign} {HCod : Codecs} {HJcs : Jcs}
  {HBv : BeaconVerify} {HVdf : VdfEngine} {HProver : VdfProver} {HSto : StorageEngine} {HSerde : Serde}
  {HRea : ReactorJson} {HDj : DaemonJson} {HKeys : IdentityKeys} {HText : KidText} {HDb : DbKeys} {HReveal : RevealText}.
Variables (is_dev_mode : bool) (network_salt : bytes) (provider : BeaconProvider) (DB_PREFIX_LAST_KYN : bytes)
  (kids_dir : bytes) (readable : bytes -> bool).

(** The part of the API state the jobs share. *)
Record MacroState := MkMacroState {
  mc_daemon : Daemon;
  mc_kids : Disk;
  mc_tasks : Tasks }.

Definition set_mc_daemon (x : Daemon) (s : MacroState) : MacroState := MkMacroState x (mc_kids s) (mc_tasks s).
Definition set_mc_kids (x : Disk) (s : MacroState) : MacroState := MkMacroState (mc_daemon s) x (mc_tasks s).
Definition set_mc_tasks (x : Tasks) (s : MacroState) : MacroState := MkMacroState (mc_daemon s) (mc_kids s) x.

(** A part of a job: it changes the state and ends with a value or the error
    the task reports. *)
Definition TM (A : Type) : Type := MacroState -> MacroState * Result TaskError A.

Definition tret {A} (a : A) : TM A := fun s => (s, Ok a).
Definition tbind {A B} (m : TM A) (f : A -> TM B) : TM B := fun s =>
  match m s with
  | (s, Ok a) => f a s
  | (s, Err e) => (s, Err e)
  end.
Definition tlift {A} (r : Result TaskError A) : TM A := fun s => (s, r).
Definition tget {A} (f : MacroState -> Result TaskError A) : TM A := fun s => (s, f s).
Definition tmodify (f : MacroState -> MacroState) : TM unit := fun s => (f s, Ok tt).
Definition tstatus (id : bytes) (status : string) (p : Z) : TM unit :=
  tmodify (fun s => set_mc_tasks (update_task_status id status p (mc_tasks s)) s).
#[local] Instance tm_bind : MBind TM := fun A B f m => tbind m f.

(** A part that fails records its error in the task. *)
Definition run_part {A} (id : bytes) (m : TM A) (s : MacroState) : MacroState * option A :=
  match m s with
  | (s, Ok a) => (s, Some a)
  | (s, Err e) => (set_mc_tasks (update_task_error id e (mc_tasks s)) s, None)
  end.

Definition cached_kyn (s : MacroState) : Result KynProviderError RawKyn :=
  load_cached is_dev_mode provider DB_PREFIX_LAST_KYN (dm_sto (mc_daemon s)).

Definition job_keypair (s : MacroState) : Result TaskError KineticKeypair :=
  map_err (fun _ => TeKeypair) (load_keypair (dm_identity (mc_daemon s))).

Definition evaluate_vdf (io : ComputeIo) (challenge : bytes) (t : Z) : Result TaskError bytes :=
  bail_if (negb (ci_permit io)) TeSemaphore;;
  bail_if (ci_panic io) TePanic;;
  map_err TeVdf (vdf_evaluate challenge t).

(** From the beacon to the proof; [effort] gives the iterations. *)
Definition compute (id fqdn : bytes) (effort : Z) (computing : string) (io : ComputeIo)
  : TM (KineticKeypair * VdfWork) :=
  tstatus id "Fetching Network Beacon" 10;;
  raw_kyn ← tget (fun s => map_err (fun _ => TeBeacon) (cached_kyn s));
  tstatus id "Generating Commitment" 20;;
  keypair ← tget job_keypair;
  salt ← tlift (ok_or (ci_salt io) TeSalt);
  sig_bytes ← tlift (ok_or (hex_decode (rk_signature raw_kyn)) TeBeaconSignature);
  let challenge := commitment_derive network_salt fqdn salt sig_bytes (to_public_bytes keypair) in
  tstatus id computing 30;;
  proof ← tlift (evaluate_vdf io challenge effort);
  tret (keypair, MkVdfWork raw_kyn salt challenge effort proof).

(** [publish_redundant_payload] of the network client. *)
Definition tpublish (fqdn payload : bytes) (net_ok : bool) (err : TaskError) : TM unit := fun s =>
  let '(dm, r) := publish_redundant_payload fqdn payload net_ok (mc_daemon s) in
  (set_mc_daemon dm s, map_err (fun _ => err) r).

(** The commitment, broadcast once the proof exists. *)
Definition broadcast_commitment (id fqdn challenge : bytes) (net_ok : bool) : TM unit :=
  tstatus id "Broadcasting Commitment" 85;;
  commit_bytes ← tlift (ok_or (commitment_to_vec challenge) TeCommitSerialization);
  tpublish fqdn commit_bytes net_ok TeDhtCommit;;
  tstatus id "Maturing commitment (32 s)..." 88.

(** A reveal over [work], signed by [keypair]. *)
Definition unsigned_reveal (fqdn payload : bytes) (keypair : KineticKeypair) (work : VdfWork)
    (prev : option PreviousProof) : Reveal :=
  MkReveal 1 fqdn payload (wk_salt work) (rk_kyn (wk_raw_kyn work)) (rk_signature (wk_raw_kyn work))
    (wk_iterations work) (wk_proof work) (to_public_bytes keypair) [] None prev.

Definition signed_reveal (fqdn payload : bytes) (keypair : KineticKeypair) (work : VdfWork)
    (prev : option PreviousProof) : Reveal :=
  let reveal := unsigned_reveal fqdn payload keypair work prev in
  set_signature reveal (kp_sign keypair (reveal_signable_bytes reveal network_salt)).

(** *** Registration *)

Definition registration_effort (fqdn : bytes) (iters : Z) : Z :=
  Z.max iters (iterations is_dev_mode physics_default fqdn).

(** The identity of the zone, fetched or made. *)
Definition inject_kid (fqdn : bytes) (now : Z) (kid_key : KineticKeypair) (kid_io : KidIo) : TM GeneratedKid := fun s =>
  let current_kyn :=
    match cached_kyn s with Ok kyn => rk_kyn kyn | Err _ => now_local BEACON_GENESIS now end in
  let '(d, r) := get_or_create_kid_for_name network_salt kids_dir readable (dm_identity (mc_daemon s))
                   fqdn true false current_kyn kid_key kid_io (mc_kids s) in
  (set_mc_kids d s, map_err TeIdentity r).

Definition kid_zone (did : bytes) : NrsZone := {[ bs "@" := [EntKID did] ]}.

(** The owned names, then the zone file if it can be written. *)
Definition remember_name (fqdn : bytes) (zone : NrsZone) (zone_io : bool) (s : MacroState) : MacroState :=
  let dm := set_dm_sto (persist_owned fqdn (dm_sto (mc_daemon s))) (mc_daemon s) in
  let dm := match zone_to_string_pretty zone with
            | Some text => if zone_io then set_dm_zones (<[fqdn := text]> (dm_zones dm)) dm else dm
            | None => dm
            end in
  set_mc_daemon dm s.

Definition register_publish (id fqdn : bytes) (keypair : KineticKeypair) (work : VdfWork) (now : Z)
    (kid_key : KineticKeypair) (kid_io : KidIo) (net_ok zone_io : bool) : TM Reveal :=
  tstatus id "Publishing Registration" 90;;
  tstatus id "Injecting Identity (KID)" 92;;
  kid ← inject_kid fqdn now kid_key kid_io;
  let zone := kid_zone (gk_did kid) in
  payload ← tlift (ok_or (zone_to_vec zone) TeSerialization);
  let reveal := signed_reveal fqdn payload keypair work None in
  reveal_bytes ← tlift (ok_or (reveal_to_vec reveal) TeSerialization);
  tpublish fqdn reveal_bytes net_ok TeDhtPublish;;
  tmodify (remember_name fqdn zone zone_io);;
  tstatus id "Complete" 100;;
  tret reveal.

(** *** Renewal *)

Definition renewal_effort (fqdn : bytes) (iters : Z) : Z :=
  Z.max iters (discounted_iters (iterations is_dev_mode physics_default fqdn)).

Definition load_previous (id fqdn : bytes) : TM Reveal :=
  tstatus id "Loading previous reveal" 5;;
  old_bytes ← tget (fun s =>
    match sto_get (dm_sto (mc_daemon s)) (reveal_key fqdn) with Ok (Some b) => Ok b | _ => Err TeNotFound end);
  old_record ← tlift (ok_or (envelope_from_slice old_bytes) TeCorrupted);
  tret (let '(Standard old_reveal) := old_record in old_reveal).

Definition previous_of (old : Reveal) : PreviousProof :=
  MkPreviousProof (rv_salt old) (rv_kyn old) (rv_beacon_signature old) (rv_iterations old) (rv_vdf_proof old)
    (rv_identity_signature old).

Definition renew_publish (id fqdn : bytes) (old : Reveal) (keypair : KineticKeypair) (work : VdfWork) (net_ok : bool)
  : TM Reveal :=
  tstatus id "Publishing Renewal" 90;;
  let new_reveal := signed_reveal fqdn (rv_embedded_nrs old) keypair work (Some (previous_of old)) in
  reveal_bytes ← tlift (ok_or (reveal_to_vec new_reveal) TeSerialization);
  tpublish fqdn reveal_bytes net_ok TeDhtPublish;;
  tmodify (fun s => set_mc_daemon
    (set_dm_sto (sto_put (dm_sto (mc_daemon s)) (reveal_key fqdn) reveal_bytes).1 (mc_daemon s)) s);;
  tstatus id "Complete" 100;;
  tret new_reveal.

(** ** The whole jobs

    [other n] is what the rest of the daemon does to the state while the job
    waits for the [n]-th time. *)

Record RegisterIo := MkRegisterIo {
  ri_compute : ComputeIo;
  ri_commit_ok : bool;
  ri_now : Z;
  ri_kid_key : KineticKeypair;
  ri_kid_io : KidIo;
  ri_publish_ok : bool;
  ri_zone_io : bool }.

Definition wait (other : MacroState -> MacroState) : TM unit := tmodify other.

Definition register_job (id fqdn : bytes) (iters : Z) (io : RegisterIo) (other : nat -> MacroState -> MacroState)
  : TM Reveal :=
  '(keypair, work) ← compute id fqdn (registration_effort fqdn iters) "Computing VDF... (this may take a while)"
                        (ri_compute io);
  wait (other 0%nat);;
  broadcast_commitment id fqdn (wk_challenge work) (ri_commit_ok io);;
  wait (other 1%nat);;
  register_publish id fqdn keypair work (ri_now io) (ri_kid_key io) (ri_kid_io io) (ri_publish_ok io) (ri_zone_io io).

Definition renew_job (id fqdn : bytes) (iters : Z) (io : RegisterIo) (other : nat -> MacroState -> MacroState)
  : TM Reveal :=
  old ← load_previous id fqdn;
  '(keypair, work) ← compute id fqdn (renewal_effort fqdn iters) "Computing Renewal VDF... (this may take a while)"
                        (ri_compute io);
  wait (other 0%nat);;
  broadcast_commitment id fqdn (wk_challenge work) (ri_commit_ok io);;
  wait (other 1%nat);;
  renew_publish id fqdn old keypair work (ri_publish_ok io).

End Jobs.

(** ** Facts about a part of a job *)

Section MacroFacts.
Context {HUni : UnicodeCase} {HSha : Sha2} {HSig : MlDsa} {HSign : MlDsaSign} {HCod : Codecs} {HJcs : Jcs}
  {HBv : BeaconVerify} {HVdf : VdfEngine} {HProver : VdfProver} {HSto : StorageEngine} {HSerde : Serde}
  {HRea : ReactorJson} {HDj : DaemonJson} {HKeys : IdentityKeys} {HText : KidText} {HDb : DbKeys} {HReveal : RevealText}.
Variables (network_salt : bytes) (provider : BeaconProvider) (DB_PREFIX_LAST_KYN : bytes)
  (kids_dir : bytes) (readable : bytes -> bool).
#[local] Existing Instance tm_bind.

Notation register_job := (register_job false network_salt provider DB_PREFIX_LAST_KYN kids_dir readable).
Notation renew_job := (renew_job false network_salt provider DB_PREFIX_LAST_KYN).
Notation register_publish := (register_publish false network_salt provider DB_PREFIX_LAST_KYN kids_dir readable).
Notation compute := (compute false network_salt provider DB_PREFIX_LAST_KYN).

Lemma tbind_ok {A B} (m : TM A) (f : A -> TM B) s s' b :
  (m ≫= f) s = (s', Ok b) <-> exists s1 a, m s = (s1, Ok a) /\ f a s1 = (s', Ok b).
Proof. clear readable kids_dir.
  unfold mbind, tm_bind, tbind. destruct (m s) as [s1 [a|e]]; split; [eauto|naive_solver|done|naive_solver].
Qed.

Lemma tmodify_ok f s s' : tmodify f s = (s', Ok tt) <-> s' = f s.
Proof. clear readable kids_dir. unfold tmodify. split; [by intros [= <-]|by intros ->]. Qed.

Lemma tlift_ok {A} (r : Result TaskError A) s s' a : tlift r s = (s', Ok a) <-> s' = s /\ r = Ok a.
Proof. clear readable kids_dir. unfold tlift. split; [by intros [= <- ->]|by intros [-> ->]]. Qed.

Lemma tget_ok {A} (f : MacroState -> Result TaskError A) s s' a : tget f s = (s', Ok a) <-> s' = s /\ f s = Ok a.
Proof. clear readable kids_dir. unfold tget. split; [intros [= <- H]; done|intros [-> H]; by rewrite H]. Qed.

Lemma tret_ok {A} (a b : A) s s' : tret a s = (s', Ok b) <-> s' = s /\ b = a.
Proof. clear readable kids_dir. unfold tret. split; [by intros [= <- <-]|by intros [-> ->]]. Qed.

(** A status line changes the tasks alone. *)
Lemma tstatus_bind {B} id st p (f : unit -> TM B) s : (tstatus id st p ≫= f) s
  = f tt (set_mc_tasks (update_task_status id st p (mc_tasks s)) s).
Proof. clear readable kids_dir. reflexivity. Qed.

Lemma tpublish_ok fqdn payload net_ok err s s' :
  tpublish fqdn payload net_ok err s = (s', Ok tt) ->
  len payload <= 80000 /\ mc_kids s' = mc_kids s /\ mc_tasks s' = mc_tasks s /\
  mc_daemon s' = net_call (NcPublish fqdn payload) (mc_daemon s).
Proof.
  clear readable kids_dir. unfold tpublish, publish_redundant_payload. destruct (len payload >? 80000) eqn:E; [done|]. zbool.
  destruct net_ok; intros [= <-]. done.
Qed.

(** One step of a part, read off its success. *)
Ltac tstep H := first
  [ rewrite tstatus_bind in H
  | apply tbind_ok in H as (? & ? & [-> ?]%tget_ok & H)
  | apply tbind_ok in H as (? & ? & [-> ?]%tlift_ok & H)
  | apply tbind_ok in H as (? & [] & ->%tmodify_ok & H)
  | apply tret_ok in H as [-> ->] ]; cbv beta zeta in H.

(** What the first part leaves: the proof answers the commitment of the pulse, the
    salt and the key. *)
Record work_done (fqdn : bytes) (effort : Z) (keypair : KineticKeypair) (w : VdfWork) (s : MacroState) : Prop := {
  wd_key : load_keypair (dm_identity (mc_daemon s)) = Ok keypair;
  wd_pulse : cached_kyn false provider DB_PREFIX_LAST_KYN s = Ok (wk_raw_kyn w);
  wd_challenge : exists sig_bytes, hex_decode (rk_signature (wk_raw_kyn w)) = Some sig_bytes /\
    wk_challenge w = commitment_derive network_salt fqdn (wk_salt w) sig_bytes (to_public_bytes keypair);
  wd_iterations : wk_iterations w = effort;
  wd_proof : vdf_evaluate (wk_challenge w) effort = Ok (wk_proof w) }.

Lemma compute_ok id fqdn effort text io s s' keypair w :
  compute id fqdn effort text io s = (s', Ok (keypair, w)) ->
  work_done fqdn effort keypair w s /\ mc_daemon s' = mc_daemon s /\ mc_kids s' = mc_kids s.
Proof.
  clear readable kids_dir. unfold MacroApi.compute. intros E. do 8 tstep E. apply tret_ok in E as [-> [= -> ->]].
  rewrite ?map_err_ok, ?ok_or_ok in *. split; [|done].
  match goal with He : evaluate_vdf _ _ _ = _ |- _ =>
    unfold evaluate_vdf in He; rewrite !bail_if_ok, map_err_ok in He; destruct He as (_ & _ & He) end.
  split; cbn; eauto. match goal with Hk : job_keypair _ = _ |- _ => unfold job_keypair in Hk; by apply map_err_ok in Hk end.
Qed.

Lemma broadcast_ok id fqdn challenge net_ok s s' :
  broadcast_commitment id fqdn challenge net_ok s = (s', Ok tt) ->
  exists b, commitment_to_vec challenge = Some b /\ mc_kids s' = mc_kids s /\
    mc_daemon s' = net_call (NcPublish fqdn b) (mc_daemon s).
Proof.
  clear readable kids_dir. unfold broadcast_commitment. intros E. do 2 tstep E.
  apply tbind_ok in E as (s1 & [] & (_ & Hk & _ & Hd)%tpublish_ok & E). apply tmodify_ok in E as ->.
  rewrite ok_or_ok in *. eexists. split; [eassumption|]. done.
Qed.

(** What [register_publish] does after the identity: the record is sent, then the
    name is remembered; the stored registrations are not touched. *)
Lemma register_publish_ok id fqdn keypair w now kid_key kid_io net_ok zone_io s s' r :
  register_publish id fqdn keypair w now kid_key kid_io net_ok zone_io s = (s', Ok r) ->
  exists payload b zone dm, r = signed_reveal network_salt fqdn payload keypair w None /\
    reveal_to_vec r = Some b /\ dm = net_call (NcPublish fqdn b) (mc_daemon s) /\
    mc_daemon s' = mc_daemon (remember_name fqdn zone zone_io (set_mc_daemon dm s)).
Proof.
  unfold MacroApi.register_publish. intros E. do 2 tstep E.
  apply tbind_ok in E as (s1 & kid & Hk & E). unfold inject_kid in Hk.
  match type of Hk with context [get_or_create_kid_for_name ?a ?b ?c ?d ?e ?f ?g ?h ?i ?j ?k] =>
    destruct (get_or_create_kid_for_name a b c d e f g h i j k) as [disk res] end.
  apply pair_equal_spec in Hk as [<- _]. do 2 tstep E.
  apply tbind_ok in E as (s2 & [] & (_ & _ & _ & Hd)%tpublish_ok & E). do 3 tstep E.
  rewrite ok_or_ok in *. do 4 eexists. split; [reflexivity|]. split; [eassumption|]. split; [reflexivity|].
  unfold remember_name. cbn. by rewrite Hd.
Qed.

Lemma renew_publish_ok id fqdn old keypair w net_ok s s' r :
  renew_publish network_salt id fqdn old keypair w net_ok s = (s', Ok r) ->
  exists b, r = signed_reveal network_salt fqdn (rv_embedded_nrs old) keypair w (Some (previous_of old)) /\
    reveal_to_vec r = Some b /\
    mc_daemon s' = set_dm_sto (sto_put (dm_sto (mc_daemon s)) (reveal_key fqdn) b).1
                     (net_call (NcPublish fqdn b) (mc_daemon s)).
Proof.
  clear readable kids_dir. unfold renew_publish. intros E. do 2 tstep E.
  apply tbind_ok in E as (s2 & [] & (_ & _ & _ & Hd)%tpublish_ok & E). do 3 tstep E.
  rewrite ok_or_ok in *. eexists. split; [reflexivity|]. split; [eassumption|]. cbn. by rewrite Hd.
Qed.

(** ** Whole jobs *)

(** The rest of the daemon publishes, it does not take publications back. *)
Definition only_publishes (other : nat -> MacroState -> MacroState) : Prop :=
  forall n s, dm_calls (mc_daemon s) `prefix_of` dm_calls (mc_daemon (other n s)).

Lemma remembered_calls fqdn zone io s : dm_calls (mc_daemon (remember_name fqdn zone io s)) = dm_calls (mc_daemon s).
Proof. unfold remember_name. destruct (zone_to_string_pretty zone); [destruct io|]; reflexivity. Qed.

(** The commitment goes out before the reveal. *)
Lemma register_job_ok id fqdn iters io other s s' r :
  only_publishes other -> register_job id fqdn iters io other s = (s', Ok r) ->
  exists keypair w payload cb b before between,
    work_done fqdn (registration_effort false fqdn iters) keypair w s /\
    r = signed_reveal network_salt fqdn payload keypair w None /\
    commitment_to_vec (wk_challenge w) = Some cb /\ reveal_to_vec r = Some b /\
    dm_calls (mc_daemon s') = before ++ [NcPublish fqdn cb] ++ between ++ [NcPublish fqdn b].
Proof.
  intros Ho E. unfold MacroApi.register_job in E.
  apply tbind_ok in E as (s1 & [keypair w] & (Hw & _ & _)%compute_ok & E). tstep E.
  apply tbind_ok in E as (s2 & [] & (cb & Hcb & _ & Hd2)%broadcast_ok & E). tstep E.
  apply register_publish_ok in E as (payload & b & zone & dm & -> & Hb & -> & Hd3).
  destruct (Ho 1%nat s2) as [l Hl]. rewrite Hd2 in Hl. cbn in Hl.
  exists keypair, w, payload, cb, b, (dm_calls (mc_daemon (other 0%nat s1))), l. split_and!; try done.
  rewrite Hd3, remembered_calls. cbn. rewrite Hl. by rewrite <- !app_assoc.
Qed.

Lemma load_previous_ok id fqdn s s' old :
  load_previous id fqdn s = (s', Ok old) ->
  exists stored, sto_get (dm_sto (mc_daemon s)) (reveal_key fqdn) = Ok (Some stored) /\
    envelope_from_slice stored = Some (Standard old) /\
    s' = set_mc_tasks (update_task_status id "Loading previous reveal" 5 (mc_tasks s)) s.
Proof.
  clear readable kids_dir. unfold load_previous. rewrite tstatus_bind. intros E. apply tbind_ok in E as (s1 & b & [-> Hb]%tget_ok & E).
  apply tbind_ok in E as (s2 & [old'] & [-> He]%tlift_ok & E). apply tret_ok in E as [-> ->]. apply ok_or_ok in He.
  exists b. split_and!; try done. cbn in Hb |- *. destruct (sto_get _ _) as [[?|]|]; congruence.
Qed.

Lemma load_previous_result id fqdn s :
  (load_previous id fqdn s).2 =
  match sto_get (dm_sto (mc_daemon s)) (reveal_key fqdn) with
  | Ok (Some b) => match envelope_from_slice b with Some (Standard r) => Ok r | None => Err TeCorrupted end
  | _ => Err TeNotFound
  end.
Proof.
  clear readable kids_dir. unfold load_previous. rewrite tstatus_bind. cbv [mbind tm_bind tbind tget tlift tret].
  cbn [mc_daemon set_mc_tasks]. destruct (sto_get _ _) as [[b|]|]; try done.
  by destruct (envelope_from_slice b) as [[r]|].
Qed.

Lemma renew_job_err id fqdn iters io other s e :
  (load_previous id fqdn s).2 = Err e -> (renew_job id fqdn iters io other s).2 = Err e.
Proof.
  clear readable kids_dir. unfold MacroApi.renew_job, mbind at 1, tm_bind, tbind at 1.
  destruct (load_previous id fqdn s) as [s1 [a|e']]; cbn; [done|congruence].
Qed.

Lemma renew_job_ok id fqdn iters io other s s' r :
  renew_job id fqdn iters io other s = (s', Ok r) ->
  exists old stored keypair w b before sto,
    sto_get (dm_sto (mc_daemon s)) (reveal_key fqdn) = Ok (Some stored) /\
    envelope_from_slice stored = Some (Standard old) /\
    work_done fqdn (renewal_effort false fqdn iters) keypair w
      (set_mc_tasks (update_task_status id "Loading previous reveal" 5 (mc_tasks s)) s) /\
    r = signed_reveal network_salt fqdn (rv_embedded_nrs old) keypair w (Some (previous_of old)) /\
    reveal_to_vec r = Some b /\
    dm_calls (mc_daemon s') = before ++ [NcPublish fqdn b] /\
    dm_sto (mc_daemon s') = (sto_put sto (reveal_key fqdn) b).1.
Proof.
  clear readable kids_dir. intros E. unfold MacroApi.renew_job in E. apply tbind_ok in E as (s0 & old & E0 & E).
  apply load_previous_ok in E0 as (stored & Hg & He & ->).
  apply tbind_ok in E as (s1 & [keypair w] & (Hw & _ & _)%compute_ok & E). tstep E.
  apply tbind_ok in E as (s2 & [] & (cb & Hcb & _ & Hd2)%broadcast_ok & E). tstep E.
  apply renew_publish_ok in E as (b & -> & Hb & Hd3).
  exists old, stored, keypair, w, b, (dm_calls (mc_daemon (other 1%nat s2))), (dm_sto (mc_daemon (other 1%nat s2))).
  split_and!; try done; by rewrite Hd3.
Qed.

(** ** Registration *)

(** C17: the registration job meets every condition of the verifier that its own
    work decides.  A job that ends well has sent the commitment of its reveal
    before the reveal, and [verify_reveal] accepts the reveal exactly where the
    network is not halted, the reveal is well formed, its pulse is genuine and
    its commitment is stored and has matured: the signature, the effort, the
    proof and the binding of the commitment never fail.  This is about the
    verifier alone: in the form the job sends it no store parses the reveal. *)
Theorem registration_verifies {HSigLaws : MlDsaSignLaws} {HComplete : VdfComplete} id fqdn iters io other s s' r :
  only_publishes other -> register_job id fqdn iters io other s = (s', Ok r) ->
  exists sig_bytes cb b before between,
    hex_decode (rv_beacon_signature r) = Some sig_bytes /\
    commitment_to_vec (reveal_challenge network_salt r sig_bytes) = Some cb /\ reveal_to_vec r = Some b /\
    dm_calls (mc_daemon s') = before ++ [NcPublish fqdn cb] ++ between ++ [NcPublish fqdn b] /\
    rv_name r = fqdn /\ rv_iterations r = Z.max iters (full_effort r) /\
    forall action storage now,
      verify_reveal false network_salt action r storage now = Ok tt <->
      is_network_halted action = false /\ reveal_validate r = Ok tt /\
      verify_beacon_signature (rv_kyn r) (rv_beacon_signature r) false = true /\
      exists commit_kyn,
        get_u64_from_db storage (commit_key_of (reveal_challenge network_salt r sig_bytes)) = Some commit_kyn /\
        PHYSICS_MINIMUM_COMMIT_AGE_KYNS <= sat_sub now commit_kyn.
Proof.
  intros Ho E. destruct (register_job_ok _ _ _ _ _ _ _ _ Ho E)
    as (kp & w & payload & cb & b & before & between & [_ _ (sb & Hx & Hc) Hi Hp] & -> & Hcb & Hb & Hd).
  set (r := signed_reveal network_salt fqdn payload kp w None) in *.
  assert (Hch : reveal_challenge network_salt r sb = wk_challenge w) by done.
  exists sb, cb, b, before, between. rewrite Hch. split_and!; try done.
  intros action storage now. rewrite verify_reveal_spec. pose proof (full_effort_bounds r) as Hf.
  change (full_effort r) with (iterations false physics_default fqdn) in Hf.
  assert (He : 1 <= registration_effort false fqdn iters) by (unfold registration_effort; lia). split.
  - intros [Hh Hv _ Hpulse (sb' & k & Hx' & Hk & Hage & _) _].
    assert (Some sb = Some sb') as [= <-] by (rewrite <- Hx; exact Hx'). rewrite Hch in Hk. eauto 10.
  - intros (Hh & Hv & Hpulse & k & Hk & Hage). split; try done.
    + apply reveal_verify_signature_ok. split; [apply verify_own_signature|done].
    + exists sb, k. rewrite Hch. split_and!; [done|done|done|].
      change (vdf_verify (wk_challenge w) (wk_proof w) (wk_iterations w) = Ok true).
      rewrite Hi. by apply vdf_complete.
    + intros n Hn. unfold compute_required_iterations in Hn. rewrite !bind_unit_ok in Hn. destruct Hn as (_ & _ & Hn).
      apply Ok_inj in Hn. subst n. change (rv_iterations r) with (wk_iterations w). rewrite Hi.
      exact (Z.le_max_r iters (iterations false physics_default fqdn)).
Qed.

Lemma inject_kid_ok fqdn now kid_key kid_io s s' g :
  normalize_name fqdn = fqdn -> extract_apex_name fqdn = fqdn ->
  inject_kid false network_salt provider DB_PREFIX_LAST_KYN kids_dir readable fqdn now kid_key kid_io s = (s', Ok g) ->
  is_Some (mc_kids s' !! did_path (kid_paths kids_dir fqdn)).
Proof.
  intros Hn Ha. unfold inject_kid, get_or_create_kid_for_name. cbv zeta. rewrite Hn, Ha.
  rewrite bool_decide_eq_true_2 by done. cbn [negb andb].
  destruct (path_exists _ _ && _); [by intros [= _ ?]|]. intros H.
  match type of H with context [create_kid ?a ?b ?c ?d ?e ?f ?g ?h] => destruct (create_kid a b c d e f g h) as [d' r] eqn:E end.
  apply pair_equal_spec in H as [<- H%map_err_ok]. subst r. unfold create_kid in E.
  destruct (generate_kid _ _) as [[doc json]|]; [|done].
  destruct (persist_kid _ _ _ _ _) as [d1 [[]|]] eqn:Ep; [|done]. apply persist_kid_ok in Ep as (_ & _ & ->).
  apply pair_equal_spec in E as [<- _]. cbn. rewrite lookup_insert_eq. by eexists.
Qed.

(** A registration whose publication fails cannot be tried again.  The identity
    is written before the record is sent: while its document stays on the disk,
    every later registration of the name fails, after its proof was computed. *)
Theorem failed_publication_final id fqdn keypair w now kid_key kid_io net_ok zone_io s s' :
  normalize_name fqdn = fqdn -> extract_apex_name fqdn = fqdn ->
  register_publish id fqdn keypair w now kid_key kid_io net_ok zone_io s = (s', Err TeDhtPublish) ->
  forall id' keypair' w' now' kid_key' kid_io' net_ok' zone_io' later,
    mc_kids s' ⊆ mc_kids later ->
    (register_publish id' fqdn keypair' w' now' kid_key' kid_io' net_ok' zone_io' later).2
    = Err (TeIdentity (IeKidAlreadyExists fqdn)).
Proof.
  intros Hn Ha E id' keypair' w' now' kid_key' kid_io' net_ok' zone_io' later Hsub.
  assert (Hd : is_Some (mc_kids later !! did_path (kid_paths kids_dir fqdn))).
  { unfold MacroApi.register_publish in E. rewrite !tstatus_bind in E. unfold mbind at 1, tm_bind, tbind at 1 in E.
    destruct (inject_kid _ _ _ _ _ _ _ _ _ _ _) as [s1 [g|e]] eqn:Ek.
    2:{ unfold inject_kid in Ek. destruct (get_or_create_kid_for_name _ _ _ _ _ _ _ _ _ _ _) as [d [|]]; [done|].
        injection Ek as _ <-. by injection E. }
    apply inject_kid_ok in Ek as [doc Hdoc]; [|done|done]. exists doc. eapply lookup_weaken; [|exact Hsub].
    cbv zeta in E. unfold mbind, tm_bind, tbind, tlift in E.
    destruct (zone_to_vec _) as [payload|]; [|done]. cbn [ok_or] in E. destruct (reveal_to_vec _) as [b|]; [|done].
    cbn [ok_or] in E. unfold tpublish, publish_redundant_payload in E. destruct (len b >? 80000).
    { by apply pair_equal_spec in E as [<- _]. }
    destruct net_ok; [done|]. by apply pair_equal_spec in E as [<- _]. }
  unfold MacroApi.register_publish. rewrite !tstatus_bind. unfold mbind at 1, tm_bind, tbind at 1.
  unfold inject_kid, get_or_create_kid_for_name. cbv zeta. rewrite Hn, Ha, bool_decide_eq_true_2 by done. cbn [negb andb].
  unfold path_exists. cbn [mc_kids set_mc_tasks]. by rewrite bool_decide_eq_true_2.
Qed.

(** ** The payload *)

Section Payload.
Context {HPeer : PeerIds} {HEd : Ed25519} {HJson : StoredJson} {HLru : LruCache} {HMem : KadMemory}.
Context {HRevealLaws : RevealTextLaws}.

(** A reveal by itself, without the tag of [NameEnvelope]. *)
Lemma bare_reveal_refused ns action now (store : KineticRecordStore) key r b skip :
  reveal_to_vec r = Some b ->
  put_record_internal false ns action now store (MkKadRecord key b) skip
  = (store, Err (if len b >? LIMITS_STORAGE_MAX_VALUE_BYTES then PayloadTooLarge else SchemaValidationError)).
Proof.
  intros Hb. unfold put_record_internal. cbn [kr_key kr_value]. destruct (_ >? _); [done|].
  destruct (reveal_fields _ _ Hb) as (v & Hv & Hp & Hh & Ht). rewrite Hv. unfold dispatch, field. rewrite Hp, Hh.
  cbn [negb andb orb]. destruct (envelope_from_value v) as [e|] eqn:Ee; [|done].
  apply envelope_value_tag in Ee. congruence.
Qed.

(** C33: what the jobs send is not a record.  The payload of every registration and
    of every renewal that ends well is the reveal without the tag the record type
    is read by: every store refuses it under every key, whether or not it was
    verified before, and stays as it was. *)
Theorem macro_payload_refused id fqdn iters io other s s' r :
  only_publishes other ->
  register_job id fqdn iters io other s = (s', Ok r) \/ renew_job id fqdn iters io other s = (s', Ok r) ->
  exists b before, dm_calls (mc_daemon s') = before ++ [NcPublish fqdn b] /\ reveal_to_vec r = Some b /\
    forall action now (store : KineticRecordStore) key skip,
      put_record_internal false network_salt action now store (MkKadRecord key b) skip
      = (store, Err (if len b >? LIMITS_STORAGE_MAX_VALUE_BYTES then PayloadTooLarge else SchemaValidationError)).
Proof.
  intros Ho [E|E].
  - destruct (register_job_ok _ _ _ _ _ _ _ _ Ho E) as (kp & w & pl & cb & b & before & between & _ & -> & _ & Hb & Hd).
    exists b, (before ++ [NcPublish fqdn cb] ++ between). split; [by rewrite Hd, <- !app_assoc|].
    split; [done|]. intros. by eapply bare_reveal_refused.
  - destruct (renew_job_ok _ _ _ _ _ _ _ _ E) as (old & st & kp & w & b & before & sto & _ & _ & _ & -> & Hb & Hd & _).
    exists b, before. split; [done|]. split; [done|]. intros. by eapply bare_reveal_refused.
Qed.

End Payload.

(** ** Renewal *)

(** No renewal verifies.  The previous proof takes over the signature of the
    old reveal, which covers the reveal; the verifier expects one over the proof.
    When the renewed registration is under the owner's own key and verifies, its
    successor never does, and no node admits it. *)
Theorem renewal_never_verifies {HBound : MlDsaBound} id fqdn iters io other s s' r :
  renew_job id fqdn iters io other s = (s', Ok r) ->
  exists stored old, sto_get (dm_sto (mc_daemon s)) (reveal_key fqdn) = Ok (Some stored) /\
    envelope_from_slice stored = Some (Standard old) /\
    (rv_authorization old = None -> rv_pubkey old = rv_pubkey r ->
     reveal_verify_signature old network_salt = Ok tt ->
     reveal_verify_signature r network_salt = Err VerInvalidSignature /\
     forall action storage now, verify_reveal false network_salt action r storage now <> Ok tt).
Proof.
  clear readable kids_dir. intros E.
  destruct (renew_job_ok _ _ _ _ _ _ _ _ E) as (old & st & kp & w & b & before & sto & Hg & He & _ & -> & _).
  exists st, old. split; [done|]. split; [done|]. intros Ha Hk Hv. apply reveal_verify_signature_ok in Hv as [Hv _].
  rewrite Ha, Hk in Hv. set (r := signed_reveal _ _ _ _ _ _) in *.
  assert (Hn : key_verifies (rv_pubkey r) (previous_proof_signable_bytes (previous_of old) network_salt)
                 (rv_identity_signature old) = false).
  { destruct (key_verifies _ _ _) eqn:Ek; [|done]. apply key_verifies_true in Ek.
    pose proof (message_bound _ _ _ _ Hv Ek) as Em.
    by apply (signable_bytes_kind (SignReveal old) (SignPreviousProof (previous_of old))) in Em. }
  assert (Hr : reveal_verify_signature r network_salt = Err VerInvalidSignature).
  { unfold reveal_verify_signature. cbn [rv_authorization r signed_reveal set_signature unsigned_reveal rv_previous_proof].
    change (pp_identity_signature (previous_of old)) with (rv_identity_signature old). rewrite Hn. cbn [negb bail_if].
    by destruct (key_verifies _ (reveal_signable_bytes r _) _). }
  split; [done|]. intros action storage now Hok. apply verify_reveal_spec in Hok as []. congruence.
Qed.

(** *** The discounted effort *)

(** Rounding to a double is off by at most one unit in the last place. *)
Lemma f64_round_bounds m e :
  2 ^ 53 <= m -> let s := Z.log2 m - 52 in
  exists q, f64_round m e = (q, e + s) /\ m / 2 ^ s <= q /\ q * 2 ^ s <= 2 * m.
Proof.
  clear readable kids_dir. intros Hm s. unfold f64_round. assert (Hl : 53 <= Z.log2 m) by (apply Z.log2_le_pow2; lia). fold s.
  destruct (s <=? 0) eqn:E; zbool; [lia|].
  rewrite Z.shiftr_div_pow2, Z.shiftl_mul_pow2, Z.shiftl_1_l by lia.
  eexists. split; [reflexivity|].
  assert (Hp : 0 < 2 ^ s) by (apply Z.pow_pos_nonneg; lia).
  assert (Hs : 2 ^ s <= m).
  { transitivity (2 ^ Z.log2 m); [apply Z.pow_le_mono_r; lia|apply Z.log2_spec; lia]. }
  pose proof (Z.mul_div_le m (2 ^ s) Hp). destruct (_ || _); split; lia.
Qed.

Lemma f64_of_small x : 0 < x < 2 ^ 53 -> f64_of_u64 x = (x, 0).
Proof.
  clear readable kids_dir. intros Hx. unfold f64_of_u64, f64_round. destruct (Z.log2 x - 52 <=? 0) eqn:E; [done|]. zbool.
  assert (Z.log2 x < 53) by (apply Z.log2_lt_pow2; lia). lia.
Qed.

(** The literal is above the fifth, so the product does not fall below it. *)
Lemma discounted_iters_bounds base :
  2 ^ 20 <= base < 2 ^ 51 -> base / 5 <= discounted_iters base < base / 2.
Proof.
  clear readable kids_dir. intros Hb. unfold discounted_iters, f64_mul, F64_ONE_FIFTH. rewrite f64_of_small by lia. cbn [fst snd].
  set (m := base * 3602879701896397). assert (Hm : 2 ^ 53 <= m < 2 ^ 103) by (unfold m; lia).
  destruct (f64_round_bounds m (0 + -54)) as (q & -> & Hlo & Hhi); [lia|]. cbv zeta in *.
  set (s := Z.log2 m - 52) in *.
  assert (Hs : 0 < s < 54).
  { assert (53 <= Z.log2 m) by (apply Z.log2_le_pow2; lia).
    assert (Z.log2 m < 103) by (apply Z.log2_lt_pow2; lia). lia. }
  unfold f64_to_u64. cbn [fst snd].
  replace (0 + -54 + s) with (- (54 - s)) by lia. rewrite Z.shiftl_opp_r, Z.shiftr_div_pow2 by lia.
  assert (Hd : m / 2 ^ s / 2 ^ (54 - s) = m / 2 ^ 54).
  { rewrite Z.div_div by (try apply Z.pow_pos_nonneg; try apply Z.pow_nonzero; lia).
    f_equal. rewrite <- Z.pow_add_r by lia. f_equal. lia. }
  set (t := 54 - s) in *. assert (Hp : 0 < 2 ^ s) by (apply Z.pow_pos_nonneg; lia).
  assert (Ht : 0 < 2 ^ t) by (apply Z.pow_pos_nonneg; lia).
  assert (Hst : 2 ^ s * 2 ^ t = 2 ^ 54) by (rewrite <- Z.pow_add_r by lia; f_equal; lia).
  assert (Hl : m / 2 ^ 54 <= q / 2 ^ t) by (rewrite <- Hd; by apply Z.div_le_mono).
  assert (Hh : q / 2 ^ t <= 2 * m / 2 ^ 54).
  { rewrite <- Hst, <- Z.div_div by lia. apply Z.div_le_mono; [done|]. apply Z.div_le_lower_bound; lia. }
  assert (base / 5 <= m / 2 ^ 54 /\ 2 * m / 2 ^ 54 < base / 2).
  { unfold m. clear -Hb. change (2 ^ 54) with 18014398509481984.
    split; [apply Z.div_le_lower_bound|apply Z.div_lt_upper_bound]; dlia. }
  assert (base / 2 < 2 ^ 51) by (clear -Hb; dlia). unfold u64_max. lia.
Qed.

(** The effort of a renewal.  For a renewal within the user's limit the job
    computes enough exactly when the discount is earned and the name has neither
    of the lengths two to six, for which half of the effort is asked and at most
    forty percent is computed; a renewal that has not earned the discount always
    falls short. *)
Theorem renewal_effort_sufficient_iff action r prev now required iters :
  compute_required_iterations false network_salt action r now = Ok required ->
  rv_previous_proof r = Some prev -> iters <= MAX_USER_ITERATIONS ->
  (required <= renewal_effort false (rv_name r) iters <->
   renewal_earned network_salt action r prev now /\ ~ 2 <= discount_length r <= 6).
Proof.
  clear readable kids_dir. intros H Hp Hi. unfold compute_required_iterations in H. rewrite !bind_unit_ok in H. destruct H as (_ & _ & H).
  apply Ok_inj in H. rewrite Hp in H. subst required.
  change (iterations false physics_default (rv_name r)) with (full_effort r).
  unfold renewal_effort. change (iterations false physics_default (rv_name r)) with (full_effort r).
  pose proof (full_effort_bounds r) as Hb. unfold MAX_USER_ITERATIONS in Hi.
  destruct (discounted_iters_bounds (full_effort r)) as [Hd1 Hd2]; [lia|].
  destruct (discounted_iterations_cases network_salt action r prev now) as [[He ->]|[He ->]].
  2:{ split; [|by intros [? _]]. intros Hle. dlia. }
  assert (Hn : loyalty_discount (full_effort r) (discount_length r) <= Z.max iters (discounted_iters (full_effort r)) <->
    ~ 2 <= discount_length r <= 6).
  { revert Hb Hd1 Hd2. generalize (full_effort r) (discount_length r). intros base l Hb Hd1 Hd2.
    generalize dependent (discounted_iters base). intros d Hd1 Hd2. clear He.
    unfold loyalty_discount, wmul64. change PHYSICS_VDF_DISCOUNT_PERCENTAGE with 15.
    change PHYSICS_VDF_DISCOUNT_MIN_ITERATIONS with 1000. rewrite (Z.mod_small (base * 15)) by lia.
    destruct (l =? 1) eqn:E1; zbool; [dlia|]. destruct ((2 <=? l) && _) eqn:E2; zbool; [dlia|].
    apply andb_false_iff in E2. destruct ((7 <=? l) && _) eqn:E3; zbool; dlia. }
  change PHYSICS_VDF_DISCOUNT_MIN_ITERATIONS with 1000. split.
  - intros Hle. split; [done|]. apply Hn. lia.
  - intros [_ Hl]. apply Hn in Hl. dlia.
Qed.


(** ** What the workflow leaves for the registration API *)

Section Leftovers.
Context {HC : StorageContract HSto} {HF : StorageFailure HSto} {HRevealLaws : RevealTextLaws}.

(** The stored registrations are not touched by [remember_name]. *)
Lemma remembered_registration fqdn zone io s key :
  sto_inv (dm_sto (mc_daemon s)) -> DB_PREFIX_OWNED_NAMES <> key ->
  let d := dm_sto (mc_daemon (remember_name fqdn zone io s)) in
  sto_inv d /\ btree_view (sto_tree d) !! key = btree_view (sto_tree (dm_sto (mc_daemon s))) !! key.
Proof.
  intros Hi Hk. cbv zeta.
  assert (E : dm_sto (mc_daemon (remember_name fqdn zone io s)) = persist_owned fqdn (dm_sto (mc_daemon s)))
    by (unfold remember_name; destruct (zone_to_string_pretty zone); [destruct io|]; reflexivity).
  rewrite E. clear E. unfold persist_owned. destruct (bool_decide _); [done|]. destruct (names_to_vec _) as [b|]; [|done].
  destruct (sto_put _ _ _) as [d [[]|e]] eqn:Ep; cbn [fst].
  - apply sto_put_ok in Ep as [Hi' ->]; [|done]. by rewrite lookup_insert_ne.
  - apply sto_put_fail in Ep as [Hi' [->| ->]]; [done| |done]. by rewrite lookup_insert_ne.
Qed.

(** A name registered by the job cannot be managed by the daemon that
    registered it.  The job stores the name and its zone, but not the record: the
    stored registration the handlers read is still missing, so a publication of
    the zone fails and a renewal ends at its first step. *)
Theorem registered_name_unmanageable id fqdn keypair w now kid_key kid_io net_ok zone_io s s' r :
  sto_inv (dm_sto (mc_daemon s)) -> DB_PREFIX_OWNED_NAMES <> reveal_key fqdn ->
  btree_view (sto_tree (dm_sto (mc_daemon s))) !! reveal_key fqdn = None ->
  register_publish id fqdn keypair w now kid_key kid_io net_ok zone_io s = (s', Ok r) ->
  (forall role name io net_ok', normalize_name name = fqdn -> exists e,
     handle_publish_zone network_salt role name io net_ok' (mc_daemon s') = (mc_daemon s', Err e)) /\
  (forall id' iters io other, (renew_job id' fqdn iters io other s').2 = Err TeNotFound).
Proof.
  intros Hi Hk Hn E. apply register_publish_ok in E as (payload & b & zone & dm & _ & _ & -> & Hd).
  destruct (remembered_registration fqdn zone zone_io
    (set_mc_daemon (net_call (NcPublish fqdn b) (mc_daemon s)) s) (reveal_key fqdn)) as [Hi' Hv]; [done|done|].
  rewrite <- Hd in Hi', Hv. assert (Hv' : btree_view (sto_tree (dm_sto (mc_daemon s'))) !! reveal_key fqdn = None)
    by (rewrite Hv; exact Hn). split.
  - intros role name io net_ok' Hname. unfold handle_publish_zone. cbv zeta. rewrite Hname.
    destruct (_ ;; _) as [[f rec]|e] eqn:E; [exfalso|by exists e].
    rewrite bail_if_ok, bind_unit_ok in E. destruct E as (_ & _ & E).
    apply bind_ok in E as (content & _ & E). apply bind_ok in E as (z & _ & E). apply bind_ok in E as ([reg] & Hr & _).
    unfold load_registration in Hr. apply bind_ok in Hr as (st & Hg%map_err_ok & Hr).
    apply bind_ok in Hr as (stored & ->%ok_or_ok & _). apply sto_get_ok in Hg; [|done]. congruence.
  - intros id' iters io other. apply renew_job_err. rewrite load_previous_result.
    destruct (sto_get (dm_sto (mc_daemon s')) _) as [[st|]|e] eqn:Eg; [|done|done]. apply sto_get_ok in Eg; [congruence|done].
Qed.

(** A name is renewed once.  The renewal replaces the stored registration by a
    reveal that is not a record: when that write is acknowledged the next renewal
    ends at its first step, and the zone cannot be published any more. *)
Theorem renewed_registration_lost id fqdn old keypair w net_ok s s' r :
  sto_inv (dm_sto (mc_daemon s)) ->
  renew_publish network_salt id fqdn old keypair w net_ok s = (s', Ok r) ->
  (forall b, reveal_to_vec r = Some b -> (sto_put (dm_sto (mc_daemon s)) (reveal_key fqdn) b).2 = Ok tt) ->
  (forall record, load_registration fqdn (dm_sto (mc_daemon s')) <> Ok record) /\
  (forall id' iters io other, exists e, (renew_job id' fqdn iters io other s').2 = Err e).
Proof.
  intros Hi E Hack. apply renew_publish_ok in E as (b & -> & Hb & Hd). specialize (Hack b Hb).
  destruct (sto_put _ _ _) as [d res] eqn:Ep. cbn in Hack, Hd. subst res. apply sto_put_ok in Ep as [Hi' Hv]; [|done].
  assert (Hno : envelope_from_slice b = None).
  { destruct (envelope_from_slice b) as [e|] eqn:Ee; [|done]. destruct (envelope_slice_tag _ _ Ee) as (v & Hv1 & Hv2).
    destruct (reveal_fields _ _ Hb) as (v' & Hv1' & _ & _ & Hv2'). congruence. }
  assert (Hget : forall o, sto_get (dm_sto (mc_daemon s')) (reveal_key fqdn) = Ok o -> o = Some b).
  { intros o Hg. rewrite Hd in Hg. cbn [dm_sto set_dm_sto] in Hg. apply sto_get_ok in Hg; [|done]. by rewrite Hv, lookup_insert_eq in Hg. }
  split.
  - intros record Hr. unfold load_registration in Hr. apply bind_ok in Hr as (st & Hg%map_err_ok & Hr).
    apply Hget in Hg as ->. cbn in Hr. by rewrite Hno in Hr.
  - intros id' iters io other.
    destruct (sto_get (dm_sto (mc_daemon s')) (reveal_key fqdn)) as [[st|]|e] eqn:Eg;
      [|exists TeNotFound; by rewrite (renew_job_err _ _ _ _ _ _ TeNotFound) by (rewrite load_previous_result, Eg; done)..]. specialize (Hget _ eq_refl) as [= ->].
    exists TeCorrupted. apply renew_job_err. by rewrite load_previous_result, Eg, Hno.
Qed.

End Leftovers.

End MacroFacts.

(** ** The map of tasks *)

Section TaskFacts.
Context {HUni : UnicodeCase}.

(** What happens to the map: requests, and the lines of the jobs. *)
Inductive TaskOp :=
  | ToRegister (role : Role) (name : bytes) (iterations : option Z) (task_id : bytes)
  | ToRenew (role : Role) (name : bytes) (iterations : option Z) (task_id : bytes)
  | ToStatus (id : bytes) (status : string) (p : Z)
  | ToError (id : bytes) (err : TaskError).

Definition task_step (op : TaskOp) (tasks : Tasks) : Tasks :=
  match op with
  | ToRegister role name its id => (handle_macro_register_name role name its id tasks).1
  | ToRenew role name its id => (handle_macro_renew_name role name its id tasks).1
  | ToStatus id status p => update_task_status id status p tasks
  | ToError id err => update_task_error id err tasks
  end.

Definition tasks_after (ops : list TaskOp) : Tasks := fold_left (fun t op => task_step op t) ops ∅.

Lemma update_size (f : VdfTaskStatus -> VdfTaskStatus) (id : bytes) (tasks : Tasks) :
  size (match tasks !! id with Some t => <[id := f t]> tasks | None => tasks end) = size tasks.
Proof. destruct (tasks !! id) as [t|] eqn:E; [|done]. rewrite map_size_insert. by rewrite E. Qed.

Lemma task_step_size op tasks : (size tasks <= 50)%nat -> (size (task_step op tasks) <= 50)%nat.
Proof.
  intros Hs. assert (Hins : forall id t, (size (active_tasks tasks) < 50)%nat ->
    (size (<[id := t]> (active_tasks tasks)) <= 50)%nat).
  { intros id t Hlt. rewrite map_size_insert. destruct (_ !! id); cbn; lia. }
  assert (Hact : (size (active_tasks tasks) <= 50)%nat).
  { etransitivity; [|exact Hs]. apply map_subseteq_size, map_filter_subseteq. }
  destruct op; cbn [task_step].
  - unfold handle_macro_register_name. destruct (check_request _ _ _); [|done].
    destruct (1 <=? size _)%nat; [done|]. destruct (50 <=? size _)%nat eqn:E; [done|].
    apply Nat.leb_gt in E. by apply Hins.
  - unfold handle_macro_renew_name. destruct (check_request _ _ _); [|done].
    destruct (50 <=? size _)%nat eqn:E; [done|]. apply Nat.leb_gt in E. by apply Hins.
  - unfold update_task_status. by rewrite (update_size (fun t => MkVdfTaskStatus _ _ _ _)).
  - unfold update_task_error. by rewrite (update_size (fun t => MkVdfTaskStatus _ _ _ _)).
Qed.

Lemma tasks_after_size ops : (size (tasks_after ops) <= 50)%nat.
Proof.
  unfold tasks_after. assert (H : (size (∅ : Tasks) <= 50)%nat) by (rewrite map_size_empty; lia). revert H. generalize (∅ : Tasks).
  induction ops as [|op ops IH]; intros t Ht; [done|]. apply IH. by apply task_step_size.
Qed.

(** C36: the task map.  Whatever the requests and the progress of the jobs, it never
    holds more than fifty tasks; a registration is accepted exactly when the request is
    valid and no task of either kind is active, is then the only task of the map,
    and the limit of fifty never refuses one; a renewal is accepted beside any
    number of active tasks up to that limit. *)
Theorem task_map_spec ops role name its task_id :
  let tasks := tasks_after ops in
  (size tasks <= 50)%nat /\
  (forall tasks' fqdn n, handle_macro_register_name role name its task_id tasks = (tasks', Ok (task_id, fqdn, n)) <->
     check_request role name its = Ok fqdn /\ n = default DEFAULT_ITERATIONS its /\ active_tasks tasks = ∅ /\
     tasks' = {[task_id := MkVdfTaskStatus "Initializing" n 0 None]}) /\
  ((handle_macro_register_name role name its task_id tasks).2 <> Err MaTooManyTasks) /\
  (forall fqdn n, (handle_macro_renew_name role name its task_id tasks).2 = Ok (task_id, fqdn, n) <->
     check_request role name its = Ok fqdn /\ n = default DEFAULT_ITERATIONS its /\
     (size (active_tasks tasks) < 50)%nat).
Proof.
  cbv zeta. split_and!.
  - apply tasks_after_size.
  - intros tasks' fqdn n. unfold handle_macro_register_name. destruct (check_request _ _ _) as [f|e]; [|naive_solver].
    destruct (1 <=? size _)%nat eqn:E1.
    { apply Nat.leb_le in E1. split; [done|]. intros (_ & _ & He & _). rewrite He, map_size_empty in E1. lia. }
    apply Nat.leb_gt, Nat.lt_1_r, map_size_empty_iff in E1. rewrite E1, map_size_empty. cbn. split.
    + intros [= <- <- <-]. done.
    + intros ([= ->] & -> & _ & ->). done.
  - unfold handle_macro_register_name. destruct (check_request _ _ _) as [f|e] eqn:Ec.
    + destruct (1 <=? size _)%nat eqn:E1; [done|]. apply Nat.leb_gt in E1.
      destruct (50 <=? size _)%nat eqn:E2; [|done]. apply Nat.leb_le in E2. lia.
    + cbn. intros [= ->]. unfold check_request in Ec. 
      destruct (negb _); [done|]. cbn in Ec. destruct (is_valid_apex_name _); [|done]. cbn in Ec.
      by destruct (_ >? _).
  - intros fqdn n. unfold handle_macro_renew_name. destruct (check_request _ _ _) as [f|e]; [|naive_solver].
    destruct (50 <=? size _)%nat eqn:E.
    + apply Nat.leb_le in E. split; [done|]. intros (_ & _ & ?). lia.
    + apply Nat.leb_gt in E. cbn. naive_solver.
Qed.

End TaskFacts.

(** ** A registration and a renewal *)

Module ToyMacro.
(** Stored, a record is [\[1\]]; sent, a reveal is [\[5\]]; a JSON value is
    whether it has the tag. *)
Definition fields (tagged : bool) (f : bytes) : bool :=
  bool_decide (f = bs "vdf_proof") || (tagged && bool_decide (f = bs "record_type")).
Definition serde_of (owned : Reveal) : Serde := {|
  Json := bool; json_has := fields; commitment_from_value _ := None;
  json_from_slice b := if bool_decide (b = [1]) then Some true else if bool_decide (b = [5]) then Some false else None;
  envelope_from_value v := if v : bool then Some (Standard owned) else None;
  heartbeat_from_value _ := None; auth_kid_from_value _ := None; auth_manifest_from_value _ := None;
  host_route_from_value _ := None;
  envelope_from_slice b := if bool_decide (b = [1]) then Some (Standard owned) else None;
  envelope_to_vec e := Some [1] |}.
Definition reactor_of (owned : Reveal) : @ReactorJson (serde_of owned) := {|
  reveal_from_value _ := None; raw_kyn_from_slice _ := Some (MkRawKyn 100 [] (replicate 192 97) false false);
  action_from_slice _ := None |}.
Definition json_of (owned : Reveal) : @DaemonJson (serde_of owned) := {|
  names_from_slice b := Some (map (fun c => [c]) b); names_to_vec l := Some (concat l);
  zone_to_vec _ := Some [3]; zone_to_string_pretty _ := Some [3]; zone_from_str _ := Some ∅;
  heartbeat_to_vec hb := Some (hb_name hb); heartbeat_from_slice _ := None;
  commitment_to_vec h := Some h; reserved_dummy _ := (false : @Json (serde_of owned)) |}.
Definition serde : Serde := serde_of ToyApi.record.
Definition reactor : @ReactorJson serde := reactor_of ToyApi.record.
Definition json : @DaemonJson serde := json_of ToyApi.record.
Definition text : @RevealText serde := fun _ => Some [5].
Definition documents : KidText := {|
  document_to_string _ := Some [8]; document_from_str _ := None;
  manifest_to_string _ := None; manifest_from_str _ := None |}.

Lemma reveal_text_laws : @RevealTextLaws serde text.
Proof.
  split.
  - intros r b [= <-]. exists false. by vm_compute.
  - by intros [] e H.
  - intros b e H. unfold envelope_from_slice, serde, serde_of in H. case_bool_decide; [subst b|done]. exists true. by vm_compute.
Qed.

(** Keys and signatures of the right lengths, for the verifier that takes all. *)
Definition sign : MlDsaSign := {|
  KineticKeypair := bytes; kp_sign _ _ := replicate 3309 2; to_public_bytes _ := replicate 1952 1 |}.
Lemma sign_laws : @MlDsaSignLaws ToyStore.yes_mldsa sign.
Proof. by split. Qed.
Definition keys : @IdentityKeys sign := @Build_IdentityKeys sign (fun s => s) (fun s => Some s) (fun s => s).

Definition prover : VdfProver := fun _ _ => Ok [1].
Lemma complete : @VdfComplete ToyStore.yes_vdf prover.
Proof. by intros c t p _ _. Qed.

Definition io : RegisterIo (HSign := sign) :=
  MkRegisterIo (HSign := sign) (MkComputeIo (Some (toy_salt 3)) true false) true 1000 ([1] : @KineticKeypair sign)
    ToyKid.both true true.
Definition quiet {A} (n : nat) (s : A) : A := s.
Definition wasm : StorageEngine := wasm_engine true.
Definition provider : BeaconProvider := MkProvider true [] [].

Section State.
Context {HSign : MlDsaSign}.
Variable key : KineticKeypair.
(** A node with a pulse, and, when it owns the name, its registration. *)
Definition state (owner : bytes) (registered : bool) : @MacroState HSign wasm :=
  let d := (@sto_put wasm wasm_new (bs "last") [0]).1 in
  MkMacroState
    (MkDaemon (if registered then (@sto_put wasm d (bs "reveal:alexander.kin") [1]).1 else d) ∅ ∅ (Some owner) key [])
    ∅ ∅.
End State.

#[local] Existing Instances ascii_only ToyStore.short_sha2 ToyStore.yes_mldsa sign toy_beacon_codecs toy_jcs
  ToyStore.yes_beacon ToyStore.yes_vdf prover wasm serde reactor json keys documents ToyApi.db text.
Definition name : bytes := bs "alexander.kin".
Definition key : @KineticKeypair sign := [1].
Definition registered := register_job false (toy_salt 1) provider (bs "last") ToyKid.dir ToyKid.always [1] name
  10 io quiet (state key (repeat 7 32) false).
End ToyMacro.

Module ToyRenewal.
Import ToyMacro.
(** The same with binding signatures; keys and signatures are of any length. *)
#[local] Existing Instances ascii_only ToyStore.short_sha2 Toy.toy_mldsa Toy.toy_mldsa_sign toy_beacon_codecs toy_jcs
  ToyStore.yes_beacon ToyStore.yes_vdf prover wasm.
Definition owned : Reveal := signed_reveal (toy_salt 1) name [] (repeat 7 32 : @KineticKeypair Toy.toy_mldsa_sign)
  (MkVdfWork (MkRawKyn 100 [] [] false false) (toy_salt 2) [] 10 [1]) None.
Definition serde : Serde := serde_of owned.
Definition text : @RevealText serde := fun _ => Some [5].
Definition reactor : @ReactorJson serde := reactor_of owned.
Definition json : @DaemonJson serde := json_of owned.
#[local] Existing Instances serde reactor json ToyKid.keys ToyApi.db text.
Definition key : @KineticKeypair Toy.toy_mldsa_sign := repeat 7 32.
Definition io : RegisterIo (HSign := Toy.toy_mldsa_sign) :=
  MkRegisterIo (HSign := Toy.toy_mldsa_sign) (MkComputeIo (Some (toy_salt 3)) true false) true 1000 key
    ToyKid.both true true.
Definition renewed := renew_job false (toy_salt 1) provider (bs "last") [1] name 10 io quiet (state key key true).
End ToyRenewal.

#[local] Existing Instances ascii_only ToyStore.short_sha2 ToyStore.yes_mldsa ToyMacro.sign toy_beacon_codecs toy_jcs
  ToyStore.yes_beacon ToyStore.yes_vdf ToyMacro.prover ToyMacro.wasm ToyMacro.serde ToyMacro.reactor ToyMacro.json
  ToyMacro.keys ToyMacro.documents ToyApi.db ToyMacro.text ToyMacro.reveal_text_laws ToyMacro.sign_laws ToyMacro.complete
  ToyResolver.peers ToyResolver.ed ToyDht.stored_json ToyDht.lru ToyDht.mem.

Lemma quiet_publishes `{MlDsaSign, StorageEngine} : only_publishes (@ToyMacro.quiet MacroState).
Proof. intros n s. done. Qed.

(** The commitment is stored at 1000; the reveal is admitted at 1030. *)
Definition registered_reveal : Reveal := match ToyMacro.registered.2 with Ok r => r | Err _ => renewal end.
Lemma toy_registered : ToyMacro.registered = (ToyMacro.registered.1, Ok registered_reveal).
Proof. apply pair_of_snd. vm_compute. reflexivity. Qed.

Lemma registration_verifies_witness :
  verify_reveal false (toy_salt 1) None registered_reveal (ToyStore.committed registered_reveal 1000) 1030 = Ok tt.
Proof.
  destruct (registration_verifies (toy_salt 1) ToyMacro.provider (bs "last") ToyKid.dir ToyKid.always _ _ _ _ _ _ _ _
    quiet_publishes toy_registered) as (sb & cb & b & before & between & Hx & _ & _ & _ & _ & _ & H).
  apply (inj Some) in Hx. subst sb. apply (H None _ 1030).
  split; [reflexivity|]. split; [vm_compute; reflexivity|]. split; [vm_compute; reflexivity|].
  exists 1000. split; [vm_compute; reflexivity|vm_compute; discriminate].
Defined.

(** A publication of that name with a proof at hand. *)
Definition publish_toy (net_ok : bool) (s : MacroState) : MacroState * Result TaskError Reveal :=
  register_publish false (toy_salt 1) ToyMacro.provider (bs "last") ToyKid.dir ToyKid.always
    [1] ToyMacro.name ToyMacro.key (MkVdfWork (MkRawKyn 100 [] [] false false) (toy_salt 2) [] 10 [1]) 1000
    ToyMacro.key ToyKid.both net_ok true s.
Definition fresh_state : MacroState := ToyMacro.state ToyMacro.key (repeat 7 32) false.

(** It fails: the document is left, and the next attempt fails on it. *)
Lemma failed_publication_final_witness :
  (publish_toy true (publish_toy false fresh_state).1).2 = Err (TeIdentity (IeKidAlreadyExists ToyMacro.name)).
Proof.
  assert (E : publish_toy false fresh_state = ((publish_toy false fresh_state).1, Err TeDhtPublish))
    by (apply pair_of_snd; vm_compute; reflexivity).
  pose proof (failed_publication_final (toy_salt 1) ToyMacro.provider (bs "last") ToyKid.dir ToyKid.always
    [1] ToyMacro.name ToyMacro.key (MkVdfWork (MkRawKyn 100 [] [] false false) (toy_salt 2) [] 10 [1]) 1000
    ToyMacro.key ToyKid.both false true fresh_state (publish_toy false fresh_state).1
    ltac:(vm_compute; reflexivity) ltac:(vm_compute; reflexivity) E
    [1] ToyMacro.key (MkVdfWork (MkRawKyn 100 [] [] false false) (toy_salt 2) [] 10 [1]) 1000
    ToyMacro.key ToyKid.both true true (publish_toy false fresh_state).1 ltac:(reflexivity)) as H.
  exact H.
Defined.

Lemma macro_payload_refused_witness :
  exists b before, dm_calls (mc_daemon ToyMacro.registered.1) = before ++ [NcPublish ToyMacro.name b].
Proof.
  destruct (macro_payload_refused (toy_salt 1) ToyMacro.provider (bs "last") ToyKid.dir ToyKid.always
    [1] ToyMacro.name 10 ToyMacro.io ToyMacro.quiet fresh_state
    ToyMacro.registered.1 registered_reveal quiet_publishes (or_introl toy_registered)) as (b & before & Hd & _).
  by exists b, before.
Defined.

Lemma renewal_effort_sufficient_iff_witness :
  (573167592 <= renewal_effort false (rv_name renewal) 10 <->
   renewal_earned (toy_salt 1) None renewal (default (previous_of renewal) (rv_previous_proof renewal)) 1030 /\
   ~ 2 <= discount_length renewal <= 6).
Proof.
  refine (renewal_effort_sufficient_iff (toy_salt 1) None renewal _ 1030 573167592 10 _ _ _);
    [vm_compute; reflexivity|vm_compute; reflexivity|vm_compute; discriminate].
Defined.

Lemma registered_name_unmanageable_witness :
  (renew_job false (toy_salt 1) ToyMacro.provider (bs "last") [2] ToyMacro.name 10 ToyMacro.io ToyMacro.quiet
     (publish_toy true fresh_state).1).2 = Err TeNotFound.
Proof.
  destruct (run_ok (publish_toy true fresh_state)) as [r Hr]; [vm_compute; reflexivity|].
  apply (registered_name_unmanageable (toy_salt 1) ToyMacro.provider (bs "last") ToyKid.dir ToyKid.always
    [1] ToyMacro.name ToyMacro.key (MkVdfWork (MkRawKyn 100 [] [] false false) (toy_salt 2) [] 10 [1]) 1000
    ToyMacro.key ToyKid.both true true fresh_state (publish_toy true fresh_state).1 r); [| | |exact Hr].
  - apply btree_insert_wf. constructor.
  - vm_compute. discriminate.
  - vm_compute. reflexivity.
Defined.

Definition renew_toy (s : MacroState) : MacroState * Result TaskError Reveal :=
  renew_publish (toy_salt 1) [1] ToyMacro.name ToyApi.record ToyMacro.key
    (MkVdfWork (MkRawKyn 100 [] [] false false) (toy_salt 2) [] 10 [1]) true s.
Definition owner_state : MacroState := ToyMacro.state ToyMacro.key (repeat 7 32) true.

Lemma renewed_registration_lost_witness :
  exists e, (renew_job false (toy_salt 1) ToyMacro.provider (bs "last") [2] ToyMacro.name 10 ToyMacro.io ToyMacro.quiet
    (renew_toy owner_state).1).2 = Err e.
Proof.
  destruct (run_ok (renew_toy owner_state)) as [r Hr]; [vm_compute; reflexivity|].
  apply (renewed_registration_lost (toy_salt 1) ToyMacro.provider (bs "last") [1] ToyMacro.name ToyApi.record ToyMacro.key
    (MkVdfWork (MkRawKyn 100 [] [] false false) (toy_salt 2) [] 10 [1]) true owner_state (renew_toy owner_state).1 r);
    [|exact Hr|].
  - do 2 apply btree_insert_wf. constructor.
  - intros b Hb. apply (inj Some) in Hb. subst b. vm_compute. reflexivity.
Defined.

#[local] Existing Instances Toy.toy_mldsa Toy.toy_mldsa_sign Toy.toy_mldsa_bound ToyRenewal.serde ToyRenewal.reactor
  ToyRenewal.json ToyKid.keys ToyRenewal.text.

Lemma renewal_never_verifies_witness :
  exists r, ToyRenewal.renewed.2 = Ok r /\ reveal_verify_signature r (toy_salt 1) = Err VerInvalidSignature.
Proof.
  destruct (run_ok ToyRenewal.renewed) as [r Hr]; [vm_compute; reflexivity|]. exists r. split; [by rewrite Hr|].
  destruct (renewal_never_verifies (toy_salt 1) ToyMacro.provider (bs "last") [1] ToyMacro.name 10 ToyRenewal.io
    ToyMacro.quiet (ToyMacro.state ToyRenewal.key ToyRenewal.key true) ToyRenewal.renewed.1 r Hr) as (st & old & Hg & He & H).
  assert (Es : sto_get (dm_sto (mc_daemon (ToyMacro.state ToyRenewal.key ToyRenewal.key true)))
    (reveal_key ToyMacro.name) = Ok (Some [1])) by (vm_compute; reflexivity).
  rewrite Es in Hg. apply Ok_inj, (inj Some) in Hg. subst st.
  assert (Eo : envelope_from_slice [1] = Some (Standard ToyRenewal.owned)) by (vm_compute; reflexivity).
  rewrite Eo in He. apply (inj Some) in He. injection He as <-. apply H.
  - reflexivity.
  - assert (Hp : match ToyRenewal.renewed.2 with Ok r => rv_pubkey r | Err _ => [] end = rv_pubkey ToyRenewal.owned)
      by (vm_compute; reflexivity). by rewrite Hr in Hp.
  - vm_compute. reflexivity.
Defined.
