(* ===== verification/KidApi.v ===== *)
(** * The identity API of the daemon ([kinetic-daemon/src/api/kid.rs])

    Listing, generation, rotation and revocation of local identities and their
    manifests, resolution, and the publication of documents and manifests made
    elsewhere.  The handlers run over the disk of KidManager.v and the daemon of
    RegistrationApi.v; a publication that fails is only logged, except in the two
    publishing handlers. *)
From Stdlib Require Import String.
From S2P Require Import Prelude Bytes Config Crypto Kyn Names Physics Net RsaVdf Kid Records Action Verify Nrs Lru Peers DnsTree Storage StoreVerify TieBreaker Store EventLoop Oracle ActionNode ApiAuth KidManager RegistrationApi MacroApi.
#[local] Open Scope Z_scope.

(** [serde_json::to_vec] at the two attachments.  Documented behaviour of the
    derived codecs: a document is an object with exactly its fields. *)
Class KidPayload := {
  auth_kid_to_json : AuthorizedKid -> option bytes;
  auth_manifest_to_json : AuthorizedManifest -> option bytes }.
Class KidPayloadLaws `{Serde, KidPayload} :=
  auth_kid_json a b : auth_kid_to_json a = Some b ->
    exists v, json_from_slice b = Some v /\
      forall f, json_has v f = bool_decide (f ∈ map bs ["name"; "kid_doc"; "owner_signature"]%string).

Section KidHandlers.
Context {HUni : UnicodeCase} {HSha : Sha2} {HSig : MlDsa} {HSign : MlDsaSign} {HCod : Codecs} {HJcs : Jcs}
  {HBv : BeaconVerify} {HSto : StorageEngine} {HSerde : Serde} {HRea : ReactorJson} {HDj : DaemonJson}
  {HKeys : IdentityKeys} {HText : KidText} {HDb : DbKeys} {HJson : StoredJson} {HPay : KidPayload}.
Variables (is_dev_mode : bool) (network_salt : bytes) (provider : BeaconProvider) (DB_PREFIX_LAST_KYN : bytes)
  (kids_dir : bytes) (readable : bytes -> bool).

Definition manifest_dht_key (did : bytes) : bytes := hex_lower (sha256 (did ++ bs "#manifest")).

(** A publication whose failure is logged. *)
Definition publish_logged (key : bytes) (payload : option bytes) (net_ok : bool) (s : MacroState) : MacroState :=
  match payload with
  | Some b => set_mc_daemon (publish_redundant_payload key b net_ok (mc_daemon s)).1 s
  | None => s
  end.

Definition current_kyn_of (net_kyn : option Z) (now : Z) (s : MacroState) : Z :=
  safe_current_kyn is_dev_mode provider DB_PREFIX_LAST_KYN net_kyn now (mc_daemon s).

(** ** Local identities *)

Definition handle_list_kids (s : MacroState) : list LocalKidSummary := list_local_kids kids_dir readable (mc_kids s).

Definition handle_fetch_kid (name : bytes) (s : MacroState) : Result ApiError (bytes * Document * bytes) :=
  '(doc, path) ← map_err ApIdentity (load_local_kid kids_dir readable name (mc_kids s));
  Ok (normalize_name name, doc, path).

Definition handle_get_kid_manifest (name : bytes) (s : MacroState) : Result ApiError (bytes * option Manifest) :=
  manifest ← map_err ApIdentity (load_local_manifest kids_dir readable name (mc_kids s));
  Ok (normalize_name name, manifest).

Record GenerateKidRequest := MkGenerateKid {
  base_name : bytes;
  sub_name : option bytes;
  inherit_subname : bool;
  force : bool }.

Definition requested_name (req : GenerateKidRequest) : bytes :=
  let base_fqdn := normalize_name (base_name req) in
  match sub_name req with Some sub => sub ++ bs "." ++ base_fqdn | None => base_fqdn end.

Definition handle_generate_kid (role : Role) (req : GenerateKidRequest) (net_kyn : option Z) (now : Z)
    (keypair : KineticKeypair) (io : KidIo) (net_ok : bool) (s : MacroState)
  : MacroState * Result ApiError GeneratedKid :=
  if negb (can_kid role) then (s, Err ApInsufficientPrivileges)
  else
    match get_or_create_kid_for_name network_salt kids_dir readable (dm_identity (mc_daemon s)) (requested_name req)
            (inherit_subname req) (force req) (current_kyn_of net_kyn now s) keypair io (mc_kids s) with
    | (d, Err e) => (set_mc_kids d s, Err (ApIdentity e))
    | (d, Ok res) =>
        (publish_logged (gk_did res) (auth_kid_to_json (gk_auth_kid res)) net_ok (set_mc_kids d s), Ok res)
    end.

Definition handle_rotate_kid (role : Role) (name : bytes) (keypair : KineticKeypair) (io : KidIo) (net_ok : bool)
    (s : MacroState) : MacroState * Result ApiError RotatedKid :=
  if negb (can_kid role) then (s, Err ApInsufficientPrivileges)
  else
    match rotate_name_kid network_salt kids_dir readable (dm_identity (mc_daemon s)) name keypair io (mc_kids s) with
    | (d, Err e) => (set_mc_kids d s, Err (ApIdentity e))
    | (d, Ok rotated) =>
        (publish_logged (rk_did rotated) (auth_kid_to_json (rk_auth_kid rotated)) net_ok (set_mc_kids d s), Ok rotated)
    end.

(** The document on the disk is replaced before the owner's key is read. *)
Definition handle_revoke_kid (role : Role) (name : bytes) (io : KidIo) (net_ok : bool) (s : MacroState)
  : MacroState * Result ApiError Document :=
  if negb (can_kid role) then (s, Err ApInsufficientPrivileges)
  else
    match revoke_local_kid kids_dir readable name io (mc_kids s) with
    | (d, Err e) => (set_mc_kids d s, Err (ApIdentity e))
    | (d, Ok revoked_doc) =>
        let s := set_mc_kids d s in
        match authorize_kid_document network_salt (dm_identity (mc_daemon s)) name revoked_doc with
        | Err e => (s, Err (ApIdentity e))
        | Ok auth_kid =>
            (publish_logged (did_id (Kid.kid revoked_doc)) (auth_kid_to_json auth_kid) net_ok s, Ok revoked_doc)
        end
    end.

Definition handle_update_kid_manifest (role : Role) (name : bytes) (svcs : list Service) (net_kyn : option Z) (now : Z)
    (io : KidIo) (net_ok : bool) (s : MacroState) : MacroState * Result ApiError (bytes * Manifest) :=
  if negb (can_kid role) then (s, Err ApInsufficientPrivileges)
  else
    match save_and_sign_local_manifest network_salt kids_dir readable (dm_identity (mc_daemon s)) name svcs
            (current_kyn_of net_kyn now s) io (mc_kids s) with
    | (d, Err e) => (set_mc_kids d s, Err (ApIdentity e))
    | (d, Ok (manifest, auth_manifest)) =>
        (publish_logged (manifest_dht_key (did_id (m_kid manifest))) (auth_manifest_to_json auth_manifest) net_ok
           (set_mc_kids d s), Ok (normalize_name name, manifest))
    end.

(** ** Resolution *)

Definition net_payload (net : NetResolution) : Result ApiError bytes :=
  match net with
  | NrPayload b => Ok b
  | NrNotFound => Err ApNameNotFound
  | NrFailed => Err ApResolution
  end.

(** An attachment, or a bare document as older versions published it. *)
Definition document_of_payload (payload : bytes) : Result ApiError Document :=
  match auth_kid_from_slice payload with
  | Some auth => Ok (ak_kid_doc auth)
  | None => ok_or (document_from_str payload) ApResolution
  end.

Definition manifest_of_payload (payload : bytes) : option Manifest :=
  match auth_manifest_from_slice payload with
  | Some auth => Some (am_manifest auth)
  | None => manifest_from_str payload
  end.

(** The network's answers for the identifier and for its manifest key. *)
Definition handle_resolve_kid (kid_net manifest_net : NetResolution) : Result ApiError (Document * option Manifest) :=
  kid_payload ← net_payload kid_net;
  kid_doc ← document_of_payload kid_payload;
  Ok (kid_doc, match manifest_net with NrPayload p => manifest_of_payload p | _ => None end).

(** ** Publication *)

(** The owner's signature, against the stored registration if there is one; a name
    that is not stored, or storage that fails, lets the network decide. *)
Definition locally_authorized (name signable sig : bytes) (d : Sto) : bool :=
  match sto_get d (reveal_key name) with
  | Ok (Some b) =>
      match envelope_from_slice b with
      | Some record => key_verifies (envelope_pubkey record) signable sig
      | None => false
      end
  | _ => true
  end.

Definition publish_checked (key : bytes) (prepared : Result ApiError bytes) (net_ok : bool) (s : MacroState)
  : MacroState * Result ApiError unit :=
  match prepared with
  | Err e => (s, Err e)
  | Ok payload => let '(dm, r) := publish_redundant_payload key payload net_ok (mc_daemon s) in (set_mc_daemon dm s, r)
  end.

Definition handle_publish_kid (role : Role) (auth_kid : AuthorizedKid) (net_ok : bool) (s : MacroState)
  : MacroState * Result ApiError unit :=
  publish_checked (did_id (Kid.kid (ak_kid_doc auth_kid)))
    (bail_if (negb (can_kid role)) ApInsufficientPrivileges;;
     map_err (fun _ => ApBadRequest "Invalid KID signature") (document_verify (ak_kid_doc auth_kid));;
     bail_if (negb (locally_authorized (ak_name auth_kid) (auth_kid_signable_bytes auth_kid network_salt)
                      (ak_owner_signature auth_kid) (dm_sto (mc_daemon s))))
       (ApBadRequest "Invalid authorization signature");;
     ok_or (auth_kid_to_json auth_kid) ApPublish)
    net_ok s.

(** [kid_net] is the network's answer for the manifest's identifier. *)
Definition handle_publish_manifest (role : Role) (auth_manifest : AuthorizedManifest) (kid_net : NetResolution)
    (net_kyn : option Z) (now : Z) (net_ok : bool) (s : MacroState) : MacroState * Result ApiError unit :=
  publish_checked (manifest_dht_key (did_id (m_kid (am_manifest auth_manifest))))
    (bail_if (negb (can_kid role)) ApInsufficientPrivileges;;
     bail_if (negb (locally_authorized (am_name auth_manifest) (auth_manifest_signable_bytes auth_manifest network_salt)
                      (am_owner_signature auth_manifest) (dm_sto (mc_daemon s))))
       (ApBadRequest "Invalid authorization signature");;
     kid_payload ← net_payload kid_net;
     kid_doc ← document_of_payload kid_payload;
     let current_network_time := to_ukyn (current_kyn_of net_kyn now s) BEACON_GENESIS in
     map_err (fun _ => ApBadRequest "Invalid Manifest signature")
       (manifest_verify_at_time (am_manifest auth_manifest) kid_doc current_network_time);;
     ok_or (auth_manifest_to_json auth_manifest) ApPublish)
    net_ok s.

End KidHandlers.

(** ** Facts *)

Section KidApiFacts.
Context {HUni : UnicodeCase} {HSha : Sha2} {HSig : MlDsa} {HSign : MlDsaSign} {HCod : Codecs} {HJcs : Jcs}
  {HBv : BeaconVerify} {HSto : StorageEngine} {HSerde : Serde} {HRea : ReactorJson} {HDj : DaemonJson}
  {HKeys : IdentityKeys} {HText : KidText} {HDb : DbKeys} {HJson : StoredJson} {HPay : KidPayload}.
Variables (is_dev_mode : bool) (network_salt : bytes) (provider : BeaconProvider) (DB_PREFIX_LAST_KYN : bytes)
  (kids_dir : bytes) (readable : bytes -> bool).

(** The requests that make or change an identity document. *)
Inductive KidRequest :=
  | KrGenerate (req : GenerateKidRequest) (net_kyn : option Z) (now : Z) (keypair : KineticKeypair)
  | KrRotate (name : bytes) (keypair : KineticKeypair)
  | KrRevoke (name : bytes).

(** The state afterwards and, of the answer, the document. *)
Definition handle_kid_request (role : Role) (q : KidRequest) (io : KidIo) (net_ok : bool) (s : MacroState)
  : MacroState * Result ApiError Document :=
  match q with
  | KrGenerate req net_kyn now keypair =>
      let '(s, r) := handle_generate_kid is_dev_mode network_salt provider DB_PREFIX_LAST_KYN kids_dir readable
                       role req net_kyn now keypair io net_ok s in (s, g ← r; Ok (gk_kid_doc g))
  | KrRotate name keypair =>
      let '(s, r) := handle_rotate_kid network_salt kids_dir readable role name keypair io net_ok s in
      (s, g ← r; Ok (rk_kid_doc g))
  | KrRevoke name => handle_revoke_kid network_salt kids_dir readable role name io net_ok s
  end.

Lemma publish_logged_cases key payload net_ok s :
  let s' := publish_logged key payload net_ok s in
  s' = publish_logged key payload true s /\ mc_kids s' = mc_kids s /\
  (dm_calls (mc_daemon s') = dm_calls (mc_daemon s) \/
   exists b, payload = Some b /\ dm_calls (mc_daemon s') = dm_calls (mc_daemon s) ++ [NcPublish key b]).
Proof.
  cbv zeta. unfold publish_logged. destruct payload as [b|]; [|auto].
  unfold publish_redundant_payload. destruct (len b >? 80000); cbn; [auto|]. split; [done|]. split; [done|].
  right. by exists b.
Qed.

(** What a request hands to the network, if anything, is an identity attachment
    under the identifier of its document. *)
Lemma kid_request_call role q io net_ok s s' r :
  handle_kid_request role q io net_ok s = (s', r) ->
  handle_kid_request role q io true s = (s', r) /\
  (dm_calls (mc_daemon s') = dm_calls (mc_daemon s) \/
   exists did auth b, auth_kid_to_json auth = Some b /\
     dm_calls (mc_daemon s') = dm_calls (mc_daemon s) ++ [NcPublish did b]).
Proof.
  assert (Hp : forall key payload s0, mc_daemon s0 = mc_daemon s -> forall a : Result ApiError Document,
    (publish_logged key (auth_kid_to_json payload) net_ok s0, a) = (s', r) ->
    (publish_logged key (auth_kid_to_json payload) true s0, a) = (s', r) /\
    (dm_calls (mc_daemon s') = dm_calls (mc_daemon s) \/
     exists did auth b, auth_kid_to_json auth = Some b /\
       dm_calls (mc_daemon s') = dm_calls (mc_daemon s) ++ [NcPublish did b])).
  { intros key payload s0 Hs a H. destruct (publish_logged_cases key (auth_kid_to_json payload) net_ok s0) as (H1 & _ & H2).
    apply pair_equal_spec in H as [H <-]. rewrite H in H1, H2. rewrite <- H1, <- Hs. split; [done|].
    destruct H2 as [H2|(b & Hb & H2)]; [by left|right]. by exists key, payload, b. }
  destruct q as [req net_kyn now keypair|name keypair|name]; cbn [handle_kid_request].
  - unfold handle_generate_kid. destruct (negb _); [intros [= <- <-]; auto|].
    destruct (get_or_create_kid_for_name _ _ _ _ _ _ _ _ _ _ _) as [d [g|e]]; [by apply Hp|].
    intros [= <- <-]. auto.
  - unfold handle_rotate_kid. destruct (negb _); [intros [= <- <-]; auto|].
    destruct (rotate_name_kid _ _ _ _ _ _ _ _) as [d [g|e]]; [by apply Hp|]. intros [= <- <-]. auto.
  - unfold handle_revoke_kid. destruct (negb _); [intros [= <- <-]; auto|].
    destruct (revoke_local_kid _ _ _ _ _) as [d [g|e]]; [|intros [= <- <-]; auto].
    destruct (authorize_kid_document _ _ _ _) as [a|e]; [by apply Hp|intros [= <- <-]; auto].
Qed.

Section Refused.
Context {HVdf : VdfEngine} {HPeer : PeerIds} {HEd : Ed25519} {HLru : LruCache} {HMem : KadMemory}
  {HPayLaws : KidPayloadLaws}.

(** A locally made identity never reaches the network.  Whatever a request to
    make, rotate or revoke an identity sends is refused by every store under every
    key, which stays as it was; and its answer, its success included, is the one it
    gives when the network takes the document. *)
Theorem local_identity_never_stored role q io net_ok s s' r :
  handle_kid_request role q io net_ok s = (s', r) ->
  handle_kid_request role q io true s = (s', r) /\
  (dm_calls (mc_daemon s') = dm_calls (mc_daemon s) \/
   exists did b, dm_calls (mc_daemon s') = dm_calls (mc_daemon s) ++ [NcPublish did b] /\
     forall dev action now (store : KineticRecordStore) key skip,
       put_record_internal dev network_salt action now store (MkKadRecord key b) skip
       = (store, Err (if len b >? LIMITS_STORAGE_MAX_VALUE_BYTES then PayloadTooLarge else UnknownRecordType))).
Proof.
  intros H. apply kid_request_call in H as [H1 [H2|(did & a & b & Hb & H2)]]; [by split; [|left]|].
  split; [done|right]. exists did, b. split; [done|]. intros. unfold put_record_internal. cbn [kr_key kr_value].
  destruct (_ >? _); [done|]. destruct (auth_kid_json _ _ Hb) as (v & Hv & Hf). rewrite Hv.
  unfold dispatch, field. by rewrite !Hf.
Qed.

End Refused.

(** *** Publication *)

Lemma locally_authorized_true name signable sig d :
  locally_authorized name signable sig d = true <->
  forall b, sto_get d (reveal_key name) = Ok (Some b) ->
    exists record, envelope_from_slice b = Some record /\ signed_by (envelope_pubkey record) signable sig.
Proof.
  clear is_dev_mode network_salt provider DB_PREFIX_LAST_KYN kids_dir readable. unfold locally_authorized. destruct (sto_get d _) as [[b|]|e]; [|naive_solver..].
  destruct (envelope_from_slice b) as [record|] eqn:E; split.
  - intros H%key_verifies_true b' [= <-]. eauto.
  - intros H. destruct (H b eq_refl) as (r & Hr & Hs). apply key_verifies_true. congruence.
  - done.
  - intros H. destruct (H b eq_refl) as (r & Hr & _). congruence.
Qed.

Lemma publish_checked_ok key prepared net_ok s s' :
  publish_checked key prepared net_ok s = (s', Ok tt) <->
  exists b, prepared = Ok b /\ len b <= 80000 /\ net_ok = true /\
    s' = set_mc_daemon (net_call (NcPublish key b) (mc_daemon s)) s.
Proof.
  clear is_dev_mode network_salt provider DB_PREFIX_LAST_KYN kids_dir readable. unfold publish_checked. destruct prepared as [b|e]; [|naive_solver].
  unfold publish_redundant_payload. destruct (len b >? 80000) eqn:E; zbool.
  { split; [done|]. intros (? & [= <-] & ? & _). lia. }
  destruct net_ok; split; [intros [= <-]; by exists b|intros (? & [= <-] & _ & _ & ->); done|done|naive_solver].
Qed.

(** Publication of an identity document.  It succeeds exactly when the role may,
    the document verifies by itself, a stored registration of the name, if there is
    one, reads as a record whose owner signed the attachment, and the network takes
    its encoding; then exactly this attachment is sent under its identifier.  In
    particular, whatever a node that holds the same registration admits passes these
    checks. *)
Theorem kid_publication_iff role a net_ok s s' :
  (handle_publish_kid network_salt role a net_ok s = (s', Ok tt) <->
   can_kid role = true /\ document_verify (ak_kid_doc a) = Ok tt /\
   (forall b, sto_get (dm_sto (mc_daemon s)) (reveal_key (ak_name a)) = Ok (Some b) ->
      exists record, envelope_from_slice b = Some record /\
        signed_by (envelope_pubkey record) (auth_kid_signable_bytes a network_salt) (ak_owner_signature a)) /\
   exists payload, auth_kid_to_json a = Some payload /\ len payload <= 80000 /\ net_ok = true /\
     s' = set_mc_daemon (net_call (NcPublish (did_id (Kid.kid (ak_kid_doc a))) payload) (mc_daemon s)) s) /\
  (forall b record existing, sto_get (dm_sto (mc_daemon s)) (reveal_key (ak_name a)) = Ok (Some b) ->
     envelope_from_slice b = Some record -> verify_authorized_kid network_salt a (Some record) existing = Ok tt ->
     document_verify (ak_kid_doc a) = Ok tt /\
     locally_authorized (ak_name a) (auth_kid_signable_bytes a network_salt) (ak_owner_signature a)
       (dm_sto (mc_daemon s)) = true).
Proof.
  clear is_dev_mode provider DB_PREFIX_LAST_KYN kids_dir readable. split.
  - unfold handle_publish_kid. rewrite publish_checked_ok. split.
    + intros (p & H & Hl & Hn & ->). rewrite bail_if_ok, negb_false_iff, bind_unit_ok, map_err_ok, bail_if_ok,
        negb_false_iff, locally_authorized_true, ok_or_ok in H. destruct H as (? & ? & ? & ?). eauto 10.
    + intros (? & ? & ? & p & Hj & Hl & Hn & ->). exists p. split; [|done].
      by rewrite bail_if_ok, negb_false_iff, bind_unit_ok, map_err_ok, bail_if_ok, negb_false_iff,
        locally_authorized_true, ok_or_ok.
  - intros b record existing Hg He H. unfold verify_authorized_kid in H. cbn [ok_or mbind result_bind] in H.
    rewrite !bind_unit_ok, !bail_if_unit, negb_false_iff, is_err_unit in H. destruct H as (Hs & Hv & _).
    split; [done|]. unfold locally_authorized. by rewrite Hg, He.
Qed.

(** Publication of a manifest.  The handler checks the manifest under the
    document the network has for its identifier, the store under the one attached:
    of the manifests it publishes under a stored registration, a node at the same
    kyn with that registration admits exactly those that carry a verified document
    they verify under, and are newer than the stored one. *)
Theorem published_manifest_admitted_iff role a kid_net net_kyn now net_ok s s' b record existing :
  handle_publish_manifest is_dev_mode network_salt provider DB_PREFIX_LAST_KYN role a kid_net net_kyn now net_ok s
    = (s', Ok tt) ->
  sto_get (dm_sto (mc_daemon s)) (reveal_key (am_name a)) = Ok (Some b) -> envelope_from_slice b = Some record ->
  let kyn := current_kyn_of is_dev_mode provider DB_PREFIX_LAST_KYN net_kyn now s in
  (exists payload doc, kid_net = NrPayload payload /\ document_of_payload payload = Ok doc /\
     manifest_verify_at_time (am_manifest a) doc (to_ukyn kyn BEACON_GENESIS) = Ok tt) /\
  (verify_authorized_manifest network_salt a (Some record) existing kyn = Ok tt <->
   exists doc, am_kid_doc a = Some doc /\ document_verify doc = Ok tt /\
     manifest_verify_at_time (am_manifest a) doc (to_ukyn kyn BEACON_GENESIS) = Ok tt /\
     forall value old, existing = Some value -> auth_manifest_from_slice value = Some old ->
       version (am_manifest old) < version (am_manifest a)).
Proof.
  clear kids_dir readable. cbv zeta. intros H Hg He. apply publish_checked_ok in H as (p & H & _). rewrite !bail_if_ok, !negb_false_iff in H.
  destruct H as (_ & Hl & H). apply locally_authorized_true with (b := b) in Hl as (r & Hr & Hs); [|done].
  assert (r = record) as -> by congruence. apply bind_ok in H as (payload & Hp & H). apply bind_ok in H as (doc & Hd & H).
  cbv zeta in H. rewrite bind_unit_ok, map_err_ok in H. destruct H as [Hm _]. split.
  - exists payload, doc. split; [|done]. destruct kid_net; [|done|done]. cbn in Hp. by apply Ok_inj in Hp as ->.
  - rewrite verify_authorized_manifest_ok. split.
    + intros (r' & kd & [= <-] & _ & H). eauto.
    + intros (kd & H). exists record, kd. split; [done|]. by split.
Qed.

End KidApiFacts.

(** ** A node that owns a name *)

Module ToyKidApi.
Definition kid_fields : list bytes := map bs ["name"; "kid_doc"; "owner_signature"]%string.
(** An attachment is sent as [\[6\]]; the registration of the name is stored as [\[1\]]. *)
Definition serde : Serde := {|
  Json := unit; json_has _ f := bool_decide (f ∈ kid_fields); commitment_from_value _ := None;
  json_from_slice b := if bool_decide (b = [6]) then Some tt else None;
  envelope_from_value _ := None; heartbeat_from_value _ := None; auth_kid_from_value _ := None;
  auth_manifest_from_value _ := None; host_route_from_value _ := None;
  envelope_from_slice b := if bool_decide (b = [1]) then Some ToyKid.owned else None;
  envelope_to_vec e := Some [1] |}.
Definition reactor : @ReactorJson serde := {|
  reveal_from_value _ := None; raw_kyn_from_slice _ := None; action_from_slice _ := None |}.
Definition payload : KidPayload := {| auth_kid_to_json _ := Some [6]; auth_manifest_to_json _ := Some [4] |}.
Lemma payload_laws : @KidPayloadLaws serde payload.
Proof. intros a b [= <-]. exists tt. split; [done|]. intros f. done. Qed.
(** What the network has for an identifier is the document of the name. *)
Definition network_text : KidText := {|
  document_to_string _ := None; document_from_str _ := Some ToyDisk.document;
  manifest_to_string _ := None; manifest_from_str _ := None |}.

#[local] Existing Instances ascii_only Toy.toy_sha2 Toy.toy_mldsa Toy.toy_mldsa_sign Toy.toy_codecs toy_jcs.
Definition wasm : StorageEngine := wasm_engine true.
#[local] Existing Instance wasm.
Definition provider : BeaconProvider := MkProvider true [] [].
Definition state (disk : Disk) : MacroState :=
  MkMacroState (MkDaemon ((sto_put wasm_new (bs "reveal:alexander.kin") [1]).1 : Sto) ∅ ∅ ToyKid.identity ToyKid.key1 [])
    disk ∅.
Definition generate : KidRequest :=
  KrGenerate (MkGenerateKid ToyKid.name None true false) (Some 1000) 0 ToyKid.key1.
Definition attachment : AuthorizedKid :=
  match ToyDisk.created.2 with Ok g => gk_auth_kid g | Err _ => MkAuthorizedKid [] toy_doc [] end.
Definition manifest : AuthorizedManifest :=
  match ToyDisk.saved.2 with
  | Ok (_, a) => a
  | Err _ => MkAuthorizedManifest [] (MkManifest [] (MkDid []) 0 0 None [] None) None []
  end.
End ToyKidApi.

#[local] Existing Instances ascii_only Toy.toy_sha2 Toy.toy_mldsa Toy.toy_mldsa_sign Toy.toy_codecs toy_jcs
  ToyKid.keys ToyKid.text ToyKid.json ToyKidApi.serde ToyKidApi.reactor ToyKidApi.payload ToyKidApi.payload_laws
  ToyKidApi.wasm ToyApi.db toy_beacon ToyStore.yes_vdf ToyResolver.peers ToyResolver.ed ToyDht.lru ToyDht.mem.

Lemma local_identity_never_stored_witness :
  let s' := (handle_kid_request false ToyKid.salt ToyKidApi.provider (bs "last") ToyKid.dir ToyKid.always
    admin_role ToyKidApi.generate ToyKid.both true (ToyKidApi.state ∅)).1 in
  exists did b, dm_calls (mc_daemon s') = [NcPublish did b] /\
    forall (store : KineticRecordStore) key, exists e,
      put_record_internal false ToyKid.salt None 0 store (MkKadRecord key b) false = (store, Err e).
Proof.
  destruct (local_identity_never_stored false ToyKid.salt ToyKidApi.provider (bs "last") ToyKid.dir ToyKid.always
    admin_role ToyKidApi.generate ToyKid.both true (ToyKidApi.state ∅) _ _ (surjective_pairing _)) as [_ [H|(did & b & H & Hr)]].
  - apply (f_equal length) in H. vm_compute in H. discriminate H.
  - exists did, b. split; [exact H|]. intros store key. eexists. apply Hr.
Defined.

Lemma kid_publication_iff_witness :
  exists s', handle_publish_kid ToyKid.salt admin_role ToyKidApi.attachment true (ToyKidApi.state ∅) = (s', Ok tt).
Proof.
  eexists. destruct (kid_publication_iff ToyKid.salt admin_role ToyKidApi.attachment true (ToyKidApi.state ∅)
    (set_mc_daemon (net_call (NcPublish (did_id (Kid.kid (ak_kid_doc ToyKidApi.attachment))) [6])
      (mc_daemon (ToyKidApi.state ∅))) (ToyKidApi.state ∅))) as [[_ H] _].
  apply H. split; [reflexivity|]. split; [vm_compute; reflexivity|]. split.
  - intros b Hb. exists ToyKid.owned.
    assert (Es : sto_get (dm_sto (mc_daemon (ToyKidApi.state ∅))) (reveal_key (ak_name ToyKidApi.attachment)) = Ok (Some [1]))
      by (vm_compute; reflexivity).
    rewrite Es in Hb. apply Ok_inj, (inj Some) in Hb. subst b. split; [reflexivity|].
    apply key_verifies_true. vm_compute. reflexivity.
  - exists [6]. split; [reflexivity|]. split; [vm_compute; discriminate|]. split; reflexivity.
Defined.

#[local] Existing Instances ToyKidApi.network_text.

Lemma published_manifest_admitted_iff_witness :
  exists doc, am_kid_doc ToyKidApi.manifest = Some doc /\ document_verify doc = Ok tt.
Proof.
  assert (E : handle_publish_manifest false ToyKid.salt ToyKidApi.provider (bs "last") admin_role ToyKidApi.manifest
    (NrPayload [9]) (Some 1000) 0 true (ToyKidApi.state ∅)
    = ((handle_publish_manifest false ToyKid.salt ToyKidApi.provider (bs "last") admin_role ToyKidApi.manifest
        (NrPayload [9]) (Some 1000) 0 true (ToyKidApi.state ∅)).1, Ok tt))
    by (apply pair_of_snd; vm_compute; reflexivity).
  destruct (published_manifest_admitted_iff false ToyKid.salt ToyKidApi.provider (bs "last") admin_role ToyKidApi.manifest
    (NrPayload [9]) (Some 1000) 0 true (ToyKidApi.state ∅) _ [1] ToyKid.owned None E) as [_ H];
    [vm_compute; reflexivity|vm_compute; reflexivity|].
  destruct H as [H _]. destruct H as (doc & Hd & Hv & _); [vm_compute; reflexivity|]. exact (ex_intro _ doc (conj Hd Hv)).
Defined.
