(* ===== verification/Proxy.v ===== *)
(** * The HTTP proxy of the daemon and of the host

    [kinetic-daemon/src/proxy/]: what a browser's request becomes (a refusal, a
    tunnel, a request to an address, to a web host, to an IPFS gateway or to a
    peer), the DNS cache before it, and the two ends of the peer-to-peer tunnel:
    [proxy/p2p.rs] and [kinetic-host/src/proxy.rs].  Sockets, TLS and the HTTP
    client are third-party: a request that is sent is a value. *)
From Stdlib Require Import String.
From S2P Require Import Prelude Bytes Config Crypto Kyn Names Physics Net RsaVdf Kid Records Action Verify Nrs Lru Peers DnsTree Storage StoreVerify TieBreaker Store EventLoop Oracle ActionNode ApiAuth KidManager RegistrationApi MacroApi.
#[local] Open Scope Z_scope.

(** ** Text *)

(** [str::contains] *)
Fixpoint contains (p s : bytes) : bool :=
  starts_with p s || match s with [] => false | _ :: s' => contains p s' end.

(** The first piece of [str::split(':')]. *)
Definition before_colon (s : bytes) : bytes := hd [] (split_on COLON s).

Fixpoint decimal_loop (acc : Z) (s : bytes) : option Z :=
  match s with
  | [] => Some acc
  | c :: s' => if is_ascii_digit c then decimal_loop (10 * acc + (c - 48)) s' else None
  end.

(** [<u16 as FromStr>::from_str] *)
Definition parse_u16 (s : bytes) : option Z :=
  let digits := match s with 43 :: ((_ :: _) as r) => r | _ => s end in
  if bool_decide (digits = []) then None
  else n ← decimal_loop 0 digits; if n <=? 65535 then Some n else None.

(** A decimal number as [format!] writes it. *)
Fixpoint decimal_digits (fuel : nat) (n : Z) : bytes :=
  match fuel with
  | O => []
  | S f => if n <? 10 then [48 + n] else decimal_digits f (n / 10) ++ [48 + n mod 10]
  end.
Definition decimal (n : Z) : bytes := decimal_digits 20 n.

(** [percent_decode_str], of the crate [percent_encoding]. *)
Class PercentCodec := percent_decode : bytes -> bytes.

(** Documented behaviour: [%XX] is decoded, everything else is kept. *)
Class PercentLaws `{PercentCodec} := {
  percent_nil : percent_decode [] = [];
  percent_plain c s : c <> 37 -> percent_decode (c :: s) = c :: percent_decode s;
  percent_escape h l s x y : digit_of 16 h = Some x -> digit_of 16 l = Some y ->
    percent_decode (37 :: h :: l :: s) = (16 * x + y) :: percent_decode s }.

(** [<reqwest::Method as FromStr>], [HeaderValue::to_str], [HeaderValue::from_str] and
    what the response builder takes. *)
Class HttpText := {
  method_from_str : bytes -> option bytes;
  header_to_str : bytes -> option bytes;
  header_from_str : bytes -> option bytes;
  status_valid : Z -> bool;
  header_valid : bytes * bytes -> bool }.

(** [str::replace] *)
Fixpoint replace_loop (fuel : nat) (p q s : bytes) : bytes :=
  match fuel, s with
  | S f, c :: t => if starts_with p s then q ++ replace_loop f p q (drop (length p) s) else c :: replace_loop f p q t
  | _, _ => []
  end.
Definition replace_all (p q s : bytes) : bytes :=
  match p with
  | [] => q ++ concat (map (fun c => c :: q) s)
  | _ => replace_loop (length s) p q s
  end.

(** The host the HTTP client connects to for an absolute URL. *)
Class UrlParser := url_host : bytes -> option bytes.

(** Documented behaviour (the URL standard): the authority ends at the first
    slash, and what is before its at sign is not the host. *)
Definition url_delimiters : bytes := bs "/?#@\".
Class UrlLaws `{UrlParser} :=
  url_userinfo user host rest :
    Forall (fun c => c ∉ url_delimiters) user ->
    Forall (fun l => l <> [] /\ Forall (fun c => is_ascii_lowercase c = true) l) (split_on DOT host) ->
    url_host (bs "http://" ++ user ++ bs "@" ++ host ++ bs "/" ++ rest) = Some host.

(** ** Security errors the proxies report *)

Inductive ProxySecurity := PathTraversalAttempt | SecPayloadTooLarge | InvalidMethod | BackendResponseTooLarge.

(** [format!("{}: {}", err.code(), err)] *)
Definition security_text (e : ProxySecurity) : bytes :=
  bs match e with
     | PathTraversalAttempt => "KIN-SEC-010: Path traversal attempt blocked"
     | SecPayloadTooLarge => "KIN-SEC-011: Proxy request payload exceeds maximum allowed size"
     | InvalidMethod => "KIN-SEC-012: Invalid HTTP method blocked by proxy"
     | BackendResponseTooLarge => "KIN-SEC-013: Proxy response payload exceeds maximum allowed size"
     end.

Definition refusal (status : Z) (e : ProxySecurity) : ProxyResponse := MkProxyResponse status [] (security_text e).

(** ** The receiving end of the tunnel *)

(** A request to the local web server. *)
Record BackendCall := MkBackendCall {
  bc_method : bytes;
  bc_url : bytes;
  bc_headers : list (bytes * bytes);
  bc_body : bytes }.

(** What the web server answers: the status, the headers as text where they are,
    and the body in chunks, of which some are not received. *)
Inductive BackendAnswer :=
  | BaResponse (status : Z) (headers : list (bytes * bytes)) (chunks : list (option bytes))
  | BaFailed (why : bytes).

Inductive Inbound :=
  | InReply (res : ProxyResponse)
  | InForward (call : BackendCall).

Section Receiving.
Context {HUni : UnicodeCase} {HPct : PercentCodec} {HHttp : HttpText}.

(** The check both ends make of a path: of its decoding, or of the path itself when
    that is no text. *)
Definition path_accepted (path : bytes) : bool :=
  let decoded := percent_decode path in
  let decoded_path := if utf8_valid decoded then decoded else path in
  negb (contains (bs "..") decoded_path) && starts_with (bs "/") decoded_path.

Definition backend_address (host : bytes) (port : Z) : bytes := host ++ bs ":" ++ decimal port.

Definition backend_headers (headers : list (bytes * bytes)) (address : bytes) : list (bytes * bytes) :=
  filter (fun kv => to_lowercase kv.1 <> bs "host") headers ++ [(bs "Host", address)].

Definition backend_call (method : bytes) (req : ProxyRequest) (host : bytes) (port : Z) : BackendCall :=
  let address := backend_address host port in
  MkBackendCall method (bs "http://" ++ address ++ px_path req) (backend_headers (px_headers req) address) (px_body req).

(** The daemon's handler, up to the request it sends. *)
Definition daemon_inbound (bind_ip : bytes) (local_port : Z) (req : ProxyRequest) : Inbound :=
  if negb (path_accepted (px_path req)) then InReply (refusal 400 PathTraversalAttempt)
  else if len (px_body req) >? LIMITS_PROXY_MAX_BODY_BYTES then InReply (refusal 413 SecPayloadTooLarge)
  else match method_from_str (px_method req) with
       | Some method => InForward (backend_call method req bind_ip local_port)
       | None => InReply (refusal 400 InvalidMethod)
       end.

(** The host's: a method it does not know becomes [GET]. *)
Definition host_inbound (backend_host : bytes) (local_port : Z) (req : ProxyRequest) : Inbound :=
  if negb (path_accepted (px_path req)) then InReply (refusal 400 PathTraversalAttempt)
  else if len (px_body req) >? LIMITS_PROXY_MAX_BODY_BYTES then InReply (refusal 413 SecPayloadTooLarge)
  else InForward (backend_call (default (bs "GET") (method_from_str (px_method req))) req backend_host local_port).

(** The loop over the body: chunks that fail are skipped; [None] when it grows
    beyond the limit. *)
Fixpoint collect_body (limit : Z) (chunks : list (option bytes)) (body : bytes) : option bytes :=
  match chunks with
  | [] => Some body
  | None :: chunks => collect_body limit chunks body
  | Some chunk :: chunks =>
      let body := body ++ chunk in
      if len body >? limit then None else collect_body limit chunks body
  end.

Definition bounded_response (status : Z) (headers : list (bytes * bytes)) (chunks : list (option bytes)) : ProxyResponse :=
  match collect_body LIMITS_PROXY_MAX_BODY_BYTES chunks [] with
  | Some body => MkProxyResponse status headers body
  | None => MkProxyResponse 502 headers (security_text BackendResponseTooLarge)
  end.

Definition unreachable_text (port : Z) (why : bytes) : bytes :=
  bs "Bad Gateway: Local web server not responding on port " ++ decimal port ++ [10] ++ bs "Error: " ++ why.

Definition daemon_reply (local_port : Z) (a : BackendAnswer) : ProxyResponse :=
  match a with
  | BaResponse status headers chunks => bounded_response status headers chunks
  | BaFailed why => MkProxyResponse 502 [] (unreachable_text local_port why)
  end.

Definition STRIPPED_BY_HOST : list bytes :=
  map bs ["content-encoding"; "transfer-encoding"; "content-length"; "connection"; "keep-alive"; "upgrade"]%string.

Definition host_reply (local_port : Z) (a : BackendAnswer) : ProxyResponse :=
  match a with
  | BaResponse status headers chunks =>
      bounded_response status (filter (fun kv => to_lowercase kv.1 ∉ STRIPPED_BY_HOST) headers) chunks
  | BaFailed why => MkProxyResponse 502 [] (unreachable_text local_port why)
  end.

End Receiving.

(** ** The sending end *)

(** The errors the routing gives (the others are only logged). *)
Inductive ProxyRouteError :=
  | PeNameNotFound (what : bytes)
  | PeInvalidPayload
  | PeSecurityViolation
  | PePeerUnreachable
  | PeOther.

(** The status of a plain request that failed, and of one inside a tunnel. *)
Definition plain_status (e : ProxyRouteError) : Z :=
  match e with
  | PeSecurityViolation => 403
  | PePeerUnreachable => 504
  | PeNameNotFound _ => 404
  | _ => 502
  end.
Definition tunnel_status (e : ProxyRouteError) : Z := 502.

(** A request of the browser: header names are lower case; a frame that is not
    received is [None]. *)
Record HttpRequest := MkHttpRequest {
  hq_method : bytes;
  hq_uri_host : option bytes;
  hq_uri_port : option Z;
  hq_path_and_query : option bytes;
  hq_headers : list (bytes * bytes);
  hq_frames : list (option bytes) }.

(** The ports of the configuration, and its IPFS gateways. *)
Record DaemonPorts := MkDaemonPorts {
  proxy_port : Z; api_port : Z; nrs_port : Z; backend_port : Z; daemon_port : Z; pac_port : Z; ipfs_gateway : bytes }.

(** What is sent.  An address is asked by its number, a web host by its name at the
    address that was checked, and the IPFS gateways in turn. *)
Inductive OutCall :=
  | OcAddress (https : bool) (ip : IpAddr) (port : Z) (method path : bytes) (headers : list (bytes * bytes)) (body : bytes)
  | OcWebHost (domain : bytes) (ip : IpAddr) (method path : bytes) (headers : list (bytes * bytes))
  | OcIpfs (urls : list bytes) (method : bytes) (headers : list (bytes * bytes)) (body : bytes)
  | OcPeer (peer : bytes) (req : ProxyRequest).

(** Where a name leads: the text of a record, of which an address is kept as the
    address its text parses to. *)
Inductive Destination :=
  | DsAddress (ip : IpAddr)
  | DsText (text : bytes)
  | DsCname (target : bytes).

(** [DnsCache]: payloads with the instant of their insertion, in nanoseconds. *)
Definition DNS_CACHE_CAPACITY : nat := 500.
Definition DNS_CACHE_TTL : Z := 300 * 10 ^ 9.

(** What a request is answered by the outside: the network's answer to the [n]-th
    resolution, the addresses of a web host, and the route of a host. *)
Record ProxyEnv := MkProxyEnv {
  pe_resolve : nat -> bytes -> option bytes;
  lookup_host : bytes -> option (list IpAddr);
  resolve_host_route : bytes -> option HostRoute }.

Definition IPFS_SCHEME : bytes := bs "ipfs://".

Section Sending.
Context {HUni : UnicodeCase} {HHttp : HttpText} {HSha : Sha2} {HSig : MlDsa} {HCod : Codecs} {HJcs : Jcs}
  {HSerde : Serde} {HOrd : HashOrder} {HNrs : NrsJson} {HPeer : PeerIds} {HStr : PeerStrings} {HLru : LruCache}.
Variables (is_dev_mode : bool) (network_salt : bytes) (ports : DaemonPorts) (node_peer_id : bytes).

(** The cache, and the names the network was asked for. *)
Record ProxyState := MkProxyState {
  dns_cache : Lru (bytes * Z);
  asked : list bytes }.

Definition dns_cache_get (now : Z) (c : Lru (bytes * Z)) (name : bytes) : Lru (bytes * Z) * option bytes :=
  let '(c, hit) := lru_get c name in
  (c, match hit with
      | Some (payload, timestamp) => if now - timestamp <=? DNS_CACHE_TTL then Some payload else None
      | None => None
      end).
Definition dns_cache_insert (now : Z) (c : Lru (bytes * Z)) (name payload : bytes) : Lru (bytes * Z) :=
  lru_put c name (payload, now).

(** From the cache, or from the network into the cache. *)
Definition fetch_payload (env : ProxyEnv) (now : Z) (apex_name : bytes) (s : ProxyState)
  : ProxyState * Result ProxyRouteError bytes :=
  let '(cache, payload_result) := dns_cache_get now (dns_cache s) apex_name in
  match payload_result with
  | Some cached => (MkProxyState cache (asked s), Ok cached)
  | None =>
      match pe_resolve env (length (asked s)) apex_name with
      | Some bytes => (MkProxyState (dns_cache_insert now cache apex_name bytes) (asked s ++ [apex_name]), Ok bytes)
      | None => (MkProxyState cache (asked s ++ [apex_name]), Err (PeNameNotFound apex_name))
      end
  end.

Definition zone_of_payload (payload : bytes) : Result ProxyRouteError NrsZone :=
  record ← ok_or (envelope_from_slice payload) PeInvalidPayload;
  bail_if (negb is_dev_mode && is_err (envelope_verify_signature record network_salt)) PeSecurityViolation;;
  map_err (fun _ => PeInvalidPayload) (zone_parse_payload (envelope_embedded_nrs record)).

Definition proxy_subname (current_name apex_name : bytes) : bytes :=
  if bool_decide (current_name = apex_name) then AT
  else
    let subname := trim_end_matches [DOT] (trim_end_matches (DOT :: apex_name) current_name) in
    if bool_decide (subname = []) then AT else subname.

(** The first record that routes. *)
Fixpoint scan_records (records : list NrsEntry) : option Destination :=
  match records with
  | [] => None
  | EntA ip :: _ => Some (DsAddress (IpV4 ip))
  | EntAAAA ip :: _ => Some (DsAddress (IpV6 ip))
  | EntPeerId peer_id :: _ => Some (DsText peer_id)
  | EntCNAME target :: _ => Some (DsCname target)
  | EntIPFS cid :: _ => Some (DsText (IPFS_SCHEME ++ cid))
  | _ :: records => scan_records records
  end.

Definition scan_zone (current_name : bytes) (payload : bytes) : Result ProxyRouteError (option Destination) :=
  zone ← zone_of_payload payload;
  let subname := proxy_subname current_name (extract_apex_name current_name) in
  records ← ok_or (zone !! subname) (PeNameNotFound subname);
  Ok (scan_records records).

(** The loop over aliases; an external alias is handed to the web bridge. *)
Fixpoint resolve_loop (fuel : nat) (env : ProxyEnv) (now : Z) (name current_name : bytes) (s : ProxyState)
  : ProxyState * Result ProxyRouteError Destination :=
  match fuel with
  | O => (s, Err (PeNameNotFound name))
  | S fuel =>
      match fetch_payload env now (extract_apex_name current_name) s with
      | (s, Err e) => (s, Err e)
      | (s, Ok payload) =>
          match scan_zone current_name payload with
          | Err e => (s, Err e)
          | Ok (Some (DsCname target)) =>
              if ends_with NSP_SUFFIX target then resolve_loop fuel env now name target s
              else (s, Ok (DsCname target))
          | Ok (Some (DsText [])) | Ok None => (s, Err (PeNameNotFound name))
          | Ok (Some d) => (s, Ok d)
          end
      end
  end.

(** ** Headers and bodies *)

Definition header_get (name : bytes) (headers : list (bytes * bytes)) : option bytes :=
  value ← assoc_get headers name; header_to_str value.
Definition HOST : bytes := bs "host".

Definition path_of (req : HttpRequest) : bytes := default (bs "/") (hq_path_and_query req).

(** [uri.port_u16()], or the port of the [Host] header, or 80. *)
Definition original_port (req : HttpRequest) : Z :=
  match hq_uri_port req with
  | Some p => p
  | None =>
      default 80 (host ← header_get HOST (hq_headers req);
                  port ← split_on COLON host !! 1%nat;
                  parse_u16 port)
  end.

Definition HOP_BY_HOP : list bytes :=
  map bs ["connection"; "keep-alive"; "proxy-authenticate"; "proxy-authorization"; "te"; "trailer";
          "transfer-encoding"; "upgrade"; "host"]%string.
Definition STRIPPED_FOR_PEER : list bytes :=
  map bs ["authorization"; "cookie"; "x-api-key"; "proxy-authorization"; "connection"; "keep-alive"; "te"; "trailer";
          "transfer-encoding"; "upgrade"]%string.

Definition without (names : list bytes) (headers : list (bytes * bytes)) : list (bytes * bytes) :=
  filter (fun kv => to_lowercase kv.1 ∉ names) headers.

(** Frames that fail are skipped. *)
Definition read_body_lossy (req : HttpRequest) : Result ProxyRouteError bytes :=
  ok_or (collect_body LIMITS_PROXY_MAX_BODY_BYTES (hq_frames req) []) PeInvalidPayload.

(** The limit of the peer protocol; a frame that fails ends the request. *)
Definition PEER_BODY_LIMIT : Z := 1048576.
Definition read_body_strict (req : HttpRequest) : Result ProxyRouteError bytes :=
  frames ← ok_or (mapM id (hq_frames req)) PeInvalidPayload;
  ok_or (collect_body PEER_BODY_LIMIT (map Some frames) []) PeInvalidPayload.

(** ** Routes *)

Definition ip_is_loopback (ip : IpAddr) : bool :=
  match ip with IpV4 v4 => v4_is_loopback v4 | IpV6 v6 => v6_is_loopback v6 end.
Definition ip_is_unspecified (ip : IpAddr) : bool :=
  match ip with IpV4 v4 => v4_is_unspecified v4 | IpV6 v6 => v6_is_unspecified v6 end.

Definition internal_port (p : Z) : bool :=
  existsb (Z.eqb p) [proxy_port ports; api_port ports; nrs_port ports; backend_port ports; daemon_port ports; pac_port ports].

Definition is_dangerous (ip : IpAddr) : bool := is_err (validate_ssrf_safe ip) || ip_is_unspecified ip.

Definition forward_to_ip (req : HttpRequest) (name : bytes) (ip_addr : IpAddr) : Result ProxyRouteError OutCall :=
  let port := original_port req in
  bail_if ((ip_is_loopback ip_addr || ip_is_unspecified ip_addr) && internal_port port) PeOther;;
  let is_ssrf := is_dangerous ip_addr in
  bail_if (is_ssrf && negb is_dev_mode) PeSecurityViolation;;
  body ← read_body_lossy req;
  Ok (OcAddress (negb is_ssrf) ip_addr (if negb is_ssrf && (port =? 80) then 443 else port) (hq_method req) (path_of req)
        (without HOP_BY_HOP (hq_headers req) ++ [(bs "Host", name); (bs "X-Kinetic-Loop-Protect", node_peer_id)]) body).

Definition clean_target_domain (target : bytes) : bytes := before_colon target.

(** The first address alone is looked at, and it is the one that is used.  The body
    is not sent. *)
Definition forward_to_web2_backend (env : ProxyEnv) (req : HttpRequest) (target_domain : bytes)
  : Result ProxyRouteError OutCall :=
  let target := clean_target_domain target_domain in
  addrs ← ok_or (lookup_host env (target ++ bs ":443")) (PeNameNotFound target);
  ip_addr ← ok_or (head addrs) (PeNameNotFound target);
  bail_if (is_dangerous ip_addr) PeSecurityViolation;;
  Ok (OcWebHost target ip_addr (hq_method req) (path_of req)
        (filter (fun kv => kv.1 <> HOST) (hq_headers req) ++ [(bs "Host", target)])).

(** [HeaderMap::insert] *)
Fixpoint header_insert (headers : list (bytes * bytes)) (kv : bytes * bytes) : list (bytes * bytes) :=
  match headers with
  | [] => [kv]
  | h :: headers => if bool_decide (h.1 = kv.1) then kv :: headers else h :: header_insert headers kv
  end.

Definition gateways : list bytes :=
  filter (fun g => g <> []) (map (fun s => trim_end_matches (bs "/") (trim s)) (split_on 44 (ipfs_gateway ports))).

Definition ipfs_url (cid path gateway : bytes) : bytes :=
  if bool_decide (path = []) then gateway ++ bs "/" ++ cid else gateway ++ bs "/" ++ cid ++ bs "/" ++ path.

Definition forward_to_ipfs (req : HttpRequest) (cid : bytes) : Result ProxyRouteError OutCall :=
  let path := trim_start_matches (bs "/") (path_of req) in
  let req_headers := fold_left header_insert (filter (fun kv => kv.1 <> HOST) (hq_headers req)) [] in
  body ← read_body_lossy req;
  bail_if (bool_decide (gateways = [])) PeOther;;
  Ok (OcIpfs (map (ipfs_url cid path) gateways) (hq_method req) req_headers body).

Definition forward_to_p2p (env : ProxyEnv) (req : HttpRequest) (name peer_id : bytes) : Result ProxyRouteError OutCall :=
  let peer_id :=
    match resolve_host_route env (peer_to_string peer_id) with
    | Some record => default peer_id (peer_from_str (current_peer_id record))
    | None => peer_id
    end in
  let headers := omap (fun kv => v ← header_to_str kv.2; Some (to_lowercase kv.1, v))
                   (without (HOST :: STRIPPED_FOR_PEER) (hq_headers req)) in
  body ← read_body_strict req;
  Ok (OcPeer peer_id (MkProxyRequest (hq_method req) (path_of req) (headers ++ [(HOST, name)]) body)).

(** [<SocketAddr as FromStr>], for its address. *)
Definition parse_socket_addr (s : bytes) : option IpAddr :=
  let port rest := '(_, rest) ← read_number 10 65535 (length rest) true rest;
                   if bool_decide (rest = []) then Some tt else None in
  match ('(ip, rest) ← read_ipv4_addr s; rest ← read_given_char COLON rest; port rest;; Some (IpV4 ip)) with
  | Some ip => Some ip
  | None =>
      rest ← read_given_char 91 s;
      '(ip, rest) ← read_ipv6_addr rest;
      let rest := match (r ← read_given_char 37 rest; read_number 10 4294967295 (length r) true r) with
                  | Some (_, rest) => rest
                  | None => rest
                  end in
      rest ← read_given_char 93 rest;
      rest ← read_given_char COLON rest;
      port rest;; Some (IpV6 ip)
  end.

Definition forward_text (env : ProxyEnv) (req : HttpRequest) (name text : bytes) : Result ProxyRouteError OutCall :=
  if starts_with IPFS_SCHEME text then forward_to_ipfs req (trim_start_matches IPFS_SCHEME text)
  else
    match parse_ip_addr text with
    | Some ip => forward_to_ip req name ip
    | None =>
        match parse_socket_addr text with
        | Some ip => forward_to_ip req name ip
        | None =>
            match peer_from_str text with
            | Some peer_id => forward_to_p2p env req name peer_id
            | None => Err PeInvalidPayload
            end
        end
    end.

Definition MAX_ALIASES : nat := 10.

Definition forward_to_backend_direct (env : ProxyEnv) (now : Z) (req : HttpRequest) (name : bytes) (s : ProxyState)
  : ProxyState * Result ProxyRouteError OutCall :=
  match resolve_loop MAX_ALIASES env now name name s with
  | (s, Err e) => (s, Err e)
  | (s, Ok (DsCname target)) => (s, forward_to_web2_backend env req target)
  | (s, Ok (DsAddress ip)) => (s, forward_to_ip req name ip)
  | (s, Ok (DsText text)) => (s, forward_text env req name text)
  end.

(** ** The answers that go back to the browser *)

Record WebResponse := MkWebResponse { wr_status : Z; wr_headers : list (bytes * bytes); wr_body : list bytes }.

Definition HSTS : bytes := bs "strict-transport-security".
Definition LOCATION : bytes := bs "location".

Definition ip_response (r : WebResponse) : WebResponse :=
  MkWebResponse (wr_status r) (without (HOP_BY_HOP ++ [HSTS]) (wr_headers r)) (wr_body r).

Definition rewrite_location_header (loc_str target_domain_clean original_host : bytes) : option bytes :=
  if contains target_domain_clean loc_str then Some (replace_all target_domain_clean original_host loc_str) else None.

Definition web2_header (target original_host : bytes) (kv : bytes * bytes) : option (bytes * bytes) :=
  let header_name := to_lowercase kv.1 in
  if bool_decide (header_name = HSTS) then None
  else if bool_decide (header_name = LOCATION) then
    match (loc ← header_to_str kv.2; new_loc ← rewrite_location_header loc target original_host; header_from_str new_loc) with
    | Some new_val => Some (kv.1, new_val)
    | None => Some kv
    end
  else Some kv.

Definition original_host (req : HttpRequest) (target_domain : bytes) : bytes :=
  default target_domain (header_get HOST (hq_headers req)).

Definition web2_response (req : HttpRequest) (target_domain : bytes) (r : WebResponse) : WebResponse :=
  MkWebResponse (wr_status r)
    (omap (web2_header (clean_target_domain target_domain) (original_host req target_domain)) (wr_headers r)) (wr_body r).

(** The gateways in turn: the addresses that were asked, and the answer; one that
    is not reached answers [None]. *)
Definition gateway_failed (r : WebResponse) : bool := ((500 <=? wr_status r) && (wr_status r <? 600)) || (wr_status r =? 404).
Fixpoint ipfs_loop (send : bytes -> option WebResponse) (urls : list bytes) : list bytes * Result ProxyRouteError WebResponse :=
  match urls with
  | [] => ([], Err PePeerUnreachable)
  | url :: urls =>
      match send url with
      | Some r =>
          if gateway_failed r then let '(tried, a) := ipfs_loop send urls in (url :: tried, a)
          else ([url], Ok (MkWebResponse (wr_status r) (without [HSTS] (wr_headers r)) (wr_body r)))
      | None => let '(tried, a) := ipfs_loop send urls in (url :: tried, a)
      end
  end.

Definition STRIPPED_FROM_PEER : list bytes :=
  map bs ["strict-transport-security"; "public-key-pins"; "connection"; "keep-alive"; "te"; "trailer"; "transfer-encoding";
          "upgrade"]%string.
(** The answer of a peer that is no HTTP response fails the request. *)
Definition p2p_response (r : ProxyResponse) : Result ProxyRouteError WebResponse :=
  let headers := without STRIPPED_FROM_PEER (px_res_headers r) in
  bail_if (negb (status_valid (px_status r)) || negb (forallb header_valid headers)) PeOther;;
  Ok (MkWebResponse (px_status r) headers [px_res_body r]).

(** ** The entry *)

Inductive ProxyOutcome :=
  | PoStatus (status : Z)
  | PoTunnel (raw_host full_name : bytes)
  | PoSend (call : OutCall).

Definition LOOP_HEADER : bytes := bs "x-kinetic-loop-protect".
Definition CONNECT : bytes := bs "CONNECT".

Definition handle_proxy_request (env : ProxyEnv) (now : Z) (req : HttpRequest) (s : ProxyState)
  : ProxyState * ProxyOutcome :=
  if bool_decide (header_get LOOP_HEADER (hq_headers req) = Some node_peer_id) then (s, PoStatus 508)
  else if bool_decide (hq_method req = CONNECT) then
    let raw_host := default [] (hq_uri_host req) in
    let full_name := normalize_name raw_host in
    if negb (ends_with NSP_SUFFIX full_name) then (s, PoStatus 403) else (s, PoTunnel raw_host full_name)
  else
    let host := default [] (before_colon <$> header_get HOST (hq_headers req)) in
    let host_name := normalize_name host in
    if negb (ends_with NSP_SUFFIX host_name) then (s, PoStatus 502)
    else
      match forward_to_backend_direct env now req host_name s with
      | (s, Ok call) => (s, PoSend call)
      | (s, Err e) => (s, PoStatus (plain_status e))
      end.

(** A request inside a tunnel, which was opened for [full_name]. *)
Definition handle_tunnel_request (env : ProxyEnv) (now : Z) (full_name : bytes) (req : HttpRequest) (s : ProxyState)
  : ProxyState * ProxyOutcome :=
  match forward_to_backend_direct env now req full_name s with
  | (s, Ok call) => (s, PoSend call)
  | (s, Err e) => (s, PoStatus (tunnel_status e))
  end.

End Sending.

(** ** Facts about bodies *)

Lemma collect_body_spec limit chunks body : len body <= limit ->
  collect_body limit chunks body =
    if len (body ++ concat (omap id chunks)) <=? limit then Some (body ++ concat (omap id chunks)) else None.
Proof.
  revert body. induction chunks as [|[chunk|] chunks IH]; intros body Hb; cbn.
  - rewrite app_nil_r. replace (len body <=? limit) with true by (symmetry; by apply Z.leb_le). done.
  - rewrite app_assoc. destruct (len (body ++ chunk) >? limit) eqn:E.
    + apply Z.gtb_lt in E. rewrite len_app. pose proof (len_nonneg (concat (omap id chunks))).
      replace (_ <=? limit) with false by (symmetry; apply Z.leb_gt; lia). done.
    + rewrite Z.gtb_ltb in E. apply Z.ltb_ge in E. by apply IH.
  - by apply IH.
Qed.

Lemma collect_body_bound limit chunks body : 0 <= limit -> collect_body limit chunks [] = Some body -> len body <= limit.
Proof.
  intros Hl H. rewrite collect_body_spec in H by (by rewrite len_nil). rewrite app_nil_l in H.
  destruct (_ <=? limit) eqn:E; [|done]. apply (inj Some) in H as <-. by apply Z.leb_le.
Qed.

(** Answers of the local web server, at both ends: what arrives of the body is
    returned with the status and the headers when it is within the limit, whatever
    chunks were lost; otherwise, and when there is no answer, the reply is an error. *)
Theorem reply_bounded `{UnicodeCase} local_port status headers chunks :
  let body := concat (omap id chunks) in
  let fits := len body <=? LIMITS_PROXY_MAX_BODY_BYTES in
  let kept := filter (fun kv => to_lowercase kv.1 ∉ STRIPPED_BY_HOST) headers in
  daemon_reply local_port (BaResponse status headers chunks) =
    (if fits then MkProxyResponse status headers body else MkProxyResponse 502 headers (security_text BackendResponseTooLarge)) /\
  host_reply local_port (BaResponse status headers chunks) =
    (if fits then MkProxyResponse status kept body else MkProxyResponse 502 kept (security_text BackendResponseTooLarge)).
Proof.
  cbv zeta. unfold daemon_reply, host_reply, bounded_response.
  rewrite collect_body_spec, app_nil_l by (vm_compute; discriminate). by destruct (_ <=? _).
Qed.

(** ** Facts about the sending end *)

Section SendingFacts.
Context {HUni : UnicodeCase} {HHttp : HttpText} {HSha : Sha2} {HSig : MlDsa} {HCod : Codecs} {HJcs : Jcs}
  {HSerde : Serde} {HOrd : HashOrder} {HNrs : NrsJson} {HPeer : PeerIds} {HStr : PeerStrings} {HLru : LruCache}
  {HLaws : LruLaws}.
Variables (is_dev_mode : bool) (network_salt : bytes) (ports : DaemonPorts) (node_peer_id : bytes).
#[local] Notation direct := (forward_to_backend_direct is_dev_mode network_salt ports node_peer_id).
#[local] Notation loop := (resolve_loop is_dev_mode network_salt).

Lemma loopback_dangerous ip : ip_is_loopback ip = true -> is_dangerous ip = true.
Proof. destruct ip as [v4|v6]; cbn; unfold is_dangerous; cbn; unfold validate_ssrf_safe_v4, validate_ssrf_safe_v6; by intros ->. Qed.

Lemma not_dangerous ip : is_dangerous ip = false <-> validate_ssrf_safe ip = Ok tt /\ ip_is_unspecified ip = false.
Proof. unfold is_dangerous. by rewrite orb_false_iff, is_err_unit. Qed.

(** What a request that leaves the proxy may reach. *)
Definition call_safe (call : OutCall) : Prop :=
  match call with
  | OcAddress https ip port _ _ _ body =>
      https = negb (is_dangerous ip) /\ (https = true -> port <> 80) /\ len body <= LIMITS_PROXY_MAX_BODY_BYTES /\
      (is_dev_mode = false -> validate_ssrf_safe ip = Ok tt /\ ip_is_unspecified ip = false) /\
      (ip_is_loopback ip = true \/ ip_is_unspecified ip = true -> internal_port ports port = false)
  | OcWebHost _ ip _ _ _ => validate_ssrf_safe ip = Ok tt /\ ip_is_unspecified ip = false
  | OcIpfs urls _ _ body =>
      urls <> [] /\ Forall (fun url => exists gateway, gateway ∈ gateways ports /\ gateway ++ bs "/" `prefix_of` url) urls /\
      len body <= LIMITS_PROXY_MAX_BODY_BYTES
  | OcPeer _ req => Forall (fun kv => kv.1 ∉ STRIPPED_FOR_PEER) (px_headers req) /\ len (px_body req) <= PEER_BODY_LIMIT
  end.

Lemma read_body_lossy_ok req body : read_body_lossy req = Ok body -> len body <= LIMITS_PROXY_MAX_BODY_BYTES.
Proof. unfold read_body_lossy. rewrite ok_or_ok. apply collect_body_bound. vm_compute. discriminate. Qed.

Lemma forward_to_ip_safe req name ip call :
  forward_to_ip is_dev_mode ports node_peer_id req name ip = Ok call -> call_safe call.
Proof.
  unfold forward_to_ip. cbv zeta. rewrite !bail_if_ok. intros (Hi & Hd & H). apply bind_ok in H as (body & Hb & H).
  apply Ok_inj in H as <-. apply read_body_lossy_ok in Hb. cbn -[LIMITS_PROXY_MAX_BODY_BYTES].
  assert (He : ip_is_loopback ip = true \/ ip_is_unspecified ip = true -> is_dangerous ip = true).
  { intros [|E]; [by apply loopback_dangerous|]. unfold is_dangerous. by rewrite E, orb_true_r. }
  split; [done|]. split; [|split; [done|split]].
  - intros ->. cbn. destruct (Z.eqb_spec (original_port req) 80); lia.
  - intros ->. rewrite andb_true_r in Hd. by apply not_dangerous.
  - intros Hl. rewrite (He Hl). cbn. rewrite andb_false_iff, orb_false_iff in Hi.
    destruct Hi as [[E1 E2]|?]; [|done]. destruct Hl; congruence.
Qed.

Lemma forward_to_web2_safe env req target call :
  forward_to_web2_backend env req target = Ok call -> call_safe call.
Proof.
  unfold forward_to_web2_backend. cbv zeta. intros H. apply bind_ok in H as (addrs & _ & H).
  apply bind_ok in H as (ip & _ & H). rewrite bail_if_ok in H. destruct H as [Hd H]. apply Ok_inj in H as <-.
  by apply not_dangerous.
Qed.

Lemma ipfs_urls cid path :
  Forall (fun url => exists gateway, gateway ∈ gateways ports /\ gateway ++ bs "/" `prefix_of` url)
    (map (ipfs_url cid path) (gateways ports)).
Proof.
  apply Forall_forall. intros url (g & -> & Hg)%list_elem_of_fmap. exists g. split; [done|].
  unfold ipfs_url. case_bool_decide; [exists cid|exists (cid ++ bs "/" ++ path)]; by rewrite <- !app_assoc.
Qed.

Lemma peer_headers req name :
  Forall (fun kv => kv.1 ∉ STRIPPED_FOR_PEER)
    (omap (fun kv => v ← header_to_str kv.2; Some (to_lowercase kv.1, v))
       (without (HOST :: STRIPPED_FOR_PEER) (hq_headers req)) ++ [(HOST, name)]).
Proof.
  apply Forall_app. split; [|repeat constructor; vm_compute; set_solver].
  apply Forall_forall. intros kv ([n v] & Hin & Hm)%list_elem_of_omap.
  apply list_elem_of_filter in Hin as [Hn _]. cbn in Hm, Hn.
  destruct (header_to_str v); [|done]. injection Hm as <-. cbn. set_solver.
Qed.

Lemma forward_text_safe env req name text call :
  forward_text is_dev_mode ports node_peer_id env req name text = Ok call -> call_safe call.
Proof.
  unfold forward_text. destruct (starts_with _ _).
  { unfold forward_to_ipfs. cbv zeta. intros H. apply bind_ok in H as (body & Hb & H). rewrite bail_if_ok in H.
    destruct H as [Hg H]. apply Ok_inj in H as <-. apply read_body_lossy_ok in Hb.
    split; [|split; [apply ipfs_urls|done]]. intros E%map_eq_nil. rewrite bool_decide_eq_true_2 in Hg; done. }
  destruct (parse_ip_addr text) as [ip|]; [apply forward_to_ip_safe|].
  destruct (parse_socket_addr text) as [ip|]; [apply forward_to_ip_safe|].
  destruct (peer_from_str text) as [peer_id|]; [|done].
  unfold forward_to_p2p. cbv zeta. intros H. apply bind_ok in H as (body & Hb & H). apply Ok_inj in H as <-.
  unfold read_body_strict in Hb. apply bind_ok in Hb as (frames & _ & Hb). rewrite ok_or_ok in Hb.
  split; [apply peer_headers|]. cbn. by apply collect_body_bound in Hb.
Qed.

Lemma direct_safe env now req name s s' call : direct env now req name s = (s', Ok call) -> call_safe call.
Proof.
  unfold forward_to_backend_direct. destruct (resolve_loop _ _ _ _ _ _ _ _) as [s1 [[ip|text|target]|e]]; intros [= -> E].
  - by eapply forward_to_ip_safe.
  - by eapply forward_text_safe.
  - by eapply forward_to_web2_safe.
Qed.

(** C18: requests to other machines, by where they go.  To an address: over TLS
    exactly when the address is routed globally, and then not to port 80; a
    production node sends to no other address; a port of the node itself is not
    reached over the loopback interface or the unspecified address.  To a host
    of the web: at an address routed globally, in both modes.  To IPFS: only
    under the configured gateways.  To a peer: without the headers that carry
    credentials or belong to the connection.  The address of a gateway or a peer
    is not checked.  The body is within the limit of the route. *)
Theorem proxied_address_safe env now full_name req s s' call :
  handle_proxy_request is_dev_mode network_salt ports node_peer_id env now req s = (s', PoSend call) \/
  handle_tunnel_request is_dev_mode network_salt ports node_peer_id env now full_name req s = (s', PoSend call) ->
  match call with
  | OcAddress https ip port _ _ _ body =>
      https = negb (is_dangerous ip) /\ (https = true -> port <> 80) /\ len body <= LIMITS_PROXY_MAX_BODY_BYTES /\
      (is_dev_mode = false -> validate_ssrf_safe ip = Ok tt /\ ip_is_unspecified ip = false) /\
      (ip_is_loopback ip = true \/ ip_is_unspecified ip = true -> internal_port ports port = false)
  | OcWebHost _ ip _ _ _ => validate_ssrf_safe ip = Ok tt /\ ip_is_unspecified ip = false
  | OcIpfs urls _ _ body =>
      urls <> [] /\ Forall (fun url => exists gateway, gateway ∈ gateways ports /\ gateway ++ bs "/" `prefix_of` url) urls /\
      len body <= LIMITS_PROXY_MAX_BODY_BYTES
  | OcPeer _ req => Forall (fun kv => kv.1 ∉ STRIPPED_FOR_PEER) (px_headers req) /\ len (px_body req) <= PEER_BODY_LIMIT
  end.
Proof.
  intros H. change (call_safe call).
  assert (exists name, direct env now req name s = (s', Ok call)) as [name Hd]; [|by apply direct_safe in Hd].
  destruct H as [H|H].
  - unfold handle_proxy_request in H. cbv zeta in H. repeat (case_match; try discriminate H).
    all: injection H as -> ->; eauto.
  - unfold handle_tunnel_request in H. exists full_name. repeat (case_match; try discriminate H). by injection H as -> ->.
Qed.

(** ** The names that are proxied *)

(** The names a browser asks for.  The proxy gives every host the network's
    suffix, so that none is outside of it: a plain request is answered 502 only
    when the routing fails, a tunnel is opened for every host, and a host of the
    web is looked up as a name of the network. *)
Theorem every_host_proxied env now req s :
  header_get LOOP_HEADER (hq_headers req) <> Some node_peer_id ->
  let host := default [] (before_colon <$> header_get HOST (hq_headers req)) in
  let raw_host := default [] (hq_uri_host req) in
  handle_proxy_request is_dev_mode network_salt ports node_peer_id env now req s =
    if bool_decide (hq_method req = CONNECT) then (s, PoTunnel raw_host (normalize_name raw_host))
    else ((direct env now req (normalize_name host) s).1,
          match (direct env now req (normalize_name host) s).2 with
          | Ok call => PoSend call
          | Err e => PoStatus (plain_status e)
          end).
Proof.
  intros Hl. cbv zeta. unfold handle_proxy_request. rewrite bool_decide_eq_false_2 by done.
  assert (Hs : forall n, ends_with NSP_SUFFIX (normalize_name n) = true).
  { intros n. apply ends_with_true, normalize_name_suffix. }
  cbv zeta. rewrite !Hs. case_bool_decide; [done|]. cbn -[forward_to_backend_direct normalize_name].
  by destruct (direct _ _ _ _ _) as [s' [call|e]].
Qed.

(** ** Resolution *)

(** The payloads a resolution may use: those in the cache and those the network gives. *)
Definition served (env : ProxyEnv) (s : ProxyState) (payload : bytes) : Prop :=
  (exists name t, lru_view (dns_cache s) !! name = Some (payload, t)) \/ (exists n name, pe_resolve env n name = Some payload).

Lemma lru_put_source (c : Lru (bytes * Z)) k v name e :
  lru_view (lru_put c k v) !! name = Some e -> lru_view c !! name = Some e \/ e = v.
Proof.
  unfold lru_put. pose proof (lru_push_view c k v) as H. destruct (lru_push c k v).2 as [[k' v']|].
  1: destruct H as [_ H].
  all: rewrite H, lookup_insert; case_decide; [naive_solver|]; rewrite ?lookup_delete_Some; naive_solver.
Qed.

Lemma lru_put_here (c : Lru (bytes * Z)) k v : lru_view (lru_put c k v) !! k = Some v.
Proof.
  unfold lru_put. pose proof (lru_push_view c k v) as H. destruct (lru_push c k v).2 as [[k' v']|].
  1: destruct H as [_ H].
  all: by rewrite H, lookup_insert_eq.
Qed.

Lemma asked_nothing (asked : list bytes) n : exists l, asked = asked ++ l /\ (length l <= n)%nat.
Proof. exists []. rewrite app_nil_r. split; [done|]. cbn. lia. Qed.

Lemma fetch_payload_facts env now apex s s' r : fetch_payload env now apex s = (s', r) ->
  (exists l, asked s' = asked s ++ l /\ (length l <= 1)%nat) /\
  (forall p, r = Ok p -> served env s p) /\ (forall p, served env s' p -> served env s p).
Proof.
  unfold fetch_payload, dns_cache_get. destruct (lru_get _ _) as [c hit] eqn:Eg.
  pose proof (lru_get_value (dns_cache s) apex) as Hv. pose proof (lru_get_view (dns_cache s) apex) as Hw.
  rewrite Eg in Hv, Hw. cbn in Hv, Hw.
  assert (Hkeep : forall a p, served env (MkProxyState c a) p -> served env s p).
  { intros a p [(n & t & E)|H]; [|by right]. left. exists n, t. cbn in E. by rewrite Hw in E. }
  destruct hit as [[payload t]|]; [destruct (now - t <=? DNS_CACHE_TTL)|].
  1: { intros H. injection H as <- <-. split; [apply asked_nothing|]. split; [|by apply Hkeep].
       intros p E. apply Ok_inj in E as <-. left. by exists apex, t. }
  all: destruct (pe_resolve env _ apex) as [b|] eqn:Er; intros H; injection H as <- <-.
  all: split; [exists [apex]; by split|].
  all: split; [intros p E; try discriminate E; apply Ok_inj in E as <-; right; eauto|].
  all: try apply Hkeep.
  all: intros p [(n & u & E)|H]; [|by right]; unfold dns_cache_insert in E; cbn in E.
  all: apply lru_put_source in E as [E|E]; [left; exists n, u; by rewrite <- Hw|].
  all: injection E as -> _; right; eauto.
Qed.

Lemma zone_of_payload_ok payload zone : zone_of_payload is_dev_mode network_salt payload = Ok zone ->
  exists record, envelope_from_slice payload = Some record /\
    (is_dev_mode = false -> envelope_verify_signature record network_salt = Ok tt) /\
    zone_parse_payload (envelope_embedded_nrs record) = Ok zone.
Proof.
  unfold zone_of_payload. intros H. apply bind_ok in H as (record & He & H). rewrite ok_or_ok in He.
  rewrite bail_if_ok, map_err_ok in H. destruct H as [Hv Hz]. exists record. split; [done|]. split; [|done].
  intros ->. by apply is_err_unit.
Qed.

Lemma resolve_loop_facts fuel env now name current s s' r : loop fuel env now name current s = (s', r) ->
  (exists l, asked s' = asked s ++ l /\ (length l <= fuel)%nat) /\
  (forall d, r = Ok d -> exists payload zone subname records,
     served env s payload /\ zone_of_payload is_dev_mode network_salt payload = Ok zone /\
     zone !! subname = Some records /\ scan_records records = Some d).
Proof.
  revert current s. induction fuel as [|fuel IH]; intros current s; cbn [resolve_loop].
  { intros H. injection H as <- <-. split; [apply asked_nothing|done]. }
  destruct (fetch_payload _ _ _ _) as [s1 [payload|e]] eqn:Ef; apply fetch_payload_facts in Ef as ((l & Hl & Hn) & Hp & Hs).
  2: { intros H. injection H as <- <-. split; [exists l; split; [done|lia]|done]. }
  specialize (Hp payload eq_refl).
  assert (Hhere : exists l, asked s1 = asked s ++ l /\ (length l <= S fuel)%nat) by (exists l; split; [done|lia]).
  destruct (scan_zone _ _ _ _) as [o|e] eqn:Ez.
  2: { intros H. injection H as <- <-. by split. }
  unfold scan_zone in Ez. apply bind_ok in Ez as (zone & Hz & Ez). cbv zeta in Ez.
  apply bind_ok in Ez as (records & Hr & Ez). rewrite ok_or_ok in Hr. apply Ok_inj in Ez.
  assert (Hfound : forall d, o = Some d -> exists payload zone subname records,
     served env s payload /\ zone_of_payload is_dev_mode network_salt payload = Ok zone /\
     zone !! subname = Some records /\ scan_records records = Some d).
  { intros d ->. exists payload, zone, (proxy_subname current (extract_apex_name current)), records. done. }
  destruct o as [[ip|[|c text]|target]|]; [| | |destruct (ends_with _ _)|].
  4: { intros H. apply IH in H as ((l' & Hl' & Hn') & Hd). split.
       - exists (l ++ l'). rewrite Hl', Hl, app_assoc. split; [done|]. rewrite length_app. lia.
       - intros d Ed. destruct (Hd d Ed) as (p & z & n & rs & Hsv & Hrest). exists p, z, n, rs. split; [by apply Hs|done]. }
  all: intros H; injection H as <- <-; split; [done|]; intros d Ed; try discriminate Ed.
  all: apply Ok_inj in Ed as <-; by apply Hfound.
Qed.

(** C19: where a request of the browser is sent.  The network is asked at most ten
    times whatever the aliases say, and a request that leaves follows the first
    record that routes of a zone whose envelope, in production, verifies. *)
Theorem proxied_target_signed env now req name s s' r : direct env now req name s = (s', r) ->
  (exists l, asked s' = asked s ++ l /\ (length l <= 10)%nat) /\
  (forall call, r = Ok call -> exists payload record zone subname records d,
     ((exists n t, lru_view (dns_cache s) !! n = Some (payload, t)) \/ (exists i n, pe_resolve env i n = Some payload)) /\
     envelope_from_slice payload = Some record /\
     (is_dev_mode = false -> envelope_verify_signature record network_salt = Ok tt) /\
     zone_parse_payload (envelope_embedded_nrs record) = Ok zone /\
     zone !! subname = Some records /\ scan_records records = Some d /\
     match d with
     | DsAddress ip => forward_to_ip is_dev_mode ports node_peer_id req name ip
     | DsText text => forward_text is_dev_mode ports node_peer_id env req name text
     | DsCname target => forward_to_web2_backend env req target
     end = Ok call).
Proof.
  unfold forward_to_backend_direct. destruct (resolve_loop _ _ _ _ _ _ _ _) as [s1 r1] eqn:El.
  apply resolve_loop_facts in El as [Hl Hd]. intros H. assert (s1 = s') as -> by (destruct r1 as [[]|]; by injection H).
  split; [exact Hl|]. intros call ->. destruct r1 as [d|e]; [|discriminate H].
  destruct (Hd d eq_refl) as (payload & zone & subname & records & Hs & Hz & Hr & Hc).
  apply zone_of_payload_ok in Hz as (record & He & Hv & Hz).
  exists payload, record, zone, subname, records, d. repeat (split; [done|]). by destruct d; injection H.
Qed.

(** ** The cache keeps what does not verify *)

Lemma fetch_payload_hit env now apex s payload t :
  lru_view (dns_cache s) !! apex = Some (payload, t) -> now - t <= DNS_CACHE_TTL ->
  fetch_payload env now apex s = (MkProxyState (lru_get (dns_cache s) apex).1 (asked s), Ok payload).
Proof.
  intros Hv Ht. unfold fetch_payload, dns_cache_get. pose proof (lru_get_value (dns_cache s) apex) as Hg.
  destruct (lru_get _ _) as [c hit]. cbn in Hg. rewrite Hg, Hv. by apply Z.leb_le in Ht as ->.
Qed.

Lemma direct_first env now req name s payload s1 e :
  fetch_payload env now (extract_apex_name name) s = (s1, Ok payload) ->
  zone_of_payload is_dev_mode network_salt payload = Err e -> direct env now req name s = (s1, Err e).
Proof.
  intros Hf Hz. unfold forward_to_backend_direct, MAX_ALIASES. cbn [resolve_loop]. rewrite Hf.
  unfold scan_zone. by rewrite Hz.
Qed.

(** A forged answer.  The proxy caches a payload before it verifies it: one
    answer of the network that does not verify fails the request, and for five
    minutes every request for a name of that apex fails with the same error,
    without the network being asked again. *)
Theorem forged_answer_blocks_name env now req name s s' payload e :
  lru_view (dns_cache s) !! extract_apex_name name = None ->
  pe_resolve env (length (asked s)) (extract_apex_name name) = Some payload ->
  zone_of_payload is_dev_mode network_salt payload = Err e ->
  (direct env now req name s).1 = s' ->
  (direct env now req name s).2 = Err e /\
  forall env' now' req' name', extract_apex_name name' = extract_apex_name name -> now' - now <= DNS_CACHE_TTL ->
    exists s'', direct env' now' req' name' s' = (s'', Err e) /\ asked s'' = asked s' /\
      lru_view (dns_cache s'') = lru_view (dns_cache s').
Proof.
  intros Hn Hr Hz Hs. pose proof (lru_get_value (dns_cache s) (extract_apex_name name)) as Hg.
  assert (Hf : exists c, fetch_payload env now (extract_apex_name name) s =
    (MkProxyState (dns_cache_insert now c (extract_apex_name name) payload) (asked s ++ [extract_apex_name name]), Ok payload)).
  { unfold fetch_payload, dns_cache_get. destruct (lru_get _ _) as [c hit]. cbn in Hg. rewrite Hg, Hn. exists c. by rewrite Hr. }
  destruct Hf as [c Hf]. pose proof (direct_first env now req name s payload _ e Hf Hz) as Hd.
  rewrite Hd in Hs |- *. cbn in Hs. subst s'. split; [done|]. intros env' now' req' name' En Ht.
  eexists. split; [|split].
  - eapply direct_first; [|exact Hz]. rewrite En. eapply fetch_payload_hit; [|exact Ht].
    apply lru_put_here.
  - done.
  - cbn. apply lru_get_view.
Qed.

End SendingFacts.

(** ** Facts about the answers *)

(** IPFS.  The gateways are asked in the order of the configuration until one
    answers with something else than a server error or 404, and its answer is what
    the browser gets; when none does, every one was asked and the request fails. *)
Theorem ipfs_gateways_in_turn `{UnicodeCase} send urls :
  let skipped url := match send url with Some r => gateway_failed r = true | None => True end in
  (exists before url after r, urls = before ++ url :: after /\ Forall skipped before /\
     send url = Some r /\ gateway_failed r = false /\
     ipfs_loop send urls =
       (before ++ [url], Ok (MkWebResponse (wr_status r) (without [HSTS] (wr_headers r)) (wr_body r)))) \/
  (Forall skipped urls /\ ipfs_loop send urls = (urls, Err PePeerUnreachable)).
Proof.
  cbv zeta. induction urls as [|url urls IH]; [by right|]. cbn [ipfs_loop].
  assert (Hskip : match send url with Some r => gateway_failed r = true | None => True end ->
    ipfs_loop send (url :: urls) = (url :: (ipfs_loop send urls).1, (ipfs_loop send urls).2)).
  { cbn [ipfs_loop]. destruct (ipfs_loop send urls), (send url); [by intros ->|done]. }
  destruct (send url) as [r|] eqn:Es; [destruct (gateway_failed r) eqn:Ef|].
  2: { left. exists [], url, urls, r. done. }
  all: specialize (Hskip ltac:(done)); cbn [ipfs_loop] in Hskip; rewrite Es, ?Ef in Hskip; rewrite Hskip; clear Hskip.
  all: destruct IH as [(before & u & after & r' & -> & Hb & Hu & Hf & ->)|[Hs ->]]; [left|right].
  all: try (exists (url :: before), u, after, r'; split; [done|split; [|done]]).
  all: try split; try done; constructor; by rewrite ?Es.
Qed.

Lemma starts_with_short p u v : (length p <= length u)%nat -> starts_with p (u ++ v) = true -> starts_with p u = true.
Proof.
  intros Hl H. apply starts_with_true in H as [t H]. apply starts_with_true. exists (drop (length p) u).
  apply (f_equal (take (length p))) in H. rewrite take_app_length, take_app_le in H by done.
  rewrite <- (take_drop (length p) u) at 1. by rewrite H.
Qed.

Lemma replace_none fuel p q s : contains p s = false -> (length s <= fuel)%nat -> replace_loop fuel p q s = s.
Proof.
  revert s. induction fuel as [|fuel IH]; intros [|c s] H Hl; cbn [replace_loop length] in *; try done; [lia|].
  cbn [contains] in H. apply orb_false_iff in H as [H1 H2]. rewrite H1, IH by (done || lia). done.
Qed.

Lemma replace_once fuel p q a b : p <> [] -> contains p (a ++ removelast p) = false -> contains p b = false ->
  (length (a ++ p ++ b) <= fuel)%nat -> replace_loop fuel p q (a ++ p ++ b) = a ++ q ++ b.
Proof.
  intros Hp. revert fuel. induction a as [|c a IH]; intros fuel Ha Hb Hl.
  - destruct p as [|x p]; [done|]. destruct fuel as [|fuel]; [cbn in Hl; lia|]. cbn [app replace_loop].
    change (x :: p ++ b) with ((x :: p) ++ b). rewrite starts_with_app, drop_app_length. f_equal.
    apply replace_none; [done|]. cbn in Hl. rewrite length_app in Hl. lia.
  - destruct fuel as [|fuel]; [cbn in Hl; lia|]. cbn [app replace_loop].
    assert (Hs : starts_with p (c :: a ++ p ++ b) = false).
    { apply not_true_iff_false. intros H. cbn [app contains] in Ha. apply orb_false_iff in Ha as [Ha _].
      destruct (exists_last Hp) as (p' & x & Ep).
      assert (Er : removelast p = p') by (rewrite Ep; apply removelast_last). rewrite Er in Ha.
      rewrite <- not_true_iff_false in Ha. apply Ha. apply (starts_with_short p (c :: a ++ p') ([x] ++ b)).
      - rewrite Ep. cbn. rewrite !length_app. cbn. lia.
      - rewrite <- H. f_equal. rewrite Ep, <- !app_comm_cons, <- !app_assoc. done. }
    rewrite Hs. f_equal. cbn [app contains] in Ha. apply orb_false_iff in Ha as [_ Ha]. apply IH; [done|done|].
    cbn in Hl. lia.
Qed.

Lemma contains_after a s p : contains p s = true -> contains p (a ++ s) = true.
Proof. induction a as [|c a IH]; [done|]. intros H. cbn. by rewrite IH, orb_true_r. Qed.

Lemma contains_prefix p s : contains p (p ++ s) = true.
Proof. destruct (p ++ s) as [|c t] eqn:E; cbn; rewrite <- E; by rewrite starts_with_app. Qed.

(** Redirects of a web host.  Wherever the text of the host occurs in the address
    it is replaced by the name the browser asked for, be it the host of the address,
    the end of another one, or a part of the path; other addresses are left alone. *)
Theorem redirect_rewritten `{UnicodeCase, HttpText} target original_host before after :
  target <> [] ->
  (forall h loc, to_lowercase h = LOCATION -> header_to_str loc = Some loc -> contains target loc = false ->
     web2_header target original_host (h, loc) = Some (h, loc)) /\
  (contains target (before ++ removelast target) = false -> contains target after = false ->
   forall h, to_lowercase h = LOCATION ->
     header_to_str (before ++ target ++ after) = Some (before ++ target ++ after) ->
     header_from_str (before ++ original_host ++ after) = Some (before ++ original_host ++ after) ->
     web2_header target original_host (h, before ++ target ++ after) = Some (h, before ++ original_host ++ after)).
Proof.
  intros Ht.
  assert (Hn : forall h : bytes, to_lowercase h = LOCATION -> to_lowercase h <> HSTS) by (intros h ->; discriminate).
  split.
  - intros h loc Hh Hv Hc. unfold web2_header. cbn [fst snd].
    rewrite bool_decide_eq_false_2, bool_decide_eq_true_2 by auto. rewrite Hv. cbn.
    unfold rewrite_location_header. by rewrite Hc.
  - intros Hb Ha h Hh Hv Hf. unfold web2_header. cbn [fst snd].
    rewrite bool_decide_eq_false_2, bool_decide_eq_true_2 by auto. rewrite Hv. cbn [mbind option_bind].
    unfold rewrite_location_header.
    assert (Hc : contains target (before ++ target ++ after) = true) by (apply contains_after, contains_prefix).
    rewrite Hc. cbn [mbind option_bind]. unfold replace_all. destruct target as [|x t]; [done|].
    rewrite replace_once by done. by rewrite Hf.
Qed.

(** ** Paths at the receiving end *)

(** A character that is no dot separates the occurrences of two dots. *)
Lemma no_dots_around s c t : contains (bs "..") s = false -> c <> DOT ->
  contains (bs "..") (s ++ c :: t) = contains (bs "..") t.
Proof.
  change (bs "..") with [DOT; DOT]. intros H Hc. assert (Hd : (DOT =? c) = false) by (apply Z.eqb_neq; congruence).
  induction s as [|a s IH]; cbn [contains starts_with app] in *.
  - by rewrite Hd.
  - apply orb_false_iff in H as [H1 H2]. rewrite IH by done. destruct s as [|b s]; cbn [starts_with app] in *.
    + by rewrite Hd, andb_false_r.
    + rewrite andb_true_r in *. by rewrite H1.
Qed.

Lemma utf8_width_below s : Forall (fun b => b <= 244) (take (utf8_width s) s).
Proof.
  destruct s as [|a [|b [|c [|d s]]]]; cbn; unfold in_range; repeat case_match; cbn; try constructor.
  all: repeat match goal with H : (_ && _) = true |- _ => apply andb_true_iff in H as [? ?] end.
  all: repeat match goal with H : (_ <=? _) = true |- _ => apply Z.leb_le in H | H : (_ <? _) = true |- _ => apply Z.ltb_lt in H end.
  all: repeat constructor; lia.
Qed.

Lemma utf8_valid_below s : utf8_valid s = true -> Forall (fun b => b <= 244) s.
Proof.
  unfold utf8_valid. generalize (length s) as fuel. intros fuel. revert s.
  induction fuel as [|fuel IH]; intros [|a s]; try done.
  pose proof (utf8_width_below (a :: s)) as Hw. cbn [utf8_valid_loop].
  destruct (utf8_width (a :: s)) as [|w]; intros H; [discriminate H|]. apply IH in H.
  rewrite <- (take_drop (S w) (a :: s)). by apply Forall_app.
Qed.

Section ReceivingFacts.
Context {HUni : UnicodeCase} {HPct : PercentCodec} {HPctLaws : PercentLaws} {HHttp : HttpText} {HUrl : UrlParser}
  {HUrlLaws : UrlLaws}.

Lemma percent_plain_app s t : 37 ∉ s -> percent_decode (s ++ t) = s ++ percent_decode t.
Proof.
  induction s as [|c s IH]; intros H; [done|]. apply not_elem_of_cons in H as [Hc Hs].
  rewrite <- !app_comm_cons, percent_plain by done. by rewrite IH.
Qed.

Lemma percent_two h l x y s : digit_of 16 h = Some x -> digit_of 16 l = Some y ->
  percent_decode (37 :: h :: l :: s) = (16 * x + y) :: percent_decode s.
Proof. apply percent_escape. Qed.

Lemma percent_plain_only s : 37 ∉ s -> percent_decode s = s.
Proof. intros H. rewrite <- (app_nil_r s) at 1. by rewrite percent_plain_app, percent_nil, app_nil_r. Qed.

Lemma decimal_digits_ascii fuel n : 0 <= n -> Forall (fun c => 48 <= c <= 57) (decimal_digits fuel n).
Proof.
  revert n. induction fuel as [|fuel IH]; intros n Hn; cbn; [constructor|].
  destruct (n <? 10) eqn:E; zbool; [repeat constructor; lia|]. apply Forall_app. split.
  - apply IH. apply Z.div_pos; lia.
  - pose proof (Z.mod_pos_bound n 10). repeat constructor; lia.
Qed.

(** The paths both ends of the tunnel accept.  Of an accepted path the decoding,
    when it is text, is absolute and has no parent segment; but behind a byte that
    makes the decoding no text, encoded parent segments pass, for any file. *)
Theorem path_check :
  (forall path, path_accepted path = true -> utf8_valid (percent_decode path) = true ->
     starts_with (bs "/") (percent_decode path) = true /\ bs ".." ∉ split_on 47 (percent_decode path)) /\
  (forall file, 37 ∉ file -> contains (bs "..") file = false ->
     let path := bs "/%2e%2e/" ++ file ++ bs "%ff" in
     path_accepted path = true /\ percent_decode path = bs "/../" ++ file ++ [255]).
Proof.
  split.
  - intros path H Hu. unfold path_accepted in H. rewrite Hu in H. apply andb_true_iff in H as [Hd Hs].
    split; [done|]. intros Hin. apply negb_true_iff in Hd.
    apply list_elem_of_split in Hin as (l & k & E). rewrite <- (join_split_on 47 (percent_decode path)), E in Hd.
    assert (Hc : forall l, contains (bs "..") (join_with 47 (l ++ bs ".." :: k)) = true); [|by rewrite Hc in Hd].
    clear. induction l as [|a l IH]; cbn [app join_with].
    + destruct k; [done|]. apply contains_prefix.
    + destruct (l ++ bs ".." :: k) as [|b m] eqn:Em; [by destruct l|]. rewrite <- Em in *.
      change (47 :: join_with 47 (l ++ bs ".." :: k)) with ([47] ++ join_with 47 (l ++ bs ".." :: k)).
      by apply contains_after, contains_after.
  - intros file Hf Hd. cbv zeta.
    assert (Hp : percent_decode (bs "/%2e%2e/" ++ file ++ bs "%ff") = bs "/../" ++ file ++ [255]).
    { change (bs "/%2e%2e/" ++ file ++ bs "%ff") with (47 :: 37 :: 50 :: 101 :: 37 :: 50 :: 101 :: 47 :: file ++ bs "%ff").
      rewrite percent_plain by done. rewrite !(percent_two _ _ 2 14) by reflexivity.
      rewrite percent_plain, percent_plain_app by done. change (bs "%ff") with (37 :: 102 :: 102 :: @nil Z).
      rewrite (percent_two _ _ 15 15), percent_nil by reflexivity. reflexivity. }
    split; [|done]. unfold path_accepted. rewrite Hp.
    assert (Hu : utf8_valid (bs "/../" ++ file ++ [255]) = false).
    { apply not_true_iff_false. intros E. apply utf8_valid_below in E. rewrite !Forall_app, Forall_singleton in E. lia. }
    rewrite Hu. apply andb_true_iff. split; [|done]. apply negb_true_iff.
    change (bs "/%2e%2e/" ++ file ++ bs "%ff") with (bs "/%2e%2e" ++ 47 :: (file ++ 37 :: bs "ff")).
    rewrite no_dots_around by done. by rewrite no_dots_around.
Qed.

(** A request that leaves the local web server.  The path is appended to the
    address with no separator, and its check is of its decoding: a path that begins
    with an encoded slash and an at sign is accepted by both ends of the tunnel, and
    the request, body included, goes to the host the path names. *)
Theorem inbound_request_escapes_backend method m headers body bind_ip port host rest :
  let req := MkProxyRequest method (bs "%2F@" ++ host ++ bs "/" ++ rest) headers body in
  Forall (fun c => c ∉ url_delimiters) bind_ip -> 0 <= port ->
  Forall (fun l => l <> [] /\ Forall (fun c => is_ascii_lowercase c = true) l) (split_on DOT host) ->
  37 ∉ host ++ bs "/" ++ rest -> contains (bs "..") (host ++ bs "/" ++ rest) = false ->
  utf8_valid (bs "/@" ++ host ++ bs "/" ++ rest) = true ->
  len body <= LIMITS_PROXY_MAX_BODY_BYTES -> method_from_str method = Some m ->
  exists call, daemon_inbound bind_ip port req = InForward call /\ host_inbound bind_ip port req = InForward call /\
    url_host (bc_url call) = Some host /\ bc_body call = body.
Proof.
  cbv zeta. intros Hi Hp Hh Hn Hd Hu Hl Hm.
  assert (Ha : path_accepted (bs "%2F@" ++ host ++ bs "/" ++ rest) = true).
  { unfold path_accepted.
    assert (Ed : percent_decode (bs "%2F@" ++ host ++ bs "/" ++ rest) = bs "/@" ++ host ++ bs "/" ++ rest).
    { change (bs "%2F@" ++ host ++ bs "/" ++ rest) with (37 :: 50 :: 70 :: 64 :: host ++ bs "/" ++ rest).
      rewrite (percent_two _ _ 2 15), percent_plain by (reflexivity || done). by rewrite percent_plain_only. }
    rewrite Ed, Hu. change (bs "/@" ++ host ++ bs "/" ++ rest) with ([47] ++ 64 :: host ++ bs "/" ++ rest).
    rewrite no_dots_around by done. by rewrite Hd. }
  assert (Hb : (len body >? LIMITS_PROXY_MAX_BODY_BYTES) = false) by (rewrite Z.gtb_ltb; by apply Z.ltb_ge).
  exists (backend_call m (MkProxyRequest method (bs "%2F@" ++ host ++ bs "/" ++ rest) headers body) bind_ip port).
  unfold daemon_inbound, host_inbound. cbn [px_path px_body px_method]. rewrite Ha, Hb, Hm.
  split; [done|]. split; [done|]. split; [|done].
  unfold backend_call, backend_address. cbn [bc_url px_path].
  replace (bs "http://" ++ _) with (bs "http://" ++ (bind_ip ++ bs ":" ++ decimal port ++ bs "%2F") ++ bs "@" ++ host ++ bs "/" ++ rest)
    by (rewrite <- !app_assoc; reflexivity).
  apply url_userinfo; [|done]. rewrite !Forall_app. split; [done|]. split; [repeat constructor; set_solver|].
  split; [|repeat constructor; set_solver].
  eapply Forall_impl; [by apply (decimal_digits_ascii 20)|]. intros c Hc. cbv beta in Hc.
  unfold url_delimiters. cbn. rewrite !not_elem_of_cons. repeat (split; [lia|]). apply not_elem_of_nil.
Qed.

End ReceivingFacts.

(** ** A browser, a name and its zone *)

Module ToyProxy.
#[local] Existing Instances ascii_only ToyStore.short_sha2 Toy.toy_mldsa Toy.toy_mldsa_sign toy_beacon_codecs toy_jcs.

(** The real decoding, and the authority of a URL by the standard. *)
Fixpoint percent (s : bytes) : bytes :=
  match s with
  | [] => []
  | c :: t =>
      if c =? 37 then
        match t with
        | h :: l :: r =>
            match digit_of 16 h, digit_of 16 l with
            | Some x, Some y => (16 * x + y) :: percent r
            | _, _ => c :: percent t
            end
        | _ => c :: percent t
        end
      else c :: percent t
  end.
Definition percent_codec : PercentCodec := percent.
Lemma percent_laws : @PercentLaws percent_codec.
Proof.
  split.
  - done.
  - intros c s Hc. unfold percent_decode, percent_codec. cbn [percent]. apply Z.eqb_neq in Hc. by rewrite Hc.
  - intros h l s x y Hx Hy. unfold percent_decode, percent_codec. cbn. by rewrite Hx, Hy.
Qed.

Definition url_parser : UrlParser := fun url => last (split_on 64 (hd [] (split_on 47 (drop 7 url)))).
Lemma url_laws : @UrlLaws url_parser.
Proof.
  intros user host rest Hu Hh. unfold url_host, url_parser.
  assert (Hx : forall c, bool_decide (c ∈ url_delimiters) = true -> c ∉ user).
  { intros c Hc Hin. apply bool_decide_eq_true in Hc. rewrite Forall_forall in Hu. by apply (Hu c). }
  assert (Hy : forall c, is_ascii_lowercase c = false -> c <> DOT -> c ∉ host).
  { intros c Hc Hd Hin. rewrite <- (join_split_on DOT host) in Hin.
    assert (Hj : forall l, Forall (fun l => l <> [] /\ Forall (fun c => is_ascii_lowercase c = true) l) l ->
      c ∉ join_with DOT l); [|by apply (Hj _ Hh)].
    clear -Hc Hd. induction l as [|p l IH]; intros H; [apply not_elem_of_nil|].
    rewrite Forall_cons in H. destruct H as [[_ Hp] Hl].
    assert (Hcp : c ∉ p) by (intros Hin; rewrite Forall_forall in Hp; apply Hp in Hin; congruence).
    cbn. destruct l as [|q l]; [done|]. rewrite not_elem_of_app, not_elem_of_cons. split; [done|]. split; [done|]. by apply IH. }
  change (drop 7 (bs "http://" ++ user ++ bs "@" ++ host ++ bs "/" ++ rest)) with (user ++ bs "@" ++ host ++ bs "/" ++ rest).
  rewrite !app_assoc. change (bs "/") with [47]. rewrite <- app_assoc. cbn [app].
  rewrite split_on_app by (rewrite !not_elem_of_app; repeat split; [by apply Hx|by apply (bool_decide_unpack _)|by apply Hy]).
  cbn [hd]. rewrite <- app_assoc. change (bs "@") with [64]. cbn [app].
  rewrite split_on_app by (by apply Hx). rewrite split_on_no_sep by (by apply Hy). done.
Qed.

Definition http : HttpText := {| method_from_str m := Some m; header_to_str v := Some v; header_from_str v := Some v;
  status_valid s := (100 <=? s) && (s <=? 999); header_valid _ := true |}.
Definition peer_strings : PeerStrings := {|
  peer_to_string p := p; peer_from_str s := Some s; DB_PREFIX_BANNED_PEER := bs "ban:" |}.

(** A name with an alias of itself, an address, and a signature that verifies. *)
Definition name : bytes := bs "alice.kin".
Definition zone : NrsZone :=
  <[AT := [EntCNAME (bs "www.alice.kin")]]> {[bs "www" := [EntTXT (bs "hello"); EntA (V4 1 1 1 1)]]}.
Definition nrs : NrsJson := {|
  zone_from_slice p := if bool_decide (p = bs "zone") then Some zone else None; name_envelope_from_slice _ := None |}.
Definition alice : Reveal := signed_reveal (toy_salt 1) name (bs "zone") (repeat 7 32 : @KineticKeypair Toy.toy_mldsa_sign)
  (MkVdfWork (MkRawKyn 100 [] [] false false) (toy_salt 2) [] 10 [1]) None.
Definition forged : Reveal :=
  MkReveal (protocol_version alice) name (bs "zone") (rv_salt alice) 100 [] 10 [1] (rv_pubkey alice) [9] None None.
Definition serde : Serde := {|
  Json := unit; json_has _ _ := false; json_from_slice _ := None; commitment_from_value _ := None;
  envelope_from_value _ := None; heartbeat_from_value _ := None; auth_kid_from_value _ := None;
  auth_manifest_from_value _ := None; host_route_from_value _ := None;
  envelope_from_slice b := if bool_decide (b = [5]) then Some (Standard alice)
                           else if bool_decide (b = [6]) then Some (Standard forged) else None;
  envelope_to_vec _ := Some [5] |}.

#[local] Existing Instances http peer_strings nrs serde ToyZones.order ToyZones.peers ToyDht.lru.
Definition ports : DaemonPorts := MkDaemonPorts 8080 8081 8082 8083 8084 8085
  (bs "https://dweb.link/ipfs/, https://ipfs.io/ipfs").
Definition state : ProxyState := MkProxyState (lru_new DNS_CACHE_CAPACITY) [].
Definition env_of (payload : bytes) : ProxyEnv := MkProxyEnv (fun _ _ => Some payload) (fun _ => None) (fun _ => None).
Definition get (host : bytes) : HttpRequest :=
  MkHttpRequest (bs "GET") None None (Some (bs "/index")) [(HOST, host)] [Some (bs "a"); None; Some (bs "b")].

Definition answer (payload : bytes) (host : bytes) : ProxyState * ProxyOutcome :=
  handle_proxy_request false (toy_salt 1) ports (bs "me") (env_of payload) 0 (get host) state.

Example served_by_alice : (answer [5] name).2 =
  PoSend (OcAddress true (IpV4 (V4 1 1 1 1)) 443 (bs "GET") (bs "/index")
    [(bs "Host", name); (bs "X-Kinetic-Loop-Protect", bs "me")] (bs "ab")).
Proof. vm_compute. reflexivity. Qed.

Example forged_refused : (answer [6] name).2 = PoStatus 403.
Proof. vm_compute. reflexivity. Qed.

(** After the forged answer. *)
Definition blocked : ProxyState :=
  (forward_to_backend_direct false (toy_salt 1) ports (bs "me") (env_of [6]) 0 (get name) name state).1.
End ToyProxy.

#[local] Existing Instances ascii_only ToyStore.short_sha2 Toy.toy_mldsa Toy.toy_mldsa_sign toy_beacon_codecs toy_jcs
  ToyProxy.http ToyProxy.peer_strings ToyProxy.nrs ToyProxy.serde ToyZones.order ToyZones.peers ToyDht.lru ToyDht.lru_laws
  ToyProxy.percent_codec ToyProxy.percent_laws ToyProxy.url_parser ToyProxy.url_laws.

Lemma proxied_address_safe_witness :
  validate_ssrf_safe (IpV4 (V4 1 1 1 1)) = Ok tt /\ 443 <> 80.
Proof.
  assert (E : (ToyProxy.answer [5] ToyProxy.name) = ((ToyProxy.answer [5] ToyProxy.name).1, _))
    by (apply pair_of_snd, ToyProxy.served_by_alice).
  destruct (proxied_address_safe false (toy_salt 1) ToyProxy.ports (bs "me") (ToyProxy.env_of [5]) 0 [] (ToyProxy.get ToyProxy.name)
    ToyProxy.state _ _ (or_introl E)) as (_ & Hp & _ & Hs & _).
  split; [exact (proj1 (Hs eq_refl))|exact (Hp eq_refl)].
Defined.

Lemma every_host_proxied_witness :
  (ToyProxy.answer [5] (bs "example.com")).2 = PoStatus 404.
Proof.
  unfold ToyProxy.answer. rewrite (every_host_proxied false (toy_salt 1) ToyProxy.ports (bs "me") (ToyProxy.env_of [5]) 0
    (ToyProxy.get (bs "example.com")) ToyProxy.state) by (vm_compute; discriminate).
  vm_compute. reflexivity.
Defined.

Lemma proxied_target_signed_witness :
  exists record (zone : NrsZone) (subname : bytes) records d,
    envelope_verify_signature record (toy_salt 1) = Ok tt /\ zone !! subname = Some records /\ scan_records records = Some d.
Proof.
  assert (E : forward_to_backend_direct false (toy_salt 1) ToyProxy.ports (bs "me") (ToyProxy.env_of [5]) 0
      (ToyProxy.get ToyProxy.name) ToyProxy.name ToyProxy.state =
    ((forward_to_backend_direct false (toy_salt 1) ToyProxy.ports (bs "me") (ToyProxy.env_of [5]) 0
      (ToyProxy.get ToyProxy.name) ToyProxy.name ToyProxy.state).1,
     Ok (OcAddress true (IpV4 (V4 1 1 1 1)) 443 (bs "GET") (bs "/index")
       [(bs "Host", ToyProxy.name); (bs "X-Kinetic-Loop-Protect", bs "me")] (bs "ab")))).
  { apply pair_of_snd. vm_compute. reflexivity. }
  destruct (proxied_target_signed false (toy_salt 1) ToyProxy.ports (bs "me") (ToyProxy.env_of [5]) 0
    (ToyProxy.get ToyProxy.name) ToyProxy.name ToyProxy.state _ _ E) as [_ H].
  destruct (H _ eq_refl) as (_ & record & zone & subname & records & d & _ & _ & Hv & _ & Hr & Hd & _).
  exists record, zone, subname, records, d. split; [exact (Hv eq_refl)|]. split; [exact Hr|exact Hd].
Defined.

Lemma forged_answer_blocks_name_witness :
  exists s'', forward_to_backend_direct false (toy_salt 1) ToyProxy.ports (bs "me") (ToyProxy.env_of [5]) (300 * 10 ^ 9)
      (ToyProxy.get (bs "www.alice.kin")) (bs "www.alice.kin") ToyProxy.blocked = (s'', Err PeSecurityViolation).
Proof.
  destruct (forged_answer_blocks_name false (toy_salt 1) ToyProxy.ports (bs "me") (ToyProxy.env_of [6]) 0
    (ToyProxy.get ToyProxy.name) ToyProxy.name ToyProxy.state ToyProxy.blocked [6] PeSecurityViolation) as [_ H];
    [vm_compute; reflexivity|vm_compute; reflexivity|vm_compute; reflexivity|reflexivity|].
  destruct (H (ToyProxy.env_of [5]) (300 * 10 ^ 9) (ToyProxy.get (bs "www.alice.kin")) (bs "www.alice.kin")) as (s'' & Hs & _);
    [vm_compute; reflexivity|vm_compute; discriminate|].
  exact (ex_intro _ s'' Hs).
Defined.

Lemma path_check_witness :
  path_accepted (bs "/%2e%2e/etc/passwd%ff") = true /\ bs ".." ∉ split_on 47 (percent_decode (bs "/a%2Fb..")).
Proof.
  split; [exact (proj1 (proj2 path_check (bs "etc/passwd") ltac:(vm_compute; set_solver) eq_refl))|].
  apply (bool_decide_unpack _). vm_compute. exact I.
Defined.

Lemma inbound_request_escapes_backend_witness :
  exists call, host_inbound (bs "127.0.0.1") 8080 (MkProxyRequest (bs "POST") (bs "%2F@evil.example/x") [] (bs "secret")) =
    InForward call /\ url_host (bc_url call) = Some (bs "evil.example") /\ bc_body call = bs "secret".
Proof.
  destruct (inbound_request_escapes_backend (bs "POST") (bs "POST") [] (bs "secret") (bs "127.0.0.1") 8080 (bs "evil.example")
    (bs "x")) as (call & _ & H & Hu & Hb).
  - vm_compute. repeat constructor; set_solver.
  - discriminate.
  - vm_compute. repeat constructor; discriminate.
  - vm_compute. set_solver.
  - reflexivity.
  - reflexivity.
  - vm_compute. discriminate.
  - reflexivity.
  - exists call. split; [exact H|]. split; [exact Hu|exact Hb].
Defined.

Example gateways_of_toy : gateways ToyProxy.ports = [bs "https://dweb.link/ipfs"; bs "https://ipfs.io/ipfs"].
Proof. vm_compute. reflexivity. Qed.

(** A look-alike of the host is rewritten too. *)
Lemma redirect_rewritten_witness :
  web2_header (bs "a.example") (bs "alice.kin") (bs "location", bs "https://evil-" ++ bs "a.example" ++ bs "/login") =
    Some (bs "location", bs "https://evil-" ++ bs "alice.kin" ++ bs "/login").
Proof.
  exact (proj2 (redirect_rewritten (bs "a.example") (bs "alice.kin") (bs "https://evil-") (bs "/login") ltac:(discriminate))
    ltac:(vm_compute; reflexivity) ltac:(vm_compute; reflexivity) (bs "location") ltac:(vm_compute; reflexivity) eq_refl eq_refl).
Defined.
