(* ===== verification/Texts.v ===== *)
(** * Decimal numbers as texts

    What the texts of [format!] determine, for the files and answers that carry
    numbers. *)
From S2P Require Import Prelude Bytes Proxy.
#[local] Open Scope Z_scope.

Lemma decimal_loop_app s : forall acc t, Forall (fun c => 48 <= c <= 57) s ->
  decimal_loop acc (s ++ t) = (n ← decimal_loop acc s; decimal_loop n t).
Proof.
  induction s as [|c s IH]; intros acc t Hs; [done|]. inversion_clear Hs. cbn.
  replace (is_ascii_digit c) with true by (symmetry; unfold is_ascii_digit; lia). by apply IH.
Qed.

Lemma decimal_digits_value fuel : forall n, 0 <= n < 10 ^ Z.of_nat fuel -> decimal_loop 0 (decimal_digits fuel n) = Some n.
Proof.
  induction fuel as [|fuel IH]; intros n Hn; [cbn in *; f_equal; lia|].
  cbn [decimal_digits]. assert (Hp : 10 ^ Z.of_nat (S fuel) = 10 * 10 ^ Z.of_nat fuel)
    by (rewrite Nat2Z.inj_succ, Z.pow_succ_r by lia; lia).
  assert (Hd : forall acc c, 0 <= c < 10 -> decimal_loop acc [48 + c] = Some (10 * acc + c)).
  { intros acc c Hc. cbn. replace (is_ascii_digit (48 + c)) with true by (symmetry; unfold is_ascii_digit; lia). f_equal. lia. }
  destruct (n <? 10) eqn:E; zbool; [rewrite Hd by lia; f_equal; lia|].
  rewrite decimal_loop_app by (apply decimal_digits_ascii; apply Z.div_pos; lia).
  rewrite IH by (split; [apply Z.div_pos|apply Z.div_lt_upper_bound]; lia). cbn [mbind option_bind].
  rewrite Hd by (apply Z.mod_pos_bound; lia). f_equal. pose proof (Z.div_mod n 10). lia.
Qed.

Lemma decimal_value n : is_u64 n -> decimal_loop 0 (decimal n) = Some n.
Proof. intros H. apply decimal_digits_value. unfold is_u64, u64_max in H. change (10 ^ Z.of_nat 20) with 100000000000000000000. lia. Qed.

Lemma decimal_is_digits n : 0 <= n -> Forall (fun c => 48 <= c <= 57) (decimal n).
Proof. apply decimal_digits_ascii. Qed.

(** Digits end where a space begins. *)
Lemma digits_then_space (a b t u : bytes) :
  Forall (fun c => 48 <= c <= 57) a -> Forall (fun c => 48 <= c <= 57) b -> a ++ 32 :: t = b ++ 32 :: u -> a = b /\ t = u.
Proof.
  intros Ha. revert b. induction Ha as [|x a Hx Ha IH]; intros b Hb E; destruct Hb as [|y b Hy Hb]; cbn in E; [by injection E as ->|injection E; lia|injection E; lia|]. injection E as E1 E2.
  destruct (IH b Hb E2) as [-> ->]. by rewrite E1.
Qed.

Lemma decimal_then_space a b t u : is_u64 a -> is_u64 b -> decimal a ++ 32 :: t = decimal b ++ 32 :: u -> a = b /\ t = u.
Proof.
  intros Ha Hb E. apply digits_then_space in E as [E ->]; [|apply decimal_is_digits; unfold is_u64 in *; lia..].
  split; [|done]. apply (f_equal (decimal_loop 0)) in E. rewrite !decimal_value in E by done. congruence.
Qed.

Lemma decimal_inj a b : is_u64 a -> is_u64 b -> decimal a = decimal b -> a = b.
Proof. intros Ha Hb E. apply (f_equal (decimal_loop 0)) in E. rewrite !decimal_value in E by done. congruence. Qed.

Definition is_port (p : Z) : Prop := 0 <= p <= 65535.

Lemma port_text_inj pre suf p q : is_port p -> is_port q -> pre ++ decimal p ++ suf = pre ++ decimal q ++ suf -> p = q.
Proof.
  unfold is_port. intros Hp Hq E. apply app_inv_head, app_inv_tail in E. apply decimal_inj; [unfold is_u64, u64_max; lia..|done].
Qed.
