(* ===== verification/DifficultyApi.v ===== *)
(** * Difficulty and name validation of the API ([kinetic-daemon/src/api/vdf_api.rs])

    What the daemon tells a user before a registration: the effort a name takes,
    the time it takes here, the effort a takeover takes, and whether a name is
    valid.  The theorems compare the advice with what a store of the network
    applies.  Texts are left out but for the duration. *)
From Stdlib Require Import String.
From S2P Require Import Prelude Bytes Config Crypto Kyn Names Physics RsaVdf Kid Records Action Verify Storage StoreVerify Store ApiAuth KidManager MacroApi Proxy Texts.
#[local] Open Scope Z_scope.

(** ** Double precision *)

Definition F64_1_4 : Z * Z := (6305039478318694, -52).
Definition F64_0_7 : Z * Z := (6305039478318694, -53).

(** [a / b] with enough bits of the quotient, the last one for the remainder. *)
Definition f64_div (a b : Z * Z) : Z * Z :=
  let n := Z.shiftl a.1 130 in
  f64_round (2 * (n / b.1) + (if n mod b.1 =? 0 then 0 else 1)) (a.2 - b.2 - 131).

(** [a > b] *)
Definition f64_gt (a b : Z * Z) : bool :=
  let e := Z.min a.2 b.2 in Z.shiftl a.1 (a.2 - e) >? Z.shiftl b.1 (b.2 - e).

Definition reference_ips : Z * Z := f64_div (f64_of_u64 BASE_ITERATIONS) (f64_of_u64 (TARGET_MINUTES * 60)).

Inductive Rating := Fast | Average | Slow.

Definition rating (host_speed_ips : Z) : Rating :=
  if f64_gt (f64_of_u64 host_speed_ips) (f64_mul reference_ips F64_1_4) then Fast
  else if f64_gt (f64_of_u64 host_speed_ips) (f64_mul reference_ips F64_0_7) then Average
  else Slow.

(** ** Answers *)

Record ProtocolRequirements := MkProtocolRequirements {
  pr_iterations : Z;
  pr_ndc_tier : bytes;
  network_reference_target_minutes : Z;
  pr_is_dev_mode : bool
}.

Record LocalPrediction := MkLocalPrediction {
  calibrated : bool;
  host_speed_ips : Z;
  estimated_seconds : Z;
  estimated_formatted : bytes;
  hardware_rating : Rating
}.

Record IterationsResponse := MkIterationsResponse {
  ir_name : bytes;
  ir_label : bytes;
  label_length : Z;
  protocol : ProtocolRequirements;
  local_prediction : LocalPrediction
}.

Record TakeoverIterationsResponse := MkTakeoverIterationsResponse {
  tk_name : bytes;
  base_iterations : Z;
  kyns_idle : Z;
  current_iterations : Z;
  decay_multiplier : Z * Z
}.

Record ValidateResponse := MkValidateResponse {
  original : bytes;
  normalized : bytes;
  is_valid : bool;
  vr_is_reserved : bool;
  vr_error : option NamesError
}.

(** [RestApiError::BadRequest], or the error of the name. *)
Inductive DifficultyError := DfName (e : NamesError) | DfBadRequest.

Definition format_duration (secs : Z) : bytes :=
  if secs <? 60 then decimal secs ++ bs " seconds"
  else
    let mins := secs / 60 in
    let rem := secs mod 60 in
    if rem =? 0 then decimal mins ++ bs " minutes"
    else decimal mins ++ bs " minutes " ++ decimal rem ++ bs " seconds".

(** The [match label_length]. *)
Definition target_minutes_of (label_length : Z) : Z :=
  if label_length <=? 1 then len_0_to_1 PHYSICS_NDC
  else if label_length =? 2 then len_2 PHYSICS_NDC
  else if label_length =? 3 then len_3 PHYSICS_NDC
  else if label_length =? 4 then len_4 PHYSICS_NDC
  else if label_length =? 5 then len_5 PHYSICS_NDC
  else if label_length =? 6 then len_6 PHYSICS_NDC
  else if label_length =? 7 then len_7 PHYSICS_NDC
  else if (8 <=? label_length) && (label_length <=? 10) then len_8_to_10 PHYSICS_NDC
  else if (11 <=? label_length) && (label_length <=? 17) then len_11_to_17 PHYSICS_NDC
  else if (18 <=? label_length) && (label_length <=? 20) then len_18_to_20 PHYSICS_NDC
  else TARGET_MINUTES.

Section Difficulty.
Context {HUni : UnicodeCase}.
Variable is_dev_mode : bool.

Definition handle_get_iterations (host_speed_ips : Z) (name : bytes) : Result DifficultyError IterationsResponse :=
  let normalized := normalize_name name in
  match is_valid_apex_name normalized with
  | Err e => Err (DfName e)
  | Ok _ =>
      let iterations := iterations is_dev_mode physics_default normalized in
      let apex := extract_apex_name normalized in
      let label := default apex (strip_suffix NSP_SUFFIX apex) in
      let estimated_seconds := iterations / Z.max host_speed_ips 1 in
      Ok {| ir_name := normalized; ir_label := label; label_length := len label;
            protocol := {| pr_iterations := iterations; pr_ndc_tier := decimal (len label) ++ bs "_chars";
                           network_reference_target_minutes := target_minutes_of (len label);
                           pr_is_dev_mode := is_dev_mode |};
            local_prediction := {| calibrated := true; host_speed_ips := host_speed_ips;
                                   estimated_seconds := estimated_seconds;
                                   estimated_formatted := format_duration estimated_seconds;
                                   hardware_rating := rating host_speed_ips |} |}
  end.

Definition handle_takeover_iterations (name : bytes) (query_kyns_idle : option Z) : Result DifficultyError TakeoverIterationsResponse :=
  let normalized := normalize_name name in
  let base_iterations := iterations is_dev_mode physics_default normalized in
  match query_kyns_idle with
  | None => Err DfBadRequest
  | Some kyns_idle =>
      let current_iterations := takeover_iterations physics_default base_iterations kyns_idle in
      let decay_multiplier :=
        if base_iterations >? 0 then f64_div (f64_of_u64 current_iterations) (f64_of_u64 base_iterations) else (1, 0) in
      Ok {| tk_name := normalized; base_iterations := base_iterations; kyns_idle := kyns_idle;
            current_iterations := current_iterations; decay_multiplier := decay_multiplier |}
  end.

Definition handle_validate_name (name : bytes) : ValidateResponse :=
  let normalized := normalize_name name in
  let is_reserved := is_reserved_name normalized in
  match is_valid_apex_name normalized with
  | Ok _ => {| original := name; normalized := normalized; is_valid := true; vr_is_reserved := is_reserved; vr_error := None |}
  | Err e => {| original := name; normalized := normalized; is_valid := false; vr_is_reserved := is_reserved; vr_error := Some e |}
  end.

End Difficulty.

(** ** Names *)

Section Facts.
Context {HUni : UnicodeCase}.

Lemma accepted_parts name l : normalize_name name = l ++ NSP_SUFFIX -> valid_label l ->
  normalize_name (normalize_name name) = normalize_name name /\ extract_apex_name name = l ++ NSP_SUFFIX.
Proof.
  intros E Hl. rewrite E. split; [by apply normal_form_fixed|].
  unfold extract_apex_name. rewrite E. change (l ++ NSP_SUFFIX) with (l ++ DOT :: bs "kin").
  rewrite split_on_app by (apply is_ldh_not_dot; apply Hl). reflexivity.
Qed.

Lemma iterations_of_label dev name l : normalize_name name = l ++ NSP_SUFFIX -> valid_label l ->
  iterations dev physics_default name = label_iters dev physics_default l.
Proof.
  intros E Hl. destruct (accepted_parts name l E Hl) as [E2 _]. unfold iterations.
  rewrite (proj2 (accepted_parts (normalize_name name) l ltac:(by rewrite E2) Hl)). by rewrite strip_suffix_app.
Qed.

Lemma target_minutes_curve n : target_minutes_of n = ndc_minutes n.
Proof. unfold target_minutes_of, ndc_minutes. repeat case_match; zbool; try done; lia. Qed.

Context {HSha : Sha2} {HSig : MlDsa} {HCod : Codecs} {HJcs : Jcs}
  {HBv : BeaconVerify} {HVdf : VdfEngine} {HSto : StorageEngine}.

(** C34: The effort the API announces for a name is the one stores ask for.  It answers for the valid names,
    whose label it reports; outside developer mode the iterations are the reported minutes of work at the reference speed,
    rounded down, a first registration under the reported name with a genuine pulse needs exactly them, and the seconds are what this
    machine takes, rounded down. *)
Theorem announced_effort_required (speed : Z) (name : bytes) (network_salt : bytes) (action : option ActionState) :
  0 <= speed ->
  match handle_get_iterations false speed name with
  | Err e => exists e', e = DfName e' /\ is_valid_apex_name (normalize_name name) = Err e'
  | Ok r =>
      let n := pr_iterations (protocol r) in
      let p := local_prediction r in
      is_valid_apex_name (ir_name r) = Ok tt /\
      valid_label (ir_label r) /\ normalize_name (ir_name r) = ir_label r ++ NSP_SUFFIX /\
      n = BASE_ITERATIONS * network_reference_target_minutes (protocol r) / TARGET_MINUTES /\
      BASE_ITERATIONS <= n <= u64_max /\
      (forall reveal now, rv_name reveal = ir_name r -> rv_previous_proof reveal = None ->
        verify_beacon_signature (rv_kyn reveal) (rv_beacon_signature reveal) false = true ->
        compute_required_iterations false network_salt action reveal now = Ok n) /\
      estimated_seconds p * Z.max speed 1 <= n < (estimated_seconds p + 1) * Z.max speed 1
  end.
Proof.
  intros Hs. unfold handle_get_iterations. destruct (is_valid_apex_name (normalize_name name)) as [[]|e] eqn:Hv; [|by eauto].
  cbv zeta. pose proof Hv as (l & E & Hl & Hr)%accepted_normal_form.
  destruct (accepted_parts _ _ E Hl) as [_ ->]. rewrite strip_suffix_app. cbn [default].
  rewrite (iterations_of_label _ _ _ E Hl). cbn -[Z.max Z.mul Z.div len label_iters]. rewrite target_minutes_curve. repeat (split; [done|]).
  destruct (label_iters_curve physics_default l l) as [[Hx Hb] _]. split; [done|]. split; [done|]. split.
  - intros reveal now Hn Hp Hbe.
    unfold compute_required_iterations. rewrite Hn, Hv. cbn -[iterations label_iters]. rewrite Hbe. cbn -[iterations label_iters]. rewrite Hp.
    by rewrite (iterations_of_label _ _ _ E Hl).
  - set (s := Z.max speed 1). generalize (label_iters false physics_default l) as n. intros n. assert (0 < s) by lia.
    pose proof (Z.div_mod n s ltac:(lia)). pose proof (Z.mod_pos_bound n s ltac:(lia)). lia.
Qed.

(** The takeover effort the API announces is the least a store takes.  A reveal of another owner for the
    reported name, at a store that has not heard of it for the given kyns, is refused for its effort when it has
    fewer than the announced iterations and passes the conflict rule when it has more; the tie rule decides alone among
    equal efforts within a hundred kyns. *)
Theorem announced_takeover_exact (dev : bool) (name : bytes) (idle : Z) :
  exists r, handle_takeover_iterations dev name (Some idle) = Ok r /\
  forall old new now last_hb, rv_name new = tk_name r -> sat_sub now (default (rv_kyn new) last_hb) = idle ->
    let verdict := takeover_verdict dev now last_hb old new in
    if (rv_iterations new =? rv_iterations old) && (idle <? 100)
    then verdict = if blt (tie_distance old) (tie_distance new) then Reject TieBroken else Admit
    else verdict = if rv_iterations new <? current_iterations r then Reject InsufficientIterations else Admit.
Proof.
  eexists. split; [reflexivity|]. cbn. intros old new now last_hb Hn Hi. unfold takeover_verdict. cbv zeta.
  rewrite Hn, Hi. by destruct (_ && _).
Qed.

Lemma reserved_refused n : is_reserved_name n = true -> is_valid_apex_name n = Ok tt -> False.
Proof.
  intros Hr (l & E & Hl & Hnot)%accepted_normal_form. unfold is_reserved_name in Hr. apply existsb_exists in Hr as (r & Hin & Hr).
  apply bool_decide_eq_true_1 in Hr.
  assert (Hf : to_lowercase n = r ++ NSP_SUFFIX) by done.
  assert (En : normalize_name n = r ++ NSP_SUFFIX).
  { unfold normalize_name. rewrite Hf, nsp_suffix_snoc, trim_dots_snoc by done. rewrite <- nsp_suffix_snoc.
    replace (ends_with NSP_SUFFIX (r ++ NSP_SUFFIX)) with true; [done|]. symmetry. apply ends_with_true. by eexists. }
  rewrite En in E. apply app_inv_tail in E as ->. apply Hnot. by apply list_elem_of_In.
Qed.

(** The API calls a name valid exactly when it takes its registration and announces its difficulty, reports the
    error both would answer with, and never calls a reserved name valid. *)
Theorem validation_agrees (dev : bool) (speed : Z) (role : Role) (name : bytes) (iterations : option Z) :
  can_vdf role = true -> default 0 iterations <= MAX_USER_ITERATIONS ->
  let v := handle_validate_name name in
  (is_valid v = true <-> check_request role name iterations = Ok (normalized v)) /\
  (is_valid v = true <-> is_ok (handle_get_iterations dev speed name) = true) /\
  (forall e, vr_error v = Some e <-> check_request role name iterations = Err (MaName e)) /\
  (forall e, vr_error v = Some e <-> handle_get_iterations dev speed name = Err (DfName e)) /\
  (vr_is_reserved v = true -> is_valid v = false).
Proof.
  intros Hrole Hit. unfold handle_validate_name, check_request, handle_get_iterations. rewrite Hrole. cbn [negb bail_if].
  pose proof (reserved_refused (normalize_name name)) as Hres.
  destruct (is_valid_apex_name (normalize_name name)) as [[]|e] eqn:E; cbn.
  - replace (_ >? _) with false by (symmetry; rewrite Z.gtb_ltb; apply Z.ltb_ge; done). cbn.
    split; [done|]. split; [done|]. split; [by split|]. split; [by split|]. intros Hr. by destruct (Hres Hr).
  - split; [done|]. split; [done|]. split; [split; congruence|]. split; [split; congruence|]. done.
Qed.

(** The text of a duration determines it: the whole minutes and the seconds left. *)
Theorem format_duration_inj (a b : Z) : is_u64 a -> is_u64 b -> format_duration a = format_duration b -> a = b.
Proof.
  intros Ha Hb. assert (Hsmall : forall x, is_u64 x -> is_u64 (x / 60) /\ is_u64 (x mod 60)).
  { unfold is_u64. intros x Hx. pose proof (Z.mod_pos_bound x 60). pose proof (Z.div_mod x 60).
    pose proof (Z.div_pos x 60). lia. }
  destruct (Hsmall a Ha) as [Ha1 Ha2], (Hsmall b Hb) as [Hb1 Hb2]. pose proof (Z.div_mod a 60). pose proof (Z.div_mod b 60).
  unfold format_duration. change (bs " seconds") with (32 :: bs "seconds"). change (bs " minutes") with (32 :: bs "minutes").
  change (bs " minutes " ++ ?x) with (32 :: bs "minutes " ++ x).
  cbv zeta. repeat case_match; zbool; intros E; (apply decimal_then_space in E as [E1 E2]; [|done..]); try discriminate; try lia.
  apply (app_inv_head (bs "minutes ")), decimal_then_space in E2 as [E2 _]; [lia|done..].
Qed.

End Facts.

(** ** Concrete requests *)

Section Witnesses.
#[local] Existing Instance ascii_only.

Lemma announced_effort_required_witness :
  0 <= 100000 /\ is_ok (handle_get_iterations false 100000 (bs "Alexander")) = true /\
  (exists r, handle_get_iterations false 100000 (bs "Alexander") = Ok r /\ BASE_ITERATIONS <= pr_iterations (protocol r) <= u64_max).
Proof.
  split; [lia|]. split; [reflexivity|].
  pose proof (@announced_effort_required ascii_only ToyStore.short_sha2 toy_beacon_codecs ToyStore.yes_beacon ToyStore.yes_vdf
    100000 (bs "Alexander") (toy_salt 1) None ltac:(lia)) as H.
  destruct (handle_get_iterations false 100000 (bs "Alexander")) as [r|e]; [exists r; split; [done|apply H]|].
  destruct H as (e' & _ & H). by vm_compute in H.
Defined.

Lemma validation_agrees_witness :
  can_vdf (MkRole false false false true false false false false false false) = true /\
  vr_is_reserved (handle_validate_name (bs "LOCALHOST")) = true /\ is_valid (handle_validate_name (bs "LOCALHOST")) = false.
Proof.
  split; [reflexivity|]. split; [vm_compute; reflexivity|].
  eapply (validation_agrees false 1 (MkRole false false false true false false false false false false) (bs "LOCALHOST") None);
    vm_compute; [reflexivity|discriminate|reflexivity].
Defined.

Lemma format_duration_inj_witness :
  format_duration 61 = bs "1 minutes 1 seconds" /\ format_duration 61 = format_duration (30 + 31) /\ 61 = 30 + 31.
Proof.
  split; [by vm_compute|]. split; [by vm_compute|].
  apply (format_duration_inj 61 (30 + 31)); [vm_compute; intuition discriminate..|by vm_compute].
Defined.
End Witnesses.
