(* ===== verification/DnsServer.v ===== *)
(** * The DNS server as it runs ([kinetic-nrs], [kinetic-daemon/src/api/atlas.rs])

    The handler of every query with its cache over time ([lib.rs], [handler.rs],
    [cache.rs]), the resolvers other names are sent to ([upstream.rs]), the
    foreign suffixes a bridge registers through the API, and the stand-alone
    server with what its installation tells the operating system
    ([bin/kinetic-nrs.rs]).  The answer to one query is in [Nrs]. *)
From Stdlib Require Import String.
From S2P Require Import Prelude Bytes Config Crypto Names Net Kid Records Verify Nrs DnsTree ApiAuth Proxy Texts.
#[local] Open Scope Z_scope.

(** ** [upstream.rs] *)

(** [TokioAsyncResolver::lookup]. *)
Inductive Lookup {R : Type} := Found (records : list R) | NoRecordsFound | LookupFailed.
Arguments Lookup : clear implicits.

Inductive UpstreamReply {R : Type} := UpAnswer (records : list R) | UpFormErr | UpNXDomain | UpServFail.
Arguments UpstreamReply : clear implicits.

(** [ResolverConfig]: the configuration of the system, Cloudflare's over HTTPS, or
    name servers at an address with a transport. *)
Inductive Transport := TransportUdp | TransportTcp.
Inductive ResolverConfig {C : Type} :=
  | SystemConf (conf : C)
  | CloudflareHttps
  | NameServers (l : list (Ipv4Addr * Z * Transport)).
Arguments ResolverConfig : clear implicits.

Definition create_resolver {C} (read_system_conf : option C) : ResolverConfig C :=
  match read_system_conf with Some conf => SystemConf conf | None => CloudflareHttps end.

Definition create_atlas_resolver {C} (port : Z) : ResolverConfig C :=
  NameServers [(LOCALHOST4, port, TransportUdp); (LOCALHOST4, port, TransportTcp)].

Section Upstream.
Context {HDns : DnsNames} {R : Type}.

Definition resolve_upstream (lookup : DnsName -> QueryRecordType -> Lookup R) (query_name : bytes) (q_type : QueryRecordType)
  : UpstreamReply R :=
  match dns_name_from_str query_name with
  | None => UpFormErr
  | Some name =>
      match lookup name q_type with
      | Found records => UpAnswer records
      | NoRecordsFound => UpNXDomain
      | LookupFailed => UpServFail
      end
  end.
End Upstream.

(** ** [lib.rs], [handler.rs] *)

(** A cached payload, or its absence, with the time at which it expires. *)
Record KineticNrsHandler := MkKineticNrsHandler {
  cache : gmap bytes (option bytes * Z);
  atlas_nsps : list bytes
}.

Inductive HandlerReply {N R : Type} := FromKinetic (r : DnsResponse N) | FromUpstream (r : UpstreamReply R).
Arguments HandlerReply : clear implicits.

(** The world a query is answered in: the daemon's API, both resolvers. *)
Record DnsWorld {N R : Type} := MkDnsWorld {
  api : bytes -> ApiReply;
  kid_fetch : bytes -> KidReply;
  upstream : N -> QueryRecordType -> Lookup R;
  atlas : N -> QueryRecordType -> Lookup R
}.
Arguments DnsWorld : clear implicits.

(** [moka]: an entry is not returned once it has expired. *)
Definition cache_get (now : Z) (key : bytes) (h : KineticNrsHandler) : option (option bytes) :=
  '(v, expires) ← cache h !! key; if now <? expires then Some v else None.

Definition set_cache (f : gmap bytes (option bytes * Z) -> gmap bytes (option bytes * Z)) (h : KineticNrsHandler) : KineticNrsHandler :=
  {| cache := f (cache h); atlas_nsps := atlas_nsps h |}.

Section Handler.
Context {HUni : UnicodeCase} {HPeer : PeerIds} {HOrd : HashOrder} {HJson : NrsJson}
  {HSig : MlDsa} {HCod : Codecs} {HJcs : Jcs} {HDns : DnsNames} {R : Type}.
Variable network_salt : bytes.

Definition handler_new (atlas_nsps : list bytes) : KineticNrsHandler := {| cache := ∅; atlas_nsps := atlas_nsps |}.

(** What [try_get_with] leaves: a value it had keeps its expiry. *)
Definition cache_after (now : Z) (key : bytes) (before after : option (option bytes)) (h : KineticNrsHandler) : KineticNrsHandler :=
  match before, after with
  | None, Some v => set_cache <[key := (v, now + expire_after_create v)]> h
  | _, _ => h
  end.

Definition handle_request (now : Z) (w : DnsWorld DnsName R) (query_name : bytes) (q_type : QueryRecordType) (h : KineticNrsHandler)
  : KineticNrsHandler * HandlerReply DnsName R :=
  match route_request query_name (atlas_nsps h) with
  | ToKinetic full_name apex_name =>
      let cached := cache_get now apex_name h in
      let '(response, cached') := resolve_kinetic network_salt query_name full_name apex_name q_type cached (api w apex_name) (kid_fetch w) in
      (cache_after now apex_name cached cached' h, FromKinetic response)
  | ToAtlas => (h, FromUpstream (resolve_upstream (atlas w) query_name q_type))
  | ToUpstream => (h, FromUpstream (resolve_upstream (upstream w) query_name q_type))
  end.

(** [KineticNrsHandler::invalidate] *)
Definition invalidate (apex_name : bytes) (h : KineticNrsHandler) : KineticNrsHandler :=
  set_cache (delete (extract_apex_name apex_name)) h.

(** *** [kinetic-daemon/src/api/atlas.rs] *)

Inductive AtlasError := AtInsufficientPrivileges | AtMutexPoisoned.

(** The body of the loop: what is inserted for one suffix, if anything. *)
Definition clean_nsp (nsp : bytes) : option bytes :=
  let t := to_lowercase (trim nsp) in
  let t := if starts_with [DOT] t then t else DOT :: t in
  if len t >? 1 then Some t else None.

(** [poisoned]: a thread panicked while it held the lock.  The result is the number of suffixes. *)
Definition handle_atlas_sync (role : Role) (nsps : list bytes) (poisoned : bool) (h : KineticNrsHandler)
  : KineticNrsHandler * Result AtlasError Z :=
  if negb (can_atlas role) then (h, Err AtInsufficientPrivileges)
  else
    let clean_nsps := remove_dups (omap clean_nsp nsps) in
    if poisoned then (h, Err AtMutexPoisoned)
    else ({| cache := cache h; atlas_nsps := clean_nsps |}, Ok (len clean_nsps)).

(** ** Runs *)

(** What happens to a handler: a query at a time, an invalidation, the bridge's synchronisation, and
    the cache dropping entries to stay within its size. *)
Inductive DnsOp :=
  | OpQuery (now : Z) (w : DnsWorld DnsName R) (query_name : bytes) (q_type : QueryRecordType)
  | OpInvalidate (apex_name : bytes)
  | OpAtlasSync (role : Role) (nsps : list bytes) (poisoned : bool)
  | OpEvict (key : bytes).

Definition dns_step (h : KineticNrsHandler) (op : DnsOp) : KineticNrsHandler :=
  match op with
  | OpQuery now w query_name q_type => (handle_request now w query_name q_type h).1
  | OpInvalidate apex_name => invalidate apex_name h
  | OpAtlasSync role nsps poisoned => (handle_atlas_sync role nsps poisoned h).1
  | OpEvict key => set_cache (delete key) h
  end.

Definition dns_run (ops : list DnsOp) (h : KineticNrsHandler) : KineticNrsHandler := fold_left dns_step ops h.

End Handler.
Arguments DnsOp {_} R.

(** ** [bin/kinetic-nrs.rs] *)

Inductive Os := Linux | MacOs | Windows | OtherOs.

(** What the installation touches: the file for systemd-resolved and its
    directory, the file of macOS's resolver, and the commands that were run. *)
Record DnsHost := MkDnsHost {
  resolved_dir : bool;
  resolved_conf : option bytes;
  resolver_conf : option bytes;
  commands : list (bytes * list bytes)
}.

Definition NSP : bytes := nsp (network network_json).
Definition LOCAL_BIND_IP : bytes := local_bind_ip (network network_json).

Definition set_resolved (c : option bytes) (d : DnsHost) : DnsHost :=
  {| resolved_dir := resolved_dir d; resolved_conf := c; resolver_conf := resolver_conf d; commands := commands d |}.
Definition set_resolver (c : option bytes) (d : DnsHost) : DnsHost :=
  {| resolved_dir := resolved_dir d; resolved_conf := resolved_conf d; resolver_conf := c; commands := commands d |}.
Definition run_command (program : bytes) (args : list bytes) (d : DnsHost) : DnsHost :=
  {| resolved_dir := resolved_dir d; resolved_conf := resolved_conf d; resolver_conf := resolver_conf d;
     commands := commands d ++ [(program, args)] |}.

Definition setup_macos_alias (ip : bytes) : DnsHost -> DnsHost :=
  run_command (bs "ifconfig") [bs "lo0"; bs "alias"; ip; bs "255.255.255.255"; bs "up"].
Definition teardown_macos_alias (ip : bytes) : DnsHost -> DnsHost :=
  run_command (bs "ifconfig") [bs "lo0"; bs "-alias"; ip].

Definition resolved_text (dns_port : Z) : bytes :=
  bs "[Resolve]" ++ [10] ++ bs "DNS=" ++ LOCAL_BIND_IP ++ bs ":" ++ decimal dns_port ++ [10] ++ bs "Domains=~" ++ NSP ++ [10].
Definition resolver_text (dns_port : Z) : bytes :=
  bs "nameserver " ++ LOCAL_BIND_IP ++ [10] ++ bs "port " ++ decimal dns_port ++ [10].
Definition nrpt_rule : bytes :=
  bs "Add-DnsClientNrptRule -Namespace '." ++ NSP ++ bs "' -NameServers '" ++ LOCAL_BIND_IP ++ bs "'".
Definition nrpt_removal : bytes :=
  bs "Get-DnsClientNrptRule | Where-Object { $_.Namespace -eq '." ++ NSP ++
  bs "' } | Remove-DnsClientNrptRule -Force -ErrorAction SilentlyContinue".
Definition restart_resolved : DnsHost -> DnsHost := run_command (bs "systemctl") [bs "restart"; bs "systemd-resolved"].

(** [written]: whether [fs::write] succeeds. *)
Definition configure_os_dns (os : Os) (written : bool) (dns_port : Z) (d : DnsHost) : DnsHost * Result unit unit :=
  match os with
  | Linux =>
      if resolved_dir d then
        if written then (restart_resolved (set_resolved (Some (resolved_text dns_port)) d), Ok tt) else (d, Err tt)
      else (d, Ok tt)
  | MacOs =>
      let d := setup_macos_alias LOCAL_BIND_IP d in
      if written then (set_resolver (Some (resolver_text dns_port)) d, Ok tt) else (d, Err tt)
  | Windows => (run_command (bs "powershell") [bs "-Command"; nrpt_rule] d, Ok tt)
  | OtherOs => (d, Ok tt)
  end.

Definition remove_os_dns (os : Os) (d : DnsHost) : DnsHost :=
  match os with
  | Linux => restart_resolved (set_resolved None d)
  | MacOs => teardown_macos_alias LOCAL_BIND_IP (set_resolver None d)
  | Windows => run_command (bs "powershell") [bs "-Command"; nrpt_removal] d
  | OtherOs => d
  end.

(** [manager]: whether the system's service manager takes the service.  The result has its arguments. *)
Definition dns_install_service (os : Os) (manager written : bool) (nrs_port : Z) (d : DnsHost) : DnsHost * Result unit (list bytes) :=
  if manager then ((configure_os_dns os written nrs_port d).1, Ok [bs "run"; bs "--dns-port"; decimal nrs_port])
  else (d, Err tt).

Definition dns_uninstall_service (os : Os) (manager : bool) (d : DnsHost) : DnsHost * Result unit unit :=
  if manager then (remove_os_dns os d, Ok tt) else (d, Err tt).

(** The arguments of the command line, as [clap] fills them in. *)
Definition DEFAULT_API_URL : bytes := bs "http://127.0.0.1:16000".
Definition DEFAULT_DNS_PORT : Z := 53.

(** Where the server ends up: serving at a port, with or without the IPv6 loopback; ended with status 1 as it
    could not give up its privileges; without a socket; or stopped by an overflow. *)
Inductive ServerEnd :=
  | Serves (port : Z) (on_ipv6 : bool)
  | ExitsWithOne
  | NoSocket
  | Overflows.

Section Server.
(** The build is one for Unix; it checks additions; whether the sockets can be bound, the privileges dropped. *)
Variables (unix overflow_checks : bool) (bind_ipv4 bind_ipv6 : Z -> bool) (privdrop : bool).

Definition fallback_port (nrs_port : Z) : option Z :=
  if nrs_port =? 53 then Some 5353
  else if nrs_port + 1000 <=? 65535 then Some (nrs_port + 1000)
  else if overflow_checks then None else Some (nrs_port + 1000 - 65536).

(** From the bound socket on. *)
Definition serve_at (port : Z) : ServerEnd :=
  if unix && negb privdrop then ExitsWithOne else Serves port (bind_ipv6 port).

Definition run_server (nrs_port : Z) : ServerEnd :=
  if bind_ipv4 nrs_port then serve_at nrs_port
  else
    match fallback_port nrs_port with
    | None => Overflows
    | Some port => if bind_ipv4 port then serve_at port else NoSocket
    end.
End Server.

(** ** Foreign suffixes *)

Section AtlasFacts.
Context {HUni : UnicodeCase} {HPeer : PeerIds} {HOrd : HashOrder} {HJson : NrsJson}
  {HSig : MlDsa} {HCod : Codecs} {HJcs : Jcs} {HDns : DnsNames} {R : Type}.
Variable network_salt : bytes.

(** No two dots in a row. *)
Definition no_double_dot (s : bytes) : Prop := forall p q, s <> p ++ DOT :: DOT :: q.

(** The text of a query's name: ASCII, labels that are not empty, a final dot. *)
Definition dns_text (s : bytes) : Prop :=
  Forall (fun c => is_ascii c = true) s /\ no_double_dot s /\ (starts_with [DOT] s = true -> s = [DOT]).

Lemma lower_dot c : to_ascii_lowercase c = DOT -> c = DOT.
Proof. unfold to_ascii_lowercase, is_ascii_uppercase, DOT. destruct (_ && _) eqn:E; zbool; lia. Qed.

Lemma lower_no_double_dot s : no_double_dot s -> no_double_dot (map to_ascii_lowercase s).
Proof.
  intros H p q E. apply map_eq_app in E as (p' & l & -> & <- & E).
  apply map_eq_cons in E as (x & l1 & -> & Ex%lower_dot & E). apply map_eq_cons in E as (y & q' & -> & Ey%lower_dot & _).
  subst. by apply (H p' q').
Qed.

Lemma lower_starts_dot s : starts_with [DOT] (map to_ascii_lowercase s) = starts_with [DOT] s.
Proof.
  destruct s as [|c s]; [done|]. cbn [starts_with map]. f_equal. destruct (DOT =? c) eqn:E; zbool.
  - by subst.
  - apply Z.eqb_neq. intros H. symmetry in H. apply lower_dot in H. congruence.
Qed.

Lemma ends_with_dot_take s : ends_with [DOT] s = true -> s = take (length s - 1) s ++ [DOT].
Proof.
  intros (t & ->)%ends_with_true. f_equal. rewrite length_app. cbn. rewrite Nat.add_sub.
  by rewrite take_app_length.
Qed.

(** The name as the handler compares it. *)
Definition clean_query_name (query_name : bytes) : bytes :=
  let clean_name := to_lowercase query_name in
  if ends_with [DOT] clean_name then take (length clean_name - 1) clean_name else clean_name.

Lemma clean_query_name_dots s : dns_text s -> no_double_dot (clean_query_name s) /\ starts_with [DOT] (clean_query_name s) = false.
Proof.
  intros (Ha & Hd & Hs). unfold clean_query_name, to_lowercase.
  replace (forallb is_ascii s) with true by (symmetry; apply forallb_forall; intros x Hx; rewrite Forall_forall in Ha; by apply Ha, list_elem_of_In).
  pose proof (lower_no_double_dot s Hd) as Hl. pose proof (lower_starts_dot s) as Hst. revert Hl Hst.
  assert (Hroot : map to_ascii_lowercase s = [DOT] <-> s = [DOT]).
  { split; [|by intros ->]. intros E. apply map_eq_cons in E as (x & l & -> & ->%lower_dot & E). by apply map_eq_nil in E as ->. }
  revert Hroot. generalize (map to_ascii_lowercase s) as m. intros m Hroot Hl Hst.
  destruct (ends_with [DOT] m) eqn:E.
  - apply ends_with_dot_take in E. set (c := take (length m - 1) m) in *. split.
    + intros p q Hc. apply (Hl p (q ++ [DOT])). rewrite E, Hc. by rewrite <- app_assoc.
    + apply not_true_is_false. intros Ec. apply starts_with_true in Ec as (t & Ec).
      assert (Hm : starts_with [DOT] m = true) by (apply starts_with_true; exists (t ++ [DOT]); rewrite E, Ec; by rewrite <- app_assoc).
      rewrite Hst in Hm. apply Hs, Hroot in Hm. rewrite Hm in E. rewrite Ec in E. by destruct t.
  - split; [done|]. apply not_true_is_false. intros Em. rewrite Hst in Em. apply Hs, Hroot in Em. by rewrite Em in E.
Qed.

Lemma clean_nsp_dot nsp t : clean_nsp nsp = Some t -> exists u, t = DOT :: u.
Proof.
  unfold clean_nsp. cbv zeta. destruct (starts_with [DOT] (to_lowercase (trim nsp))) eqn:E.
  - apply starts_with_true in E as (u & ->). intros H. case_match; simplify_eq. by exists u.
  - intros H. case_match; simplify_eq. by eexists.
Qed.

Lemma foreign_suffix_unmatched nsps query_name :
  dns_text query_name -> Forall (fun t => exists u, t = DOT :: u) nsps -> route_request query_name nsps <> ToAtlas.
Proof.
  intros Hq Hn. destruct (clean_query_name_dots query_name Hq) as [Hd Hs].
  unfold route_request. fold (clean_query_name query_name). generalize dependent (clean_query_name query_name). intros c Hd Hs.
  destruct (ends_with NSP_SUFFIX c); [done|]. replace (existsb _ nsps) with false; [done|]. symmetry.
  induction Hn as [|t l (u & ->) Hl IH]; [done|]. cbn [existsb]. rewrite IH, orb_false_r. apply orb_false_iff. split.
  - apply bool_decide_eq_false. intros ->. by cbn in Hs.
  - destruct (ends_with (DOT :: DOT :: u) c) eqn:E; [|done]. apply ends_with_true in E as (p & ->). by destruct (Hd p u).
Qed.

(** C39: No query is ever sent to the bridge.  Whatever happens to a handler that starts without foreign suffixes, the bridge's
    synchronisations included, a query for any name goes to the daemon or to the upstream resolver: the
    suffixes are stored with the dot before them, which the handler adds once more. *)
Theorem atlas_never_routed (ops : list (DnsOp R)) (query_name : bytes) :
  dns_text query_name ->
  route_request query_name (atlas_nsps (dns_run network_salt ops (handler_new []))) <> ToAtlas.
Proof.
  intros Hq. apply foreign_suffix_unmatched; [done|].
  assert (H : forall h, Forall (fun t => exists u, t = DOT :: u) (atlas_nsps h) ->
    Forall (fun t => exists u, t = DOT :: u) (atlas_nsps (dns_run network_salt ops h))); [|by apply H; constructor].
  induction ops as [|op ops IH]; intros h Hh; [done|]. cbn [dns_run fold_left]. apply IH.
  destruct op as [now w q t|apex|role nsps poisoned|key]; cbn; [|done| |done].
  - unfold handle_request. destruct (route_request q (atlas_nsps h)) as [full apex| |]; [|done|done].
    destruct (resolve_kinetic _ _ _ _ _ _ _ _) as [r c]. unfold cache_after. by repeat case_match.
  - unfold handle_atlas_sync. destruct (negb _); [done|]. destruct poisoned; [done|]. cbn.
    apply Forall_forall. intros x Hx. rewrite elem_of_remove_dups in Hx. apply list_elem_of_omap in Hx as (y & _ & Hy). by eapply clean_nsp_dot.
Qed.

(** ** Freshness *)

(** The name of the cache's key is the apex for which the daemon was asked. *)
Definition fetched (key : bytes) (v : option bytes) (t : Z) (op : DnsOp R) : Prop :=
  exists w q q_type full, op = OpQuery t w q q_type /\ (forall nsps, route_request q nsps = ToKinetic full key) /\
    fetch_apex network_salt (apex_is_reserved key) (api w key) = Ok v.

Definition cache_inv (ops : list (DnsOp R)) (h : KineticNrsHandler) : Prop :=
  forall key v expires, cache h !! key = Some (v, expires) ->
    exists t op, op ∈ ops /\ fetched key v t op /\ expires = t + expire_after_create v.

Lemma route_kinetic_stable q nsps full apex : route_request q nsps = ToKinetic full apex -> forall nsps', route_request q nsps' = ToKinetic full apex.
Proof. unfold route_request. cbv zeta. destruct (ends_with NSP_SUFFIX _); [by intros|]. destruct (existsb _ nsps); done. Qed.

(** What a resolution adds to the cache was fetched. *)
Lemma resolve_adds q full apex t cached reply kids r v :
  resolve_kinetic network_salt q full apex t cached reply kids = (r, Some v) -> cached = None ->
  fetch_apex network_salt (apex_is_reserved apex) reply = Ok v.
Proof.
  unfold resolve_kinetic. cbv zeta. intros E ->. destruct (_ && _); [done|]. cbn in E.
  destruct (fetch_apex _ _ _) as [v'|e]; [|by destruct e]. by destruct v'; simplify_eq.
Qed.

Lemma cache_inv_step ops h op : cache_inv ops h -> cache_inv (ops ++ [op]) (dns_step network_salt h op).
Proof.
  intros H.
  assert (Hold : forall h', (forall key v, cache h' !! key = Some v -> cache h !! key = Some v) -> cache_inv (ops ++ [op]) h').
  { intros h' Hsub key v expires Hk. destruct (H key v expires (Hsub _ _ Hk)) as (t & op' & Hin & Hf).
    exists t, op'. split; [|done]. apply elem_of_app. by left. }
  destruct op as [now w q q_type|apex|role nsps poisoned|key0]; cbn [dns_step].
  - unfold handle_request. destruct (route_request q (atlas_nsps h)) as [full apex| |] eqn:Er; [|by apply Hold..].
    destruct (resolve_kinetic _ _ _ _ _ _ _ _) as [r c] eqn:Ev. cbn [fst]. unfold cache_after.
    destruct (cache_get now apex h) as [v0|] eqn:Eg; [by apply Hold|]. destruct c as [v|]; [|by apply Hold].
    intros key v' expires. cbn [cache set_cache]. destruct (decide (key = apex)) as [->|Hne].
    + rewrite lookup_insert, decide_True by done. intros [= <- <-]. exists now, (OpQuery now w q q_type).
      split; [apply elem_of_app; right; by constructor|]. split; [|done]. exists w, q, q_type, full. split; [done|].
      split; [by apply (route_kinetic_stable _ _ _ _ Er)|]. by eapply resolve_adds.
    + rewrite lookup_insert_ne by done. intros Hk. destruct (H key v' expires Hk) as (t & op' & Hin & Hf).
      exists t, op'. split; [apply elem_of_app; by left|done].
  - apply Hold. intros key v. cbn. intros Hk. apply lookup_delete_Some in Hk. tauto.
  - apply Hold. unfold handle_atlas_sync. by repeat case_match.
  - apply Hold. intros key v. cbn. intros Hk. apply lookup_delete_Some in Hk. tauto.
Qed.

Lemma cache_inv_run ops : cache_inv ops (dns_run network_salt ops (handler_new [])).
Proof.
  induction ops as [|op ops IH] using rev_ind; [by intros key v e|].
  unfold dns_run in *. rewrite fold_left_app. cbn [fold_left]. by apply cache_inv_step.
Qed.

(** C40: How old an answer can be.  After any run, a query for a name of the network is answered from the daemon's reply to
    it, unless the cache has an entry for its apex; then an earlier query of the same apex got that entry
    from the daemon, at most five minutes before, or thirty seconds before when the daemon did not find the name. *)
Theorem answers_at_most_stale (ops : list (DnsOp R)) (now : Z) (w : DnsWorld DnsName R) query_name q_type full apex :
  (forall nsps, route_request query_name nsps = ToKinetic full apex) ->
  let h := dns_run network_salt ops (handler_new []) in
  exists cached, (handle_request network_salt now w query_name q_type h).2 =
    FromKinetic (resolve_kinetic network_salt query_name full apex q_type cached (api w apex) (kid_fetch w)).1 /\
  match cached with
  | None => True
  | Some v => exists t op, op ∈ ops /\ fetched apex v t op /\ now < t + (if v then 300 else 30)
  end.
Proof.
  intros Hr h. exists (cache_get now apex h). split.
  { unfold handle_request. rewrite (Hr (atlas_nsps h)). by destruct (resolve_kinetic _ _ _ _ _ _ _ _). }
  unfold cache_get. destruct (cache h !! apex) as [[v expires]|] eqn:E; [|done]. cbn.
  destruct (now <? expires) eqn:El; [|done]. zbool.
  destruct (cache_inv_run ops apex v expires E) as (t & op & Hin & Hf & ->). exists t, op. split; [done|]. split; [done|].
  by destruct v.
Qed.

(** An invalidated name is fetched again, however it is written; the other names keep what they had. *)
Lemma invalidate_spec now name apex h :
  cache_get now (extract_apex_name name) (invalidate name h) = None /\
  (apex <> extract_apex_name name -> cache_get now apex (invalidate name h) = cache_get now apex h).
Proof.
  unfold cache_get, invalidate. cbn. split; [by rewrite lookup_delete, decide_True|]. intros H. by rewrite lookup_delete_ne by done.
Qed.

(** Upstream the absence of records of one type is answered as the absence of the name. *)
Lemma resolve_upstream_nxdomain_iff (lookup : DnsName -> QueryRecordType -> Lookup R) q t :
  resolve_upstream lookup q t = UpNXDomain <-> exists name, dns_name_from_str q = Some name /\ lookup name t = NoRecordsFound.
Proof.
  unfold resolve_upstream. destruct (dns_name_from_str q) as [n|]; [|by split; [|intros (? & ? & _)]].
  split; [|by intros (n' & [= <-] & ->)]. destruct (lookup n t) eqn:E; intros; try done. by exists n.
Qed.

End AtlasFacts.

(** ** The stand-alone server *)

Lemma resolved_text_inj p q : is_port p -> is_port q -> resolved_text p = resolved_text q -> p = q.
Proof.
  intros Hp Hq. unfold resolved_text. rewrite !(app_assoc _ (bs ":")), !(app_assoc _ (_ ++ _) (decimal _ ++ _)).
  by apply port_text_inj.
Qed.

Lemma resolver_text_inj p q : is_port p -> is_port q -> resolver_text p = resolver_text q -> p = q.
Proof.
  intros Hp Hq. unfold resolver_text. rewrite !(app_assoc (bs "nameserver ")), !(app_assoc _ [10]), !(app_assoc _ (bs "port ")).
  by apply port_text_inj.
Qed.

(** The port the operating system was told to ask. *)
Definition os_asks (os : Os) (d : DnsHost) (port : Z) : Prop :=
  match os with
  | Linux => resolved_conf d = Some (resolved_text port)
  | MacOs => resolver_conf d = Some (resolver_text port)
  | Windows => port = 53
  | OtherOs => False
  end.

Section ServerFacts.
Variables (unix overflow_checks : bool) (bind_ipv4 bind_ipv6 : Z -> bool) (privdrop : bool).
#[local] Notation serving := (run_server unix overflow_checks bind_ipv4 bind_ipv6 privdrop).

Lemma fallback_port_other P q : is_port P -> fallback_port overflow_checks P = Some q -> is_port q /\ q <> P.
Proof.
  unfold is_port, fallback_port. destruct (P =? 53) eqn:E; [intros ? [= <-]; zbool; lia|].
  destruct (P + 1000 <=? 65535) eqn:E2; [intros ? [= <-]; zbool; lia|]. destruct overflow_checks; [done|].
  intros ? [= <-]. zbool. lia.
Qed.

Lemma serving_port P p six : is_port P -> serving P = Serves p six ->
  is_port p /\ (p = P <-> bind_ipv4 P = true) /\ (unix = true -> privdrop = true).
Proof.
  intros HP. unfold run_server, serve_at.
  assert (Hu : forall port, (if unix && negb privdrop then ExitsWithOne else Serves port (bind_ipv6 port)) = Serves p six ->
    port = p /\ (unix = true -> privdrop = true)).
  { intros port. destruct unix, privdrop; cbn; intros H; by inversion H. }
  destruct (bind_ipv4 P) eqn:Eb.
  - intros [-> H]%Hu. done.
  - destruct (fallback_port overflow_checks P) as [q|] eqn:Ef; [|done]. apply fallback_port_other in Ef as [Hq Hne]; [|done].
    destruct (bind_ipv4 q); [|done]. intros [-> H]%Hu. split; [done|]. split; [|done]. split; [done|congruence].
Qed.

(** When the operating system's queries arrive.  After the installation told Linux or macOS the configured port, a server that
    serves is asked exactly when it got that port: the port it falls back to without the rights for it is never the one the system asks.  On Unix no server serves that
    cannot drop privileges, which one without them cannot, so the fallback serves nobody there; on Windows a server is asked only at port 53,
    whatever the configuration says. *)
Theorem installed_server_asked_iff (os : Os) (P p : Z) (six : bool) (d : DnsHost) :
  is_port P -> (os = Linux -> resolved_dir d = true) -> os <> OtherOs -> serving P = Serves p six ->
  let d' := (dns_install_service os true true P d).1 in
  (os_asks os d' p <-> if os is Windows then p = 53 else bind_ipv4 P = true) /\
  (unix = true -> privdrop = true) /\ (bind_ipv4 P = false -> p <> P).
Proof.
  intros HP Hdir Hos Hs d'. destruct (serving_port P p six HP Hs) as (Hp & Hiff & Hu).
  split; [|split; [done|intros Hf ->; by rewrite (proj1 Hiff eq_refl) in Hf]].
  subst d'. destruct os; cbn; try done.
  - rewrite Hdir by done. cbn. rewrite <- Hiff. split; [|by intros ->]. intros H%(inj Some). symmetry. by apply resolved_text_inj.
  - rewrite <- Hiff. split; [|by intros ->]. intros H%(inj Some). symmetry. by apply resolver_text_inj.
Qed.

(** With a second network's or the user's own file in place, what an uninstallation leaves is no file. *)
Lemma uninstall_leaves_nothing os d :
  let d' := (dns_uninstall_service os true d).1 in
  (os = Linux -> resolved_conf d' = None) /\ (os = MacOs -> resolver_conf d' = None).
Proof. cbn. by destruct os. Qed.

End ServerFacts.

(** ** A server, a bridge and two queries *)

Module ToyDns.
#[local] Existing Instance ascii_only.
#[local] Existing Instance ToyZones.names.

Definition world (reply : ApiReply) : DnsWorld bytes bytes :=
  {| api := fun _ => reply; kid_fetch := fun _ => KidFailed; upstream := fun _ _ => NoRecordsFound; atlas := fun _ _ => Found [bs "bridge"] |}.

Definition bridge_role : Role := MkRole false false false false false false false false true false.

(** The bridge registers [.eth], then a name is asked for that the daemon does not find. *)
Definition ops : list (DnsOp bytes) :=
  [OpAtlasSync bridge_role [bs "eth"; bs ".SOL "] false;
   OpQuery 100 (world ApiNotFound) (bs "alice.kin.") QtA].

Definition run_toy (ops : list (DnsOp bytes)) : KineticNrsHandler :=
  @dns_run ascii_only ToyZones.peers ToyZones.order ToyZones.json Toy.toy_mldsa Toy.toy_codecs toy_jcs ToyZones.names bytes (toy_salt 1)
    ops (handler_new []).

Example suffixes_stored : atlas_nsps (run_toy ops) = [bs ".eth"; bs ".sol"].
Proof. vm_compute. reflexivity. Qed.

End ToyDns.

Lemma dns_text_example : dns_text (bs "vitalik.eth.").
Proof.
  split; [repeat constructor|]. split; [|intros H; by vm_compute in H].
  intros p q E. change (bs "vitalik.eth.") with [118;105;116;97;108;105;107;46;101;116;104;46] in E. unfold DOT in E.
  do 13 (destruct p as [|? p]; [by simplify_eq/=|]; cbn in E; injection E as _ E || by simplify_eq/=).
Qed.

Lemma atlas_never_routed_witness :
  dns_text (bs "vitalik.eth.") /\ atlas_nsps (ToyDns.run_toy ToyDns.ops) = [bs ".eth"; bs ".sol"] /\
  @route_request ascii_only (bs "vitalik.eth.") (atlas_nsps (ToyDns.run_toy ToyDns.ops)) <> ToAtlas.
Proof.
  split; [apply dns_text_example|]. split; [by vm_compute|].
  apply (@atlas_never_routed ascii_only ToyZones.peers ToyZones.order ToyZones.json Toy.toy_mldsa Toy.toy_codecs toy_jcs ToyZones.names
    bytes (toy_salt 1) ToyDns.ops (bs "vitalik.eth.") dns_text_example).
Defined.

Lemma answers_at_most_stale_witness :
  exists cached, (@handle_request ascii_only ToyZones.peers ToyZones.order ToyZones.json Toy.toy_mldsa Toy.toy_codecs toy_jcs ToyZones.names
    bytes (toy_salt 1) 129 (ToyDns.world (ApiSuccess [bs "envelope"])) (bs "ALICE.kin") QtA (ToyDns.run_toy ToyDns.ops)).2 =
    FromKinetic (@resolve_kinetic ascii_only ToyZones.peers ToyZones.order ToyZones.json Toy.toy_mldsa Toy.toy_codecs toy_jcs ToyZones.names
      (toy_salt 1) (bs "ALICE.kin") (bs "alice.kin") (bs "alice.kin") QtA cached (ApiSuccess [bs "envelope"]) (fun _ => KidFailed)).1.
Proof.
  destruct (@answers_at_most_stale ascii_only ToyZones.peers ToyZones.order ToyZones.json Toy.toy_mldsa Toy.toy_codecs toy_jcs ToyZones.names
    bytes (toy_salt 1) ToyDns.ops 129 (ToyDns.world (ApiSuccess [bs "envelope"])) (bs "ALICE.kin") QtA (bs "alice.kin") (bs "alice.kin"))
    as (cached & H & _).
  - apply (@route_kinetic_stable ascii_only _ []). by vm_compute.
  - exists cached. exact H.
Defined.

Lemma installed_server_asked_iff_witness :
  run_server true true (fun p => p =? 5353) (fun _ => false) true 53 = Serves 5353 false /\
  (os_asks Linux (dns_install_service Linux true true 53 (MkDnsHost true None None [])).1 5353 <-> (53 =? 5353) = true).
Proof.
  split; [reflexivity|].
  apply (installed_server_asked_iff true true (fun p => p =? 5353) (fun _ => false) true Linux 53 5353 false (MkDnsHost true None None []));
    [unfold is_port; lia|done|done|reflexivity].
Defined.
