(* ===== verification/Waiting.v ===== *)
(** * Who waits for an answer

    The callers of the event loop: every command hands over a responder, which
    the loop holds in a pending query or a task until it answers.  Each step
    conserves the responders held and answered, so every caller is answered
    exactly once when the queries have run out. *)
From S2P Require Import Prelude Sorting Bytes Config Crypto Kyn Names Physics Net Kid Records Action Verify Lru Peers DnsTree Storage StoreVerify TieBreaker Store EventLoop.
#[local] Open Scope Z_scope.
#[local] Open Scope nat_scope.

(** ** Responders held by a map of pending queries *)

Notation count := (count_occ Nat.eq_dec).

Section Holders.
Context {K A : Type} `{Countable K} (f : A -> list Responder).

Definition holders (m : gmap K A) : list Responder := map_to_list m ≫= fun kv => f kv.2.

Lemma count_perm r (l l' : list Responder) : l ≡ₚ l' -> count l r = count l' r.
Proof. intros Hl. by apply (Permutation_count_occ Nat.eq_dec). Qed.

Lemma holders_insert_new m k v r :
  m !! k = None -> count (holders (<[k := v]> m)) r = count (f v) r + count (holders m) r.
Proof.
  intros Hk. unfold holders. rewrite <- count_occ_app. apply count_perm.
  by rewrite map_to_list_insert.
Qed.

Lemma holders_delete m k v r :
  m !! k = Some v -> count (holders m) r = count (f v) r + count (holders (delete k m)) r.
Proof.
  intros Hk. rewrite <- (insert_delete_id m k v Hk) at 1.
  apply holders_insert_new, lookup_delete_eq.
Qed.

Lemma holders_update m k v v' r :
  m !! k = Some v ->
  count (holders (<[k := v']> m)) r + count (f v) r = count (f v') r + count (holders m) r.
Proof.
  intros Hk. rewrite (holders_delete m k v r Hk), <- insert_delete_eq.
  rewrite holders_insert_new by apply lookup_delete_eq. lia.
Qed.

Lemma holders_empty r : count (holders ∅) r = 0.
Proof. unfold holders. by rewrite map_to_list_empty. Qed.

Lemma holders_none m r : (forall k v, m !! k = Some v -> False) -> count (holders m) r = 0.
Proof.
  intros Hm. replace m with (∅ : gmap K A); [apply holders_empty|].
  symmetry. apply map_empty. intros k. destruct (m !! k) eqn:E; [|done]. by destruct (Hm k a).
Qed.

End Holders.

(** ** Every responder is held or answered *)

Definition task_responders (t : Task) : list Responder :=
  match t with TaskResolve _ _ _ _ responders _ => responders | _ => [] end.

(** The responder a command hands over, if it expects an answer. *)
Definition command_responders (c : Command) : list Responder :=
  match c with
  | FetchCurrentKyn r | Bootstrap r | PublishRedundant _ _ r | PublishHeartbeat _ _ r
  | ResolveRedundant _ r | ResolveHeartbeat _ r | VerifyQuorum _ _ r | SendProxyRequest _ _ r
  | GetNetworkStatus r | SubscribeGossip _ r | BroadcastGossip _ _ r | FetchConnectedPeers r
  | FetchGossipTopics r | FetchBannedPeers r | SendActionSyncRequest _ r => [r]
  | SendProxyResponse _ _ | ReportGossipValidation _ _ _ | UpdateActionLog _ => []
  end.

Definition input_responders `{Multiaddrs} (i : Input) : list Responder :=
  match i with InCommand _ c => command_responders c | _ => [] end.

(** The fields of a loop after a setter. *)
Ltac fields := cbn [el_store pending_gets pending_quorums pending_puts pending_reveals query_id_to_name
  pending_cdn_requests requests peers bad_vdf_counts banned_peers el_current_kyn gossip_permits next_id tasks loopback
  replies swarm_log set_el_store set_pending_gets set_pending_quorums set_pending_puts
  set_pending_reveals set_query_id_to_name set_pending_cdn_requests set_requests set_peers set_el_current_kyn
  set_bad_vdf_counts set_banned_peers set_gossip_permits set_next_id set_tasks set_loopback set_replies set_swarm_log
  reply call spawn_task send_loopback fresh_id pending_proxy_requests pending_action_sync_requests
  el_action_log set_proxy_requests set_sync_requests set_action_log count_cdn_usage].

Section Held.
Context {HSto : StorageEngine} {HLru : LruCache} {HMem : KadMemory} {HAddr : Multiaddrs}.

(** The responders the loop still holds, and those it has sent an answer. *)
Definition held (e : NetworkEventLoop) : list Responder :=
  holders pg_responders (pending_gets e)
  ++ holders (fun p => [pq_responder p]) (pending_quorums e)
  ++ holders (fun p => [pu_responder p]) (pending_puts e)
  ++ holders (fun r => [r]) (pending_proxy_requests (requests e))
  ++ holders (fun r => [r]) (pending_action_sync_requests (requests e))
  ++ (tasks e ≫= task_responders).

Definition answered (e : NetworkEventLoop) : list Responder := map fst (replies e).

Definition weight (e : NetworkEventLoop) (r : Responder) : nat :=
  count (held e) r + count (answered e) r.

Ltac weigh := unfold weight, held, answered; fields; rewrite ?map_app, ?bind_app, !count_occ_app.

Lemma weight_reply x rp e r : weight (reply x rp e) r = count [x] r + weight e r.
Proof. weigh. change (map fst [(x, rp)]) with [x]. lia. Qed.

Lemma weight_reply_all l rp e r : weight (reply_all l rp e) r = count l r + weight e r.
Proof.
  revert e. induction l as [|x l IH]; intros e; [done|].
  cbn [reply_all fold_left]. etrans; [apply IH|]. rewrite weight_reply.
  change (x :: l) with ([x] ++ l). rewrite count_occ_app. lia.
Qed.

Lemma weight_spawn t e r : weight (spawn_task t e) r = count (task_responders t) r + weight e r.
Proof.
  weigh. cbn [mbind list_bind]. rewrite app_nil_r. lia.
Qed.

(** The maps of pending queries: a new entry, an updated and a removed one. *)
Lemma weight_gets e k r :
  (forall v, pending_gets e !! k = None ->
     weight (set_pending_gets (<[k := v]> (pending_gets e)) e) r = count (pg_responders v) r + weight e r) /\
  (forall v v', pending_gets e !! k = Some v ->
     weight (set_pending_gets (<[k := v']> (pending_gets e)) e) r + count (pg_responders v) r
     = count (pg_responders v') r + weight e r) /\
  (forall v, pending_gets e !! k = Some v ->
     weight e r = count (pg_responders v) r + weight (set_pending_gets (delete k (pending_gets e)) e) r).
Proof.
  split_and!; intros v.
  - intros Hk. pose proof (holders_insert_new pg_responders _ k v r Hk). weigh. lia.
  - intros v' Hk. pose proof (holders_update pg_responders _ k v v' r Hk). weigh. lia.
  - intros Hk. pose proof (holders_delete pg_responders _ k v r Hk). weigh. lia.
Qed.

Lemma weight_quorums e k r :
  (forall v, pending_quorums e !! k = None ->
     weight (set_pending_quorums (<[k := v]> (pending_quorums e)) e) r = count [pq_responder v] r + weight e r) /\
  (forall v v', pending_quorums e !! k = Some v -> pq_responder v' = pq_responder v ->
     weight (set_pending_quorums (<[k := v']> (pending_quorums e)) e) r = weight e r) /\
  (forall v, pending_quorums e !! k = Some v ->
     weight e r = count [pq_responder v] r + weight (set_pending_quorums (delete k (pending_quorums e)) e) r).
Proof.
  set (f := fun p => [pq_responder p]). split_and!; intros v.
  - intros Hk. pose proof (holders_insert_new f _ k v r Hk). subst f. weigh. lia.
  - intros v' Hk Hv. pose proof (holders_update f _ k v v' r Hk) as E. unfold f in *. rewrite Hv in E. weigh. lia.
  - intros Hk. pose proof (holders_delete f _ k v r Hk). subst f. weigh. lia.
Qed.

Lemma weight_puts e k r :
  (forall v, pending_puts e !! k = None ->
     weight (set_pending_puts (<[k := v]> (pending_puts e)) e) r = count [pu_responder v] r + weight e r) /\
  (forall v v', pending_puts e !! k = Some v -> pu_responder v' = pu_responder v ->
     weight (set_pending_puts (<[k := v']> (pending_puts e)) e) r = weight e r) /\
  (forall v, pending_puts e !! k = Some v ->
     weight e r = count [pu_responder v] r + weight (set_pending_puts (delete k (pending_puts e)) e) r).
Proof.
  set (f := fun p => [pu_responder p]). split_and!; intros v.
  - intros Hk. pose proof (holders_insert_new f _ k v r Hk). subst f. weigh. lia.
  - intros v' Hk Hv. pose proof (holders_update f _ k v v' r Hk) as E. unfold f in *. rewrite Hv in E. weigh. lia.
  - intros Hk. pose proof (holders_delete f _ k v r Hk). subst f. weigh. lia.
Qed.

Lemma weight_requests e k r :
  (forall v, pending_proxy_requests (requests e) !! k = None ->
     weight (set_proxy_requests (<[k := v]> (pending_proxy_requests (requests e))) e) r = count [v] r + weight e r) /\
  (forall v, pending_proxy_requests (requests e) !! k = Some v ->
     weight e r = count [v] r + weight (set_proxy_requests (delete k (pending_proxy_requests (requests e))) e) r) /\
  (forall v, pending_action_sync_requests (requests e) !! k = None ->
     weight (set_sync_requests (<[k := v]> (pending_action_sync_requests (requests e))) e) r
     = count [v] r + weight e r) /\
  (forall v, pending_action_sync_requests (requests e) !! k = Some v ->
     weight e r
     = count [v] r + weight (set_sync_requests (delete k (pending_action_sync_requests (requests e))) e) r).
Proof.
  set (f := fun v : Responder => [v]). split_and!; intros v Hk.
  - pose proof (holders_insert_new f _ k v r Hk). subst f. weigh. lia.
  - pose proof (holders_delete f _ k v r Hk). subst f. weigh. lia.
  - pose proof (holders_insert_new f _ k v r Hk). subst f. weigh. lia.
  - pose proof (holders_delete f _ k v r Hk). subst f. weigh. lia.
Qed.

Lemma weight_task e i t r :
  tasks e !! i = Some t ->
  weight e r = count (task_responders t) r + weight (set_tasks (delete i (tasks e)) e) r.
Proof.
  intros Hi.
  assert (Hp : tasks e ≫= task_responders ≡ₚ task_responders t ++ (delete i (tasks e) ≫= task_responders)).
  { change (task_responders t ++ _) with ((t :: delete i (tasks e)) ≫= task_responders).
    apply bind_Permutation. by rewrite <- delete_Permutation. }
  apply (count_perm r) in Hp. rewrite count_occ_app in Hp. weigh. lia.
Qed.

(** Two loops that hold and answered the same. *)
Definition same_callers (e e' : NetworkEventLoop) : Prop :=
  pending_gets e = pending_gets e' /\ pending_quorums e = pending_quorums e' /\
  pending_puts e = pending_puts e' /\
  pending_proxy_requests (requests e) = pending_proxy_requests (requests e') /\
  pending_action_sync_requests (requests e) = pending_action_sync_requests (requests e') /\
  tasks e ≫= task_responders = tasks e' ≫= task_responders /\ replies e = replies e'.

#[export] Instance same_callers_equiv : Equivalence same_callers.
Proof.
  split; unfold same_callers; [done|intros e e'; naive_solver|].
  intros e1 e2 e3 (A1 & A2 & A3 & A4 & A5 & A6 & A7) (B1 & B2 & B3 & B4 & B5 & B6 & B7).
  split_and!; by etrans.
Qed.

Lemma same_callers_weight e e' r : same_callers e e' -> weight e r = weight e' r.
Proof. intros (H1 & H2 & H3 & H4 & H5 & H6 & H7).
  unfold weight, held, answered. by rewrite H1, H2, H3, H4, H5, H6, H7. Qed.

(** The request ids in use were issued by the swarm. *)
Definition requests_fresh (e : NetworkEventLoop) : Prop :=
  map_Forall (fun id _ => id < next_id e) (pending_proxy_requests (requests e)) /\
  map_Forall (fun id _ => id < next_id e) (pending_action_sync_requests (requests e)).

Lemma fresh_request {A} e (m : gmap QueryId A) :
  map_Forall (fun id _ => id < next_id e) m -> m !! next_id e = None.
Proof. intros H. destruct (m !! next_id e) eqn:E; [|done]. specialize (H _ _ E). cbn in H. lia. Qed.

(** Two loops that differ in nothing the queries depend on. *)
Definition quiet (e e' : NetworkEventLoop) : Prop :=
  same_callers e e' /\ query_id_to_name e = query_id_to_name e' /\ next_id e = next_id e'.

#[export] Instance quiet_equiv : Equivalence quiet.
Proof.
  split; unfold quiet; [done|intros e e' (H1 & H2 & H3); by split_and!|].
  intros e1 e2 e3 (A1 & A2 & A3) (B1 & B2 & B3). split_and!; by etrans.
Qed.

Lemma quiet_weight e e' r : quiet e e' -> weight e r = weight e' r.
Proof. intros [H _]. by apply same_callers_weight. Qed.

Lemma quiet_spawn t e : task_responders t = [] -> quiet (spawn_task t e) e.
Proof.
  intros Ht. unfold quiet, same_callers. split_and!; try done. fields. rewrite bind_app. cbn [mbind list_bind].
  by rewrite Ht, app_nil_r.
Qed.

End Held.

(** ** Each step conserves the responders *)

Section Conservation.
Context {HUni : UnicodeCase} {HSha : Sha2} {HSig : MlDsa} {HCod : Codecs} {HJcs : Jcs}
  {HBv : BeaconVerify} {HVdf : VdfEngine} {HSto : StorageEngine} {HPeer : PeerIds} {HEd : Ed25519}
  {HJson : StoredJson} {HSerde : Serde} {HUtf : Utf8Lossy} {HLru : LruCache} {HMem : KadMemory}
  {HRes : ResolverJson} {HRea : ReactorJson} {HStr : PeerStrings} {HKad : KadBehaviour}
  {HAddr : Multiaddrs} {HArgon : Argon2} {HSeeds : DnsSeeds}.
Variables (dev : bool) (salt : bytes) (action : option ActionState)
  (config : ActionConfig) (topic : bytes).
Notation put_loop := (put_loop dev salt action).
Notation handle_loopback := (handle_loopback dev salt action).
Notation step := (step dev salt action config topic).
Notation run := (run dev salt action config topic).

Lemma dispatch_callers keys q n e :
  same_callers (dispatch_dht_queries keys q n e).1 e /\
  (dispatch_dht_queries keys q n e).2 = (n + len keys)%Z.
Proof.
  revert n e. induction keys as [|k keys IH]; intros n e; cbn [dispatch_dht_queries].
  - split; [done|]. cbn [snd]. rewrite len_nil. lia.
  - destruct (IH (n + 1)%Z (set_query_id_to_name (<[next_id e := q]>
      (query_id_to_name (call (CallGetRecord (next_id e) k) (set_next_id (S (next_id e)) e))))
      (call (CallGetRecord (next_id e) k) (set_next_id (S (next_id e)) e)))) as [IH1 IH2].
    split; [exact IH1|]. cbn [fresh_id]. rewrite len_cons. etrans; [exact IH2|lia].
Qed.

Lemma race_callers name peers e : same_callers (race_cdn name peers e) e.
Proof.
  revert e. induction peers as [|p peers IH]; intros e; [done|]. cbn [race_cdn fresh_id].
  apply (IH (set_pending_cdn_requests _ (call _ (set_next_id _ e)))).
Qed.

Lemma put_loop_callers now name payload x keys n e :
  match put_loop now name payload x keys n e with
  | (e', Some _) => same_callers e' e
  | (e', None) => forall r, weight e' r = count [x] r + weight e r
  end /\ pending_puts (put_loop now name payload x keys n e).1 = pending_puts e.
Proof.
  revert n e. induction keys as [|k keys IH]; intros n e; cbn [EventLoop.put_loop]; [done|].
  destruct (put dev salt action now (el_store e) (MkKadRecord k payload)) as [store [t|err]].
  - destruct (kad_put_record now store (MkKadRecord k payload)) as [store' []].
    + apply (IH (n + 1)%Z (set_query_id_to_name _ (call _ (set_next_id _ (set_el_store store' e))))).
    + apply (IH n (set_el_store store' e)).
  - split; [|done]. intros r. by rewrite weight_reply.
Qed.

Lemma enqueue_weight now name keys payload x e r :
  weight (enqueue_dht_puts dev salt action now name keys payload x e) r = count [x] r + weight e r.
Proof.
  unfold enqueue_dht_puts. destruct (pending_puts e !! name) eqn:Hn; [apply weight_reply|].
  destruct (put_loop_callers now name payload x keys 0 e) as [Hl Hp].
  destruct (put_loop now name payload x keys 0 e) as [e' [n|]]; cbn [fst] in Hp; [|apply Hl].
  rewrite <- (same_callers_weight _ _ r Hl). destruct (n >? 0)%Z; [|apply weight_reply].
  apply (weight_puts e' name r). by rewrite Hp.
Qed.

Lemma start_get_weight name keys x e r :
  pending_gets e !! name = None -> weight (start_get name keys x e) r = count [x] r + weight e r.
Proof.
  intros Hn. unfold start_get. destruct (dispatch_callers keys (QGet name) 0 e) as [Hd _].
  destruct (dispatch_dht_queries keys (QGet name) 0 e) as [e' n]; cbn [fst] in Hd.
  rewrite <- (same_callers_weight _ _ r Hd). apply (weight_gets e' name r).
  by rewrite (proj1 Hd).
Qed.

Lemma join_get_weight name p x e r :
  pending_gets e !! name = Some p -> weight (join_get name p x e) r = count [x] r + weight e r.
Proof.
  intros Hn. unfold join_get. set (p' := MkPendingGet _ _ _ _).
  pose proof (proj1 (proj2 (weight_gets e name r)) p p' Hn) as H. subst p'. fields.
  cbn [pg_responders] in H. rewrite count_occ_app in H. lia.
Qed.

Lemma calls_same {A} (f : A -> SwarmCall) l e :
  quiet e (fold_left (fun e x => call (f x) e) l e).
Proof. by apply (fold_left_rel quiet). Qed.

Lemma handle_command_weight now info c e r :
  requests_fresh e ->
  weight (handle_command dev salt action now info c e) r = count (command_responders c) r + weight e r.
Proof.
  intros [Hp Hs]. destruct c as [x|x|n p x|n p x|n x|n x|n p x|pr q x|ch q|x|t x|t p x|m s a|x|x|x|pr x|l];
    cbn [handle_command command_responders]; try apply weight_reply; try done;
    try (apply enqueue_weight); try (by rewrite weight_reply); fields.
  - rewrite weight_reply. by rewrite <- (quiet_weight _ _ r (calls_same CallDial _ _)).
  - destruct (offline info); [destruct (local_value _ _); apply weight_reply|].
    destruct (pending_gets e !! n) eqn:Hn; [by apply join_get_weight|].
    set (peers := take 3 _). rewrite start_get_weight.
    + by rewrite (same_callers_weight _ _ r (race_callers n peers e)).
    + by rewrite (proj1 (race_callers n peers e)).
  - destruct (offline info); [apply weight_reply|].
    destruct (pending_gets e !! _) eqn:Hn; [by apply join_get_weight|by apply start_get_weight].
  - destruct (pending_quorums e !! n) eqn:Hn; [apply weight_reply|].
    destruct (offline info); [apply weight_reply|].
    destruct (dispatch_callers (derive_storage_keys n salt) (QQuorum n) 0 e) as [Hd _].
    destruct (dispatch_dht_queries _ _ _ e) as [e' k]; cbn [fst] in Hd.
    rewrite <- (same_callers_weight _ _ r Hd). apply (weight_quorums e' n r).
    by rewrite (proj1 (proj2 Hd)).
  - by apply (weight_requests (call (CallProxyRequest (next_id e) pr q) (set_next_id (S (next_id e)) e)) (next_id e) r),
      fresh_request.
  - by apply (weight_requests (call (CallSyncRequest (next_id e) pr) (set_next_id (S (next_id e)) e)) (next_id e) r),
      fresh_request.
Qed.

Lemma quorum_completion_weight name e r : weight (handle_quorum_completion name e) r = weight e r.
Proof.
  unfold handle_quorum_completion. destruct (pending_quorums e !! name) as [p|] eqn:Hn; [|done].
  destruct (_ =? 0)%Z.
  - rewrite weight_reply. symmetry. by apply (weight_quorums e name r).
  - by apply (proj1 (proj2 (weight_quorums e name r)) p).
Qed.

Lemma get_completion_weight name e r : weight (handle_get_completion salt name e) r = weight e r.
Proof.
  unfold handle_get_completion. destruct (pending_gets e !! name) as [p|] eqn:Hn; [|done].
  destruct (weight_gets e name r) as (_ & Hu & Hd). destruct (_ =? 0)%Z.
  - rewrite weight_spawn. cbn [task_responders]. symmetry. by apply Hd.
  - pose proof (Hu p (MkPendingGet (pg_responders p) (decr (pg_expected_responses p))
      (pg_received_payloads p) (pg_peers_queried p)) Hn) as H. cbn [pg_responders] in H. lia.
Qed.

Lemma found_weight now id record e r : weight (handle_found dev salt action now id record e) r = weight e r.
Proof.
  unfold handle_found. destruct (query_id_to_name e !! id) as [[n|n|n]|]; [| |done|].
  - destruct (pending_gets e !! n) as [p|] eqn:Hn; [|done]. set (p' := MkPendingGet _ _ _ _).
    pose proof (proj1 (proj2 (weight_gets e n r)) p p' Hn) as H. subst p'. cbn [pg_responders] in H. lia.
  - destruct (pending_quorums e !! n) as [p|] eqn:Hn; [|done]. case_bool_decide; [|done].
    by apply (proj1 (proj2 (weight_quorums e n r)) p).
  - destruct (pending_reveals e !! id) as [[src rec]|]; [|done].
    destruct (reveal_of_value _); [by rewrite weight_spawn|done].
Qed.

Lemma get_finished_weight id e r : weight (handle_get_finished salt id e) r = weight e r.
Proof.
  unfold handle_get_finished. destruct (query_id_to_name e !! id) as [[n|n|n]|]; [| |done|done].
  - etrans; [apply get_completion_weight|done].
  - etrans; [apply quorum_completion_weight|done].
Qed.

Lemma put_finished_weight id ok e r : weight (handle_put_finished id ok e) r = weight e r.
Proof.
  unfold handle_put_finished. destruct (query_id_to_name e !! id) as [[n|n|n]|]; [done|done| |done].
  fields. destruct (pending_puts e !! n) as [p|] eqn:Hn; [|done].
  pose proof (weight_puts (set_query_id_to_name (delete id (query_id_to_name e)) e) n r) as (_ & Hu & Hd).
  destruct (_ =? 0)%Z.
  - transitivity (weight (set_query_id_to_name (delete id (query_id_to_name e)) e) r); [|done].
    rewrite (Hd p Hn). destruct (_ >? 0)%Z; apply weight_reply.
  - by apply (Hu p).
Qed.

(** The strike blocks leave the queries alone. *)
Lemma strike_quiet now src e :
  quiet (ban_gossip now src e) e /\ quiet (strike_record now src e) e /\
  quiet (strike_put now src e) e.
Proof.
  unfold ban_gossip, strike_record, strike_put. destruct (strike now src (bad_vdf_counts e)) as [c n].
  destruct (n >=? 3)%Z; done.
Qed.

Lemma inbound_put_weight now src record e r :
  weight (handle_inbound_put dev salt action now src record e) r = weight e r.
Proof.
  unfold handle_inbound_put. destruct (_ ≫= _); [by rewrite weight_spawn|].
  destruct (put _ _ _ _ _ _) as [store [t|err]]; [done|].
  destruct (is_error_severity err); [|done].
  etrans; [apply quiet_weight, strike_quiet|done].
Qed.

Lemma cdn_weight ev e r : weight (handle_cdn salt ev e) r = weight e r.
Proof.
  destruct ev as [n|id rec p|id]; [done| |done]. cbn [handle_cdn].
  destruct (pending_cdn_requests e !! id); [|done]. destruct rec as [rec|]; [|done].
  destruct (envelope_from_slice rec) as [[rv]|]; [by rewrite weight_spawn|done].
Qed.

Lemma gossip_weight m s t p e r : weight (handle_gossip m s t p e) r = weight e r.
Proof.
  unfold handle_gossip. destruct (gossip_permits e) as [|n]; [done|].
  etrans; [|exact (weight_spawn (TaskGossip m s t p) (set_gossip_permits n e) r)]. done.
Qed.

Lemma loopback_weight now info cmd e r : weight (handle_loopback now info cmd e) r = weight e r.
Proof.
  destruct cmd as [src rec v|m src [[]|]|p v b|a|d rec p]; cbn [EventLoop.handle_loopback]; try done.
  - destruct v as [t|[]]; cbn [fresh_id]; try done;
      (destruct (is_error_severity _); [apply quiet_weight, strike_quiet|done]).
  - destruct (is_banned _ _); (etrans; [apply (quiet_weight _ (call (CallReportValidation m src (Some false)) e))|done]);
      apply (strike_quiet now src).
  - destruct (_ && _); done.
  - destruct (num_peers info <? 20); done.
  - destruct (envelope_from_slice rec); [|done].
    destruct (handle_put_record _ _ _ _ _ _ _) as [store [t|err]]; [|done]. fields.
    destruct (pending_gets e !! d) as [p'|] eqn:Hn; [|done].
    rewrite weight_reply_all. symmetry.
    by apply (proj2 (proj2 (weight_gets (set_el_store store e) d r))).
Qed.

Lemma task_weight t e r :
  weight (run_task dev salt action config topic t e) r = count (task_responders t) r + weight e r.
Proof.
  destruct t as [n ps k fb rs q|src rec rv k|d rec p rv k|m src t p|k|p k b|ds b]; cbn [run_task task_responders].
  - destruct (xor_tie_breaker _ _ _ _ _ _); [apply weight_reply_all|].
    destruct fb; apply weight_reply_all.
  - done.
  - destruct (_ || _); done.
  - destruct (gossip_valid _ _ _ _ _) as [v|]; [|done]. by destruct (v && _).
  - done.
  - done.
  - symmetry. apply same_callers_weight. apply (fold_left_rel same_callers).
    intros e' a. destruct (is_routable_multiaddr _ _ _ _); done.
Qed.

Lemma proxy_weight ev e r : weight (handle_proxy ev e) r = weight e r.
Proof.
  destruct ev as [q ch|id res|id err]; cbn [handle_proxy]; [by destruct (incoming_proxy _)|..];
    unfold answer_proxy; (destruct (pending_proxy_requests _ !! id) eqn:Hid; [|done]);
    rewrite weight_reply; symmetry; by apply (weight_requests e id r).
Qed.

Lemma sync_weight ev e r : weight (handle_action_sync ev e) r = weight e r.
Proof.
  destruct ev as [ch|id res|id]; cbn [handle_action_sync]; [done|..];
    unfold answer_sync; (destruct (pending_action_sync_requests _ !! id) eqn:Hid; [|done]);
    rewrite weight_reply; symmetry; by apply (weight_requests e id r).
Qed.

(** The peer handlers leave the queries alone. *)
Lemma connected_quiet now p e : quiet (handle_connected now p e) e.
Proof.
  unfold handle_connected, admit_connection. fields. destruct (lru_peek _ _) as [t|];
    [destruct (t >? _)%Z|]; cbn [negb]; try done; destruct (is_bootstrap _ _);
    repeat (match goal with |- context [if ?b then _ else _] => destruct b end); try done;
    (etrans; [by apply quiet_spawn|done]).
Qed.

Lemma identify_quiet now p s l e : quiet (handle_identify dev now p s l e) e.
Proof.
  unfold handle_identify. destruct (_ && _); [done|]. destruct (_ && _); [done|].
  destruct (_ || _); [|done]. symmetry. etrans; [|apply (fold_left_rel quiet)]; [done|].
  intros e' a. destruct (is_routable_multiaddr _ _ _ _); done.
Qed.

Lemma peers_quiet info l p o pub e :
  quiet (handle_mdns dev l e) e /\ quiet (handle_closed p e) e /\
  quiet (handle_connection_error o e) e /\ quiet (handle_nat info pub e) e /\
  quiet (redial_tick info e) e.
Proof.
  split_and!; try done.
  - symmetry. apply (fold_left_rel quiet). intros e' a. destruct (_ || _); done.
  - by destruct o.
  - destruct pub as [a|]; [|done]. symmetry. etrans; [|apply calls_same]. done.
  - unfold redial_tick. destruct (_ =? _); [|destruct (_ <? _); [|done]; symmetry; apply calls_same].
    etrans; [by apply quiet_spawn|]. symmetry. apply calls_same.
Qed.

Lemma step_weight now i e r :
  requests_fresh e -> weight (step now i e) r = count (input_responders i) r + weight e r.
Proof.
  intros Hf. destruct i as [info c|ev|ev|m s t p|ev|ev|p|p s l|l|p|o|info pub|info|info|k| |i];
    cbn [EventLoop.step input_responders count_occ].
  - by apply handle_command_weight.
  - destruct ev as [id rec|id|id ok|src rec]; cbn [handle_kademlia];
      [apply found_weight|apply get_finished_weight|apply put_finished_weight|apply inbound_put_weight].
  - apply cdn_weight.
  - apply gossip_weight.
  - apply proxy_weight.
  - apply sync_weight.
  - apply quiet_weight, connected_quiet.
  - apply quiet_weight, identify_quiet.
  - apply quiet_weight, (peers_quiet (MkSwarmInfo 0 [] [] true []) l [] None None e).
  - apply quiet_weight, (peers_quiet (MkSwarmInfo 0 [] [] true []) [] p None None e).
  - apply quiet_weight, (peers_quiet (MkSwarmInfo 0 [] [] true []) [] [] o None e).
  - apply quiet_weight, (peers_quiet info [] [] None pub e).
  - unfold receive_loopback. destruct (loopback e) as [|cmd rest]; [done|]. apply loopback_weight.
  - apply quiet_weight, (peers_quiet info [] [] None None e).
  - unfold kyn_changed. destruct (_ >? _)%Z; done.
  - by unfold prune_tick; rewrite weight_spawn.
  - unfold run_spawned_task. destruct (tasks e !! i) as [t|] eqn:Hi; [|done].
    rewrite task_weight. symmetry. by apply weight_task.
Qed.

End Conservation.

(** ** Queries in flight *)

Section InFlight.
Context {HSto : StorageEngine} {HLru : LruCache} {HMem : KadMemory} {HAddr : Multiaddrs}.

(** The ids of the swarm that belong to one query of the loop. *)
Definition outstanding (e : NetworkEventLoop) (q : QueryType) : nat :=
  size (filter (fun kv => kv.2 = q) (query_id_to_name e)).

(** The counter of a pending query: within the redundancy, and never above the
    ids still in flight. *)
Definition tracked (e : NetworkEventLoop) (q : QueryType) (expected : Z) : Prop :=
  (1 <= expected <= 32)%Z /\ Z.to_nat expected <= outstanding e q.

Record LoopInv (e : NetworkEventLoop) : Prop := {
  ids_issued : map_Forall (fun id _ => id < next_id e) (query_id_to_name e);
  gets_tracked : map_Forall (fun n p => tracked e (QGet n) (pg_expected_responses p)) (pending_gets e);
  quorums_tracked : map_Forall (fun n p => tracked e (QQuorum n) (pq_expected_responses p)) (pending_quorums e);
  puts_tracked : map_Forall (fun n p => tracked e (QPut n) (pu_expected_responses p)) (pending_puts e);
  requests_issued : requests_fresh e }.

(** [e'] has the queries of [e] and perhaps more. *)
Record grows (e e' : NetworkEventLoop) : Prop := {
  grows_next : next_id e <= next_id e';
  grows_ids : map_Forall (fun id _ => id < next_id e) (query_id_to_name e) ->
    map_Forall (fun id _ => id < next_id e') (query_id_to_name e');
  grows_outstanding q : map_Forall (fun id _ => id < next_id e) (query_id_to_name e) ->
    outstanding e q <= outstanding e' q }.

Lemma grows_refl_ids e e' :
  query_id_to_name e' = query_id_to_name e -> next_id e <= next_id e' -> grows e e'.
Proof.
  intros Hi Hn. split; [done|..]; unfold outstanding; rewrite Hi; [|done].
  intros H id q Hid. specialize (H id q Hid). cbn in H. lia.
Qed.

Lemma grows_trans e e' e'' : grows e e' -> grows e' e'' -> grows e e''.
Proof. intros [H0 H1 H2] [H0' H3 H4]. split; [lia|auto|]. intros q H. etrans; [by apply H2|by apply H4, H1]. Qed.

Lemma tracked_grows e e' q x :
  map_Forall (fun id _ => id < next_id e) (query_id_to_name e) -> grows e e' -> tracked e q x -> tracked e' q x.
Proof. intros Hi Hg [Hx Ho]. split; [done|]. pose proof (grows_outstanding _ _ Hg q Hi). lia. Qed.

(** [e'] has the pending entries of [e] or fewer. *)
Record shrinks (e e' : NetworkEventLoop) : Prop := {
  shrinks_gets : pending_gets e' ⊆ pending_gets e;
  shrinks_quorums : pending_quorums e' ⊆ pending_quorums e;
  shrinks_puts : pending_puts e' ⊆ pending_puts e;
  shrinks_proxy : pending_proxy_requests (requests e') ⊆ pending_proxy_requests (requests e);
  shrinks_sync : pending_action_sync_requests (requests e') ⊆ pending_action_sync_requests (requests e) }.

Lemma same_callers_shrinks e e' : same_callers e' e -> shrinks e e'.
Proof. intros (H1 & H2 & H3 & H4 & H5 & _). split; by rewrite ?H1, ?H2, ?H3, ?H4, ?H5. Qed.

(** The invariant follows the growth of the ids, whatever entries went. *)
Lemma inv_grows e e' : LoopInv e -> grows e e' -> shrinks e e' -> LoopInv e'.
Proof.
  intros [Hi Hg Hq Hp [Rp Rs]] Hgr [Sg Sq Sp Tp Ts]. pose proof (grows_next _ _ Hgr) as Hn.
  split; [by apply (grows_ids _ _ Hgr)|intros n p Hk; apply (tracked_grows e); try done..|].
  - by apply (Hg n p), (lookup_weaken _ _ _ _ Hk).
  - by apply (Hq n p), (lookup_weaken _ _ _ _ Hk).
  - by apply (Hp n p), (lookup_weaken _ _ _ _ Hk).
  - split; intros id x Hid.
    + pose proof (Rp id x (lookup_weaken _ _ _ _ Hid Tp)) as H. cbn in H. lia.
    + pose proof (Rs id x (lookup_weaken _ _ _ _ Hid Ts)) as H. cbn in H. lia.
Qed.

(** A step that leaves the queries in flight as they are. *)
Lemma inv_same e e' :
  query_id_to_name e' = query_id_to_name e -> next_id e <= next_id e' -> shrinks e e' ->
  LoopInv e -> LoopInv e'.
Proof. intros Hi Hn Hs He. by apply (inv_grows e); [|apply grows_refl_ids|]. Qed.

Lemma inv_quiet e e' : quiet e' e -> LoopInv e -> LoopInv e'.
Proof.
  intros (Hs & Hi & Hn). apply inv_same; [done|by rewrite Hn|by apply same_callers_shrinks].
Qed.

Lemma inv_gets e n p :
  LoopInv e -> tracked e (QGet n) (pg_expected_responses p) ->
  LoopInv (set_pending_gets (<[n := p]> (pending_gets e)) e).
Proof. intros [Hi Hg Hq Hp Hr] Ht. split; try done. by apply map_Forall_insert_2. Qed.

Lemma inv_quorums e n p :
  LoopInv e -> tracked e (QQuorum n) (pq_expected_responses p) ->
  LoopInv (set_pending_quorums (<[n := p]> (pending_quorums e)) e).
Proof. intros [Hi Hg Hq Hp Hr] Ht. split; try done. by apply map_Forall_insert_2. Qed.

Lemma inv_puts e n p :
  LoopInv e -> tracked e (QPut n) (pu_expected_responses p) ->
  LoopInv (set_pending_puts (<[n := p]> (pending_puts e)) e).
Proof. intros [Hi Hg Hq Hp Hr] Ht. split; try done. by apply map_Forall_insert_2. Qed.

(** A request under the id the swarm just issued. *)
Lemma inv_request e r :
  LoopInv e ->
  LoopInv (set_proxy_requests (<[next_id e := r]> (pending_proxy_requests (requests e)))
    (set_next_id (S (next_id e)) e)) /\
  LoopInv (set_sync_requests (<[next_id e := r]> (pending_action_sync_requests (requests e)))
    (set_next_id (S (next_id e)) e)).
Proof.
  intros He. assert (He' : LoopInv (set_next_id (S (next_id e)) e)).
  { apply (inv_same e); [done|by fields; lia|done|done]. }
  destruct He' as [Hi Hg Hq Hp [Rp Rs]].
  split; (split; [done..|split]); try done; apply map_Forall_insert_2; done || (fields; lia).
Qed.

(** A new id of the swarm. *)
Definition issue (q : QueryType) (e : NetworkEventLoop) : NetworkEventLoop :=
  set_query_id_to_name (<[next_id e := q]> (query_id_to_name e)) (set_next_id (S (next_id e)) e).

Lemma issue_outstanding e q q' :
  map_Forall (fun id _ => id < next_id e) (query_id_to_name e) ->
  outstanding (issue q e) q' = (if decide (q = q') then 1 else 0) + outstanding e q'.
Proof.
  intros Hi. assert (Hn : query_id_to_name e !! next_id e = None).
  { destruct (_ !! _) eqn:E; [|done]. specialize (Hi _ _ E). cbn in Hi. lia. }
  unfold outstanding, issue. fields. case_decide as Hq.
  - rewrite map_filter_insert_True by done. rewrite map_size_insert_None; [done|].
    by rewrite map_lookup_filter, Hn.
  - rewrite map_filter_insert_not'; [done|done|]. intros y Hy. congruence.
Qed.

Lemma grows_issue q e : grows e (issue q e).
Proof.
  split; [unfold issue; fields; lia|..].
  - intros Hi. unfold issue. fields. apply map_Forall_insert_2; [lia|].
    intros id x Hid. specialize (Hi id x Hid). cbn in Hi. lia.
  - intros q' Hi. rewrite issue_outstanding by done. lia.
Qed.

(** An id that is done. *)
Definition finish (id : QueryId) (e : NetworkEventLoop) : NetworkEventLoop :=
  set_query_id_to_name (delete id (query_id_to_name e)) e.

Lemma finish_outstanding e id q q' :
  query_id_to_name e !! id = Some q ->
  outstanding e q' = (if decide (q = q') then 1 else 0) + outstanding (finish id e) q'.
Proof.
  intros Hid. unfold outstanding, finish. fields. rewrite map_filter_delete. case_decide as Hq.
  - rewrite map_size_delete_Some; [|by exists q; apply map_lookup_filter_Some].
    assert (size (filter (fun kv => kv.2 = q') (query_id_to_name e)) <> 0); [|lia].
    rewrite map_size_ne_0_lookup. exists id. exists q. by apply map_lookup_filter_Some.
  - rewrite delete_id; [done|]. apply map_lookup_filter_None. right. intros x Hx Hx2. simpl in Hx2. congruence.
Qed.

(** What a finished id leaves: every other query is tracked, the pending query
    it belongs to is, once its counter is decremented. *)
Lemma tracked_finish e id q q' x :
  query_id_to_name e !! id = Some q -> q <> q' -> tracked e q' x -> tracked (finish id e) q' x.
Proof.
  intros Hid Hq [Hx Ho]. split; [done|]. rewrite (finish_outstanding e id q q' Hid) in Ho.
  by rewrite decide_False in Ho.
Qed.

Lemma tracked_decr e id q x :
  query_id_to_name e !! id = Some q -> tracked e q x ->
  decr x = (x - 1)%Z /\ (decr x <> 0%Z -> tracked (finish id e) q (decr x)).
Proof.
  intros Hid [Hx Ho]. assert (Hd : decr x = (x - 1)%Z) by (unfold decr; rewrite Z.mod_small; lia).
  split; [done|]. intros H0. rewrite Hd in *. split; [lia|].
  rewrite (finish_outstanding e id q q Hid), decide_True in Ho by done. lia.
Qed.

Lemma finish_ids e id :
  map_Forall (fun id _ => id < next_id e) (query_id_to_name e) ->
  map_Forall (fun id _ => id < next_id (finish id e)) (query_id_to_name (finish id e)).
Proof. intros Hi. by apply map_Forall_delete. Qed.

End InFlight.

(** ** The invariant along a run *)

Section Progress.
Context {HUni : UnicodeCase} {HSha : Sha2} {HSig : MlDsa} {HCod : Codecs} {HJcs : Jcs}
  {HBv : BeaconVerify} {HVdf : VdfEngine} {HSto : StorageEngine} {HPeer : PeerIds} {HEd : Ed25519}
  {HJson : StoredJson} {HSerde : Serde} {HUtf : Utf8Lossy} {HLru : LruCache} {HMem : KadMemory}
  {HRes : ResolverJson} {HRea : ReactorJson} {HStr : PeerStrings} {HKad : KadBehaviour}
  {HAddr : Multiaddrs} {HArgon : Argon2} {HSeeds : DnsSeeds}.
Variables (dev : bool) (salt : bytes) (action : option ActionState)
  (config : ActionConfig) (topic : bytes).
Notation put_loop := (put_loop dev salt action).
Notation handle_loopback := (handle_loopback dev salt action).
Notation step := (step dev salt action config topic).
Notation run := (run dev salt action config topic).

Ltac step_from e := apply (inv_same e); try done; try (fields; lia).
Ltac same e := solve [step_from e].

(** libp2p ends a query with the result of its kind. *)
Definition input_matches (e : NetworkEventLoop) (i : Input) : bool :=
  match i with
  | InKademlia (GetFinished id) =>
      match query_id_to_name e !! id with Some (QPut _) => false | _ => true end
  | InKademlia (PutFinished id _) =>
      match query_id_to_name e !! id with Some (QGet _ | QQuorum _) => false | _ => true end
  | _ => true
  end.

Fixpoint matched (inputs : list (Z * Input)) (e : NetworkEventLoop) : bool :=
  match inputs with
  | [] => true
  | (now, i) :: rest => input_matches e i && matched rest (step now i e)
  end.

Lemma dispatch_grows keys q n e :
  grows e (dispatch_dht_queries keys q n e).1 /\
  (map_Forall (fun id _ => id < next_id e) (query_id_to_name e) ->
   outstanding (dispatch_dht_queries keys q n e).1 q = length keys + outstanding e q).
Proof.
  revert n e. induction keys as [|k keys IH]; intros n e; cbn [dispatch_dht_queries fresh_id].
  - split; [by apply grows_refl_ids|done].
  - set (e1 := call (CallGetRecord (next_id e) k) (issue q e)).
    destruct (IH (n + 1)%Z e1) as [Hg Ho].
    assert (H1 : grows e e1) by (eapply grows_trans; [apply (grows_issue q)|by apply grows_refl_ids]).
    split; [exact (grows_trans _ _ _ H1 Hg)|]. intros Hi.
    transitivity (length keys + outstanding e1 q); [apply Ho, (grows_ids _ _ H1), Hi|].
    change (outstanding e1 q) with (outstanding (issue q e) q).
    rewrite issue_outstanding, decide_True by done. cbn [length]. lia.
Qed.

Lemma race_grows name peers e : grows e (race_cdn name peers e).
Proof.
  revert e. induction peers as [|p peers IH]; intros e; cbn [race_cdn fresh_id]; [by apply grows_refl_ids|].
  eapply grows_trans; [|apply IH]. apply grows_refl_ids; [done|]. fields. lia.
Qed.

Lemma put_loop_grows now name payload x keys n e :
  grows e (put_loop now name payload x keys n e).1 /\
  shrinks e (put_loop now name payload x keys n e).1 /\
  (forall m, (put_loop now name payload x keys n e).2 = Some m ->
   map_Forall (fun id _ => id < next_id e) (query_id_to_name e) ->
   (n <= m <= n + len keys)%Z /\
   Z.to_nat (m - n) + outstanding e (QPut name) <= outstanding (put_loop now name payload x keys n e).1 (QPut name)).
Proof.
  revert n e. induction keys as [|k keys IH]; intros n e; cbn [EventLoop.put_loop].
  { split_and!; [by apply grows_refl_ids|done|]. intros m [= <-] _. cbn [fst].
    rewrite len_nil, Z.sub_diag. split; [lia|done]. }
  rewrite len_cons. pose proof (len_nonneg keys) as Hl. set (rec := MkKadRecord k payload).
  destruct (put dev salt action now (el_store e) rec) as [store [t|err]].
  2: { split_and!; [by apply grows_refl_ids|done|done]. }
  destruct (kad_put_record now store rec) as [store' []].
  - set (e1 := call (CallPutRecord (next_id e) rec) (issue (QPut name) (set_el_store store' e))).
    destruct (IH (n + 1)%Z e1) as (Hg & [] & Ho).
    assert (H1 : grows e e1).
    { apply (grows_trans _ (set_el_store store' e)); [by apply grows_refl_ids|].
      eapply grows_trans; [apply (grows_issue (QPut name))|by apply grows_refl_ids]. }
    split_and!; [exact (grows_trans _ _ _ H1 Hg)|done|].
    intros m Hm Hi. destruct (Ho m Hm) as [Hb Hc]; [by apply (grows_ids _ _ H1)|].
    split; [lia|]. etrans; [|exact Hc].
    change (outstanding e1 (QPut name)) with (outstanding (issue (QPut name) (set_el_store store' e)) (QPut name)).
    rewrite issue_outstanding, decide_True by done.
    change (outstanding (set_el_store store' e) (QPut name)) with (outstanding e (QPut name)). lia.
  - destruct (IH n (set_el_store store' e)) as (Hg & [] & Ho).
    assert (H1 : grows e (set_el_store store' e)) by by apply grows_refl_ids.
    split_and!; [exact (grows_trans _ _ _ H1 Hg)|done|].
    intros m Hm Hi. destruct (Ho m Hm) as [Hb Hc]; [done|]. split; [lia|exact Hc].
Qed.

Lemma enqueue_inv now name keys payload x e :
  length keys = M_REDUNDANCY -> LoopInv e ->
  LoopInv (enqueue_dht_puts dev salt action now name keys payload x e).
Proof.
  intros Hk He. unfold enqueue_dht_puts. destruct (pending_puts e !! name) eqn:Hn; [same e|].
  destruct (put_loop_grows now name payload x keys 0 e) as (Hg & Hs & Ho).
  destruct (put_loop now name payload x keys 0 e) as [e' o]; cbn [fst snd] in *.
  assert (He' : LoopInv e') by by apply (inv_grows e).
  destruct o as [m|]; [|done]. destruct (m >? 0)%Z eqn:Hm; [|same e'].
  apply inv_puts; [done|]. cbn [pu_expected_responses]. zbool.
  destruct (Ho m eq_refl (ids_issued e He)) as [Hb Hc].
  assert (Hl : length keys = 32) by exact Hk. unfold len in Hb. rewrite Hl in Hb.
  rewrite Z.sub_0_r in Hc. split; lia.
Qed.

(** After a dispatch over the keys of a name the new entry is tracked. *)
Lemma dispatch_inv keys q e :
  length keys = M_REDUNDANCY -> LoopInv e ->
  LoopInv (dispatch_dht_queries keys q 0 e).1 /\
  tracked (dispatch_dht_queries keys q 0 e).1 q (dispatch_dht_queries keys q 0 e).2.
Proof.
  intros Hk He. destruct (dispatch_callers keys q 0 e) as [Hc ->].
  destruct (dispatch_grows keys q 0 e) as [Hgr Ho]. split.
  - by apply (inv_grows e); [| |apply same_callers_shrinks].
  - specialize (Ho (ids_issued e He)). assert (Hl : length keys = 32) by exact Hk.
    unfold tracked, len. rewrite Ho, Hl. change (Z.to_nat (0 + Z.of_nat 32)) with 32. split; lia.
Qed.

Lemma start_get_inv name keys x e :
  length keys = M_REDUNDANCY -> LoopInv e -> LoopInv (start_get name keys x e).
Proof.
  intros Hk He. unfold start_get. destruct (dispatch_inv keys (QGet name) e Hk He) as [Hi Ht].
  destruct (dispatch_dht_queries keys (QGet name) 0 e) as [e' n]. by apply inv_gets.
Qed.

Lemma handle_command_inv now info c e :
  LoopInv e -> LoopInv (handle_command dev salt action now info c e).
Proof.
  intros He. assert (Hr : forall x rp, LoopInv (reply x rp e)) by (intros; same e).
  destruct c as [x|x|n p x|n p x|n x|n x|n p x|pr q x|ch q|x|t x|t p x|m s a|x|x|x|pr x|l];
    cbn [handle_command]; try apply Hr; try same e;
    try (apply enqueue_inv; [apply derive_keys_count|done]).
  - set (e' := fold_left _ _ _). apply (inv_same e'); [done|done|done|]. subst e'.
    eapply inv_quiet; [symmetry; apply (calls_same CallDial)|]. same e.
  - destruct (offline info); [destruct (local_value _ _); apply Hr|].
    destruct (pending_gets e !! n) as [pg|] eqn:Hn; [apply inv_gets; [done|exact (gets_tracked e He _ _ Hn)]|].
    apply start_get_inv; [apply derive_keys_count|].
    by apply (inv_grows e); [|apply race_grows|apply same_callers_shrinks, race_callers].
  - destruct (offline info); [apply Hr|].
    destruct (pending_gets e !! _) as [pg|] eqn:Hn; [apply inv_gets; [done|exact (gets_tracked e He _ _ Hn)]|].
    apply start_get_inv; [apply derive_keys_count|done].
  - destruct (pending_quorums e !! n) eqn:Hn; [apply Hr|]. destruct (offline info); [apply Hr|].
    destruct (dispatch_inv (derive_storage_keys n salt) (QQuorum n) e) as [Hi Ht];
      [apply derive_keys_count|done|].
    destruct (dispatch_dht_queries _ _ _ e) as [e' k]. by apply inv_quorums.
  - apply (inv_request (call (CallProxyRequest (next_id e) pr q) e)). same e.
  - apply (inv_request (call (CallSyncRequest (next_id e) pr) e)). same e.
Qed.

(** The maps without the pending query of a finished id. *)
Lemma inv_finish e id q :
  LoopInv e -> query_id_to_name e !! id = Some q ->
  LoopInv (MkLoop (el_store e)
    (match q with QGet n => delete n (pending_gets e) | _ => pending_gets e end)
    (match q with QQuorum n => delete n (pending_quorums e) | _ => pending_quorums e end)
    (match q with QPut n => delete n (pending_puts e) | _ => pending_puts e end)
    (pending_reveals e) (delete id (query_id_to_name e)) (pending_cdn_requests e) (requests e) (peers e) (bad_vdf_counts e)
    (banned_peers e) (el_current_kyn e) (gossip_permits e) (next_id e) (tasks e) (loopback e)
    (replies e) (swarm_log e)).
Proof.
  intros He Hid. set (e' := MkLoop _ _ _ _ _ _ _ _ _ _ _ _ _ _ _ _ _ _).
  assert (Ht : forall q' x, q <> q' -> tracked e q' x -> tracked e' q' x).
  { intros q' x Hq H. by apply (tracked_finish e id q). }
  split; [by apply (finish_ids e id), He|..|exact (requests_issued e He)]; intros n p Hn; apply Ht; subst e';
    cbn [pending_gets pending_quorums pending_puts] in Hn.
  - intros ->. by rewrite lookup_delete_eq in Hn.
  - apply (gets_tracked e He n p). destruct q; [by apply lookup_delete_Some in Hn as [_ ?]|done|done].
  - intros ->. by rewrite lookup_delete_eq in Hn.
  - apply (quorums_tracked e He n p). destruct q; [done|by apply lookup_delete_Some in Hn as [_ ?]|done].
  - intros ->. by rewrite lookup_delete_eq in Hn.
  - apply (puts_tracked e He n p). destruct q; [done|done|by apply lookup_delete_Some in Hn as [_ ?]].
Qed.


Lemma get_finished_inv id e :
  input_matches e (InKademlia (GetFinished id)) = true -> LoopInv e -> LoopInv (handle_get_finished salt id e).
Proof.
  intros Hm He. cbn [input_matches] in Hm. unfold handle_get_finished.
  destruct (query_id_to_name e !! id) as [[n|n|n]|] eqn:Hid; [| |done|].
  - pose proof (inv_finish e id _ He Hid) as Hf. cbn match in Hf. unfold handle_get_completion. fields.
    destruct (pending_gets e !! n) as [p|] eqn:Hn; [|rewrite (delete_id (pending_gets e)) in Hf by done; exact Hf].
    destruct (tracked_decr e id _ _ Hid (gets_tracked e He n p Hn)) as [_ Ht].
    destruct (_ =? 0)%Z eqn:H0; zbool; [by refine (inv_same _ _ _ _ _ Hf)|].
    apply (inv_gets _ n (MkPendingGet (pg_responders p) (decr (pg_expected_responses p))
      (pg_received_payloads p) (pg_peers_queried p))) in Hf; [|by apply Ht].
    cbn [pending_gets] in Hf. by rewrite insert_delete_eq in Hf.
  - pose proof (inv_finish e id _ He Hid) as Hf. cbn match in Hf. unfold handle_quorum_completion. fields.
    destruct (pending_quorums e !! n) as [p|] eqn:Hn; [|rewrite (delete_id (pending_quorums e)) in Hf by done; exact Hf].
    destruct (tracked_decr e id _ _ Hid (quorums_tracked e He n p Hn)) as [_ Ht].
    destruct (_ =? 0)%Z eqn:H0; zbool; [by refine (inv_same _ _ _ _ _ Hf)|].
    apply (inv_quorums _ n (MkPendingQuorum (pq_responder p) (decr (pq_expected_responses p))
      (pq_target_payload p) (pq_match_count p))) in Hf; [|by apply Ht].
    cbn [pending_quorums] in Hf. by rewrite insert_delete_eq in Hf.
  - same e.
Qed.

Lemma put_finished_inv id ok e :
  input_matches e (InKademlia (PutFinished id ok)) = true -> LoopInv e -> LoopInv (handle_put_finished id ok e).
Proof.
  intros Hm He. cbn [input_matches] in Hm. unfold handle_put_finished.
  destruct (query_id_to_name e !! id) as [[n|n|n]|] eqn:Hid; [done|done| |done].
  pose proof (inv_finish e id _ He Hid) as Hf. cbn match in Hf. fields.
  destruct (pending_puts e !! n) as [p|] eqn:Hn; [|rewrite (delete_id (pending_puts e)) in Hf by done; exact Hf].
  destruct (tracked_decr e id _ _ Hid (puts_tracked e He n p Hn)) as [_ Ht].
  set (success := if ok then _ else _). destruct (_ =? 0)%Z eqn:H0; zbool.
  - destruct (success >? 0)%Z; by refine (inv_same _ _ _ _ _ Hf).
  - apply (inv_puts _ n (MkPendingPut (pu_responder p) (decr (pu_expected_responses p)) success)) in Hf;
      [|by apply Ht].
    cbn [pending_puts] in Hf. by rewrite insert_delete_eq in Hf.
Qed.

Lemma found_inv now id record e : LoopInv e -> LoopInv (handle_found dev salt action now id record e).
Proof.
  intros He. unfold handle_found. destruct (query_id_to_name e !! id) as [[n|n|n]|]; [| |done|].
  - destruct (pending_gets e !! n) as [p|] eqn:Hn; [|done].
    apply inv_gets; [done|exact (gets_tracked e He _ _ Hn)].
  - destruct (pending_quorums e !! n) as [p|] eqn:Hn; [|done]. case_bool_decide; [|done].
    apply inv_quorums; [done|exact (quorums_tracked e He _ _ Hn)].
  - destruct (pending_reveals e !! id) as [[src rec]|]; [|done].
    destruct (reveal_of_value _); same e.
Qed.

Lemma inbound_put_inv now src record e :
  LoopInv e -> LoopInv (handle_inbound_put dev salt action now src record e).
Proof.
  intros He. unfold handle_inbound_put. destruct (_ ≫= _); [same e|].
  destruct (put _ _ _ _ _ _) as [store [t|err]]; [same e|].
  destruct (is_error_severity err); [eapply inv_quiet; [apply strike_quiet|]|]; same e.
Qed.

Lemma cdn_inv ev e : LoopInv e -> LoopInv (handle_cdn salt ev e).
Proof.
  intros He. destruct ev as [n|id rec p|id]; cbn [handle_cdn]; [same e| |same e].
  destruct (pending_cdn_requests e !! id); [|same e]. destruct rec as [rec|]; [|same e].
  destruct (envelope_from_slice rec) as [[rv]|]; same e.
Qed.

Lemma reply_all_inv l rp e : LoopInv e -> LoopInv (reply_all l rp e).
Proof.
  revert e. induction l as [|x l IH]; intros e He; [done|]. apply IH. same e.
Qed.

Lemma loopback_inv now info cmd e : LoopInv e -> LoopInv (handle_loopback now info cmd e).
Proof.
  intros He.
  destruct cmd as [src rec v|m src [[]|]|p v b|a|d rec p]; cbn [EventLoop.handle_loopback]; try same e.
  - destruct v as [t|[]]; cbn [fresh_id]; try same e;
      (destruct (is_error_severity _); [eapply inv_quiet; [apply strike_quiet|done]|done]).
  - destruct (is_banned _ _); [apply (inv_same (ban_gossip now src (call (CallReportValidation m src (Some false)) e)));
      try done|]; (eapply inv_quiet; [apply strike_quiet|same e]).
  - destruct (_ && _); same e.
  - destruct (_ <? _); same e.
  - destruct (envelope_from_slice rec); [|done].
    destruct (handle_put_record _ _ _ _ _ _ _) as [store [t|err]]; [|same e]. fields.
    destruct (pending_gets e !! d) as [p'|] eqn:Hn; [|same e].
    apply reply_all_inv. step_from e. split; try done. apply delete_subseteq.
Qed.

Lemma task_inv t e : LoopInv e -> LoopInv (run_task dev salt action config topic t e).
Proof.
  intros He. destruct t as [n ps k fb rs q|src rec rv k|d rec p rv k|m src t p|k|p k b|ds b]; cbn [run_task];
    try same e.
  - destruct (xor_tie_breaker _ _ _ _ _ _); [by apply reply_all_inv|].
    destruct fb; by apply reply_all_inv.
  - destruct (_ || _); same e.
  - destruct (gossip_valid _ _ _ _ _) as [v|]; [|same e]. destruct (v && _); same e.
  - eapply inv_quiet; [|exact He]. symmetry. apply (fold_left_rel quiet).
    intros e' a. destruct (is_routable_multiaddr _ _ _ _); done.
Qed.

Lemma request_inv ev ev' e :
  LoopInv e -> LoopInv (handle_proxy ev e) /\ LoopInv (handle_action_sync ev' e).
Proof.
  intros He. split.
  - destruct ev as [q ch|id res|id err]; cbn [handle_proxy]; [destruct (incoming_proxy _); same e|..];
      unfold answer_proxy; (destruct (_ !! id); [|done]); step_from e; split; try done; apply delete_subseteq.
  - destruct ev' as [ch|id res|id]; cbn [handle_action_sync]; [same e|..];
      unfold answer_sync; (destruct (_ !! id); [|done]); step_from e; split; try done; apply delete_subseteq.
Qed.

Lemma step_inv now i e : input_matches e i = true -> LoopInv e -> LoopInv (step now i e).
Proof.
  intros Hm He. destruct i as [info c|ev|ev|m s t p|ev|ev|p|p s l|l|p|o|info pub|info|info|k| |i];
    cbn [EventLoop.step].
  - by apply handle_command_inv.
  - destruct ev as [id rec|id|id ok|src rec]; cbn [handle_kademlia];
      [by apply found_inv|by apply get_finished_inv|by apply put_finished_inv|by apply inbound_put_inv].
  - by apply cdn_inv.
  - unfold handle_gossip. destruct (gossip_permits e); same e.
  - by apply (request_inv ev (SyncRequest 0) e).
  - by apply (request_inv (ProxyAnswer 0 (MkProxyResponse 0 [] [])) ev e).
  - eapply inv_quiet; [apply connected_quiet|done].
  - eapply inv_quiet; [apply identify_quiet|done].
  - eapply inv_quiet; [apply (peers_quiet dev (MkSwarmInfo 0 [] [] true []) l [] None None e)|done].
  - eapply inv_quiet; [apply (peers_quiet dev (MkSwarmInfo 0 [] [] true []) [] p None None e)|done].
  - eapply inv_quiet; [apply (peers_quiet dev (MkSwarmInfo 0 [] [] true []) [] [] o None e)|done].
  - eapply inv_quiet; [apply (peers_quiet dev info [] [] None pub e)|done].
  - unfold receive_loopback. destruct (loopback e) as [|cmd rest]; [done|]. apply loopback_inv. same e.
  - eapply inv_quiet; [apply (peers_quiet dev info [] [] None None e)|done].
  - unfold kyn_changed. destruct (_ >? _)%Z; same e.
  - same e.
  - unfold run_spawned_task. destruct (tasks e !! i) as [t|]; [|done]. apply task_inv. same e.
Qed.

Lemma run_inv inputs e : matched inputs e = true -> LoopInv e -> LoopInv (run inputs e).
Proof.
  revert e. induction inputs as [|[now i] inputs IH]; intros e Hm He; [done|].
  cbn [matched] in Hm. zbool. apply IH; [done|]. by apply step_inv.
Qed.

(** The loop at its first turn holds nobody. *)
Lemma loop_boot_quiet store kyn nodes seeds disable channels :
  quiet (loop_boot store kyn nodes seeds disable channels) (loop_new store kyn nodes seeds disable channels).
Proof. symmetry. apply (calls_same (fun a => CallDial (maddr_to_vec a))). Qed.

Lemma loop_boot_inv store kyn nodes seeds disable channels :
  LoopInv (loop_boot store kyn nodes seeds disable channels).
Proof.
  eapply inv_quiet; [apply loop_boot_quiet|]. unfold loop_new. destruct (restore_bans _ _).
  split; [apply map_Forall_empty..|split; apply map_Forall_empty].
Qed.

Lemma loop_boot_weight store kyn nodes seeds disable channels r :
  weight (loop_boot store kyn nodes seeds disable channels) r = 0.
Proof.
  rewrite (quiet_weight _ _ r (loop_boot_quiet store kyn nodes seeds disable channels)).
  unfold loop_new, weight, held, answered. destruct (restore_bans _ _). fields. cbn [map mbind list_bind].
  by rewrite !count_occ_app, !holders_empty.
Qed.

(** The callers of a run. *)
Definition callers (inputs : list (Z * Input)) : list Responder :=
  inputs ≫= fun x => input_responders x.2.

Lemma run_weight inputs e r :
  matched inputs e = true -> LoopInv e ->
  weight (run inputs e) r = count (callers inputs) r + weight e r.
Proof.
  revert e. induction inputs as [|[now i] inputs IH]; intros e Hm He; [done|].
  cbn [matched] in Hm. zbool. cbn [EventLoop.run fold_left fst snd].
  etrans; [apply IH; [done|by apply step_inv]|]. rewrite step_weight by exact (requests_issued e He).
  change (callers ((now, i) :: inputs)) with (input_responders i ++ callers inputs).
  rewrite count_occ_app. lia.
Qed.

(** C11: in every reachable state each pending get, quorum check and publication
    waits for at least one and at most 32 results, for no more than the swarm
    has in flight for it, so the decrement of its counter never wraps; and the
    ids of the proxy and action-sync requests were issued by the swarm, so a
    new request never takes the place of one that waits. *)
Theorem pending_queries_bounded store kyn nodes seeds disable channels inputs :
  matched inputs (loop_boot store kyn nodes seeds disable channels) = true ->
  LoopInv (run inputs (loop_boot store kyn nodes seeds disable channels)).
Proof. intros Hm. by apply run_inv, loop_boot_inv. Qed.

(** *** Nobody waits for ever *)

(** Nothing in flight and no resolution still to run. *)
Definition quiescent (e : NetworkEventLoop) : Prop :=
  query_id_to_name e = ∅ /\ pending_proxy_requests (requests e) = ∅ /\
  pending_action_sync_requests (requests e) = ∅ /\ tasks e ≫= task_responders = [].

Lemma quiescent_held e : LoopInv e -> quiescent e -> held e = [].
Proof.
  intros He (Hi & Hp & Hs & Ht). unfold held. rewrite Ht, Hp, Hs.
  assert (Ho : forall q x, tracked e q x -> False).
  { intros q x [Hx Hn]. unfold outstanding in Hn. rewrite Hi, map_filter_empty, map_size_empty in Hn. lia. }
  enough (pending_gets e = ∅ /\ pending_quorums e = ∅ /\ pending_puts e = ∅) as (-> & -> & ->).
  { unfold holders. by rewrite !map_to_list_empty. }
  split_and!; apply map_empty; intros n; apply eq_None_not_Some; intros [p Hn];
    eapply Ho; [by apply (gets_tracked e He)|by apply (quorums_tracked e He)|by apply (puts_tracked e He)].
Qed.

(** What is in flight. *)
Record Flight := MkFlight {
  fl_queries : gmap QueryId QueryType; fl_proxy : gmap QueryId Responder; fl_sync : gmap QueryId Responder }.
Definition flight (e : NetworkEventLoop) : Flight :=
  MkFlight (query_id_to_name e) (pending_proxy_requests (requests e)) (pending_action_sync_requests (requests e)).

(** The result that ends a query of the swarm, and those that end a request. *)
Definition finish_event (now : Z) (kv : QueryId * QueryType) : Z * Input :=
  (now, InKademlia (match kv.2 with QPut _ => PutFinished kv.1 false | _ => GetFinished kv.1 end)).
Definition proxy_event (now : Z) (kv : QueryId * Responder) : Z * Input :=
  (now, InProxy (ProxyFailure kv.1 OfTimeout)).
Definition sync_event (now : Z) (kv : QueryId * Responder) : Z * Input := (now, InSync (SyncFailure kv.1)).

(** The swarm ends what is in flight, then the tasks run. *)
Definition finish_flight (now : Z) (e : NetworkEventLoop) : list (Z * Input) :=
  map (finish_event now) (map_to_list (fl_queries (flight e)))
  ++ map (proxy_event now) (map_to_list (fl_proxy (flight e)))
  ++ map (sync_event now) (map_to_list (fl_sync (flight e))).
Definition drain (now : Z) (e : NetworkEventLoop) : list (Z * Input) :=
  finish_flight now e ++ replicate (length (tasks (run (finish_flight now e) e))) (now, InTask 0).

Lemma finish_event_flight now id q e :
  query_id_to_name e !! id = Some q ->
  input_matches e (finish_event now (id, q)).2 = true /\
  flight (step now (finish_event now (id, q)).2 e)
  = MkFlight (delete id (query_id_to_name e)) (fl_proxy (flight e)) (fl_sync (flight e)).
Proof.
  intros Hid. unfold finish_event. destruct q as [n|n|n]; cbn [fst snd input_matches]; rewrite Hid;
    (split; [done|]); cbn [EventLoop.step handle_kademlia];
    unfold handle_get_finished, handle_put_finished; rewrite Hid; fields.
  - unfold handle_get_completion. fields. destruct (pending_gets e !! n); [|done]. by destruct (_ =? 0)%Z.
  - unfold handle_quorum_completion. fields. destruct (pending_quorums e !! n); [|done]. by destruct (_ =? 0)%Z.
  - destruct (pending_puts e !! n); [|done]. destruct (_ =? 0)%Z; [|done]. by destruct (_ >? 0)%Z.
Qed.

Lemma request_event_flight now kv e :
  (fl_proxy (flight e) !! kv.1 = Some kv.2 ->
   flight (step (proxy_event now kv).1 (proxy_event now kv).2 e)
   = MkFlight (fl_queries (flight e)) (delete kv.1 (fl_proxy (flight e))) (fl_sync (flight e))) /\
  (fl_sync (flight e) !! kv.1 = Some kv.2 ->
   flight (step (sync_event now kv).1 (sync_event now kv).2 e)
   = MkFlight (fl_queries (flight e)) (fl_proxy (flight e)) (delete kv.1 (fl_sync (flight e)))).
Proof.
  split; intros Hk; cbn [flight fl_proxy fl_sync] in Hk;
    cbn [EventLoop.step proxy_event sync_event fst snd handle_proxy handle_action_sync];
    unfold answer_proxy, answer_sync; by rewrite Hk.
Qed.

(** Ending the entries of a map one by one empties it: [get] reads the map of a
    loop, and each event deletes its key from it and leaves [rest] alone. *)
Lemma end_all {V R} (get : NetworkEventLoop -> gmap QueryId V) (rest : NetworkEventLoop -> R)
    (ev : QueryId * V -> Z * Input) l e :
  (forall kv e, get e !! kv.1 = Some kv.2 ->
     input_matches e (ev kv).2 = true /\ get (step (ev kv).1 (ev kv).2 e) = delete kv.1 (get e) /\
     rest (step (ev kv).1 (ev kv).2 e) = rest e) ->
  NoDup l.*1 -> (forall id v, get e !! id = Some v <-> (id, v) ∈ l) ->
  matched (map ev l) e = true /\ get (run (map ev l) e) = ∅ /\ rest (run (map ev l) e) = rest e.
Proof.
  intros Hev. revert e. induction l as [|[id v] l IH]; intros e Hd Hl.
  { split; [done|]. split; [|done]. apply map_empty. intros id. apply eq_None_not_Some. intros [v Hv].
    apply Hl in Hv. by apply elem_of_nil in Hv. }
  destruct (Hev (id, v) e) as (Hm & Hg & Hr); [apply Hl; left|].
  apply NoDup_cons in Hd as [Hid Hd]. cbn [map]. destruct (ev (id, v)) as [now i] eqn:Hi. cbn [fst snd] in *.
  cbn [matched EventLoop.run fold_left fst snd]. rewrite Hm.
  destruct (IH (step now i e)) as (H1 & H2 & H3); [done| |].
  - intros id' v'. rewrite Hg, lookup_delete_Some, Hl, elem_of_cons. split.
    + intros [Hne [Heq|H]]; [congruence|done].
    + intros H. split; [|by right]. intros ->. apply Hid. by apply (list_elem_of_fmap_2 fst l (id', v')).
  - split_and!; [exact H1|exact H2|by rewrite <- Hr].
Qed.

Lemma matched_app l l' e : matched (l ++ l') e = matched l e && matched l' (run l e).
Proof.
  revert e. induction l as [|[now i] l IH]; intros e; [done|]. cbn [app matched].
  rewrite IH, andb_assoc. done.
Qed.

Lemma run_app l l' e : run (l ++ l') e = run l' (run l e).
Proof. apply fold_left_app. Qed.

Lemma finish_flight_ends now e :
  matched (finish_flight now e) e = true /\ flight (run (finish_flight now e) e) = MkFlight ∅ ∅ ∅.
Proof.
  unfold finish_flight. rewrite !matched_app, !run_app.
  destruct (end_all query_id_to_name (fun e => (fl_proxy (flight e), fl_sync (flight e))) (finish_event now)
    (map_to_list (fl_queries (flight e))) e) as (-> & Hq1 & Hr1).
  { intros [id q] e1 Hid. destruct (finish_event_flight now id q e1 Hid) as [Hm Hf].
    split; [exact Hm|]. unfold flight in Hf. injection Hf as Hf1 Hf2 Hf3. split; [exact Hf1|].
    cbn [flight fl_proxy fl_sync]. f_equal; [exact Hf2|exact Hf3]. }
  { apply NoDup_fst_map_to_list. } { intros. by rewrite elem_of_map_to_list. }
  set (e1 := run (map _ _) e) in *. apply pair_equal_spec in Hr1 as [Hp1 Hs1]. rewrite <- Hp1, <- Hs1.
  destruct (end_all (fun e => fl_proxy (flight e)) (fun e => (fl_queries (flight e), fl_sync (flight e))) (proxy_event now)
    (map_to_list (fl_proxy (flight e1))) e1) as (-> & Hp2 & Hr2).
  { intros kv e2 Hid. split; [done|]. pose proof (proj1 (request_event_flight now kv e2) Hid) as Hf.
    by rewrite Hf. }
  { apply NoDup_fst_map_to_list. } { intros. by rewrite elem_of_map_to_list. }
  set (e2 := run (map _ _) e1) in *. apply pair_equal_spec in Hr2 as [Hq2 Hs2]. rewrite <- Hs2.
  destruct (end_all (fun e => fl_sync (flight e)) (fun e => (fl_queries (flight e), fl_proxy (flight e))) (sync_event now)
    (map_to_list (fl_sync (flight e2))) e2) as (-> & Hs3 & Hr3).
  { intros kv e3 Hid. split; [done|]. pose proof (proj2 (request_event_flight now kv e3) Hid) as Hf.
    by rewrite Hf. }
  { apply NoDup_fst_map_to_list. } { intros. by rewrite elem_of_map_to_list. }
  apply pair_equal_spec in Hr3 as [Hq3 Hp3]. split; [done|].
  unfold flight in *. cbn [fl_queries fl_proxy fl_sync] in *. f_equal; congruence.
Qed.

Lemma reply_all_fields l rp e :
  tasks (reply_all l rp e) = tasks e /\ flight (reply_all l rp e) = flight e.
Proof.
  revert e. induction l as [|x l IH]; intros e; [done|]. apply (IH (reply x rp e)).
Qed.

Lemma run_task_fields t e :
  tasks (run_task dev salt action config topic t e) = tasks e /\
  flight (run_task dev salt action config topic t e) = flight e.
Proof.
  destruct t as [n ps k fb rs q|src rec rv k|d rec p rv k|m src t p|k|p k b|ds b]; cbn [run_task].
  - destruct (xor_tie_breaker _ _ _ _ _ _); [apply reply_all_fields|]. destruct fb; apply reply_all_fields.
  - done.
  - by destruct (_ || _).
  - destruct (gossip_valid _ _ _ _ _) as [v|]; [|done]. by destruct (v && _).
  - done.
  - done.
  - generalize e. induction (seed_addrs ds) as [|a l IH]; intros e'; [done|]. cbn [fold_left].
    destruct (is_routable_multiaddr _ _ _ _); [|apply IH].
    apply (IH (send_loopback (DialResolvedSeed (maddr_to_vec a)) e')).
Qed.

Lemma run_all_tasks now n e :
  length (tasks e) = n ->
  matched (replicate n (now, InTask 0)) e = true /\
  tasks (run (replicate n (now, InTask 0)) e) = [] /\
  flight (run (replicate n (now, InTask 0)) e) = flight e.
Proof.
  revert e. induction n as [|n IH]; intros e Hn.
  { split_and!; [done| |done]. by apply nil_length_inv. }
  destruct (tasks e) as [|t ts] eqn:Ht; [done|]. cbn [length] in Hn.
  cbn [replicate matched input_matches EventLoop.run fold_left fst snd andb].
  set (e' := step now (InTask 0) e).
  assert (He' : tasks e' = ts /\ flight e' = flight e).
  { subst e'. cbn [EventLoop.step]. unfold run_spawned_task. rewrite Ht. cbn [lookup list_lookup].
    destruct (run_task_fields t (set_tasks (delete 0 (t :: ts)) e)) as [-> ->]. done. }
  destruct He' as [Hts Hids]. rewrite <- Hids. apply IH. rewrite Hts. lia.
Qed.

Lemma drain_quiescent now e : matched (drain now e) e = true /\ quiescent (run (drain now e) e).
Proof.
  destruct (finish_flight_ends now e) as [Hm Hi].
  unfold drain. set (e' := run (finish_flight now e) e) in *. rewrite matched_app, run_app. fold e'.
  destruct (run_all_tasks now (length (tasks e')) e' eq_refl) as (Hm' & Ht & Hi').
  rewrite Hm, Hm'. split; [done|]. rewrite Hi in Hi'. unfold flight in Hi'. injection Hi' as H1 H2 H3.
  split_and!; [exact H1|exact H2|exact H3|by rewrite Ht].
Qed.

Lemma drain_callers now e : callers (drain now e) = [].
Proof.
  assert (Hn : forall {A} (ev : A -> Z * Input) l,
    (forall x, input_responders (ev x).2 = []) -> callers (map ev l) = []).
  { intros A ev l Hev. unfold callers. induction l as [|x l IH]; [done|].
    cbn [map mbind list_bind]. by rewrite Hev, IH. }
  unfold drain, finish_flight, callers. rewrite !bind_app. fold (callers (replicate (length (tasks
    (run (finish_flight now e) e))) (now, InTask 0))).
  rewrite !Hn by done. cbn [app]. unfold callers. induction (length _) as [|n IH]; [done|exact IH].
Qed.

(** C4: nobody is forgotten or answered twice, and nobody waits for ever.  At
    every moment of a run the responders the loop holds and those it has
    answered are the callers, each exactly once; all are answered once nothing
    is in flight and no resolution task is left; and when the swarm ends what
    is in flight, in any state, and the tasks have run, that is the case. *)
Theorem every_caller_answered store kyn nodes seeds disable channels inputs :
  matched inputs (loop_boot store kyn nodes seeds disable channels) = true ->
  let e := run inputs (loop_boot store kyn nodes seeds disable channels) in
  held e ++ answered e ≡ₚ callers inputs /\
  (quiescent e -> answered e ≡ₚ callers inputs) /\
  forall now, matched (drain now e) e = true /\ answered (run (drain now e) e) ≡ₚ callers inputs.
Proof.
  set (e0 := loop_boot store kyn nodes seeds disable channels).
  assert (He0 : LoopInv e0) by apply loop_boot_inv.
  assert (Hh : forall l, matched l e0 = true -> held (run l e0) ++ answered (run l e0) ≡ₚ callers l).
  { intros l Hm. apply (Permutation_count_occ Nat.eq_dec). intros r. rewrite count_occ_app.
    change (weight (run l e0) r = count (callers l) r).
    rewrite run_weight by done. subst e0. rewrite loop_boot_weight. lia. }
  assert (Hq : forall l, matched l e0 = true -> quiescent (run l e0) -> answered (run l e0) ≡ₚ callers l).
  { intros l Hm Hq. specialize (Hh l Hm). by rewrite quiescent_held in Hh; [|apply run_inv|]. }
  intros Hm e. split; [by apply Hh|]. split; [by apply Hq|].
  intros now. destruct (drain_quiescent now e) as [Hd Hdq].
  split; [done|]. unfold e in *. rewrite <- run_app in Hdq |- *.
  etrans; [apply Hq; [by rewrite matched_app, Hm|done]|].
  unfold callers. rewrite bind_app. fold (callers (drain now (run inputs e0))).
  by rewrite drain_callers, app_nil_r.
Qed.

End Progress.
