(* ===== verification/LoopSafety.v ===== *)
(** * What the event loop lets through

    Records commit and lookups resolve only after verification, gossip is
    relayed only when validated; the strikes that lead to a ban.  And what the
    loop does not do: it never limits gossip, never resolves a heartbeat, and
    hands a CDN peer's record to the callers of another name. *)
From Stdlib Require Import String.
From S2P Require Import Prelude Sorting Bytes Config Crypto Kyn Names Physics Net Kid Records Action Verify Lru Peers DnsTree Storage StoreVerify TieBreaker Store EventLoop Waiting.
#[local] Open Scope Z_scope.

Section Safety.
Context {HUni : UnicodeCase} {HSha : Sha2} {HSig : MlDsa} {HCod : Codecs} {HJcs : Jcs}
  {HBv : BeaconVerify} {HVdf : VdfEngine} {HSto : StorageEngine} {HPeer : PeerIds} {HEd : Ed25519}
  {HJson : StoredJson} {HSerde : Serde} {HUtf : Utf8Lossy} {HLru : LruCache} {HMem : KadMemory}
  {HRes : ResolverJson} {HRea : ReactorJson} {HStr : PeerStrings} {HKad : KadBehaviour}
  {HAddr : Multiaddrs} {HArgon : Argon2} {HSeeds : DnsSeeds}.
Variables (dev : bool) (salt : bytes) (action : option ActionState)
  (config : ActionConfig) (topic : bytes).
Notation step := (step dev salt action config topic).
Notation run := (run dev salt action config topic).
Notation run_task := (run_task dev salt action config topic).

(** ** Only verified reveals are committed *)

(** A verdict that was reached on the reveal in the bytes. *)
Definition accepted (reveal : Reveal) : Prop :=
  exists d now, verify_reveal dev salt action reveal d now = Ok tt.

Definition task_faithful (t : Task) : Prop :=
  match t with
  | TaskVerify _ record reveal _ => reveal_of_value (kr_value record) = Some reveal
  | TaskCdn _ record_bytes _ reveal _ => envelope_from_slice record_bytes = Some (Standard reveal)
  | _ => True
  end.

Definition command_faithful (c : LoopbackCommand) : Prop :=
  match c with
  | CommitVerifiedRecord _ record (Ok _) =>
      exists reveal, reveal_of_value (kr_value record) = Some reveal /\ accepted reveal
  | CdnResolutionVerified _ record_bytes _ =>
      exists reveal, envelope_from_slice record_bytes = Some (Standard reveal) /\
        (dev = true \/ accepted reveal)
  | _ => True
  end.

Definition Faithful (e : NetworkEventLoop) : Prop :=
  Forall task_faithful (tasks e) /\ Forall command_faithful (loopback e).

Lemma faithful_same e e' :
  tasks e' = tasks e -> loopback e' = loopback e -> Faithful e -> Faithful e'.
Proof. intros Ht Hl. unfold Faithful. by rewrite Ht, Hl. Qed.

Lemma faithful_spawn t e : task_faithful t -> Faithful e -> Faithful (spawn_task t e).
Proof. intros Ht [H1 H2]. split; [|done]. apply Forall_app. split; [done|by constructor]. Qed.

Lemma faithful_send c e : command_faithful c -> Faithful e -> Faithful (send_loopback c e).
Proof. intros Hc [H1 H2]. split; [done|]. apply Forall_app. split; [done|by constructor]. Qed.

(** The handlers that neither spawn nor send. *)
Lemma reply_all_still l rp e :
  tasks (reply_all l rp e) = tasks e /\ loopback (reply_all l rp e) = loopback e.
Proof.
  revert e. induction l as [|x l IH]; intros e; [done|]. apply (IH (reply x rp e)).
Qed.

Lemma dispatch_still keys q n e :
  tasks (dispatch_dht_queries keys q n e).1 = tasks e /\
  loopback (dispatch_dht_queries keys q n e).1 = loopback e.
Proof.
  revert n e. induction keys as [|k keys IH]; intros n e; [done|]. cbn [dispatch_dht_queries fresh_id].
  destruct (IH (n + 1) (set_query_id_to_name (<[next_id e := q]>
      (query_id_to_name (call (CallGetRecord (next_id e) k) (set_next_id (S (next_id e)) e))))
      (call (CallGetRecord (next_id e) k) (set_next_id (S (next_id e)) e)))) as [-> ->]. done.
Qed.

Lemma race_still name peers e :
  tasks (race_cdn name peers e) = tasks e /\ loopback (race_cdn name peers e) = loopback e.
Proof.
  revert e. induction peers as [|p peers IH]; intros e; [done|]. cbn [race_cdn fresh_id].
  apply (IH (set_pending_cdn_requests _ (call _ (set_next_id _ e)))).
Qed.

Lemma put_loop_still now name payload x keys n e :
  let e' := (put_loop dev salt action now name payload x keys n e).1 in
  tasks e' = tasks e /\ loopback e' = loopback e.
Proof.
  revert n e. induction keys as [|k keys IH]; intros n e; cbn [EventLoop.put_loop]; [done|].
  destruct (put dev salt action now (el_store e) (MkKadRecord k payload)) as [store [t|err]]; [|done].
  destruct (kad_put_record now store (MkKadRecord k payload)) as [store' []].
  - apply (IH (n + 1) (set_query_id_to_name _ (call _ (set_next_id _ (set_el_store store' e))))).
  - apply (IH n (set_el_store store' e)).
Qed.

Lemma command_still now info c e :
  let e' := handle_command dev salt action now info c e in tasks e' = tasks e /\ loopback e' = loopback e.
Proof.
  assert (Hs : forall n keys x e, tasks (start_get n keys x e) = tasks e /\
                                  loopback (start_get n keys x e) = loopback e).
  { intros n keys x e0. unfold start_get. destruct (dispatch_still keys (QGet n) 0 e0) as [H1 H2].
    by destruct (dispatch_dht_queries keys (QGet n) 0 e0). }
  assert (Hp : forall n keys p x, let e' := enqueue_dht_puts dev salt action now n keys p x e in
                 tasks e' = tasks e /\ loopback e' = loopback e).
  { intros n keys p x. unfold enqueue_dht_puts. destruct (pending_puts e !! n); [done|].
    destruct (put_loop_still now n p x keys 0 e) as [H1 H2].
    destruct (put_loop dev salt action now n p x keys 0 e) as [e' [m|]]; [|done]. by destruct (m >? 0). }
  assert (Hf : forall l e, let e' := fold_left (fun e p => call (CallDial p) e) l e in
                 tasks e' = tasks e /\ loopback e' = loopback e).
  { intros l. induction l as [|p l IH]; intros e0; [done|]. apply (IH (call (CallDial p) e0)). }
  destruct c as [x|x|n p x|n p x|n x|n x|n p x|pr q x|ch q|x|t x|t p x|m s a|x|x|x|pr x|l];
    cbn [handle_command]; try apply Hp; try done.
  - apply (Hf _ (call CallBootstrap e)).
  - destruct (offline info); [by destruct (local_value _ _)|]. destruct (pending_gets e !! n); [done|].
    set (peers := take 3 _). destruct (Hs n (derive_storage_keys n salt) x (race_cdn n peers e)) as [-> ->].
    apply race_still.
  - destruct (offline info); [done|]. destruct (pending_gets e !! _); [done|apply Hs].
  - destruct (pending_quorums e !! n); [done|]. destruct (offline info); [done|].
    destruct (dispatch_still (derive_storage_keys n salt) (QQuorum n) 0 e) as [H1 H2].
    by destruct (dispatch_dht_queries _ _ _ e).
Qed.

Lemma strike_still now src e :
  (tasks (ban_gossip now src e) = tasks e /\ loopback (ban_gossip now src e) = loopback e) /\
  (tasks (strike_record now src e) = tasks e /\ loopback (strike_record now src e) = loopback e) /\
  (tasks (strike_put now src e) = tasks e /\ loopback (strike_put now src e) = loopback e).
Proof.
  unfold ban_gossip, strike_record, strike_put. destruct (strike now src (bad_vdf_counts e)) as [c n].
  destruct (n >=? 3); done.
Qed.

Lemma completions_faithful id ok e :
  Faithful e -> Faithful (handle_get_finished salt id e) /\ Faithful (handle_put_finished id ok e).
Proof.
  intros He. unfold handle_get_finished, handle_put_finished.
  destruct (query_id_to_name e !! id) as [[n|n|n]|]; fields; split;
    try (by apply (faithful_same e)); try (by apply He).
  - unfold handle_get_completion. fields. destruct (pending_gets e !! n); [|by apply (faithful_same e)].
    destruct (_ =? 0); [|by apply (faithful_same e)]. apply faithful_spawn; [done|by apply (faithful_same e)].
  - unfold handle_quorum_completion. fields. destruct (pending_quorums e !! n); [|by apply (faithful_same e)].
    destruct (_ =? 0); by apply (faithful_same e).
  - destruct (pending_puts e !! n); [|by apply (faithful_same e)].
    destruct (_ =? 0); [|by apply (faithful_same e)]. destruct (_ >? 0); by apply (faithful_same e).
Qed.

Lemma found_faithful now id record e :
  Faithful e -> Faithful (handle_found dev salt action now id record e).
Proof.
  intros He. unfold handle_found. destruct (query_id_to_name e !! id) as [[n|n|n]|]; [| |done|].
  - destruct (pending_gets e !! n); by apply (faithful_same e).
  - destruct (pending_quorums e !! n); [|done]. case_bool_decide; by apply (faithful_same e).
  - destruct (pending_reveals e !! id) as [[src rec]|]; [|done].
    destruct (reveal_of_value (kr_value rec)) eqn:Hr; [|by apply (faithful_same e)].
    apply faithful_spawn; [done|by apply (faithful_same e)].
Qed.

Lemma inbound_put_faithful now src record e :
  Faithful e -> Faithful (handle_inbound_put dev salt action now src record e).
Proof.
  intros He. unfold handle_inbound_put, reveal_of_value.
  destruct (json_from_slice (kr_value record)) as [j|] eqn:Hj; cbn [mbind option_bind].
  - destruct (json_has j (bs "vdf_proof")).
    + destruct (reveal_from_value j) as [reveal|] eqn:Hr.
      { apply faithful_spawn; [|done]. unfold task_faithful, reveal_of_value. by rewrite Hj. }
      destruct (put _ _ _ _ _ _) as [store [t|err]]; [by apply (faithful_same e)|].
      destruct (is_error_severity err); [|by apply (faithful_same e)].
      apply (faithful_same (set_el_store store e)); try apply strike_still. by apply (faithful_same e).
    + destruct (put _ _ _ _ _ _) as [store [t|err]]; [by apply (faithful_same e)|].
      destruct (is_error_severity err); [|by apply (faithful_same e)].
      apply (faithful_same (set_el_store store e)); try apply strike_still. by apply (faithful_same e).
  - destruct (put _ _ _ _ _ _) as [store [t|err]]; [by apply (faithful_same e)|].
    destruct (is_error_severity err); [|by apply (faithful_same e)].
    apply (faithful_same (set_el_store store e)); try apply strike_still. by apply (faithful_same e).
Qed.

Lemma cdn_faithful ev e : Faithful e -> Faithful (handle_cdn salt ev e).
Proof.
  intros He. destruct ev as [n|id rec p|id]; cbn [handle_cdn]; [by apply (faithful_same e)| |by apply (faithful_same e)].
  destruct (pending_cdn_requests e !! id); [|done]. destruct rec as [rec|]; [|by apply (faithful_same e)].
  destruct (envelope_from_slice rec) as [[rv]|] eqn:Hr; [|by apply (faithful_same e)].
  apply faithful_spawn; [done|by apply (faithful_same e)].
Qed.

Lemma loopback_faithful now info cmd e : Faithful e -> Faithful (handle_loopback dev salt action now info cmd e).
Proof.
  intros He. assert (Hs : forall e', tasks e' = tasks e /\ loopback e' = loopback e -> Faithful e').
  { intros e' [H1 H2]. by apply (faithful_same e). }
  destruct cmd as [src rec v|m src [[]|]|p v b|a|d rec p]; cbn [EventLoop.handle_loopback]; try by apply Hs.
  - destruct v as [t|[]]; cbn [fresh_id]; try (by apply Hs);
      (destruct (is_error_severity _); [apply Hs, strike_still|done]).
  - destruct (is_banned _ _); apply Hs; destruct (strike_still now src
      (call (CallReportValidation m src (Some false)) e)) as ([H1 H2] & _); split; fields; done.
  - destruct (_ && _); by apply Hs.
  - destruct (_ <? _)%nat; by apply Hs.
  - destruct (envelope_from_slice rec); [|done].
    destruct (handle_put_record _ _ _ _ _ _ _) as [store [t|err]]; [|by apply Hs]. fields.
    destruct (pending_gets e !! d) as [p'|]; [|by apply Hs].
    apply Hs. destruct (reply_all_still (pg_responders p') (RpGet (Ok rec))
      (set_pending_gets (delete d (pending_gets e)) (set_el_store store e))) as [-> ->]. done.
Qed.

Lemma task_run_faithful t e : task_faithful t -> Faithful e -> Faithful (run_task t e).
Proof.
  intros Ht He. destruct t as [n ps k fb rs q|src rec rv k|d rec p rv k|m src tp p|k|p k b|ds b]; cbn [EventLoop.run_task].
  - destruct (xor_tie_breaker _ _ _ _ _ _); [|destruct fb];
      (apply (faithful_same e); [apply reply_all_still..|done]).
  - apply faithful_send; [|done]. cbn [command_faithful].
    destruct (verify_reveal _ _ _ _ _ _) as [[]|] eqn:Hv; [|done]. exists rv. split; [done|]. by do 2 eexists.
  - destruct dev eqn:Hd; cbn [orb].
    { apply faithful_send; [|done]. exists rv. split; [done|by left]. }
    destruct (verify_reveal _ _ _ _ _ _) as [[]|] eqn:Hv; cbn [is_ok]; [|done].
    apply faithful_send; [|done]. exists rv. split; [done|]. right. do 2 eexists. by rewrite Hd.
  - destruct (gossip_valid _ _ _ _ _) as [v|]; [|done].
    assert (Hs : Faithful (send_loopback (CommitGossipValidation m src (Some v)) e)) by by apply faithful_send.
    destruct (v && _); [|done]. by apply (faithful_same _ _ eq_refl eq_refl Hs).
  - by apply (faithful_same e).
  - by apply faithful_send.
  - revert e He. induction (seed_addrs ds) as [|a l IH]; intros e He; [done|]. cbn [fold_left].
    destruct (is_routable_multiaddr _ _ _ _); [|by apply IH]. by apply IH, faithful_send.
Qed.

(** Handlers that do no more than call the swarm and keep their own books. *)
Lemma requests_still ev ev' e :
  Faithful e -> Faithful (handle_proxy ev e) /\ Faithful (handle_action_sync ev' e).
Proof.
  intros He. split.
  - destruct ev as [q ch|id res|id err]; cbn [handle_proxy]; [by destruct (incoming_proxy _)|..];
      unfold answer_proxy; (destruct (_ !! id); [|done]); by apply (faithful_same e).
  - destruct ev' as [ch|id res|id]; cbn [handle_action_sync]; [done|..];
      unfold answer_sync; (destruct (_ !! id); [|done]); by apply (faithful_same e).
Qed.

Lemma calls_faithful {A} (f : A -> NetworkEventLoop -> NetworkEventLoop) l e :
  (forall a e, tasks (f a e) = tasks e /\ loopback (f a e) = loopback e) ->
  Faithful e -> Faithful (fold_left (fun e a => f a e) l e).
Proof.
  intros Hf. revert e. induction l as [|a l IH]; intros e He; [done|].
  apply IH. by apply (faithful_same e); try apply Hf.
Qed.

Lemma connected_faithful now p e : Faithful e -> Faithful (handle_connected now p e).
Proof.
  intros He. unfold handle_connected. set (e1 := set_peer_registry _ e).
  assert (H1 : Faithful (admit_connection p e1).1).
  { unfold admit_connection. destruct (lru_peek _ _) as [t|]; [destruct (t >? _)|]; by apply (faithful_same e). }
  destruct (admit_connection p e1) as [e2 []]; cbn [fst negb] in *; [|done].
  assert (H2 : Faithful (if is_bootstrap p e2
             then set_connection_time (<[p := now]> (bootstrap_connection_time (peers e2))) e2 else e2)).
  { destruct (is_bootstrap p e2); by apply (faithful_same e2). }
  revert H2. generalize (if is_bootstrap p e2
     then set_connection_time (<[p := now]> (bootstrap_connection_time (peers e2))) e2 else e2). intros e3 H3.
  destruct (_ && _); [by apply (faithful_same e3)|].
  destruct (disable_challenge _); [done|]. by apply faithful_spawn.
Qed.

Lemma identify_faithful now p s l e : Faithful e -> Faithful (handle_identify dev now p s l e).
Proof.
  intros He. unfold handle_identify. destruct (_ && _); [by apply (faithful_same e)|].
  destruct (_ && _); [by apply (faithful_same e)|].
  set (e1 := if _ : bool then _ else _). apply (faithful_same e1); [done..|]. subst e1.
  destruct (_ || _); [|by apply (faithful_same e)].
  apply (calls_faithful (fun addr e => if is_routable_multiaddr dev (maddr_protocols addr)
    (disable_challenge (peers e)) _ then call (CallAddAddress p (maddr_to_vec addr)) e else e));
    [|by apply (faithful_same e)].
  intros a e'. by destruct (is_routable_multiaddr _ _ _ _).
Qed.

Lemma peers_faithful info l p o pub e :
  Faithful e -> Faithful (handle_mdns dev l e) /\ Faithful (handle_closed p e) /\
  Faithful (handle_connection_error o e) /\ Faithful (handle_nat info pub e) /\ Faithful (redial_tick info e).
Proof.
  intros He. split_and!.
  - apply (calls_faithful (fun pa e => if is_valid_pow dev pa.1 CHALLENGE_THRESHOLD_BITS_CLIENT e || is_bootstrap pa.1 e
      then call (CallAddAddress pa.1 (maddr_to_vec pa.2)) e else e)); [|done].
    intros a e'. by destruct (_ || _).
  - by apply (faithful_same e).
  - by destruct o.
  - destruct pub as [a|]; [|by apply (faithful_same e)].
    apply (calls_faithful (fun peer => call (CallIdentifyPush peer))); [done|]. by apply (faithful_same e).
  - unfold redial_tick. destruct (_ =? _)%nat; [|destruct (_ <? _)%nat; [|by apply (faithful_same e)]];
      [|by apply (calls_faithful (fun a => call (CallDisconnect a)))].
    apply faithful_spawn; [done|]. by apply (calls_faithful (fun a => call (CallDial (maddr_to_vec a)))).
Qed.

Lemma step_faithful now i e : Faithful e -> Faithful (step now i e).
Proof.
  intros He. destruct i as [info c|ev|ev|m s t p|ev|ev|p|p s l|l|p|o|info pub|info|info|k| |i]; cbn [EventLoop.step].
  - apply (faithful_same e); [apply command_still..|done].
  - destruct ev as [id rec|id|id ok|src rec]; cbn [handle_kademlia];
      [by apply found_faithful|by apply (completions_faithful id true)|by apply completions_faithful|
       by apply inbound_put_faithful].
  - by apply cdn_faithful.
  - unfold handle_gossip. destruct (gossip_permits e); [by apply faithful_send|].
    apply (faithful_same (spawn_task (TaskGossip m s t p) e)); [done..|]. by apply faithful_spawn.
  - by apply (requests_still ev (SyncRequest 0) e).
  - by apply (requests_still (ProxyAnswer 0%nat (MkProxyResponse 0 [] [])) ev e).
  - by apply connected_faithful.
  - by apply identify_faithful.
  - by apply (peers_faithful (MkSwarmInfo 0 [] [] true []) l [] None None e).
  - by apply (peers_faithful (MkSwarmInfo 0 [] [] true []) [] p None None e).
  - by apply (peers_faithful (MkSwarmInfo 0 [] [] true []) [] [] o None e).
  - by apply (peers_faithful info [] [] None pub e).
  - unfold receive_loopback. destruct (loopback e) as [|cmd rest] eqn:Hl; [done|]. apply loopback_faithful.
    destruct He as [H1 H2]. split; [done|]. rewrite Hl in H2.
    apply Forall_cons in H2. apply H2.
  - by apply (peers_faithful info [] [] None None e).
  - unfold kyn_changed. destruct (_ >? _); by apply (faithful_same e).
  - apply faithful_spawn; [done|by apply (faithful_same e)].
  - unfold run_spawned_task. destruct (tasks e !! i) as [t|] eqn:Hi; [|done].
    destruct He as [H1 H2]. apply task_run_faithful; [by apply (Forall_lookup_1 _ _ _ _ H1 Hi)|].
    split; [|done]. by apply Forall_delete.
Qed.

(** The loop at its first turn. *)
Lemma loop_boot_books store kyn nodes seeds disable channels :
  let e := loop_boot store kyn nodes seeds disable channels in
  tasks e = [] /\ loopback e = [] /\ gossip_permits e = 8%nat.
Proof.
  unfold loop_boot, loop_start. set (e0 := loop_new _ _ _ _ _ _).
  assert (H0 : tasks e0 = [] /\ loopback e0 = [] /\ gossip_permits e0 = 8%nat).
  { subst e0. unfold loop_new. by destruct (restore_bans _ _). }
  revert H0. generalize e0 (seed_addrs (seed_domain (peers e0))). intros e l.
  revert e. induction l as [|a l IH]; intros e He; [exact He|]. by apply (IH (call _ e)).
Qed.

(** C6: a reveal is committed without further verification only after it was
    verified.  In every reachable state, each commit that awaits the loop is of
    a record whose reveal [verify_reveal] accepted, and each CDN answer that
    awaits it of one that was accepted too, unless in developer mode. *)
Theorem commits_only_verified store kyn nodes seeds disable channels inputs c :
  c ∈ loopback (run inputs (loop_boot store kyn nodes seeds disable channels)) -> command_faithful c.
Proof.
  assert (H : forall e, Faithful e -> Faithful (run inputs e)).
  { induction inputs as [|[now i] l IH]; intros e He; [done|]. by apply IH, step_faithful. }
  intros Hc. eapply Forall_forall; [apply H|exact Hc].
  destruct (loop_boot_books store kyn nodes seeds disable channels) as (H1 & H2 & _).
  unfold Faithful. rewrite H1, H2. split; constructor.
Qed.

(** ** Gossip *)

(** A message of the global topic is relayed exactly when it is a
    beacon that [verify_beacon] accepts, or an action with at least one signature of the sovereign
    key in force. *)
Theorem gossip_accepts_iff payload :
  gossip_valid dev action config topic topic payload = Some true <->
  exists op body, payload = op :: body /\
    ((op = opcode_byte OpKyn /\
      exists kyn, raw_kyn_from_slice body = Some kyn /\ verify_beacon kyn dev = true) \/
     (op = opcode_byte OpAction /\
      exists msg st key sig, action_from_slice body = Some msg /\ action = Some st /\
        sovereign_key st config = Ok key /\ sig ∈ sovereign_signatures msg /\
        verify_sovereign_signature key (action_to_bytes msg) sig = true)).
Proof.
  unfold gossip_valid. rewrite bool_decide_eq_true_2 by done.
  destruct payload as [|op body]; [split; [done|intros (? & ? & ? & _); done]|].
  assert (Hops : opcode_byte OpKyn <> opcode_byte OpAction) by (vm_compute; discriminate).
  rewrite bool_decide_eq_false_2 by (vm_compute; discriminate). split.
  - intros H. exists op, body. split; [done|]. destruct (op =? opcode_byte OpKyn) eqn:E1; zbool.
    + left. split; [done|]. destruct (raw_kyn_from_slice body) as [k|]; [|done].
      exists k. split; [done|]. congruence.
    + right. destruct (op =? opcode_byte OpAction) eqn:E2; zbool; [|done]. split; [done|].
      destruct (action_from_slice body) as [msg|]; [|done]. destruct action as [st|]; [|done].
      cbn [mbind option_bind] in H. destruct (sovereign_key st config) as [key|] eqn:Hk; [|done].
      injection H as H. apply existsb_elem in H as (sig & Hin & Hs). by exists msg, st, key, sig.
  - intros (op' & body' & [= <- <-] & [[-> (k & -> & Hk)]|[-> (msg & st & key & sig & -> & -> & Hk & Hin & Hs)]]).
    + by rewrite Z.eqb_refl, Hk.
    + rewrite (proj2 (Z.eqb_neq _ _)) by congruence. rewrite Z.eqb_refl. cbn [mbind option_bind].
      rewrite Hk. f_equal. apply existsb_elem. by exists sig.
Qed.

(** The semaphore of eight permits does not limit the validation of
    gossip: the permit is given back when the handler returns, while the task
    it was taken for has not run.  After any number of messages all of them are
    under validation at once and none was ignored. *)
Theorem gossip_unlimited store kyn nodes seeds disable channels (messages : list (bytes * bytes * bytes * bytes)) :
  let e := run (map (fun m => (0, InGossip m.1.1.1 m.1.1.2 m.1.2 m.2)) messages)
    (loop_boot store kyn nodes seeds disable channels) in
  tasks e = map (fun m => TaskGossip m.1.1.1 m.1.1.2 m.1.2 m.2) messages /\
  gossip_permits e = 8%nat /\ loopback e = [].
Proof.
  enough (H : forall e, gossip_permits e = 8%nat ->
    let e' := run (map (fun m => (0, InGossip m.1.1.1 m.1.1.2 m.1.2 m.2)) messages) e in
    tasks e' = tasks e ++ map (fun m => TaskGossip m.1.1.1 m.1.1.2 m.1.2 m.2) messages /\
    gossip_permits e' = 8%nat /\ loopback e' = loopback e).
  { destruct (loop_boot_books store kyn nodes seeds disable channels) as (H1 & H2 & H3).
    specialize (H _ H3). by rewrite H1, H2 in H. }
  induction messages as [|m l IH]; intros e Hp; [by rewrite app_nil_r|].
  cbn [map EventLoop.run fold_left fst snd EventLoop.step]. unfold handle_gossip at 1 2 3. rewrite Hp.
  destruct (IH (set_gossip_permits 8 (spawn_task (TaskGossip m.1.1.1 m.1.1.2 m.1.2 m.2)
    (set_gossip_permits 7 e))) eq_refl) as (H1 & H2 & H3).
  split_and!; [|exact H2|exact H3]. etrans; [exact H1|]. fields. by rewrite <- app_assoc.
Qed.

(** ** Heartbeats are never resolved *)

Lemma pop_dots_keeps c l : c <> DOT -> c ∈ l -> c ∈ pop_dots l.
Proof.
  intros Hc. induction l as [|x l IH]; [done|]. cbn [pop_dots].
  destruct (x =? DOT) eqn:Hx; [|done]. zbool. rewrite elem_of_cons. intros [->|H]; [congruence|by apply IH].
Qed.

(** A name with a colon is not a valid one. *)
Lemma colon_name_rejected name :
  forallb is_ascii name = true -> 58 ∈ name -> is_valid_apex_name name <> Ok tt.
Proof.
  intros Ha Hc H. apply accepted_normal_form in H as (label & E & (_ & Hl & _) & _).
  assert (Hn : 58 ∈ normalize_name name).
  { assert (Ht : 58 ∈ trim_dots (to_lowercase name)).
    { unfold trim_dots. apply elem_of_reverse, pop_dots_keeps; [done|]. apply elem_of_reverse.
      unfold to_lowercase. rewrite Ha. exact (list_elem_of_fmap_2 to_ascii_lowercase _ _ Hc). }
    unfold normalize_name. destruct (ends_with _ _); [done|]. apply elem_of_app. by left. }
  rewrite E in Hn. apply elem_of_app in Hn as [Hn|Hn].
  - by eapply Forall_forall in Hl; [|exact Hn].
  - revert Hn. refine (bool_decide_unpack (58 ∉ NSP_SUFFIX) _). vm_compute. exact I.
Qed.

(** The derived [Deserialize] of a document goes through [Did::new]. *)
Class DocumentDids := document_did p d : document_from_slice p = Some d -> did_new (did_id (kid d)) = Ok (kid d).

(** A heartbeat is published under its own keys but never resolved.  For
    the query [hb:<name>] the resolution accepts no payload whatever, since it
    parses a document, a host route or a reveal only, so the callers are told
    that nothing was found, or are given what the local store holds under the
    storage keys of the name [hb:<name>]. *)
Theorem heartbeat_never_resolves `{DocumentDids} name payloads now fallback responders peers_q e :
  forallb is_ascii name = true ->
  xor_tie_breaker dev salt action (hb_name_of name) payloads now = None /\
  run_task (TaskResolve (hb_name_of name) payloads now fallback responders peers_q) e =
  reply_all responders (RpGet (match fallback with
                               | Some payload => Ok payload
                               | None => Err (NotFound (name_clean (hb_name_of name)) peers_q)
                               end)) e.
Proof.
  intros Ha. assert (Hx : xor_tie_breaker dev salt action (hb_name_of name) payloads now = None).
  { assert (Hp : forall p, parse_one (hb_name_of name) p = None).
    { intros p. unfold parse_one. destruct (document_from_slice p) as [d|] eqn:Hd.
      { rewrite bool_decide_eq_false_2; [done|]. intros Hn. apply document_did, did_new_ok in Hd as (h & Hh & _).
        rewrite Hn in Hh. discriminate Hh. }
      destruct (host_route_from_slice p) as [r|]; [by rewrite bool_decide_eq_false_2|].
      destruct (reveal_from_slice p) as [r|]; [|done]. case_bool_decide as Hn; [|done].
      destruct (reveal_validate r) as [[]|] eqn:Hv; [|done].
      apply reveal_validate_ok in Hv as (_ & Hv & _). rewrite Hn in Hv.
      apply colon_name_rejected in Hv; [done|by rewrite <- Ha|right; right; left]. }
    destruct payloads as [|p l]; [done|]. unfold xor_tie_breaker.
    replace (parse_all _ _) with (@nil (bytes * ParsedPayload)); [done|]. symmetry. unfold parse_all.
    induction (dedup _) as [|x u IH]; [done|]. cbn. by rewrite Hp. }
  split; [done|]. cbn [EventLoop.run_task]. rewrite Hx. by destruct fallback.
Qed.

(** ** CDN answers *)

(** The answer of a CDN peer is not tied to the name that was asked.  Any
    record the store accepts is handed to every caller that waits for [domain],
    whatever name the record is of, and the pending query is dropped. *)
Theorem cdn_answers_any_name now info domain record_bytes peer record store pending e :
  envelope_from_slice record_bytes = Some record ->
  handle_put_record dev salt action now (el_store e) record true = (store, Ok tt) ->
  pending_gets e !! domain = Some pending ->
  let e' := handle_loopback dev salt action now info (CdnResolutionVerified domain record_bytes peer) e in
  replies e' = replies e ++ map (fun r => (r, RpGet (Ok record_bytes))) (pg_responders pending) /\
  pending_gets e' !! domain = None /\ query_id_to_name e' = query_id_to_name e.
Proof.
  intros Hr Hs Hp. cbn [EventLoop.handle_loopback]. rewrite Hr, Hs. fields. rewrite Hp.
  set (e1 := set_pending_gets _ _).
  assert (H : forall l rp e, replies (reply_all l rp e) = replies e ++ map (fun r => (r, rp)) l /\
    pending_gets (reply_all l rp e) = pending_gets e /\ query_id_to_name (reply_all l rp e) = query_id_to_name e).
  { induction l as [|x l IH]; intros rp e0; [cbn; by rewrite app_nil_r|].
    destruct (IH rp (reply x rp e0)) as (H1 & H2 & H3). split_and!; [|exact H2|exact H3].
    etrans; [exact H1|]. fields. by rewrite <- app_assoc. }
  destruct (H (pg_responders pending) (RpGet (Ok record_bytes)) e1) as (-> & -> & ->).
  split_and!; [done| |done]. apply lookup_delete_eq.
Qed.

End Safety.

(** ** Strikes and bans *)

Section Strikes.
Context {HSto : StorageEngine} {HLru : LruCache} {HMem : KadMemory} {HLaws : LruLaws} {HStr : PeerStrings}
  {HAddr : Multiaddrs}.

(** The three blocks that strike a peer: for gossip, for a record whose
    verification failed, and for a put the store refused. *)
Definition strike_handlers : list (Z -> bytes -> NetworkEventLoop -> NetworkEventLoop) :=
  [ban_gossip; strike_record; strike_put].

Definition strikes (e : NetworkEventLoop) (src : bytes) : option (Z * Z) := lru_view (bad_vdf_counts e) !! src.
Definition ban_expiry (e : NetworkEventLoop) (src : bytes) : option Z := lru_peek (banned_peers e) src.

Lemma lru_put_self {V} (c : Lru V) k v : lru_view (lru_put c k v) !! k = Some v.
Proof. apply lru_push_self. Qed.

(** The new entry of a struck peer. *)
Definition struck (now : Z) (entry : option (Z * Z)) : Z * Z :=
  let '(count, last_time) := default (0, now) entry in
  if sat_sub now last_time >? STRIKE_WINDOW then (1, now) else (count + 1, now).

Lemma struck_within now n t : sat_sub now t <= STRIKE_WINDOW -> struck now (Some (n, t)) = (n + 1, now).
Proof. intros H. cbn. destruct (Z.gtb _ STRIKE_WINDOW) eqn:E; [zbool; lia|done]. Qed.

Lemma struck_after now n t : STRIKE_WINDOW < sat_sub now t -> struck now (Some (n, t)) = (1, now).
Proof. intros H. cbn. destruct (Z.gtb _ STRIKE_WINDOW) eqn:E; [done|zbool; lia]. Qed.

Lemma strike_effect f now src e :
  f ∈ strike_handlers ->
  strikes (f now src e) src = Some (struck now (strikes e src)) /\
  ban_expiry (f now src e) src =
    (if (struck now (strikes e src)).1 >=? 3 then Some (wadd64 (el_current_kyn e) BAN_KYNS)
     else ban_expiry e src) /\
  el_current_kyn (f now src e) = el_current_kyn e.
Proof.
  assert (Hs : strike now src (bad_vdf_counts e) =
    (lru_put (lru_get (bad_vdf_counts e) src).1 src (struck now (strikes e src)),
     (struck now (strikes e src)).1)).
  { unfold strike, struck, strikes. rewrite <- lru_get_value.
    destruct (lru_get (bad_vdf_counts e) src) as [c entry]; cbn [fst snd].
    by destruct (default (0, now) entry). }
  unfold strike_handlers. rewrite !elem_of_cons, elem_of_nil. unfold strikes, ban_expiry in *.
  intros [->|[->|[->|[]]]]; unfold ban_gossip, strike_record, strike_put; rewrite Hs;
    (destruct (Z.geb _ 3); fields; (split_and!; [apply lru_put_self| |done]); [|done]);
    unfold ban; fields; rewrite lru_peek_view; apply lru_put_self.
Qed.

(** Three strikes and a peer is out, whichever handlers strike it: the third
    strike with at most a minute between consecutive ones bans it for 28,800
    kyns, in which its connections are refused; the first two do not, and a
    minute without a strike forgives. *)
Theorem three_strikes f1 f2 f3 t1 t2 t3 src e :
  f1 ∈ strike_handlers -> f2 ∈ strike_handlers -> f3 ∈ strike_handlers ->
  strikes e src = None -> sat_sub t2 t1 <= STRIKE_WINDOW ->
  let e2 := f2 t2 src (f1 t1 src e) in
  ban_expiry e2 src = ban_expiry e src /\
  (sat_sub t3 t2 <= STRIKE_WINDOW ->
   ban_expiry (f3 t3 src e2) src = Some (wadd64 (el_current_kyn e) BAN_KYNS) /\
   (el_current_kyn e < wadd64 (el_current_kyn e) BAN_KYNS ->
    (admit_connection src (f3 t3 src e2)).2 = false)) /\
  (STRIKE_WINDOW < sat_sub t3 t2 -> ban_expiry (f3 t3 src e2) src = ban_expiry e src).
Proof.
  intros H1 H2 H3 He Ht12 e2.
  destruct (strike_effect f1 t1 src e H1) as (Hs1 & Hb1 & Hk1).
  assert (E1 : struck t1 (strikes e src) = (1, t1)).
  { rewrite He. cbn. unfold sat_sub. rewrite Z.sub_diag. done. }
  destruct (strike_effect f2 t2 src (f1 t1 src e) H2) as (Hs2 & Hb2 & Hk2). fold e2 in Hs2, Hb2, Hk2.
  assert (E2 : struck t2 (strikes (f1 t1 src e) src) = (2, t2)).
  { by rewrite Hs1, E1, struck_within. }
  destruct (strike_effect f3 t3 src e2 H3) as (Hs3 & Hb3 & Hk3).
  rewrite E1 in Hb1. rewrite E2 in Hb2. rewrite Hs2, E2 in Hb3. cbn [fst] in *.
  change (1 >=? 3) with false in Hb1. change (2 >=? 3) with false in Hb2. cbn match in *.
  split_and!; [by rewrite Hb2| |].
  - intros Ht23. rewrite struck_within in Hb3 by done. cbn [fst] in Hb3.
    change (2 + 1 >=? 3) with true in Hb3. cbn match in Hb3. rewrite Hk2, Hk1 in Hb3.
    split; [done|]. intros Hlt. unfold admit_connection. unfold ban_expiry in Hb3. rewrite Hb3, Hk3, Hk2, Hk1.
    destruct (Z.gtb _ _) eqn:E; [done|zbool; lia].
  - intros Ht23. rewrite struck_after in Hb3 by done. cbn [fst] in Hb3. by rewrite Hb3, Hb2.
Qed.

(** *** Bans after a restart *)

Context {HCon : StorageContract HSto}.

Definition ban_items (d : Sto) : list (bytes * bytes) := scan_spec DB_PREFIX_BANNED_PEER None (sto_tree d).

(** A storage entry that records a ban of [p] until [t]. *)
Definition ban_entry (kv : bytes * bytes) (p : bytes) (t : Z) : Prop :=
  peer_from_str (drop (length DB_PREFIX_BANNED_PEER) kv.1) = Some p /\ len kv.2 = 8 /\ be_val kv.2 = t.

Lemma restore_ban_view now st kv p :
  lru_view (restore_ban now st kv).1 !! p = lru_view st.1 !! p \/
  (exists q t, ban_entry kv q t /\ now < t /\
     lru_view (restore_ban now st kv).1 !! p = (if decide (p = q) then Some t else lru_view st.1 !! p)) \/
  lru_view (restore_ban now st kv).1 !! p = None.
Proof.
  destruct st as [c d], kv as [k v]. unfold restore_ban.
  destruct (len k >? _); [|by left]. destruct (peer_from_str _) as [q|] eqn:Hq; [|by left].
  destruct (len v =? 8) eqn:Hv; [|by left]. destruct (be_val v >? now) eqn:Ht; [|by left].
  zbool. cbn [fst]. unfold lru_put. pose proof (lru_push_view c q (be_val v)) as Hpush.
  destruct (lru_push c q (be_val v)) as [c' [[k' v']|]]; cbn [fst snd] in *; [|right; left].
  - destruct Hpush as [Hk' ->]. destruct (decide (p = q)) as [->|Hp].
    + right. left. exists q, (be_val v). split; [done|]. split; [done|].
      by rewrite lookup_insert_eq, decide_True.
    + rewrite lookup_insert_ne by done. destruct (decide (p = k')) as [->|].
      * right. right. apply lookup_delete_eq.
      * left. by rewrite lookup_delete_ne.
  - exists q, (be_val v). split; [done|]. split; [done|]. rewrite Hpush. case_decide as Hp.
    + subst. apply lookup_insert_eq.
    + by rewrite lookup_insert_ne.
Qed.

(** The bans in force after a restart are those of the storage that have
    not run out: each restored ban is one of an entry under the prefix whose
    key names the peer and whose eight bytes are its expiry, still ahead. *)
Theorem restored_bans_sound now (d : Sto) items p t :
  sto_inv d -> sto_scan_prefix d DB_PREFIX_BANNED_PEER None = Ok items ->
  lru_peek (restore_bans now d).1 p = Some t ->
  now < t /\ exists kv, kv ∈ ban_items d /\ ban_entry kv p t.
Proof.
  intros Hinv Hscan. rewrite lru_peek_view. unfold restore_bans. rewrite Hscan.
  pose proof (sto_scan_ok d _ _ _ Hinv Hscan) as Hitems. fold (ban_items d) in Hitems. rewrite <- Hitems.
  enough (H : forall l (st : Lru Z * Sto), (forall q u, lru_view st.1 !! q = Some u ->
      now < u /\ exists kv, kv ∈ items /\ ban_entry kv q u) -> (forall kv, kv ∈ l -> kv ∈ items) ->
    forall q u, lru_view (fold_left (restore_ban now) l st).1 !! q = Some u ->
      now < u /\ exists kv, kv ∈ items /\ ban_entry kv q u).
  { apply H; [|done]. cbn [fst]. intros q u Hq. by rewrite lru_view_new, lookup_empty in Hq. }
  clear Hscan Hitems p t. induction l as [|kv l IH]; intros st Hst Hl q u; [apply Hst|].
  cbn [fold_left]. apply IH; [|intros kv' Hkv'; apply Hl; by right]. clear q u. intros q u Hq.
  destruct (restore_ban_view now st kv q) as [E|[(q' & u' & Hb & Hlt & E)|E]]; rewrite E in Hq; [by apply Hst| |done].
  case_decide; [|by apply Hst]. subst. simplify_eq. split; [done|]. exists kv. split; [apply Hl; left|done].
Qed.

End Strikes.
