(* ===== verification/LoopExamples.v ===== *)
(** * The event loop at work

    Concrete runs of the event loop, and the instances of its theorems. *)
From Stdlib Require Import String.
From S2P Require Import Prelude Sorting Bytes Config Crypto Kyn Names Physics Net Kid Records Action Verify Lru Peers DnsTree Storage StoreVerify TieBreaker Store EventLoop Oracle Waiting LoopSafety.
#[local] Open Scope Z_scope.

Module ToyLoop.

(** The bytes [\[5\]] are a record of [alexander.kin]. *)
Definition alexander : Reveal := ToyDht.reveal 160 1000 [1].

Definition serde : Serde := {|
  Json := bytes;
  json_from_slice b := match b with [] => None | _ => Some b end;
  json_has _ _ := false;
  commitment_from_value v := Some (tail v);
  envelope_from_value _ := None; heartbeat_from_value _ := None;
  auth_kid_from_value _ := None; auth_manifest_from_value _ := None; host_route_from_value _ := None;
  envelope_from_slice b := if bool_decide (b = [5]) then Some (Standard alexander) else None;
  envelope_to_vec _ := Some [5] |}.

Definition reactor : @ReactorJson serde := {|
  reveal_from_value _ := None;
  raw_kyn_from_slice b := Some (MkRawKyn (Z.of_nat (length b)) [] [] false false);
  action_from_slice _ := None |}.

Definition peer_strings : PeerStrings := {|
  peer_to_string p := p; peer_from_str s := Some s; DB_PREFIX_BANNED_PEER := bs "ban:" |}.

Definition kad : @KadBehaviour (wasm_engine true) ToyDht.lru ToyDht.mem :=
  fun _ s r => ((@inner_put (wasm_engine true) ToyDht.lru ToyDht.mem s r).1, true).

(** The engine of the store. *)
Definition wasm_true : StorageEngine := wasm_engine true.

(** No payload is a document. *)
Definition resolver : ResolverJson := {|
  document_from_slice _ := None; host_route_from_slice _ := None; reveal_from_slice _ := None |}.

Definition config : ActionConfig := MkActionConfig [] 0 true [].
Definition global : bytes := bs "/global".

Definition seeds : @DnsSeeds ToyPeers.addrs := ToyTree.seeds.

#[local] Existing Instances ascii_only ToyStore.short_sha2 ToyStore.yes_mldsa toy_beacon_codecs toy_jcs
  ToyStore.yes_beacon ToyStore.yes_vdf wasm_true ToyResolver.peers ToyResolver.ed ToyDht.stored_json serde
  ToyDht.lru ToyDht.mem resolver reactor peer_strings kad ToyPeers.addrs ToyPeers.argon seeds.

Definition dht : KineticRecordStore := ToyDht.store 150 200 10.
Definition nodes : list (MAddr * option bytes) := [([7], Some [70])].
Notation start := (loop_boot dht 200 nodes [bs "seed"] true (false, true)).
Notation go := (EventLoop.run true (toy_salt 1) None config global).

Definition online : SwarmInfo := MkSwarmInfo 1 [[9]] [] true [].
Definition ask (name : bytes) (r : nat) : Z * Input := (0, InCommand online (ResolveRedundant name r)).
Definition finished (i : nat) : Z * Input := (0, InKademlia (GetFinished i)).

(** A peer answers the CDN request for [victim.kin] with the record of
    [alexander.kin]. *)
Definition wrong_answer : list (Z * Input) :=
  [ask (bs "victim.kin") 7; (0, InCdn (CdnResponse 0%nat (Some [5]) [9])); (0, InTask 0); (0, InLoopback online)].

Example answered_with_another_name :
  replies (go wrong_answer start) = [(7%nat, RpGet (Ok [5]))] /\
  query_id_to_name (go wrong_answer start) !! 32%nat = Some (QGet (bs "victim.kin")).
Proof. split; vm_compute; reflexivity. Qed.

(** The 32 queries of the first caller are still in flight when a second one
    asks; their results complete the second query, whose own 32 queries are in
    flight then, and it is told that nothing was found. *)
Definition asked_again : list (Z * Input) :=
  wrong_answer ++ [ask (bs "victim.kin") 8] ++ map finished (seq 1 32) ++ [(0, InTask 0)].

Example stale_results_complete_a_later_query :
  replies (go asked_again start) =
    [(7%nat, RpGet (Ok [5])); (8%nat, RpGet (Err (NotFound (bs "victim.kin") 32)))] /\
  outstanding (go asked_again start) (QGet (bs "victim.kin")) = 32%nat.
Proof. split; vm_compute; reflexivity. Qed.

(** The loop as it receives the verified record, and the store after it. *)
Definition answer_verified : NetworkEventLoop := set_loopback [] (go (take 3 wrong_answer) start).
Definition stored :=
  handle_put_record true (toy_salt 1) None 0 (el_store answer_verified) (Standard alexander) true.

(** A get, a quorum check, a failing publication and a proxy request at once. *)
Definition busy : list (Z * Input) :=
  [ask (bs "a.kin") 1; (0, InCommand online (VerifyQuorum (bs "b.kin") [3] 2));
   ask (bs "a.kin") 3; (0, InCommand online (PublishRedundant (bs "c.kin") [] 4));
   (0, InCommand online (SendProxyRequest [9] (MkProxyRequest [] [] [] []) 5)); finished 1; finished 2].
End ToyLoop.

(** Instances of the theorems at these runs. *)
#[local] Existing Instances ascii_only ToyStore.short_sha2 ToyStore.yes_mldsa toy_beacon_codecs toy_jcs
  ToyStore.yes_beacon ToyStore.yes_vdf ToyLoop.wasm_true ToyResolver.peers ToyResolver.ed ToyDht.stored_json ToyLoop.serde
  ToyDht.lru ToyDht.mem ToyLoop.resolver ToyLoop.reactor ToyLoop.peer_strings ToyLoop.kad ToyPeers.addrs
  ToyPeers.argon ToyLoop.seeds ToyDht.lru_laws.
Import ToyLoop.

Lemma pending_queries_bounded_witness :
  exists p, pending_gets (go busy start) !! bs "a.kin" = Some p /\
    pg_expected_responses p = 30 /\ tracked (go busy start) (QGet (bs "a.kin")) 30.
Proof.
  assert (Hm : matched true (toy_salt 1) None config global busy start = true) by (vm_compute; reflexivity).
  pose proof (pending_queries_bounded true (toy_salt 1) None config global dht 200 nodes [bs "seed"] true (false, true) busy Hm) as H.
  exists (MkPendingGet [1; 3]%nat 30 [] 32).
  assert (E : pending_gets (go busy start) !! bs "a.kin" = Some (MkPendingGet [1; 3]%nat 30 [] 32))
    by (vm_compute; reflexivity).
  split; [exact E|]. split; [reflexivity|]. exact (gets_tracked _ H _ _ E).
Defined.

Lemma every_caller_answered_witness :
  answered (go (drain true (toy_salt 1) None config global 5 (go busy start)) (go busy start))
  ≡ₚ [1; 2; 3; 4; 5]%nat.
Proof.
  apply (every_caller_answered true (toy_salt 1) None config global dht 200 nodes [bs "seed"] true (false, true) busy).
  vm_compute. reflexivity.
Defined.

Lemma commits_only_verified_witness :
  exists reveal, envelope_from_slice [5] = Some (Standard reveal).
Proof.
  pose proof (commits_only_verified true (toy_salt 1) None config global dht 200 nodes [bs "seed"] true (false, true)
    (take 3 wrong_answer) (CdnResolutionVerified (bs "victim.kin") [5] [9])) as H.
  destruct H as (reveal & Hr & _); [|exists reveal; exact Hr].
  apply list_elem_of_In. vm_compute. left. reflexivity.
Defined.

Lemma heartbeat_never_resolves_witness :
  xor_tie_breaker true (toy_salt 1) None (hb_name_of (bs "alexander.kin")) [[2; 7]; [3]] 200 = None.
Proof.
  assert (HD : DocumentDids) by (intros p d Hd; change (None = Some d) in Hd; discriminate Hd).
  apply (heartbeat_never_resolves true (toy_salt 1) None config global
    (bs "alexander.kin") [[2; 7]; [3]] 200 None [] 0 start).
  vm_compute. reflexivity.
Defined.

Lemma cdn_answers_any_name_witness :
  replies (handle_loopback true (toy_salt 1) None 0 online (CdnResolutionVerified (bs "victim.kin") [5] [9])
    answer_verified) = replies answer_verified ++ [(7%nat, RpGet (Ok [5]))] /\
  rv_name alexander <> bs "victim.kin".
Proof.
  split; [|vm_compute; discriminate].
  apply (cdn_answers_any_name true (toy_salt 1) None 0 online (bs "victim.kin")
    [5] [9] (Standard alexander) stored.1 (MkPendingGet [7]%nat 32 [] 32) answer_verified).
  - vm_compute. reflexivity.
  - unfold stored. apply pair_of_snd. vm_compute. reflexivity.
  - vm_compute. reflexivity.
Defined.

Lemma three_strikes_witness :
  ban_expiry (strike_put 3 [9] (ban_gossip 2 [9] (strike_record 1 [9] start))) [9]
  = Some (wadd64 (el_current_kyn start) BAN_KYNS) /\ wadd64 (el_current_kyn start) BAN_KYNS = 29000.
Proof.
  split; [|vm_compute; reflexivity].
  apply (three_strikes strike_record ban_gossip strike_put 1 2 3 [9] start);
    [repeat constructor..|vm_compute; reflexivity|vm_compute; discriminate|vm_compute; discriminate].
Defined.

(** A ban written to storage by [strike_put] and found again at a restart. *)
Lemma restored_bans_sound_witness :
  let d := storage (el_store (strike_put 3 [9] (strike_put 2 [9] (strike_put 1 [9] start)))) in
  200 < 29000 /\ exists kv, kv ∈ @ban_items _ _ (wasm_contract true) d /\ ban_entry kv [9] 29000.
Proof.
  intros d.
  apply (@restored_bans_sound (wasm_engine true) ToyDht.lru ToyDht.lru_laws peer_strings
    (wasm_contract true) 200 d [(bs "ban:" ++ [9], u64_be 29000)]).
  - vm_compute. repeat constructor.
  - vm_compute. reflexivity.
  - vm_compute. reflexivity.
Defined.

Module ToyOracle.

(** A kyn is its round, marked unavailable; two endpoints, one of them down. *)
Definition json : @ReactorJson ToyLoop.serde := {|
  reveal_from_value _ := None;
  raw_kyn_from_slice b := match b with idx :: _ => Some (MkRawKyn idx [] [] false true) | [] => None end;
  action_from_slice _ := None |}.
Definition vec : RawKynVec := fun k => Some [beacon_idx k].
Definition net : OracleNet := {|
  http_get url n :=
    if bool_decide (url = bs "https://up") then HttpResponse 200 [Some [1000]] else HttpResponse 503 [];
  txt_lookup _ := Some [bs "https://up"; bs "http://insecure"] |}.
Definition provider : BeaconProvider := MkProvider true [bs "https://down"] [bs "seeds"; bs "more"].

Example endpoints_in_turn : @all_endpoints net provider = [bs "https://down"; bs "https://up"; bs "https://up"].
Proof. vm_compute. reflexivity. Qed.

Definition fetched := @fetch_latest Toy.toy_sha2 toy_beacon_codecs toy_beacon (wasm_engine true) ToyLoop.serde
  json vec net false provider (bs "last") 0 wasm_new.

(** The mark of the endpoint is gone. *)
Example unavailable_becomes_live : fetched.2 = Ok (MkRawKyn 1000 [] [] false false).
Proof. vm_compute. reflexivity. Qed.

(** No signature, and a time far in the future. *)
Definition forged : RawKyn := MkRawKyn (10 ^ 18) [] [] false true.
End ToyOracle.

Lemma fetched_kyn_provenance_witness :
  exists url k, url ∈ @all_endpoints ToyOracle.net ToyOracle.provider /\
    @fetch_with_backoff ToyLoop.serde ToyOracle.json ToyOracle.net url = Ok k /\
    MkRawKyn 1000 [] [] false false = as_live k.
Proof.
  destruct (@fetched_kyn_provenance Toy.toy_sha2 toy_beacon_codecs toy_beacon (wasm_engine true) ToyLoop.serde
    ToyOracle.json ToyOracle.vec ToyOracle.net ToyOracle.provider (bs "last") 0 wasm_new
    ToyOracle.fetched.1 (MkRawKyn 1000 [] [] false false)
    (pair_of_snd ToyOracle.fetched _ ltac:(vm_compute; reflexivity)) ltac:(vm_compute; reflexivity))
    as (url & k & H1 & H2 & H3 & _).
  exists url, k. split; [exact H1|]. split; [exact H2|exact H3].
Defined.

Lemma unavailable_kyn_moves_clock_witness :
  @el_current_kyn (wasm_engine true) ToyDht.lru ToyDht.mem ToyPeers.addrs
    (@kyn_changed (wasm_engine true) ToyDht.lru ToyDht.mem ToyPeers.addrs (rk_kyn ToyOracle.forged) ToyLoop.start)
  = rk_kyn ToyOracle.forged /\ rk_kyn ToyOracle.forged = 10 ^ 18.
Proof.
  split; [|vm_compute; reflexivity].
  apply (@unavailable_kyn_moves_clock Toy.toy_sha2 toy_beacon_codecs toy_beacon (wasm_engine true) ToyLoop.serde
    ToyOracle.json ToyOracle.vec ToyOracle.provider (bs "last")
    ToyStore.yes_mldsa ToyDht.lru ToyDht.mem ToyPeers.addrs None ToyLoop.config ToyLoop.global
    wasm_new [10 ^ 18] ToyOracle.forged ToyLoop.start).
  - reflexivity.
  - reflexivity.
  - intros latest H. discriminate H.
  - vm_compute. reflexivity.
  - vm_compute. reflexivity.
Defined.

Lemma honest_round_stale_witness :
  @kyn_acceptable Toy.toy_sha2 toy_beacon_codecs toy_beacon false 1800000000 (MkRawKyn 35732212 [] [] false false)
  = false.
Proof.
  apply (@honest_round_stale Toy.toy_sha2 toy_beacon_codecs toy_beacon).
  - vm_compute. split; [discriminate|reflexivity].
  - reflexivity.
Defined.
