(* ===== verification/Client.v ===== *)
(** * The network client ([kinetic-network/src/client/handle.rs], [client/telemetry.rs])

    The handle every process uses to talk to the event loop: each method sends one
    command and waits for what its responder is given, two of them for ten seconds
    at most.  A method is a tree of sends and waits; running it against what the
    channel does gives the commands it sent, and its result with the time it took.
    The telemetry service is a client of the handle. *)
From Stdlib Require Import String.
From S2P Require Import Prelude Sorting Bytes Config Crypto Kyn Names Physics Net Kid Records Action Verify Lru Peers DnsTree Storage StoreVerify TieBreaker Store EventLoop.
#[local] Open Scope Z_scope.

(** ** Methods as trees *)

(** A send without a responder, and a send with one followed by a wait, of at most
    [limit] milliseconds if there is a limit. *)
Inductive Waited := WtClosed | WtTimeout | WtReply (rp : Reply).

Inductive Client (A : Type) :=
  | Ret (a : A)
  | Tell (command : Command) (k : bool -> Client A)
  | Ask (command : Responder -> Command) (limit : option Z) (k : Waited -> Client A).
Arguments Ret {A} a.
Arguments Tell {A} command k.
Arguments Ask {A} command limit k.

Fixpoint client_bind {A B} (m : Client A) (f : A -> Client B) : Client B :=
  match m with
  | Ret a => f a
  | Tell c k => Tell c (fun w => client_bind (k w) f)
  | Ask c l k => Ask c l (fun w => client_bind (k w) f)
  end.

(** What the channel does to the [n]-th send: the loop has ended, the bounded queue
    never has room, or the command is queued after [wait] milliseconds; then its
    responder is dropped or used after [ms] more, or kept for ever. *)
Inductive Channel :=
  | ChClosed
  | ChBlocked
  | ChQueued (wait : Z) (answer : option (Z * option Reply)).

(** The commands that were queued, and the result with the time it took; none when
    the method waits for ever. *)
Record Outcome (A : Type) := MkOutcome { oc_commands : list Command; oc_result : option (A * Z) }.
Arguments MkOutcome {A} _ _.
Arguments oc_commands {A} _.
Arguments oc_result {A} _.

Definition sent {A} (c : Command) (o : Outcome A) : Outcome A := MkOutcome (c :: oc_commands o) (oc_result o).

Section Run.
Variable channel : nat -> Channel.

(** How long a wait takes and how it ends. *)
Definition await (limit : option Z) (answer : option (Z * option Reply)) : option (Z * Waited) :=
  match answer, limit with
  | None, None => None
  | None, Some l => Some (l, WtTimeout)
  | Some (ms, r), Some l => if ms <=? l then Some (ms, match r with Some rp => WtReply rp | None => WtClosed end)
                            else Some (l, WtTimeout)
  | Some (ms, r), None => Some (ms, match r with Some rp => WtReply rp | None => WtClosed end)
  end.

(** The [n]-th send uses the responder [n]. *)
Fixpoint run_client {A} (n : nat) (clock : Z) (m : Client A) : Outcome A :=
  match m with
  | Ret a => MkOutcome [] (Some (a, clock))
  | Tell c k =>
      match channel n with
      | ChClosed => run_client (S n) clock (k false)
      | ChBlocked => MkOutcome [] None
      | ChQueued wait _ => sent c (run_client (S n) (clock + wait) (k true))
      end
  | Ask c limit k =>
      match channel n with
      | ChClosed => run_client (S n) clock (k WtClosed)
      | ChBlocked => MkOutcome [] None
      | ChQueued wait answer =>
          match await limit answer with
          | Some (ms, w) => sent (c n) (run_client (S n) (clock + wait + ms) (k w))
          | None => MkOutcome [c n] None
          end
      end
  end.

End Run.

(** ** [impl NetworkClient] *)

(** The errors of the methods: those of the loop, and the handle's own. *)
Inductive ResolveFailure := RfLoop (e : ResolutionError) | RfClosed | RfTimedOut.
Inductive PublishFailure := PfLoop (e : PublishError) | PfTooLarge | PfClosed.
Inductive ClientFailure := CfLoop (e : NetworkClientError) | CfClosed | CfSerialization | CfPublish (e : PublishFailure)
  | CfResolve (e : ResolveFailure) | CfRoute (e : KineticStoreError).

Definition RESOLVE_TIMEOUT : option Z := Some 10000.
Definition CLIENT_PAYLOAD_LIMIT : Z := 80000.

Definition send_proxy_request (peer : bytes) (req : ProxyRequest) : Client (Result ProxyError ProxyResponse) :=
  Ask (SendProxyRequest peer req) None (fun w =>
    Ret match w with WtReply (RpProxy r) => r | _ => Err PxChannelClosed end).

Definition send_action_sync_request (peer : bytes) : Client (Result ProxyError (list SignedNetworkAction)) :=
  Ask (SendActionSyncRequest peer) None (fun w =>
    Ret match w with WtReply (RpSync r) => r | _ => Err PxChannelClosed end).

Definition tell (c : Command) : Client (Result ClientFailure unit) :=
  Tell c (fun ok => Ret (if ok : bool then Ok tt else Err CfClosed)).
Definition update_action_log (actions : list SignedNetworkAction) : Client (Result ClientFailure unit) :=
  tell (UpdateActionLog actions).
Definition send_proxy_response (channel : nat) (res : ProxyResponse) : Client (Result ClientFailure unit) :=
  tell (SendProxyResponse channel res).

Definition put_waited (w : Waited) : Result PublishFailure unit :=
  match w with WtReply (RpPut r) => map_err PfLoop r | _ => Err PfClosed end.
Definition publish_redundant_payload (name payload_bytes : bytes) : Client (Result PublishFailure unit) :=
  if len payload_bytes >? CLIENT_PAYLOAD_LIMIT then Ret (Err PfTooLarge)
  else Ask (PublishRedundant name payload_bytes) None (fun w => Ret (put_waited w)).
Definition publish_heartbeat (name payload_bytes : bytes) : Client (Result PublishFailure unit) :=
  Ask (PublishHeartbeat name payload_bytes) None (fun w => Ret (put_waited w)).

Definition get_waited (w : Waited) : Result ResolveFailure bytes :=
  match w with
  | WtReply (RpGet r) => map_err RfLoop r
  | WtTimeout => Err RfTimedOut
  | _ => Err RfClosed
  end.
Definition resolve_redundant_payload (name : bytes) : Client (Result ResolveFailure bytes) :=
  Ask (ResolveRedundant name) RESOLVE_TIMEOUT (fun w => Ret (get_waited w)).
Definition resolve_heartbeat (name : bytes) : Client (Result ResolveFailure bytes) :=
  Ask (ResolveHeartbeat name) RESOLVE_TIMEOUT (fun w => Ret (get_waited w)).

Definition verify_quorum (name payload_bytes : bytes) : Client (Result ClientFailure Z) :=
  Ask (VerifyQuorum name payload_bytes) None (fun w =>
    Ret match w with WtReply (RpQuorum r) => map_err CfLoop r | _ => Err CfClosed end).

Definition network_status : Client (Result ClientFailure (nat * NatStatus)) :=
  Ask GetNetworkStatus None (fun w =>
    Ret match w with WtReply (RpStatus connected nat_status) => Ok (connected, nat_status) | _ => Err CfClosed end).

Definition unit_waited (w : Waited) : Result ClientFailure unit :=
  match w with WtReply (RpUnit r) => map_err CfLoop r | _ => Err CfClosed end.
Definition rebootstrap_network : Client (Result ClientFailure unit) := Ask Bootstrap None (fun w => Ret (unit_waited w)).
Definition subscribe_gossip (topic : bytes) : Client (Result ClientFailure unit) :=
  Ask (SubscribeGossip topic) None (fun w => Ret (unit_waited w)).
Definition broadcast_gossip (topic payload_bytes : bytes) : Client (Result ClientFailure unit) :=
  Ask (BroadcastGossip topic payload_bytes) None (fun w => Ret (unit_waited w)).

Definition fetch_current_kyn : Client (Result ClientFailure Z) :=
  Ask FetchCurrentKyn None (fun w => Ret match w with WtReply (RpKyn kyn) => Ok kyn | _ => Err CfClosed end).

Definition strings_waited (w : Waited) : Result ClientFailure (list bytes) :=
  match w with WtReply (RpStrings l) => Ok l | _ => Err CfClosed end.
Definition fetch_connected_peers : Client (Result ClientFailure (list bytes)) :=
  Ask FetchConnectedPeers None (fun w => Ret (strings_waited w)).
Definition fetch_gossip_topics : Client (Result ClientFailure (list bytes)) :=
  Ask FetchGossipTopics None (fun w => Ret (strings_waited w)).
Definition fetch_banned_peers : Client (Result ClientFailure (list (bytes * Z))) :=
  Ask FetchBannedPeers None (fun w => Ret match w with WtReply (RpBanned l) => Ok l | _ => Err CfClosed end).

(** [try_send]: a verdict that finds the queue full is lost. *)
Definition report_gossip (room : bool) (message_id propagation_source : bytes) (is_valid : bool) : list Command :=
  if room then [ReportGossipValidation message_id propagation_source (Some is_valid)] else [].

Definition host_route_key (host_id : bytes) : bytes := bs "host_route_" ++ host_id.

(** ** Host routes *)

Section HostRoutes.
Context {HUni : UnicodeCase} {HSha : Sha2} {HPeer : PeerIds} {HEd : Ed25519} {HRes : ResolverJson}.
Variables (network_salt : bytes) (host_route_text : HostRoute -> option bytes).

Definition publish_host_routing_record (record : HostRoute) : Client (Result ClientFailure unit) :=
  match host_route_text record with
  | None => Ret (Err CfSerialization)
  | Some b =>
      client_bind (publish_redundant_payload (host_route_key (host_id record)) b) (fun r => Ret (map_err CfPublish r))
  end.

Definition resolve_host_routing_record (host_id : bytes) : Client (Result ClientFailure (option HostRoute)) :=
  client_bind fetch_current_kyn (fun r =>
    match r with
    | Err e => Ret (Err e)
    | Ok current_kyn =>
        client_bind (resolve_redundant_payload (host_route_key host_id)) (fun r =>
          Ret match r with
              | Ok b =>
                  record ← ok_or (host_route_from_slice b) CfSerialization;
                  map_err CfRoute (verify_host_routing_record network_salt record current_kyn);;
                  Ok (Some record)
              | Err (RfLoop (NotFound _ _)) => Ok None
              | Err e => Err (CfResolve e)
              end)
    end).

End HostRoutes.

(** ** [telemetry.rs] *)

Inductive PeerType := PtDaemon | PtNode | PtHost.
Inductive TelemetryMode := TmRouter | TmEdge.
Inductive OsType := OsLinux | OsWindows | OsMacos | OsOther.
Inductive Reachability := RePublic | ReBehindNAT.

Record TelemetryHeartbeat := MkTelemetryHeartbeat {
  th_session_id : bytes;
  th_version : bytes;
  th_os : OsType;
  th_connected_peers : Z;
  th_uptime_seconds : Z;
  th_peer_type : PeerType;
  th_network_mode : TelemetryMode;
  th_reachability : Reachability;
  th_latest_kyn : Z;
  th_mb_sent : Z;
  th_mb_received : Z }.

(** The session of the boot: its identifier and the kyn it was made at. *)
Record TelemetrySession := MkTelemetrySession { session_id : bytes; session_generated_at_kyn : Z }.

Definition SESSION_LIFETIME_KYNS : Z := 28800.

Definition os_type (os : bytes) : OsType :=
  if bool_decide (os = bs "linux") then OsLinux
  else if bool_decide (os = bs "windows") then OsWindows
  else if bool_decide (os = bs "macos") then OsMacos else OsOther.
Definition telemetry_mode (mode : bytes) : TelemetryMode := if bool_decide (mode = bs "Edge") then TmEdge else TmRouter.

(** [status_str.contains("Private")] of the three texts the loop reports. *)
Definition telemetry_reachability (metrics : option (nat * NatStatus)) : Reachability :=
  match metrics with Some (_, NatRelayed) => ReBehindNAT | _ => RePublic end.

Definition megabytes (total : Z) : Z := as_u32 total / 1024 / 1024.

(** The loop reports no bandwidth: both counters are zero. *)
Definition bandwidth (metrics : option (nat * NatStatus)) : Z := 0.

(** The kyn of the provider's cache, and zero when it cannot be loaded. *)
Definition telemetry_kyn (cached : option Z) : Z := default 0 cached.

Definition telemetry_boot (uuid : bytes) (cached : option Z) : TelemetrySession :=
  MkTelemetrySession uuid (telemetry_kyn cached).

Definition telemetry_rotate (uuid : bytes) (latest_kyn : Z) (s : TelemetrySession) : TelemetrySession :=
  if sat_sub latest_kyn (session_generated_at_kyn s) >=? SESSION_LIFETIME_KYNS
  then MkTelemetrySession uuid latest_kyn else s.

(** The process: its configuration, its kind and its operating system. *)
Record TelemetryConfig := MkTelemetryConfig {
  enable_anonymous_telemetry : bool; tc_network_mode : bytes; tc_peer_type : PeerType; tc_os : bytes; tc_version : bytes }.

Definition telemetry_heartbeat (config : TelemetryConfig) (s : TelemetrySession) (latest_kyn uptime : Z)
    (metrics : option (nat * NatStatus)) : TelemetryHeartbeat :=
  MkTelemetryHeartbeat (session_id s) (tc_version config) (os_type (tc_os config)) (as_u32 (Z.of_nat (default 0%nat (fst <$> metrics)))) uptime
    (tc_peer_type config) (telemetry_mode (tc_network_mode config)) (telemetry_reachability metrics) latest_kyn
    (megabytes (bandwidth metrics)) (megabytes (bandwidth metrics)).

(** One tick, every ten minutes: a fresh identifier in case the session has ended,
    the cached kyn and the uptime are given. *)
Definition telemetry_tick (topic : bytes) (telemetry_to_vec : TelemetryHeartbeat -> option bytes)
    (config : TelemetryConfig) (uuid : bytes) (cached : option Z) (uptime : Z) (s : TelemetrySession)
  : TelemetrySession * Client (option TelemetryHeartbeat) :=
  let latest_kyn := telemetry_kyn cached in
  let s := telemetry_rotate uuid latest_kyn s in
  (s, if negb (enable_anonymous_telemetry config) then Ret None
      else client_bind network_status (fun r =>
        let metrics := match r with Ok m => Some m | Err _ => None end in
        let hb := telemetry_heartbeat config s latest_kyn uptime metrics in
        match telemetry_to_vec hb with
        | Some json => client_bind (broadcast_gossip topic (opcode_byte OpTelemetry :: json)) (fun _ => Ret (Some hb))
        | None => Ret None
        end)).

(** The ticks of a session: what each used, with its kyn. *)
Fixpoint telemetry_run (ticks : list (bytes * option Z)) (s : TelemetrySession) : list (TelemetrySession * Z) :=
  match ticks with
  | [] => []
  | (uuid, cached) :: ticks =>
      let s := telemetry_rotate uuid (telemetry_kyn cached) s in
      (s, telemetry_kyn cached) :: telemetry_run ticks s
  end.

(** ** Facts about waiting *)

(** What a resolution returns, in time. *)
Definition resolved (answer : option (Z * option Reply)) : Result ResolveFailure bytes :=
  match answer with
  | Some (ms, r) =>
      if ms <=? 10000 then match r with Some (RpGet r) => map_err RfLoop r | _ => Err RfClosed end else Err RfTimedOut
  | None => Err RfTimedOut
  end.

(** C37: Resolutions end.  Once its command is queued a resolution, of a record or of
    a heartbeat, ends within ten seconds with what its responder was given by then;
    the wait for room in the queue is not bounded. *)
Theorem resolution_ends channel n clock name wait answer :
  channel n = ChQueued wait answer ->
  (forall ms r, answer = Some (ms, r) -> 0 <= ms) ->
  exists t, clock + wait <= t <= clock + wait + 10000 /\
    run_client channel n clock (resolve_redundant_payload name) =
      MkOutcome [ResolveRedundant name n] (Some (resolved answer, t)) /\
    run_client channel n clock (resolve_heartbeat name) =
      MkOutcome [ResolveHeartbeat name n] (Some (resolved answer, t)).
Proof.
  intros Hc Ha. exists (clock + wait + match answer with Some (ms, _) => Z.min ms 10000 | None => 10000 end).
  split; [destruct answer as [[ms r]|]; [specialize (Ha ms r eq_refl)|]; lia|].
  unfold resolve_redundant_payload, resolve_heartbeat, RESOLVE_TIMEOUT. cbn [run_client]. rewrite Hc.
  destruct answer as [[ms r]|]; cbn [await resolved]; [|done].
  destruct (Z.leb_spec ms 10000).
  - rewrite Z.min_l by lia. destruct r as [[]|]; done.
  - rewrite Z.min_r by lia. done.
Qed.

(** ** Facts about publications and host routes *)

Lemma commands_bind_ret {A B} channel n clock (m : Client A) (f : A -> B) :
  oc_commands (run_client channel n clock (client_bind m (fun r => Ret (f r)))) = oc_commands (run_client channel n clock m).
Proof.
  revert n clock. induction m as [a|c k IH|c l k IH]; intros n clock; cbn; [done| |].
  - destruct (channel n); cbn; [apply IH|done|]. by rewrite IH.
  - destruct (channel n) as [| |w a]; cbn; [apply IH|done|]. destruct (await l a) as [[ms x]|]; cbn; [|done]. by rewrite IH.
Qed.

(** The commands of a publication. *)
Lemma publish_commands channel n clock name payload :
  oc_commands (run_client channel n clock (publish_redundant_payload name payload)) =
    match channel n with
    | ChQueued _ _ => if len payload >? CLIENT_PAYLOAD_LIMIT then [] else [PublishRedundant name payload n]
    | _ => []
    end.
Proof.
  unfold publish_redundant_payload. destruct (_ >? _); cbn; [by destruct (channel n)|].
  destruct (channel n) as [| |w [[ms r]|]]; done.
Qed.

Section HostRouteFacts.
Context {HUni : UnicodeCase} {HSha : Sha2} {HSig : MlDsa} {HCod : Codecs} {HJcs : Jcs}
  {HBv : BeaconVerify} {HVdf : VdfEngine} {HSto : StorageEngine} {HPeer : PeerIds} {HEd : Ed25519}
  {HJson : StoredJson} {HSerde : Serde} {HLru : LruCache} {HMem : KadMemory} {HRes : ResolverJson}
  {HDerived : SerdeDerived}.
Variables (is_dev_mode : bool) (network_salt : bytes) (action : option ActionState).

Lemma find_first_elem {A} (f : A -> bool) l x : find_first f l = Some x -> x ∈ l.
Proof.
  induction l as [|a l IH]; cbn; [done|]. destruct (f a); [intros [= ->]; left|]. intros H. right. by apply IH.
Qed.

Lemma tie_breaker_parsed query payloads now p :
  xor_tie_breaker is_dev_mode network_salt action query payloads now = Some p -> is_Some (parse_one query p).
Proof.
  rewrite tie_breaker_cases. cbv zeta.
  assert (Hx : forall x, (p, x) ∈ parsed_payloads query payloads -> is_Some (parse_one query p)).
  { intros x Hin. apply elem_of_parsed in Hin as [_ ->]. done. }
  destruct (existsb is_kid_payload _); [|destruct (existsb is_host_payload _)]; rewrite fmap_Some; intros ([q k] & E & ->).
  - apply min_by_key_some in E as [Hin _]. apply elem_of_kid_candidates in Hin as (d & [_ H] & _). cbn. by rewrite H.
  - apply min_by_key_some in E as [Hin _]. apply list_elem_of_omap in Hin as ([q' x] & Hin & E).
    unfold host_candidate in E. destruct x; try discriminate E. cbn in E. destruct (is_err _); [done|].
    injection E as -> _. by eapply Hx.
  - apply find_first_elem in E as Hin. destruct q as [q r].
    apply elem_of_sort_stable, elem_of_reveal_candidates in Hin as [[_ H] _]. cbn. by rewrite H.
Qed.

(** Host routes are never found.  What the client publishes of a route is
    refused by every store, and whatever peers answer, the query it makes for a
    route is never answered with one: the resolver expects them under another
    name. *)
Theorem host_routes_unreachable h :
  let b := host_route_to_vec h in
  len b <= LIMITS_STORAGE_MAX_VALUE_BYTES -> is_Some (json_from_slice b) ->
  (forall channel n clock c,
     c ∈ oc_commands (run_client channel n clock (publish_host_routing_record (Some ∘ host_route_to_vec) h)) ->
     c = PublishRedundant (host_route_key (host_id h)) b n) /\
  (forall now store key skip,
     put_record_internal is_dev_mode network_salt action now store (MkKadRecord key b) skip = (store, Err SchemaValidationError)) /\
  (forall host payloads now p, document_from_slice p = None -> is_Some (host_route_from_slice p) ->
     xor_tie_breaker is_dev_mode network_salt action (host_route_key host) payloads now <> Some p).
Proof.
  cbv zeta. intros Hl Hj. split; [|split].
  - intros channel n clock c. unfold publish_host_routing_record. cbn [compose]. rewrite commands_bind_ret, publish_commands.
    destruct (channel n); [set_solver|set_solver|]. destruct (_ >? _); set_solver.
  - intros now store key skip. unfold put_record_internal. cbn [kr_key kr_value].
    replace (len (host_route_to_vec h) >? _) with false by (symmetry; rewrite Z.gtb_ltb; by apply Z.ltb_ge).
    destruct Hj as [v Hv]. rewrite Hv. unfold dispatch, field.
    rewrite !(host_route_fields h v _ Hv). cbn [bool_decide].
    destruct (envelope_from_value v) as [e|] eqn:Ee; [|done].
    apply envelope_requires_proof in Ee. rewrite (host_route_fields h v _ Hv) in Ee. discriminate Ee.
  - intros host payloads now p Hd [r Hr] E. apply tie_breaker_parsed in E as [x E]. unfold parse_one in E.
    rewrite Hd, Hr in E. rewrite bool_decide_eq_false_2 in E; [done|]. unfold host_route_key. intros Hq.
    apply (f_equal (take 1)) in Hq. discriminate Hq.
Qed.

(** Which route a client takes.  A route is returned exactly when the loop
    answers both commands, in time, and the payload reads as a route that verifies
    at the kyn it gave; whose route it is is not compared with the host that was
    asked for. *)
Theorem resolved_route_iff channel n clock host record :
  (exists t, oc_result (run_client channel n clock (resolve_host_routing_record network_salt host)) = Some (Ok (Some record), t)) <->
  exists wait ms kyn wait' ms' b,
    channel n = ChQueued wait (Some (ms, Some (RpKyn kyn))) /\
    channel (S n) = ChQueued wait' (Some (ms', Some (RpGet (Ok b)))) /\ ms' <= 10000 /\
    host_route_from_slice b = Some record /\ verify_host_routing_record network_salt record kyn = Ok tt.
Proof.
  unfold resolve_host_routing_record, fetch_current_kyn, resolve_redundant_payload, RESOLVE_TIMEOUT. cbn [client_bind run_client].
  split.
  - intros [t H]. destruct (channel n) as [| |wait [[ms [rp|]]|]] eqn:En; cbn in H; try discriminate H.
    destruct rp as [| | |kyn| | | | | |]; cbn in H; try discriminate H.
    destruct (channel (S n)) as [| |wait' answer] eqn:Es; cbn in H; [discriminate H|discriminate H|].
    destruct answer as [[ms' r]|]; cbn in H; [|discriminate H].
    destruct (Z.leb_spec ms' 10000); cbn in H; [|discriminate H].
    destruct r as [[[b|e]| | | | | | | | |]|]; cbn in H; try discriminate H; [|by destruct e].
    apply (inj Some), (f_equal fst) in H. cbn [fst] in H. apply bind_ok in H as (record' & Hr & H).
    rewrite bind_unit_ok, map_err_ok in H. destruct H as [Hv H]. apply Ok_inj, (inj Some) in H as <-.
    rewrite ok_or_ok in Hr. by exists wait, ms, kyn, wait', ms', b.
  - intros (wait & ms & kyn & wait' & ms' & b & Hn & Hs & Hm & Hr & Hv). rewrite Hn. cbn. rewrite Hs. cbn.
    apply Z.leb_le in Hm. rewrite Hm. cbn. rewrite Hr. cbn. rewrite Hv. cbn. by eexists.
Qed.

End HostRouteFacts.

(** ** Facts about the telemetry *)

Lemma rotate_fresh uuid kyn s :
  is_u64 kyn -> sat_sub kyn (session_generated_at_kyn (telemetry_rotate uuid kyn s)) < SESSION_LIFETIME_KYNS.
Proof.
  intros Hk. unfold telemetry_rotate. destruct (_ >=? _) eqn:E; cbn [session_generated_at_kyn].
  - replace (sat_sub kyn kyn) with 0 by (unfold sat_sub, is_u64 in *; lia). done.
  - rewrite Z.geb_leb in E. by apply Z.leb_gt in E.
Qed.

(** Where the session of a tick was made: before the ticks, or at one not after it. *)
Lemma run_origin ticks s i s1 k : Forall (fun t => is_u64 (telemetry_kyn t.2)) ticks ->
  telemetry_run ticks s !! i = Some (s1, k) ->
  (exists t, ticks !! i = Some t /\ k = telemetry_kyn t.2) /\
  sat_sub k (session_generated_at_kyn s1) < SESSION_LIFETIME_KYNS /\
  (s1 = s \/ exists m t, (m <= i)%nat /\ ticks !! m = Some t /\ s1 = MkTelemetrySession t.1 (telemetry_kyn t.2)).
Proof.
  revert s i. induction ticks as [|[uuid cached] ticks IH]; intros s i Hu H; [done|]. rewrite Forall_cons in Hu.
  destruct Hu as [Hk Hu]. cbn [telemetry_run] in H. destruct i as [|i].
  - apply (inj Some) in H. apply pair_equal_spec in H as [<- <-]. split; [by eexists|].
    split; [by apply rotate_fresh|]. unfold telemetry_rotate. destruct (_ >=? _); [right|by left].
    exists 0%nat, (uuid, cached). done.
  - apply (IH _ i Hu) in H as (H1 & H2 & H3). split; [done|]. split; [done|].
    destruct H3 as [->|(m & t & Hm & Ht & ->)]; [|right; exists (S m), t; split; [lia|done]].
    unfold telemetry_rotate. destruct (_ >=? _); [right|by left]. exists 0%nat, (uuid, cached). split; [lia|done].
Qed.

(** A session does not outlive its limit.  While the kyns of the cache do not
    decrease and identifiers do not repeat, two heartbeats under the same one are
    less than 28,800 kyns apart. *)
Theorem telemetry_session_bounded uuid0 cached0 ticks i j s k s' k' :
  let run := telemetry_run ticks (telemetry_boot uuid0 cached0) in
  let marks := (uuid0, cached0) :: ticks in
  NoDup (map fst marks) -> Forall (fun t => is_u64 (telemetry_kyn t.2)) marks ->
  (forall m n t u, (m <= n)%nat -> marks !! m = Some t -> marks !! n = Some u -> telemetry_kyn t.2 <= telemetry_kyn u.2) ->
  run !! i = Some (s, k) -> run !! j = Some (s', k') -> session_id s = session_id s' ->
  Z.abs (k - k') < SESSION_LIFETIME_KYNS.
Proof.
  cbv zeta. intros Hn Hu Hm Hi Hj He. set (marks := (uuid0, cached0) :: ticks) in *.
  assert (Horigin : forall i s k, telemetry_run ticks (telemetry_boot uuid0 cached0) !! i = Some (s, k) ->
    exists m t, marks !! m = Some t /\ session_id s = t.1 /\ telemetry_kyn t.2 <= k < telemetry_kyn t.2 + SESSION_LIFETIME_KYNS).
  { clear i j s k s' k' Hi Hj He. intros i s k H.
    apply run_origin in H as ((u & Hi & ->) & Hs & Ho); [|by apply Forall_cons in Hu as [_ Hu]].
    assert (exists m t, (m <= S i)%nat /\ marks !! m = Some t /\ s = MkTelemetrySession t.1 (telemetry_kyn t.2))
      as (m & t & Hle & Ht & ->).
    { destruct Ho as [->|(m & t & Hle & Ht & ->)]; [exists 0%nat, (uuid0, cached0)|exists (S m), t]; split; try lia; done. }
    exists m, t. split; [done|]. split; [done|]. pose proof (Hm m (S i) t u Hle Ht Hi) as Hk.
    cbn [session_generated_at_kyn] in Hs. unfold sat_sub in Hs. lia. }
  destruct (Horigin _ _ _ Hi) as (m & t & Ht & Es & Hk). destruct (Horigin _ _ _ Hj) as (n & u & Hu' & Es' & Hk').
  assert (m = n) as <-.
  { eapply NoDup_lookup; [exact Hn| |].
    - rewrite list_lookup_fmap, Ht. reflexivity.
    - rewrite list_lookup_fmap, Hu'. cbn. congruence. }
  assert (t = u) as <- by congruence. lia.
Qed.

(** What every run of a tree sends. *)
Fixpoint sends {A} (P : Command -> Prop) (m : Client A) : Prop :=
  match m with
  | Ret _ => True
  | Tell c k => P c /\ forall ok, sends P (k ok)
  | Ask c _ k => (forall n, P (c n)) /\ forall w, sends P (k w)
  end.

Lemma sends_bind {A B} P (m : Client A) (f : A -> Client B) :
  sends P m -> (forall a, sends P (f a)) -> sends P (client_bind m f).
Proof.
  intros Hm Hf. induction m as [a|c k IH|c l k IH]; cbn in *; [done| |]; destruct Hm as [Hc Hk]; (split; [done|]); intros w; by apply IH.
Qed.

Lemma sends_commands {A} P channel n clock (m : Client A) : sends P m -> Forall P (oc_commands (run_client channel n clock m)).
Proof.
  revert n clock. induction m as [a|c k IH|c l k IH]; intros n clock H; cbn in *; [constructor| |]; destruct H as [Hc Hk].
  - destruct (channel n); [by apply IH|constructor|]. constructor; [done|]. by apply IH.
  - destruct (channel n) as [| |w a]; [by apply IH|constructor|].
    destruct (await l a) as [[ms x]|]; cbn; [|by repeat constructor]. constructor; [done|]. by apply IH.
Qed.

(** Telemetry is refused.  What a tick broadcasts is not relayed by any node,
    whatever its action state: the validation of the global topic knows two kinds of
    messages, and a telemetry heartbeat is neither. *)
Theorem telemetry_refused `{HSha : Sha2} `{HSig : MlDsa} `{HCod : Codecs} `{HBv : BeaconVerify} `{HSerde : Serde}
    `{HRea : @ReactorJson HSerde} topic telemetry_to_vec config uuid cached uptime s channel n clock t payload r :
  BroadcastGossip t payload r
    ∈ oc_commands (run_client channel n clock (telemetry_tick topic telemetry_to_vec config uuid cached uptime s).2) ->
  t = topic /\ forall is_dev_mode action action_config,
    gossip_valid is_dev_mode action action_config topic topic payload = Some false.
Proof.
  intros Hin. set (P := fun c => match c with
    | BroadcastGossip t payload _ => t = topic /\ exists json, payload = opcode_byte OpTelemetry :: json
    | _ => True
    end).
  assert (Hs : sends P (telemetry_tick topic telemetry_to_vec config uuid cached uptime s).2).
  { unfold telemetry_tick. cbn [snd]. destruct (negb _); [done|]. apply sends_bind; [done|]. intros m. cbv zeta.
    destruct (telemetry_to_vec _) as [json|]; [|done]. apply sends_bind; [|done]. split; [|done]. intros x. cbn. by eauto. }
  apply (sends_commands P channel n clock) in Hs. rewrite Forall_forall in Hs.
  destruct (Hs _ Hin) as [-> [json ->]]. split; [done|]. intros dev action action_config. unfold gossip_valid.
  by rewrite bool_decide_eq_true_2.
Qed.
