(* ===== verification/ClientExamples.v ===== *)
(** * Witnesses of the client *)
From Stdlib Require Import String.
From S2P Require Import Prelude Sorting Bytes Config Crypto Kyn Names Physics Net Kid Records Action Verify Lru Peers DnsTree Storage StoreVerify TieBreaker Store EventLoop Waiting LoopExamples Client.
#[local] Open Scope Z_scope.

Module ToyClient.
#[local] Existing Instances ascii_only ToyStore.short_sha2 ToyStore.yes_mldsa toy_beacon_codecs toy_jcs
  ToyStore.yes_beacon ToyStore.yes_vdf ToyLoop.wasm_true ToyResolver.ed ToyLoop.serde ToyDht.lru ToyDht.mem.

(** A host whose identifier is the digest of its key, as the check expects it. *)
Definition peers : PeerIds := {| peer_id_digest s := Some (ED25519_MULTIHASH_PREFIX ++ s); ed25519_peer_id k := k |}.
Definition ed : Ed25519 := {|
  EdKey := bytes; EdSig := bytes; ed_key_from_bytes k := Some k; ed_sig_from_slice s := Some s;
  ed_verify k m s := bool_decide (s = k) |}.
Definition host : bytes := repeat 5 32.
Definition route : HostRoute := MkHostRoute host (bs "peer") 1000 host.
Definition resolver : ResolverJson := {|
  document_from_slice _ := None; reveal_from_slice _ := None;
  host_route_from_slice p := if bool_decide (p = [8]) then Some route else None |}.

(** The loop answers the first command after a millisecond, the second after two
    seconds. *)
Definition channel (n : nat) : Channel :=
  match n with
  | O => ChQueued 0 (Some (1, Some (RpKyn 1001)))
  | _ => ChQueued 5 (Some (2000, Some (RpGet (Ok [8]))))
  end.
Definition silent (n : nat) : Channel := ChQueued 7 None.

#[local] Existing Instances peers ed resolver.

(** A route of one host is taken for that of another. *)
Example another_route :
  oc_result (run_client channel 0 0 (resolve_host_routing_record (toy_salt 1) (bs "somebody else"))) =
    Some (Ok (Some route), 2006).
Proof. vm_compute. reflexivity. Qed.

(** Three ticks: the second within the session, the third after it. *)
Definition ticks : list (bytes * option Z) := [(bs "u1", Some 200); (bs "u2", Some 28899); (bs "u3", Some 28900)].
Example sessions : telemetry_run ticks (telemetry_boot (bs "u0") (Some 100)) =
  [(MkTelemetrySession (bs "u0") 100, 200); (MkTelemetrySession (bs "u0") 100, 28899);
   (MkTelemetrySession (bs "u3") 28900, 28900)].
Proof. vm_compute. reflexivity. Qed.

Definition telemetry_config : TelemetryConfig :=
  MkTelemetryConfig true (bs "Edge") PtDaemon (bs "linux") (bs "0.2.0").
Definition status (n : nat) : Channel :=
  match n with
  | O => ChQueued 0 (Some (1, Some (RpStatus 3 NatRelayed)))
  | _ => ChQueued 0 (Some (1, Some (RpUnit (Ok tt))))
  end.
End ToyClient.

Lemma resolution_ends_witness :
  exists t, 7 <= t <= 10007 /\
    oc_result (run_client ToyClient.silent 0 0 (resolve_heartbeat (bs "alice.kin"))) = Some (Err RfTimedOut, t).
Proof.
  destruct (resolution_ends ToyClient.silent 0 0 (bs "alice.kin") 7 None eq_refl ltac:(discriminate)) as (t & Ht & _ & H).
  exists t. split; [lia|]. rewrite H. reflexivity.
Defined.

Lemma telemetry_session_bounded_witness : Z.abs (200 - 28899) < SESSION_LIFETIME_KYNS.
Proof.
  apply (telemetry_session_bounded (bs "u0") (Some 100) ToyClient.ticks 0 1 (MkTelemetrySession (bs "u0") 100) 200
    (MkTelemetrySession (bs "u0") 100) 28899).
  - apply (bool_decide_unpack _). vm_compute. exact I.
  - repeat constructor; unfold is_u64; cbn; lia.
  - intros m n t u Hm Ht Hu. do 4 (destruct m as [|m]; [do 4 (destruct n as [|n];
      [apply (inj Some) in Ht as <-; apply (inj Some) in Hu as <-; cbn; lia|]); discriminate Hu|]). discriminate Ht.
  - vm_compute. reflexivity.
  - vm_compute. reflexivity.
  - reflexivity.
Defined.

#[local] Existing Instances ascii_only ToyStore.short_sha2 ToyStore.yes_mldsa toy_beacon_codecs toy_jcs
  ToyStore.yes_beacon ToyStore.yes_vdf ToyLoop.wasm_true ToyResolver.peers ToyResolver.ed ToyDht.stored_json ToyLoop.serde
  ToyDht.lru ToyDht.mem ToyLoop.resolver ToyLoop.reactor ToyLoop.peer_strings ToyLoop.kad ToyPeers.addrs
  ToyPeers.argon ToyLoop.seeds.
Import ToyLoop.

Lemma telemetry_refused_witness :
  gossip_valid true None config global global [3; 1] = Some false.
Proof.
  apply (telemetry_refused global (fun _ => Some [1]) ToyClient.telemetry_config (bs "u") (Some 1000) 60
    (telemetry_boot (bs "u0") (Some 100)) ToyClient.status 0 0 global [3; 1] 1%nat).
  vm_compute. right. left.
Defined.

Lemma resolved_route_iff_witness :
  exists t, oc_result (run_client ToyClient.channel 0 0
    (@resolve_host_routing_record ToyClient.peers ToyClient.ed ToyClient.resolver (toy_salt 1) (bs "somebody else"))) =
    Some (Ok (Some ToyClient.route), t).
Proof.
  apply (@resolved_route_iff ToyClient.peers ToyClient.ed ToyClient.resolver (toy_salt 1) ToyClient.channel 0 0
    (bs "somebody else") ToyClient.route).
  exists 0, 1, 1001, 5, 2000, [8]. repeat split; vm_compute; reflexivity || discriminate.
Defined.

#[local] Existing Instances ToyDht.serde ToyDht.derived ToyClient.resolver.

Lemma host_routes_unreachable_witness :
  xor_tie_breaker false (toy_salt 1) None (host_route_key ToyClient.host) [[8]; [8]] 1001 <> Some [8].
Proof.
  destruct (host_routes_unreachable false (toy_salt 1) None ToyClient.route) as (_ & _ & H);
    [vm_compute; discriminate|vm_compute; eexists; reflexivity|].
  apply H; [reflexivity|vm_compute; eexists; reflexivity].
Defined.
