(* ===== verification/NodeApi.v ===== *)
(** * The node behind the API ([kinetic-daemon/src/api/config.rs], [gossip.rs], [system.rs], [time.rs])

    The handlers that report what the event loop, the storage and the clock know,
    that command the loop, that stream gossip to a subscriber and that end the
    process.  A handler that talks to the loop is a client of its handle
    ([Client]); the rest of [config.rs] is in [LocalState]. *)
From Stdlib Require Import String.
From S2P Require Import Prelude Bytes Config Crypto Kyn Names Physics Net Kid Records Action Verify Lru Peers DnsTree Storage StoreVerify TieBreaker Store EventLoop Oracle ActionNode ApiAuth KidManager RegistrationApi MacroApi Proxy Client.
#[local] Open Scope Z_scope.

Inductive NodeError :=
  | NeInsufficientPrivileges
  | NeStorage (e : StorageError)
  | NeClient (e : ClientFailure)
  | NeKyn (e : KynProviderError)
  | NeBadRequest
  | NeNotFound.

(** [Ok(_) => Ok(Json(..)), Err(e) => Err(AppError::from(e))] *)
Definition reported {A B} (f : A -> B) (m : Client (Result ClientFailure A)) : Client (Result NodeError B) :=
  client_bind m (fun r => Ret match r with Ok a => Ok (f a) | Err e => Err (NeClient e) end).

(** ** [config.rs] *)

Section Owned.
Context {HSto : StorageEngine} {HSerde : Serde} {HDj : DaemonJson} {HDb : DbKeys}.

Definition handle_owned_names (role : Role) (d : Sto) : Result NodeError (list bytes) :=
  bail_if (negb (can_nrs role)) NeInsufficientPrivileges;;
  match sto_get d DB_PREFIX_OWNED_NAMES with
  | Ok (Some b) => ok_or (names_from_slice b) (NeStorage (DeserializationFailed []))
  | Ok None => Ok []
  | Err e => Err (NeStorage e)
  end.

(** Whether the storage answers at a key; what it holds does not matter. *)
Definition storage_ok (DB_PREFIX_LAST_KYN : bytes) (d : Sto) : bool := is_ok (sto_get d DB_PREFIX_LAST_KYN).
End Owned.

Definition handle_network_status : Client (Result NodeError (nat * NatStatus)) := reported id network_status.

Definition handle_network_bootstrap (role : Role) : Client (Result NodeError unit) :=
  if negb (can_system role) then Ret (Err NeInsufficientPrivileges) else reported id rebootstrap_network.

(** The status always has the field. *)
Definition handle_network_nat : Client (Result NodeError NatStatus) := reported snd network_status.
Definition handle_network_banned : Client (Result NodeError (list (bytes * Z))) := reported id fetch_banned_peers.
Definition handle_network_peers : Client (Result NodeError (list bytes)) := reported id fetch_connected_peers.
Definition handle_get_peer_id (local_peer_id : bytes) : Client (Result NodeError bytes) := reported (fun _ => local_peer_id) network_status.

Record Health := MkHealth { health_status : Z; network_healthy : bool; storage_healthy : bool }.

Definition handle_get_health (storage_ok : bool) : Client Health :=
  client_bind network_status (fun r =>
    let network_ok := is_ok r in
    Ret (if network_ok && storage_ok then MkHealth 200 true true else MkHealth 503 network_ok storage_ok)).

Section Flush.
Context {HLru : LruCache}.
(** [DnsCache::flush]: an empty cache of the same capacity. *)
Definition dns_cache_flush (s : ProxyState) : ProxyState := MkProxyState (lru_new DNS_CACHE_CAPACITY) (asked s).

Definition handle_dns_flush (role : Role) (s : ProxyState) : ProxyState * Result NodeError unit :=
  if negb (can_system role) then (s, Err NeInsufficientPrivileges) else (dns_cache_flush s, Ok tt).
End Flush.

(** ** [gossip.rs] *)

(** What a receiver of the broadcast channel gets: a message with its topic, the
    number of the ones it missed, or the end. *)
Inductive Received := RcMessage (topic payload : bytes) | RcLagged (skipped : Z) | RcClosed.

(** An event with the payload's text, or of the kind [binary] with its hexadecimal digits. *)
Inductive SseEvent := SseText (data : bytes) | SseBinary (data : bytes).

Definition event_of (payload : bytes) : SseEvent := if utf8_valid payload then SseText payload else SseBinary (hex_lower payload).

(** The stream of a subscriber; what is received after the end does not matter. *)
Fixpoint gossip_stream (topic : bytes) (rx : list Received) : list SseEvent :=
  match rx with
  | [] | RcClosed :: _ => []
  | RcLagged _ :: rx => gossip_stream topic rx
  | RcMessage msg_topic payload :: rx =>
      if bool_decide (msg_topic = topic) then event_of payload :: gossip_stream topic rx else gossip_stream topic rx
  end.

(** [payload_bytes]: the serialised body, when it can be. *)
Definition handle_gossip_publish (role : Role) (topic : bytes) (payload_bytes : option bytes) : Client (Result NodeError unit) :=
  if negb (can_gossip role) then Ret (Err NeInsufficientPrivileges)
  else match payload_bytes with
       | None => Ret (Err NeBadRequest)
       | Some b => reported id (broadcast_gossip topic b)
       end.

Definition handle_get_gossip_topics : Client (Result NodeError (list bytes)) := reported id fetch_gossip_topics.

(** ** [system.rs] *)

(** The request to end, and the flag that makes [main] exit with status 1. *)
Record EndRequests := MkEndRequests { ending : bool; restart_requested : bool }.

Definition handle_shutdown (role : Role) (s : EndRequests) : EndRequests * Result NodeError unit :=
  if negb (can_system role) then (s, Err NeInsufficientPrivileges)
  else ({| ending := true; restart_requested := restart_requested s |}, Ok tt).

Definition handle_restart (role : Role) (s : EndRequests) : EndRequests * Result NodeError unit :=
  if negb (can_system role) then (s, Err NeInsufficientPrivileges)
  else ({| ending := true; restart_requested := true |}, Ok tt).

(** [cert]: the file of the root certificate, when it can be read as text. *)
Definition handle_get_ca_cert (role : Role) (cert : option bytes) : Result NodeError bytes :=
  bail_if (negb (can_system role)) NeInsufficientPrivileges;;
  ok_or cert NeNotFound.

(** ** [time.rs] *)

Definition handle_get_time (load_cached : Result KynProviderError RawKyn) : Result NodeError CrystallizedKyn :=
  data ← map_err NeKyn load_cached;
  Ok (from_kyn (rk_kyn data) KYN_GENESIS).

(** ** What a client learns *)

(** What became of the question to the loop. *)
Definition loop_answer (c : Channel) : option (Z * bool) :=
  match c with
  | ChClosed => Some (0, false)
  | ChBlocked | ChQueued _ None => None
  | ChQueued wait (Some (ms, r)) => Some (wait + ms, match r with Some (RpStatus _ _) => true | _ => false end)
  end.

(** The health of a daemon.  The check says that all is well exactly when the loop answers its question and
    the storage its own; it says that the network is unresponsive only when the loop has ended or drops the question, and it never
    answers while the queue is full or the loop is stuck: it has no limit. *)
Theorem health_answers (channel : nat -> Channel) (n : nat) (clock : Z) (ok : bool) :
  oc_result (run_client channel n clock (handle_get_health ok)) =
    match loop_answer (channel n) with
    | None => None
    | Some (ms, network) => Some (MkHealth (if network && ok then 200 else 503) network ok, clock + ms)
    end.
Proof.
  unfold handle_get_health, network_status. cbn. destruct (channel n) as [| |wait answer]; cbn.
  - by rewrite Z.add_0_r.
  - done.
  - destruct answer as [[ms r]|]; cbn; [|done]. destruct r as [[]|]; destruct ok; cbn; by rewrite Z.add_assoc.
Qed.

(** The messages of a topic up to the end of the channel. *)
Fixpoint messages_of (topic : bytes) (rx : list Received) : list bytes :=
  match rx with
  | [] | RcClosed :: _ => []
  | RcMessage t p :: rx => if bool_decide (t = topic) then p :: messages_of topic rx else messages_of topic rx
  | RcLagged _ :: rx => messages_of topic rx
  end.

Lemma event_of_inj p q : wf_bytes p -> wf_bytes q -> event_of p = event_of q -> p = q.
Proof.
  unfold event_of. intros Hp Hq. destruct (utf8_valid p), (utf8_valid q); intros E; try discriminate; injection E as E; try done.
  by apply hex_lower_inj.
Qed.

Lemma gossip_stream_messages topic rx : gossip_stream topic rx = map event_of (messages_of topic rx).
Proof. induction rx as [|[t p|k|] rx IH]; cbn; try done. destruct (bool_decide _); cbn; by rewrite IH. Qed.

(** The stream of a topic tells its messages: two sequences of messages give the same events only if
    they carry the same payloads for the topic, in the same order, text or not; the messages a slow subscriber missed leave
    no trace in it. *)
Theorem gossip_stream_faithful (topic : bytes) (rx rx' : list Received) :
  Forall (fun m => match m with RcMessage _ p => wf_bytes p | _ => True end) (rx ++ rx') ->
  (gossip_stream topic rx = gossip_stream topic rx' <-> messages_of topic rx = messages_of topic rx') /\
  forall k, gossip_stream topic (RcLagged k :: rx) = gossip_stream topic rx.
Proof.
  intros [H1 H2]%Forall_app. split; [|done]. rewrite !gossip_stream_messages. split; [|by intros ->].
  assert (Hwf : forall l, Forall (fun m => match m with RcMessage _ p => wf_bytes p | _ => True end) l -> Forall wf_bytes (messages_of topic l)).
  { induction 1 as [|[t p|k|] l Hm Hl IH]; cbn; try done. destruct (bool_decide _); [by constructor|done]. }
  apply Hwf in H1, H2. revert H1 H2. generalize (messages_of topic rx) as l, (messages_of topic rx') as l'. intros l l' H1. revert l'.
  induction H1 as [|p l Hp Hl IH]; intros [|q l'] H2 E; try done. cbn in E. injection E as Ee El.
  inversion_clear H2. f_equal; [by apply event_of_inj|by apply IH].
Qed.

Section FlushFacts.
Context {HLru : LruCache} {HLaws : LruLaws}.

(** After a flush every name is asked for again, once. *)
Lemma flush_refetches env now apex role s :
  can_system role = true ->
  let s' := (handle_dns_flush role s).1 in
  asked (fetch_payload env now apex s').1 = asked s ++ [apex].
Proof.
  intros Hr. unfold handle_dns_flush. rewrite Hr. cbn [negb fst]. unfold fetch_payload, dns_cache_get, dns_cache_flush. cbn [dns_cache asked].
  pose proof (lru_get_value (lru_new (V := bytes * Z) DNS_CACHE_CAPACITY) apex) as Hg. rewrite lru_view_new, lookup_empty in Hg.
  destruct (lru_get _ _) as [c hit]. cbn in Hg. subst hit. by destruct (pe_resolve _ _ _).
Qed.

End FlushFacts.

(** Without the right to it a role sends the loop nothing. *)
Lemma unprivileged_sends_nothing channel n clock role topic b :
  can_system role = false -> can_gossip role = false ->
  run_client channel n clock (handle_network_bootstrap role) = MkOutcome [] (Some (Err NeInsufficientPrivileges, clock)) /\
  run_client channel n clock (handle_gossip_publish role topic b) = MkOutcome [] (Some (Err NeInsufficientPrivileges, clock)).
Proof. unfold handle_network_bootstrap, handle_gossip_publish. by intros -> ->. Qed.

Lemma gossip_stream_faithful_witness :
  let rx := [RcMessage (bs "a") [104; 105]; RcMessage (bs "b") [1]; RcMessage (bs "a") [255]; RcClosed; RcMessage (bs "a") [2]] in
  gossip_stream (bs "a") rx = [SseText [104; 105]; SseBinary [102; 102]] /\
  (gossip_stream (bs "a") rx = gossip_stream (bs "a") [] <-> messages_of (bs "a") rx = []).
Proof.
  cbn zeta. split; [by vm_compute|].
  apply (gossip_stream_faithful (bs "a") _ []). repeat constructor; unfold is_byte; lia.
Defined.
