(* ===== verification/SwappedLoop.v ===== *)
(** * What a new event loop has forgotten

    The rotation tasks of [Rotation] replace the event loop of a running process.  The new
    loop starts as at boot: no topic is subscribed and the log of actions is empty,
    and only the commands [SubscribeGossip] and [UpdateActionLog] change that.  This file shows that no
    other input of the loop makes up for them. *)
From Stdlib Require Import String.
From S2P Require Import Prelude Sorting Bytes Config Crypto Kyn Names Physics Net Kid Records Action Verify Lru Peers DnsTree Storage StoreVerify TieBreaker Store EventLoop.
#[local] Open Scope Z_scope.

(** A call that neither subscribes nor hands out another log than [L]. *)
Definition silent (L : list SignedNetworkAction) (c : SwarmCall) : Prop :=
  match c with
  | CallSubscribe _ => False
  | CallSyncResponse _ actions => actions = L
  | _ => True
  end.

(** An input that is neither of the two commands. *)
Definition not_telling `{Multiaddrs} (i : Input) : Prop :=
  match i with
  | InCommand _ (SubscribeGossip _ _ | UpdateActionLog _) => False
  | _ => True
  end.

Section Mute.
Context {HUni : UnicodeCase} {HSha : Sha2} {HSig : MlDsa} {HCod : Codecs} {HJcs : Jcs}
  {HBv : BeaconVerify} {HVdf : VdfEngine} {HSto : StorageEngine} {HPeer : PeerIds} {HEd : Ed25519}
  {HJson : StoredJson} {HSerde : Serde} {HUtf : Utf8Lossy} {HLru : LruCache} {HMem : KadMemory}
  {HRes : ResolverJson} {HRea : ReactorJson} {HStr : PeerStrings} {HKad : KadBehaviour}
  {HAddr : Multiaddrs} {HArgon : Argon2} {HSeeds : DnsSeeds}.
Variables (dev : bool) (salt : bytes) (action : option ActionState) (config : ActionConfig) (topic : bytes).
Variables (B : list SwarmCall) (L : list SignedNetworkAction).

(** The loop holds the log [L], and since its calls were [B] it has handed out nothing else and subscribed to
    nothing. *)
Definition Mute (e : NetworkEventLoop) : Prop :=
  el_action_log (requests e) = L /\ exists l, swarm_log e = B ++ l /\ Forall (silent L) l.

Lemma mute_call c e : silent L c -> Mute e -> Mute (call c e).
Proof.
  intros Hc [H1 (l & H2 & H3)]. split; [done|]. exists (l ++ [c]). cbn [call set_swarm_log swarm_log].
  rewrite H2, app_assoc. split; [done|]. apply Forall_app. split; [done|by constructor].
Qed.

Lemma mute_fold {A} (f : A -> NetworkEventLoop -> NetworkEventLoop) l e :
  (forall a e, Mute e -> Mute (f a e)) -> Mute e -> Mute (fold_left (fun e a => f a e) l e).
Proof. intros Hf. revert e. induction l as [|a l IH]; intros e He; [done|]. by apply IH, Hf. Qed.

Lemma mute_reply_all l r e : Mute e -> Mute (reply_all l r e).
Proof. by apply (mute_fold (fun x => reply x r)). Qed.

Hint Resolve mute_call mute_reply_all : mute.
Hint Extern 0 (silent _ _) => exact I : mute.
(** Everything but the two fields is replaced freely. *)
Ltac mute := solve [eauto with mute | match goal with H : Mute ?e |- Mute _ => exact H end].

Lemma mute_put_loop now name payload x keys n e :
  Mute e -> Mute (put_loop dev salt action now name payload x keys n e).1.
Proof.
  revert n e. induction keys as [|k keys IH]; intros n e He; cbn [put_loop]; [done|].
  destruct (put _ _ _ _ _ _) as [store [t|err]]; [|mute].
  destruct (kad_put_record _ _ _) as [store' []]; apply IH; [|mute].
  refine (mute_call _ (set_next_id _ (set_el_store store' e)) _ _); [exact I|exact He].
Qed.

Lemma mute_enqueue now name keys payload x e :
  Mute e -> Mute (enqueue_dht_puts dev salt action now name keys payload x e).
Proof.
  intros He. unfold enqueue_dht_puts. destruct (pending_puts e !! name); [mute|].
  pose proof (mute_put_loop now name payload x keys 0 e He) as Hl.
  destruct (put_loop _ _ _ _ _ _ _ _ _ e) as [e' [n|]]; [|done]. cbn [fst] in Hl. destruct (n >? 0); mute.
Qed.

Lemma mute_dispatch keys q n e : Mute e -> Mute (dispatch_dht_queries keys q n e).1.
Proof.
  revert n e. induction keys as [|k keys IH]; intros n e He; cbn [dispatch_dht_queries]; [done|]. apply IH.
  refine (mute_call _ (set_next_id _ e) _ _); [exact I|exact He].
Qed.

Lemma mute_race name l e : Mute e -> Mute (race_cdn name l e).
Proof.
  revert e. induction l as [|k l IH]; intros e He; cbn [race_cdn]; [done|]. apply IH.
  refine (mute_call _ (set_next_id _ e) _ _); [exact I|exact He].
Qed.

Lemma mute_start_get name keys x e : Mute e -> Mute (start_get name keys x e).
Proof.
  intros He. unfold start_get. pose proof (mute_dispatch keys (QGet name) 0 e He) as Hd.
  by destruct (dispatch_dht_queries _ _ _ e).
Qed.

Lemma mute_command now info c e :
  not_telling (InCommand info c) -> Mute e -> Mute (handle_command dev salt action now info c e).
Proof.
  intros Hc He. destruct c as [x|x|n p x|n p x|n x|n x|n p x|pr q x|ch q|x|t x|t p x|m s a|x|x|x|pr x|l];
    cbn [handle_command fresh_id]; try done; try mute; try (by apply mute_enqueue);
    try (refine (mute_call _ (set_next_id _ e) _ _); [exact I|exact He]).
  - refine (mute_fold (fun peer => call (CallDial peer)) _ _ _ _); [intros; mute|mute].
  - destruct (offline info); [by destruct (local_value _ _)|]. destruct (pending_gets e !! n); [done|].
    by apply mute_start_get, mute_race.
  - destruct (offline info); [done|]. destruct (pending_gets e !! _); [done|]. by apply mute_start_get.
  - destruct (pending_quorums e !! n); [done|]. destruct (offline info); [done|].
    pose proof (mute_dispatch (derive_storage_keys n salt) (QQuorum n) 0 e He) as Hd.
    by destruct (dispatch_dht_queries _ _ _ e).
Qed.

Lemma mute_strikes now src e :
  Mute e -> Mute (strike_put now src e) /\ Mute (strike_record now src e) /\ Mute (ban_gossip now src e).
Proof.
  intros He. unfold strike_put, strike_record, ban_gossip. destruct (strike now src _) as [counts n].
  assert (Hd : Mute (ban src (call (CallDisconnect src) (set_bad_vdf_counts counts e)))).
  { refine (mute_call _ (set_bad_vdf_counts counts e) _ _); [exact I|exact He]. }
  destruct (n >=? 3); split_and!; try exact He; exact Hd.
Qed.

Lemma mute_kademlia now ev e : Mute e -> Mute (handle_kademlia dev salt action now ev e).
Proof.
  intros He. destruct ev as [id record|id|id ok|src record]; cbn [handle_kademlia].
  - unfold handle_found. destruct (query_id_to_name e !! id) as [[n|n|n]|]; [| |done|].
    + by destruct (pending_gets e !! n).
    + destruct (pending_quorums e !! n); [by case_bool_decide|done].
    + destruct (pending_reveals e !! id) as [[src rec]|]; [|done]. by destruct (reveal_of_value _).
  - unfold handle_get_finished. destruct (query_id_to_name e !! id) as [[n|n|n]|]; try exact He.
    + unfold handle_get_completion. cbn [set_query_id_to_name]. destruct (_ !! n); [|done]. cbv zeta. by destruct (_ =? 0).
    + unfold handle_quorum_completion. destruct (_ !! n); [|done]. cbv zeta. by destruct (_ =? 0).
  - unfold handle_put_finished. destruct (query_id_to_name e !! id) as [[n|n|n]|]; try exact He. cbv zeta.
    destruct (_ !! n); [|done]. destruct (_ =? 0); [|done]. by destruct (_ >? 0).
  - unfold handle_inbound_put. destruct (_ ≫= _); [done|]. destruct (put _ _ _ _ _ _) as [store [t|err]]; [done|].
    destruct (is_error_severity err); [|done]. by apply mute_strikes.
Qed.

Lemma mute_loopback now info cmd e : Mute e -> Mute (handle_loopback dev salt action now info cmd e).
Proof.
  intros He. destruct cmd as [src rec v|m src v|p v b|a|d rec p]; cbn [handle_loopback].
  - destruct v as [t|[]]; cbn [fresh_id]; try (destruct (is_error_severity _); [by apply mute_strikes|done]);
      [refine (mute_call _ (set_el_store _ e) _ _)|refine (mute_call _ (set_next_id _ e) _ _)]; try exact I; exact He.
  - assert (Hr : Mute (call (CallReportValidation m src v) e)) by mute. destruct v as [[]|]; [exact Hr| |exact Hr].
    assert (Hb : Mute (ban_gossip now src (call (CallReportValidation m src (Some false)) e))) by (by apply mute_strikes).
    destruct (is_banned _ _); [|exact Hb]. by apply mute_call.
  - destruct (_ && _); mute.
  - destruct (_ <? _)%nat; mute.
  - destruct (envelope_from_slice rec); [|done].
    destruct (handle_put_record _ _ _ _ _ _ _) as [store [t|err]]; [|done]. cbv zeta.
    destruct (_ !! d); [|done]. apply mute_reply_all. exact He.
Qed.

Lemma mute_task t e : Mute e -> Mute (run_task dev salt action config topic t e).
Proof.
  intros He. destruct t as [n ps k fb rs q|src rec rv k|d rec p rv k|m src t p|k|p k b|ds b]; cbn [run_task]; try exact He.
  - destruct (xor_tie_breaker _ _ _ _ _ _); [mute|]. destruct fb; mute.
  - by destruct (_ || _).
  - destruct (gossip_valid _ _ _ _ _) as [v|]; [|done]. cbv zeta. destruct (_ && _); [|done].
    refine (mute_call _ (send_loopback _ e) _ _); [exact I|exact He].
  - refine (mute_fold (fun addr e => if is_routable_multiaddr dev (maddr_protocols addr) b true
      then send_loopback (DialResolvedSeed (maddr_to_vec addr)) e else e) _ _ _ He).
    intros a e' He'. by destruct (is_routable_multiaddr _ _ _ _).
Qed.

Lemma mute_peers now i e :
  match i with InConnection _ | InIdentify _ _ _ | InMdns _ | InClosed _ | InConnectionError _ | InNat _ _ | InRedial _ => True
  | _ => False end ->
  Mute e -> Mute (step dev salt action config topic now i e).
Proof.
  intros Hi He. destruct i; try done; cbn [step].
  - unfold handle_connected. set (e1 := set_peer_registry _ e).
    assert (H1 : Mute (admit_connection peer e1).1).
    { unfold admit_connection. destruct (lru_peek _ _) as [t|]; [destruct (t >? _)|]; try exact He.
      refine (mute_call _ e1 _ _); [exact I|exact He]. }
    destruct (admit_connection peer e1) as [e2 []]; cbn [fst negb] in *; [|done].
    destruct (is_bootstrap peer e2); cbv zeta; (destruct (_ && _); [refine (mute_call _ _ _ _); [exact I|exact H1]|]);
      by destruct (disable_challenge _).
  - unfold handle_identify. set (e1 := set_peer_registry _ e). assert (H1 : Mute e1) by exact He. cbv zeta.
    destruct (_ && _); [by apply mute_call|]. destruct (_ && _); [by apply mute_call|]. apply mute_call; [exact I|].
    destruct (_ || _); [|done].
    refine (mute_fold (fun addr e => if is_routable_multiaddr dev (maddr_protocols addr) (disable_challenge (peers e)) _
      then call (CallAddAddress peer (maddr_to_vec addr)) e else e) _ _ _ H1).
    intros a e' He'. destruct (is_routable_multiaddr _ _ _ _); [by apply mute_call|done].
  - refine (mute_fold (fun pa e => if is_valid_pow dev pa.1 CHALLENGE_THRESHOLD_BITS_CLIENT e || is_bootstrap pa.1 e
      then call (CallAddAddress pa.1 (maddr_to_vec pa.2)) e else e) _ _ _ He).
    intros a e' He'. destruct (_ || _); [by apply mute_call|done].
  - refine (mute_call _ (set_connection_time _ e) _ _); [exact I|exact He].
  - destruct peer; [by apply mute_call|done].
  - destruct public as [a|]; cbn [handle_nat]; [|exact He].
    refine (mute_fold (fun peer => call (CallIdentifyPush peer)) _ _ _ _); [by intros; apply mute_call|].
    refine (mute_call _ e _ _); [exact I|exact He].
  - unfold redial_tick. destruct (_ =? _)%nat; [|destruct (_ <? _)%nat; [|done]];
      [|refine (mute_fold (fun a => call (CallDisconnect a)) _ _ _ He); by intros; apply mute_call].
    refine (mute_fold (fun a => call (CallDial (maddr_to_vec a))) _ _ _ He). by intros; apply mute_call.
Qed.

Lemma mute_step now i e : not_telling i -> Mute e -> Mute (step dev salt action config topic now i e).
Proof.
  intros Hi He. destruct i as [info c|ev|ev|m s t p|ev|ev|p|p s l|l|p|o|info pub|info|info|k| |i];
    try (by apply mute_peers); cbn [step].
  - by apply mute_command.
  - by apply mute_kademlia.
  - destruct ev as [n|id rec p|id]; cbn [handle_cdn]; [refine (mute_call _ e _ _); [exact I|exact He]| |exact He].
    destruct (_ !! id); [|done]. destruct rec as [rec|]; [|done]. by destruct (envelope_from_slice rec) as [[rv]|].
  - unfold handle_gossip. by destruct (gossip_permits e).
  - destruct ev as [q ch|id res|id err]; cbn [handle_proxy].
    + destruct (incoming_proxy _); [by apply mute_call|done].
    + unfold answer_proxy. by destruct (_ !! id).
    + unfold answer_proxy. by destruct (_ !! id).
  - destruct ev as [ch|id res|id]; cbn [handle_action_sync].
    + apply mute_call; [exact (proj1 He)|done].
    + unfold answer_sync. by destruct (_ !! id).
    + unfold answer_sync. by destruct (_ !! id).
  - unfold receive_loopback. destruct (loopback e) as [|cmd rest]; [done|]. by apply mute_loopback.
  - unfold kyn_changed. by destruct (_ >? _).
  - exact He.
  - unfold run_spawned_task. destruct (tasks e !! i) as [t|]; [|done]. by apply mute_task.
Qed.

Lemma mute_run inputs e :
  Forall (fun x => not_telling x.2) inputs -> Mute e -> Mute (run dev salt action config topic inputs e).
Proof.
  intros H. revert e. induction H as [|[now i] l Hi _ IH]; intros e He; [done|]. by apply IH, mute_step.
Qed.

End Mute.

Section Forgets.
Context {HUni : UnicodeCase} {HSha : Sha2} {HSig : MlDsa} {HCod : Codecs} {HJcs : Jcs}
  {HBv : BeaconVerify} {HVdf : VdfEngine} {HSto : StorageEngine} {HPeer : PeerIds} {HEd : Ed25519}
  {HJson : StoredJson} {HSerde : Serde} {HUtf : Utf8Lossy} {HLru : LruCache} {HMem : KadMemory}
  {HRes : ResolverJson} {HRea : ReactorJson} {HStr : PeerStrings} {HKad : KadBehaviour}
  {HAddr : Multiaddrs} {HArgon : Argon2} {HSeeds : DnsSeeds}.
Variables (dev : bool) (salt : bytes) (action : option ActionState) (config : ActionConfig) (topic : bytes).

Lemma boot_mute store kyn nodes seeds disable channels : Mute [] [] (loop_boot store kyn nodes seeds disable channels).
Proof.
  unfold loop_boot, loop_start.
  refine (mute_fold [] [] (fun addr => call (CallDial (maddr_to_vec addr))) _ _ _ _); [by intros; apply mute_call|].
  unfold loop_new. destruct (restore_bans _ _) as [bans d]. split; [done|]. eexists. split; [done|].
  apply Forall_concat, Forall_map, Forall_forall. intros [a p] _. destruct p; repeat constructor.
Qed.

(** C24: A swapped loop neither listens nor remembers.  A loop that is built in place of another subscribes to
    no topic and answers every request for the actions with the empty log, whatever it receives from the network
    and from its tasks, until the process itself subscribes again or hands it a log; and once it was
    handed one it answers with that until the next. *)
Theorem swapped_loop_forgets store kyn nodes seeds disable channels before inputs :
  let fresh := loop_boot store kyn nodes seeds disable channels in
  Forall (fun x => not_telling x.2) inputs ->
  (forall c, c ∈ swarm_log (run dev salt action config topic inputs fresh) -> silent [] c) /\
  (forall actions now info, exists later,
     let told := step dev salt action config topic now (InCommand info (UpdateActionLog actions))
                   (run dev salt action config topic before fresh) in
     swarm_log (run dev salt action config topic inputs told) = swarm_log told ++ later /\ Forall (silent actions) later /\
     forall ch, handle_action_sync (SyncRequest ch) (run dev salt action config topic inputs told) =
       call (CallSyncResponse ch actions) (run dev salt action config topic inputs told)).
Proof.
  intros fresh Hi. split.
  - destruct (mute_run dev salt action config topic [] [] inputs fresh Hi (boot_mute _ _ _ _ _ _)) as [_ (l & -> & Hf)].
    intros c Hc. rewrite Forall_forall in Hf. by apply Hf.
  - intros actions now info. set (e := run dev salt action config topic before fresh).
    set (told := step dev salt action config topic now (InCommand info (UpdateActionLog actions)) e).
    assert (Ht : Mute (swarm_log told) actions told) by (split; [done|exists []; by rewrite app_nil_r]).
    destruct (mute_run dev salt action config topic _ _ inputs told Hi Ht) as [Hl (later & Hs & Hf)].
    exists later. split; [done|]. split; [done|]. intros ch. cbn [handle_action_sync]. by rewrite Hl.
Qed.

End Forgets.
