(* ===== verification/Rotation.v ===== *)
(** * Rotation of peer identities ([kinetic-host/src/hot_swap.rs],
    [kinetic-daemon/src/services/network.rs])

    A host or a daemon is known to the network by a mined identity that expires.
    Two background tasks watch the kyn, mine a new identity when the current one
    no longer passes, and replace the event loop by one that runs under it.  The
    third task republishes the registrations of the owned names.  What the network
    provides (the kyn, the ports, the random keys) is given to each round. *)
From Stdlib Require Import String Sorted.
From S2P Require Import Prelude Sorting Bytes Config Crypto Kyn Names Physics Net Kid Records Action Verify Nrs Lru Peers DnsTree Storage StoreVerify TieBreaker Store EventLoop Oracle ActionNode ApiAuth KidManager RegistrationApi Waiting Client.
#[local] Open Scope Z_scope.

(** ** The rotating process *)

(** The identity of the loop's swarm, the epoch the check last passed for, how many
    loops were built, and whether the last of them runs. *)
Record Rotator := MkRotator {
  local_peer : bytes;
  last_verified_epoch : option Z;
  backends : nat;
  loop_alive : bool }.

Inductive RotationEvent :=
  | RnKyn (kyn : Z)
  | RnMined (kyn : Z) (peer : bytes)
  | RnShared (peer : bytes)
  | RnAborted
  | RnSlept (ms : Z)
  | RnBindFailed
  | RnSwapped.

#[export] Instance RotationEvent_eq_dec : EqDecision RotationEvent.
Proof. solve_decision. Defined.

(** How a round leaves the task: it goes on; the miner has not found a key among
    those drawn; the task returned; it panicked, which ends the process in a release
    build. *)
Inductive RotationStatus :=
  | Alive (s : Rotator)
  | Searching (s : Rotator)
  | Stopped (s : Rotator)
  | Panicked.

(** What a round is given: the kyn, the keys the random generator yields, the key
    drawn when mining panicked, and whether each attempt to build a loop succeeds. *)
Record Round := MkRound {
  rd_kyn : Z;
  rd_keypairs : list bytes;
  rd_fallback : bytes;
  rd_binds : nat -> bool }.

Section Rotation.
Context {HArgon : Argon2}.
Variable is_dev_mode : bool.

Definition identity_valid (peer : bytes) (kyn : Z) : bool :=
  verify_p2p_challenge is_dev_mode peer kyn CHALLENGE_THRESHOLD_BITS.

(** *** Mining in the blocking pool *)

Fixpoint solve_panics (keypairs : list bytes) (kyn : Z) : bool :=
  match keypairs with
  | [] => false
  | peer :: rest =>
      match compute_pow_hash peer (staggered_epoch peer kyn) with
      | None => true
      | Some hash => if leading_zeros hash >=? CHALLENGE_THRESHOLD_BITS then false else solve_panics rest kyn
      end
  end.

Inductive Mined := MnKey (peer : bytes) | MnPanicked | MnSearching.

Definition mine (keypairs : list bytes) (kyn : Z) : Mined :=
  match solve_p2p_challenge is_dev_mode keypairs kyn CHALLENGE_THRESHOLD_BITS with
  | Some peer => MnKey peer
  | None =>
      if negb is_dev_mode && ((kyn =? 0) || solve_panics keypairs kyn) then MnPanicked else MnSearching
  end.

(** *** Building the new loop *)

(** The host tries five times, two seconds apart. *)
Fixpoint host_binds (tries : nat) (binds : nat -> bool) (attempt : nat) : list RotationEvent * bool :=
  match tries with
  | O => ([], false)
  | S tries =>
      if binds attempt then ([], true)
      else let '(ev, ok) := host_binds tries binds (S attempt) in (RnBindFailed :: RnSlept 2000 :: ev, ok)
  end.

(** The daemon sleeps before each attempt, twice as long each time, and gives up
    after ten retries; the loop is given [fuel] turns. *)
Fixpoint daemon_binds (fuel : nat) (binds : nat -> bool) (retries : nat) (backoff : Z)
  : option (list RotationEvent * bool) :=
  match fuel with
  | O => None
  | S fuel =>
      if binds retries then Some ([RnSlept backoff], true)
      else if (10 <? S retries)%nat then Some ([RnSlept backoff; RnBindFailed], false)
      else
        '(ev, ok) ← daemon_binds fuel binds (S retries) (wmul64 backoff 2);
        Some (RnSlept backoff :: RnBindFailed :: ev, ok)
  end.

Definition DAEMON_FUEL : nat := 11.

(** *** One kyn *)

Definition needs_validation (s : Rotator) (kyn : Z) : bool :=
  match last_verified_epoch s with
  | Some epoch => negb (epoch =? staggered_epoch (local_peer s) kyn)
  | None => true
  end.

Definition set_verified (epoch : option Z) (s : Rotator) : Rotator :=
  MkRotator (local_peer s) epoch (backends s) (loop_alive s).

(** The part the two tasks share: [swap] is what they do when the identity fails. *)
Definition check_identity (swap : Rotator -> list RotationEvent * RotationStatus) (kyn : Z) (s : Rotator)
  : list RotationEvent * RotationStatus :=
  if needs_validation s kyn then
    if identity_valid (local_peer s) kyn
    then ([], Alive (set_verified (Some (staggered_epoch (local_peer s) kyn)) s))
    else swap s
  else ([], Alive s).

Definition host_swap (r : Round) (s : Rotator) : list RotationEvent * RotationStatus :=
  let swap_to key :=
    let '(ev, ok) := host_binds 5 (rd_binds r) 0 in
    let start := [RnMined (rd_kyn r) key; RnShared key; RnAborted] in
    if ok then (start ++ ev ++ [RnSwapped], Alive (MkRotator key None (S (backends s)) true))
    else (start ++ ev, Panicked) in
  match mine (rd_keypairs r) (rd_kyn r) with
  | MnKey key => swap_to key
  | MnPanicked => swap_to (rd_fallback r)
  | MnSearching => ([], Searching s)
  end.

(** A tick of [start_beacon_heartbeat]. *)
Definition host_round (r : Round) (s : Rotator) : list RotationEvent * RotationStatus :=
  let '(ev, st) := check_identity (host_swap r) (rd_kyn r) s in (RnKyn (rd_kyn r) :: ev, st).

Definition host_tick {E} (fetched : Result E RawKyn) (keypairs : list bytes) (fallback : bytes) (binds : nat -> bool)
    (s : Rotator) : list RotationEvent * RotationStatus :=
  match fetched with
  | Ok kyn =>
      if negb (is_unavailable kyn) && negb (is_from_cache kyn)
      then host_round (MkRound (rk_kyn kyn) keypairs fallback binds) s
      else ([], Alive s)
  | Err _ => ([], Alive s)
  end.

Definition daemon_swap (r : Round) (s : Rotator) : list RotationEvent * RotationStatus :=
  match mine (rd_keypairs r) (rd_kyn r) with
  | MnKey key =>
      let start := [RnMined (rd_kyn r) key; RnAborted] in
      match daemon_binds DAEMON_FUEL (rd_binds r) 0 100 with
      | Some (ev, true) => (start ++ ev ++ [RnSwapped], Alive (MkRotator key None (S (backends s)) true))
      | Some (ev, false) => (start ++ ev, Stopped (MkRotator key None (backends s) false))
      | None => (start, Searching s)
      end
  | MnPanicked => ([], Panicked)
  | MnSearching => ([], Searching s)
  end.

(** A change of the kyn in [start_challenge_solver_loop]. *)
Definition daemon_round (r : Round) (s : Rotator) : list RotationEvent * RotationStatus :=
  if rd_kyn r =? 0 then ([], Alive s) else check_identity (daemon_swap r) (rd_kyn r) s.

(** The rounds of a task in turn. *)
Fixpoint rotate (round : Round -> Rotator -> list RotationEvent * RotationStatus) (rounds : list Round) (s : Rotator)
  : list RotationEvent * RotationStatus :=
  match rounds with
  | [] => ([], Alive s)
  | r :: rest =>
      match round r s with
      | (ev, Alive s) => let '(ev', st) := rotate round rest s in (ev ++ ev', st)
      | res => res
      end
  end.

(** *** Start-up *)

(** The kyn a process starts with. *)
Definition boot_kyn {E} (fetched : Result E RawKyn) : Z :=
  match fetched with Ok kyn => rk_kyn kyn | Err _ => rk_kyn unavailable end.

(** The identity mined before anything else runs, under which the first loop is
    built. *)
Definition boot_rotator {E} (fetched : Result E RawKyn) (keypairs : list bytes) : RotationStatus :=
  match mine keypairs (boot_kyn fetched) with
  | MnKey peer => Alive (MkRotator peer None 1 true)
  | MnPanicked => Panicked
  | MnSearching => Searching (MkRotator [] None 0 false)
  end.

(** What the client's channel is while the loop it sends to runs or not. *)
Definition channel_of (s : Rotator) (channel : nat -> Channel) : nat -> Channel :=
  if loop_alive s then channel else fun _ => ChClosed.

End Rotation.

(** ** Facts about a round *)

Section RotationFacts.
Context {HArgon : Argon2}.
Notation identity_valid := (identity_valid false).
Notation check_identity := (check_identity false).
Notation host_round := (host_round false).
Notation daemon_round := (daemon_round false).
Notation mine := (mine false).

(** The epoch kept is one the check passes for. *)
Definition verified (s : Rotator) : Prop :=
  forall epoch, last_verified_epoch s = Some epoch ->
    pow_meets (local_peer s) epoch CHALLENGE_THRESHOLD_BITS = true \/
    0 < epoch /\ pow_meets (local_peer s) (epoch - 1) CHALLENGE_THRESHOLD_BITS = true.

(** The check itself, without the epoch kept. *)
Definition always_check (swap : Rotator -> list RotationEvent * RotationStatus) (kyn : Z) (s : Rotator)
  : list RotationEvent * RotationStatus :=
  if identity_valid (local_peer s) kyn then ([], Alive s) else swap s.
Definition host_reference (r : Round) (s : Rotator) : list RotationEvent * RotationStatus :=
  let '(ev, st) := always_check (host_swap false r) (rd_kyn r) s in (RnKyn (rd_kyn r) :: ev, st).
Definition daemon_reference (r : Round) (s : Rotator) : list RotationEvent * RotationStatus :=
  if rd_kyn r =? 0 then ([], Alive s) else always_check (daemon_swap false r) (rd_kyn r) s.

Definition forget (s : Rotator) : Rotator := set_verified None s.
Definition forget_status (st : RotationStatus) : RotationStatus :=
  match st with
  | Alive s => Alive (forget s)
  | Searching s => Searching (forget s)
  | Stopped s => Stopped (forget s)
  | Panicked => Panicked
  end.

Definition swaps (ev : list RotationEvent) : nat :=
  length (filter (fun e => e = RnSwapped) ev).

Lemma swaps_app a b : swaps (a ++ b) = (swaps a + swaps b)%nat.
Proof. unfold swaps. by rewrite filter_app, length_app. Qed.

Lemma verified_valid s kyn :
  verified s -> kyn <> 0 -> needs_validation s kyn = false -> identity_valid (local_peer s) kyn = true.
Proof.
  unfold needs_validation. intros Hv Hk. destruct (last_verified_epoch s) as [e|] eqn:He; [|done].
  intros Hn. apply negb_false_iff, Z.eqb_eq in Hn. apply verify_p2p_challenge_true. split; [done|].
  specialize (Hv e He). subst e. exact Hv.
Qed.

Lemma valid_verified s kyn :
  identity_valid (local_peer s) kyn = true -> verified (set_verified (Some (staggered_epoch (local_peer s) kyn)) s).
Proof. intros H e [= <-]. by apply verify_p2p_challenge_true in H as [_ H]. Qed.

Lemma fresh_verified peer n alive : verified (MkRotator peer None n alive).
Proof. by intros e [=]. Qed.

(** The same state but for the kept epoch. *)
Definition similar (s s' : Rotator) : Prop := forget s = forget s'.
Definition same_outcome (x y : list RotationEvent * RotationStatus) : Prop :=
  x.1 = y.1 /\ forget_status x.2 = forget_status y.2.

Lemma check_transparent swap kyn s s' :
  verified s -> kyn <> 0 -> similar s s' -> (forall t, same_outcome (swap t) (swap (forget t))) ->
  same_outcome (check_identity swap kyn s) (always_check swap kyn s').
Proof.
  intros Hv Hk Hs Hw. assert (Hp : local_peer s' = local_peer s) by (unfold similar, forget, set_verified in Hs; congruence).
  assert (Hsw : same_outcome (swap s) (swap s')).
  { destruct (Hw s) as [H1 H2], (Hw s') as [H3 H4]. unfold similar in Hs. rewrite <- Hs in H3, H4. split; congruence. }
  unfold Rotation.check_identity, always_check. rewrite Hp. destruct (needs_validation s kyn) eqn:En.
  - destruct (identity_valid (local_peer s) kyn); [|done]. split; [done|]. cbn. f_equal. exact Hs.
  - rewrite (verified_valid s kyn Hv Hk En). split; [done|]. cbn. f_equal. exact Hs.
Qed.

Lemma host_swap_forget r s : same_outcome (host_swap false r s) (host_swap false r (forget s)).
Proof.
  unfold host_swap. destruct (mine _ _); [| |done]; destruct (host_binds 5 _ 0) as [ev []]; done.
Qed.

Lemma daemon_swap_forget r s : same_outcome (daemon_swap false r s) (daemon_swap false r (forget s)).
Proof.
  unfold daemon_swap. destruct (mine _ _); [|done|done]. by destruct (daemon_binds _ _ 0 100) as [[ev []]|].
Qed.

Lemma mined_meets keys kyn peer :
  mine keys kyn = MnKey peer -> pow_meets peer (staggered_epoch peer kyn) CHALLENGE_THRESHOLD_BITS = true.
Proof.
  unfold Rotation.mine, solve_p2p_challenge. cbn [negb]. rewrite andb_true_r. destruct (kyn =? 0); [done|].
  destruct (solve_loop keys kyn _) eqn:E; [|by destruct (_ && _)]. intros [= ->]. by apply solve_loop_meets in E.
Qed.

Lemma host_binds_quiet tries binds n ev ok : host_binds tries binds n = (ev, ok) -> swaps ev = 0%nat.
Proof.
  revert n ev. induction tries as [|t IH]; intros n ev; cbn; [by intros [= <- <-]|].
  destruct (binds n); [by intros [= <- <-]|]. destruct (host_binds t binds (S n)) as [ev' ok'] eqn:E.
  intros [= <- <-]. change (swaps ev' = 0%nat). by eapply IH.
Qed.

Lemma daemon_binds_quiet fuel binds n b ev ok : daemon_binds fuel binds n b = Some (ev, ok) -> swaps ev = 0%nat.
Proof.
  revert n b ev. induction fuel as [|t IH]; intros n b ev; cbn [daemon_binds]; [done|].
  destruct (binds n); [by intros [= <- <-]|]. destruct (_ <? _)%nat; [by intros [= <- <-]|].
  destruct (daemon_binds t binds (S n) _) as [[ev' ok']|] eqn:E; [|done]. cbn. intros [= <- <-].
  change (swaps ev' = 0%nat). by eapply IH.
Qed.

(** What a round that goes on has done. *)
Definition sound_round (round : Round -> Rotator -> list RotationEvent * RotationStatus) : Prop :=
  forall r s ev s', rd_kyn r <> 0 -> verified s -> round r s = (ev, Alive s') ->
    verified s' /\ identity_valid (local_peer s) (rd_kyn r) = (swaps ev =? 0)%nat /\
    ((swaps ev = 0)%nat /\ local_peer s' = local_peer s /\ loop_alive s' = loop_alive s \/
     (swaps ev = 1)%nat /\ loop_alive s' = true /\
     pow_meets (local_peer s') (staggered_epoch (local_peer s') (rd_kyn r)) CHALLENGE_THRESHOLD_BITS = true).

Lemma check_sound swap kyn s ev s' :
  kyn <> 0 -> verified s -> check_identity swap kyn s = (ev, Alive s') ->
  (forall ev s', swap s = (ev, Alive s') -> verified s' /\ (swaps ev = 1)%nat /\ loop_alive s' = true /\
     pow_meets (local_peer s') (staggered_epoch (local_peer s') kyn) CHALLENGE_THRESHOLD_BITS = true) ->
  verified s' /\ identity_valid (local_peer s) kyn = (swaps ev =? 0)%nat /\
  ((swaps ev = 0)%nat /\ local_peer s' = local_peer s /\ loop_alive s' = loop_alive s \/
   (swaps ev = 1)%nat /\ loop_alive s' = true /\
   pow_meets (local_peer s') (staggered_epoch (local_peer s') kyn) CHALLENGE_THRESHOLD_BITS = true).
Proof.
  intros Hk Hv E Hs. unfold Rotation.check_identity in E. destruct (needs_validation s kyn) eqn:En.
  - destruct (identity_valid (local_peer s) kyn) eqn:Ei.
    + injection E as <- <-. split; [by apply valid_verified|]. split; [done|]. by left.
    + destruct (Hs _ _ E) as (H1 & H2 & H3 & H4). split; [done|]. rewrite H2. split; [done|]. by right.
  - injection E as <- <-. split; [done|]. rewrite (verified_valid s kyn Hv Hk En). split; [done|]. by left.
Qed.

Lemma daemon_sound : sound_round daemon_round.
Proof.
  intros r s ev s' Hk Hv E. unfold Rotation.daemon_round in E. rewrite (proj2 (Z.eqb_neq _ _) Hk) in E.
  apply (check_sound _ _ _ _ _ Hk Hv E). clear ev s' E. intros ev s' E. unfold daemon_swap in E.
  destruct (mine _ _) as [key| |] eqn:Em; [|done|done].
  destruct (daemon_binds _ _ 0 100) as [[ev' []]|] eqn:Eb; [|done|done]. injection E as <- <-.
  split; [apply fresh_verified|]. split; [|split; [done|by apply (mined_meets _ _ _ Em)]].
  change (swaps (ev' ++ [RnSwapped]) = 1%nat). by rewrite swaps_app, (daemon_binds_quiet _ _ _ _ _ _ Eb).
Qed.

(** Argon2 has its memory. *)
Definition argon_total : Prop := forall peer epoch, is_Some (compute_pow_hash peer epoch).

Lemma mine_no_panic keys kyn : argon_total -> kyn <> 0 -> mine keys kyn <> MnPanicked.
Proof.
  intros Ha Hk. unfold Rotation.mine. destruct (solve_p2p_challenge _ _ _ _); [done|].
  rewrite (proj2 (Z.eqb_neq _ _) Hk). cbn [negb andb orb].
  assert (Hs : solve_panics keys kyn = false); [|by rewrite Hs].
  induction keys as [|p keys IH]; [done|]. cbn [solve_panics].
  destruct (Ha p (staggered_epoch p kyn)) as [h ->]. by destruct (_ >=? _).
Qed.

Lemma host_sound : argon_total -> sound_round host_round.
Proof.
  intros Ha r s ev s' Hk Hv E. unfold Rotation.host_round in E.
  destruct (check_identity (host_swap false r) (rd_kyn r) s) as [ev' st] eqn:Ec. injection E as <- ->.
  change (swaps (RnKyn (rd_kyn r) :: ev')) with (swaps ev'). apply (check_sound _ _ _ _ _ Hk Hv Ec).
  clear ev' s' Ec. intros ev s' E. unfold host_swap in E.
  destruct (mine _ _) as [key| |] eqn:Em; [|by apply mine_no_panic in Em|done].
  destruct (host_binds 5 _ 0) as [ev' []] eqn:Eb; [|done]. injection E as <- <-.
  split; [apply fresh_verified|]. split; [|split; [done|by apply (mined_meets _ _ _ Em)]].
  change (swaps (ev' ++ [RnSwapped]) = 1%nat). by rewrite swaps_app, (host_binds_quiet _ _ _ _ _ Eb).
Qed.

(** ** The rounds together *)

Lemma rotate_similar round ref rounds s s' :
  (forall r s s', rd_kyn r <> 0 -> verified s -> similar s s' -> same_outcome (round r s) (ref r s')) ->
  sound_round round -> Forall (fun r => rd_kyn r <> 0) rounds -> verified s -> similar s s' ->
  same_outcome (rotate round rounds s) (rotate ref rounds s').
Proof.
  intros Hr Hsound Hk. revert s s'. induction Hk as [|r rounds Hk _ IH]; intros s s' Hv Hs; cbn [rotate].
  { split; [done|]. cbn. f_equal. exact Hs. }
  pose proof (Hr r s s' Hk Hv Hs) as [H1 H2]. pose proof (Hsound r s) as Hsr.
  destruct (round r s) as [ev st], (ref r s') as [ev' st']. cbn in H1. subst ev'.
  destruct st as [t|t|t|], st' as [t'|t'|t'|]; cbn in H2; try done.
  destruct (Hsr ev t Hk Hv eq_refl) as (Ht & _). specialize (IH t t' Ht ltac:(congruence)) as [H3 H4].
  destruct (rotate round rounds t) as [e1 s1], (rotate ref rounds t') as [e2 s2]. cbn in H3. subst e2. by split.
Qed.

Lemma rotate_sound round rounds s ev s' :
  sound_round round -> Forall (fun r => rd_kyn r <> 0) rounds -> verified s -> rotate round rounds s = (ev, Alive s') ->
  verified s'.
Proof.
  intros Hs Hk. revert s ev. induction Hk as [|r rounds Hk _ IH]; intros s ev Hv; cbn [rotate]; [by intros [= <- <-]|].
  destruct (round r s) as [e [t|t|t|]] eqn:E; try done. destruct (rotate round rounds t) as [e2 st] eqn:E2.
  intros [= <- ->]. destruct (Hs r s e t Hk Hv E) as (Ht & _). by apply (IH t e2 Ht).
Qed.

(** The kept epoch is only a saving.  Whatever kyns come in whatever order, a host or
    a daemon that checks its identity once per epoch mines, swaps, fails and ends
    exactly as one that checks it at every kyn. *)
Theorem epoch_cache_transparent rounds peer n alive :
  Forall (fun r => rd_kyn r <> 0) rounds ->
  let s := MkRotator peer None n alive in
  same_outcome (rotate daemon_round rounds s) (rotate daemon_reference rounds s) /\
  (argon_total -> same_outcome (rotate host_round rounds s) (rotate host_reference rounds s)).
Proof.
  intros Hk s. split; [|intros Ha].
  - apply rotate_similar; [|apply daemon_sound|done|apply fresh_verified|done].
    intros r t t' Hr Hv Ht. unfold Rotation.daemon_round, daemon_reference. rewrite (proj2 (Z.eqb_neq _ _) Hr).
    apply check_transparent; [done..|]. intros u. apply daemon_swap_forget.
  - apply rotate_similar; [|by apply host_sound|done|apply fresh_verified|done].
    intros r t t' Hr Hv Ht. unfold Rotation.host_round, host_reference.
    pose proof (check_transparent (host_swap false r) (rd_kyn r) t t' Hv Hr Ht (host_swap_forget r)) as [H1 H2].
    destruct (check_identity _ _ t), (always_check _ _ t'). cbn in *. subst. by split.
Qed.

(** The identity of a running task is good.  After every round that a host or a daemon goes on
    from, its loop runs and its identity passes the check at the kyn of that round. *)
Theorem rotation_keeps_identity round rounds r peer n ev s' :
  argon_total -> round = daemon_round \/ round = host_round ->
  Forall (fun r => rd_kyn r <> 0) (rounds ++ [r]) ->
  rotate round (rounds ++ [r]) (MkRotator peer None n true) = (ev, Alive s') ->
  loop_alive s' = true /\ identity_valid (local_peer s') (rd_kyn r) = true.
Proof.
  intros Ha Hround. assert (Hs : sound_round round)
    by (destruct Hround as [->| ->]; [apply daemon_sound|by apply host_sound]). clear Hround.
  assert (H : forall s ev, verified s -> loop_alive s = true -> Forall (fun r => rd_kyn r <> 0) (rounds ++ [r]) ->
    rotate round (rounds ++ [r]) s = (ev, Alive s') -> loop_alive s' = true /\ identity_valid (local_peer s') (rd_kyn r) = true);
    [|by apply H; [apply fresh_verified|]].
  clear ev. induction rounds as [|r0 rounds IH]; intros s ev Hv Hl Hk; cbn [rotate app] in *; apply Forall_cons in Hk as [Hk Hk'].
  - destruct (round r s) as [e [t|t|t|]] eqn:E; try done. intros [= <- <-].
    destruct (Hs r s e t Hk Hv E) as (_ & Hi & [(H0 & Hp & Ht)|(_ & Ht & Hm)]).
    + rewrite H0 in Hi. rewrite Hp, Ht. done.
    + split; [done|]. apply verify_p2p_challenge_true. split; [done|by left].
  - destruct (round r0 s) as [e [t|t|t|]] eqn:E; try done.
    destruct (rotate round (rounds ++ [r]) t) as [e2 st] eqn:E2. intros [= <- ->].
    destruct (Hs r0 s e t Hk Hv E) as (Ht & _ & Hc). apply (IH t e2 Ht); [|done|done].
    by destruct Hc as [(_ & _ & ->)|(_ & Hc & _)].
Qed.

(** Identities are changed seldom.  Over any stretch of kyns that do not run back, a task makes at most one
    swap per 1441 kyns since its first identity was mined. *)
Theorem swaps_bounded round rounds keys k0 top peer n ev s' :
  argon_total -> round = daemon_round \/ round = host_round ->
  0 < k0 -> top + EPOCH_KYNS <= 2 ^ 64 -> mine keys k0 = MnKey peer ->
  Sorted Z.le (k0 :: map rd_kyn rounds ++ [top]) ->
  rotate round rounds (MkRotator peer None n true) = (ev, Alive s') ->
  Z.of_nat (swaps ev) * (EPOCH_KYNS + 1) <= top - k0.
Proof.
  intros Ha Hround H0 Hu Hm%mined_meets. assert (Hs : sound_round round)
    by (destruct Hround as [->| ->]; [apply daemon_sound|by apply host_sound]). clear Hround.
  enough (H : forall now s ev, 0 < k0 -> k0 <= now -> verified s ->
    pow_meets (local_peer s) (staggered_epoch (local_peer s) k0) CHALLENGE_THRESHOLD_BITS = true ->
    Sorted Z.le (now :: map rd_kyn rounds ++ [top]) -> rotate round rounds s = (ev, Alive s') ->
    Z.of_nat (swaps ev) * (EPOCH_KYNS + 1) <= top - k0).
  { intros Hsort E. by apply (H k0 (MkRotator peer None n true) ev); [|lia|apply fresh_verified|..]. }
  clear ev peer Hm H0. revert k0. induction rounds as [|r rounds IH]; intros k0 now s ev H0 Hnow Hv Hm Hsort; cbn [rotate].
  - intros [= <- <-]. apply Sorted_inv in Hsort as [_ Hh%HdRel_inv]. change (swaps []) with 0%nat. lia.
  - cbn [map app] in Hsort. apply Sorted_inv in Hsort as [Hsort Hh%HdRel_inv].
    assert (Hk : rd_kyn r <> 0) by lia.
    destruct (round r s) as [e [t|t|t|]] eqn:E; try done. destruct (rotate round rounds t) as [e2 st] eqn:E2.
    intros [= <- ->]. rewrite swaps_app.
    destruct (Hs r s e t Hk Hv E) as (Ht & Hi & [(Hz & Hp & _)|(Hz & _ & Hp)]); rewrite Hz in *.
    + apply (IH k0 (rd_kyn r) t e2); try done; [lia|by rewrite Hp].
    + assert (Htop : rd_kyn r <= top).
      { clear -Hsort. revert Hsort. generalize (rd_kyn r). induction rounds as [|q l IH]; intros k Hsort; cbn in Hsort;
          apply Sorted_inv in Hsort as [Hsort Hh%HdRel_inv]; [done|]. specialize (IH _ Hsort). lia. }
      assert (Hfar : k0 + EPOCH_KYNS < rd_kyn r).
      { apply Z.nle_gt. intros Hle.
        assert (Hv' : identity_valid (local_peer s) (rd_kyn r) = true) by (apply (meets_window _ k0); [done|done|lia|lia]).
        by rewrite Hv' in Hi. }
      pose proof (IH (rd_kyn r) (rd_kyn r) t e2 ltac:(lia) ltac:(lia) Ht Hp Hsort E2). lia.
Qed.

End RotationFacts.

(** ** The attempts to build a loop *)

Fixpoint slept (ev : list RotationEvent) : Z :=
  match ev with
  | [] => 0
  | RnSlept ms :: ev => ms + slept ev
  | _ :: ev => slept ev
  end.

Lemma slept_app a b : slept (a ++ b) = slept a + slept b.
Proof. induction a as [|[] a IH]; cbn [app slept]; lia. Qed.

(** The attempts from the [n]-th on: the first that succeeds, or none. *)
Definition first_success (binds : nat -> bool) (n last : nat) (i : nat) : Prop :=
  (n <= i <= last)%nat /\ binds i = true /\ forall j, (n <= j < i)%nat -> binds j = false.

Lemma daemon_binds_S fuel binds n b :
  daemon_binds (S fuel) binds n b =
    if binds n then Some ([RnSlept b], true)
    else if (10 <? S n)%nat then Some ([RnSlept b; RnBindFailed], false)
    else '(ev, ok) ← daemon_binds fuel binds (S n) (wmul64 b 2); Some (RnSlept b :: RnBindFailed :: ev, ok).
Proof. done. Qed.

Lemma daemon_binds_spec fuel binds n :
  (n + S fuel = DAEMON_FUEL)%nat ->
  exists ev ok, daemon_binds (S fuel) binds n (100 * 2 ^ Z.of_nat n) = Some (ev, ok) /\
    ((ok = true /\ exists i, first_success binds n 10 i /\ slept ev = 100 * (2 ^ Z.of_nat (S i) - 2 ^ Z.of_nat n)) \/
     (ok = false /\ (forall j, (n <= j <= 10)%nat -> binds j = false) /\ slept ev = 100 * (2 ^ 11 - 2 ^ Z.of_nat n))).
Proof.
  unfold DAEMON_FUEL. revert n. induction fuel as [|f IH]; intros n Hn; rewrite daemon_binds_S;
    (assert (Hp : 2 ^ Z.of_nat (S n) = 2 * 2 ^ Z.of_nat n) by (rewrite Nat2Z.inj_succ, Z.pow_succ_r; lia));
    (destruct (binds n) eqn:Hb; [do 2 eexists; split; [done|]; left; split; [done|]; exists n;
      (split; [split; [lia|split; [done|intros; lia]]|]); rewrite Hp; cbn [slept]; lia|]).
  - destruct (10 <? S n)%nat eqn:Ht; [|apply Nat.ltb_ge in Ht; lia]. do 2 eexists. split; [done|]. right.
    split; [done|]. assert (n = 10%nat) as -> by lia. split; [|by vm_compute].
    intros j Hj. by assert (j = 10%nat) as -> by lia.
  - destruct (10 <? S n)%nat eqn:Ht; [apply Nat.ltb_lt in Ht; lia|].
    assert (Hbound : 0 < 2 ^ Z.of_nat n <= 2 ^ 10)
      by (split; [apply Z.pow_pos_nonneg; lia|apply Z.pow_le_mono_r; lia]).
    rewrite wmul64_small by lia. replace (100 * 2 ^ Z.of_nat n * 2) with (100 * 2 ^ Z.of_nat (S n)) by lia.
    destruct (IH (S n) ltac:(lia)) as (ev & ok & -> & H). cbn [mbind option_bind].
    do 2 eexists. split; [done|]. change (slept (RnSlept ?x :: RnBindFailed :: ev)) with (x + slept ev).
    destruct H as [(-> & i & (Hi & Hbi & Hj) & Hsl)|(-> & Hj & Hsl)]; [left|right]; (split; [done|]).
    + exists i. split; [|lia]. split; [lia|]. split; [done|]. intros j Hj'.
      destruct (Nat.eq_dec j n) as [->|]; [done|]. apply Hj. lia.
    + split; [|lia]. intros j Hj'. destruct (Nat.eq_dec j n) as [->|]; [done|]. apply Hj. lia.
Qed.

Lemma host_binds_spec tries binds n :
  exists ev ok, host_binds tries binds n = (ev, ok) /\
    ((ok = true /\ exists i, (n <= i < n + tries)%nat /\ binds i = true /\ (forall j, (n <= j < i)%nat -> binds j = false) /\
        slept ev = 2000 * Z.of_nat (i - n)) \/
     (ok = false /\ (forall j, (n <= j < n + tries)%nat -> binds j = false) /\ slept ev = 2000 * Z.of_nat tries)).
Proof.
  revert n. induction tries as [|t IH]; intros n; cbn [host_binds].
  { do 2 eexists. split; [done|]. right. split; [done|]. split; [intros; lia|done]. }
  destruct (binds n) eqn:Hb.
  { do 2 eexists. split; [done|]. left. split; [done|]. exists n. split; [lia|]. split; [done|]. split; [intros; lia|].
    by rewrite Nat.sub_diag. }
  destruct (IH (S n)) as (ev & ok & -> & H). do 2 eexists. split; [done|].
  change (slept (RnBindFailed :: RnSlept 2000 :: ev)) with (2000 + slept ev).
  destruct H as [(-> & i & Hi & Hbi & Hj & Hsl)|(-> & Hj & Hsl)]; [left|right]; (split; [done|]).
  - exists i. split; [lia|]. split; [done|]. split; [|lia]. intros j Hj'.
    destruct (Nat.eq_dec j n) as [->|]; [done|]. apply Hj. lia.
  - split; [|lia]. intros j Hj'. destruct (Nat.eq_dec j n) as [->|]; [done|]. apply Hj. lia.
Qed.

Section Swaps.
Context {HArgon : Argon2}.

(** A round with an identity that fails and a key that is found. *)
Lemma invalid_swaps swap kyn s :
  verified s -> kyn <> 0 -> identity_valid false (local_peer s) kyn = false ->
  check_identity false swap kyn s = swap s.
Proof.
  intros Hv Hk Hi. unfold check_identity. destruct (needs_validation s kyn) eqn:En; [by rewrite Hi|].
  by rewrite (verified_valid s kyn Hv Hk En) in Hi.
Qed.

(** Every swap ends.  Once a key is found the daemon makes at most eleven attempts to build a loop, sleeping
    100 ms before the first and twice as long before each next, the host five, two seconds
    apart: with the first attempt that succeeds both go on under the new identity.  When none
    does, after 204.7 seconds, the daemon's task is over for good with the old loop aborted, and every resolution
    and publication of the process fails at once; after ten seconds the host panics. *)
Theorem swap_ends r s key :
  verified s -> rd_kyn r <> 0 -> identity_valid false (local_peer s) (rd_kyn r) = false ->
  mine false (rd_keypairs r) (rd_kyn r) = MnKey key ->
  (exists ev, ((exists i, first_success (rd_binds r) 0 10 i /\ slept ev = 100 * (2 ^ Z.of_nat (S i) - 1) /\
        daemon_round false r s = (ev, Alive (MkRotator key None (S (backends s)) true))) \/
     (forall j, (j <= 10)%nat -> rd_binds r j = false) /\ slept ev = 204700 /\
     exists s', daemon_round false r s = (ev, Stopped s') /\
       forall channel n clock name payload, len payload <= CLIENT_PAYLOAD_LIMIT ->
         run_client (channel_of s' channel) n clock (resolve_redundant_payload name) = MkOutcome [] (Some (Err RfClosed, clock)) /\
         run_client (channel_of s' channel) n clock (publish_redundant_payload name payload) = MkOutcome [] (Some (Err PfClosed, clock)))) /\
  (exists ev, ((exists i, first_success (rd_binds r) 0 4 i /\ slept ev = 2000 * Z.of_nat i /\
        host_round false r s = (ev, Alive (MkRotator key None (S (backends s)) true))) \/
     (forall j, (j <= 4)%nat -> rd_binds r j = false) /\ slept ev = 10000 /\ host_round false r s = (ev, Panicked))).
Proof.
  intros Hv Hk Hi Hm. split.
  - unfold daemon_round. rewrite (proj2 (Z.eqb_neq _ _) Hk), (invalid_swaps _ _ _ Hv Hk Hi). unfold daemon_swap. rewrite Hm.
    destruct (daemon_binds_spec 10 (rd_binds r) 0 eq_refl) as (ev & ok & E & H).
    change (100 * 2 ^ Z.of_nat 0) with 100 in E. unfold DAEMON_FUEL. rewrite E.
    destruct H as [(-> & i & Hf & Hs)|(-> & Hj & Hs)].
    + exists ([RnMined (rd_kyn r) key; RnAborted] ++ ev ++ [RnSwapped]). left. exists i. split; [done|]. split; [|done].
      rewrite !slept_app, Hs. change (slept [_; _]) with 0. change (slept [RnSwapped]) with 0. lia.
    + exists ([RnMined (rd_kyn r) key; RnAborted] ++ ev). right. split; [intros j Hj'; apply Hj; lia|].
      split; [by rewrite slept_app, Hs|]. eexists. split; [done|]. intros channel n clock name payload Hp. split; [done|].
      unfold publish_redundant_payload. rewrite Z.gtb_ltb. by rewrite (proj2 (Z.ltb_ge _ _) Hp).
  - unfold host_round. rewrite (invalid_swaps _ _ _ Hv Hk Hi). unfold host_swap. rewrite Hm.
    destruct (host_binds_spec 5 (rd_binds r) 0) as (ev & ok & -> & [(-> & i & Hb & Hbi & Hj & Hs)|(-> & Hj & Hs)]).
    + exists (RnKyn (rd_kyn r) :: [RnMined (rd_kyn r) key; RnShared key; RnAborted] ++ ev ++ [RnSwapped]). left. exists i.
      split; [split; [lia|done]|]. split; [|done]. cbn [slept app]. rewrite slept_app, Hs.
      change (slept [RnSwapped]) with 0. rewrite Nat.sub_0_r. lia.
    + exists (RnKyn (rd_kyn r) :: [RnMined (rd_kyn r) key; RnShared key; RnAborted] ++ ev). right.
      split; [intros j Hj'; apply Hj; lia|]. split; [|done]. cbn [slept app]. by rewrite Hs.
Qed.

End Swaps.
