(* ===== verification/Publishers.v ===== *)
(** * The periodic publishers ([kinetic-daemon/src/services/network.rs],
    [kinetic-host/src/hot_swap.rs])

    The republisher of the daemon goes through the owned names twice a day and sends the
    commitment and then the stored registration of each again; the routing publisher of the host signs
    and sends its route every thirty seconds. *)
From Stdlib Require Import String.
From S2P Require Import Prelude Sorting Bytes Config Crypto Kyn Names Physics Net Kid Records Action Verify Nrs Lru Peers DnsTree Storage StoreVerify TieBreaker Store EventLoop Oracle ActionNode ApiAuth KidManager RegistrationApi MacroApi Waiting Client.
#[local] Open Scope Z_scope.

(** ** Republication *)

(** The steps of one spawned task; what the network answers is ignored. *)
Inductive RepublishStep :=
  | RpSleep (ms : Z)
  | RpPublish (name payload : bytes).

Section Republisher.
Context {HUni : UnicodeCase} {HSha : Sha2} {HSig : MlDsa} {HCod : Codecs} {HJcs : Jcs}
  {HBv : BeaconVerify} {HVdf : VdfEngine} {HSto : StorageEngine} {HSerde : Serde} {HRes : ResolverJson}
  {HDj : DaemonJson} {HDb : DbKeys}.
Variable network_salt : bytes.

(** The task of the [i]-th name. *)
Definition republish_task (i : nat) (name reveal_bytes : bytes) (reveal : Reveal) : list RepublishStep :=
  RpSleep (Z.of_nat i * 100) ::
  match hex_decode (rv_beacon_signature reveal) with
  | None => []
  | Some beacon_sig_bytes =>
      match commitment_to_vec (reveal_challenge network_salt reveal beacon_sig_bytes) with
      | None => []
      | Some commit_bytes => [RpPublish name commit_bytes; RpSleep 36000; RpPublish name reveal_bytes]
      end
  end.

(** The tasks spawned by one tick: a name without a readable registration is
    passed over. *)
Definition republish_round (d : Sto) : list (list RepublishStep) :=
  match sto_get d DB_PREFIX_OWNED_NAMES with
  | Ok (Some b) =>
      match names_from_slice b with
      | Some names =>
          omap (fun p =>
            match sto_get d (reveal_key p.2) with
            | Ok (Some reveal_bytes) => republish_task p.1 p.2 reveal_bytes <$> reveal_from_slice reveal_bytes
            | _ => None
            end) (imap pair names)
      | None => []
      end
  | _ => []
  end.

End Republisher.

(** ** The route of a host *)

Section Routes.
Context {HPeer : PeerIds}.
Variable network_salt : bytes.

(** [dalek_sign] signs with the static key of the host, whose public key is [host_key]. *)
Definition published_route (dalek_sign : bytes -> bytes) (host_key current_peer : bytes) (kyn : Z) : HostRoute :=
  let record := MkHostRoute (ed25519_peer_id host_key) current_peer kyn [] in
  MkHostRoute (host_id record) (current_peer_id record) (hr_kyn record)
    (dalek_sign (host_route_signable_bytes record network_salt)).

(** A tick of [start_routing_publisher]. *)
Definition route_tick (host_route_text : HostRoute -> option bytes) (dalek_sign : bytes -> bytes)
    (host_key current_peer : bytes) (kyn : Z) : Client (Result ClientFailure unit) :=
  publish_host_routing_record host_route_text (published_route dalek_sign host_key current_peer kyn).

End Routes.

(** ** Facts *)

Section RepublishFacts.
Context {HUni : UnicodeCase} {HSha : Sha2} {HSig : MlDsa} {HSign : MlDsaSign} {HCod : Codecs} {HJcs : Jcs}
  {HBv : BeaconVerify} {HVdf : VdfEngine} {HSto : StorageEngine} {HSerde : Serde} {HRes : ResolverJson}
  {HRea : ReactorJson} {HDj : DaemonJson} {HDb : DbKeys}
  {HPeer : PeerIds} {HEd : Ed25519} {HJson : StoredJson} {HLru : LruCache} {HMem : KadMemory}
  {HText : RevealText} {HRevealLaws : RevealTextLaws}.
Variable network_salt : bytes.

(** Documented behaviour of the derived codecs: fields a structure does not have are ignored,
    so a reveal is read back from its own text and from the tagged one; and a value
    that was written is read back. *)
Class RevealSliceLaws := {
  slice_bare r b : reveal_to_vec r = Some b -> reveal_from_slice b = Some r;
  slice_tagged r b : envelope_to_vec (Standard r) = Some b -> reveal_from_slice b = Some r;
  envelope_slice_round e b : envelope_to_vec e = Some b -> envelope_from_slice b = Some e }.

Context {HSlice : RevealSliceLaws}.

Lemma republished d b names i name rb r :
  sto_get d DB_PREFIX_OWNED_NAMES = Ok (Some b) -> names_from_slice b = Some names -> names !! i = Some name ->
  sto_get d (reveal_key name) = Ok (Some rb) -> reveal_from_slice rb = Some r ->
  republish_task network_salt i name rb r ∈ republish_round network_salt d.
Proof.
  intros Hb Hn Hi Hr Hs. unfold republish_round. rewrite Hb, Hn. apply list_elem_of_omap.
  exists (i, name). split; [|by cbn [fst snd]; rewrite Hr, Hs].
  apply list_elem_of_lookup. exists i. by rewrite list_lookup_imap, Hi.
Qed.

(** What is republished.  For each owned name with a registration that can be read the daemon sends the
    commitment that admission looks for, after a delay of a tenth of a second per name before it, and 36 seconds later exactly the stored
    bytes.  When these were stored by a publication they are the registration itself; when they
    were stored by a renewal job they are refused by every store under every key. *)
Theorem republish_spec d b names i name rb r sig commit :
  sto_get d DB_PREFIX_OWNED_NAMES = Ok (Some b) -> names_from_slice b = Some names -> names !! i = Some name ->
  sto_get d (reveal_key name) = Ok (Some rb) ->
  hex_decode (rv_beacon_signature r) = Some sig -> commitment_to_vec (reveal_challenge network_salt r sig) = Some commit ->
  let steps := [RpSleep (Z.of_nat i * 100); RpPublish name commit; RpSleep 36000; RpPublish name rb] in
  (envelope_to_vec (Standard r) = Some rb ->
     steps ∈ republish_round network_salt d /\ envelope_from_slice rb = Some (Standard r)) /\
  (reveal_to_vec r = Some rb ->
     steps ∈ republish_round network_salt d /\
     forall ns action now (store : KineticRecordStore) key skip,
       put_record_internal false ns action now store (MkKadRecord key rb) skip
       = (store, Err (if len rb >? LIMITS_STORAGE_MAX_VALUE_BYTES then PayloadTooLarge else SchemaValidationError))).
Proof.
  intros Hb Hn Hi Hr Hh Hc steps.
  assert (Hs : reveal_from_slice rb = Some r -> steps ∈ republish_round network_salt d).
  { intros Hs. pose proof (republished _ _ _ _ _ _ _ Hb Hn Hi Hr Hs) as H. unfold republish_task in H. by rewrite Hh, Hc in H. }
  split; intros Hv; (split; [apply Hs; (by apply slice_tagged) || (by apply slice_bare)|]).
  - by apply envelope_slice_round.
  - intros. by eapply bare_reveal_refused.
Qed.

(** The reveal arrives early where kyns are rounds of three seconds: a node that stored the
    commitment less than thirty kyns before refuses the reveal. *)
Lemma early_reveal_refused action r d now sig committed :
  hex_decode (rv_beacon_signature r) = Some sig ->
  get_u64_from_db d (commit_key_of (reveal_challenge network_salt r sig)) = Some committed ->
  now - committed < 30 -> verify_reveal false network_salt action r d now <> Ok tt.
Proof.
  intros Hh Hg Hlt [_ _ _ _ (sb & k & Hx & Hk & Hage & _) _]%verify_reveal_spec.
  rewrite Hh in Hx. injection Hx as <-. rewrite Hg in Hk. injection Hk as <-.
  change PHYSICS_MINIMUM_COMMIT_AGE_KYNS with 30 in Hage. unfold sat_sub in Hage. lia.
Qed.

End RepublishFacts.

(** A published route is refused by every node at every kyn, whatever the signature. *)
Lemma published_route_refused `{PeerIdsLaws, Ed25519} network_salt sign host_key peer kyn now :
  length host_key = 32%nat ->
  exists e, verify_host_routing_record network_salt (published_route network_salt sign host_key peer kyn) now = Err e.
Proof.
  intros Hl. eexists. by apply (host_route_of_ed25519_peer_rejected network_salt _ host_key now Hl).
Qed.

(** ** The kyn that is broadcast *)

Section Broadcast.
Context {HSha : Sha2} {HSig : MlDsa} {HCod : Codecs} {HBv : BeaconVerify} {HSto : StorageEngine}
  {HSerde : Serde} {HRea : ReactorJson} {HVec : RawKynVec} {HNet : OracleNet}.
Variables (provider : BeaconProvider) (DB_PREFIX_LAST_KYN : bytes).

(** The derived codec reads back what it wrote. *)
Class RawKynRound := raw_kyn_round k b : raw_kyn_to_vec k = Some b -> raw_kyn_from_slice b = Some k.
Context {HRound : RawKynRound}.

Lemma kyn_gossip_verdict action config topic k payload :
  (b ← raw_kyn_to_vec k; Some (opcode_byte OpKyn :: b)) = Some payload ->
  gossip_valid false action config topic topic payload = Some (verify_beacon k false).
Proof.
  destruct (raw_kyn_to_vec k) as [b|] eqn:Eb; [|done]. intros [= <-]. apply raw_kyn_round in Eb.
  unfold gossip_valid. rewrite bool_decide_eq_true_2 by done. by rewrite Z.eqb_refl, Eb.
Qed.

Lemma fetched_live now d d' k :
  fetch_latest false provider DB_PREFIX_LAST_KYN now d = (d', Ok k) -> is_from_cache k = false ->
  exists url k0, url ∈ all_endpoints provider /\ fetch_with_backoff url = Ok k0 /\ verify_beacon k0 false = true /\ k = as_live k0.
Proof.
  intros H Hc. unfold fetch_latest in H.
  destruct (try_endpoints false provider DB_PREFIX_LAST_KYN now (all_endpoints provider) d) as [d1 [k1|]] eqn:Ht.
  - injection H as <- <-. apply try_endpoints_some in Ht as (url & k0 & Hu & Hf & Ha & -> & _).
    exists url, k0. unfold kyn_acceptable in Ha. zbool. by split_and!.
  - injection H as _ H. unfold load_cached in H. destruct (cached provider DB_PREFIX_LAST_KYN d1) as [[k0|]|]; [|done|done].
    cbn in H. apply Ok_inj in H as <-. done.
Qed.

(** What a process broadcasts as the kyn.  Each kyn that a node's clock or a daemon's heartbeat task broadcasts came
    from an endpoint; every node that receives it relays it when its pulse is authentic, which it is unless
    the endpoint had marked it unavailable: then the mark is gone, and the
    receivers refuse it and count a strike against the sender. *)
Theorem broadcast_kyn_verdict now d d' kyn payload :
  oracle_tick false provider DB_PREFIX_LAST_KYN false now d = (d', Some (kyn, Some payload)) \/
  (exists p, heartbeat_kyn false provider DB_PREFIX_LAST_KYN false now d = (d', p, Some (kyn, Some payload))) ->
  exists url k, url ∈ all_endpoints provider /\ fetch_with_backoff url = Ok k /\ kyn = rk_kyn k /\
    (forall action config topic,
       gossip_valid false action config topic topic payload = Some (verify_beacon (as_live k) false)) /\
    (is_unavailable k = false -> verify_beacon (as_live k) false = true).
Proof.
  intros H.
  assert (Hk : exists k, fetch_latest false provider DB_PREFIX_LAST_KYN now d = (d', Ok k) /\ is_from_cache k = false /\
    kyn = rk_kyn k /\ (b ← raw_kyn_to_vec k; Some (opcode_byte OpKyn :: b)) = Some payload).
  { unfold oracle_tick, heartbeat_kyn, daemon_should_fetch in H.
    destruct (fetch_latest false provider DB_PREFIX_LAST_KYN now d) as [d1 [k|e]];
      [|by destruct H as [H|[p H]]]. exists k.
    destruct (is_unavailable k), (is_from_cache k) eqn:Ec; cbn [negb andb] in H; try (by destruct H as [H|[p H]]).
    by destruct H as [[= <- <- H]|[p [= <- _ <- H]]]. }
  destruct Hk as (k & Hf & Hc & -> & Hp). destruct (fetched_live _ _ _ _ Hf Hc) as (url & k0 & Hu & Hk0 & Hv & ->).
  exists url, k0. do 3 (split; [done|]). split; [intros; by apply kyn_gossip_verdict|].
  intros Hn. unfold verify_beacon in *. cbn [as_live is_unavailable rk_signature randomness beacon_idx]. by rewrite Hn in Hv.
Qed.

End Broadcast.
