(* ===== verification/LocalState.v ===== *)
(** * Local files and settings ([kinetic-local/src/config.rs], [kinetic-core/src/config.rs],
    [kinetic-node/src/node_key.rs], [kinetic-host/src/host_key.rs])

    The static identities of nodes and hosts, the configuration with its checks at load, at the API and
    at the start of the daemon, and the kyn that nodes fetch and broadcast.  Codecs are interfaces; the
    outcome of each operation of the file system is an argument. *)
From Stdlib Require Import String.
From S2P Require Import Prelude Sorting Bytes SecureFs Config Crypto Kyn Names Physics Net Kid Records Action Verify Nrs Lru Peers DnsTree Storage StoreVerify TieBreaker Store EventLoop Oracle ActionNode ApiAuth KidManager RegistrationApi.
#[local] Open Scope Z_scope.

(** ** The static identities *)

(** [libp2p::identity::Keypair] and its protobuf encoding. *)
Class KeyCodec := {
  StaticKey : Type;
  from_protobuf_encoding : bytes -> option StaticKey;
  to_protobuf_encoding : StaticKey -> option bytes }.
Class KeyCodecLaws `{KeyCodec} := {
  protobuf_total k : is_Some (to_protobuf_encoding k);
  protobuf_round k b : to_protobuf_encoding k = Some b -> from_protobuf_encoding b = Some k }.

Section StaticKeys.
Context {HKey : KeyCodec}.

(** Whether the file can be read, a file can be renamed and the secret written;
    the key that is generated if one is, and the time. *)
Record KeyIo := MkKeyIo { ki_read : bool; ki_rename : bool; ki_write : bool; ki_key : StaticKey; ki_now : bytes }.

Definition read_key (path : bytes) (io : KeyIo) (d : Disk) : option bytes :=
  if ki_read io then d !! path else None.

(** The new key, encoded and written if possible; the flag is whether writing failed. *)
Definition generate_key (path : bytes) (io : KeyIo) (d : Disk) : Disk * bool :=
  match to_protobuf_encoding (ki_key io) with
  | Some encoded => if ki_write io then (<[path := encoded]> d, false) else (d, true)
  | None => (d, false)
  end.

Definition corrupt_path (path now : bytes) : bytes :=
  with_file_name path ((split_path path).2 ++ bs "." ++ now ++ bs ".corrupt").

(** The files afterwards and the key, none when the process panics. *)
Definition load_or_generate_key (path : bytes) (io : KeyIo) (d : Disk) : Disk * option StaticKey :=
  match read_key path io d with
  | Some bytes =>
      match from_protobuf_encoding bytes with
      | Some key => (d, Some key)
      | None =>
          let d := if ki_rename io then <[corrupt_path path (ki_now io) := bytes]> (delete path d) else d in
          let '(d, failed) := generate_key path io d in
          (d, if failed then None else Some (ki_key io))
      end
  | None => let '(d, _) := generate_key path io d in (d, Some (ki_key io))
  end.

Definition load_or_generate_host_key (path : bytes) (io : KeyIo) (d : Disk) : Disk * option StaticKey :=
  match read_key path io d with
  | Some bytes =>
      match from_protobuf_encoding bytes with
      | Some key => (d, Some key)
      | None =>
          let '(d, failed) := generate_key path io d in
          (d, if failed then None else Some (ki_key io))
      end
  | None => let '(d, _) := generate_key path io d in (d, Some (ki_key io))
  end.

End StaticKeys.

(** ** The configuration *)

Record BeaconSettings := MkBeaconSettings { bc_endpoints : list bytes; bc_seed_domain : list bytes }.
Record PeerSettings := MkPeerSettings { bind_ip : bytes; storage_dir : bytes; network_mode : bytes }.
Record DaemonSettings := MkDaemonSettings {
  pac_bind_ip : bytes; dc_api_port : Z; dc_nrs_port : Z; dc_proxy_port : Z; dc_backend_port : Z; enable_nrs : bool;
  dc_pac_port : Z; dc_ipfs_gateway : bytes; atlas_port : Z; daemon_p2p_only : bool }.
Record NodeSettings := MkNodeSettings { node_p2p_only : bool }.
Record HostSettings := MkHostSettings { host_backend_port : Z; host_backend_host : bytes; host_p2p_only : bool }.
Record P2pSettings := MkP2pSettings {
  p2p_daemon_port : Z; daemon_quic_port : Z; node_port : Z; node_quic_port : Z; host_port : Z; host_quic_port : Z;
  cfg_bootstrap_nodes : list bytes; cfg_seed_domain : list bytes; enable_mdns : bool; enable_upnp : bool;
  enable_relay_server : bool; external_address : option bytes; cfg_telemetry : bool }.
Record KineticConfig := MkKineticConfig {
  peer_settings : PeerSettings; daemon_settings : DaemonSettings; node_settings : NodeSettings;
  host_settings : HostSettings; network_settings : P2pSettings; beacon_settings : BeaconSettings }.

Definition P2P_DAEMON : Z := 6070.
Definition P2P_NODE : Z := 6071.
Definition P2P_HOST : Z := 6072.
Definition API_DAEMON : Z := 16002.
Definition PROXY_PORT : Z := 17001.
Definition NRS_PORT : Z := 53.
Definition BACKEND_PORT : Z := 80.
Definition PAC_PORT : Z := 16001.

(** The constants of the build that the defaults use. *)
Class BuildTexts := {
  LOCAL_BIND_IP : bytes; IPFS_GATEWAY : bytes; BASE_DOMAIN : bytes;
  BEACON_ENDPOINTS : list bytes; BOOTSTRAP_NODES : list bytes }.

Section Settings.
Context {HTexts : BuildTexts}.

Definition default_beacon : BeaconSettings := MkBeaconSettings BEACON_ENDPOINTS [bs "beacon." ++ BASE_DOMAIN].
Definition default_host : HostSettings := MkHostSettings 80 (bs "127.0.0.1") true.

Definition default_config : KineticConfig :=
  MkKineticConfig
    (MkPeerSettings LOCAL_BIND_IP (bs "db") (bs "Router"))
    (MkDaemonSettings LOCAL_BIND_IP API_DAEMON NRS_PORT PROXY_PORT BACKEND_PORT true PAC_PORT IPFS_GATEWAY 34291 true)
    (MkNodeSettings false) default_host
    (MkP2pSettings P2P_DAEMON P2P_DAEMON P2P_NODE P2P_NODE P2P_HOST P2P_HOST BOOTSTRAP_NODES
      [bs "seed." ++ BASE_DOMAIN] true true true None true)
    default_beacon.

End Settings.

Inductive ConfigError := CeTcpPortCollision | CeUdpPortCollision | CeInvalidApiUpdate | CeSerializationFailed
  | CeWriteFailed | CeDirectoryCreationFailed.

Definition tcp_ports (c : KineticConfig) : list Z :=
  let d := daemon_settings c in let n := network_settings c in
  [dc_api_port d; dc_proxy_port d; dc_backend_port d; dc_pac_port d; p2p_daemon_port n; node_port n; host_port n].
Definition udp_ports (c : KineticConfig) : list Z :=
  let d := daemon_settings c in let n := network_settings c in
  [dc_nrs_port d; atlas_port d; daemon_quic_port n; node_quic_port n; host_quic_port n].

(** [sort_unstable], [dedup] and the comparison of the lengths. *)
Definition collides (ports : list Z) : bool :=
  negb (length (dedup (sort_stable Z.leb ports)) =? length ports)%nat.

Definition config_validate (c : KineticConfig) : Result ConfigError unit :=
  bail_if (collides (tcp_ports c)) CeTcpPortCollision;;
  bail_if (collides (udp_ports c)) CeUdpPortCollision;;
  Ok tt.

Class Toml := {
  toml_from_str : bytes -> option KineticConfig;
  toml_to_string_pretty : KineticConfig -> option bytes }.

Section Loading.
Context {HTexts : BuildTexts} {HToml : Toml}.

(** What opening the new file for the defaults gives. *)
Inductive CreateNew := CnCreated (written : bool) | CnExists | CnFailed.

(** The file afterwards and the configuration, none when the process exits.  A
    file that was created and not written is left with a part of the text. *)
Definition load_config (read : ReadOutcome) (create : CreateNew) (torn : bytes) (file : option bytes)
  : option bytes * option KineticConfig :=
  let checked c := match config_validate c with Ok _ => Some c | Err _ => None end in
  match read with
  | RdContent config_str =>
      (file, match toml_from_str config_str with Some c => checked c | None => None end)
  | RdNotFound =>
      match toml_to_string_pretty default_config with
      | None => (file, checked default_config)
      | Some toml_str =>
          match create with
          | CnCreated true => (Some toml_str, checked default_config)
          | CnCreated false => (Some torn, None)
          | CnExists => (file, checked default_config)
          | CnFailed => (file, None)
          end
      end
  | RdFailed => (file, None)
  end.

(** What [std::fs::write] does: a write that fails may leave the file with
    something else. *)
Inductive ConfigWrite := CwWritten | CwFailed (rest : option bytes).

(** The directory may or may not be made. *)
Definition save_config (c : KineticConfig) (dir_ok : bool) (wr : ConfigWrite) (file : option bytes)
  : option bytes * Result ConfigError unit :=
  if negb dir_ok then (file, Err CeDirectoryCreationFailed)
  else match toml_to_string_pretty c with
       | None => (file, Err CeSerializationFailed)
       | Some toml_str =>
           match wr with
           | CwWritten => (Some toml_str, Ok tt)
           | CwFailed rest => (from_option Some file rest, Err CeWriteFailed)
           end
       end.

Inductive ConfigAnswer := CaInsufficientPrivileges | CaError (e : ConfigError) | CaSaved | CaConfig (c : KineticConfig) | CaProcessExit.

(** [payload] is the parsed object under [config], if there is one that parses. *)
Definition handle_set_config (role : Role) (payload : option KineticConfig) (dir_ok : bool) (wr : ConfigWrite) (file : option bytes)
  : option bytes * ConfigAnswer :=
  if negb (can_system role) then (file, CaInsufficientPrivileges)
  else match payload with
       | None => (file, CaError CeInvalidApiUpdate)
       | Some new_config =>
           match config_validate new_config with
           | Err e => (file, CaError e)
           | Ok _ =>
               match save_config new_config dir_ok wr file with
               | (file, Ok _) => (file, CaSaved)
               | (file, Err e) => (file, CaError e)
               end
           end
       end.

Definition handle_get_config (role : Role) (read : ReadOutcome) (create : CreateNew) (torn : bytes) (file : option bytes)
  : option bytes * ConfigAnswer :=
  if negb (can_system role) then (file, CaInsufficientPrivileges)
  else match load_config read create torn file with
       | (file, Some c) => (file, CaConfig c)
       | (file, None) => (file, CaProcessExit)
       end.

End Loading.

(** The check of [run_daemon] before anything is opened. *)
Definition backend_port_conflicts (c : KineticConfig) : bool :=
  let d := daemon_settings c in
  (dc_backend_port d =? dc_api_port d) || (dc_backend_port d =? dc_proxy_port d)
  || (dc_backend_port d =? dc_nrs_port d) || (dc_backend_port d =? p2p_daemon_port (network_settings c)).

(** Whether the daemon gets past the two. *)
Definition daemon_starts `{BuildTexts, Toml} (read : ReadOutcome) (create : CreateNew) (torn : bytes) (file : option bytes) : bool :=
  match (load_config read create torn file).2 with
  | Some c => negb (backend_port_conflicts c)
  | None => false
  end.

(** ** Facts about the static identities *)

Section KeyFacts.
Context {HKey : KeyCodec} {HLaws : KeyCodecLaws}.

Lemma generate_key_spec path io d :
  exists b, to_protobuf_encoding (ki_key io) = Some b /\ from_protobuf_encoding b = Some (ki_key io) /\
    generate_key path io d = if ki_write io then (<[path := b]> d, false) else (d, true).
Proof.
  destruct (protobuf_total (ki_key io)) as [b Hb]. exists b. split; [done|]. split; [by apply protobuf_round|].
  unfold generate_key. by rewrite Hb.
Qed.

(** Static identities are kept as long as their file can be read.  Whatever the file held, a key that was
    loaded, or generated and written, is the key of every later start that can read the
    file.  But a start that cannot read the file, for whatever reason, replaces the identity in it for
    good; and of a file that does not decode a node keeps a copy beside it, a host none. *)
Theorem static_key_stable path io d :
  (forall d' k load, load = load_or_generate_key \/ load = load_or_generate_host_key ->
     load path io d = (d', Some k) -> ki_read io = true -> ki_write io = true ->
     forall io', ki_read io' = true -> load path io' d' = (d', Some k)) /\
  (ki_read io = false -> ki_write io = true ->
     exists b, from_protobuf_encoding b = Some (ki_key io) /\
       load_or_generate_key path io d = (<[path := b]> d, Some (ki_key io)) /\
       load_or_generate_host_key path io d = (<[path := b]> d, Some (ki_key io))) /\
  (forall old, ki_read io = true -> ki_rename io = true -> ki_write io = true -> d !! path = Some old ->
     from_protobuf_encoding old = None ->
     exists b, from_protobuf_encoding b = Some (ki_key io) /\
       load_or_generate_key path io d =
         (<[path := b]> (<[corrupt_path path (ki_now io) := old]> (delete path d)), Some (ki_key io)) /\
       load_or_generate_host_key path io d = (<[path := b]> d, Some (ki_key io))).
Proof.
  destruct (generate_key_spec path io d) as (b & Hb & Hd & Hg). split; [|split].
  - intros d' k load Hload E Hr Hw io' Hr'. rewrite Hw in Hg.
    assert (Hk : exists c, d' !! path = Some c /\ from_protobuf_encoding c = Some k).
    { destruct Hload as [->| ->]; unfold load_or_generate_key, load_or_generate_host_key, read_key in E; rewrite Hr in E;
        (destruct (d !! path) as [c|] eqn:Ec; [destruct (from_protobuf_encoding c) as [k0|] eqn:Ek|]).
      - injection E as <- <-. by exists c.
      - destruct (generate_key_spec path io (if ki_rename io then <[corrupt_path path (ki_now io):=c]> (delete path d) else d))
          as (b' & _ & Hd' & Hg'). rewrite Hw in Hg'. rewrite Hg' in E. injection E as <- <-. exists b'.
        by rewrite lookup_insert, decide_True.
      - rewrite Hg in E. injection E as <- <-. exists b. by rewrite lookup_insert, decide_True.
      - injection E as <- <-. by exists c.
      - rewrite Hg in E. injection E as <- <-. exists b. by rewrite lookup_insert, decide_True.
      - rewrite Hg in E. injection E as <- <-. exists b. by rewrite lookup_insert, decide_True. }
    destruct Hk as (c & Hc & Hk). destruct Hload as [->| ->]; unfold load_or_generate_key, load_or_generate_host_key, read_key;
      by rewrite Hr', Hc, Hk.
  - intros Hr Hw. exists b. split; [done|]. rewrite Hw in Hg.
    unfold load_or_generate_key, load_or_generate_host_key, read_key. by rewrite Hr, Hg.
  - intros old Hr Hn Hw Ho Hdec. rewrite Hw in Hg. exists b. split; [done|].
    unfold load_or_generate_key, load_or_generate_host_key, read_key. rewrite Hr, Ho, Hdec, Hn, Hg. split; [|done].
    unfold generate_key. by rewrite Hb, Hw.
Qed.

End KeyFacts.

(** ** Facts about the configuration *)

Lemma dedup_length {A} `{EqDecision A} (l : list A) : (length (dedup l) <= length l)%nat.
Proof.
  induction l as [|x l IH]; [done|]. cbn [dedup]. destruct l as [|y l]; [done|].
  case_decide; cbn [length] in *; lia.
Qed.

Lemma dedup_full {A} `{EqDecision A} (l : list A) : length (dedup l) = length l -> dedup l = l.
Proof.
  induction l as [|x l IH]; [done|]. cbn [dedup]. destruct l as [|y l]; [done|].
  case_decide; intros E.
  - pose proof (dedup_length (y :: l)). cbn [length] in *. lia.
  - f_equal. apply IH. cbn [length] in *. lia.
Qed.

Lemma dedup_nodup {A} `{EqDecision A} (l : list A) : NoDup l -> dedup l = l.
Proof.
  induction 1 as [|x l Hx Hl IH]; [done|]. cbn [dedup]. destruct l as [|y l]; [done|].
  rewrite decide_False; [by rewrite IH|]. intros ->. apply Hx. left.
Qed.

Lemma collides_spec l : collides l = false <-> NoDup l.
Proof.
  unfold collides. rewrite negb_false_iff, Nat.eqb_eq.
  assert (Hp : sort_stable Z.leb l ≡ₚ l) by apply sort_stable_perm.
  rewrite <- (Permutation_length Hp). split.
  - intros E%dedup_full. rewrite <- Hp, <- E.
    apply (dedup_sorted Z.leb ltac:(intros; lia)), sort_stable_sorted; intros; lia.
  - intros Hn. rewrite <- Hp in Hn. by rewrite dedup_nodup.
Qed.

Lemma config_validate_iff c : config_validate c = Ok tt <-> NoDup (tcp_ports c) /\ NoDup (udp_ports c).
Proof.
  unfold config_validate. rewrite <- !collides_spec.
  destruct (collides (tcp_ports c)), (collides (udp_ports c)); cbn; naive_solver.
Qed.

(** Of the clashes the daemon looks for, a valid configuration can only have the one across protocols. *)
Lemma validated_backend c :
  config_validate c = Ok tt ->
  backend_port_conflicts c = (dc_backend_port (daemon_settings c) =? dc_nrs_port (daemon_settings c)).
Proof.
  intros [H _]%config_validate_iff. unfold tcp_ports in H. cbv zeta in H.
  apply NoDup_cons in H as [H1 H]. apply NoDup_cons in H as [H2 H]. apply NoDup_cons in H as [H3 _].
  rewrite !elem_of_cons in H1, H2, H3. unfold backend_port_conflicts. cbv zeta.
  rewrite (proj2 (Z.eqb_neq (dc_backend_port _) (dc_api_port _))) by naive_solver.
  rewrite (proj2 (Z.eqb_neq (dc_backend_port _) (dc_proxy_port _))) by naive_solver.
  rewrite (proj2 (Z.eqb_neq (dc_backend_port _) (p2p_daemon_port _))) by naive_solver. apply orb_false_r.
Qed.

Section ConfigFacts.
Context {HTexts : BuildTexts} {HToml : Toml}.

Lemma default_config_valid : config_validate default_config = Ok tt /\ backend_port_conflicts default_config = false.
Proof. done. Qed.

(** A saved configuration is read back, but need not start the daemon.  What the API saves is the configuration
    the next reading returns, if the text can be parsed again; the daemon then starts exactly when the
    backend port, a TCP port, differs from the port of the resolver, a UDP port, which the API does not compare.  When the
    text does not parse the process that reads it exits, the one that answers a
    request included. *)
Theorem saved_config_starts_iff role c dir_ok wr file f :
  handle_set_config role (Some c) dir_ok wr file = (f, CaSaved) ->
  exists text, f = Some text /\ toml_to_string_pretty c = Some text /\ NoDup (tcp_ports c) /\ NoDup (udp_ports c) /\
    (toml_from_str text = Some c -> forall create torn,
       handle_get_config role (RdContent text) create torn f = (f, CaConfig c) /\
       (daemon_starts (RdContent text) create torn f = true <->
        dc_backend_port (daemon_settings c) <> dc_nrs_port (daemon_settings c))) /\
    (forall other create torn, toml_from_str other = None ->
       handle_get_config role (RdContent other) create torn (Some other) = (Some other, CaProcessExit) /\
       daemon_starts (RdContent other) create torn (Some other) = false).
Proof.
  unfold handle_set_config, save_config. destruct (can_system role) eqn:Hr; [|done]. cbn [negb].
  destruct (config_validate c) as [[]|] eqn:Hv; [|done].
  destruct dir_ok; [|done]. cbn [negb]. destruct (toml_to_string_pretty c) as [text|] eqn:Ht; [|done].
  destruct wr; [|done]. intros [= <-]. exists text. pose proof Hv as Hv'. apply config_validate_iff in Hv' as [H1 H2].
  do 4 (split; [done|]). unfold handle_get_config, daemon_starts, load_config. rewrite Hr. cbn [negb snd]. split.
  - intros Hp create torn. rewrite Hp, Hv. split; [done|]. rewrite (validated_backend c Hv). cbn.
    rewrite negb_true_iff. apply Z.eqb_neq.
  - intros other create torn Ho. by rewrite Ho.
Qed.

End ConfigFacts.
