(* ===== verification/RotationExamples.v ===== *)
(** * Witnesses of the rotation tasks, the publishers and the local files *)
From Stdlib Require Import String Sorted.
From S2P Require Import Prelude Sorting Bytes Config Crypto Kyn Names Physics Net Kid Records Action Verify Nrs Lru Peers DnsTree Storage StoreVerify TieBreaker Store EventLoop Oracle ActionNode ApiAuth KidManager RegistrationApi MacroApi Waiting LoopExamples Client SwappedLoop Rotation Publishers LocalState.
#[local] Open Scope Z_scope.

Module ToyRotation.
(** A peer has done the work of the epoch that is its number. *)
Definition argon : Argon2 := fun peer salt =>
  Some (if be_val salt =? be_val peer then repeat 0 32 else repeat 255 32).
#[local] Existing Instance argon.

Lemma total : argon_total.
Proof. by eexists. Qed.

Definition start : Rotator := MkRotator [3] None 1 true.
Definition round (kyn : Z) (binds : nat -> bool) : Round := MkRound kyn [[9]; [5]] [200] binds.
(** The third attempt succeeds. *)
Definition third (i : nat) : bool := (2 <=? i)%nat.
Definition rounds : list Round := [round 5100 third; round 8000 third].

(** The identity of the third epoch is good at kyn 5100, and replaced at kyn 8000 by one of
    the fifth. *)
Example rotated :
  rotate (daemon_round false) rounds start =
    ([RnMined 8000 [5]; RnAborted; RnSlept 100; RnBindFailed; RnSlept 200; RnBindFailed; RnSlept 400; RnSwapped],
     Alive (MkRotator [5] None 2 true)).
Proof. vm_compute. reflexivity. Qed.
Example rotated_host :
  rotate (host_round false) rounds start =
    ([RnKyn 5100; RnKyn 8000; RnMined 8000 [5]; RnShared [5]; RnAborted; RnBindFailed; RnSlept 2000; RnBindFailed;
      RnSlept 2000; RnSwapped],
     Alive (MkRotator [5] None 2 true)).
Proof. vm_compute. reflexivity. Qed.

Lemma running : Forall (fun r => rd_kyn r <> 0) rounds.
Proof. repeat constructor; discriminate. Qed.

(** Without a kyn a process does not start. *)
Example offline_boot : boot_rotator false (Err AllEndpointsFailed) [[3]] = Panicked.
Proof. reflexivity. Qed.
End ToyRotation.

Lemma epoch_cache_transparent_witness :
  (@rotate (@daemon_round ToyRotation.argon false) ToyRotation.rounds ToyRotation.start).1 =
    (@rotate (@daemon_reference ToyRotation.argon) ToyRotation.rounds ToyRotation.start).1.
Proof.
  exact (proj1 (proj1 (@epoch_cache_transparent ToyRotation.argon ToyRotation.rounds [3] 1 true ToyRotation.running))).
Defined.

Lemma rotation_keeps_identity_witness :
  @identity_valid ToyRotation.argon false [5] 8000 = true.
Proof.
  refine (proj2 (@rotation_keeps_identity ToyRotation.argon (@daemon_round ToyRotation.argon false)
    [ToyRotation.round 5100 ToyRotation.third] (ToyRotation.round 8000 ToyRotation.third) [3] 1
    _ (MkRotator [5] None 2 true) ToyRotation.total (or_introl eq_refl) ToyRotation.running ToyRotation.rotated)).
Defined.

Lemma swaps_bounded_witness :
  Z.of_nat (swaps (@rotate (@daemon_round ToyRotation.argon false) ToyRotation.rounds ToyRotation.start).1) * (EPOCH_KYNS + 1)
    <= 8000 - 5000.
Proof.
  refine (@swaps_bounded ToyRotation.argon (@daemon_round ToyRotation.argon false) ToyRotation.rounds [[9]; [3]] 5000 8000 [3] 1
    _ (MkRotator [5] None 2 true) ToyRotation.total (or_introl eq_refl) _ _ _ _ ToyRotation.rotated).
  - lia.
  - unfold EPOCH_KYNS. lia.
  - vm_compute. reflexivity.
  - repeat constructor; vm_compute; discriminate.
Defined.

Lemma swap_ends_witness :
  exists ev, slept ev = 204700 /\ exists s',
    @daemon_round ToyRotation.argon false (ToyRotation.round 8000 (fun _ => false)) ToyRotation.start = (ev, Stopped s') /\
    run_client (channel_of s' (fun _ => ChBlocked)) 0 0 (resolve_redundant_payload (bs "a")) = MkOutcome [] (Some (Err RfClosed, 0)).
Proof.
  destruct (@swap_ends ToyRotation.argon (ToyRotation.round 8000 (fun _ => false)) ToyRotation.start [5]
    (@fresh_verified ToyRotation.argon [3] 1 true) ltac:(discriminate) ltac:(vm_compute; reflexivity) ltac:(vm_compute; reflexivity))
    as [(ev & [(i & (_ & Hi & _) & _)|(_ & Hs & s' & Hd & Hc)]) _]; [discriminate|].
  exists ev. split; [exact Hs|]. exists s'. split; [exact Hd|].
  exact (proj1 (Hc (fun _ => ChBlocked) 0%nat 0 (bs "a") [] ltac:(vm_compute; discriminate))).
Defined.

(** ** A swapped loop *)

Section Swapped.
#[local] Existing Instances ascii_only ToyStore.short_sha2 ToyStore.yes_mldsa toy_beacon_codecs toy_jcs
  ToyStore.yes_beacon ToyStore.yes_vdf ToyLoop.wasm_true ToyResolver.peers ToyResolver.ed ToyDht.stored_json ToyLoop.serde
  ToyDht.lru ToyDht.mem ToyLoop.resolver ToyLoop.reactor ToyLoop.peer_strings ToyLoop.kad ToyPeers.addrs ToyPeers.argon ToyLoop.seeds.

Lemma swapped_loop_forgets_witness :
  swarm_log (run true (toy_salt 1) None ToyLoop.config ToyLoop.global [(0, InSync (SyncRequest 4))]
    (loop_boot ToyLoop.dht 200 [] [] true (false, true))) = [CallSyncResponse 4 []] /\
  silent [] (CallSyncResponse 4 []).
Proof.
  assert (E : swarm_log (run true (toy_salt 1) None ToyLoop.config ToyLoop.global [(0, InSync (SyncRequest 4))]
    (loop_boot ToyLoop.dht 200 [] [] true (false, true))) = [CallSyncResponse 4 []]) by (vm_compute; reflexivity).
  split; [exact E|].
  refine (proj1 (swapped_loop_forgets true (toy_salt 1) None ToyLoop.config ToyLoop.global ToyLoop.dht 200 [] [] true (false, true) []
    [(0, InSync (SyncRequest 4))] ltac:(repeat constructor)) (CallSyncResponse 4 []) _).
  rewrite E. apply list_elem_of_here.
Defined.
End Swapped.

(** ** The publishers *)

Module ToyPublisher.
Definition record : Reveal := ToyApi.record.
(** Stored with its tag the record is [\[1\]], without it [\[5\]]. *)
Definition serde : Serde := {|
  Json := bool; json_has := ToyMacro.fields; commitment_from_value _ := None;
  json_from_slice b := if bool_decide (b = [1]) then Some true else if bool_decide (b = [5]) then Some false else None;
  envelope_from_value v := if v : bool then Some (Standard record) else None;
  heartbeat_from_value _ := None; auth_kid_from_value _ := None; auth_manifest_from_value _ := None;
  host_route_from_value _ := None;
  envelope_from_slice b := if bool_decide (b = [1]) then Some (Standard record) else None;
  envelope_to_vec e := if bool_decide (e = Standard record) then Some [1] else None |}.
Definition text : @RevealText serde := fun r => if bool_decide (r = record) then Some [5] else None.
Definition resolver : ResolverJson := {|
  document_from_slice _ := None; host_route_from_slice _ := None;
  reveal_from_slice b := if bool_decide (b = [1] \/ b = [5]) then Some record else None |}.
Definition json : @DaemonJson serde := {|
  names_from_slice b := Some (map (fun c => [c]) b); names_to_vec l := Some (concat l);
  zone_to_vec _ := Some [3]; zone_to_string_pretty _ := Some [3]; zone_from_str _ := Some ∅;
  heartbeat_to_vec hb := Some (hb_name hb); heartbeat_from_slice _ := None;
  commitment_to_vec h := Some h; reserved_dummy _ := (false : @Json serde) |}.

Lemma publisher_text_laws : @RevealTextLaws serde text.
Proof.
  split.
  - intros r b. unfold reveal_to_vec, text. case_bool_decide; [|done]. intros [= <-]. exists false. by vm_compute.
  - by intros [] e H.
  - intros b e H. unfold envelope_from_slice, serde in H. case_bool_decide; [subst b|done]. exists true. by vm_compute.
Qed.
Lemma publisher_slice_laws : @RevealSliceLaws serde resolver text.
Proof.
  split.
  - intros r b. unfold reveal_to_vec, text. case_bool_decide; [|done]. by intros [= <-]; subst.
  - intros r b. cbn. case_bool_decide as E; [|done]. injection E as ->. by intros [= <-].
  - intros e b. cbn. case_bool_decide as E; [|done]. subst e. by intros [= <-].
Qed.

(** Two names, the second of them stored by a renewal. *)
Definition stored : @Sto ToyApi.wasm :=
  (@sto_put ToyApi.wasm (@sto_put ToyApi.wasm (@sto_put ToyApi.wasm wasm_new (bs "reveal:a") [1]).1 (bs "reveal:b") [5]).1
    (bs "owned") [97; 98]).1.

#[export] Instance raw_kyn_eq_dec : EqDecision RawKyn.
Proof. solve_decision. Defined.

(** A kyn that its endpoint calls unavailable. *)
Definition live : RawKyn := MkRawKyn 1000 [] [] false false.
Definition reactor : @ReactorJson ToyLoop.serde := {|
  reveal_from_value _ := None; action_from_slice _ := None;
  raw_kyn_from_slice b := if bool_decide (b = [7]) then Some live
    else match b with idx :: _ => Some (MkRawKyn idx [] [] false true) | [] => None end |}.
Definition vec : RawKynVec := fun k => if bool_decide (k = live) then Some [7] else None.
Lemma kyn_round : @RawKynRound ToyLoop.serde reactor vec.
Proof. intros k b. unfold raw_kyn_to_vec, vec. case_bool_decide; [|done]. by intros [= <-]; subst. Qed.
Definition tick := @oracle_tick Toy.toy_sha2 toy_beacon_codecs toy_beacon (wasm_engine true) ToyLoop.serde
  reactor vec ToyOracle.net false ToyOracle.provider (bs "last") false 0 wasm_new.
End ToyPublisher.

Section Published.
#[local] Existing Instances ascii_only ToyStore.short_sha2 ToyStore.yes_mldsa toy_beacon_codecs toy_jcs
  ToyStore.yes_beacon ToyStore.yes_vdf ToyApi.wasm ToyPublisher.serde ToyPublisher.resolver ToyPublisher.json ToyPublisher.text
  ToyApi.db ToyResolver.peers ToyResolver.ed ToyDht.stored_json ToyDht.lru ToyDht.mem
  ToyPublisher.publisher_text_laws ToyPublisher.publisher_slice_laws.

Lemma republish_spec_witness :
  exists commit,
  [RpSleep 0; RpPublish [97] commit; RpSleep 36000; RpPublish [97] [1]] ∈ republish_round (toy_salt 1) ToyPublisher.stored /\
  [RpSleep 100; RpPublish [98] commit; RpSleep 36000; RpPublish [98] [5]] ∈ republish_round (toy_salt 1) ToyPublisher.stored /\
  forall (store : KineticRecordStore) key,
    put_record_internal false (toy_salt 1) None 0 store (MkKadRecord key [5]) false = (store, Err SchemaValidationError).
Proof.
  pose (sig := default [] (hex_decode (rv_beacon_signature ToyPublisher.record))).
  pose (commit := reveal_challenge (toy_salt 1) ToyPublisher.record sig).
  pose proof (republish_spec (toy_salt 1) ToyPublisher.stored [97; 98] [[97]; [98]] 0 [97] [1] ToyPublisher.record sig commit) as Ha.
  pose proof (republish_spec (toy_salt 1) ToyPublisher.stored [97; 98] [[97]; [98]] 1 [98] [5] ToyPublisher.record sig commit) as Hb.
  specialize (Ha ltac:(vm_compute; reflexivity) ltac:(vm_compute; reflexivity) eq_refl ltac:(vm_compute; reflexivity)
    ltac:(vm_compute; reflexivity) ltac:(vm_compute; reflexivity)) as [Ha _].
  specialize (Hb ltac:(vm_compute; reflexivity) ltac:(vm_compute; reflexivity) eq_refl ltac:(vm_compute; reflexivity)
    ltac:(vm_compute; reflexivity) ltac:(vm_compute; reflexivity)) as [_ Hb].
  exists commit. cbv zeta. split; [exact (proj1 (Ha ltac:(vm_compute; reflexivity)))|].
  destruct (Hb ltac:(vm_compute; reflexivity)) as [Hb1 Hb2]. split; [exact Hb1|]. intros store key. exact (Hb2 _ _ _ store key false).
Defined.
End Published.

Lemma broadcast_kyn_verdict_witness :
  exists k, is_unavailable k = true /\ ToyPublisher.live = as_live k /\ forall config,
    @gossip_valid Toy.toy_sha2 ToyStore.yes_mldsa toy_beacon_codecs toy_beacon ToyLoop.serde ToyPublisher.reactor
      false None config (bs "t") (bs "t") [opcode_byte OpKyn; 7] = Some false.
Proof.
  destruct (@broadcast_kyn_verdict Toy.toy_sha2 ToyStore.yes_mldsa toy_beacon_codecs toy_beacon (wasm_engine true) ToyLoop.serde
    ToyPublisher.reactor ToyPublisher.vec ToyOracle.net ToyOracle.provider (bs "last") ToyPublisher.kyn_round 0 wasm_new
    ToyPublisher.tick.1 1000 [opcode_byte OpKyn; 7] (or_introl (pair_of_snd ToyPublisher.tick _ ltac:(vm_compute; reflexivity))))
    as (url & k & Hu & Hf & Hk & Hg & _).
  exists (MkRawKyn 1000 [] [] false true). split; [reflexivity|]. split; [reflexivity|].
  intros config. rewrite (Hg None config (bs "t")).
  assert (Hl : as_live k = ToyPublisher.live).
  { revert Hf. apply (list_elem_of_In) in Hu. vm_compute in Hu.
    destruct Hu as [<-|[<-|[<-|[]]]]; vm_compute; [discriminate| |]; by intros [= <-]. }
  by rewrite Hl.
Defined.

(** ** Local files *)

Module ToyFiles.
Definition key_file : bytes := bs "/kinetic/node.key".
Example corrupt_file : corrupt_path key_file (bs "17") = bs "/kinetic/node.key.17.corrupt".
Proof. vm_compute. reflexivity. Qed.
Definition codec : KeyCodec := {|
  StaticKey := Z; from_protobuf_encoding b := match b with [k] => Some k | _ => None end; to_protobuf_encoding k := Some [k] |}.
Lemma codec_laws : @KeyCodecLaws codec.
Proof. split; [by eexists|]. by intros k b [= <-]. Qed.
Definition io (read : bool) : @KeyIo codec := @MkKeyIo codec read true true 42 (bs "17").

Definition texts : BuildTexts := {|
  LOCAL_BIND_IP := bs "127.0.0.1"; IPFS_GATEWAY := []; BASE_DOMAIN := bs "example.org"; BEACON_ENDPOINTS := []; BOOTSTRAP_NODES := [] |}.
(** The port of the resolver moved to that of the backend. *)
Definition clash : KineticConfig :=
  let c := @default_config texts in let d := daemon_settings c in
  MkKineticConfig (peer_settings c)
    (MkDaemonSettings (pac_bind_ip d) (dc_api_port d) 80 (dc_proxy_port d) 80 (enable_nrs d) (dc_pac_port d) (dc_ipfs_gateway d)
      (atlas_port d) (daemon_p2p_only d))
    (node_settings c) (host_settings c) (network_settings c) (beacon_settings c).
Definition toml : Toml := {|
  toml_from_str b := if bool_decide (b = [1]) then Some clash else None; toml_to_string_pretty c := Some [1] |}.
Definition admin : Role := MkRole true false false false false false false false false false.
End ToyFiles.

Lemma static_key_stable_witness :
  @load_or_generate_key ToyFiles.codec ToyFiles.key_file (ToyFiles.io false) {[ ToyFiles.key_file := [7] ]}
    = ({[ ToyFiles.key_file := [42] ]}, Some 42).
Proof.
  destruct (proj1 (proj2 (@static_key_stable ToyFiles.codec ToyFiles.codec_laws ToyFiles.key_file (ToyFiles.io false)
    {[ ToyFiles.key_file := [7] ]})) eq_refl eq_refl) as (b & Hb & H & _).
  rewrite H. cbn in Hb. destruct b as [|k [|]]; [discriminate| |discriminate]. by injection Hb as ->.
Defined.

Lemma saved_config_starts_iff_witness :
  @daemon_starts ToyFiles.texts ToyFiles.toml (RdContent [1]) CnExists [] (Some [1]) = false.
Proof.
  destruct (@saved_config_starts_iff ToyFiles.texts ToyFiles.toml ToyFiles.admin ToyFiles.clash true CwWritten None (Some [1])
    ltac:(vm_compute; reflexivity)) as (text & Ht & _ & _ & _ & Hs & _).
  injection Ht as <-. destruct (Hs ltac:(vm_compute; reflexivity) CnExists []) as [_ Hi].
  apply not_true_is_false. intros H. apply Hi in H. by apply H.
Defined.
