(* ===== verification/Errors.v ===== *)
(** * Errors at the API ([kinetic-rpc/src/api_error.rs], [kinetic-core/src/error/])

    The errors of each part of the system with the code, the severity and the
    retry flag each has, and what the API answers for them.  The payload of an
    error is part of its message only and is left out, as are the messages. *)
From Stdlib Require Import String.
From S2P Require Import Prelude Bytes Config Names RsaVdf Action KidManager Storage Oracle.
#[local] Open Scope Z_scope.

(** The fields a client can act upon. *)
Record ApiError := MkApiError { error_type : bytes; title : bytes; http_status : Z; error_code : bytes; retryable : bool }.

Definition DOCS_URL : bytes := docs_url (network network_json).
(** [ActionError] has an address of its own. *)
Definition ACTION_DOCS : bytes := bs "https://docs.kinetic.network".
Definition uri (base code : bytes) : bytes := base ++ bs "/errors/" ++ code.

(** [kinetic-core/src/error/dht.rs] *)
Inductive ResolutionErrorKind :=
  | Res_Offline
  | Res_NotFound
  | Res_VdfVerificationFailed
  | Res_Expired
  | Res_Timeout
  | Res_Internal
  | Res_SignatureVerificationFailed.

Definition resolution_code (e : ResolutionErrorKind) : bytes :=
  match e with
  | Res_Offline => bs "KIN-QRY-001"
  | Res_NotFound => bs "KIN-QRY-002"
  | Res_VdfVerificationFailed => bs "KIN-QRY-003"
  | Res_Expired => bs "KIN-QRY-004"
  | Res_Timeout => bs "KIN-QRY-005"
  | Res_Internal => bs "KIN-QRY-006"
  | Res_SignatureVerificationFailed => bs "KIN-QRY-011"
  end.

Definition resolution_severity (e : ResolutionErrorKind) : Severity :=
  match e with
  | Res_Offline => SevWarning
  | Res_NotFound => SevInfo
  | Res_VdfVerificationFailed => SevError
  | Res_Expired => SevInfo
  | Res_Timeout => SevWarning
  | Res_Internal => SevError
  | Res_SignatureVerificationFailed => SevError
  end.

Definition resolution_is_retryable (e : ResolutionErrorKind) : bool := match e with Res_Offline | Res_Timeout => true | _ => false end.

Definition resolution_api (e : ResolutionErrorKind) : ApiError :=
  let '(status, title) :=
    match e with
    | Res_Offline => (503, bs "Node Offline")
    | Res_NotFound => (404, bs "Name Not Found")
    | Res_VdfVerificationFailed => (422, bs "Cryptographic Verification Failed")
    | Res_Expired => (410, bs "Registration Expired")
    | Res_Timeout => (504, bs "Resolution Timeout")
    | Res_Internal => (500, bs "Internal Resolution Error")
    | Res_SignatureVerificationFailed => (403, bs "Signature Spoofed")
    end in
  MkApiError (uri DOCS_URL (resolution_code e)) title status (resolution_code e) (resolution_is_retryable e).

(** [kinetic-core/src/error/dht.rs] *)
Inductive PublishErrorKind :=
  | Pub_Offline
  | Pub_InvalidProof
  | Pub_AlreadyOwned
  | Pub_AllFailed
  | Pub_Rejected
  | Pub_Internal
  | Pub_QuorumFailed
  | Pub_QuorumCheckError
  | Pub_ZonePublishFailed
  | Pub_CommitmentQuorumFailed
  | Pub_CommitmentQuorumCheckError
  | Pub_CommitmentPublishFailed
  | Pub_MissingLocalRevealForKid
  | Pub_MissingLocalRevealForManifest
  | Pub_ZoneSerializationFailed
  | Pub_HostRoutePublishFailed
  | Pub_KidPublishFailed
  | Pub_ManifestPublishFailed.

Definition publish_code (e : PublishErrorKind) : bytes :=
  match e with
  | Pub_Offline => bs "KIN-PUB-001"
  | Pub_InvalidProof => bs "KIN-PUB-002"
  | Pub_AlreadyOwned => bs "KIN-PUB-003"
  | Pub_AllFailed => bs "KIN-PUB-004"
  | Pub_Rejected => bs "KIN-PUB-005"
  | Pub_Internal => bs "KIN-PUB-006"
  | Pub_QuorumFailed => bs "KIN-PUB-007"
  | Pub_QuorumCheckError => bs "KIN-PUB-008"
  | Pub_ZonePublishFailed => bs "KIN-PUB-009"
  | Pub_CommitmentQuorumFailed => bs "KIN-PUB-010"
  | Pub_CommitmentQuorumCheckError => bs "KIN-PUB-011"
  | Pub_CommitmentPublishFailed => bs "KIN-PUB-012"
  | Pub_MissingLocalRevealForKid => bs "KIN-PUB-013"
  | Pub_MissingLocalRevealForManifest => bs "KIN-PUB-014"
  | Pub_ZoneSerializationFailed => bs "KIN-PUB-015"
  | Pub_HostRoutePublishFailed => bs "KIN-PUB-016"
  | Pub_KidPublishFailed => bs "KIN-PUB-017"
  | Pub_ManifestPublishFailed => bs "KIN-PUB-018"
  end.

Definition publish_severity (e : PublishErrorKind) : Severity :=
  match e with
  | Pub_Offline => SevWarning
  | Pub_InvalidProof => SevError
  | Pub_AlreadyOwned => SevInfo
  | Pub_AllFailed => SevWarning
  | Pub_Rejected => SevWarning
  | Pub_Internal => SevError
  | Pub_QuorumFailed => SevWarning
  | Pub_QuorumCheckError => SevWarning
  | Pub_ZonePublishFailed => SevError
  | Pub_CommitmentQuorumFailed => SevWarning
  | Pub_CommitmentQuorumCheckError => SevWarning
  | Pub_CommitmentPublishFailed => SevError
  | Pub_MissingLocalRevealForKid => SevWarning
  | Pub_MissingLocalRevealForManifest => SevWarning
  | Pub_ZoneSerializationFailed => SevError
  | Pub_HostRoutePublishFailed => SevError
  | Pub_KidPublishFailed => SevError
  | Pub_ManifestPublishFailed => SevError
  end.

Definition publish_is_retryable (e : PublishErrorKind) : bool := match e with Pub_Offline | Pub_AllFailed => true | _ => false end.

Definition publish_api (e : PublishErrorKind) : ApiError :=
  let '(status, title) :=
    match e with
    | Pub_Offline => (503, bs "Node Offline")
    | Pub_InvalidProof => (422, bs "Invalid VDF Proof")
    | Pub_AlreadyOwned => (409, bs "Name Already Owned")
    | Pub_AllFailed => (503, bs "Publish Failed")
    | Pub_Rejected => (422, bs "Publish Rejected")
    | Pub_Internal => (500, bs "Internal Publish Error")
    | Pub_QuorumFailed | Pub_CommitmentQuorumFailed => (503, bs "Quorum Failed")
    | Pub_QuorumCheckError | Pub_CommitmentQuorumCheckError => (503, bs "Quorum Check Failed")
    | Pub_ZonePublishFailed | Pub_CommitmentPublishFailed | Pub_KidPublishFailed | Pub_ManifestPublishFailed | Pub_HostRoutePublishFailed => (502, bs "DHT Publish Failed")
    | Pub_MissingLocalRevealForKid | Pub_MissingLocalRevealForManifest => (404, bs "Missing Local Reveal")
    | Pub_ZoneSerializationFailed => (500, bs "Serialization Failed")
    end in
  MkApiError (uri DOCS_URL (publish_code e)) title status (publish_code e) (publish_is_retryable e).

(** [kinetic-core/src/error/dht.rs] *)
Inductive RegistrationErrorKind :=
  | Reg_InvalidName
  | Reg_VdfFailed
  | Reg_CommitmentMismatch
  | Reg_AlreadyOwned
  | Reg_AlreadyInProgress
  | Reg_NetworkRejected
  | Reg_Internal
  | Reg_NotRegisteredLocal.

Definition registration_code (e : RegistrationErrorKind) : bytes :=
  match e with
  | Reg_InvalidName => bs "KIN-REG-001"
  | Reg_VdfFailed => bs "KIN-REG-002"
  | Reg_CommitmentMismatch => bs "KIN-REG-003"
  | Reg_AlreadyOwned => bs "KIN-REG-004"
  | Reg_AlreadyInProgress => bs "KIN-REG-005"
  | Reg_NetworkRejected => bs "KIN-REG-006"
  | Reg_Internal => bs "KIN-REG-007"
  | Reg_NotRegisteredLocal => bs "KIN-REG-008"
  end.

Definition registration_severity (e : RegistrationErrorKind) : Severity :=
  match e with
  | Reg_InvalidName => SevInfo
  | Reg_VdfFailed => SevError
  | Reg_CommitmentMismatch => SevError
  | Reg_AlreadyOwned => SevInfo
  | Reg_AlreadyInProgress => SevInfo
  | Reg_NetworkRejected => SevWarning
  | Reg_Internal => SevError
  | Reg_NotRegisteredLocal => SevInfo
  end.

Definition registration_is_retryable (e : RegistrationErrorKind) : bool := match e with Reg_VdfFailed => true | _ => false end.

Definition registration_api (e : RegistrationErrorKind) : ApiError :=
  let '(status, title) :=
    match e with
    | Reg_InvalidName => (400, bs "Invalid Name")
    | Reg_VdfFailed => (500, bs "VDF Computation Failed")
    | Reg_CommitmentMismatch => (422, bs "Commitment Mismatch")
    | Reg_AlreadyOwned => (409, bs "Name Already Owned")
    | Reg_AlreadyInProgress => (409, bs "Registration In Progress")
    | Reg_NetworkRejected => (422, bs "Registration Rejected")
    | Reg_Internal => (500, bs "Internal Registration Error")
    | Reg_NotRegisteredLocal => (404, bs "Not Found")
    end in
  MkApiError (uri DOCS_URL (registration_code e)) title status (registration_code e) (registration_is_retryable e).

(** [kinetic-action/src/error.rs] *)
Inductive ActionErrorKind :=
  | Act_MissingSovereignKey
  | Act_MalformedSovereignKey
  | Act_KeyLengthMismatch
  | Act_StaleProposal
  | Act_AlreadyExecuted
  | Act_ActionDisabled
  | Act_InvalidSignature
  | Act_StateSaveFailed
  | Act_P2pPublishFailed
  | Act_InvalidSeedState
  | Act_StateCorrupted
  | Act_StateReadFailed
  | Act_BootstrapFetchFailed.

Definition action_code (e : ActionErrorKind) : bytes :=
  match e with
  | Act_MissingSovereignKey => bs "KIN-ACN-001"
  | Act_MalformedSovereignKey => bs "KIN-ACN-002"
  | Act_ActionDisabled => bs "KIN-ACN-003"
  | Act_KeyLengthMismatch => bs "KIN-ACN-004"
  | Act_StaleProposal => bs "KIN-ACN-005"
  | Act_AlreadyExecuted => bs "KIN-ACN-006"
  | Act_InvalidSignature => bs "KIN-ACN-007"
  | Act_StateSaveFailed => bs "KIN-ACN-013"
  | Act_P2pPublishFailed => bs "KIN-ACN-014"
  | Act_InvalidSeedState => bs "KIN-ACN-015"
  | Act_StateCorrupted => bs "KIN-ACN-016"
  | Act_StateReadFailed => bs "KIN-ACN-017"
  | Act_BootstrapFetchFailed => bs "KIN-ACN-018"
  end.

Definition action_severity (e : ActionErrorKind) : Severity :=
  match e with
  | Act_MissingSovereignKey | Act_MalformedSovereignKey | Act_StateCorrupted => SevCritical
  | Act_StaleProposal | Act_AlreadyExecuted => SevInfo
  | Act_KeyLengthMismatch | Act_StateSaveFailed | Act_P2pPublishFailed | Act_StateReadFailed => SevError
  | Act_ActionDisabled | Act_InvalidSignature | Act_InvalidSeedState | Act_BootstrapFetchFailed => SevWarning
  end.

Definition action_is_retryable (e : ActionErrorKind) : bool := match e with Act_InvalidSignature | Act_P2pPublishFailed | Act_BootstrapFetchFailed => true | _ => false end.

Definition action_api (e : ActionErrorKind) : ApiError :=
  let '(status, title) :=
    match e with
    | Act_MissingSovereignKey | Act_MalformedSovereignKey | Act_StateCorrupted => (500, bs "Internal Server Error")
    | Act_ActionDisabled => (403, bs "Forbidden")
    | Act_StaleProposal | Act_AlreadyExecuted => (409, bs "Conflict")
    | Act_KeyLengthMismatch | Act_InvalidSignature | Act_InvalidSeedState => (400, bs "Bad Request")
    | Act_StateSaveFailed | Act_StateReadFailed => (500, bs "Internal Server Error")
    | Act_P2pPublishFailed | Act_BootstrapFetchFailed => (502, bs "Bad Gateway")
    end in
  MkApiError (uri ACTION_DOCS (action_code e)) title status (action_code e) (action_is_retryable e).

(** [kinetic-core/src/error/network.rs] *)
Inductive NetworkClientErrorKind :=
  | Cli_Timeout
  | Cli_Offline
  | Cli_RoutingTableEmpty
  | Cli_ChannelClosed
  | Cli_GossipSubError
  | Cli_Other.

Definition network_client_code (e : NetworkClientErrorKind) : bytes :=
  match e with
  | Cli_Timeout => bs "KIN-QRY-005"
  | Cli_Offline => bs "KIN-QRY-001"
  | Cli_RoutingTableEmpty => bs "KIN-QRY-001"
  | Cli_ChannelClosed => bs "KIN-QRY-006"
  | Cli_GossipSubError => bs "KIN-RPC-001"
  | Cli_Other => bs "KIN-RPC-002"
  end.

Definition network_client_severity (e : NetworkClientErrorKind) : Severity :=
  match e with
  | Cli_Timeout | Cli_Offline | Cli_RoutingTableEmpty | Cli_ChannelClosed | Cli_GossipSubError => SevWarning
  | Cli_Other => SevError
  end.

Definition network_client_is_retryable (e : NetworkClientErrorKind) : bool := match e with Cli_Timeout | Cli_Offline | Cli_RoutingTableEmpty => true | _ => false end.

Definition network_client_api (e : NetworkClientErrorKind) : ApiError :=
  let '(status, title) :=
    match e with
    | Cli_Timeout => (504, bs "Gateway Timeout")
    | Cli_Offline | Cli_RoutingTableEmpty => (503, bs "Service Unavailable")
    | Cli_ChannelClosed | Cli_Other => (500, bs "Internal Server Error")
    | Cli_GossipSubError => (502, bs "Bad Gateway")
    end in
  MkApiError (uri DOCS_URL (network_client_code e)) title status (network_client_code e) (network_client_is_retryable e).

(** [kinetic-core/src/error/storage.rs] *)
Inductive StorageErrorKind :=
  | Sto_DatabaseLocked
  | Sto_Corruption
  | Sto_ReadFailed
  | Sto_WriteFailed
  | Sto_DeleteFailed
  | Sto_ScanFailed
  | Sto_OpenFailed
  | Sto_DeserializationFailed
  | Sto_InvalidRecordDiscarded
  | Sto_UnreferencedHeartbeatPurged.

Definition storage_code (e : StorageErrorKind) : bytes :=
  match e with
  | Sto_DatabaseLocked => bs "KIN-DBE-001"
  | Sto_Corruption => bs "KIN-DBE-002"
  | Sto_ReadFailed => bs "KIN-DBE-003"
  | Sto_WriteFailed => bs "KIN-DBE-004"
  | Sto_DeleteFailed => bs "KIN-DBE-005"
  | Sto_ScanFailed => bs "KIN-DBE-006"
  | Sto_OpenFailed => bs "KIN-DBE-007"
  | Sto_DeserializationFailed => bs "KIN-DBE-008"
  | Sto_InvalidRecordDiscarded => bs "KIN-DBE-011"
  | Sto_UnreferencedHeartbeatPurged => bs "KIN-DBE-012"
  end.

Definition storage_severity (e : StorageErrorKind) : Severity :=
  match e with
  | Sto_DatabaseLocked => SevCritical
  | Sto_Corruption | Sto_DeserializationFailed => SevError
  | Sto_ReadFailed | Sto_WriteFailed | Sto_DeleteFailed | Sto_ScanFailed | Sto_OpenFailed => SevError
  | Sto_InvalidRecordDiscarded | Sto_UnreferencedHeartbeatPurged => SevWarning
  end.

Definition storage_is_retryable (e : StorageErrorKind) : bool := match e with Sto_ReadFailed | Sto_WriteFailed | Sto_DeleteFailed | Sto_ScanFailed | Sto_OpenFailed => true | _ => false end.

Definition storage_api (e : StorageErrorKind) : ApiError :=
  let '(status, title) :=
    match e with
    | Sto_DatabaseLocked => (423, bs "Locked")
    | Sto_Corruption => (500, bs "Storage Corruption")
    | Sto_DeserializationFailed => (500, bs "Storage Deserialization Failed")
    | Sto_ReadFailed | Sto_WriteFailed | Sto_DeleteFailed | Sto_ScanFailed | Sto_OpenFailed => (500, bs "Storage Operation Failed")
    | Sto_InvalidRecordDiscarded | Sto_UnreferencedHeartbeatPurged => (500, bs "Storage Consistency Warning")
    end in
  MkApiError (uri DOCS_URL (storage_code e)) title status (storage_code e) (storage_is_retryable e).

(** [kinetic-core/src/error/vdf.rs] *)
Inductive VdfErrorKind :=
  | Vdf_LockFileError
  | Vdf_LockAcquireError
  | Vdf_DiscriminantError
  | Vdf_ProofGenerationError
  | Vdf_UnsupportedPlatform
  | Vdf_InvalidProof
  | Vdf_InvalidChallenge
  | Vdf_MaxIterationsExceeded
  | Vdf_TooManyTasks.

Definition vdf_code (e : VdfErrorKind) : bytes :=
  match e with
  | Vdf_LockFileError => bs "KIN-VDF-001"
  | Vdf_LockAcquireError => bs "KIN-VDF-002"
  | Vdf_DiscriminantError => bs "KIN-VDF-003"
  | Vdf_ProofGenerationError => bs "KIN-VDF-004"
  | Vdf_UnsupportedPlatform => bs "KIN-VDF-005"
  | Vdf_InvalidProof => bs "KIN-VDF-006"
  | Vdf_InvalidChallenge => bs "KIN-VDF-007"
  | Vdf_MaxIterationsExceeded => bs "KIN-VDF-012"
  | Vdf_TooManyTasks => bs "KIN-VDF-013"
  end.

Definition vdf_severity (e : VdfErrorKind) : Severity :=
  match e with
  | Vdf_LockFileError | Vdf_LockAcquireError => SevError
  | Vdf_DiscriminantError | Vdf_ProofGenerationError | Vdf_InvalidProof => SevError
  | Vdf_UnsupportedPlatform => SevCritical
  | Vdf_InvalidChallenge | Vdf_MaxIterationsExceeded | Vdf_TooManyTasks => SevWarning
  end.

Definition vdf_is_retryable (e : VdfErrorKind) : bool := match e with Vdf_LockAcquireError | Vdf_TooManyTasks => true | _ => false end.

Definition vdf_api (e : VdfErrorKind) : ApiError :=
  let '(status, title) :=
    match e with
    | Vdf_LockFileError | Vdf_LockAcquireError => (503, bs "Service Unavailable")
    | Vdf_DiscriminantError | Vdf_ProofGenerationError => (500, bs "VDF Computation Error")
    | Vdf_UnsupportedPlatform => (501, bs "Not Implemented")
    | Vdf_InvalidProof => (400, bs "Bad Request")
    | Vdf_InvalidChallenge => (400, bs "Bad Request")
    | Vdf_MaxIterationsExceeded => (400, bs "Bad Request")
    | Vdf_TooManyTasks => (429, bs "Too Many Requests")
    end in
  MkApiError (uri DOCS_URL (vdf_code e)) title status (vdf_code e) (vdf_is_retryable e).

(** [kinetic-core/src/error/kyn_provider.rs] *)
Inductive KynProviderErrorKind :=
  | Kyn_AllEndpointsFailed
  | Kyn_HttpError
  | Kyn_NoCachedKyn
  | Kyn_Serde
  | Kyn_Storage
  | Kyn_HttpClient
  | Kyn_InvalidSignature
  | Kyn_StaleKyn
  | Kyn_StreamReadFailed
  | Kyn_ResponseTooLarge
  | Kyn_UnavailableOnStartup
  | Kyn_P2pFallbackTriggered
  | Kyn_DevModeMockKyn
  | Kyn_RegistrationDisabled
  | Kyn_LiveFetchFailedFallback.

Definition kyn_provider_code (e : KynProviderErrorKind) : bytes :=
  match e with
  | Kyn_AllEndpointsFailed => bs "KIN-RND-001"
  | Kyn_HttpError => bs "KIN-RND-003"
  | Kyn_NoCachedKyn => bs "KIN-RND-004"
  | Kyn_Serde => bs "KIN-RND-005"
  | Kyn_Storage => bs "KIN-RND-006"
  | Kyn_HttpClient => bs "KIN-RND-007"
  | Kyn_InvalidSignature => bs "KIN-RND-008"
  | Kyn_StaleKyn => bs "KIN-RND-009"
  | Kyn_StreamReadFailed => bs "KIN-RND-010"
  | Kyn_ResponseTooLarge => bs "KIN-RND-011"
  | Kyn_UnavailableOnStartup => bs "KIN-RND-012"
  | Kyn_P2pFallbackTriggered => bs "KIN-RND-013"
  | Kyn_DevModeMockKyn => bs "KIN-RND-014"
  | Kyn_RegistrationDisabled => bs "KIN-RND-015"
  | Kyn_LiveFetchFailedFallback => bs "KIN-RND-016"
  end.

Definition kyn_provider_severity (e : KynProviderErrorKind) : Severity :=
  match e with
  | Kyn_AllEndpointsFailed | Kyn_HttpError | Kyn_NoCachedKyn | Kyn_HttpClient | Kyn_StreamReadFailed | Kyn_StaleKyn => SevWarning
  | Kyn_Serde | Kyn_Storage | Kyn_InvalidSignature | Kyn_ResponseTooLarge | Kyn_UnavailableOnStartup => SevError
  | Kyn_P2pFallbackTriggered | Kyn_DevModeMockKyn | Kyn_RegistrationDisabled | Kyn_LiveFetchFailedFallback => SevWarning
  end.

Definition kyn_provider_is_retryable (e : KynProviderErrorKind) : bool := match e with Kyn_AllEndpointsFailed | Kyn_HttpError | Kyn_HttpClient | Kyn_StreamReadFailed | Kyn_StaleKyn => true | _ => false end.

Definition kyn_provider_api (e : KynProviderErrorKind) : ApiError :=
  let '(status, title) :=
    match e with
    | Kyn_AllEndpointsFailed | Kyn_StreamReadFailed | Kyn_ResponseTooLarge | Kyn_HttpClient | Kyn_HttpError => (502, bs "Bad Gateway")
    | Kyn_NoCachedKyn => (404, bs "Not Found")
    | Kyn_Serde | Kyn_Storage => (500, bs "Internal Server Error")
    | Kyn_InvalidSignature => (422, bs "Cryptographic Verification Failed")
    | Kyn_StaleKyn => (400, bs "Stale Network Kyn")
    | Kyn_UnavailableOnStartup => (503, bs "Service Unavailable")
    | Kyn_P2pFallbackTriggered => (503, bs "P2P Fallback Active")
    | Kyn_DevModeMockKyn => (200, bs "Dev Mode Mock")
    | Kyn_RegistrationDisabled => (503, bs "Registration Disabled")
    | Kyn_LiveFetchFailedFallback => (502, bs "Live Fetch Failed")
    end in
  MkApiError (uri DOCS_URL (kyn_provider_code e)) title status (kyn_provider_code e) (kyn_provider_is_retryable e).

(** [kinetic-core/src/error/p2p.rs] *)
Inductive P2pErrorKind :=
  | P2p_UnroutableSeedMultiaddr
  | P2p_ZeroPeersDetected
  | P2p_GossipSpamBan
  | P2p_RecordSpamBan
  | P2p_OfflineVerifyQuorum
  | P2p_MdnsBindFailed
  | P2p_GossipSemaphoreSaturated
  | P2p_KademliaRecordSpamBan
  | P2p_OutgoingConnectionError
  | P2p_BootstrapDialFailed
  | P2p_BannedPeerConnectionAttempt
  | P2p_BootstrapChallengeTimeout
  | P2p_PeerRegistryCorruption
  | P2p_PeerRegistrySerialization.

Definition p2p_code (e : P2pErrorKind) : bytes :=
  match e with
  | P2p_UnroutableSeedMultiaddr => bs "KIN-P2P-001"
  | P2p_ZeroPeersDetected => bs "KIN-P2P-002"
  | P2p_GossipSpamBan => bs "KIN-P2P-003"
  | P2p_RecordSpamBan => bs "KIN-P2P-004"
  | P2p_OfflineVerifyQuorum => bs "KIN-P2P-007"
  | P2p_MdnsBindFailed => bs "KIN-P2P-008"
  | P2p_GossipSemaphoreSaturated => bs "KIN-P2P-009"
  | P2p_KademliaRecordSpamBan => bs "KIN-P2P-011"
  | P2p_OutgoingConnectionError => bs "KIN-P2P-012"
  | P2p_BootstrapDialFailed => bs "KIN-P2P-013"
  | P2p_BannedPeerConnectionAttempt => bs "KIN-P2P-014"
  | P2p_BootstrapChallengeTimeout => bs "KIN-P2P-015"
  | P2p_PeerRegistryCorruption => bs "KIN-P2P-016"
  | P2p_PeerRegistrySerialization => bs "KIN-P2P-017"
  end.

Definition p2p_severity (e : P2pErrorKind) : Severity :=
  match e with
  | P2p_ZeroPeersDetected | P2p_OfflineVerifyQuorum | P2p_PeerRegistrySerialization | P2p_GossipSemaphoreSaturated => SevError
  | _ => SevWarning
  end.

Definition p2p_is_retryable (e : P2pErrorKind) : bool := false.

Definition p2p_api (e : P2pErrorKind) : ApiError :=
  MkApiError (uri DOCS_URL (p2p_code e)) (bs "Service Unavailable") 503 (p2p_code e) (p2p_is_retryable e).

(** [kinetic-core/src/error/nrs.rs] *)
Inductive NrsErrorKind :=
  | Nrs_ParseError
  | Nrs_InvalidSignature
  | Nrs_TooManyRecords
  | Nrs_InvalidLabelLength
  | Nrs_InvalidLabelCharacters
  | Nrs_InvalidCnameConfiguration
  | Nrs_TxtRecordTooLong
  | Nrs_InvalidCnameTarget
  | Nrs_InvalidPeerId
  | Nrs_InvalidKid
  | Nrs_InvalidIpfsCid
  | Nrs_MultipleCnames
  | Nrs_UpstreamResolveError
  | Nrs_DnsRequestFailed
  | Nrs_NrsServerExecutionError
  | Nrs_SeedDomainResolutionFailed
  | Nrs_DnsResolverInitFailed
  | Nrs_DnsLookupFailed
  | Nrs_Web2BridgeResolveFailed
  | Nrs_Web2BridgeNoIpsFound.

Definition nrs_code (e : NrsErrorKind) : bytes :=
  match e with
  | Nrs_MultipleCnames => bs "KIN-NRS-001"
  | Nrs_ParseError => bs "KIN-NRS-002"
  | Nrs_TooManyRecords => bs "KIN-NRS-003"
  | Nrs_InvalidLabelLength => bs "KIN-NRS-004"
  | Nrs_InvalidLabelCharacters => bs "KIN-NRS-005"
  | Nrs_InvalidCnameConfiguration => bs "KIN-NRS-006"
  | Nrs_TxtRecordTooLong => bs "KIN-NRS-007"
  | Nrs_InvalidCnameTarget => bs "KIN-NRS-008"
  | Nrs_InvalidPeerId => bs "KIN-NRS-009"
  | Nrs_InvalidKid => bs "KIN-NRS-010"
  | Nrs_InvalidIpfsCid => bs "KIN-NRS-011"
  | Nrs_InvalidSignature => bs "KIN-NRS-012"
  | Nrs_UpstreamResolveError => bs "KIN-NRS-050"
  | Nrs_DnsRequestFailed => bs "KIN-NRS-051"
  | Nrs_NrsServerExecutionError => bs "KIN-NRS-052"
  | Nrs_SeedDomainResolutionFailed => bs "KIN-NRS-053"
  | Nrs_DnsResolverInitFailed => bs "KIN-NRS-054"
  | Nrs_DnsLookupFailed => bs "KIN-NRS-055"
  | Nrs_Web2BridgeResolveFailed => bs "KIN-NRS-056"
  | Nrs_Web2BridgeNoIpsFound => bs "KIN-NRS-057"
  end.

Definition nrs_severity (e : NrsErrorKind) : Severity :=
  match e with
  | Nrs_NrsServerExecutionError | Nrs_DnsResolverInitFailed => SevError
  | Nrs_UpstreamResolveError | Nrs_DnsRequestFailed | Nrs_SeedDomainResolutionFailed | Nrs_DnsLookupFailed | Nrs_Web2BridgeResolveFailed | Nrs_Web2BridgeNoIpsFound => SevWarning
  | _ => SevWarning
  end.

Definition nrs_is_retryable (e : NrsErrorKind) : bool := match e with Nrs_UpstreamResolveError | Nrs_DnsRequestFailed | Nrs_SeedDomainResolutionFailed | Nrs_DnsLookupFailed | Nrs_Web2BridgeResolveFailed => true | _ => false end.

Definition nrs_api (e : NrsErrorKind) : ApiError :=
  let '(status, title) :=
    match e with
    | Nrs_TooManyRecords | Nrs_InvalidLabelLength | Nrs_InvalidLabelCharacters | Nrs_InvalidCnameConfiguration | Nrs_TxtRecordTooLong | Nrs_InvalidCnameTarget | Nrs_InvalidPeerId | Nrs_InvalidKid | Nrs_InvalidIpfsCid | Nrs_ParseError | Nrs_InvalidSignature | Nrs_MultipleCnames => (400, bs "Bad Request")
    | Nrs_UpstreamResolveError | Nrs_DnsRequestFailed | Nrs_NrsServerExecutionError | Nrs_SeedDomainResolutionFailed | Nrs_DnsResolverInitFailed | Nrs_DnsLookupFailed | Nrs_Web2BridgeResolveFailed | Nrs_Web2BridgeNoIpsFound => (502, bs "Bad Gateway")
    end in
  MkApiError (uri DOCS_URL (nrs_code e)) title status (nrs_code e) (nrs_is_retryable e).

(** [kinetic-core/src/error/identity.rs] *)
Inductive IdentityErrorKind :=
  | Idn_Io
  | Idn_CorruptedIdentityFile
  | Idn_IdentityNotFound
  | Idn_InvalidSeedPhrase
  | Idn_DecryptionFailed
  | Idn_KidAlreadyExists
  | Idn_KidNotFound
  | Idn_InvalidRotation
  | Idn_KidSigningFailed
  | Idn_InvalidDid
  | Idn_KidDeactivated
  | Idn_MalformedDocument
  | Idn_MalformedApexDocument
  | Idn_MalformedManifest
  | Idn_SerializationFailed
  | Idn_ManifestSigningFailed
  | Idn_KidPrivateKeyNotFound
  | Idn_PubkeyMismatch.

Definition identity_code (e : IdentityErrorKind) : bytes :=
  match e with
  | Idn_Io => bs "KIN-IDN-001"
  | Idn_CorruptedIdentityFile => bs "KIN-IDN-002"
  | Idn_IdentityNotFound => bs "KIN-IDN-003"
  | Idn_InvalidSeedPhrase => bs "KIN-IDN-004"
  | Idn_DecryptionFailed => bs "KIN-IDN-005"
  | Idn_KidAlreadyExists => bs "KIN-IDN-006"
  | Idn_KidNotFound => bs "KIN-IDN-007"
  | Idn_InvalidRotation => bs "KIN-IDN-008"
  | Idn_KidSigningFailed => bs "KIN-IDN-009"
  | Idn_InvalidDid => bs "KIN-IDN-010"
  | Idn_KidDeactivated => bs "KIN-IDN-011"
  | Idn_MalformedDocument => bs "KIN-IDN-012"
  | Idn_MalformedApexDocument => bs "KIN-IDN-013"
  | Idn_MalformedManifest => bs "KIN-IDN-014"
  | Idn_SerializationFailed => bs "KIN-IDN-015"
  | Idn_ManifestSigningFailed => bs "KIN-IDN-016"
  | Idn_KidPrivateKeyNotFound => bs "KIN-IDN-017"
  | Idn_PubkeyMismatch => bs "KIN-IDN-018"
  end.

Definition identity_severity (e : IdentityErrorKind) : Severity :=
  match e with
  | Idn_Io | Idn_CorruptedIdentityFile | Idn_IdentityNotFound | Idn_DecryptionFailed | Idn_InvalidRotation | Idn_KidSigningFailed | Idn_InvalidDid | Idn_MalformedDocument | Idn_MalformedApexDocument | Idn_MalformedManifest | Idn_SerializationFailed | Idn_ManifestSigningFailed => SevError
  | Idn_InvalidSeedPhrase | Idn_KidAlreadyExists | Idn_KidNotFound | Idn_KidDeactivated | Idn_KidPrivateKeyNotFound | Idn_PubkeyMismatch => SevWarning
  end.

Definition identity_is_retryable (e : IdentityErrorKind) : bool := false.

Definition identity_api (e : IdentityErrorKind) : ApiError :=
  let '(status, title) :=
    match e with
    | Idn_Io | Idn_CorruptedIdentityFile | Idn_KidSigningFailed => (500, bs "Internal Server Error")
    | Idn_IdentityNotFound | Idn_KidNotFound => (404, bs "Not Found")
    | Idn_InvalidSeedPhrase | Idn_InvalidDid => (400, bs "Bad Request")
    | Idn_DecryptionFailed => (401, bs "Unauthorized")
    | Idn_KidAlreadyExists => (409, bs "Conflict")
    | Idn_PubkeyMismatch => (409, bs "Conflict")
    | Idn_InvalidRotation => (422, bs "Unprocessable Entity")
    | Idn_KidDeactivated => (410, bs "Gone")
    | Idn_SerializationFailed | Idn_ManifestSigningFailed => (500, bs "Internal Server Error")
    | Idn_MalformedDocument | Idn_MalformedApexDocument | Idn_MalformedManifest => (422, bs "Unprocessable Entity")
    | Idn_KidPrivateKeyNotFound => (404, bs "Not Found")
    end in
  MkApiError (uri DOCS_URL (identity_code e)) title status (identity_code e) (identity_is_retryable e).

(** [kinetic-core/src/error/names.rs] *)
Inductive NamesErrorKind :=
  | Nam_NameTooLong
  | Nam_LabelTooLong
  | Nam_EmptyLabel
  | Nam_InvalidCharacter
  | Nam_InvalidHyphenPlacement
  | Nam_ReservedName
  | Nam_NotAnApexName.

Definition names_code (e : NamesErrorKind) : bytes :=
  match e with
  | Nam_NameTooLong => bs "KIN-NAM-001"
  | Nam_LabelTooLong => bs "KIN-NAM-002"
  | Nam_EmptyLabel => bs "KIN-NAM-003"
  | Nam_InvalidCharacter => bs "KIN-NAM-004"
  | Nam_InvalidHyphenPlacement => bs "KIN-NAM-005"
  | Nam_ReservedName => bs "KIN-NAM-006"
  | Nam_NotAnApexName => bs "KIN-NAM-008"
  end.

Definition names_severity (e : NamesErrorKind) : Severity := SevWarning.

Definition names_is_retryable (e : NamesErrorKind) : bool := false.

Definition names_api (e : NamesErrorKind) : ApiError :=
  MkApiError (uri DOCS_URL (names_code e)) (bs "Invalid Name") 400 (names_code e) (names_is_retryable e).

(** [kinetic-core/src/error/config.rs] *)
Inductive ConfigErrorKind :=
  | Cfg_DirectoryCreationFailed
  | Cfg_SerializationFailed
  | Cfg_WriteFailed
  | Cfg_ParseFailed
  | Cfg_ReadFailed
  | Cfg_TcpPortCollision
  | Cfg_UdpPortCollision
  | Cfg_BackendPortCollision
  | Cfg_BackendPortSsrfRisk
  | Cfg_InvalidApiUpdate.

Definition config_code (e : ConfigErrorKind) : bytes :=
  match e with
  | Cfg_DirectoryCreationFailed => bs "KIN-CFG-001"
  | Cfg_SerializationFailed => bs "KIN-CFG-002"
  | Cfg_WriteFailed => bs "KIN-CFG-003"
  | Cfg_ParseFailed => bs "KIN-CFG-004"
  | Cfg_ReadFailed => bs "KIN-CFG-005"
  | Cfg_TcpPortCollision => bs "KIN-CFG-006"
  | Cfg_UdpPortCollision => bs "KIN-CFG-007"
  | Cfg_BackendPortCollision => bs "KIN-CFG-008"
  | Cfg_BackendPortSsrfRisk => bs "KIN-CFG-009"
  | Cfg_InvalidApiUpdate => bs "KIN-CFG-010"
  end.

Definition config_severity (e : ConfigErrorKind) : Severity := SevError.

Definition config_api (e : ConfigErrorKind) : ApiError :=
  let '(status, title) :=
    match e with
    | Cfg_InvalidApiUpdate => (400, bs "Bad Request")
    | _ => (500, bs "Internal Configuration Error")
    end in
  MkApiError (uri DOCS_URL (config_code e)) title status (config_code e) (false).

(** [kinetic-core/src/error/vdf.rs] *)
Inductive RevealValidationErrorKind :=
  | Rvl_InvalidProtocolVersion
  | Rvl_InvalidName (e : NamesErrorKind)
  | Rvl_PayloadTooLarge
  | Rvl_InvalidBeaconSignatureLength
  | Rvl_InvalidPubkeyLength
  | Rvl_InvalidSignatureLength
  | Rvl_VdfProofTooLarge.

Definition reveal_code (e : RevealValidationErrorKind) : bytes :=
  match e with
  | Rvl_InvalidProtocolVersion => bs "KIN-RVL-001"
  | Rvl_InvalidName err => names_code err
  | Rvl_PayloadTooLarge => bs "KIN-RVL-002"
  | Rvl_InvalidBeaconSignatureLength => bs "KIN-RVL-003"
  | Rvl_InvalidPubkeyLength => bs "KIN-RVL-004"
  | Rvl_InvalidSignatureLength => bs "KIN-RVL-005"
  | Rvl_VdfProofTooLarge => bs "KIN-RVL-006"
  end.

Definition reveal_severity (e : RevealValidationErrorKind) : Severity :=
  match e with
  | Rvl_InvalidName _ => SevWarning
  | _ => SevError
  end.

Definition reveal_is_retryable (e : RevealValidationErrorKind) : bool := false.

Definition reveal_api (e : RevealValidationErrorKind) : ApiError :=
  MkApiError (uri DOCS_URL (reveal_code e)) (bs "Invalid Reveal") 400 (reveal_code e) (false).

(** [kinetic-core/src/error/api.rs] *)
Inductive RestApiErrorKind :=
  | Api_InvalidToken
  | Api_SseStreamLagged
  | Api_ResponseTooLarge
  | Api_InsufficientPrivileges
  | Api_NotFound
  | Api_BadRequest
  | Api_InternalServerError.

Definition rest_api_code (e : RestApiErrorKind) : bytes :=
  match e with
  | Api_InvalidToken => bs "KIN-API-001"
  | Api_SseStreamLagged => bs "KIN-API-002"
  | Api_ResponseTooLarge => bs "KIN-API-003"
  | Api_InsufficientPrivileges => bs "KIN-API-004"
  | Api_NotFound => bs "KIN-API-005"
  | Api_BadRequest => bs "KIN-API-006"
  | Api_InternalServerError => bs "KIN-API-007"
  end.

Definition rest_api_status (e : RestApiErrorKind) : Z :=
  match e with
  | Api_InvalidToken => 401
  | Api_InsufficientPrivileges => 403
  | Api_NotFound => 404
  | Api_BadRequest => 400
  | Api_SseStreamLagged | Api_ResponseTooLarge | Api_InternalServerError => 500
  end.

Definition rest_api_api (e : RestApiErrorKind) : ApiError :=
  let title :=
    match e with
    | Api_InvalidToken => bs "Unauthorized"
    | Api_InsufficientPrivileges => bs "Forbidden"
    | Api_NotFound => bs "Not Found"
    | Api_BadRequest => bs "Bad Request"
    | Api_SseStreamLagged => bs "SSE Lagged"
    | Api_ResponseTooLarge => bs "Payload Too Large"
    | Api_InternalServerError => bs "Internal Server Error"
    end in
  MkApiError (uri DOCS_URL (rest_api_code e)) title (rest_api_status e) (rest_api_code e) (false).

(** [kinetic-core/src/error/system.rs] *)
Inductive SystemErrorKind :=
  | Sys_PortInUse
  | Sys_NetworkHotswapFailed
  | Sys_ServerCrashed
  | Sys_IdentityCorrupted
  | Sys_KeychainStorageFailed
  | Sys_DiskPersistenceFailed
  | Sys_ServiceManagerError
  | Sys_InvalidOsEnvironment
  | Sys_PrivilegeDropFailed
  | Sys_LoopbackSetupFailed
  | Sys_MutexPoisoned
  | Sys_TrustInstallationFailed
  | Sys_CaRotationFailed
  | Sys_CaInitFailed
  | Sys_SigIntBindingFailed
  | Sys_SigTermBindingFailed.

Definition system_code (e : SystemErrorKind) : bytes :=
  match e with
  | Sys_PortInUse => bs "KIN-SYS-001"
  | Sys_NetworkHotswapFailed => bs "KIN-SYS-002"
  | Sys_ServerCrashed => bs "KIN-SYS-003"
  | Sys_IdentityCorrupted => bs "KIN-SYS-004"
  | Sys_KeychainStorageFailed => bs "KIN-SYS-005"
  | Sys_DiskPersistenceFailed => bs "KIN-SYS-006"
  | Sys_ServiceManagerError => bs "KIN-SYS-007"
  | Sys_InvalidOsEnvironment => bs "KIN-SYS-008"
  | Sys_PrivilegeDropFailed => bs "KIN-SYS-009"
  | Sys_LoopbackSetupFailed => bs "KIN-SYS-010"
  | Sys_MutexPoisoned => bs "KIN-SYS-011"
  | Sys_TrustInstallationFailed => bs "KIN-SYS-012"
  | Sys_CaRotationFailed => bs "KIN-SYS-013"
  | Sys_CaInitFailed => bs "KIN-SYS-016"
  | Sys_SigIntBindingFailed => bs "KIN-SYS-014"
  | Sys_SigTermBindingFailed => bs "KIN-SYS-015"
  end.

Definition system_severity (e : SystemErrorKind) : Severity :=
  match e with
  | Sys_PortInUse => SevWarning
  | Sys_CaRotationFailed => SevWarning
  | Sys_KeychainStorageFailed => SevWarning
  | Sys_TrustInstallationFailed => SevWarning
  | Sys_LoopbackSetupFailed => SevWarning
  | Sys_SigIntBindingFailed => SevWarning
  | Sys_SigTermBindingFailed => SevWarning
  | Sys_NetworkHotswapFailed => SevCritical
  | Sys_ServerCrashed => SevCritical
  | Sys_IdentityCorrupted => SevCritical
  | Sys_DiskPersistenceFailed => SevCritical
  | Sys_ServiceManagerError => SevCritical
  | Sys_InvalidOsEnvironment => SevCritical
  | Sys_PrivilegeDropFailed => SevCritical
  | Sys_MutexPoisoned => SevCritical
  | Sys_CaInitFailed => SevCritical
  end.

Definition system_is_retryable (e : SystemErrorKind) : bool := match e with Sys_PortInUse | Sys_NetworkHotswapFailed => true | _ => false end.

Definition system_api (e : SystemErrorKind) : ApiError :=
  let '(status, title) :=
    match e with
    | Sys_PortInUse => (503, bs "Service Unavailable")
    | _ => (500, bs "Internal Server Error")
    end in
  MkApiError (uri DOCS_URL (system_code e)) title status (system_code e) (system_is_retryable e).

(** Every error that reaches the API. *)
Inductive AnyError :=
  | AnyResolution (e : ResolutionErrorKind)
  | AnyPublish (e : PublishErrorKind)
  | AnyRegistration (e : RegistrationErrorKind)
  | AnyAction (e : ActionErrorKind)
  | AnyNetworkClient (e : NetworkClientErrorKind)
  | AnyStorage (e : StorageErrorKind)
  | AnyVdf (e : VdfErrorKind)
  | AnyKynProvider (e : KynProviderErrorKind)
  | AnyP2p (e : P2pErrorKind)
  | AnyNrs (e : NrsErrorKind)
  | AnyIdentity (e : IdentityErrorKind)
  | AnyNames (e : NamesErrorKind)
  | AnyConfig (e : ConfigErrorKind)
  | AnyReveal (e : RevealValidationErrorKind)
  | AnyRestApi (e : RestApiErrorKind)
  | AnySystem (e : SystemErrorKind).

(** [ApiError::from] *)
Definition api_error (e : AnyError) : ApiError :=
  match e with
  | AnyResolution e => resolution_api e
  | AnyPublish e => publish_api e
  | AnyRegistration e => registration_api e
  | AnyAction e => action_api e
  | AnyNetworkClient e => network_client_api e
  | AnyStorage e => storage_api e
  | AnyVdf e => vdf_api e
  | AnyKynProvider e => kyn_provider_api e
  | AnyP2p e => p2p_api e
  | AnyNrs e => nrs_api e
  | AnyIdentity e => identity_api e
  | AnyNames e => names_api e
  | AnyConfig e => config_api e
  | AnyReveal e => reveal_api e
  | AnyRestApi e => rest_api_api e
  | AnySystem e => system_api e
  end.

(** All of them. *)
Definition all_names : list NamesErrorKind := [Nam_NameTooLong; Nam_LabelTooLong; Nam_EmptyLabel; Nam_InvalidCharacter; Nam_InvalidHyphenPlacement; Nam_ReservedName; Nam_NotAnApexName].
Definition all_errors : list AnyError :=
  map AnyResolution [Res_Offline; Res_NotFound; Res_VdfVerificationFailed; Res_Expired; Res_Timeout; Res_Internal; Res_SignatureVerificationFailed] ++
  map AnyPublish [Pub_Offline; Pub_InvalidProof; Pub_AlreadyOwned; Pub_AllFailed; Pub_Rejected; Pub_Internal; Pub_QuorumFailed; Pub_QuorumCheckError; Pub_ZonePublishFailed; Pub_CommitmentQuorumFailed; Pub_CommitmentQuorumCheckError; Pub_CommitmentPublishFailed; Pub_MissingLocalRevealForKid; Pub_MissingLocalRevealForManifest; Pub_ZoneSerializationFailed; Pub_HostRoutePublishFailed; Pub_KidPublishFailed; Pub_ManifestPublishFailed] ++
  map AnyRegistration [Reg_InvalidName; Reg_VdfFailed; Reg_CommitmentMismatch; Reg_AlreadyOwned; Reg_AlreadyInProgress; Reg_NetworkRejected; Reg_Internal; Reg_NotRegisteredLocal] ++
  map AnyAction [Act_MissingSovereignKey; Act_MalformedSovereignKey; Act_KeyLengthMismatch; Act_StaleProposal; Act_AlreadyExecuted; Act_ActionDisabled; Act_InvalidSignature; Act_StateSaveFailed; Act_P2pPublishFailed; Act_InvalidSeedState; Act_StateCorrupted; Act_StateReadFailed; Act_BootstrapFetchFailed] ++
  map AnyNetworkClient [Cli_Timeout; Cli_Offline; Cli_RoutingTableEmpty; Cli_ChannelClosed; Cli_GossipSubError; Cli_Other] ++
  map AnyStorage [Sto_DatabaseLocked; Sto_Corruption; Sto_ReadFailed; Sto_WriteFailed; Sto_DeleteFailed; Sto_ScanFailed; Sto_OpenFailed; Sto_DeserializationFailed; Sto_InvalidRecordDiscarded; Sto_UnreferencedHeartbeatPurged] ++
  map AnyVdf [Vdf_LockFileError; Vdf_LockAcquireError; Vdf_DiscriminantError; Vdf_ProofGenerationError; Vdf_UnsupportedPlatform; Vdf_InvalidProof; Vdf_InvalidChallenge; Vdf_MaxIterationsExceeded; Vdf_TooManyTasks] ++
  map AnyKynProvider [Kyn_AllEndpointsFailed; Kyn_HttpError; Kyn_NoCachedKyn; Kyn_Serde; Kyn_Storage; Kyn_HttpClient; Kyn_InvalidSignature; Kyn_StaleKyn; Kyn_StreamReadFailed; Kyn_ResponseTooLarge; Kyn_UnavailableOnStartup; Kyn_P2pFallbackTriggered; Kyn_DevModeMockKyn; Kyn_RegistrationDisabled; Kyn_LiveFetchFailedFallback] ++
  map AnyP2p [P2p_UnroutableSeedMultiaddr; P2p_ZeroPeersDetected; P2p_GossipSpamBan; P2p_RecordSpamBan; P2p_OfflineVerifyQuorum; P2p_MdnsBindFailed; P2p_GossipSemaphoreSaturated; P2p_KademliaRecordSpamBan; P2p_OutgoingConnectionError; P2p_BootstrapDialFailed; P2p_BannedPeerConnectionAttempt; P2p_BootstrapChallengeTimeout; P2p_PeerRegistryCorruption; P2p_PeerRegistrySerialization] ++
  map AnyNrs [Nrs_ParseError; Nrs_InvalidSignature; Nrs_TooManyRecords; Nrs_InvalidLabelLength; Nrs_InvalidLabelCharacters; Nrs_InvalidCnameConfiguration; Nrs_TxtRecordTooLong; Nrs_InvalidCnameTarget; Nrs_InvalidPeerId; Nrs_InvalidKid; Nrs_InvalidIpfsCid; Nrs_MultipleCnames; Nrs_UpstreamResolveError; Nrs_DnsRequestFailed; Nrs_NrsServerExecutionError; Nrs_SeedDomainResolutionFailed; Nrs_DnsResolverInitFailed; Nrs_DnsLookupFailed; Nrs_Web2BridgeResolveFailed; Nrs_Web2BridgeNoIpsFound] ++
  map AnyIdentity [Idn_Io; Idn_CorruptedIdentityFile; Idn_IdentityNotFound; Idn_InvalidSeedPhrase; Idn_DecryptionFailed; Idn_KidAlreadyExists; Idn_KidNotFound; Idn_InvalidRotation; Idn_KidSigningFailed; Idn_InvalidDid; Idn_KidDeactivated; Idn_MalformedDocument; Idn_MalformedApexDocument; Idn_MalformedManifest; Idn_SerializationFailed; Idn_ManifestSigningFailed; Idn_KidPrivateKeyNotFound; Idn_PubkeyMismatch] ++
  map AnyNames all_names ++
  map AnyConfig [Cfg_DirectoryCreationFailed; Cfg_SerializationFailed; Cfg_WriteFailed; Cfg_ParseFailed; Cfg_ReadFailed; Cfg_TcpPortCollision; Cfg_UdpPortCollision; Cfg_BackendPortCollision; Cfg_BackendPortSsrfRisk; Cfg_InvalidApiUpdate] ++
  map AnyReveal (map Rvl_InvalidName all_names ++ [Rvl_InvalidProtocolVersion; Rvl_PayloadTooLarge; Rvl_InvalidBeaconSignatureLength; Rvl_InvalidPubkeyLength; Rvl_InvalidSignatureLength; Rvl_VdfProofTooLarge]) ++
  map AnyRestApi [Api_InvalidToken; Api_SseStreamLagged; Api_ResponseTooLarge; Api_InsufficientPrivileges; Api_NotFound; Api_BadRequest; Api_InternalServerError] ++
  map AnySystem [Sys_PortInUse; Sys_NetworkHotswapFailed; Sys_ServerCrashed; Sys_IdentityCorrupted; Sys_KeychainStorageFailed; Sys_DiskPersistenceFailed; Sys_ServiceManagerError; Sys_InvalidOsEnvironment; Sys_PrivilegeDropFailed; Sys_LoopbackSetupFailed; Sys_MutexPoisoned; Sys_TrustInstallationFailed; Sys_CaRotationFailed; Sys_CaInitFailed; Sys_SigIntBindingFailed; Sys_SigTermBindingFailed].

(** ** The errors of the components

    The components that return these errors have types of their own, with what
    the text says; their kinds are the ones above. *)
Definition names_kind (e : NamesError) : NamesErrorKind :=
  match e with
  | Names.NameTooLong => Nam_NameTooLong
  | Names.LabelTooLong => Nam_LabelTooLong
  | Names.EmptyLabel => Nam_EmptyLabel
  | Names.InvalidCharacter => Nam_InvalidCharacter
  | Names.InvalidHyphenPlacement => Nam_InvalidHyphenPlacement
  | Names.ReservedName => Nam_ReservedName
  | Names.NotAnApexName => Nam_NotAnApexName
  end.
Definition vdf_kind (e : VdfError) : VdfErrorKind :=
  match e with
  | RsaVdf.LockFileError _ => Vdf_LockFileError
  | RsaVdf.LockAcquireError _ => Vdf_LockAcquireError
  | RsaVdf.DiscriminantError => Vdf_DiscriminantError
  | RsaVdf.ProofGenerationError => Vdf_ProofGenerationError
  | RsaVdf.UnsupportedPlatform => Vdf_UnsupportedPlatform
  | RsaVdf.InvalidProof => Vdf_InvalidProof
  | RsaVdf.InvalidChallenge => Vdf_InvalidChallenge
  | RsaVdf.MaxIterationsExceeded => Vdf_MaxIterationsExceeded
  | RsaVdf.TooManyTasks => Vdf_TooManyTasks
  end.
Definition action_kind (e : ActionError) : ActionErrorKind :=
  match e with
  | Action.MissingSovereignKey => Act_MissingSovereignKey
  | Action.MalformedSovereignKey => Act_MalformedSovereignKey
  | Action.KeyLengthMismatch => Act_KeyLengthMismatch
  | Action.StaleProposal => Act_StaleProposal
  | Action.AlreadyExecuted => Act_AlreadyExecuted
  | Action.ActionDisabled => Act_ActionDisabled
  | Action.ActInvalidSignature => Act_InvalidSignature
  | Action.StateSaveFailed => Act_StateSaveFailed
  | Action.P2pPublishFailed => Act_P2pPublishFailed
  | Action.InvalidSeedState => Act_InvalidSeedState
  | Action.StateCorrupted => Act_StateCorrupted
  | Action.StateReadFailed => Act_StateReadFailed
  | Action.BootstrapFetchFailed => Act_BootstrapFetchFailed
  end.
Definition identity_kind (e : IdentityError) : IdentityErrorKind :=
  match e with
  | KidManager.IeIo => Idn_Io
  | KidManager.IeCorruptedIdentityFile => Idn_CorruptedIdentityFile
  | KidManager.IeIdentityNotFound => Idn_IdentityNotFound
  | KidManager.IeInvalidSeedPhrase => Idn_InvalidSeedPhrase
  | KidManager.IeDecryptionFailed => Idn_DecryptionFailed
  | KidManager.IeKidAlreadyExists _ => Idn_KidAlreadyExists
  | KidManager.IeKidNotFound => Idn_KidNotFound
  | KidManager.IeInvalidRotation => Idn_InvalidRotation
  | KidManager.IeKidSigningFailed => Idn_KidSigningFailed
  | KidManager.IeInvalidDid => Idn_InvalidDid
  | KidManager.IeKidDeactivated _ => Idn_KidDeactivated
  | KidManager.IeMalformedDocument => Idn_MalformedDocument
  | KidManager.IeMalformedApexDocument => Idn_MalformedApexDocument
  | KidManager.IeMalformedManifest => Idn_MalformedManifest
  | KidManager.IeSerializationFailed => Idn_SerializationFailed
  | KidManager.IeManifestSigningFailed => Idn_ManifestSigningFailed
  | KidManager.IeKidPrivateKeyNotFound => Idn_KidPrivateKeyNotFound
  | KidManager.IePubkeyMismatch => Idn_PubkeyMismatch
  end.
Definition kyn_provider_kind (e : KynProviderError) : KynProviderErrorKind :=
  match e with
  | Oracle.AllEndpointsFailed => Kyn_AllEndpointsFailed
  | Oracle.HttpError _ => Kyn_HttpError
  | Oracle.NoCachedKyn => Kyn_NoCachedKyn
  | Oracle.KpSerde => Kyn_Serde
  | Oracle.KpStorage _ => Kyn_Storage
  | Oracle.HttpClient => Kyn_HttpClient
  | Oracle.KpInvalidSignature => Kyn_InvalidSignature
  | Oracle.StaleKyn _ _ => Kyn_StaleKyn
  | Oracle.StreamReadFailed => Kyn_StreamReadFailed
  | Oracle.ResponseTooLarge _ => Kyn_ResponseTooLarge
  | Oracle.UnavailableOnStartup => Kyn_UnavailableOnStartup
  | Oracle.P2pFallbackTriggered _ => Kyn_P2pFallbackTriggered
  | Oracle.DevModeMockKyn => Kyn_DevModeMockKyn
  | Oracle.RegistrationDisabled => Kyn_RegistrationDisabled
  | Oracle.LiveFetchFailedFallback => Kyn_LiveFetchFailedFallback
  end.
Definition storage_kind (e : StorageError) : StorageErrorKind :=
  match e with
  | Storage.DatabaseLocked => Sto_DatabaseLocked
  | Storage.Corruption _ => Sto_Corruption
  | Storage.ReadFailed _ => Sto_ReadFailed
  | Storage.WriteFailed _ => Sto_WriteFailed
  | Storage.DeleteFailed _ => Sto_DeleteFailed
  | Storage.ScanFailed _ => Sto_ScanFailed
  | Storage.OpenFailed _ => Sto_OpenFailed
  | Storage.DeserializationFailed _ => Sto_DeserializationFailed
  | Storage.InvalidRecordDiscarded => Sto_InvalidRecordDiscarded
  | Storage.UnreferencedHeartbeatPurged => Sto_UnreferencedHeartbeatPurged
  end.

Lemma action_kind_agrees e :
  action_code (action_kind e) = bs (action_error_code e) /\ action_severity (action_kind e) = action_error_severity e /\
  action_is_retryable (action_kind e) = action_error_is_retryable e.
Proof. by destruct e. Qed.

Lemma identity_kind_agrees e :
  identity_code (identity_kind e) = bs (identity_error_code e) /\ identity_severity (identity_kind e) = identity_error_severity e /\
  identity_is_retryable (identity_kind e) = identity_error_is_retryable e.
Proof. by destruct e. Qed.

Lemma kyn_provider_kind_agrees e :
  kyn_provider_code (kyn_provider_kind e) = bs (kyn_error_code e) /\ kyn_provider_severity (kyn_provider_kind e) = kyn_error_severity e /\
  kyn_provider_is_retryable (kyn_provider_kind e) = kyn_error_is_retryable e.
Proof. by destruct e. Qed.

Lemma storage_kind_agrees e :
  storage_code (storage_kind e) = bs (storage_error_code e) /\ storage_severity (storage_kind e) = storage_error_severity e /\
  storage_is_retryable (storage_kind e) = storage_error_is_retryable e.
Proof. by destruct e. Qed.

(** ** What a client can rely on *)

#[export] Instance resolution_error_eq : EqDecision ResolutionErrorKind.
Proof. solve_decision. Defined.
#[export] Instance publish_error_eq : EqDecision PublishErrorKind.
Proof. solve_decision. Defined.
#[export] Instance registration_error_eq : EqDecision RegistrationErrorKind.
Proof. solve_decision. Defined.
#[export] Instance action_error_eq : EqDecision ActionErrorKind.
Proof. solve_decision. Defined.
#[export] Instance network_client_error_eq : EqDecision NetworkClientErrorKind.
Proof. solve_decision. Defined.
#[export] Instance storage_error_eq : EqDecision StorageErrorKind.
Proof. solve_decision. Defined.
#[export] Instance vdf_error_eq : EqDecision VdfErrorKind.
Proof. solve_decision. Defined.
#[export] Instance kyn_provider_error_eq : EqDecision KynProviderErrorKind.
Proof. solve_decision. Defined.
#[export] Instance p2p_error_eq : EqDecision P2pErrorKind.
Proof. solve_decision. Defined.
#[export] Instance nrs_error_eq : EqDecision NrsErrorKind.
Proof. solve_decision. Defined.
#[export] Instance identity_error_eq : EqDecision IdentityErrorKind.
Proof. solve_decision. Defined.
#[export] Instance names_error_eq : EqDecision NamesErrorKind.
Proof. solve_decision. Defined.
#[export] Instance config_error_eq : EqDecision ConfigErrorKind.
Proof. solve_decision. Defined.
#[export] Instance rest_api_error_eq : EqDecision RestApiErrorKind.
Proof. solve_decision. Defined.
#[export] Instance system_error_eq : EqDecision SystemErrorKind.
Proof. solve_decision. Defined.
#[export] Instance reveal_error_eq : EqDecision RevealValidationErrorKind.
Proof. solve_decision. Defined.
#[export] Instance any_error_eq : EqDecision AnyError.
Proof. solve_decision. Defined.

(** The list misses none. *)
Lemma all_errors_complete e : e ∈ all_errors.
Proof.
  assert (H : bool_decide (e ∈ all_errors) = true)
    by (destruct e as [e|e|e|e|e|e|e|e|e|e|e|e|e|e|e|e]; destruct e; try match goal with n : NamesErrorKind |- _ => destruct n end; vm_compute; reflexivity).
  by apply bool_decide_eq_true_1 in H.
Qed.

(** What a test of each error shows of all. *)
Lemma for_all_errors (test : AnyError -> bool) : forallb test all_errors = true -> forall e, test e = true.
Proof. intros Hall e. rewrite forallb_forall in Hall. apply Hall, list_elem_of_In, all_errors_complete. Qed.

(** The errors that are reported as another one: a failure of the client as the resolution's, an
    invalid name in a reveal as the name's. *)
Definition reported_as (e : AnyError) : AnyError :=
  match e with
  | AnyNetworkClient Cli_Timeout => AnyResolution Res_Timeout
  | AnyNetworkClient Cli_Offline | AnyNetworkClient Cli_RoutingTableEmpty => AnyResolution Res_Offline
  | AnyNetworkClient Cli_ChannelClosed => AnyResolution Res_Internal
  | AnyReveal (Rvl_InvalidName e) => AnyNames e
  | e => e
  end.

(** A code names one error.  Two errors have the same code in the API exactly when they are the same, or one is
    reported as the other. *)
Theorem api_code_identifies e1 e2 : error_code (api_error e1) = error_code (api_error e2) <-> reported_as e1 = reported_as e2.
Proof.
  assert (H : forall e1, forallb (fun e2 => Bool.eqb (bool_decide (error_code (api_error e1) = error_code (api_error e2)))
    (bool_decide (reported_as e1 = reported_as e2))) all_errors = true) by (apply for_all_errors; by vm_compute).
  pose proof (for_all_errors _ (H e1) e2) as E. cbn beta in E. apply eqb_prop in E.
  split; intros H'; rewrite (bool_decide_eq_true_2 _ H') in E; [symmetry in E|]; by apply bool_decide_eq_true_1 in E.
Qed.

(** What an answer says.  Every error is answered with a status of the client or the server but the mock kyn of the
    development mode, which is answered with success; and what may be tried again is a server's failure or
    the limit on tasks, but for a stale kyn and an action with an invalid signature, which are answered as bad requests.  Errors that
    are reported as others have their status and their retry flag. *)
Theorem api_answers e :
  let a := api_error e in
  (400 <= http_status a < 600 \/ (http_status a = 200 /\ e = AnyKynProvider Kyn_DevModeMockKyn)) /\
  (retryable a = true -> http_status a ∈ [429; 500; 502; 503; 504] \/
     e = AnyKynProvider Kyn_StaleKyn \/ e = AnyAction Act_InvalidSignature) /\
  retryable (api_error (reported_as e)) = retryable a /\ http_status (api_error (reported_as e)) = http_status a.
Proof.
  cbn zeta. match goal with |- ?P => apply (@bool_decide_eq_true_1 P _) end.
  revert e. apply for_all_errors. by vm_compute.
Qed.
