(* ===== verification/Pac.v ===== *)
(** * The proxy auto-configuration server ([kinetic-pac/src/main.rs])

    [PacManager] makes the operating system fetch its proxy rules from this
    server and puts the previous settings back; a lock file holds these
    meanwhile.  The system's settings are changed through the
    [ProxyConfigurator] interface, and every state the files and the settings
    pass through is kept ([Traced]), since the server may be stopped anywhere.
    Then the script it serves.  What each operation of the file system does,
    the HTTP client and JSON are arguments or interfaces. *)
From Stdlib Require Import String.
From S2P Require Import Prelude Traced Bytes Net DnsTree Proxy.
#[local] Open Scope Z_scope.

(** ** Saved settings *)

(** The macOS field maps a network service to its script's address. *)
Record SavedState := MkSaved {
  previous_pac_url : option bytes;
  proxy_type : option bytes;
  macos_services : option (gmap bytes bytes) }.

Inductive PacError := PeIo | PeSerde | PeCommand.

#[export] Instance saved_state_eq : EqDecision SavedState.
Proof. solve_decision. Defined.

(** [trait ProxyConfigurator], over the state [W] of the operating system.
    Each command an operation runs is a step. *)
Record ProxyConfigurator (W : Type) := MkConfigurator {
  cf_install : bytes -> Traced W (Result PacError unit);
  cf_uninstall : Traced W (Result PacError unit);
  cf_save_state : Traced W (Result PacError SavedState);
  cf_restore_state : SavedState -> Traced W (Result PacError unit) }.
Arguments MkConfigurator {W}.
Arguments cf_install {W}.
Arguments cf_uninstall {W}.
Arguments cf_save_state {W}.
Arguments cf_restore_state {W}.

Definition FallbackConfigurator {W} : ProxyConfigurator W :=
  MkConfigurator (fun _ => mret (Ok tt)) (mret (Ok tt)) (mret (Ok (MkSaved None None None))) (fun _ => mret (Ok tt)).

(** [serde_json::to_writer] and [from_reader] at [SavedState].  A Rust string
    is valid Unicode, so every value has a text. *)
Class SavedStateJson := {
  saved_to_json : SavedState -> bytes;
  saved_from_json : bytes -> option SavedState }.
Class SavedStateJsonLaws `{SavedStateJson} :=
  saved_json_round s : saved_from_json (saved_to_json s) = Some s.

(** ** [PacManager] *)

(** The files of the manager's directory: [pac_router.lock],
    [pac_router.tmp] and [original_pac.js]. *)
Record PacFiles := MkPacFiles {
  lock_file : option bytes;
  lock_tmp : option bytes;
  original_js : option bytes }.

Record PacState (W : Type) := MkPac { pac_os : W; pac_files : PacFiles }.
Arguments MkPac {W}.
Arguments pac_os {W}.
Arguments pac_files {W}.

Definition set_os {W} (w : W) (p : PacState W) : PacState W := MkPac w (pac_files p).
Definition set_lock {W} (l : option bytes) (p : PacState W) : PacState W :=
  let f := pac_files p in MkPac (pac_os p) (MkPacFiles l (lock_tmp f) (original_js f)).
Definition set_tmp {W} (t : option bytes) (p : PacState W) : PacState W :=
  let f := pac_files p in MkPac (pac_os p) (MkPacFiles (lock_file f) t (original_js f)).
Definition set_js {W} (j : option bytes) (p : PacState W) : PacState W :=
  let f := pac_files p in MkPac (pac_os p) (MkPacFiles (lock_file f) (lock_tmp f) j).

(** What the file system and the HTTP client do during one operation: whether
    the lock file can be read, the temporary file created, what of the text
    reaches it, whether it can be renamed, whether files can be removed, what
    is left of the script when it is written, the text at an address and at a
    local path. *)
Record PacIo := MkPacIo {
  lock_opens : bool;
  tmp_creates : bool;
  json_left : bytes -> bytes;
  lock_renames : bool;
  removes : bool;
  js_left : bytes -> option bytes;
  http_get : bytes -> option bytes;
  read_local : bytes -> option bytes }.

(** The port of this server, by which its address is recognised. *)
Definition PAC_PORT_TEXT : bytes := bs "16001".
Definition PAC_URL : bytes := bs "http://127.0.0.1:16001/proxy.pac".

Section Manager.
Context {W : Type} {HJson : SavedStateJson} (configurator : ProxyConfigurator W) (io : PacIo).

Definition on_os {A} (m : Traced W A) : Traced (PacState W) A := zoom pac_os set_os m.

(** The settings the lock file holds, when it can be read. *)
Definition read_lock (p : PacState W) : option SavedState :=
  if lock_opens io then lock_file (pac_files p) ≫= saved_from_json else None.

(** The temporary file is created, written and renamed; only its creation
    decides whether there is a lock file. *)
Definition write_lock (previous : SavedState) : Traced (PacState W) unit :=
  if tmp_creates io then
    modify (set_tmp (Some []));;
    modify (set_tmp (Some (json_left io (saved_to_json previous))));;
    if lock_renames io then modify (fun p => set_lock (lock_tmp (pac_files p)) (set_tmp None p)) else mret tt
  else mret tt.

(** The text of the previous script. *)
Definition original_script (old_url : bytes) : option bytes :=
  if starts_with (bs "http") old_url then http_get io old_url
  else if starts_with (bs "file://") old_url then read_local io (trim_start_matches (bs "file://") old_url)
  else None.

Definition backup_script (previous : SavedState) : Traced (PacState W) unit :=
  (if removes io then modify (set_js None) else mret tt);;
  match previous_pac_url previous ≫= original_script with
  | Some text => match js_left io text with Some rest => modify (set_js (Some rest)) | None => mret tt end
  | None => mret tt
  end.

Definition pac_install (pac_url : bytes) : Traced (PacState W) (Result PacError unit) :=
  saved ← look read_lock;
  match saved with
  | Some saved => on_os (cf_restore_state configurator saved);; mret tt
  | None => mret tt
  end;;
  previous ←? on_os (cf_save_state configurator);
  write_lock previous;;
  backup_script previous;;
  on_os (cf_install configurator pac_url).

(** The settings are no longer those of this server. *)
Definition os_was_tampered (current : SavedState) : bool :=
  match macos_services current with
  | Some services => bool_decide (services = ∅) || existsb (fun e => negb (contains PAC_PORT_TEXT e.2)) (map_to_list services)
  | None =>
      match previous_pac_url current with
      | Some current_pac => negb (contains PAC_PORT_TEXT current_pac)
      | None => true
      end
  end.

Definition remove_files : Traced (PacState W) unit :=
  if removes io then modify (set_js None);; modify (set_lock None);; modify (set_tmp None) else mret tt.

Definition pac_uninstall : Traced (PacState W) (Result PacError unit) :=
  locked ← look (fun p => bool_decide (is_Some (lock_file (pac_files p))));
  (if locked : bool then
     current ← on_os (cf_save_state configurator);
     saved ← look read_lock;
     (if match current with Ok c => os_was_tampered c | Err _ => false end then mret tt
      else match saved with
           | Some saved => on_os (cf_restore_state configurator saved);; mret tt
           | None => on_os (cf_uninstall configurator);; mret tt
           end);;
     remove_files
   else on_os (cf_uninstall configurator);; mret tt);;
  mret (Ok tt).

End Manager.

(** ** Any configurator *)

Section Plain.
Context {W : Type} {HJson : SavedStateJson} {HLaws : SavedStateJsonLaws} (configurator : ProxyConfigurator W) (saved : SavedState).
Implicit Types (p : PacState W) (io : PacIo).
Notation anywhere := (fun _ => True).

(** The lock file can be written and read; nothing is said of the other files. *)
Definition keeps_lock io : Prop :=
  lock_opens io = true /\ tmp_creates io = true /\ (forall text, json_left io text = text) /\ lock_renames io = true.

Definition unlocked p : Prop := lock_file (pac_files p) = None.
Definition locked p : Prop := lock_file (pac_files p) ≫= saved_from_json = Some saved.

Lemma on_os_safe {A} (m : Traced W A) (I : PacState W -> Prop) (J : W -> Prop) (P : A -> W -> Prop) (Q : A -> PacState W -> Prop) p :
  safe J m P (pac_os p) -> (forall w, J w -> I (set_os w p)) -> (forall a w, P a w -> Q a (set_os w p)) ->
  safe I (on_os m) Q p.
Proof. intros Hm HI HQ. apply safe_zoom. by eapply safe_weaken. Qed.

(** The script's file is no part of what is recovered. *)
Lemma set_js_safe j (P : PacState W -> Prop) p : (forall k q, P q -> P (set_js k q)) -> P p ->
  safe P (modify (set_js j)) (fun _ => P) p.
Proof. intros HP Hp. apply safe_modify; by apply HP. Qed.

Lemma backup_script_safe io st (P : PacState W -> Prop) p : (forall k q, P q -> P (set_js k q)) -> P p ->
  safe P (backup_script io st) (fun _ => P) p.
Proof.
  intros HP Hp. apply safe_bind, (safe_mono _ _ (fun _ => P)).
  { destruct (removes io); [by apply set_js_safe|by apply safe_ret]. }
  intros _ q Hq. destruct (previous_pac_url st ≫= original_script io) as [text|]; [|by apply safe_ret].
  destruct (js_left io text); [by apply set_js_safe|by apply safe_ret].
Qed.


(** A first installation, with a lock file or without. *)
Lemma fresh_install_safe io url p (A B : W -> Prop) :
  unlocked p -> safe anywhere (cf_save_state configurator) (fun r w => r = Ok saved /\ A w) (pac_os p) ->
  (forall w, A w -> safe anywhere (cf_install configurator url) (fun r w' => r = Ok tt /\ B w') w) ->
  safe anywhere (pac_install configurator io url)
    (fun r q => r = Ok tt /\ B (pac_os q) /\ (keeps_lock io -> locked q) /\ (tmp_creates io = false -> unlocked q)) p.
Proof.
  intros Hu Hs Hi. apply safe_bind, safe_look.
  replace (read_lock io p) with (@None SavedState) by (unfold read_lock; rewrite Hu; by destruct (lock_opens io)).
  apply safe_bind, safe_ret, safe_then. apply (on_os_safe _ _ anywhere _ _ _ Hs); [done|]. intros _ w [-> Hw].
  set (kept q := A (pac_os q) /\ (keeps_lock io -> locked q) /\ (tmp_creates io = false -> unlocked q)).
  apply safe_bind, (safe_mono _ _ (fun _ => kept)).
  { unfold write_lock. destruct (tmp_creates io) eqn:Hc.
    - do 2 (apply safe_bind, safe_modify; [done|]). destruct (lock_renames io) eqn:Hr.
      + apply safe_modify; [done|]. split; [done|]. split; [|done]. intros (_ & _ & Hj & _). unfold locked. cbn. rewrite Hj.
        apply saved_json_round.
      + apply safe_ret. split; [done|]. split; [|done]. intros (_ & _ & _ & Hr'). congruence.
    - apply safe_ret. split; [done|]. split; [|done]. intros (_ & Hc' & _). congruence. }
  intros _ q Hq. apply safe_bind. eapply safe_weaken; [by apply (backup_script_safe io saved kept)|done|].
  intros _ q2 (Ha & Hl & Hn). apply (on_os_safe _ _ anywhere _ _ _ (Hi _ Ha)); [done|]. by intros r w2 [-> Hb].
Qed.

(** An uninstallation with a lock file, by what the settings were found to be. *)
Lemma locked_uninstall_safe io p (A B : W -> Prop) st :
  locked p -> lock_opens io = true ->
  safe anywhere (cf_save_state configurator) (fun r w => r = Ok st /\ A w) (pac_os p) ->
  (forall w, A w -> if os_was_tampered st then B w else safe anywhere (cf_restore_state configurator saved) (fun _ w' => B w') w) ->
  safe anywhere (pac_uninstall configurator io)
    (fun r q => r = Ok tt /\ B (pac_os q) /\ (removes io = true -> pac_files q = MkPacFiles None None None)) p.
Proof.
  intros Hl Ho Hs Hr. apply safe_bind, safe_look.
  rewrite bool_decide_true by (unfold locked in Hl; destruct (lock_file _); by eauto).
  apply safe_bind, (safe_mono _ _ (fun _ q => B (pac_os q) /\ (removes io = true -> pac_files q = MkPacFiles None None None)));
    [|intros _ q ?; by apply safe_ret].
  apply safe_bind. apply (on_os_safe _ _ anywhere _ _ _ Hs); [done|]. intros _ w [-> Hw]. apply safe_bind, safe_look.
  unfold read_lock. rewrite Ho. change (lock_file (pac_files (set_os w p))) with (lock_file (pac_files p)). rewrite Hl.
  specialize (Hr w Hw). apply safe_bind, (safe_mono _ _ (fun _ q => B (pac_os q))).
  - destruct (os_was_tampered st); [by apply safe_ret|]. apply safe_bind.
    apply (on_os_safe _ _ anywhere _ _ (set_os w p) Hr); [done|]. intros _ w2 H2. by apply safe_ret.
  - intros _ q Hq. unfold remove_files. destruct (removes io); [|by apply safe_ret].
    do 2 (apply safe_bind, safe_modify; [done|]). by apply safe_modify.
Qed.
End Plain.

(** ** What the manager needs of a configurator

    [good] are the states with the settings that were [saved]; [ours] those
    with this server's, and [touched] all that an interrupted installation or
    restoration may leave.  From any of them restoring the saved settings gives
    a good state. *)
Class Restorable {W} (configurator : ProxyConfigurator W) (url : bytes) (saved : SavedState) := {
  good : W -> Prop;
  ours : W -> Prop;
  touched : W -> Prop;
  good_touched w : good w -> touched w;
  ours_touched w : ours w -> touched w;
  good_saved w : good w -> safe good (cf_save_state configurator) (fun r w' => r = Ok saved /\ good w') w;
  ours_saved w : ours w ->
    safe ours (cf_save_state configurator) (fun r w' => exists st, r = Ok st /\ os_was_tampered st = false /\ ours w') w;
  install_ours w : good w ->
    safe touched (cf_install configurator url) (fun r w' => touched w' /\ (r = Ok tt -> ours w')) w;
  restore_good w : touched w -> safe touched (cf_restore_state configurator saved) (fun _ w' => good w') w }.

Section Safety.
Context {W : Type} {HJson : SavedStateJson} {HLaws : SavedStateJsonLaws} (configurator : ProxyConfigurator W) (url : bytes)
  (saved : SavedState) {HR : Restorable configurator url saved}.
Implicit Types (p : PacState W) (io : PacIo).

(** What a stopped process leaves. *)
Definition recoverable p : Prop := (unlocked p /\ good (pac_os p)) \/ (locked saved p /\ touched (pac_os p)).
Definition installed p : Prop := locked saved p /\ ours (pac_os p).

Lemma write_lock_safe io p : keeps_lock io -> good (pac_os p) -> recoverable p ->
  safe recoverable (write_lock io saved) (fun _ q => locked saved q /\ good (pac_os q)) p.
Proof.
  intros (_ & Hc & Hj & Hr) Hg Hp. unfold write_lock. rewrite Hc. apply safe_bind, safe_modify; [done|].
  apply safe_bind, safe_modify; [done|]. rewrite Hr, Hj.
  assert (Hl : saved_from_json (saved_to_json saved) = Some saved) by apply saved_json_round.
  apply safe_modify; [right; split; [exact Hl|by apply good_touched]|by split].
Qed.

(** Any installation, wherever it starts, leaves what a next one can start
    from; one that ends well has installed the settings. *)
Lemma install_safe io p : keeps_lock io -> recoverable p ->
  safe recoverable (pac_install configurator io url) (fun r q => recoverable q /\ (r = Ok tt -> installed q)) p.
Proof.
  intros Hio Hp. apply safe_bind, safe_look. apply safe_bind, (safe_mono _ _ (fun _ q => recoverable q /\ good (pac_os q))).
  { unfold read_lock. rewrite (proj1 Hio). destruct Hp as [[Hu Hg]|[Hl Ht]].
    - rewrite Hu. apply safe_ret. split; [by left|done].
    - rewrite Hl. apply safe_bind. apply (on_os_safe _ _ touched (fun _ w => good w)); [by apply restore_good|by right|].
      intros _ w Hw. apply safe_ret. split; [right; split; [done|by apply good_touched]|done]. }
  clear p Hp. intros _ p [Hp Hg]. apply safe_then.
  apply (on_os_safe _ _ good (fun r w => r = Ok saved /\ good w)); [by apply good_saved| |].
  { intros w Hw. destruct Hp as [[Hu _]|[Hl _]]; [by left|right; split; [done|by apply good_touched]]. }
  intros _ w [-> Hw]. assert (Hq : recoverable (set_os w p)).
  { destruct Hp as [[Hu _]|[Hl _]]; [by left|right; split; [done|by apply good_touched]]. }
  apply safe_bind. eapply safe_mono; [by apply write_lock_safe|]. clear p w Hp Hg Hw Hq. intros _ p [Hl Hg].
  assert (Hs : safe recoverable (backup_script io saved) (fun _ q => locked saved q /\ good (pac_os q)) p).
  { eapply safe_weaken; [by apply (backup_script_safe io saved (fun q => locked saved q /\ good (pac_os q)))| |done].
    intros q [Hq Hq']. right. split; [done|by apply good_touched]. }
  apply safe_bind, (safe_mono _ _ _ _ _ Hs). clear p Hl Hg Hs. intros _ p [Hl Hg].
  apply (on_os_safe _ _ touched (fun r w => touched w /\ (r = Ok tt -> ours w))); [by apply install_ours|by right|].
  intros r w [Ht Ho]. split; [by right|]. intros Hr. split; [done|by apply Ho].
Qed.

(** Removing the files of a state with good settings keeps it recoverable. *)
Lemma remove_files_safe io p : locked saved p -> good (pac_os p) ->
  safe recoverable (remove_files io)
    (fun _ q => good (pac_os q) /\ (removes io = true -> pac_files q = MkPacFiles None None None)) p.
Proof.
  intros Hl Hg. unfold remove_files. destruct (removes io); [|by apply safe_ret].
  apply safe_bind, safe_modify; [right; split; [done|by apply good_touched]|].
  apply safe_bind, safe_modify; [by left|]. apply safe_modify; [by left|]. by split.
Qed.

(** Undoing an installation that ended well, stopped anywhere or not. *)
Lemma uninstall_safe io p : lock_opens io = true -> installed p ->
  safe recoverable (pac_uninstall configurator io)
    (fun r q => r = Ok tt /\ good (pac_os q) /\ (removes io = true -> pac_files q = MkPacFiles None None None)) p.
Proof.
  intros Hio [Hl Ho]. assert (Hk : forall w, touched w -> recoverable (set_os w p)) by (intros w Hw; by right).
  apply safe_bind, safe_look. rewrite bool_decide_true by (unfold locked in Hl; destruct (lock_file _); by eauto).
  apply safe_bind, (safe_mono _ _
    (fun _ q => good (pac_os q) /\ (removes io = true -> pac_files q = MkPacFiles None None None)));
    [|intros _ q ?; by apply safe_ret].
  apply safe_bind. apply (on_os_safe _ _ ours (fun r w => exists st, r = Ok st /\ os_was_tampered st = false /\ ours w));
    [by apply ours_saved|intros w Hw; by apply Hk, ours_touched|].
  intros _ w (st & -> & Hst & Hw). apply safe_bind, safe_look. rewrite Hst. unfold read_lock. rewrite Hio.
  change (lock_file (pac_files (set_os w p))) with (lock_file (pac_files p)). rewrite Hl.
  apply safe_bind, (safe_mono _ _ (fun _ q => locked saved q /\ good (pac_os q))); [|intros _ q []; by apply remove_files_safe].
  apply safe_bind. apply (on_os_safe _ _ touched (fun _ w => good w)); [by apply restore_good, ours_touched|by right|].
  intros _ w' Hw'. by apply safe_ret.
Qed.

(** ** Histories *)

(** Each run of the server is stopped after some of its steps. *)
Definition run_stopped p (run : PacIo * nat) : PacState W := stopped run.2 (pac_install configurator run.1 url) p.

Lemma runs_recoverable runs p : Forall (fun run => keeps_lock run.1) runs -> recoverable p ->
  recoverable (fold_left run_stopped runs p).
Proof.
  intros Hr. revert p. induction Hr as [|[io n] runs Hio Hr IH]; intros p Hp; [done|]. apply IH.
  apply (safe_stopped _ _ _ _ _ (install_safe io p Hio Hp) Hp). by intros r q [Hq _].
Qed.

(** The previous settings come back, for a configurator that can put them back.  However often the server was started and killed, at whatever point of its
    installation, a start that ends well and the uninstallation after it leave the settings that
    were there before the first, and none of the manager's files.  Should the uninstallation be
    killed as well, the same holds after the next start and uninstallation. *)
Lemma killed_runs_recover runs io n io' p :
  unlocked p -> good (pac_os p) -> Forall (fun run => keeps_lock run.1) runs ->
  keeps_lock io -> lock_opens io' = true -> removes io' = true ->
  let before := fold_left run_stopped runs p in
  let started := final (pac_install configurator io url) before in
  result_of (pac_install configurator io url) before = Ok tt ->
  (let q := final (pac_uninstall configurator io') started in
   result_of (pac_uninstall configurator io') started = Ok tt /\ good (pac_os q) /\ pac_files q = MkPacFiles None None None) /\
  (let q := stopped n (pac_uninstall configurator io') started in
   result_of (pac_install configurator io url) q = Ok tt ->
   good (pac_os (final (pac_uninstall configurator io') (final (pac_install configurator io url) q)))).
Proof.
  intros Hu Hg Hruns Hio Ho Hr before started Hres.
  assert (Hb : recoverable before) by (apply runs_recoverable; [done|by left]).
  destruct (install_safe io before Hio Hb) as [_ [Hs Hi]]. specialize (Hi Hres). fold started in Hs, Hi.
  pose proof (uninstall_safe io' started Ho Hi) as H. split.
  - destruct H as (_ & H1 & H2 & H3). split; [done|]. split; [done|]. by apply H3.
  - intros q Hq. assert (Hrec : recoverable q).
    { apply (safe_stopped _ _ _ _ _ H Hs). intros r t (_ & Ht & Hf). left. split; [|done].
      unfold unlocked. by rewrite (Hf Hr). }
    destruct (install_safe io q Hio Hrec) as [_ [_ Hi']]. specialize (Hi' Hq).
    by destruct (uninstall_safe io' _ Ho Hi') as (_ & _ & H2 & _).
Qed.
End Safety.
