(* ===== verification/PacOs.v ===== *)
(** * The settings of the desktops ([kinetic-pac/src/os/])

    The [ProxyConfigurator] of GNOME, KDE, macOS and Windows, over the programs
    they run, which are an interface: [gsettings], [kwriteconfig5] and
    [kreadconfig5], [networksetup], [powershell]. *)
From Stdlib Require Import String.
From S2P Require Import Prelude Traced Bytes DnsTree Store Proxy Pac.
#[local] Open Scope Z_scope.

(** [Command::new(program).args(args)]: the exit status and the output, or
    nothing when the program cannot be started. *)
Class Commands (W : Type) := command : bytes -> list bytes -> W -> W * option (bool * bytes).

(** [str::lines]: without the line ends, a carriage return before one included. *)
Definition strip_cr (s : bytes) : bytes := match strip_suffix [13] s with Some s' => s' | None => s end.
Fixpoint lines_of (parts : list bytes) : list bytes :=
  match parts with
  | [] => []
  | [last] => if bool_decide (last = []) then [] else [last]
  | line :: parts => strip_cr line :: lines_of parts
  end.
Definition lines (s : bytes) : list bytes := lines_of (split_on 10 s).

(** The first line that starts with a prefix. *)
Definition first_line (p : bytes) (ls : list bytes) : option bytes := List.find (starts_with p) ls.

Section Os.
Context {W : Type} {HC : Commands W}.

Definition spawn_command (program : bytes) (args : list bytes) : Traced W (option (bool * bytes)) := step_with (command program args).

(** [.status().map_err(...)?]: any exit status is a success. *)
Definition status (program : bytes) (args : list bytes) : Traced W (Result PacError unit) :=
  r ← spawn_command program args; mret (match r with Some _ => Ok tt | None => Err PeCommand end).

(** [let _ = ....status();] *)
Definition status_ignored (program : bytes) (args : list bytes) : Traced W unit := spawn_command program args;; mret tt.

(** [.output().ok()] with a successful exit and text for output, trimmed. *)
Definition output_trimmed (program : bytes) (args : list bytes) : Traced W (option bytes) :=
  r ← spawn_command program args;
  mret (match r with Some (true, stdout) => if utf8_valid stdout then Some (trim stdout) else None | _ => None end).

(** [Option::filter] *)
Definition keep (f : bytes -> bool) (o : option bytes) : option bytes := o ≫= fun s => if f s then Some s else None.
Definition is_empty (s : bytes) : bool := bool_decide (s = []).

(** *** GNOME *)

Definition GSETTINGS : bytes := bs "gsettings".
Definition gs_args (verb key : bytes) (value : list bytes) : list bytes := [verb; bs "org.gnome.system.proxy"; key] ++ value.
Definition gs_set (key value : bytes) : list bytes := gs_args (bs "set") key [value].
Definition gs_get (key : bytes) : list bytes := gs_args (bs "get") key [].
Definition MODE : bytes := bs "mode".
Definition AUTOCONFIG_URL : bytes := bs "autoconfig-url".
Definition QUOTE : Z := 39.
Definition quoted (s : bytes) : bytes := [QUOTE] ++ s ++ [QUOTE].

Definition gnome_install (pac_url : bytes) : Traced W (Result PacError unit) :=
  _ ←? status GSETTINGS (gs_set MODE (quoted (bs "auto")));
  status GSETTINGS (gs_set AUTOCONFIG_URL (quoted pac_url)).

Definition gnome_uninstall : Traced W (Result PacError unit) := status GSETTINGS (gs_set MODE (quoted (bs "none"))).

Definition gnome_save_state : Traced W (Result PacError SavedState) :=
  mode ← output_trimmed GSETTINGS (gs_get MODE);
  pac_url ← output_trimmed GSETTINGS (gs_get AUTOCONFIG_URL);
  mret (Ok (MkSaved (keep (fun s => negb (is_empty s) && negb (bool_decide (s = quoted []))) pac_url)
    (keep (fun s => negb (is_empty s)) mode) None)).

Definition gnome_restore_state (state : SavedState) : Traced W (Result PacError unit) :=
  match proxy_type state with
  | Some mode => status_ignored GSETTINGS (gs_set MODE mode)
  | None => mret tt
  end;;
  status_ignored GSETTINGS (gs_set AUTOCONFIG_URL (default (quoted []) (previous_pac_url state)));;
  mret (Ok tt).

Definition GnomeConfigurator : ProxyConfigurator W :=
  MkConfigurator gnome_install gnome_uninstall gnome_save_state gnome_restore_state.

(** *** KDE *)

Definition kde_args (key : bytes) (value : list bytes) : list bytes :=
  [bs "--file"; bs "kioslaverc"; bs "--group"; bs "Proxy Settings"; bs "--key"; key] ++ value.
Definition PROXY_TYPE : bytes := bs "ProxyType".
Definition CONFIG_SCRIPT : bytes := bs "Proxy Config Script".
Definition KWRITE : bytes := bs "kwriteconfig5".
Definition KREAD : bytes := bs "kreadconfig5".
Definition kde_reparse : Traced W unit :=
  status_ignored (bs "dbus-send")
    [bs "--type=signal"; bs "/KIO/Scheduler"; bs "org.kde.KIO.Scheduler.reparseSlaveConfiguration"; bs "string:''"].

Definition kde_install (pac_url : bytes) : Traced W (Result PacError unit) :=
  _ ←? status KWRITE (kde_args PROXY_TYPE [bs "2"]);
  _ ←? status KWRITE (kde_args CONFIG_SCRIPT [pac_url]);
  kde_reparse;; mret (Ok tt).

Definition kde_uninstall : Traced W (Result PacError unit) :=
  _ ←? status KWRITE (kde_args PROXY_TYPE [bs "0"]);
  kde_reparse;; mret (Ok tt).

Definition kde_save_state : Traced W (Result PacError SavedState) :=
  proxy_type ← output_trimmed KREAD (kde_args PROXY_TYPE []);
  pac_url ← output_trimmed KREAD (kde_args CONFIG_SCRIPT []);
  let present := keep (fun s => negb (is_empty s)) in
  mret (Ok (MkSaved (present pac_url) (Some (default (bs "0") (present proxy_type))) None)).

Definition kde_restore_state (state : SavedState) : Traced W (Result PacError unit) :=
  _ ←? match proxy_type state with
       | Some t => status KWRITE (kde_args PROXY_TYPE [t])
       | None => mret (Ok tt)
       end;
  _ ←? match previous_pac_url state with
       | Some u => status KWRITE (kde_args CONFIG_SCRIPT [u])
       | None => mret (Ok tt)
       end;
  kde_reparse;; mret (Ok tt).

Definition KdeConfigurator : ProxyConfigurator W :=
  MkConfigurator kde_install kde_uninstall kde_save_state kde_restore_state.

(** *** Windows *)

Definition INTERNET_SETTINGS : bytes := bs "HKCU:\Software\Microsoft\Windows\CurrentVersion\Internet Settings".
Definition powershell (script : bytes) : bytes * list bytes := (bs "powershell", [bs "-Command"; script]).
Definition set_config_url (pac_url : bytes) : bytes :=
  bs "Set-ItemProperty -Path '" ++ INTERNET_SETTINGS ++ bs "' -Name AutoConfigURL -Value '" ++ pac_url ++ bs "'".
Definition disable_proxy : bytes :=
  bs "Set-ItemProperty -Path '" ++ INTERNET_SETTINGS ++ bs "' -Name ProxyEnable -Value 0".
Definition remove_config_url : bytes :=
  bs "Remove-ItemProperty -Path '" ++ INTERNET_SETTINGS ++ bs "' -Name AutoConfigURL -ErrorAction SilentlyContinue".
Definition get_config_url : bytes := bs "(Get-ItemProperty -Path '" ++ INTERNET_SETTINGS ++ bs "').AutoConfigURL".

Definition windows_install (pac_url : bytes) : Traced W (Result PacError unit) :=
  let '(p, a) := powershell (set_config_url pac_url) in
  _ ←? status p a;
  let '(p, a) := powershell disable_proxy in
  status_ignored p a;; mret (Ok tt).

Definition windows_uninstall : Traced W (Result PacError unit) :=
  let '(p, a) := powershell remove_config_url in status p a.

Definition windows_save_state `{Utf8Lossy} : Traced W (Result PacError SavedState) :=
  let '(p, a) := powershell get_config_url in
  r ← spawn_command p a;
  let pac_url := match r with
                 | Some (true, stdout) => keep (fun s => negb (is_empty s)) (Some (trim (from_utf8_lossy stdout)))
                 | _ => None
                 end in
  mret (Ok (MkSaved pac_url None None)).

Definition windows_restore_state (state : SavedState) : Traced W (Result PacError unit) :=
  match previous_pac_url state with
  | Some pac_url => let '(p, a) := powershell (set_config_url pac_url) in status_ignored p a
  | None => windows_uninstall;; mret tt
  end;;
  mret (Ok tt).

Definition WindowsConfigurator `{Utf8Lossy} : ProxyConfigurator W :=
  MkConfigurator windows_install windows_uninstall windows_save_state windows_restore_state.

(** *** macOS *)

(** A map of services in the order its iterator visits it. *)
Class ServiceOrder := service_order : gmap bytes bytes -> list (bytes * bytes).

Definition NETWORKSETUP : bytes := bs "networksetup".
Definition STAR_BYTE : Z := 42.
Definition active_service (service : bytes) : bool := negb (starts_with [STAR_BYTE] service) && negb (is_empty service).

(** The services after the first line of the listing. *)
Definition services_of (output : option (bool * bytes)) : list bytes :=
  match output with
  | Some (_, stdout) => if utf8_valid stdout then List.filter active_service (tail (lines stdout)) else []
  | None => []
  end.
Definition list_services : Traced W (list bytes) :=
  r ← spawn_command NETWORKSETUP [bs "-listallnetworkservices"]; mret (services_of r).

Definition macos_install (pac_url : bytes) : Traced W (Result PacError unit) :=
  services ← list_services;
  for_each (fun service => status_ignored NETWORKSETUP [bs "-setautoproxyurl"; service; pac_url]) services;;
  mret (Ok tt).

Definition macos_uninstall : Traced W (Result PacError unit) :=
  services ← list_services;
  for_each (fun service => status_ignored NETWORKSETUP [bs "-setautoproxystate"; service; bs "off"]) services;;
  mret (Ok tt).

(** The address in the answer of [-getautoproxyurl], when it is enabled. *)
Definition enabled_url (output : option (bool * bytes)) : option bytes :=
  match output with
  | Some (_, url_str) =>
      if utf8_valid url_str && contains (bs "Enabled: Yes") url_str then
        url_line ← first_line (bs "URL: ") (lines url_str);
        let url := trim (trim_start_matches (bs "URL: ") url_line) in
        if bool_decide (url = bs "(null)") || is_empty url then None else Some url
      else None
  | None => None
  end.

Fixpoint save_services (services : list bytes) (found : gmap bytes bytes) : Traced W (gmap bytes bytes) :=
  match services with
  | [] => mret found
  | service :: services =>
      r ← spawn_command NETWORKSETUP [bs "-getautoproxyurl"; service];
      save_services services (match enabled_url r with Some url => <[service := url]> found | None => found end)
  end.

Definition macos_save_state : Traced W (Result PacError SavedState) :=
  services ← list_services;
  found ← save_services services ∅;
  mret (Ok (MkSaved None None (Some found))).

Definition macos_restore_state `{ServiceOrder} (state : SavedState) : Traced W (Result PacError unit) :=
  _ ←? macos_uninstall;
  match macos_services state with
  | Some services =>
      for_each (fun e =>
        status_ignored NETWORKSETUP [bs "-setautoproxyurl"; e.1; e.2];;
        status_ignored NETWORKSETUP [bs "-setautoproxystate"; e.1; bs "on"]) (service_order services)
  | None => mret tt
  end;;
  mret (Ok tt).

Definition MacosConfigurator `{ServiceOrder} : ProxyConfigurator W :=
  MkConfigurator macos_install macos_uninstall macos_save_state macos_restore_state.

(** [detect_linux_configurator] on the value of [XDG_CURRENT_DESKTOP], and
    [detect_configurator] on the system's name. *)
Definition detect_linux_configurator `{UnicodeCase} (xdg_current_desktop : option bytes) : ProxyConfigurator W :=
  let desktop := to_lowercase (default [] xdg_current_desktop) in
  if contains (bs "kde") desktop || contains (bs "plasma") desktop then KdeConfigurator
  else if contains (bs "gnome") desktop || contains (bs "unity") desktop || contains (bs "budgie") desktop then GnomeConfigurator
  else FallbackConfigurator.

Definition detect_configurator `{UnicodeCase, ServiceOrder, Utf8Lossy} (system : bytes) (xdg_current_desktop : option bytes) :
    ProxyConfigurator W :=
  if bool_decide (system = bs "linux") then detect_linux_configurator xdg_current_desktop
  else if bool_decide (system = bs "macos") then MacosConfigurator
  else if bool_decide (system = bs "windows") then WindowsConfigurator
  else FallbackConfigurator.

End Os.

(** ** GNOME keeps its word *)

(** Documented behaviour of [gsettings]: [get] prints the value of a key and a
    line end; [set] with a text [get] may print stores that value and leaves the
    other keys alone.  Strings are printed between quotes; plain text between single ones. *)
Class GsettingsLaws (W : Type) `{Commands W} := {
  gs_value : W -> bytes -> bytes;
  printable : bytes -> bytes -> Prop;
  gs_printed w key : printable key (gs_value w key);
  printed_quoted key v : printable key v -> exists q inner, (q = QUOTE \/ q = 34) /\ v = q :: inner ++ [q] /\ utf8_valid (v ++ [10]) = true;
  printed_mode s : s ∈ [bs "none"; bs "manual"; bs "auto"] -> printable MODE (quoted s);
  printed_url s : Forall (fun b => 32 <= b < 127 /\ b <> QUOTE /\ b <> 92) s -> printable AUTOCONFIG_URL (quoted s);
  gs_got key w : exists w', command GSETTINGS (gs_get key) w = (w', Some (true, gs_value w key ++ [10])) /\
    forall k, gs_value w' k = gs_value w k;
  gs_was_set key v w : printable key v -> exists w', command GSETTINGS (gs_set key v) w = (w', Some (true, [])) /\
    gs_value w' key = v /\ forall k, k <> key -> gs_value w' k = gs_value w k }.

(** Text between quotes is not changed by [trim] but for its line end. *)
Lemma trim_quoted q inner : q = QUOTE \/ q = 34 -> trim ((q :: inner ++ [q]) ++ [10]) = q :: inner ++ [q].
Proof.
  intros Hq. assert (Hs : forall s, leading_space (q :: s) = None) by (intros s; destruct Hq as [->| ->]; reflexivity).
  assert (He : forall s, trailing_space (s ++ [q]) = None).
  { intros s. unfold trailing_space, ends_with.
    rewrite reverse_app. destruct Hq as [->| ->]; reflexivity. }
  assert (Hn : forall s, trailing_space (s ++ [10]) = Some [10]).
  { intros s. unfold trailing_space, ends_with. rewrite reverse_app. reflexivity. }
  assert (Hstart : trim_start ((q :: inner ++ [q]) ++ [10]) = (q :: inner ++ [q]) ++ [10]).
  { unfold trim_start. cbn [app length trim_start_loop]. by rewrite Hs. }
  unfold trim. rewrite Hstart. clear Hstart Hs. rewrite app_comm_cons. set (text := (q :: inner) ++ [q]).
  unfold trim_end. rewrite length_app, Nat.add_comm. cbn [length Nat.add trim_end_loop]. rewrite Hn.
  rewrite length_app. cbn [length]. rewrite Nat.add_sub, take_app_length.
  destruct (length text); [done|]. cbn [trim_end_loop]. unfold text. by rewrite He.
Qed.

Section Gnome.
Context {W : Type} {HC : Commands W} {HL : GsettingsLaws W}.
Implicit Types w : W.

(** The mode and the address of the script, as [gsettings] prints them. *)
Definition gnome_is (mode url : bytes) (w : W) : Prop := gs_value w MODE = mode /\ gs_value w AUTOCONFIG_URL = url.


Lemma got_safe key mode url w (I : W -> Prop) (Q : option bytes -> W -> Prop) :
  gnome_is mode url w -> (forall w', gnome_is mode url w' -> I w') ->
  (forall w', gnome_is mode url w' -> Q (Some (gs_value w key)) w') ->
  safe I (output_trimmed GSETTINGS (gs_get key)) Q w.
Proof.
  intros [Hm Hu] HI HQ. destruct (gs_got key w) as (w' & E & H).
  destruct (printed_quoted key _ (gs_printed w key)) as (q & inner & Hq & Hv & Hutf).
  assert (Hw : gnome_is mode url w') by (split; rewrite H; done).
  apply safe_bind, safe_step; rewrite E; [by apply HI|]. cbn [fst snd]. rewrite Hutf. apply safe_ret.
  rewrite Hv, trim_quoted, <- Hv by done. by apply HQ.
Qed.

Lemma mode_is_set v mode url w : printable MODE v -> gnome_is mode url w ->
  exists w', command GSETTINGS (gs_set MODE v) w = (w', Some (true, [])) /\ gnome_is v url w'.
Proof. intros Hv [Hm Hu]. destruct (gs_was_set MODE v w Hv) as (w' & E & H1 & H2). exists w'. split; [done|]. split; [done|]. by rewrite H2. Qed.

Lemma url_is_set v mode url w : printable AUTOCONFIG_URL v -> gnome_is mode url w ->
  exists w', command GSETTINGS (gs_set AUTOCONFIG_URL v) w = (w', Some (true, [])) /\ gnome_is mode v w'.
Proof. intros Hv [Hm Hu]. destruct (gs_was_set AUTOCONFIG_URL v w Hv) as (w' & E & H1 & H2). exists w'. split; [done|]. split; [|done]. by rewrite H2. Qed.

Definition gnome_saved (mode url : bytes) : SavedState :=
  MkSaved (if bool_decide (url = quoted []) then None else Some url) (Some mode) None.

(** What is saved of the two settings. *)
Lemma gnome_save_safe mode url w (I : W -> Prop) (Q : Result PacError SavedState -> W -> Prop) :
  gnome_is mode url w -> (forall w', gnome_is mode url w' -> I w') ->
  (forall w', gnome_is mode url w' -> Q (Ok (gnome_saved mode url)) w') ->
  safe I (cf_save_state GnomeConfigurator) Q w.
Proof.
  intros Hw HI HQ. apply safe_bind, (got_safe MODE mode url); [done..|]. intros w1 H1.
  apply safe_bind, (got_safe AUTOCONFIG_URL mode url); [done..|]. intros w2 H2. apply safe_ret.
  rewrite (proj1 Hw), (proj2 H1). assert (Hne : forall k, is_empty (gs_value w k) = false /\ is_empty (gs_value w1 k) = false).
  { intros k. split; apply bool_decide_eq_false_2; intros E.
    - destruct (printed_quoted k _ (gs_printed w k)) as (q & inner & _ & Hv & _). by rewrite E in Hv.
    - destruct (printed_quoted k _ (gs_printed w1 k)) as (q & inner & _ & Hv & _). by rewrite E in Hv. }
  destruct (Hne MODE) as [Hm _]. destruct (Hne AUTOCONFIG_URL) as [_ Hu]. rewrite (proj1 Hw) in Hm. rewrite (proj2 H1) in Hu.
  unfold keep. cbn [mbind option_bind]. rewrite Hm, Hu. cbn [negb andb].
  specialize (HQ w2 H2). unfold gnome_saved in HQ. by destruct (bool_decide (url = quoted [])).
Qed.

(** Writing one of the two settings. *)
Lemma set_mode_safe v mode url w (I : W -> Prop) (Q : option (bool * bytes) -> W -> Prop) :
  printable MODE v -> gnome_is mode url w -> (forall w', gnome_is v url w' -> I w') ->
  (forall w', gnome_is v url w' -> Q (Some (true, [])) w') -> safe I (spawn_command GSETTINGS (gs_set MODE v)) Q w.
Proof. intros Hv Hw HI HQ. destruct (mode_is_set v mode url w Hv Hw) as (w' & E & H). apply safe_step; rewrite E; auto. Qed.

Lemma set_url_safe v mode url w (I : W -> Prop) (Q : option (bool * bytes) -> W -> Prop) :
  printable AUTOCONFIG_URL v -> gnome_is mode url w -> (forall w', gnome_is mode v w' -> I w') ->
  (forall w', gnome_is mode v w' -> Q (Some (true, [])) w') -> safe I (spawn_command GSETTINGS (gs_set AUTOCONFIG_URL v)) Q w.
Proof. intros Hv Hw HI HQ. destruct (url_is_set v mode url w Hv Hw) as (w' & E & H). apply safe_step; rewrite E; auto. Qed.

Definition AUTO : bytes := quoted (bs "auto").
Definition KINETIC_URL : bytes := quoted PAC_URL.

Lemma auto_printed : printable MODE AUTO.
Proof. apply printed_mode. by do 2 constructor 2; left. Qed.

Lemma kinetic_printed : printable AUTOCONFIG_URL KINETIC_URL.
Proof. apply printed_url. repeat constructor; by vm_compute. Qed.

Section Restores.
Context (mode url : bytes) (Hmode : printable MODE mode) (Hurl : printable AUTOCONFIG_URL url).

(** What an interrupted installation or restoration leaves of the two. *)
Definition gnome_mixed (w : W) : Prop :=
  exists m u, (m = mode \/ m = AUTO) /\ (u = url \/ u = KINETIC_URL) /\ gnome_is m u w.

Lemma gnome_restore_safe m u w (I : W -> Prop) : gnome_is m u w ->
  (forall w', gnome_is mode u w' -> I w') -> (forall w', gnome_is mode url w' -> I w') ->
  safe I (cf_restore_state GnomeConfigurator (gnome_saved mode url)) (fun _ w' => gnome_is mode url w') w.
Proof.
  intros Hw HI HI'. apply safe_bind, safe_bind, (set_mode_safe mode m u); [done..|]. intros w1 H1. apply safe_ret.
  assert (Hd : default (quoted []) (previous_pac_url (gnome_saved mode url)) = url).
  { unfold gnome_saved. cbn. destruct (bool_decide _) eqn:E; [|done]. by apply bool_decide_eq_true_1 in E. }
  rewrite Hd. apply safe_bind, safe_bind, (set_url_safe url mode u); [done..|]. intros w2 H2. by do 2 apply safe_ret.
Qed.

Lemma gnome_install_safe m u w (I : W -> Prop) : gnome_is m u w ->
  (forall w', gnome_is AUTO u w' -> I w') -> (forall w', gnome_is AUTO KINETIC_URL w' -> I w') ->
  safe I (cf_install GnomeConfigurator PAC_URL) (fun r w' => r = Ok tt /\ gnome_is AUTO KINETIC_URL w') w.
Proof.
  intros Hw HI HI'. apply safe_then, safe_bind, (set_mode_safe AUTO m u); [apply auto_printed|done..|].
  intros w1 H1. apply safe_ret. apply safe_bind, (set_url_safe KINETIC_URL AUTO u); [apply kinetic_printed|done..|].
  intros w2 H2. by apply safe_ret.
Qed.

#[export, program] Instance gnome_restorable : Restorable GnomeConfigurator PAC_URL (gnome_saved mode url) := {|
  good := gnome_is mode url; ours := gnome_is AUTO KINETIC_URL; touched := gnome_mixed |}.
Next Obligation. intros w Hw. exists mode, url. auto. Qed.
Next Obligation. intros w Hw. exists AUTO, KINETIC_URL. auto. Qed.
Next Obligation. intros w Hw. by apply (gnome_save_safe mode url). Qed.
Next Obligation.
  intros w Hw. apply (gnome_save_safe AUTO KINETIC_URL); [done..|]. intros w' Hw'.
  exists (gnome_saved AUTO KINETIC_URL). split; [done|]. split; [by vm_compute|done].
Qed.
Next Obligation.
  intros w Hw. eapply safe_mono; [apply (gnome_install_safe mode url); [done|..]|].
  - intros w' Hw'. exists AUTO, url. auto.
  - intros w' Hw'. exists AUTO, KINETIC_URL. auto.
  - intros r w' [-> Hw']. split; [exists AUTO, KINETIC_URL; auto|done].
Qed.
Next Obligation.
  intros w (m & u & Hm & Hu & Hw). apply (gnome_restore_safe m u); [done|..].
  - intros w' Hw'. exists mode, u. auto.
  - intros w' Hw'. exists mode, url. auto.
Qed.
End Restores.

(** ** Kills *)

Section Kills.
Context {HJson : SavedStateJson} {HLaws : SavedStateJsonLaws}.
Notation anywhere := (fun _ => True).
Implicit Types (p : PacState W) (io : PacIo).

(** An installation on GNOME ends well wherever it starts and whatever the files do. *)
Lemma gnome_install_ends_well io p : result_of (pac_install GnomeConfigurator io PAC_URL) p = Ok tt.
Proof.
  enough (safe anywhere (pac_install GnomeConfigurator io PAC_URL) (fun r _ => r = Ok tt) p) as [_ H] by exact H.
  apply safe_bind, safe_look, safe_bind, (safe_mono _ _ (fun _ _ => True)).
  { destruct (read_lock io p); [apply safe_bind, (safe_mono _ _ (fun _ _ => True));
      [apply safe_anywhere|intros; by apply safe_ret]|by apply safe_ret]. }
  clear p. intros _ p _. apply safe_then.
  apply (on_os_safe _ _ anywhere (fun r w => r = Ok (gnome_saved (gs_value (pac_os p) MODE) (gs_value (pac_os p) AUTOCONFIG_URL))));
    [by apply (gnome_save_safe (gs_value (pac_os p) MODE) (gs_value (pac_os p) AUTOCONFIG_URL))|done|].
  intros _ w ->. do 2 (apply safe_bind, (safe_mono _ _ (fun _ _ => True)); [apply safe_anywhere|intros _ ? _]).
  match goal with |- safe _ _ _ ?q => set (q' := q) end.
  apply (on_os_safe _ _ anywhere (fun r _ => r = Ok tt)); [|done|done].
  eapply safe_mono; [by apply (gnome_install_safe (gs_value (pac_os q') MODE) (gs_value (pac_os q') AUTOCONFIG_URL))|].
  by intros r w' [-> _].
Qed.

(** C22: GNOME's settings come back.  Where the manager holds no settings and
    the lock file can be made, written whole and read at every start, a server
    started and killed any number of times, at whatever points of its
    installation, then started and, with a lock file that can be read and files
    that can be removed, uninstalled, leaves the mode and the address of before
    the first start and none of its files.  Should that uninstallation be killed
    at any point, the same settings are there after the next start and
    uninstallation. *)
Theorem gnome_settings_survive_kills runs io n io' p :
  unlocked p -> Forall (fun run => keeps_lock run.1) runs ->
  keeps_lock io -> lock_opens io' = true -> removes io' = true ->
  let mode := gs_value (pac_os p) MODE in
  let url := gs_value (pac_os p) AUTOCONFIG_URL in
  let start := pac_install GnomeConfigurator io PAC_URL in
  let stop := pac_uninstall GnomeConfigurator io' in
  let killed := fold_left (run_stopped GnomeConfigurator PAC_URL) runs p in
  let q := final stop (final start killed) in
  let q' := final stop (final start (stopped n stop (final start killed))) in
  gnome_is mode url (pac_os q) /\ pac_files q = MkPacFiles None None None /\ gnome_is mode url (pac_os q').
Proof.
  intros Hu Hruns Hio Ho Hr mode url start stop killed.
  pose proof (killed_runs_recover GnomeConfigurator PAC_URL (gnome_saved mode url)
    (HR := gnome_restorable mode url (gs_printed _ MODE) (gs_printed _ AUTOCONFIG_URL)) runs io n io' p
    Hu (conj eq_refl eq_refl) Hruns Hio Ho Hr (gnome_install_ends_well _ _)) as [(_ & Hg & Hf) H].
  split; [exact Hg|]. split; [exact Hf|]. apply H, gnome_install_ends_well.
Qed.
End Kills.

(** ** Drift *)

Section Drift.
Context {HJson : SavedStateJson} {HLaws : SavedStateJsonLaws}.
Context (mode url : bytes) (Hmode : printable MODE mode) (Hurl : printable AUTOCONFIG_URL url).
Implicit Types (p : PacState W) (io : PacIo).

(** The address tells whether the settings are still this server's; the mode does not. *)
Definition address_is_ours (u : bytes) : bool := negb (bool_decide (u = quoted [])) && contains PAC_PORT_TEXT u.

Lemma gnome_tampered m u : os_was_tampered (gnome_saved m u) = negb (address_is_ours u).
Proof. unfold os_was_tampered, address_is_ours, gnome_saved. cbn. by destruct (bool_decide _). Qed.

(** Undoing from any settings whatever. *)
Lemma gnome_uninstall_safe io m u p :
  lock_opens io = true -> locked (gnome_saved mode url) p -> gnome_is m u (pac_os p) ->
  safe (fun _ => True) (pac_uninstall GnomeConfigurator io)
    (fun r q => r = Ok tt /\ (if address_is_ours u then gnome_is mode url (pac_os q) else gnome_is m u (pac_os q)) /\
       (removes io = true -> pac_files q = MkPacFiles None None None)) p.
Proof.
  intros Ho Hl Hw. apply (locked_uninstall_safe _ (gnome_saved mode url) io p (gnome_is m u)
    (fun w => if address_is_ours u then gnome_is mode url w else gnome_is m u w) (gnome_saved m u)); [done|done|..].
  - by apply (gnome_save_safe m u).
  - intros w Hw'. rewrite gnome_tampered. destruct (address_is_ours u); [|done].
    by apply (gnome_restore_safe mode url Hmode Hurl m u).
Qed.

#[local] Instance restorable_here : Restorable GnomeConfigurator PAC_URL (gnome_saved mode url) :=
  gnome_restorable mode url Hmode Hurl.

(** Between the two commands the mode is changed and the address is not. *)
Lemma install_passes_mixed io p : keeps_lock io -> unlocked p -> gnome_is mode url (pac_os p) ->
  exists q, passes (pac_install GnomeConfigurator io PAC_URL) p q /\ locked (gnome_saved mode url) q /\ gnome_is AUTO url (pac_os q).
Proof.
  intros Hio Hu Hw. unfold pac_install. set (k := on_os (cf_install GnomeConfigurator PAC_URL)).
  assert (Hrec : forall q, unlocked q -> gnome_is mode url (pac_os q) -> recoverable GnomeConfigurator PAC_URL (gnome_saved mode url) q)
    by (intros q; by left).
  pose proof (on_os_safe (cf_save_state GnomeConfigurator) (fun _ => True) (fun _ => True) _
    (fun r q => r = Ok (gnome_saved mode url) /\ unlocked q /\ gnome_is mode url (pac_os q)) p
    (gnome_save_safe mode url (pac_os p) (fun _ => True) (fun r w => r = Ok (gnome_saved mode url) /\ gnome_is mode url w)
       Hw (fun _ _ => I) (fun w H => conj eq_refl H)) (fun _ _ => I)
    (fun r w H => conj (proj1 H) (conj Hu (proj2 H)))) as (_ & Hres & Hu1 & Hw1).
  set (p1 := final (on_os _) p) in Hu1, Hw1.
  destruct (write_lock_safe GnomeConfigurator PAC_URL (gnome_saved mode url) (HR := restorable_here) io p1 Hio Hw1 (Hrec _ Hu1 Hw1)) as (_ & Hl2 & Hw2).
  set (p2 := final (write_lock io (gnome_saved mode url)) p1) in Hl2, Hw2.
  destruct (backup_script_safe io (gnome_saved mode url)
    (fun q => locked (gnome_saved mode url) q /\ gnome_is mode url (pac_os q)) p2) as (_ & Hl3 & Hw3); [done|done|].
  set (p3 := final (backup_script io (gnome_saved mode url)) p2) in Hl3, Hw3.
  destruct (mode_is_set AUTO mode url (pac_os p3) auto_printed Hw3) as (w & E & Hm).
  exists (set_os w p3). split; [|by split].
  assert (Hread : read_lock io p = None) by (unfold read_lock; by rewrite (proj1 Hio), Hu).
  apply passes_bind_r, passes_bind_r. change (result_of (look (read_lock io)) p) with (read_lock io p). rewrite Hread.
  change (final (mret ()) (final (look (read_lock io)) p)) with p. apply passes_bind_r. rewrite Hres.
  apply passes_bind_r, passes_bind_r. fold p1. fold p2. fold p3. apply passes_zoom, passes_bind_l, passes_bind_l.
  change w with (w, Some (true, @nil Z)).1. rewrite <- E. apply passes_step.
Qed.

(** C35: What an uninstallation on GNOME does.  It restores the saved settings exactly when the address of the script
    contains the port of the server, and leaves the settings alone when not; the lock is gone either
    way.  So a mode the user chose meanwhile is overwritten when the address stayed; and an installation stopped between
    its two commands and then undone leaves the automatic mode, while the saved mode is forgotten. *)
Theorem gnome_uninstall_drift io io' p :
  lock_opens io' = true -> removes io' = true ->
  (forall m u, locked (gnome_saved mode url) p -> gnome_is m u (pac_os p) ->
     let q := final (pac_uninstall GnomeConfigurator io') p in
     pac_files q = MkPacFiles None None None /\
     if address_is_ours u then gnome_is mode url (pac_os q) else gnome_is m u (pac_os q)) /\
  (keeps_lock io -> unlocked p -> gnome_is mode url (pac_os p) -> address_is_ours url = false ->
   exists n, let q := final (pac_uninstall GnomeConfigurator io') (stopped n (pac_install GnomeConfigurator io PAC_URL) p) in
     pac_files q = MkPacFiles None None None /\ gnome_is AUTO url (pac_os q)).
Proof.
  intros Ho Hr. split.
  - intros m u Hl Hw. destruct (gnome_uninstall_safe io' m u p Ho Hl Hw) as (_ & _ & H & Hf). split; [by apply Hf|done].
  - intros Hio Hu Hw Ha. destruct (install_passes_mixed io p Hio Hu Hw) as (q & Hq & Hl & Hm).
    destruct (passes_stopped _ _ _ Hq) as [n <-]. exists n.
    destruct (gnome_uninstall_safe io' AUTO url _ Ho Hl Hm) as (_ & _ & H & Hf). rewrite Ha in H. split; [by apply Hf|done].
Qed.

(** When the lock file cannot be made the installation goes on all the same, and the uninstallation after
    it leaves no proxy and this server's address: nothing of the previous settings is left. *)
Theorem gnome_unsaved_lost io io' p :
  tmp_creates io = false -> unlocked p -> gnome_is mode url (pac_os p) ->
  let started := final (pac_install GnomeConfigurator io PAC_URL) p in
  result_of (pac_install GnomeConfigurator io PAC_URL) p = Ok tt /\
  gnome_is (quoted (bs "none")) KINETIC_URL (pac_os (final (pac_uninstall GnomeConfigurator io') started)).
Proof.
  intros Hc Hu Hw started.
  destruct (fresh_install_safe GnomeConfigurator (gnome_saved mode url) io PAC_URL p (gnome_is mode url) (gnome_is AUTO KINETIC_URL))
    as (_ & Hr & Hw' & _ & Hu'); [done|by apply (gnome_save_safe mode url)|intros; by apply (gnome_install_safe mode url)|].
  specialize (Hu' Hc). fold started in Hu', Hw'. split; [done|].
  assert (Hs : safe (fun _ => True) (pac_uninstall GnomeConfigurator io')
    (fun _ q => gnome_is (quoted (bs "none")) KINETIC_URL (pac_os q)) started).
  { apply safe_bind, safe_look. rewrite Hu'. rewrite bool_decide_false by (intros [? ?]; done).
    apply safe_bind, safe_bind, safe_zoom, safe_bind.
    apply (set_mode_safe (quoted (bs "none")) AUTO KINETIC_URL); [apply printed_mode; by left|done|done|].
    intros w' H. by do 3 apply safe_ret. }
  apply Hs.
Qed.

(** The address GNOME prints begins with a quote, so the previous script is never
    read, from wherever. *)
Lemma gnome_script_never_merged io : previous_pac_url (gnome_saved mode url) ≫= original_script io = None.
Proof.
  unfold gnome_saved. cbn. destruct (bool_decide _); [done|].
  by destruct (printed_quoted AUTOCONFIG_URL _ Hurl) as (q & inner & [->| ->] & -> & _).
Qed.
End Drift.
End Gnome.

(** ** KDE *)

(** Documented behaviour of [kwriteconfig5] and [kreadconfig5]: a key holds a
    text, none at first; reading prints it and a line end, writing replaces it
    and leaves the other keys alone; the notification changes no key.  The texts are those [trim] keeps. *)
Class KdeLaws (W : Type) `{Commands W} := {
  kde_value : W -> bytes -> bytes;
  kde_plain : bytes -> Prop;
  kde_plain_value w key : kde_plain (kde_value w key);
  kde_plain_text v : kde_plain v -> trim (v ++ [10]) = v /\ utf8_valid (v ++ [10]) = true;
  kde_plain_ours : kde_plain PAC_URL /\ kde_plain (bs "0") /\ kde_plain (bs "2");
  kde_got key w : exists w', command KREAD (kde_args key []) w = (w', Some (true, kde_value w key ++ [10])) /\
    forall k, kde_value w' k = kde_value w k;
  kde_was_set key v w : kde_plain v -> exists w', command KWRITE (kde_args key [v]) w = (w', Some (true, [])) /\
    kde_value w' key = v /\ forall k, k <> key -> kde_value w' k = kde_value w k;
  kde_notified w : exists w' r, kde_reparse w = ([w'], (w', r)) /\ forall k, kde_value w' k = kde_value w k }.

Section Kde.
Context {W : Type} {HC : Commands W} {HL : KdeLaws W}.
Implicit Types w : W.

(** The type of the proxy, 0 when there is none, and the script's address. *)
Definition or_zero (t : bytes) : bytes := if is_empty t then bs "0" else t.
Definition kde_is (t u : bytes) (w : W) : Prop := or_zero (kde_value w PROXY_TYPE) = t /\ kde_value w CONFIG_SCRIPT = u.

Lemma kde_is_same t u w w' : (forall k, kde_value w' k = kde_value w k) -> kde_is t u w -> kde_is t u w'.
Proof. intros H [H1 H2]. split; by rewrite H. Qed.

Lemma kde_read_safe key t u w (I : W -> Prop) (Q : option bytes -> W -> Prop) :
  kde_is t u w -> (forall w', kde_is t u w' -> I w') ->
  (forall w', kde_is t u w' -> Q (Some (kde_value w key)) w') ->
  safe I (output_trimmed KREAD (kde_args key [])) Q w.
Proof.
  intros Hw HI HQ. destruct (kde_got key w) as (w' & E & H). destruct (kde_plain_text _ (kde_plain_value w key)) as [Ht Hu].
  assert (Hw' : kde_is t u w') by (by eapply kde_is_same).
  apply safe_bind, safe_step; rewrite E; [by apply HI|]. cbn [fst snd]. rewrite Hu, Ht. apply safe_ret. by apply HQ.
Qed.

Lemma kde_write_safe key v w (I : W -> Prop) (Q : Result PacError unit -> W -> Prop) :
  kde_plain v -> (forall w', kde_value w' key = v -> (forall k, k <> key -> kde_value w' k = kde_value w k) -> I w' /\ Q (Ok tt) w') ->
  safe I (status KWRITE (kde_args key [v])) Q w.
Proof.
  intros Hv H. destruct (kde_was_set key v w Hv) as (w' & E & H1 & H2). destruct (H w' H1 H2) as [HI HQ].
  apply safe_bind, safe_step; rewrite E; [done|]. by apply safe_ret.
Qed.

Lemma kde_notify_safe t u w (I : W -> Prop) (Q : unit -> W -> Prop) :
  kde_is t u w -> (forall w', kde_is t u w' -> I w' /\ Q tt w') -> safe I kde_reparse Q w.
Proof.
  intros Hw H. destruct (kde_notified w) as (w' & [] & E & Hk).
  destruct (H w') as [HI HQ]; [by eapply kde_is_same|]. unfold safe, result_of, final. rewrite E. cbn. split; [by constructor|done].
Qed.

Definition kde_saved (t u : bytes) : SavedState := MkSaved (if is_empty u then None else Some u) (Some t) None.

Lemma kde_save_safe t u w (I : W -> Prop) (Q : Result PacError SavedState -> W -> Prop) :
  kde_is t u w -> (forall w', kde_is t u w' -> I w') -> (forall w', kde_is t u w' -> Q (Ok (kde_saved t u)) w') ->
  safe I (cf_save_state KdeConfigurator) Q w.
Proof.
  intros Hw HI HQ. apply safe_bind, (kde_read_safe _ t u); [done..|]. intros w1 H1.
  apply safe_bind, (kde_read_safe _ t u); [done..|]. intros w2 H2. apply safe_ret.
  rewrite (proj2 H1). specialize (HQ w2 H2). unfold kde_saved in HQ. rewrite <- (proj1 Hw) in HQ. unfold or_zero in HQ.
  unfold keep. cbn [mbind option_bind]. by destruct (is_empty u), (is_empty (kde_value w PROXY_TYPE)).
Qed.

Lemma type_ne_script : PROXY_TYPE <> CONFIG_SCRIPT.
Proof. by vm_compute. Qed.

Lemma write_type_safe v t u w (I : W -> Prop) (Q : Result PacError unit -> W -> Prop) :
  kde_plain v -> v <> [] -> kde_is t u w -> (forall w', kde_is v u w' -> I w' /\ Q (Ok tt) w') ->
  safe I (status KWRITE (kde_args PROXY_TYPE [v])) Q w.
Proof.
  intros Hv Hn [Ht Hu] H. apply kde_write_safe; [done|]. intros w' H1 H2. apply H. split.
  - rewrite H1. unfold or_zero, is_empty. by rewrite bool_decide_false.
  - rewrite H2; [done|]. intros E. by apply type_ne_script.
Qed.

Lemma write_script_safe v t u w (I : W -> Prop) (Q : Result PacError unit -> W -> Prop) :
  kde_plain v -> kde_is t u w -> (forall w', kde_is t v w' -> I w' /\ Q (Ok tt) w') ->
  safe I (status KWRITE (kde_args CONFIG_SCRIPT [v])) Q w.
Proof.
  intros Hv [Ht Hu] H. apply kde_write_safe; [done|]. intros w' H1 H2. apply H. split; [|done]. rewrite H2; [done|apply type_ne_script].
Qed.

Lemma kde_install_safe t u w (I : W -> Prop) : kde_is t u w ->
  (forall w', kde_is (bs "2") u w' -> I w') -> (forall w', kde_is (bs "2") PAC_URL w' -> I w') ->
  safe I (cf_install KdeConfigurator PAC_URL) (fun r w' => r = Ok tt /\ kde_is (bs "2") PAC_URL w') w.
Proof.
  intros Hw HI HI'. destruct kde_plain_ours as (H1 & _ & H2).
  apply safe_then, (write_type_safe (bs "2") t u); [done..|]. intros w1 Hw1. split; [by apply HI|].
  apply safe_then, (write_script_safe PAC_URL (bs "2") u); [done..|]. intros w2 Hw2. split; [by apply HI'|].
  apply safe_bind, (kde_notify_safe (bs "2") PAC_URL); [done|]. intros w3 Hw3. split; [by apply HI'|]. by apply safe_ret.
Qed.

(** What restoring does to the settings: without a saved address the present
    one stays. *)
Lemma kde_restore_safe t u t' u' w (I : W -> Prop) : kde_plain t -> t <> [] -> kde_plain u -> kde_is t' u' w ->
  (forall w', kde_is t u' w' -> I w') -> (forall w', kde_is t (if is_empty u then u' else u) w' -> I w') ->
  safe I (cf_restore_state KdeConfigurator (kde_saved t u)) (fun _ w' => kde_is t (if is_empty u then u' else u) w') w.
Proof.
  intros Ht Hn Hu Hw HI HI'. apply safe_then. cbn [kde_saved proxy_type].
  apply (write_type_safe t t' u'); [done..|]. intros w1 Hw1. split; [by apply HI|].
  apply safe_then. unfold kde_saved. cbn [previous_pac_url]. destruct (is_empty u).
  - apply safe_ret, safe_bind, (kde_notify_safe t u'); [done|]. intros w2 Hw2. split; [by apply HI|]. by apply safe_ret.
  - apply (write_script_safe u t u'); [done..|]. intros w2 Hw2. split; [by apply HI'|].
    apply safe_bind, (kde_notify_safe t u); [done|]. intros w3 Hw3. split; [by apply HI'|]. by apply safe_ret.
Qed.

Section KdeRestores.
Context (t u : bytes) (Ht : kde_plain t) (Hn : t <> []) (Hu : kde_plain u).

Definition kde_mixed (w : W) : Prop :=
  exists t' u', (t' = t \/ t' = bs "2") /\ (u' = u \/ u' = PAC_URL) /\ kde_is t' u' w.

(** With the address of a script among them KDE's settings come back too. *)
#[export, program] Instance kde_restorable (Hs : u <> []) : Restorable KdeConfigurator PAC_URL (kde_saved t u) := {|
  good := kde_is t u; ours := kde_is (bs "2") PAC_URL; touched := kde_mixed |}.
Next Obligation. intros _ w Hw. exists t, u. auto. Qed.
Next Obligation. intros _ w Hw. exists (bs "2"), PAC_URL. auto. Qed.
Next Obligation. intros _ w Hw. by apply (kde_save_safe t u). Qed.
Next Obligation.
  intros _ w Hw. apply (kde_save_safe (bs "2") PAC_URL); [done..|]. intros w' Hw'.
  exists (kde_saved (bs "2") PAC_URL). split; [done|]. split; [by vm_compute|done].
Qed.
Next Obligation.
  intros _ w Hw. eapply safe_mono; [apply (kde_install_safe t u); [done|..]|].
  - intros w' Hw'. exists (bs "2"), u. auto.
  - intros w' Hw'. exists (bs "2"), PAC_URL. auto.
  - intros r w' [-> Hw']. split; [exists (bs "2"), PAC_URL; auto|done].
Qed.
Next Obligation.
  intros Hs w (t' & u' & _ & Hu' & Hw). assert (E : is_empty u = false) by (by apply bool_decide_eq_false_2).
  eapply safe_mono; [apply (kde_restore_safe t u t' u'); [done..| |]|]; rewrite ?E; [..|done].
  - intros w' Hw'. exists t, u'. auto.
  - intros w' Hw'. exists t, u. auto.
Qed.
End KdeRestores.

(** Without one they do not: the type of the proxy is restored, but this server's address
    stays and is what the next installation saves as the user's own. *)
Theorem kde_address_left {HJson : SavedStateJson} {HLaws : SavedStateJsonLaws} t io io' (p : PacState W) :
  kde_plain t -> t <> [] -> kde_plain [] -> keeps_lock io -> lock_opens io' = true -> unlocked p -> kde_is t [] (pac_os p) ->
  let q := final (pac_uninstall KdeConfigurator io') (final (pac_install KdeConfigurator io PAC_URL) p) in
  kde_is t PAC_URL (pac_os q) /\
  result_of (cf_save_state KdeConfigurator) (pac_os q) = Ok (kde_saved t PAC_URL).
Proof.
  intros Ht Hn He Hio Ho' Hun Hw q.
  destruct (fresh_install_safe KdeConfigurator (kde_saved t []) io PAC_URL p (kde_is t []) (kde_is (bs "2") PAC_URL))
    as (_ & _ & Hi & Hl & _); [done|by apply (kde_save_safe t [])|intros; by apply (kde_install_safe t [])|].
  destruct (locked_uninstall_safe KdeConfigurator (kde_saved t []) io' _ (kde_is (bs "2") PAC_URL) (kde_is t PAC_URL) (kde_saved (bs "2") PAC_URL)
    (Hl Hio) Ho') as (_ & _ & Hf & _); [by apply (kde_save_safe (bs "2") PAC_URL)| |].
  { intros w Hw'. replace (os_was_tampered _) with false by (by vm_compute). by apply (kde_restore_safe t [] (bs "2") PAC_URL). }
  fold q in Hf. split; [done|].
  by destruct (kde_save_safe t PAC_URL (pac_os q) (fun _ => True) (fun r _ => r = Ok (kde_saved t PAC_URL)) Hf
    (fun _ _ => I) (fun _ _ => eq_refl)).
Qed.
End Kde.

(** ** Windows *)

(** Documented behaviour of the four scripts, over the address of the proxy
    script and the switch of the manual proxy: an address is printed with a
    line end, nothing when there is none; a text without quotes and without space around is stored as it is. *)
Definition quote_free (u : bytes) : bool := forallb (fun b => negb (b =? QUOTE)) u.
Definition shown `{Utf8Lossy} (u : bytes) : Prop := trim (from_utf8_lossy (u ++ [13; 10])) = u /\ u <> [].
Definition run_script {W} `{Commands W} (script : bytes) (w : W) := command (bs "powershell") [bs "-Command"; script] w.
Class RegistryLaws (W : Type) `{Commands W, Utf8Lossy} := {
  registry : W -> option bytes * bool;
  registry_text w u : (registry w).1 = Some u -> shown u;
  registry_got w : exists w', registry w' = registry w /\
    run_script get_config_url w = (w', Some (true, match (registry w).1 with Some u => u ++ [13; 10] | None => [] end));
  registry_set u w : quote_free u = true -> shown u -> exists w' out,
    run_script (set_config_url u) w = (w', Some out) /\ registry w' = (Some u, (registry w).2);
  registry_disabled w : exists w' out, run_script disable_proxy w = (w', Some out) /\ registry w' = ((registry w).1, false);
  registry_removed w : exists w' out, run_script remove_config_url w = (w', Some out) /\ registry w' = (None, (registry w).2) }.

Section Windows.
Context {W : Type} {HC : Commands W} {HU : Utf8Lossy} {HL : RegistryLaws W}.
Notation anywhere := (fun _ => True).

Definition windows_saved (u : option bytes) : SavedState := MkSaved u None None.
Definition registry_is (u : option bytes) (e : bool) (w : W) : Prop := registry w = (u, e).

Lemma script_safe script w w' out (Q : option (bool * bytes) -> W -> Prop) :
  run_script script w = (w', out) -> Q out w' -> safe anywhere (spawn_command (bs "powershell") [bs "-Command"; script]) Q w.
Proof. unfold run_script. intros E HQ. apply safe_step; [done|by rewrite E]. Qed.

Lemma windows_save_safe u e w : registry_is u e w ->
  safe anywhere (cf_save_state WindowsConfigurator) (fun r w' => r = Ok (windows_saved u) /\ registry_is u e w') w.
Proof.
  intros Hw. destruct (registry_got w) as (w' & Hr & E). apply safe_bind, (script_safe _ _ _ _ _ E), safe_ret.
  unfold registry_is. rewrite Hr. split; [|done]. rewrite Hw. cbn [fst]. destruct u as [u|]; [|done].
  destruct (registry_text w u) as [-> Hu]; [by rewrite Hw|]. unfold keep, is_empty. cbn. by rewrite bool_decide_false.
Qed.

Lemma windows_install_safe u e w : registry_is u e w ->
  safe anywhere (cf_install WindowsConfigurator PAC_URL) (fun r w' => r = Ok tt /\ registry_is (Some PAC_URL) false w') w.
Proof.
  intros Hw. destruct (registry_set PAC_URL w) as (w1 & out & E1 & H1); [by vm_compute|by split; vm_compute|].
  apply safe_then, safe_bind, (script_safe _ _ _ _ _ E1), safe_ret.
  destruct (registry_disabled w1) as (w2 & out2 & E2 & H2). apply safe_bind, safe_bind, (script_safe _ _ _ _ _ E2), safe_ret, safe_ret.
  split; [done|]. unfold registry_is. by rewrite H2, H1.
Qed.

Lemma windows_restore_safe u u' e w : default true (quote_free <$> u) = true -> (forall v, u = Some v -> shown v) -> registry_is u' e w ->
  safe anywhere (cf_restore_state WindowsConfigurator (windows_saved u)) (fun _ w' => registry_is u e w') w.
Proof.
  intros Hq Hn Hw. apply safe_bind. destruct u as [u|]; cbn [windows_saved previous_pac_url].
  - destruct (registry_set u w) as (w1 & out & E1 & H1); [done|by apply Hn|]. apply safe_bind, (script_safe _ _ _ _ _ E1), safe_ret, safe_ret.
    unfold registry_is. by rewrite H1, Hw.
  - destruct (registry_removed w) as (w1 & out & E1 & H1).
    apply safe_bind, safe_bind, (script_safe _ _ _ _ _ E1), safe_ret, safe_ret, safe_ret. unfold registry_is. by rewrite H1, Hw.
Qed.

(** On Windows the address of the script comes back and the manual proxy does not: it was switched off by the
    installation, is no part of what is saved, and stays off. *)
Theorem windows_proxy_stays_off {HJson : SavedStateJson} {HLaws : SavedStateJsonLaws} io io' (p : PacState W) u e :
  keeps_lock io -> lock_opens io' = true -> unlocked p -> registry_is u e (pac_os p) -> default true (quote_free <$> u) = true ->
  registry_is u false (pac_os (final (pac_uninstall WindowsConfigurator io') (final (pac_install WindowsConfigurator io PAC_URL) p))).
Proof.
  intros Hio Ho Hun Hw Hq. assert (Hn : forall v, u = Some v -> shown v).
  { intros v ->. apply (registry_text (pac_os p)). by rewrite Hw. }
  destruct (fresh_install_safe WindowsConfigurator (windows_saved u) io PAC_URL p (registry_is u e) (registry_is (Some PAC_URL) false))
    as (_ & _ & Hi & Hl & _); [done|by apply windows_save_safe|intros; by eapply windows_install_safe|].
  destruct (locked_uninstall_safe WindowsConfigurator (windows_saved u) io' _ (registry_is (Some PAC_URL) false) (registry_is u false)
    (windows_saved (Some PAC_URL)) (Hl Hio) Ho) as (_ & _ & Hf & _); [by apply windows_save_safe| |done].
  intros w Hw'. replace (os_was_tampered _) with false by (by vm_compute). by apply (windows_restore_safe u (Some PAC_URL)).
Qed.
End Windows.
