(* ===== verification/PacScript.v ===== *)
(** * The proxy script ([kinetic-pac/src/main.rs])

    [build_pac_script] and the handler that serves it: the networks registered
    as files of two directories become the rules of a JavaScript function, with
    the script the system used before behind them.  The text of a file, the
    listing of a directory and the order of a hash map are arguments or
    interfaces. *)
From Stdlib Require Import String.
From S2P Require Import Prelude Bytes Net Proxy.
#[local] Open Scope Z_scope.

(** [struct RegisteredProxy] as it is in a file, where the address may be
    missing, and as it is read. *)
Record RegisteredProxy := MkRegistered { rp_nsp : bytes; rp_port : Z; rp_ip : bytes }.
Definition default_ip : bytes := bs "127.0.0.1".
Definition registered (raw : bytes * Z * option bytes) : RegisteredProxy :=
  let '(nsp, port, ip) := raw in MkRegistered nsp port (default default_ip ip).

(** [serde_json::from_str] at the fields of a file: the port is a [u16]. *)
Class ProxyJson := proxy_from_str : bytes -> option (bytes * Z * option bytes).

(** An entry of a directory: its extension and its text, when it can be read. *)
Record DirEntry := MkDirEntry { de_extension : option bytes; de_text : option bytes }.

Definition ProxyPair : Type := option RegisteredProxy * option RegisteredProxy.
Notation ProxyMap := (gmap bytes ProxyPair).

(** A map in the order its iterator visits it. *)
Class ProxyOrder := proxy_order : ProxyMap -> list (bytes * ProxyPair).
Class ProxyOrderLaws `{ProxyOrder} := proxy_order_perm m : proxy_order m ≡ₚ map_to_list m.

Section Script.
Context {HJson : ProxyJson} {HOrder : ProxyOrder}.

(** The file that is registered, unless it is skipped. *)
Definition entry_proxy (e : DirEntry) : option RegisteredProxy :=
  if bool_decide (de_extension e = Some (bs "json")) then
    contents ← de_text e;
    raw ← proxy_from_str contents;
    let proxy_info := registered raw in
    match parse_ip_addr (rp_ip proxy_info) with Some _ => Some proxy_info | None => None end
  else None.

Definition nsp_of (proxy_info : RegisteredProxy) : bytes :=
  if starts_with [DOT] (rp_nsp proxy_info) then rp_nsp proxy_info else DOT :: rp_nsp proxy_info.

Definition insert_proxy (is_atlas : bool) (proxy_map : ProxyMap) (proxy_info : RegisteredProxy) : ProxyMap :=
  let '(native, atlas) := default (None, None) (proxy_map !! nsp_of proxy_info) in
  <[nsp_of proxy_info := if is_atlas then (native, Some proxy_info) else (Some proxy_info, atlas)]> proxy_map.

(** A directory that cannot be listed has no entries. *)
Definition scan_dir (entries : option (list DirEntry)) (is_atlas : bool) (proxy_map : ProxyMap) : ProxyMap :=
  fold_left (insert_proxy is_atlas) (omap entry_proxy (default [] entries)) proxy_map.

Definition proxy_map_of (natives atlas : option (list DirEntry)) : ProxyMap := scan_dir atlas true (scan_dir natives false ∅).

Definition ipv6_of (p : RegisteredProxy) : bytes := if bool_decide (rp_ip p = default_ip) then bs "[::1]" else rp_ip p.
Definition proxy_text (p : RegisteredProxy) : bytes :=
  bs "PROXY " ++ rp_ip p ++ bs ":" ++ decimal (rp_port p) ++ bs "; PROXY " ++ ipv6_of p ++ bs ":" ++ decimal (rp_port p) ++ bs "; ".
Definition optional_text (p : option RegisteredProxy) : bytes := match p with Some p => proxy_text p | None => [] end.
Definition proxy_string (proxies : ProxyPair) : bytes := optional_text proxies.1 ++ optional_text proxies.2 ++ bs "DIRECT".

(** A double quote and a line end. *)
Definition DQ : bytes := [34].
Definition NL : bytes := [10].
Definition rule_line (pattern answer : bytes) : bytes :=
  bs "    if (shExpMatch(host, " ++ DQ ++ bs "*" ++ pattern ++ DQ ++ bs ")) return " ++ DQ ++ answer ++ DQ ++ bs ";" ++ NL.
Definition rule_lines (e : bytes * ProxyPair) : bytes :=
  rule_line e.1 (proxy_string e.2) ++ rule_line (e.1 ++ [DOT]) (proxy_string e.2).

Definition FIND : bytes := bs "FindProxyForURL".
Definition ORIGINAL_FIND : bytes := bs "OriginalFindProxyForURL".
Definition script_head : bytes := bs "function FindProxyForURL(url, host) {" ++ NL.
Definition script_tail (original : option bytes) : bytes :=
  match original with
  | Some text =>
      bs "    return OriginalFindProxyForURL(url, host);" ++ NL ++ bs "}" ++ NL ++ NL
      ++ bs "// --- USER'S ORIGINAL PAC SCRIPT BELOW ---" ++ NL ++ replace_all FIND ORIGINAL_FIND text
  | None => bs "    return " ++ DQ ++ bs "DIRECT" ++ DQ ++ bs ";" ++ NL ++ bs "}" ++ NL
  end.

Definition build_pac_script (natives atlas : option (list DirEntry)) (original : option bytes) : bytes :=
  script_head ++ concat (map rule_lines (proxy_order (proxy_map_of natives atlas))) ++ script_tail original.

(** The handler: the script for a request whose host is the local one, 403
    otherwise.  [host] is the header, when it is text. *)
Inductive PacReply := PacScript (text : bytes) | PacForbidden.
Definition local_host (host_only : bytes) : bool :=
  bool_decide (host_only = bs "localhost") || bool_decide (host_only = bs "127.0.0.1") || bool_decide (host_only = bs "[::1]").
Definition serve_pac (host : option bytes) (natives atlas : option (list DirEntry)) (original : option bytes) : PacReply :=
  if local_host (before_colon (default [] host)) then PacScript (build_pac_script natives atlas original) else PacForbidden.

End Script.

(** ** What the script says *)

Section Theorems.
Context {HJson : ProxyJson} {HOrder : ProxyOrder} {HLaws : ProxyOrderLaws}.

(** The file of a directory that counts for a name space: the last one read. *)
Definition last_for (nsp : bytes) (entries : option (list DirEntry)) : option RegisteredProxy :=
  last (filter (fun p => nsp_of p = nsp) (omap entry_proxy (default [] entries))).

Definition side (is_atlas : bool) (pair : ProxyPair) : option RegisteredProxy := if is_atlas then pair.2 else pair.1.

(** Nothing registered and a pair of nothing are the same. *)
Definition pair_at (nsp : bytes) (m : ProxyMap) : ProxyPair := default (None, None) (m !! nsp).
Definition no_empty_pair (m : ProxyMap) : Prop := forall nsp, m !! nsp <> Some (None, None).

Lemma insert_proxy_at b nsp m p : pair_at nsp (insert_proxy b m p) =
  if bool_decide (nsp_of p = nsp) then (if b then ((pair_at nsp m).1, Some p) else (Some p, (pair_at nsp m).2)) else pair_at nsp m.
Proof.
  unfold insert_proxy, pair_at. destruct (default (None, None) (m !! nsp_of p)) as [n a] eqn:E. destruct (bool_decide _) eqn:Hn.
  - apply bool_decide_eq_true_1 in Hn. subst nsp. rewrite lookup_insert, decide_True, E by done. by destruct b.
  - apply bool_decide_eq_false_1 in Hn. by rewrite lookup_insert_ne.
Qed.

Lemma insert_proxy_no_empty b m p : no_empty_pair m -> no_empty_pair (insert_proxy b m p).
Proof.
  intros H nsp. unfold insert_proxy. destruct (default (None, None) (m !! nsp_of p)) as [n a].
  rewrite lookup_insert. destruct (decide _); [|apply H]. by destruct b.
Qed.

Lemma scan_dir_at entries b nsp m : no_empty_pair m -> no_empty_pair (scan_dir entries b m) /\
  side b (pair_at nsp (scan_dir entries b m)) =
    match last_for nsp entries with Some p => Some p | None => side b (pair_at nsp m) end /\
  side (negb b) (pair_at nsp (scan_dir entries b m)) = side (negb b) (pair_at nsp m).
Proof.
  unfold scan_dir, last_for. generalize (omap entry_proxy (default [] entries)) as l. intros l. revert m.
  induction l as [|p l IH]; intros m Hm; cbn [fold_left]; [done|].
  destruct (IH _ (insert_proxy_no_empty b m p Hm)) as (H1 & H2 & H3). split; [done|]. rewrite H2, H3, insert_proxy_at, filter_cons.
  destruct (decide (nsp_of p = nsp)) as [E|E].
  - rewrite bool_decide_true, last_cons by done. destruct (last _), b; done.
  - rewrite bool_decide_false by done. done.
Qed.

(** What the maps built from the directories hold. *)
Lemma proxy_map_rules natives atlas nsp proxies : (nsp, proxies) ∈ proxy_order (proxy_map_of natives atlas) <->
  proxies = (last_for nsp natives, last_for nsp atlas) /\ proxies <> (None, None).
Proof.
  set (m := proxy_map_of natives atlas). pose proof (proxy_order_perm m) as Hp.
  assert (H : no_empty_pair m /\ pair_at nsp m = (last_for nsp natives, last_for nsp atlas)).
  { assert (H0 : no_empty_pair ∅) by done.
    split; [apply (scan_dir_at atlas true []); by apply (scan_dir_at natives false [])|].
    destruct (scan_dir_at natives false nsp ∅ H0) as (Hn & H1 & H2). destruct (scan_dir_at atlas true nsp _ Hn) as (_ & H3 & H4).
    unfold m, proxy_map_of. cbn [negb side] in *. rewrite H2 in H3. rewrite H1 in H4.
    destruct (pair_at nsp (scan_dir atlas _ _)) as [n a]. cbn in *. subst.
    unfold pair_at. rewrite lookup_empty. cbn. by destruct (last_for nsp natives), (last_for nsp atlas). }
  destruct H as [He Hl]. rewrite Hp, elem_of_map_to_list. rewrite <- Hl. unfold pair_at. specialize (He nsp).
  unfold ProxyPair in *. destruct (m !! nsp) as [x|]; cbn; (split; [intros [= ->]|intros [-> Hx]]); [split; [done|congruence]|done|done].
Qed.

(** A name space has a rule when something is registered for it, and only one. *)
Lemma script_rules_of natives atlas original : exists rules,
  build_pac_script natives atlas original = script_head ++ concat (map rule_lines rules) ++ script_tail original /\
  forall nsp proxies, (nsp, proxies) ∈ rules <->
    proxies = (last_for nsp natives, last_for nsp atlas) /\ proxies <> (None, None).
Proof.
  exists (proxy_order (proxy_map_of natives atlas)). split; [done|]. apply proxy_map_rules.
Qed.

(** The rules of the script.  Every name space with a registered proxy has exactly one pair of rules, which names the
    last native and the last atlas proxy that were read for it, the native one first; the rules are followed by
    the script of before, or by the direct connection. *)
Theorem script_rules natives atlas original : exists rules,
  build_pac_script natives atlas original = script_head ++ concat (map rule_lines rules) ++ script_tail original /\
  NoDup rules.*1 /\
  forall nsp proxies, (nsp, proxies) ∈ rules <->
    proxies = (last_for nsp natives, last_for nsp atlas) /\ proxies <> (None, None).
Proof.
  exists (proxy_order (proxy_map_of natives atlas)). split; [done|]. split; [|apply proxy_map_rules].
  rewrite (proxy_order_perm _). apply NoDup_fst_map_to_list.
Qed.

Lemma before_colon_cons b s : before_colon (b :: s) = if b =? COLON then [] else b :: before_colon s.
Proof. unfold before_colon. cbn [split_on]. destruct (b =? COLON); [done|]. by destruct (split_on COLON s). Qed.

Lemma before_colon_iff name s : Forall (fun b => b <> COLON) name ->
  before_colon s = name <-> s = name \/ exists port, s = name ++ COLON :: port.
Proof.
  intros Hn. revert s. induction Hn as [|c name Hc Hn IH]; intros [|b s].
  - split; [by left|done].
  - rewrite before_colon_cons. destruct (Z.eqb_spec b COLON) as [->|E].
    + split; [right; by exists s|done].
    + split; [done|]. intros [?|[p [= ?]]]; congruence.
  - split; [done|]. intros [?|[p ?]]; done.
  - rewrite before_colon_cons. destruct (Z.eqb_spec b COLON) as [->|E].
    + split; [done|]. intros [[= ? ?]|[p [= ? ?]]]; congruence.
    + split.
      * intros [= -> H]. apply IH in H as [->|[p ->]]; [by left|right; by exists p].
      * intros [[= -> ->]|[p [= -> ->]]]; f_equal; apply IH; [by left|right; by exists p].
Qed.

(** The script is served exactly to requests for the host [localhost] or [127.0.0.1], with a port or
    without: the bracketed IPv6 address, which the code lists too, is refused in both forms. *)
Theorem pac_served_iff host natives atlas original :
  (serve_pac host natives atlas original = PacScript (build_pac_script natives atlas original) <->
   exists name, (name = bs "localhost" \/ name = bs "127.0.0.1") /\
     (host = Some name \/ exists port, host = Some (name ++ COLON :: port))) /\
  forall port, serve_pac (Some (bs "[::1]" ++ port)) natives atlas original = PacForbidden.
Proof.
  split; [|done]. unfold serve_pac. destruct (local_host _) eqn:E.
  - split; [|done]. intros _. unfold local_host in E. destruct host as [h|]; [|done]. change (default [] (Some h)) with h in E.
    assert (Hc : forall name, name = bs "localhost" \/ name = bs "127.0.0.1" -> before_colon h = name ->
      Some h = Some name \/ exists port, Some h = Some (name ++ COLON :: port)).
    { intros name Hname H. apply before_colon_iff in H as [->|[p ->]]; [by left|right; by exists p|].
      destruct Hname as [->| ->]; repeat constructor; by vm_compute. }
    apply orb_true_iff in E as [E|E%bool_decide_eq_true_1]; [apply orb_true_iff in E as [E|E]; apply bool_decide_eq_true_1 in E; eauto 10|].
    destruct h as [|b h]; [done|]. rewrite before_colon_cons in E.
    destruct (Z.eqb_spec b COLON); [done|]. injection E as -> E.
    assert (Hh : hd 0 (before_colon h) <> COLON); [|by rewrite E in Hh].
    clear. destruct h as [|c h]; [done|]. rewrite before_colon_cons. by destruct (Z.eqb_spec c COLON).
  - split; [done|]. intros (name & Hname & Hh). exfalso.
    assert (H : before_colon (default [] host) = name).
    { destruct Hh as [->|[p ->]]; cbn [default]; (apply before_colon_iff; [destruct Hname as [->| ->]; repeat constructor; by vm_compute|]);
        [by left|right; by exists p]. }
    rewrite H in E. by destruct Hname as [->| ->].
Qed.
End Theorems.
