(* ===== verification/PacExamples.v ===== *)
(** * The proxy server's theorems on concrete desktops

    A desktop whose settings are a map, under [gsettings] and under KDE's
    tools, and the theorems of [Pac], [PacOs] and [PacScript] applied to it. *)
From Stdlib Require Import String.
From stdpp Require Import countable.
From S2P Require Import Prelude Traced Bytes Net DnsTree Store Proxy Pac PacOs PacScript.
#[local] Open Scope Z_scope.

(** Saved settings as one number. *)
#[export] Instance toy_saved_json : SavedStateJson := {|
  saved_to_json s := [Z.pos (encode (previous_pac_url s, proxy_type s, macos_services s))];
  saved_from_json b :=
    match b with [Z.pos p] => (fun x => MkSaved x.1.1 x.1.2 x.2) <$> decode p | _ => None end |}.
#[export] Instance toy_saved_json_laws : SavedStateJsonLaws.
Proof. intros [u t m]. unfold saved_to_json, saved_from_json, toy_saved_json. by rewrite decode_encode. Qed.

Definition toy_io : PacIo :=
  MkPacIo true true (fun text => text) true true Some (fun _ => None) (fun _ => None).
Definition no_lock_io : PacIo :=
  MkPacIo true false (fun text => text) true true Some (fun _ => None) (fun _ => None).
Definition no_files : PacFiles := MkPacFiles None None None.

Lemma toy_io_keeps : keeps_lock toy_io.
Proof. by repeat split. Defined.

Lemma utf8_ascii s : Forall (fun b => 32 <= b < 127 \/ b = 10) s -> utf8_valid s = true.
Proof.
  unfold utf8_valid. induction 1 as [|b s Hb Hs IH]; [done|]. cbn [length utf8_valid_loop].
  assert (E : utf8_width (b :: s) = 1%nat) by (unfold utf8_width; destruct (Z.ltb_spec b 128); [done|lia]).
  by rewrite E.
Qed.

Module ToyGnome.

(** The settings, without their quotes. *)
Notation Desktop := (gmap bytes bytes).
Definition print_text (s : bytes) : bytes := if utf8_valid (quoted s ++ [10]) then quoted s else quoted [].
Definition value (w : Desktop) (key : bytes) : bytes := print_text (default [] (w !! key)).
Definition unquote (v : bytes) : bytes := take (length v - 2) (drop 1 v).

#[export] Instance commands : Commands Desktop := fun program args w =>
  match args with
  | [verb; _; key] => (w, Some (true, value w key ++ [10]))
  | [verb; _; key; v] => (<[key := unquote v]> w, Some (true, []))
  | _ => (w, None)
  end.

Lemma print_unquote s : print_text (unquote (print_text s)) = print_text s.
Proof.
  assert (H : forall s, unquote (quoted s) = s).
  { intros t. unfold unquote. change (drop 1 (quoted t)) with (t ++ [QUOTE]).
    replace (length (quoted t) - 2)%nat with (length t) by (unfold quoted; rewrite !length_app; cbn; lia). apply take_app_length. }
  unfold print_text at 2 3. destruct (utf8_valid (quoted s ++ [10])) eqn:E; rewrite H; [|done]. unfold print_text. by rewrite E.
Qed.

#[export, program] Instance laws : GsettingsLaws Desktop := {|
  gs_value := value; printable _ v := exists s, v = print_text s |}.
Next Obligation. intros w key. by exists (default [] (w !! key)). Qed.
Next Obligation.
  intros key v [s ->]. exists QUOTE. unfold print_text. destruct (utf8_valid (quoted s ++ [10])) eqn:E.
  - exists s. split; [by left|]. by split.
  - exists []. split; [by left|]. by split.
Qed.
Next Obligation.
  intros s H. exists s. unfold print_text.
  rewrite !elem_of_cons, elem_of_nil in H. by destruct H as [->|[->|[->|[]]]].
Qed.
Next Obligation.
  intros s H. exists s. unfold print_text. rewrite utf8_ascii; [done|]. unfold quoted. rewrite !Forall_app, !Forall_singleton.
  split; [split|]; [unfold QUOTE; lia|split; [|unfold QUOTE; lia]|lia].
  eapply Forall_impl; [exact H|]. intros b Hb. cbn in Hb. lia.
Qed.
Next Obligation. intros key w. by exists w. Qed.
Next Obligation.
  intros key v w [s ->]. exists (<[key := unquote (print_text s)]> w). split; [done|]. split.
  - unfold value. rewrite lookup_insert, decide_True by done. apply print_unquote.
  - intros k Hk. unfold value. by rewrite lookup_insert_ne.
Qed.

(** A desktop with the proxy of an office. *)
Definition office : Desktop := {[ MODE := bs "manual"; AUTOCONFIG_URL := bs "http://office/p.pac" ]}.
Notation mode := (quoted (bs "manual")).
Notation url := (quoted (bs "http://office/p.pac")).

Lemma mode_printed : printable MODE mode.
Proof. by exists (bs "manual"). Defined.
Lemma url_printed : printable AUTOCONFIG_URL url.
Proof. by exists (bs "http://office/p.pac"). Defined.
Lemma office_is : gnome_is mode url office.
Proof. by split; vm_compute. Defined.

End ToyGnome.

Section GnomeWitnesses.
Import ToyGnome.
Notation start := (MkPac office no_files).

(** The server is killed while it writes the lock file, and between the two commands. *)
Lemma gnome_settings_survive_kills_witness :
  let q := final (pac_uninstall GnomeConfigurator toy_io)
    (final (pac_install GnomeConfigurator toy_io PAC_URL)
       (fold_left (run_stopped GnomeConfigurator PAC_URL) [(toy_io, 4%nat); (toy_io, 12%nat)] start)) in
  gnome_is mode url (pac_os q) /\ pac_files q = no_files.
Proof.
  pose proof (gnome_settings_survive_kills [(toy_io, 4%nat); (toy_io, 12%nat)] toy_io 0 toy_io start eq_refl
    ltac:(by repeat constructor; apply toy_io_keeps) toy_io_keeps eq_refl eq_refl) as (Hg & Hf & _).
  exact (conj Hg Hf).
Defined.

(** The user turned the proxy off; the mode of before comes back all the same. *)
Lemma gnome_uninstall_drift_witness :
  let saved := Some (saved_to_json (gnome_saved mode url)) in
  let off := MkPac (<[MODE := bs "none"]> (<[AUTOCONFIG_URL := PAC_URL]> office)) (MkPacFiles saved None None) in
  let q := final (pac_uninstall GnomeConfigurator toy_io) off in
  gnome_is mode url (pac_os q) /\ pac_files q = no_files.
Proof.
  intros saved off q.
  destruct (gnome_uninstall_drift mode url mode_printed url_printed toy_io toy_io off eq_refl eq_refl) as [H _].
  specialize (H (quoted (bs "none")) KINETIC_URL ltac:(by vm_compute) ltac:(by split; vm_compute)) as [Hf Hg].
  change (address_is_ours KINETIC_URL) with true in Hg. exact (conj Hg Hf).
Defined.

Lemma gnome_unsaved_lost_witness :
  gnome_is (quoted (bs "none")) KINETIC_URL
    (pac_os (final (pac_uninstall GnomeConfigurator toy_io) (final (pac_install GnomeConfigurator no_lock_io PAC_URL) start))).
Proof.
  apply (gnome_unsaved_lost mode url no_lock_io toy_io start eq_refl eq_refl office_is).
Defined.
End GnomeWitnesses.

Module ToyKde.

Notation Desktop := (gmap bytes bytes).
Definition plain (v : bytes) : bool := bool_decide (trim (v ++ [10]) = v) && utf8_valid (v ++ [10]).
Definition value (w : Desktop) (key : bytes) : bytes := let v := default [] (w !! key) in if plain v then v else [].

#[export] Instance commands : Commands Desktop := fun program args w =>
  match args with
  | [_; _; _; _; _; key] => (w, Some (true, value w key ++ [10]))
  | [_; _; _; _; _; key; v] => (<[key := v]> w, Some (true, []))
  | _ => (w, None)
  end.

#[export, program] Instance laws : KdeLaws Desktop := {| kde_value := value; kde_plain v := plain v = true |}.
Next Obligation. intros w key. cbn. unfold value. by destruct (plain (default [] (w !! key))) eqn:E. Qed.
Next Obligation. intros v H. cbn in H. apply andb_true_iff in H as [H1%bool_decide_eq_true_1 H2]. done. Qed.
Next Obligation. by vm_compute. Qed.
Next Obligation. intros key w. by exists w. Qed.
Next Obligation.
  intros key v w H. cbn in H. exists (<[key := v]> w). split; [done|]. split.
  - unfold value. rewrite lookup_insert, decide_True by done. cbn. by rewrite H.
  - intros k Hk. unfold value. by rewrite lookup_insert_ne.
Qed.
Next Obligation. intros w. by exists w, tt. Qed.

(** A desktop without a proxy. *)
Definition bare : Desktop := ∅.

End ToyKde.

Section KdeWitness.
Import ToyKde.

Lemma kde_address_left_witness :
  let q := final (pac_uninstall KdeConfigurator toy_io)
    (final (pac_install KdeConfigurator toy_io PAC_URL) (MkPac bare no_files)) in
  kde_is (bs "0") PAC_URL (pac_os q).
Proof.
  assert (Hplain : kde_plain (bs "0") /\ kde_plain []) by by split; vm_compute.
  assert (Hbare : kde_is (bs "0") [] bare) by by split; vm_compute.
  assert (Hz : bs "0" <> []) by discriminate.
  exact (proj1 (kde_address_left (bs "0") toy_io toy_io (MkPac bare no_files) (proj1 Hplain) Hz (proj2 Hplain)
    toy_io_keeps eq_refl eq_refl Hbare)).
Defined.
End KdeWitness.

Module ToyWindows.

#[export] Instance lossy : Utf8Lossy := fun s => s.
Notation Registry := (option bytes * bool)%type.
Definition readable (u : bytes) : bool := bool_decide (trim (from_utf8_lossy (u ++ [13; 10])) = u) && negb (bool_decide (u = [])).
Definition visible (w : Registry) : Registry := (w.1 ≫= (fun u => if readable u then Some u else None), w.2).

(** The address in [set_config_url]. *)
Definition address_in (script : bytes) : bytes :=
  let prefix := length (set_config_url []) in take (length script - prefix) (drop (prefix - 1) script).

#[export] Instance commands : Commands Registry := fun _ args w =>
  match args with
  | [_; script] =>
      if bool_decide (script = get_config_url) then (w, Some (true, match (visible w).1 with Some u => u ++ [13; 10] | None => [] end))
      else if bool_decide (script = disable_proxy) then ((w.1, false), Some (true, []))
      else if bool_decide (script = remove_config_url) then ((None, w.2), Some (true, []))
      else ((Some (address_in script), w.2), Some (true, []))
  | _ => (w, None)
  end.

Lemma readable_shown u : readable u = true <-> shown u.
Proof.
  unfold readable, shown. rewrite andb_true_iff, bool_decide_eq_true, negb_true_iff, bool_decide_eq_false. done.
Qed.

Lemma address_in_set u : address_in (set_config_url u) = u.
Proof.
  unfold address_in, set_config_url. rewrite !app_assoc. set (a := (_ ++ INTERNET_SETTINGS) ++ _).
  rewrite app_nil_r, !length_app. cbn [length]. rewrite <- app_assoc.
  replace (length a + length (bs "'") - 1)%nat with (length a) by (cbn; lia).
  rewrite drop_app_length.
  replace (length a + length u + length (bs "'") - (length a + length (bs "'")))%nat with (length u) by lia.
  apply take_app_length.
Qed.

#[export, program] Instance laws : RegistryLaws Registry := {| registry := visible |}.
Next Obligation. intros w u H. cbn in H. destruct w.1 as [v|]; [|done]. cbn in H. destruct (readable v) eqn:E; [|done]. injection H as <-. by apply readable_shown. Qed.
Next Obligation. intros w. by exists w. Qed.
Next Obligation.
  intros u w _ Hu. exists (Some u, w.2), (true, []). split.
  - unfold run_script, command, commands. rewrite !bool_decide_false by (intros E; apply (f_equal (take 98)) in E; vm_compute in E; discriminate E).
    by rewrite address_in_set.
  - unfold visible. cbn. by rewrite (proj2 (readable_shown u) Hu).
Qed.
Next Obligation. intros w. by exists (w.1, false), (true, []). Qed.
Next Obligation. intros w. by exists (None, w.2), (true, []). Qed.

End ToyWindows.

Section WindowsWitness.
Import ToyWindows.

Lemma windows_proxy_stays_off_witness :
  registry_is (Some (bs "http://office/p.pac")) false
    (pac_os (final (pac_uninstall WindowsConfigurator toy_io)
      (final (pac_install WindowsConfigurator toy_io PAC_URL) (MkPac (Some (bs "http://office/p.pac"), true) no_files)))).
Proof.
  assert (Hr : registry_is (Some (bs "http://office/p.pac")) true (Some (bs "http://office/p.pac"), true)) by by vm_compute.
  apply (windows_proxy_stays_off toy_io toy_io (MkPac (Some (bs "http://office/p.pac"), true) no_files)
    (Some (bs "http://office/p.pac")) true toy_io_keeps eq_refl eq_refl Hr eq_refl).
Defined.
End WindowsWitness.

Section ScriptWitness.

(** A file whose text is a name space and nothing else. *)
#[local] Instance toy_proxy_json : ProxyJson := fun text => Some (text, 17001, None).
#[local] Instance toy_order : ProxyOrder := map_to_list.
#[local] Instance toy_order_laws : ProxyOrderLaws.
Proof. intros m. done. Defined.

Definition kin_file : DirEntry := MkDirEntry (Some (bs "json")) (Some (bs "kin")).

Lemma script_rules_witness : exists rules,
  build_pac_script (Some [kin_file]) None None = script_head ++ concat (map rule_lines rules) ++ script_tail None /\
  (bs ".kin", (Some (MkRegistered (bs "kin") 17001 default_ip), None)) ∈ rules.
Proof.
  destruct (script_rules (Some [kin_file]) None None) as (rules & H & _ & Hr). exists rules. split; [exact H|].
  apply Hr. split; [by vm_compute|done].
Defined.
End ScriptWitness.
