(* ===== verification/Ca.v ===== *)
(** * The local certificate authority ([kinetic-daemon/src/ca.rs])

    Loading or making the root certificate and its key, which the operating
    system's keychain or a file keeps; the lock file that guards this; and the cache of
    the certificates made for each host.  Certificates and keys are an interface; what the file system and the
    keychain do in one call is an argument. *)
From Stdlib Require Import String.
From S2P Require Import Prelude Sorting Traced Bytes Config.
#[local] Open Scope Z_scope.

Inductive CaError := CaIo | CaRcgen | CaRustls.

(** ** The lock file *)

(** One round of the loop: the lock is free, is held, or cannot be made at all. *)
Inductive Acquired := LockTaken (slept_ms : Z) (forced : bool) | LockFailed.

Definition LOCK_RETRIES : Z := 100.
Definition LOCK_SLEEP_MS : Z := 50.

Section Lock.
(** Whether the file can be made when it is absent and be removed, and what other processes make of it
    before each attempt. *)
Context (creatable removable : bool) (others : nat -> bool -> bool).

(** [held]: the lock file exists.  The answer is nothing when the fuel is spent. *)
Fixpoint acquire (fuel i : nat) (held : bool) (retries slept : Z) (forced : bool) : option Acquired :=
  match fuel with
  | O => None
  | S fuel =>
      let held := others i held in
      if held then
        let retries := retries + 1 in
        if LOCK_RETRIES <? retries then acquire fuel (S i) (negb removable) retries slept removable
        else acquire fuel (S i) true retries (slept + LOCK_SLEEP_MS) forced
      else if creatable then Some (LockTaken slept forced) else Some LockFailed
  end.
End Lock.

(** ** Certificates and keys *)

(** The fields the code sets in the parameters of the root certificate. *)
Record CaParams := MkCaParams {
  common_name : bytes;
  organization : bytes;
  path_length : Z;
  permitted_subtrees : list bytes;
  excluded_subtrees : list bytes;
  valid_from : Z;
  valid_until : Z }.

(** A certificate of an authority and a key in PEM: generating and signing a
    pair from random bytes; the end of a certificate's validity, when it can be
    read; whether a key can be read and a certificate be signed again with it; and whether a certificate is for
    a key. *)
Class CaCodec := {
  generate_ca : CaParams -> bytes -> option (bytes * bytes);
  not_after : bytes -> option Z;
  key_readable : bytes -> bool;
  self_signable : bytes -> bytes -> bool;
  certifies : bytes -> bytes -> bool }.

(** Documented behaviour: what is generated can be read back, and a
    certificate is for one key. *)
Class CaCodecLaws `{CaCodec} := {
  generated_ok p random cert key : generate_ca p random = Some (cert, key) ->
    not_after cert = Some (valid_until p) /\ key_readable key = true /\ self_signable cert key = true /\ certifies cert key = true;
  certified_once cert k1 k2 : certifies cert k1 = true -> certifies cert k2 = true -> k1 = k2 }.

Record CaState := MkCa {
  cert_file : option bytes;
  key_file : option bytes;
  keychain : option bytes;
  lock_present : bool }.

Definition set_cert (c : option bytes) (s : CaState) : CaState := MkCa c (key_file s) (keychain s) (lock_present s).
Definition set_key_file (k : option bytes) (s : CaState) : CaState := MkCa (cert_file s) k (keychain s) (lock_present s).
Definition set_keychain (k : option bytes) (s : CaState) : CaState := MkCa (cert_file s) (key_file s) k (lock_present s).
Definition set_lock_present (l : bool) (s : CaState) : CaState := MkCa (cert_file s) (key_file s) (keychain s) l.

Record RootCa := MkRootCa { ca_cert_pem : bytes; ca_key_pem : bytes }.

(** Writing a file: done, or an error that leaves the file as it was or with some text. *)
Inductive WriteOutcome := Written | Torn (rest : option bytes).
Definition overwrite {S} (set : option bytes -> S -> S) (data : bytes) (o : WriteOutcome) : Traced S (Result CaError unit) :=
  match o with
  | Written => modify (set (Some []));; modify (set (Some data));; mret (Ok tt)
  | Torn (Some rest) => modify (set (Some rest));; mret (Err CaIo)
  | Torn None => mret (Err CaIo)
  end.

(** One call: the clock, what can be read, whether the keychain answers and
    stores, the random bytes, what becomes of the files, and whether files can be removed. *)
Record CaIoState := MkCaIo {
  ca_now : Z;
  cert_opens : bool;
  key_opens : bool;
  keychain_answers : bool;
  keychain_stores : bool;
  ca_random : bytes;
  cert_written : WriteOutcome;
  key_written : WriteOutcome;
  ca_removes : bool }.

Definition DAY : Z := 86400.
Definition ROTATE_BEFORE : Z := 30 * DAY.
Definition ROOT_VALIDITY : Z := 730 * DAY.

Section Root.
(** [salt_hex] is the constant [NETWORK_SALT_HEX] the build makes. *)
Context {HC : CaCodec} (salt_hex : bytes) (io : CaIoState).

(** The key: the keychain's, else the file's. *)
Definition load_key (s : CaState) : Result CaError bytes :=
  match (if keychain_answers io then keychain s else None) with
  | Some k => Ok k
  | None => ok_or (if key_opens io then key_file s else None) CaIo
  end.

(** The authority on disk; nothing when there is none or it ends within 30 days. *)
Definition load_root_ca (s : CaState) : Result CaError (option RootCa) :=
  match cert_file s with
  | None => Ok None
  | Some cert =>
      cert_pem ← ok_or (if cert_opens io then Some cert else None) CaIo;
      key_pem ← load_key s;
      bail_if (negb (key_readable key_pem)) CaRcgen;;
      valid_until ← ok_or (not_after cert_pem) CaRcgen;
      if ca_now io + ROTATE_BEFORE >? valid_until then Ok None
      else
        bail_if (negb (self_signable cert_pem key_pem)) CaRcgen;;
        Ok (Some (MkRootCa cert_pem key_pem))
  end.

(** The network's suffix and the first four digits of its salt. *)
Definition ca_prefix : bytes := NSP_SUFFIX ++ bs "-" ++ take 4 salt_hex.
Definition root_params : CaParams :=
  MkCaParams (ca_prefix ++ bs " Local Root CA") (ca_prefix ++ bs " Protocol") 0 [bs "kin"; NSP_SUFFIX] []
    (ca_now io) (ca_now io + ROOT_VALIDITY).

(** The certificate is written, then the key is kept in the keychain or a file. *)
Definition keep_key (key_pem : bytes) : Traced CaState (Result CaError unit) :=
  if keychain_stores io then
    modify (set_keychain (Some key_pem));;
    (if ca_removes io then modify (set_key_file None) else mret tt);;
    mret (Ok tt)
  else overwrite set_key_file key_pem (key_written io).

Definition create_root_ca : Traced CaState (Result CaError RootCa) :=
  pair ←? mret (ok_or (generate_ca root_params (ca_random io)) CaRcgen);
  _ ←? overwrite set_cert pair.1 (cert_written io);
  _ ←? keep_key pair.2;
  mret (Ok (MkRootCa pair.1 pair.2)).

Definition with_lock_held : Traced CaState (Result CaError (RootCa * bool)) :=
  found ←? look load_root_ca;
  match found with
  | Some ca => mret (Ok (ca, false))
  | None => ca ←? create_root_ca; mret (Ok (ca, true))
  end.

Definition load_or_create_root_ca (lock : Acquired) : Traced CaState (Result CaError (RootCa * bool)) :=
  match lock with
  | LockFailed => mret (Err CaIo)
  | LockTaken _ _ =>
      modify (set_lock_present true);;
      result ← with_lock_held;
      (if ca_removes io then modify (set_lock_present false) else mret tt);;
      mret result
  end.

End Root.

(** ** [LeafCertCache] *)

(** A server configuration is the chain made for a domain; [generate_leaf_cert]
    may fail. *)
Class LeafCerts (ServerConfig : Type) := generate_leaf_cert : bytes -> RootCa -> Result CaError ServerConfig.
(** The map in the order its iterator visits it. *)
Class LeafOrder (ServerConfig : Type) := leaf_order : gmap bytes (ServerConfig * Z) -> list (bytes * (ServerConfig * Z)).
Class LeafOrderLaws (ServerConfig : Type) `{LeafOrder ServerConfig} := leaf_order_perm m : leaf_order m ≡ₚ map_to_list m.

Section Leaves.
Context {ServerConfig : Type} {HG : LeafCerts ServerConfig} {HO : LeafOrder ServerConfig}.

Record LeafCertCache := MkLeafs { entries : gmap bytes (ServerConfig * Z); max_entries : nat }.
Definition leaf_cache_new : LeafCertCache := MkLeafs ∅ 256.

(** Seconds; [Instant] does not run back. *)
Definition LEAF_LIFETIME : Z := 3600.

Definition evict_oldest (m : gmap bytes (ServerConfig * Z)) : gmap bytes (ServerConfig * Z) :=
  match min_by_key (fun e => e.2.2) (leaf_order m) with Some (key, _) => delete key m | None => m end.

Definition load_or_create (now : Z) (domain : bytes) (root_ca : RootCa) (c : LeafCertCache) : LeafCertCache * Result CaError ServerConfig :=
  let fresh :=
    match entries c !! domain with
    | Some (config, created) => if now - created <? LEAF_LIFETIME then Some config else None
    | None => None
    end in
  match fresh with
  | Some config => (c, Ok config)
  | None =>
      let kept := if (max_entries c <=? size (entries c))%nat then evict_oldest (entries c) else entries c in
      match generate_leaf_cert domain root_ca with
      | Ok config => (MkLeafs (<[domain := (config, now)]> kept) (max_entries c), Ok config)
      | Err e => (MkLeafs kept (max_entries c), Err e)
      end
  end.
End Leaves.
Arguments LeafCertCache : clear implicits.

(** ** The lock is always taken, at last *)

Lemma acquire_S c r others fuel i held retries slept forced :
  acquire c r others (S fuel) i held retries slept forced =
    if others i held then
      if LOCK_RETRIES <? retries + 1 then acquire c r others fuel (S i) (negb r) (retries + 1) slept r
      else acquire c r others fuel (S i) true (retries + 1) (slept + LOCK_SLEEP_MS) forced
    else if c then Some (LockTaken slept forced) else Some LockFailed.
Proof. done. Qed.

(** The wait for the lock ends after at most five seconds when the file can be removed and nobody makes it anew: it is taken
    when it is released, or by force after the hundredth sleep, even if its owner is still at
    work.  A lock that is there and cannot be removed makes the call spin for ever. *)
Theorem lock_wait_ends others held :
  (forall i, others i false = false) ->
  (exists slept forced, acquire true true others 103 0 held 0 0 false = Some (LockTaken slept forced) /\
     0 <= slept <= LOCK_RETRIES * LOCK_SLEEP_MS /\ (forced = true -> slept = LOCK_RETRIES * LOCK_SLEEP_MS)) /\
  (forall fuel, acquire true false (fun _ h => h) fuel 0 true 0 0 false = None).
Proof.
  intros Ho. split.
  - enough (H : forall n i held, (n <= 100)%nat -> exists slept forced,
      acquire true true others (S (S (S n))) i held (100 - Z.of_nat n) ((100 - Z.of_nat n) * LOCK_SLEEP_MS) false = Some (LockTaken slept forced) /\
      0 <= slept <= LOCK_RETRIES * LOCK_SLEEP_MS /\ (forced = true -> slept = LOCK_RETRIES * LOCK_SLEEP_MS)) by by apply (H 100%nat).
    unfold LOCK_SLEEP_MS, LOCK_RETRIES in *. clear held. induction n as [|n IH]; intros i held Hn.
    + cbn [acquire]. destruct (others i held); cbn [negb].
      * unfold LOCK_RETRIES. rewrite (proj2 (Z.ltb_lt _ _)) by lia. cbn [negb]. rewrite Ho. exists ((100 - Z.of_nat 0) * 50), true. split; [done|]. cbn. lia.
      * exists ((100 - Z.of_nat 0) * 50), false. split; [done|]. cbn. lia.
    + rewrite acquire_S. destruct (others i held).
      * unfold LOCK_RETRIES, LOCK_SLEEP_MS. rewrite (proj2 (Z.ltb_ge _ _)) by lia.
        specialize (IH (S i) true ltac:(lia)).
        replace (100 - Z.of_nat (S n) + 1) with (100 - Z.of_nat n) by lia.
        replace ((100 - Z.of_nat (S n)) * 50 + 50) with ((100 - Z.of_nat n) * 50) by lia. done.
      * exists ((100 - Z.of_nat (S n)) * 50), false. split; [done|]. lia.
  - intros fuel. enough (H : forall i retries slept, acquire true false (fun _ h => h) fuel i true retries slept false = None) by apply H.
    induction fuel as [|fuel IH]; intros i retries slept; [done|]. rewrite acquire_S. cbn [negb]. destruct (_ <? _); apply IH.
Qed.

(** ** The authority on disk *)

Section RootTheorems.
Context {HC : CaCodec} {HL : CaCodecLaws} (salt_hex : bytes).
Implicit Types (s : CaState) (io : CaIoState).

Notation call := (load_or_create_root_ca salt_hex).
Notation anywhere := (fun _ => True).

(** Removing the lock file and taking it change nothing of the rest. *)
Definition same_store s t : Prop := cert_file s = cert_file t /\ key_file s = key_file t /\ keychain s = keychain t.

Lemma load_same io s t : same_store s t -> load_root_ca io s = load_root_ca io t.
Proof. intros (H1 & H2 & H3). unfold load_root_ca, load_key. by rewrite H1, H2, H3. Qed.

Lemma call_spec io a b s : let r := with_lock_held salt_hex io (set_lock_present true s) in
  result_of (call io (LockTaken a b)) s = r.2.2 /\ same_store (final (call io (LockTaken a b)) s) r.2.1.
Proof.
  cbn zeta. unfold load_or_create_root_ca, result_of, final, mbind, traced_bind, modify, step_with. cbn.
  destruct (with_lock_held _ _ _) as [l [u x]]. cbn. destruct (ca_removes io); by repeat split.
Qed.

Lemma held_spec io s : with_lock_held salt_hex io s =
  match load_root_ca io s with
  | Ok (Some ca) => ([], (s, Ok (ca, false)))
  | Ok None => (ca ←? create_root_ca salt_hex io; mret (Ok (ca, true))) s
  | Err e => ([], (s, Err e))
  end.
Proof.
  unfold with_lock_held, and_then, look, mbind, traced_bind. destruct (load_root_ca io s) as [[ca|]|e]; [done| |done].
  destruct (create_root_ca salt_hex io s) as [l [t [r|]]]; done.
Qed.

(** What a creation that ended well has written. *)
Lemma created_spec io s ca : result_of (create_root_ca salt_hex io) s = Ok ca ->
  generate_ca (root_params salt_hex io) (ca_random io) = Some (ca_cert_pem ca, ca_key_pem ca) /\
  let t := final (create_root_ca salt_hex io) s in
  cert_file t = Some (ca_cert_pem ca) /\
  if keychain_stores io then keychain t = Some (ca_key_pem ca)
  else key_file t = Some (ca_key_pem ca) /\ keychain t = keychain s.
Proof.
  unfold result_of, final, create_root_ca, keep_key, and_then, mbind, traced_bind, mret, traced_ret.
  destruct (generate_ca _ _) as [[c k]|]; cbn; [|done]. destruct (cert_written io) as [|[rest|]]; cbn; [|done..].
  destruct (keychain_stores io).
  - destruct (ca_removes io); cbn; by intros [= <-].
  - destruct (key_written io) as [|[rest|]]; cbn; [|done..]. by intros [= <-].
Qed.

(** Loading when the certificate is the one that was made. *)
Lemma load_made io' until t cert : cert_file t = Some cert -> not_after cert = Some until -> cert_opens io' = true ->
  ca_now io' + ROTATE_BEFORE <= until ->
  load_root_ca io' t = (key_pem ← load_key io' t; bail_if (negb (key_readable key_pem)) CaRcgen;;
    bail_if (negb (self_signable cert key_pem)) CaRcgen;; Ok (Some (MkRootCa cert key_pem))).
Proof.
  intros Hc Hn Ho Hl. unfold load_root_ca. rewrite Hc, Ho. cbn. destruct (load_key io' t) as [k|]; cbn; [|done].
  destruct (key_readable k); cbn; [|done]. rewrite Hn. cbn. by rewrite Z.gtb_ltb, (proj2 (Z.ltb_ge _ _)).
Qed.

(** The same of a whole call. *)
Lemma call_created io lock s ca : result_of (call io lock) s = Ok (ca, true) ->
  generate_ca (root_params salt_hex io) (ca_random io) = Some (ca_cert_pem ca, ca_key_pem ca) /\
  let t := final (call io lock) s in
  cert_file t = Some (ca_cert_pem ca) /\
  if keychain_stores io then keychain t = Some (ca_key_pem ca)
  else key_file t = Some (ca_key_pem ca) /\ keychain t = keychain s.
Proof.
  intros Hr. destruct lock as [a0 b0|]; [|done].
  destruct (call_spec io a0 b0 s) as [E1 E2]. rewrite Hr, held_spec in E1. rewrite held_spec in E2.
  destruct (load_root_ca io (set_lock_present true s)) as [[ca0|]|e]; [by injection E1|..|done].
  set (u := set_lock_present true s) in *.
  assert (Hm : result_of (create_root_ca salt_hex io) u = Ok ca /\
    final (ca ←? create_root_ca salt_hex io; mret (Ok (ca, true))) u = final (create_root_ca salt_hex io) u).
  { revert E1. unfold result_of, final, and_then, mbind, traced_bind. destruct (create_root_ca _ _ _) as [l [t [r|]]]; cbn; [|done].
    by intros [= ->]. }
  destruct Hm as [Hm Hm2]. destruct (created_spec _ _ _ Hm) as (Hg & Hcert & Hkey). split; [done|].
  destruct E2 as (F1 & F2 & F3). unfold final in Hm2 at 1. rewrite Hm2 in F1, F2, F3.
  cbn zeta. rewrite F1, F2, F3. by split.
Qed.

(** What a certificate gives with a key that was found. *)
Definition key_verdict (cert key_pem : bytes) : Result CaError (option RootCa) :=
  bail_if (negb (key_readable key_pem)) CaRcgen;; bail_if (negb (self_signable cert key_pem)) CaRcgen;; Ok (Some (MkRootCa cert key_pem)).

Lemma key_verdict_cases cert k : key_verdict cert k = Ok (Some (MkRootCa cert k)) \/ exists e, key_verdict cert k = Err e.
Proof.
  unfold key_verdict. destruct (key_readable k); cbn; [|by right; eexists]. destruct (self_signable _ k); cbn; [by left|by right; eexists].
Qed.

(** Where the key of a new authority is looked for, and what is found. *)
Lemma reload_cases io io' lock a b s ca :
  result_of (call io lock) s = Ok (ca, true) ->
  cert_opens io' = true -> key_opens io' = true -> keychain_answers io' = true ->
  ca_now io' + ROTATE_BEFORE <= ca_now io + ROOT_VALIDITY ->
  let s1 := final (call io lock) s in
  certifies (ca_cert_pem ca) (ca_key_pem ca) = true /\
  ((keychain_stores io = true \/ keychain s = None \/ keychain s = Some (ca_key_pem ca)) /\
      result_of (call io' (LockTaken a b)) s1 = Ok (ca, false) \/
    exists k, k <> ca_key_pem ca /\ keychain_stores io = false /\ keychain s = Some k /\
      (result_of (call io' (LockTaken a b)) s1 = Ok (MkRootCa (ca_cert_pem ca) k, false) \/
       exists e, result_of (call io' (LockTaken a b)) s1 = Err e)).
Proof.
  intros Hr Hc Hk Ha Hn s1. destruct (call_created _ _ _ _ Hr) as (Hg & Hcert & Hkey). fold s1 in Hcert, Hkey.
  destruct (generated_ok _ _ _ _ Hg) as (Hna & Hread & Hself & Hcert_k). split; [done|].
  destruct (call_spec io' a b s1) as [G _]. rewrite held_spec in G.
  rewrite (load_made io' (ca_now io + ROOT_VALIDITY) _ (ca_cert_pem ca)) in G by done. unfold load_key in G. rewrite Ha, Hk in G.
  cbn [set_lock_present keychain key_file] in G. fold (key_verdict (ca_cert_pem ca)) in G.
  assert (Hgood : key_verdict (ca_cert_pem ca) (ca_key_pem ca) = Ok (Some ca))
    by (unfold key_verdict; rewrite Hread, Hself; by destruct ca).
  assert (Hfound : load_key io' s1 = Ok (ca_key_pem ca) -> result_of (call io' (LockTaken a b)) s1 = Ok (ca, false)).
  { unfold load_key. rewrite Ha, Hk. intros E. rewrite E in G. cbn in G. fold (key_verdict (ca_cert_pem ca) (ca_key_pem ca)) in G.
    by rewrite Hgood in G. }
  unfold load_key in Hfound. rewrite Ha, Hk in Hfound. destruct (keychain_stores io).
  - left. split; [by left|]. apply Hfound. by rewrite Hkey.
  - destruct Hkey as [Hf Hch]. rewrite Hf, Hch in Hfound. rewrite Hch in G. destruct (keychain s) as [k|].
    + destruct (decide (k = ca_key_pem ca)) as [->|Hne]; [left; split; [by right; right|by apply Hfound]|].
      right. exists k. do 3 (split; [done|]). cbn in G. fold (key_verdict (ca_cert_pem ca) k) in G.
      destruct (key_verdict_cases (ca_cert_pem ca) k) as [E|[e E]]; rewrite E in G; [by left|right; by exists e].
    + left. split; [by right; left|by apply Hfound].
Qed.

(** C23: A new authority is found again only where its key was kept.  Until thirty days before it ends a later call that can
    read everything returns a certificate with the key it is for exactly when the keychain took the key, or held none,
    or the same one; it is then the authority that was made.  A keychain that kept an older key, or that of
    another network, which has the same entry, gives a key the certificate is not for. *)
Theorem ca_found_again_iff io io' lock a b s ca :
  result_of (call io lock) s = Ok (ca, true) ->
  cert_opens io' = true -> key_opens io' = true -> keychain_answers io' = true ->
  ca_now io' + ROTATE_BEFORE <= ca_now io + ROOT_VALIDITY ->
  let again := result_of (call io' (LockTaken a b)) (final (call io lock) s) in
  ((exists found made, again = Ok (found, made) /\ certifies (ca_cert_pem found) (ca_key_pem found) = true) <->
   keychain_stores io = true \/ keychain s = None \/ keychain s = Some (ca_key_pem ca)) /\
  (forall found made, again = Ok (found, made) -> made = false /\ ca_cert_pem found = ca_cert_pem ca /\
     (certifies (ca_cert_pem found) (ca_key_pem found) = true -> found = ca)).
Proof.
  intros Hr Hc Hk Ha Hn again.
  destruct (reload_cases io io' lock a b s ca Hr Hc Hk Ha Hn) as [Hcert [[Hc1 E]|(k & Hne & Hs & Hch & E)]]; fold again in E.
  - rewrite E. split; [split; [done|intros _; by exists ca, false]|]. intros found made [= <- <-]. done.
  - split; [split|].
    + intros (found & made & E' & Hf). destruct E as [E|[e E]]; rewrite E in E'; [|done]. injection E' as <- <-. cbn in Hf.
      destruct Hne. by eapply certified_once.
    + intros [H|[H|H]]; congruence.
    + intros found made E'. destruct E as [E|[e E]]; rewrite E in E'; [|done]. injection E' as <- <-. cbn. do 2 (split; [done|]).
      intros Hf. destruct Hne. by eapply certified_once.
Qed.

(** A creation that is cut short is never made good.  If the process is stopped after the certificate was
    written and before its key was kept, every later call fails, whatever it can read and write, and changes none of the
    files. *)
Theorem interrupted_creation_final io s a b pair :
  cert_file s = None -> key_file s = None -> keychain s = None -> cert_written io = Written ->
  generate_ca (root_params salt_hex io) (ca_random io) = Some pair ->
  exists n, let s' := stopped n (call io (LockTaken a b)) s in cert_file s' = Some pair.1 /\
    forall io' lock, result_of (call io' lock) s' = Err CaIo /\ same_store (final (call io' lock) s') s'.
Proof.
  intros Hc Hk Hch Hw Hg. set (made := set_cert (Some pair.1) (set_cert (Some []) (set_lock_present true s))).
  assert (Hp : passes (call io (LockTaken a b)) s made).
  { apply passes_bind_r, passes_bind_l. change (final (modify (set_lock_present true)) s) with (set_lock_present true s).
    unfold passes. rewrite held_spec. replace (load_root_ca io _) with (@Ok CaError _ (@None RootCa)) by (unfold load_root_ca; cbn; by rewrite Hc).
    apply passes_bind_l, passes_bind_r. unfold result_of, final. cbn [mret traced_ret fst snd]. rewrite Hg. cbn [ok_or].
    apply passes_bind_l. rewrite Hw. apply passes_bind_r, passes_bind_l.
    change made with ((fun t => (set_cert (Some pair.1) t, tt)) (set_cert (Some []) (set_lock_present true s))).1. apply passes_step. }
  destruct (passes_stopped _ _ _ Hp) as [n Hs]. exists n.
  cbn zeta. rewrite Hs. split; [done|]. clear Hs. intros io' lock. destruct lock as [a' b'|]; [|by repeat split].
  destruct (call_spec io' a' b' made) as [-> E]. rewrite held_spec in *.
  assert (Hl : load_root_ca io' (set_lock_present true made) = Err CaIo).
  { unfold load_root_ca. cbn. destruct (cert_opens io'); [|done]. cbn. unfold load_key. cbn. rewrite Hch, Hk.
    by destruct (keychain_answers io'), (key_opens io'). }
  rewrite Hl in *. by split.
Qed.

(** An authority that is returned without being made ends more than thirty days later. *)
Lemma loaded_lifetime io lock s ca : result_of (call io lock) s = Ok (ca, false) ->
  exists until, not_after (ca_cert_pem ca) = Some until /\ ca_now io + ROTATE_BEFORE <= until.
Proof.
  destruct lock as [a b|]; [|done]. destruct (call_spec io a b s) as [-> _]. rewrite held_spec.
  destruct (load_root_ca io (set_lock_present true s)) as [[ca0|]|e] eqn:E; [|..|done].
  - intros [= ->]. unfold load_root_ca in E. destruct (cert_file _) as [cert|]; [|done].
    apply bind_ok in E as (c & _ & E). apply bind_ok in E as (k & _ & E). apply bail_if_ok in E as [_ E].
    apply bind_ok in E as (u & Hu & E). destruct (_ >? u) eqn:Hlt; [done|]. apply bail_if_ok in E as [_ E]. injection E as <-.
    apply ok_or_ok in Hu. exists u. split; [done|]. zbool. lia.
  - unfold and_then, mbind, traced_bind. destruct (create_root_ca _ _ _) as [l [t [r|]]]; done.
Qed.
End RootTheorems.

(** ** The cache of certificates *)

Section LeafTheorems.
Context {ServerConfig : Type} {HG : LeafCerts ServerConfig} {HO : LeafOrder ServerConfig} {HL : LeafOrderLaws ServerConfig}.

Lemma evict_spec (m : gmap bytes (ServerConfig * Z)) : m <> ∅ ->
  exists key config t, m !! key = Some (config, t) /\ evict_oldest m = delete key m /\
    forall key' config' t', m !! key' = Some (config', t') -> t <= t'.
Proof.
  intros Hm. unfold evict_oldest. pose proof (leaf_order_perm m) as Hp. destruct (min_by_key _ _) as [[key [config t]]|] eqn:E.
  - apply min_by_key_some in E as [Hin Hmin]. rewrite Hp, elem_of_map_to_list in Hin. exists key, config, t. do 2 (split; [done|]).
    intros key' config' t' H. apply (Hmin (key', (config', t'))). by rewrite Hp, elem_of_map_to_list.
  - apply min_by_key_none in E. rewrite E in Hp. symmetry in Hp. apply Permutation_nil_r in Hp. by apply map_to_list_empty_iff in Hp.
Qed.

(** What the cache answers and keeps.  A certificate made for the host less than an hour ago is the answer and nothing changes;
    otherwise one is made, which takes the place of the oldest entry when the cache is full.
    The cache never holds more than its limit, and only what was made for the host it is under. *)
Theorem leaf_cache_spec now domain root_ca (c : LeafCertCache ServerConfig) c' r (Made : bytes -> ServerConfig -> Prop) :
  load_or_create now domain root_ca c = (c', r) -> (0 < max_entries c)%nat -> (size (entries c) <= max_entries c)%nat ->
  (forall d config t, entries c !! d = Some (config, t) -> Made d config) ->
  (forall config, generate_leaf_cert domain root_ca = Ok config -> Made domain config) ->
  max_entries c' = max_entries c /\ (size (entries c') <= max_entries c')%nat /\
  (forall d config t, entries c' !! d = Some (config, t) -> Made d config) /\
  match entries c !! domain with
  | Some (config, created) => if now - created <? LEAF_LIFETIME then c' = c /\ r = Ok config else r = generate_leaf_cert domain root_ca
  | None => r = generate_leaf_cert domain root_ca
  end.
Proof.
  intros E Hpos Hsize Hmade Hnew. unfold load_or_create in E.
  set (kept := if (max_entries c <=? size (entries c))%nat then evict_oldest (entries c) else entries c) in E.
  assert (Hkept : (size kept < max_entries c)%nat /\ forall d x, kept !! d = Some x -> entries c !! d = Some x).
  { unfold kept. destruct (Nat.leb_spec (max_entries c) (size (entries c))) as [Hfull|]; [|done].
    destruct (evict_spec (entries c)) as (key & config & t & Hk & -> & _).
    { intros H. rewrite H, map_size_empty in Hfull. lia. }
    split; [|intros d x H; by apply lookup_delete_Some in H as [_ ?]].
    rewrite map_size_delete, Hk. pose proof (map_size_ne_0_lookup_2 (entries c) key ltac:(by eexists)). lia. }
  destruct Hkept as [Hk1 Hk2].
  assert (Hmiss : forall r0, r0 = generate_leaf_cert domain root_ca ->
    match r0 with Ok config => (MkLeafs (<[domain := (config, now)]> kept) (max_entries c), Ok config) | Err e => (MkLeafs kept (max_entries c), Err e) end = (c', r) ->
    max_entries c' = max_entries c /\ (size (entries c') <= max_entries c')%nat /\
    (forall d config t, entries c' !! d = Some (config, t) -> Made d config) /\ r = generate_leaf_cert domain root_ca).
  { intros [config|e] H0 H; injection H as <- <-; cbn; (split; [done|]); (split; [|split; [|done]]).
    - rewrite map_size_insert. destruct (kept !! domain); cbn; lia.
    - intros d config' t H. apply lookup_insert_Some in H as [[<- [= -> ->]]|[_ H]]; [by apply Hnew|by eapply Hmade, Hk2].
    - lia.
    - intros d config' t H. by eapply Hmade, Hk2. }
  destruct (entries c !! domain) as [[config created]|]; [destruct (now - created <? LEAF_LIFETIME)|].
  - injection E as <- <-. done.
  - by apply (Hmiss _ eq_refl).
  - by apply (Hmiss _ eq_refl).
Qed.
End LeafTheorems.
