(* ===== verification/DaemonStart.v ===== *)
(** * The start of the daemon ([kinetic-daemon/src/main.rs], [api/mod.rs])

    [run_daemon]: every file, directory, task and socket the start touches, in
    the order it touches them, how the process ends when a step fails, the tokens of the
    API, and the registration of the daemon's proxy, from which [kinetic-pac] builds
    the script browsers run.  The parts that are started have files of their own: here
    their starts are composed as the program composes them.  What the
    operating system answers to each call is an argument; what the spawned tasks do later is not in the trace. *)
From Stdlib Require Import String.
From S2P Require Import Prelude Traced Bytes Config Crypto Kyn Names Physics Net Kid Records Action Lru Peers Storage StoreVerify TieBreaker Store EventLoop Oracle ActionNode ApiAuth KidManager RegistrationApi Proxy LocalState PacScript Ca.
#[local] Open Scope Z_scope.

(** How the start fails: [std::process::exit(1)], an error of [run_daemon], a panic. *)
Inductive StartFailure := ExitOne | StartError | Panicked.

(** ** The tokens of the API ([api/mod.rs]) *)

(** What one rotation meets: 32 bytes if the system has any, the directory, the file, and the rest a failed write leaves. *)
Record TokenIo := MkTokenIo { ti_random : option bytes; ti_dir : bool; ti_opens : bool; ti_torn : option bytes }.

(** The file is emptied as it is opened, or made. *)
Definition generate_and_write_token (token_path : bytes) (io : TokenIo) : Traced (gmap bytes bytes) (Result unit bytes) :=
  token_bytes ←? mret (ok_or (ti_random io) tt);
  let token := hex_lower token_bytes in
  _ ←? mret (bail_if (negb (ti_dir io)) tt);
  _ ←? mret (bail_if (negb (ti_opens io)) tt);
  modify (<[token_path := []]>);;
  match ti_torn io with
  | None => modify (<[token_path := token]>);; mret (Ok token)
  | Some rest => modify (<[token_path := rest]>);; mret (Err tt)
  end.

Definition ensure_api_tokens (io : bytes -> TokenIo) : Traced (gmap bytes bytes) (Result unit ApiTokens) :=
  let rotate_token_on_boot name := generate_and_write_token name (io name) in
  admin ←? rotate_token_on_boot (bs "admin.token");
  kid ←? rotate_token_on_boot (bs "kid.token");
  nrs ←? rotate_token_on_boot (bs "nrs.token");
  vdf ←? rotate_token_on_boot (bs "vdf.token");
  action ←? rotate_token_on_boot (bs "action.token");
  gossip ←? rotate_token_on_boot (bs "gossip.token");
  metric ←? rotate_token_on_boot (bs "metric.token");
  system ←? rotate_token_on_boot (bs "system.token");
  atlas ←? rotate_token_on_boot (bs "atlas.token");
  heartbeat ←? rotate_token_on_boot (bs "heartbeat.token");
  mret (Ok (MkApiTokens admin kid nrs vdf action gossip metric system atlas heartbeat)).

(** The file of each token. *)
Definition token_list (t : ApiTokens) : list (bytes * bytes) :=
  [(bs "admin.token", tk_admin t); (bs "kid.token", tk_kid t); (bs "nrs.token", tk_nrs t); (bs "vdf.token", tk_vdf t);
   (bs "action.token", tk_action t); (bs "gossip.token", tk_gossip t); (bs "metric.token", tk_metric t);
   (bs "system.token", tk_system t); (bs "atlas.token", tk_atlas t); (bs "heartbeat.token", tk_heartbeat t)].
Definition token_names : list bytes := map fst (token_list (MkApiTokens [] [] [] [] [] [] [] [] [] [])).

Definition files_hold (t : ApiTokens) (files : gmap bytes bytes) : Prop :=
  Forall (fun '(name, token) => files !! name = Some token) (token_list t).

(** The listener of the API: ten rounds, each at the configured address and then at the loopback of version six. *)
Definition bind_api (ip : bytes) (port : Z) (binds : nat -> bool * bool) : option (bytes * Z) :=
  head (omap (fun i => if (binds i).1 then Some (ip, port) else if (binds i).2 then Some (bs "::1", port) else None) (seq 0 10)).

(** ** The host *)

(** [serde_json::to_writer] of the name space, the address and the port. *)
Class ProxyJsonWrite := proxy_to_text : bytes -> bytes -> Z -> bytes.
(** Documented behaviour: what is written is read back. *)
Class ProxyJsonLaws `{ProxyJson, ProxyJsonWrite} :=
  proxy_read_back nsp ip port : 0 <= port <= 65535 -> proxy_from_str (proxy_to_text nsp ip port) = Some (nsp, port, Some ip).

Inductive HostDir := StorageDir | BaseDir | NativesDir.
Inductive DaemonTask := NetworkLoop | ChallengeSolver | GossipProcessor | Telemetry | ProxyServer | IncomingRequests
  | Republisher | HeartbeatLoop | DnsServerTask.

(** What the API serves: its address and the tokens it compares with. *)
Record Serving := MkServing { served_at : bytes * Z; served_tokens : ApiTokens }.

(** Creating the registration fails, or its text is written whole, or with what a failed write leaves. *)
Inductive Registering := RegNotCreated | RegWritten | RegTorn (rest : bytes).

(** What the system answers, in the order it is asked. *)
Record StartIo := MkStartIo {
  config_opens : bool;
  config_created : CreateNew;
  config_torn : bytes;
  storage_dir_made : bool;
  database_opened : bool;
  database_left : bool;
  identity_opens : bool;
  start_time : Z;
  early_tokens : bytes -> TokenIo;
  base_dir_made : bool;
  corrupt_renamed : bool;
  network_loop_built : bool;
  sync_answers : list (option (list SignedNetworkAction));
  sync_saved : bool;
  base_dir_made_again : bool;
  ca_lock : Acquired;
  ca_io : CaIoState;
  natives_dir_made : bool;
  registering : Registering;
  nrs_udp_bound : bool;
  nrs_tcp_bound : bool;
  api_tokens : bytes -> TokenIo;
  api_binds : nat -> bool * bool;
  local_addr_known : bool;
  serve_ends_well : bool;
  registration_removed : bool
}.

Section Start.
Context {HSha : Sha2} {HSig : MlDsa} {HSign : MlDsaSign} {HCod : Codecs} {HBv : BeaconVerify} {HSto : StorageEngine}
  {HSerde : Serde} {HRea : ReactorJson} {HVec : RawKynVec} {HNet : OracleNet} {HBin : StateCodec} {HKeys : IdentityKeys}
  {HLru : LruCache} {HPeer : PeerStrings} {HTexts : BuildTexts} {HToml : Toml} {HCa : CaCodec} {HWrite : ProxyJsonWrite}.
Variables (SOVEREIGN_KEY_HEX : bytes) (is_dev_mode : bool) (provider : BeaconProvider) (DB_PREFIX_LAST_KYN salt_hex : bytes).

(** What the start reads and writes of the machine: its files, the storage, the
    action state with its file, the certificates, the tasks that are spawned, and the two servers. *)
Record DaemonHost := MkDaemonHost {
  config_file : option bytes;
  directories : list HostDir;
  database : bool;
  machine : Machine;
  identity_file : option bytes;
  token_files : gmap bytes bytes;
  certificates : CaState;
  tasks_spawned : list DaemonTask;
  registration : option bytes;
  dns_serving : option (bytes * Z);
  api_serving : option Serving }.

Definition set_config_file (x : option bytes) (h : DaemonHost) : DaemonHost :=
  MkDaemonHost x (directories h) (database h) (machine h) (identity_file h) (token_files h)
    (certificates h) (tasks_spawned h) (registration h) (dns_serving h) (api_serving h).
Definition set_database (x : bool) (h : DaemonHost) : DaemonHost :=
  MkDaemonHost (config_file h) (directories h) x (machine h) (identity_file h) (token_files h)
    (certificates h) (tasks_spawned h) (registration h) (dns_serving h) (api_serving h).
Definition set_machine (x : Machine) (h : DaemonHost) : DaemonHost :=
  MkDaemonHost (config_file h) (directories h) (database h) x (identity_file h) (token_files h)
    (certificates h) (tasks_spawned h) (registration h) (dns_serving h) (api_serving h).
Definition set_token_files (x : gmap bytes bytes) (h : DaemonHost) : DaemonHost :=
  MkDaemonHost (config_file h) (directories h) (database h) (machine h) (identity_file h) x
    (certificates h) (tasks_spawned h) (registration h) (dns_serving h) (api_serving h).
Definition set_certificates (x : CaState) (h : DaemonHost) : DaemonHost :=
  MkDaemonHost (config_file h) (directories h) (database h) (machine h) (identity_file h) (token_files h)
    x (tasks_spawned h) (registration h) (dns_serving h) (api_serving h).
Definition set_registration (x : option bytes) (h : DaemonHost) : DaemonHost :=
  MkDaemonHost (config_file h) (directories h) (database h) (machine h) (identity_file h) (token_files h)
    (certificates h) (tasks_spawned h) x (dns_serving h) (api_serving h).
Definition set_dns_serving (x : option (bytes * Z)) (h : DaemonHost) : DaemonHost :=
  MkDaemonHost (config_file h) (directories h) (database h) (machine h) (identity_file h) (token_files h)
    (certificates h) (tasks_spawned h) (registration h) x (api_serving h).
Definition set_api_serving (x : option Serving) (h : DaemonHost) : DaemonHost :=
  MkDaemonHost (config_file h) (directories h) (database h) (machine h) (identity_file h) (token_files h)
    (certificates h) (tasks_spawned h) (registration h) (dns_serving h) x.
Definition make_directory (x : HostDir) (h : DaemonHost) : DaemonHost :=
  MkDaemonHost (config_file h) (x :: directories h) (database h) (machine h) (identity_file h) (token_files h)
    (certificates h) (tasks_spawned h) (registration h) (dns_serving h) (api_serving h).
Definition spawn_task (x : DaemonTask) (h : DaemonHost) : DaemonHost :=
  MkDaemonHost (config_file h) (directories h) (database h) (machine h) (identity_file h) (token_files h)
    (certificates h) (tasks_spawned h ++ [x]) (registration h) (dns_serving h) (api_serving h).

(** The process as it begins, on files an earlier one may have left. *)
Definition newly_started (h : DaemonHost) : Prop := api_serving h = None /\ dns_serving h = None.

Definition or_fail {S A E} (e : StartFailure) (m : Traced S (Result E A)) : Traced S (Result StartFailure A) :=
  r ← m; mret (map_err (fun _ => e) r).
Definition require {S} (b : bool) (e : StartFailure) : Traced S (Result StartFailure unit) := mret (bail_if (negb b) e).

(** [create_dir_all]; the directory is there afterwards when it answers well. *)
Definition create_dir (d : HostDir) (made : bool) : Traced DaemonHost (Result StartFailure unit) :=
  if made then modify (make_directory d);; mret (Ok tt) else mret (Err StartError).

(** *** The configuration *)

Definition config_read (io : StartIo) (h : DaemonHost) : ReadOutcome :=
  if config_opens io then match config_file h with Some text => RdContent text | None => RdNotFound end else RdFailed.
Definition read_config (io : StartIo) (h : DaemonHost) : option bytes * option KineticConfig :=
  load_config (config_read io h) (config_created io) (config_torn io) (config_file h).

Definition configure (io : StartIo) : Traced DaemonHost (Result StartFailure KineticConfig) :=
  _ ←? mret (map_err (fun _ => ExitOne) (validate_keys_initialized SOVEREIGN_KEY_HEX is_dev_mode));
  config ←? step_with (fun h => let '(file, config) := read_config io h in (set_config_file file h, ok_or config ExitOne));
  _ ←? require (negb (backend_port_conflicts config)) ExitOne;
  mret (Ok config).

(** *** Storage, identity, kyn *)

(** [KineticStorage::new] makes the file; one that fails may leave it. *)
Definition open_storage (io : StartIo) : Traced DaemonHost (Result StartFailure unit) :=
  modify (fun h => set_database (database_opened io || database_left io || database h) h);;
  require (database_opened io) StartError.

Definition daemon_keypair (io : StartIo) (h : DaemonHost) : Result StartFailure KineticKeypair :=
  map_err (fun _ => StartError) (load_keypair (if identity_opens io then identity_file h else None)).

Definition on_machine (f : Machine -> Machine) (h : DaemonHost) : DaemonHost := set_machine (f (machine h)) h.

(** A kyn that cannot be had is the unavailable one. *)
Definition first_kyn (io : StartIo) (h : DaemonHost) : DaemonHost * Z :=
  let m := machine h in
  let '(d, r) := fetch_latest is_dev_mode provider DB_PREFIX_LAST_KYN (start_time io) (mc_sto m) in
  (set_machine (MkMachine d (mc_disk m) (mc_proc m)) h, rk_kyn (match r with Ok kyn => kyn | Err _ => unavailable end)).

(** [solve_p2p_challenge] refuses kyn zero and otherwise searches until it has a key. *)
Definition challenge_solved (initial_kyn : Z) : bool := negb ((initial_kyn =? 0) && negb is_dev_mode).

(** *** The action state *)

Definition load_action (io : StartIo) (h : DaemonHost) : DaemonHost * Result StartFailure unit :=
  let m := machine h in
  let '(disk, loaded) := load_action_from_disk (mc_disk m) (corrupt_renamed io) in
  (set_machine (MkMachine (mc_sto m) disk ((fun st => MkActionProc st [] [] [] [] []) <$> loaded)) h,
   match loaded with Some _ => Ok tt | None => Err Panicked end).

(** [NetworkEventLoop::new] drops the bans in storage that have ended. *)
Definition build_network_loop (initial_kyn : Z) : DaemonHost -> DaemonHost :=
  on_machine (fun m => MkMachine (restore_bans initial_kyn (mc_sto m)).2 (mc_disk m) (mc_proc m)).

(** The loop gets the log; the peers are asked when it is empty. *)
Definition sync_actions (io : StartIo) (h : DaemonHost) : DaemonHost * Result StartFailure unit :=
  let m := machine h in
  match mc_proc m with
  | None => (h, Ok tt)
  | Some p =>
      let p := set_ap_loop_log (action_log (ap_state p)) p in
      match action_log (ap_state p) with
      | _ :: _ => (set_machine (MkMachine (mc_sto m) (mc_disk m) (Some p)) h, Ok tt)
      | [] =>
          match action_sync_loop SOVEREIGN_KEY_HEX is_dev_mode (sync_answers io) (sync_saved io) (mc_disk m) p with
          | Some (disk, p) => (set_machine (MkMachine (mc_sto m) disk (Some p)) h, Ok tt)
          | None => (h, Err Panicked)
          end
      end
  end.

Definition spawn (t : DaemonTask) : Traced DaemonHost unit := modify (spawn_task t).

(** *** Up to the registration *)

Definition bring_up (io : StartIo) (config : KineticConfig) : Traced DaemonHost (Result StartFailure unit) :=
  _ ←? create_dir StorageDir (storage_dir_made io);
  _ ←? open_storage io;
  _ ←? look (daemon_keypair io);
  initial_kyn ← step_with (first_kyn io);
  _ ←? or_fail ExitOne (zoom token_files set_token_files (ensure_api_tokens (early_tokens io)));
  _ ←? require (challenge_solved initial_kyn) Panicked;
  _ ←? create_dir BaseDir (base_dir_made io);
  _ ←? step_with (load_action io);
  _ ←? require (network_loop_built io) StartError;
  modify (build_network_loop initial_kyn);;
  spawn NetworkLoop;;
  _ ←? step_with (sync_actions io);
  for_each spawn [ChallengeSolver; GossipProcessor; Telemetry];;
  _ ←? create_dir BaseDir (base_dir_made_again io);
  _ ←? or_fail StartError (zoom certificates set_certificates (load_or_create_root_ca salt_hex (ca_io io) (ca_lock io)));
  for_each spawn [ProxyServer; IncomingRequests; Republisher; HeartbeatLoop];;
  mret (Ok tt).

(** *** The registration and the servers *)

Definition registration_text (config : KineticConfig) : bytes :=
  let d := daemon_settings config in proxy_to_text NSP_SUFFIX (pac_bind_ip d) (dc_proxy_port d).

(** [File::create] empties the file; what [to_writer] answers is ignored. *)
Definition register_proxy (io : StartIo) (config : KineticConfig) : Traced DaemonHost unit :=
  (if natives_dir_made io then modify (make_directory NativesDir) else mret tt);;
  match registering io with
  | RegNotCreated => mret tt
  | RegWritten => modify (set_registration (Some []));; modify (set_registration (Some (registration_text config)))
  | RegTorn rest => modify (set_registration (Some []));; modify (set_registration (Some rest))
  end.

Definition start_dns (io : StartIo) (config : KineticConfig) : Traced DaemonHost unit :=
  let d := daemon_settings config in
  if enable_nrs d && nrs_udp_bound io && nrs_tcp_bound io then
    modify (fun h => spawn_task DnsServerTask (set_dns_serving (Some (bind_ip (peer_settings config), dc_nrs_port d)) h))
  else mret tt.

(** [start_server]: the tokens are rotated once more; it ends with the API server. *)
Definition start_server (io : StartIo) (config : KineticConfig) : Traced DaemonHost (Result unit unit) :=
  tokens ←? zoom token_files set_token_files (ensure_api_tokens (api_tokens io));
  listener ←? mret (ok_or (bind_api (bind_ip (peer_settings config)) (dc_api_port (daemon_settings config)) (api_binds io)) tt);
  _ ←? mret (bail_if (negb (local_addr_known io)) tt);
  modify (set_api_serving (Some (MkServing listener tokens)));;
  modify (set_api_serving None);;
  mret (bail_if (negb (serve_ends_well io)) tt).

(** How the server ended is logged only. *)
Definition serve_daemon (io : StartIo) (config : KineticConfig) : Traced DaemonHost unit :=
  register_proxy io config;;
  start_dns io config;;
  _ ← start_server io config;
  (if registration_removed io then modify (set_registration None) else mret tt).

Definition run_daemon (io : StartIo) : Traced DaemonHost (Result StartFailure unit) :=
  config ←? configure io;
  _ ←? bring_up io config;
  serve_daemon io config;;
  mret (Ok tt).

(** [main]: the status of the process; a panic aborts it, which leaves none. *)
Definition exit_status (restart_requested : bool) (r : Result StartFailure unit) : option Z :=
  match r with
  | Err ExitOne => Some 1
  | Err Panicked => None
  | Err StartError => Some 1
  | Ok _ => Some (if restart_requested then 1 else 0)
  end.

End Start.

(** ** The tokens *)

Definition token_written (io : TokenIo) : bool :=
  match ti_random io, ti_torn io with Some _, None => ti_dir io && ti_opens io | _, _ => false end.

(** A rotation that ends well leaves the new token in its file and the other files as they were. *)
Lemma token_spec name io files :
  safe (fun _ => True) (generate_and_write_token name io)
    (fun r t => forall token, r = Ok token -> t = <[name := token]> (<[name := []]> files)) files.
Proof.
  split; [by apply Forall_true|]. unfold generate_and_write_token, and_then, mbind, traced_bind, mret, traced_ret, result_of, final.
  destruct (ti_random io), (ti_dir io), (ti_opens io), (ti_torn io); cbn; intros ? H; by simplify_eq.
Qed.

Lemma token_ends_well name io files : token_written io = true -> exists token, result_of (generate_and_write_token name io) files = Ok token.
Proof.
  unfold token_written, generate_and_write_token, and_then, mbind, traced_bind, mret, traced_ret, result_of.
  destruct (ti_random io), (ti_dir io), (ti_opens io), (ti_torn io); cbn; intros; by eauto.
Qed.

Lemma tokens_spec io files :
  safe (fun _ => True) (ensure_api_tokens io) (fun r t => forall tokens, r = Ok tokens -> files_hold tokens t) files.
Proof.
  unfold ensure_api_tokens. cbv zeta.
  do 10 (apply safe_then; eapply safe_mono; [apply token_spec|]; intros [?|?] ? Ht; [specialize (Ht _ eq_refl); subst|done]).
  apply safe_ret. intros tokens [= <-]. unfold files_hold, token_list. cbn [tk_admin tk_kid tk_nrs tk_vdf tk_action tk_gossip tk_metric
    tk_system tk_atlas tk_heartbeat].
  repeat (apply Forall_cons; split; [repeat (rewrite lookup_insert_ne by (by vm_compute)); by rewrite lookup_insert_eq|]). by constructor.
Qed.

Lemma then_ends_well {S E A B} (m : Traced S (Result E A)) (f : A -> Traced S (Result E B)) s :
  (exists a, result_of m s = Ok a) -> (forall a t, exists b, result_of (f a) t = Ok b) -> exists b, result_of (and_then m f) s = Ok b.
Proof.
  intros [a Ha] Hf. unfold and_then, result_of, mbind, traced_bind in *. destruct (m s) as [l [t r]]. cbn in Ha. subst r.
  destruct (Hf a t) as [b Hb]. exists b. by destruct (f a t).
Qed.

Lemma tokens_end_well io files : Forall (fun name => token_written (io name) = true) token_names ->
  exists tokens, result_of (ensure_api_tokens io) files = Ok tokens.
Proof.
  intros H. unfold ensure_api_tokens. cbv zeta. revert files.
  assert (Hn : forall name files, name ∈ token_names -> exists token, result_of (generate_and_write_token name (io name)) files = Ok token).
  { intros name files Hin. apply token_ends_well. by eapply Forall_forall in H. }
  do 10 (intros ?; apply then_ends_well; [apply Hn; apply list_elem_of_In; vm_compute; tauto|intros ?]).
  intros ?. by eexists.
Qed.

(** ** The start and the registration *)

Section Facts.
Context {HSha : Sha2} {HSig : MlDsa} {HSign : MlDsaSign} {HCod : Codecs} {HBv : BeaconVerify} {HSto : StorageEngine}
  {HSerde : Serde} {HRea : ReactorJson} {HVec : RawKynVec} {HNet : OracleNet} {HBin : StateCodec} {HKeys : IdentityKeys}
  {HLru : LruCache} {HPeer : PeerStrings} {HTexts : BuildTexts} {HToml : Toml} {HCa : CaCodec}
  {HRead : ProxyJson} {HWrite : ProxyJsonWrite} {HLaws : ProxyJsonLaws} {HOrder : ProxyOrder} {HOrderLaws : ProxyOrderLaws}.
Variables (SOVEREIGN_KEY_HEX : bytes) (is_dev_mode : bool) (provider : BeaconProvider) (DB_PREFIX_LAST_KYN salt_hex : bytes).
Implicit Types (h t : DaemonHost) (io : StartIo).

Notation bring_up := (bring_up SOVEREIGN_KEY_HEX is_dev_mode provider DB_PREFIX_LAST_KYN salt_hex).
Notation configure := (configure SOVEREIGN_KEY_HEX is_dev_mode).
Notation run_daemon := (run_daemon SOVEREIGN_KEY_HEX is_dev_mode provider DB_PREFIX_LAST_KYN salt_hex).

(** What others see of the daemon: its registration and its servers. *)
Definition same_outside h t : Prop :=
  registration t = registration h /\ dns_serving t = dns_serving h /\ api_serving t = api_serving h.

Lemma configure_spec io h :
  safe (same_outside h) (configure io)
    (fun r t => same_outside h t /\ forall config, r = Ok config -> (read_config io h).2 = Some config /\ backend_port_conflicts config = false) h.
Proof.
  unfold DaemonStart.configure. apply safe_then, safe_ret. destruct (validate_keys_initialized _ _); cbn [map_err]; [|done].
  apply safe_then, safe_step; destruct (read_config io h) as [file [config|]] eqn:E; cbn; [done..| |done].
  apply safe_then. unfold require. apply safe_ret. destruct (backend_port_conflicts config) eqn:Eb; cbn; [done|].
  apply safe_ret. split; [done|]. intros c [= <-]. done.
Qed.

Lemma bring_up_keeps io config h : keeps (same_outside h) (bring_up io config).
Proof.
  unfold DaemonStart.bring_up, create_dir, open_storage, require, or_fail, spawn.
  repeat first
    [ apply keeps_then; [|intros ?] | apply keeps_bind; [|intros ?] | apply keeps_ret | apply keeps_look | apply keeps_for_each; intros ?
    | apply keeps_zoom; by intros | apply keeps_modify; by intros | case_match | apply keeps_step; intros s Hs ].
  - unfold first_kyn. by destruct (fetch_latest _ _ _ _ _).
  - unfold load_action. by destruct (load_action_from_disk _ _) as [? []].
  - unfold sync_actions. destruct (mc_proc _); [|done]. destruct (action_log _); [|done]. by destruct (action_sync_loop _ _ _ _ _ _) as [[]|].
Qed.

(** What the writing of the registration leaves. *)
Definition registration_left io (config : KineticConfig) (before : option bytes) : option bytes :=
  match registering io with
  | RegNotCreated => before
  | RegWritten => Some (registration_text config)
  | RegTorn rest => Some rest
  end.

Lemma register_spec io config h : api_serving h = None ->
  safe (fun t => api_serving t = None) (register_proxy io config)
    (fun _ t => api_serving t = None /\ registration t = registration_left io config (registration h)) h.
Proof.
  intros Hh. unfold register_proxy, registration_left, safe, result_of, final, mbind, traced_bind, modify, step_with.
  destruct (natives_dir_made io), (registering io); cbn; repeat (first [constructor|split|done]).
Qed.

Lemma start_dns_spec io config h : api_serving h = None ->
  safe (fun t => api_serving t = None) (start_dns io config)
    (fun _ t => api_serving t = None /\ registration t = registration h) h.
Proof. intros Hh. unfold start_dns. case_match; [by apply safe_modify|by apply safe_ret]. Qed.

(** The host while the API serves. *)
Definition served_well io config (before : option bytes) t : Prop :=
  forall serving, api_serving t = Some serving ->
    registration t = registration_left io config before /\ files_hold (served_tokens serving) (token_files t).

Lemma start_server_spec io config before h :
  api_serving h = None -> registration h = registration_left io config before ->
  safe (served_well io config before) (start_server io config)
    (fun _ t => api_serving t = None /\ registration t = registration_left io config before) h.
Proof.
  intros Ha Hr. unfold start_server. apply safe_then, safe_zoom.
  assert (Hz : forall files, served_well io config before (set_token_files files h)) by (intros files serving; cbn; congruence).
  eapply safe_weaken; [apply tokens_spec|by intros|]. cbn beta. intros [tokens|e] t Ht; [|done]. specialize (Ht _ eq_refl).
  apply safe_then, safe_ret. destruct (bind_api _ _ _) as [listener|]; cbn [ok_or]; [|done].
  apply safe_then, safe_ret. destruct (local_addr_known io); cbn; [|done].
  apply safe_bind, safe_modify; [by intros serving [= <-]|]. apply safe_bind, safe_modify; [by intros serving|]. by apply safe_ret.
Qed.

Lemma serve_daemon_spec io config h : api_serving h = None ->
  safe (served_well io config (registration h)) (serve_daemon io config)
    (fun _ t => api_serving t = None /\
       registration t = if registration_removed io then None else registration_left io config (registration h)) h.
Proof.
  intros Ha. assert (Hw : forall t, api_serving t = None -> served_well io config (registration h) t) by (intros t Ht serving; congruence).
  unfold serve_daemon. apply safe_bind. eapply safe_weaken; [by apply register_spec|done|]. intros _ t [Hn Ht].
  apply safe_bind. eapply safe_weaken; [by apply start_dns_spec|done|]. intros _ u [Hn' Hu].
  apply safe_bind. eapply safe_mono; [apply start_server_spec; [done|congruence]|]. intros _ v [Hn'' Hv].
  destruct (registration_removed io); [apply safe_modify; [by apply Hw|done]|by apply safe_ret].
Qed.

Definition api_ready io (config : KineticConfig) : Prop :=
  Forall (fun name => token_written (api_tokens io name) = true) token_names /\ local_addr_known io = true /\
  is_Some (bind_api (bind_ip (peer_settings config)) (dc_api_port (daemon_settings config)) (api_binds io)).

Lemma api_reached io config h : api_ready io config -> exists t serving, passes (serve_daemon io config) h t /\ api_serving t = Some serving.
Proof.
  intros (Ht & Hl & [listener Hb]). unfold serve_daemon. set (h1 := final (register_proxy io config) h). set (h2 := final (start_dns io config) h1).
  destruct (tokens_end_well (api_tokens io) (token_files h2) Ht) as [tokens Hk].
  assert (Hp : exists t, passes (start_server io config) h2 t /\ api_serving t = Some (MkServing listener tokens)).
  { unfold start_server, passes, and_then, zoom, mbind, traced_bind, result_of in *.
    destruct (ensure_api_tokens (api_tokens io) (token_files h2)) as [l [files r]]. cbn in Hk. subst r. cbn. rewrite Hb, Hl. cbn.
    eexists. split; [apply elem_of_app; right; by constructor|done]. }
  destruct Hp as (t & Hp & Hs). exists t, (MkServing listener tokens). split; [|done].
  apply passes_bind_r, passes_bind_r, passes_bind_l. exact Hp.
Qed.

(** A run stops before the registration, or begins to serve with nothing changed outside. *)
Lemma run_split io h : exists l t, Forall (same_outside h) l /\ same_outside h t /\
  ((exists e, run_daemon io h = (l, (t, Err e))) \/
   (exists config, (read_config io h).2 = Some config /\ backend_port_conflicts config = false /\
      run_daemon io h = let '(l', (u, _)) := serve_daemon io config t in (l ++ l', (u, Ok tt)))).
Proof.
  unfold DaemonStart.run_daemon, and_then, mbind, traced_bind.
  destruct (configure_spec io h) as [H1 [H2 H3]]. revert H1 H2 H3. unfold result_of, final.
  destruct (configure io h) as [l [t [config|e]]]; cbn; intros H1 H2 H3; [|exists l, t; rewrite app_nil_r; eauto 10].
  destruct (H3 _ eq_refl) as [Hc Hb]. destruct (bring_up_keeps io config h t H2) as [H4 H5]. revert H4 H5. unfold result_of, final.
  destruct (bring_up io config t) as [l' [u [[]|e]]]; cbn; intros H4 H5; (exists (l ++ l'), u; split; [by apply Forall_app|]; split; [done|]).
  - right. exists config. split; [done|]. split; [done|]. destruct (serve_daemon io config u) as [l'' [v []]]. by rewrite app_nil_r, app_assoc.
  - left. exists e. by rewrite app_nil_r.
Qed.

(** The file as [kinetic-pac] lists it. *)
Definition registration_entry (text : bytes) : DirEntry := MkDirEntry (Some (bs "json")) (Some text).

Definition registered_proxy (config : KineticConfig) : RegisteredProxy :=
  let d := daemon_settings config in MkRegistered NSP_SUFFIX (dc_proxy_port d) (pac_bind_ip d).

Lemma registration_entry_proxy config a :
  0 <= dc_proxy_port (daemon_settings config) <= 65535 -> parse_ip_addr (pac_bind_ip (daemon_settings config)) = Some a ->
  entry_proxy (registration_entry (registration_text config)) = Some (registered_proxy config).
Proof.
  intros Hp Ha. unfold entry_proxy, registration_entry, registration_text. cbn [de_extension de_text]. rewrite bool_decide_true by done.
  cbn. rewrite proxy_read_back by done. cbn. by rewrite Ha.
Qed.

(** One file of a directory registers a name space: it counts, wherever it is listed. *)
Lemma last_for_only nsp l1 l2 e p :
  entry_proxy e = Some p -> nsp_of p = nsp ->
  (forall e' p', e' ∈ l1 ++ l2 -> entry_proxy e' = Some p' -> nsp_of p' <> nsp) ->
  last_for nsp (Some (l1 ++ e :: l2)) = Some p.
Proof.
  intros He Hp Ho. unfold last_for. cbn [from_option]. unfold id. rewrite omap_app. cbn [omap list_omap]. rewrite He, filter_app, filter_cons.
  assert (Hn : forall l, (forall e', e' ∈ l -> e' ∈ l1 ++ l2) -> filter (fun p => nsp_of p = nsp) (omap entry_proxy l) = []).
  { intros l Hl. apply elem_of_nil_inv. intros x [Hx Hin]%list_elem_of_filter. apply list_elem_of_omap in Hin as (e' & Hin & He').
    by apply (Ho e' x (Hl e' Hin)). }
  rewrite decide_True by done. rewrite !Hn; [done|intros e' H; apply elem_of_app; by right|intros e' H; apply elem_of_app; by left].
Qed.

Lemma registration_rule config a l1 l2 atlas original :
  0 <= dc_proxy_port (daemon_settings config) <= 65535 -> parse_ip_addr (pac_bind_ip (daemon_settings config)) = Some a ->
  (forall e p, e ∈ l1 ++ l2 -> entry_proxy e = Some p -> nsp_of p <> NSP_SUFFIX) ->
  exists rules, build_pac_script (Some (l1 ++ registration_entry (registration_text config) :: l2)) atlas original
      = script_head ++ concat (map rule_lines rules) ++ script_tail original /\
    (NSP_SUFFIX, (Some (registered_proxy config), last_for NSP_SUFFIX atlas)) ∈ rules.
Proof.
  intros Hp Ha Ho. destruct (script_rules_of (Some (l1 ++ registration_entry (registration_text config) :: l2)) atlas original) as (rules & Hs & Hr).
  exists rules. split; [done|]. apply Hr. split; [|done]. f_equal. symmetry.
  apply last_for_only; [by eapply registration_entry_proxy|by vm_compute|done].
Qed.

(** C38: The registration of the daemon's proxy and the tokens of its API, over a whole run whose steps change files, storage, certificates
    and tasks.  A run that fails before it serves, by an exit, an error or a panic, never touches the registration (an earlier one stays)
    and serves nothing.  A run that does not fail went by a configuration without a port conflict.  Whenever its API serves, the registration is what the
    writing left (the configured proxy when the file is made and written whole; the old content when it cannot be made; any text
    when the ignored write fails), and each of the ten token files holds the token the API compares with; the API does serve when the
    second rotation of the tokens and one of the twenty binds succeed; the registration is gone at the end when it can be removed, and stays otherwise.
    While a whole text is registered, for a proxy at a valid address, the script [kinetic-pac] builds has the
    rule that sends the network's names to it, if no other file of the directory registers the same name space. *)
Theorem daemon_registration io h : newly_started h ->
  let m := run_daemon io in
  match result_of m h with
  | Err _ => forall n, registration (stopped n m h) = registration h /\
      api_serving (stopped n m h) = None /\ dns_serving (stopped n m h) = None
  | Ok _ => exists config, (read_config io h).2 = Some config /\ backend_port_conflicts config = false /\
      let left_text := registration_left io config (registration h) in
      (forall n serving, api_serving (stopped n m h) = Some serving ->
         registration (stopped n m h) = left_text /\ files_hold (served_tokens serving) (token_files (stopped n m h))) /\
      (api_ready io config -> exists n serving, api_serving (stopped n m h) = Some serving) /\
      registration (final m h) = (if registration_removed io then None else left_text) /\
      (registering io = RegWritten ->
       0 <= dc_proxy_port (daemon_settings config) <= 65535 -> is_Some (parse_ip_addr (pac_bind_ip (daemon_settings config))) ->
       exists text, left_text = Some text /\ forall l1 l2 atlas original,
         (forall e p, e ∈ l1 ++ l2 -> entry_proxy e = Some p -> nsp_of p <> NSP_SUFFIX) ->
         exists rules, build_pac_script (Some (l1 ++ registration_entry text :: l2)) atlas original
             = script_head ++ concat (map rule_lines rules) ++ script_tail original /\
           (NSP_SUFFIX, (Some (registered_proxy config), last_for NSP_SUFFIX atlas)) ∈ rules)
  end.
Proof.
  intros [Ha Hd] m. destruct (run_split io h) as (l & t & Hl & Ht & Hrun). fold m in Hrun. unfold result_of.
  destruct Hrun as [[e He]|(config & Hc & Hb & He)].
  - rewrite He. cbn. intros n. pose proof (safe_stopped (same_outside h) m (fun _ => same_outside h) n h) as H.
    destruct H as (H1 & H2 & H3); [unfold safe, result_of, final; by rewrite He|done|done|]. by rewrite H1, H2, H3.
  - destruct Ht as (Hr & Hd' & Ha'). rewrite Ha in Ha'.
    destruct (serve_daemon_spec io config t Ha') as [Hs [Hn Hf]]. destruct (serve_daemon io config t) as [l' [u []]] eqn:Es.
    rewrite He. cbn [snd]. exists config. split; [done|]. split; [done|]. cbv zeta. rewrite Hr in Hs, Hf. unfold final in Hn, Hf. rewrite Es in Hn, Hf.
    cbn in Hn, Hf. split_and!.
    + intros n. apply (safe_stopped (served_well io config (registration h)) m (fun _ v => api_serving v = None)).
      * unfold safe, result_of, final. rewrite He. cbn. split; [|done]. apply Forall_app. split; [|done].
        eapply Forall_impl; [exact Hl|]. intros v (_ & _ & Hv) serving. congruence.
      * intros serving. congruence.
      * intros _ v Hv serving. congruence.
    + intros Hready. destruct (api_reached io config t Hready) as (v & serving & Hp & Hv).
      destruct (passes_stopped m h v) as [n <-]; [|by eauto].
      unfold passes in *. rewrite He. rewrite Es in Hp. apply elem_of_app. by right.
    + unfold final. by rewrite He.
    + intros Hw Hp [a Hip]. exists (registration_text config). split; [unfold registration_left; by rewrite Hw|].
      intros l1 l2 atlas original Ho. by eapply registration_rule.
Qed.

(** Without a kyn, outside the developer mode, the start panics or has failed before, although the log says that only registration is disabled. *)
Lemma no_kyn_no_start io h e : is_dev_mode = false ->
  (fetch_latest is_dev_mode provider DB_PREFIX_LAST_KYN (start_time io) (mc_sto (machine h))).2 = Err e ->
  exists f, result_of (run_daemon io) h = Err f.
Proof.
  intros Hdev Hk. apply (proj2 (A := Forall (fun _ => True) (run_daemon io h).1)).
  apply (safe_then (fun _ => True) (configure io) _ (fun r _ => exists f, r = Err f)).
  assert (Hm : keeps (fun t => machine t = machine h) (configure io)).
  { unfold DaemonStart.configure, require. repeat first [apply keeps_then; [|intros ?]|apply keeps_ret|apply keeps_step; intros s Hs].
    by destruct (read_config io s). }
  eapply safe_weaken; [by apply Hm|done|]. cbn beta. intros [config|f] t Ht; [|by eexists].
  apply safe_then. unfold DaemonStart.bring_up. apply safe_then. unfold create_dir at 1. destruct (storage_dir_made io); [|apply safe_ret; by eexists].
  apply safe_bind, safe_modify, safe_ret; [done|]. apply safe_then. unfold open_storage.
  apply safe_bind, safe_modify; [done|]. unfold require. apply safe_ret. destruct (database_opened io); cbn [negb bail_if]; [|by eexists].
  apply safe_then, safe_look. destruct (daemon_keypair _ _); [|by eexists].
  apply safe_bind, safe_step; [done|]. unfold first_kyn. cbn. rewrite Ht.
  destruct (fetch_latest _ _ _ _ _) as [d r] eqn:Ef. cbn in Hk. subst r. cbn.
  apply safe_then. unfold or_fail. apply safe_bind. eapply safe_mono; [apply safe_anywhere|]. intros [tokens|f] u _; apply safe_ret; cbn; [|by eexists].
  apply safe_then, safe_ret. unfold challenge_solved. rewrite Hdev. by eexists.
Qed.

End Facts.
