(* ===== verification/CaExamples.v ===== *)
(** * The certificate authority on a concrete disk

    A certificate that is its end and its key, and the theorems of [Ca] applied
    to it. *)
From S2P Require Import Prelude Traced Bytes Config Ca.
#[local] Open Scope Z_scope.

#[local] Instance toy_ca_codec : CaCodec := {|
  generate_ca p random := Some (valid_until p :: random, random);
  not_after cert := head cert;
  key_readable _ := true;
  self_signable _ _ := true;
  certifies cert key := bool_decide (tail cert = key) |}.
#[local] Instance toy_ca_codec_laws : CaCodecLaws.
Proof.
  split.
  - intros p random cert key [= <- <-]. cbn. by rewrite bool_decide_true.
  - intros cert k1 k2 <-%bool_decide_eq_true_1 <-%bool_decide_eq_true_1. done.
Qed.

Definition empty_disk : CaState := MkCa None None None false.
Definition no_keychain : CaIoState := MkCaIo 0 true true true false [1; 2; 3] Written Written true.

(** A lock nobody gives back. *)
Lemma lock_wait_ends_witness : exists slept forced,
  acquire true true (fun _ h => h) 103 0 true 0 0 false = Some (LockTaken slept forced) /\ 0 <= slept <= 5000.
Proof.
  destruct (lock_wait_ends (fun _ h => h) true (fun _ => eq_refl)) as [(slept & forced & H1 & H2 & _) _].
  exists slept, forced. exact (conj H1 H2).
Defined.

(** The keychain has the key of another network and does not take the new one. *)
Lemma ca_found_again_iff_witness :
  let other := MkCa None None (Some [9]) false in
  let again := result_of (load_or_create_root_ca [] no_keychain (LockTaken 0 false))
                 (final (load_or_create_root_ca [] no_keychain (LockTaken 0 false)) other) in
  ~ exists found made, again = Ok (found, made) /\ certifies (ca_cert_pem found) (ca_key_pem found) = true.
Proof.
  intros other again H.
  assert (E : result_of (load_or_create_root_ca [] no_keychain (LockTaken 0 false)) other = Ok (MkRootCa [ROOT_VALIDITY; 1; 2; 3] [1; 2; 3], true)).
  { vm_compute. reflexivity. }
  destruct (ca_found_again_iff [] no_keychain no_keychain (LockTaken 0 false) 0 false other (MkRootCa [ROOT_VALIDITY; 1; 2; 3] [1; 2; 3])
    E eq_refl eq_refl eq_refl ltac:(by vm_compute)) as [[Hi _] _].
  specialize (Hi H). destruct Hi as [Hi|[Hi|Hi]]; discriminate Hi.
Defined.

Lemma interrupted_creation_final_witness : exists n,
  let s' := stopped n (load_or_create_root_ca [] no_keychain (LockTaken 0 false)) empty_disk in
  result_of (load_or_create_root_ca [] no_keychain (LockTaken 0 false)) s' = Err CaIo.
Proof.
  assert (E : generate_ca (root_params [] no_keychain) (ca_random no_keychain) = Some ([ROOT_VALIDITY; 1; 2; 3], [1; 2; 3]))
    by (vm_compute; reflexivity).
  destruct (interrupted_creation_final [] no_keychain empty_disk 0 false ([ROOT_VALIDITY; 1; 2; 3], [1; 2; 3])
    eq_refl eq_refl eq_refl eq_refl E) as (n & _ & H).
  exists n. apply H.
Defined.

Section Leaf.
#[local] Instance toy_leafs : LeafCerts bytes := fun domain _ => Ok domain.
#[local] Instance toy_leaf_order : LeafOrder bytes := map_to_list.
#[local] Instance toy_leaf_order_laws : LeafOrderLaws bytes.
Proof. intros m. done. Defined.

(** A cache of one entry, which makes room. *)
Lemma leaf_cache_spec_witness :
  let c := MkLeafs {[ [1] := ([1], 0) ]} 1 in
  let '(c', r) := load_or_create 5 [2] (MkRootCa [] []) c in (size (entries c') <= 1)%nat /\ r = Ok [2].
Proof.
  intros c. destruct (load_or_create 5 [2] (MkRootCa [] []) c) as [c' r] eqn:E.
  assert (Hmade : forall d config t, entries c !! d = Some (config, t) -> (fun d config => config = d) d config).
  { intros d config t H. cbn in H. destruct (decide ([1] = d)) as [<-|Hd].
    - vm_compute in H. by injection H as <- _.
    - unfold c in H. cbn [entries] in H. change ((singletonM [1] ([1], 0) : gmap bytes (bytes * Z)) !! d = Some (config, t)) in H.
      by rewrite lookup_singleton_ne in H. }
  destruct (leaf_cache_spec 5 [2] (MkRootCa [] []) c c' r (fun d config => config = d) E ltac:(cbn; lia) ltac:(by vm_compute) Hmade
    ltac:(intros config [= <-]; reflexivity)) as (H1 & H2 & _ & H3).
  rewrite H1 in H2. exact (conj H2 H3).
Defined.
End Leaf.
