(* ===== verification/NodeExamples.v ===== *)
(** * The action state at work

    Concrete runs of the processes that keep an action state, and the
    instances of their theorems. *)
From Stdlib Require Import String.
From S2P Require Import Prelude Bytes Config Crypto Kyn Names Net Kid Records Action Lru Peers Storage StoreVerify TieBreaker Store EventLoop Oracle ActionNode LoopExamples.
#[local] Open Scope Z_scope.

(** ** A codec of the state: its [Countable] encoding *)

#[export] Instance NetworkAction_countable : Countable NetworkAction.
Proof.
  apply (inj_countable'
    (fun a => match a with RotateSovereignKey k => inl k | EmergencyHalt => inr true | EmergencyResume => inr false end)
    (fun x => match x with inl k => RotateSovereignKey k | inr true => EmergencyHalt | inr false => EmergencyResume end)).
  by intros [].
Defined.

#[export] Instance SignedNetworkAction_countable : Countable SignedNetworkAction.
Proof.
  apply (inj_countable' (fun m => (sna_action m, timestamp_kyn m, sovereign_signatures m))
    (fun '(a, t, s) => MkSignedNetworkAction a t s)). by intros [].
Defined.

#[export] Instance ActionState_eq_dec : EqDecision ActionState.
Proof. solve_decision. Defined.

#[export] Instance ActionState_countable : Countable ActionState.
Proof.
  apply (inj_countable'
    (fun s => (genesis_kyn s, active_sovereign_key s, is_halted s, halt_start_kyn s, total_paused_kyns s,
               pause_history s, executed_hashes s, action_log s))
    (fun '(g, k, h, hs, t, ph, eh, l) => MkActionState g k h hs t ph eh l)). by intros [].
Defined.

Module ToyNode.

Definition state_codec : StateCodec := {|
  state_to_bin st := Some [Zpos (encode st)];
  state_of_bin b := match b with [Zpos p] => decode p | _ => None end |}.

Definition state_codec_laws : @StateCodecLaws state_codec.
Proof. intros st. eexists. split; [reflexivity|]. cbn. apply decode_encode. Defined.

(** Two kyns after genesis the sovereign rotates its key, then halts the network. *)
Definition now : Z := BEACON_GENESIS + KYN_GENESIS + 2.
Definition halt : SignedNetworkAction := toy_action EmergencyHalt (KYN_GENESIS + 1).
Definition resume : SignedNetworkAction := toy_action EmergencyResume (KYN_GENESIS + 2).

Definition reactor : @ReactorJson ToyLoop.serde := {|
  reveal_from_value _ := None; raw_kyn_from_slice _ := None;
  action_from_slice b := match b with [1] => Some halt | [2] => Some resume | _ => None end |}.

Definition net : OracleNet := {| http_get _ _ := HttpFailed; txt_lookup _ := None |}.
Definition vec : RawKynVec := fun _ => None.
Definition provider : BeaconProvider := MkProvider true [] [].
Definition key : bytes := bs "last_kyn".
Definition topic : bytes := bs "/global".

#[local] Existing Instances Toy.toy_sha2 Toy.toy_mldsa Toy.toy_codecs toy_beacon ToyLoop.wasm_true ToyLoop.serde
  reactor vec net state_codec state_codec_laws.

Definition store0 : Sto := wasm_new.

Definition process := core_process_action_message toy_sovereign false.
Definition genesis : ActionState := action_state_new KYN_GENESIS.
Definition after (st : ActionState) (msg : SignedNetworkAction) : ActionState :=
  match process st msg (KYN_GENESIS + 2) with Some (st', _) => st' | None => st end.
Definition halted : ActionState := after genesis halt.
Definition resumed : ActionState := after halted resume.

Lemma halt_accepted : process genesis halt (KYN_GENESIS + 2) = Some (halted, Ok (Some NetworkHalted)).
Proof. vm_compute. reflexivity. Qed.

Lemma resume_accepted : process halted resume (KYN_GENESIS + 2) = Some (resumed, Ok (Some NetworkResumed)).
Proof. vm_compute. reflexivity. Qed.

Lemma clock role : current_kyn false provider key role now store0 = (store0, KYN_GENESIS + 2).
Proof. destruct role; vm_compute; reflexivity. Qed.

Definition fresh : ActionProc := MkActionProc genesis [] [] [] [] [].

(** A halted host that ran its save. *)
Definition halting : list MachineInput :=
  [InBoot true [] true; InGossip now topic [opcode_byte OpAction; 1] true; InSave 0 true; InUpdate 0].

End ToyNode.

#[local] Existing Instances Toy.toy_sha2 Toy.toy_mldsa Toy.toy_codecs toy_beacon ToyLoop.wasm_true ToyLoop.serde
  ToyNode.reactor ToyNode.vec ToyNode.net ToyNode.state_codec ToyNode.state_codec_laws.
Import ToyNode.

Notation go := (machine_run toy_sovereign false topic provider key).

(** The process of a run, if it is up and has no save pending. *)
Definition settled (m : option Machine) : option ActionProc :=
  m ← m; p ← mc_proc m; match ap_tasks p with [] => Some p | _ :: _ => None end.

Example host_is_halted :
  match settled (go RoleHost halting (power_on store0)) with
  | Some p => is_halted (ap_state p) && bool_decide (ap_loop_log p = [halt])
  | None => false
  end = true.
Proof. vm_compute. reflexivity. Qed.

Lemma settled_inv m p : settled m = Some p -> exists m', m = Some m' /\ mc_proc m' = Some p /\ ap_tasks p = [].
Proof.
  unfold settled. destruct m as [m|]; cbn; [|done]. destruct (mc_proc m) as [q|] eqn:E; cbn; [|done].
  destruct (ap_tasks q) eqn:Et; [|done]. intros [= <-]. eauto.
Qed.

Lemma action_state_durable_witness :
  exists m p saved, go RoleHost halting (power_on store0) = Some m /\ mc_proc m = Some p /\
    load_action_from_disk (mc_disk m) true = (mc_disk m, Some saved) /\ preserves saved (ap_state p).
Proof.
  pose proof host_is_halted as Hs.
  destruct (settled (go RoleHost halting (power_on store0))) as [p|] eqn:E; [|discriminate Hs].
  apply settled_inv in E as (m & Hm & Hp & Ht).
  destruct (action_state_durable toy_sovereign false topic provider key RoleHost halting store0 m p)
    as (saved & Hl & HP & _); [repeat constructor|exact Hm|exact Hp|intros _; exact Ht|].
  exists m, p, saved. split_and!; [exact Hm|exact Hp|apply Hl|exact HP].
Defined.

(** The host forgets that the network was resumed: after a restart it is halted. *)
Lemma reordered_saves_forget_witness :
  exists m m' q', go RoleHost
    [InGossip now topic [opcode_byte OpAction; 1] true; InGossip now topic [opcode_byte OpAction; 2] true;
     InSave 1 true; InSave 0 true] (MkMachine store0 (MkActionDisk FileMissing []) (Some fresh)) = Some m /\
    go RoleHost [InBoot true [] true] m = Some m' /\ mc_proc m' = Some q' /\ is_halted (ap_state q') = true.
Proof.
  destruct (reordered_saves_forget toy_sovereign false topic provider key RoleHost now now [1] [2] store0
    (MkActionDisk FileMissing []) fresh halt resume halted resumed (Some NetworkHalted) (Some NetworkResumed) [])
    as (m & Hm & _ & m' & q' & Hb & Hq & Hst);
    [discriminate|reflexivity|reflexivity|reflexivity| | |].
  - rewrite (clock RoleHost). exact halt_accepted.
  - rewrite (clock RoleHost). cbn [fst]. rewrite (clock RoleHost). exact resume_accepted.
  - exists m, m', q'. split_and!; [exact Hm|exact Hb|exact Hq|rewrite Hst; vm_compute; reflexivity].
Defined.

Lemma corrupt_state_reset_witness :
  exists m1 m2 p, machine_step toy_sovereign false topic provider key RoleNode (InBoot true [] true)
      (MkMachine store0 (MkActionDisk (FileBytes []) []) None) = Some m1 /\ mc_proc m1 = None /\
    machine_step toy_sovereign false topic provider key RoleNode (InBoot true [] true) m1 = Some m2 /\
    mc_proc m2 = Some p /\ ap_state p = genesis.
Proof.
  destruct (corrupt_state_reset toy_sovereign false topic provider key RoleNode [] [] store0 [] true None)
    as [(m1 & H1 & H2 & _ & m2 & p & H3 & H4 & H5) _]; [reflexivity|].
  exists m1, m2, p. split_and!; [exact H1|exact H2|exact H3|exact H4|exact H5].
Defined.

(** The API calls its count the actions executed since genesis; it counts
    those that have not expired. *)
Example executed_actions_expire :
  let pruned := action_prune resumed (KYN_GENESIS + MAX_AGE_KYNS + 10) toy_config in
  total_executed_actions (handle_get_action_status false provider key now store0 resumed) = 2 /\
  total_executed_actions (handle_get_action_status false provider key now store0 pruned) = 0 /\
  length (action_log pruned) = 2%nat.
Proof. split_and!; vm_compute; reflexivity. Qed.

(** The API refuses the halt order that every listener accepts. *)
Lemma kyn_zero_refuses_witness :
  exists d, handle_publish_action toy_sovereign false provider key true halt true (Some [1]) true now
      (MkMachine store0 (MkActionDisk FileMissing []) (Some fresh)) fresh
    = Some (MkMachine d (MkActionDisk FileMissing []) (Some fresh), PaInvalid StaleProposal, None).
Proof.
  destruct (kyn_zero_refuses toy_sovereign false provider key) as (_ & H & _).
  destruct (H halt true (Some [1]) true now (MkMachine store0 (MkActionDisk FileMissing []) (Some fresh)) fresh)
    as (d & Hd); [vm_compute; discriminate|reflexivity|].
  exists d. exact Hd.
Defined.
