(* ===== verification/DaemonExamples.v ===== *)
(** * A daemon with the default configuration

    The interfaces of [DaemonStart] at concrete values, a whole start, and its
    theorem applied to it. *)
From Stdlib Require Import String.
From S2P Require Import Prelude Traced Bytes Config Crypto Kyn Names Physics Net Kid Records Action Lru Peers Storage StoreVerify TieBreaker Store EventLoop Oracle ActionNode ApiAuth KidManager RegistrationApi Proxy LocalState PacScript Ca LoopExamples NodeExamples DaemonStart.
#[local] Open Scope Z_scope.

(** The port, the length of the name space, the name space and the address. *)
#[local] Instance plain_read : ProxyJson := fun text =>
  match text with port :: n :: rest => Some (take (Z.to_nat n) rest, port, Some (drop (Z.to_nat n) rest)) | _ => None end.
#[local] Instance plain_write : ProxyJsonWrite := fun nsp ip port => port :: len nsp :: nsp ++ ip.
#[local] Instance plain_laws : ProxyJsonLaws.
Proof.
  intros nsp ip port _. cbn. unfold len. rewrite Nat2Z.id.
  by rewrite take_app_length, drop_app_length.
Qed.
#[local] Instance listed : ProxyOrder := map_to_list.
#[local] Instance listed_laws : ProxyOrderLaws.
Proof. intros m. done. Qed.
#[local] Instance build : BuildTexts :=
  {| LOCAL_BIND_IP := bs "127.0.0.2"; IPFS_GATEWAY := []; BASE_DOMAIN := bs "kinetic.network"; BEACON_ENDPOINTS := []; BOOTSTRAP_NODES := [] |}.
#[local] Instance one_text : Toml := {| toml_from_str _ := Some default_config; toml_to_string_pretty _ := Some [1] |}.
#[local] Instance simple_ca : CaCodec := {|
  generate_ca p random := Some (valid_until p :: random, random);
  not_after cert := head cert;
  key_readable _ := true;
  self_signable _ _ := true;
  certifies cert key := bool_decide (tail cert = key) |}.
#[local] Existing Instances Toy.toy_sha2 Toy.toy_mldsa Toy.toy_mldsa_sign Toy.toy_codecs toy_beacon ToyLoop.wasm_true ToyLoop.serde
  ToyNode.reactor ToyNode.vec ToyNode.net ToyNode.state_codec ToyKid.keys ToyDht.lru ToyLoop.peer_strings.

Definition token_of (b : Z) (name : bytes) : TokenIo := MkTokenIo (Some [b; len name]) true true None.

(** Every call succeeds; the second rotation draws other tokens than the first. *)
Definition all_well : StartIo := {|
  config_opens := true; config_created := CnCreated true; config_torn := []; storage_dir_made := true; database_opened := true;
  database_left := false; identity_opens := true; start_time := 0; early_tokens := token_of 1; base_dir_made := true;
  corrupt_renamed := true; network_loop_built := true; sync_answers := []; sync_saved := true; base_dir_made_again := true;
  ca_lock := LockTaken 0 false; ca_io := MkCaIo 0 true true true false [1; 2; 3] Written Written true; natives_dir_made := true;
  registering := RegWritten; nrs_udp_bound := true; nrs_tcp_bound := true; api_tokens := token_of 2; api_binds := fun _ => (true, true);
  local_addr_known := true; serve_ends_well := true; registration_removed := true |}.

(** An identity is all there is. *)
Definition fresh_host : DaemonHost :=
  MkDaemonHost None [] false (MkMachine wasm_new (MkActionDisk FileMissing []) None) (Some (repeat 7 32)) ∅ (MkCa None None None false) []
    None None None.

Notation start := (run_daemon [] true ToyNode.provider ToyNode.key []).

Example daemon_tasks : tasks_spawned (final (start all_well) fresh_host) =
  [NetworkLoop; ChallengeSolver; GossipProcessor; Telemetry; ProxyServer; IncomingRequests; Republisher; HeartbeatLoop; DnsServerTask].
Proof. vm_compute. reflexivity. Qed.

(** The token written before the identity is mined opens nothing once the API serves. *)
Example early_token_replaced :
  exists n m, token_files (stopped n (start all_well) fresh_host) !! bs "admin.token" = Some (hex_lower [1; 11]) /\
    api_serving (stopped n (start all_well) fresh_host) = None /\
    tk_admin <$> (served_tokens <$> api_serving (stopped m (start all_well) fresh_host)) = Some (hex_lower [2; 11]).
Proof. exists 24%nat, 68%nat. vm_compute. auto. Qed.

Lemma daemon_registration_witness :
  result_of (start all_well) fresh_host = Ok tt /\
  (exists n serving, api_serving (stopped n (start all_well) fresh_host) = Some serving /\
     registration (stopped n (start all_well) fresh_host) = Some (registration_text default_config) /\
     files_hold (served_tokens serving) (token_files (stopped n (start all_well) fresh_host))) /\
  registration (final (start all_well) fresh_host) = None.
Proof.
  pose proof (daemon_registration [] true ToyNode.provider ToyNode.key [] all_well fresh_host (conj eq_refl eq_refl)) as H. cbv zeta in H.
  assert (E : result_of (start all_well) fresh_host = Ok tt) by (vm_compute; reflexivity). rewrite E in H.
  destruct H as (config & Hc & _ & Hs & Hr & Hf & _). change (Some default_config = Some config) in Hc. injection Hc as <-.
  split; [exact E|]. split; [|exact Hf].
  destruct Hr as (n & serving & Hn).
  - split; [repeat (apply Forall_cons; split; [reflexivity|]); by constructor|]. split; [reflexivity|by eexists].
  - exists n, serving. destruct (Hs n serving Hn) as [H1 H2]. split; [exact Hn|]. exact (conj H1 H2).
Defined.
